(* ===== verification/_CoqProject ===== *)
-Q . S2P
Prelude.v
Interfaces.v
Mem.v
Bytes.v
Pmm.v
Heap.v
Vmm.v
Pcb.v
Queue.v
Sched.v
Process.v
RamDisk.v
FsDisk.v
FsFile.v
FsDir.v
FsApi.v
Ports.v
Frame.v
Keyboard.v
Console.v
Cstr.v
Interrupt.v
Ata.v
Auth.v
Calc.v
Editor.v
Syscall.v
Rtc.v
Observe.v
Shell.v
System.v
Boot.v
Tasks.v
SelfTest.v
