(* ===== verification/Prelude.v ===== *)
(** * ARES OS: a verification development

    ARES OS is a small x86_64 kernel in C.  After the boot code has entered long
    mode, [kernel_main] (src/kernel/kernel.c) initialises the components below
    one after the other, asks for a login, starts demo processes and runs the
    shell.  Everything runs in one address space and at one privilege level.

    ** The parts and how they interact

    - Memory: the page allocator hands 4 KiB frames to the page-table code; the
      heap manages a fixed 4 MiB window of its own.
    - Processes: a table of 64 control blocks with a kernel stack each, FIFO
      queues linked through the blocks, four schedulers behind one dispatcher,
      and process creation, exit, kill and [yield], which end in the context
      switch of switch.asm.
    - Interrupts: vectors are dispatched to registered handlers; the timer
      handler counts ticks and calls the scheduler, the keyboard handler fills a
      ring buffer, vector 0x80 is the system-call dispatcher.
    - Files: AresFS stores files and directories in 512-byte blocks of a disk
      that the ATA driver reaches through I/O ports; the system calls put a
      descriptor table in front of it, and the editor uses them.
    - Programs: login, shell, editor, calculator and monitor read keys from the
      keyboard buffer and print on the VGA console.

    ** How code becomes definitions

    A C function is a definition of the same name.  Stateful code is a program
    [prog S A] (this file), a function from the component's static variables
    [S] to a result and new variables, or [None] for undefined behaviour: an
    access outside an array, a null dereference, a loop that does not end.
    [runs m s Q] says that [m] ends without undefined behaviour in a result and
    state that satisfy [Q], so a theorem about [runs] includes safety and
    termination.  Integers are [Z] with the wrap-around of their width written
    out ([u8] ... [u64], [i32]); arrays are lists accessed with [arr_get] and
    [arr_set]; structures in physical memory are bytes of a finite map.

    What is not in src/ is a parameter: the disk ([BlockDevice]), the hardware
    behind the ports ([PortIO], [InterruptController], [AtaDrive], [CmosClock]),
    the arithmetic of [double] ([Double]), the keys that arrive.  Classes in
    Interfaces.v also stand between components: [FrameAllocator] between page
    allocator and page tables, [BlockDevice] between file system and driver,
    [FileCalls] between editor and system calls; the clients are proved on the
    class and the implementations give the instances.

    ** Files

    - Prelude: programs, loops, machine integers, arrays.  Mem and Bytes: bytes
      at addresses, bytes in lists.  Interfaces: the classes.  Cstr: string
      functions that several programs share.
    - Pmm (memory/pmm.c), Heap (memory/heap.c), Vmm (memory/vmm.c).
    - Pcb (process/pcb.c, pcb.h), Queue (process/queue.c), Sched
      (scheduler/scheduler.c, fcfs.c, rr.c, priority.c, mlq.c), Process
      (process/process.c, switch.asm).
    - FsDisk, FsFile, FsDir, FsApi (fs/aresfs.c from the blocks up), RamDisk (a
      disk in memory, the instance used in examples), Ata (drivers/ata.c).
    - Ports (lib/io.h), Keyboard (drivers/keyboard.c), Rtc (drivers/rtc.c),
      Console (kernel/console.c), Interrupt (kernel/interrupt.c, irq.c).
    - Auth (security/auth.c), Syscall (syscall/syscall.c), Editor
      (editor/editor.c), Calc (calc/calc.c), Observe
      (observability/observability.c), Shell (shell/shell.c).
    - System: the editor on the system calls on the file system, run on concrete
      input.  Frame: rules for what programs leave alone.  Boot
      (kernel/kernel.c): all components as one machine, [kernel_main].  Tasks:
      the demo and idle processes (kernel.c, process.c), the tail of the
      interrupt stubs (interrupt_stubs.asm), the benchmarks
      (scheduler/benchmark.c, benchmark/benchmark.c).  SelfTest (test/): the
      test runner and its three suites.

    In each file the record named after the component holds its static
    variables, the definitions after it are its functions in the order in which
    they call each other, and the theorems named as claims come last.

    ** What the theorems show

    - Memory: the page bitmap partitions memory into reserved, free and owned
      pages, over any calls, reserved pages that somebody frees accounted for;
      the heap refines a map from pointers to byte arrays (objects are
      aligned, disjoint and keep their contents) with first fit and forward
      coalescing; mapping, unmapping and splitting pages change exactly the
      translations they should.
    - Processes: the linked queues are lists; each scheduler hands out processes
      in the order its policy says; the process table, queues and stacks keep
      one invariant under every operation; a switch always comes back to its
      caller, which is a flaw of the code: no process other than the kernel's
      own thread ever runs.
    - Files: a directory is a map from names to inodes, paths resolve or fail
      component by component, what is written is read back, other files and
      free blocks are untouched, formatting and mounting are inverse; over a
      working ATA drive that follows the protocol the driver reads what is on
      it, and writes what it is given if the drive tolerates the CACHE FLUSH
      that the driver sends without waiting (a drive that does not can lose the
      last sector); over a dead drive it reports failure.
    - Devices: keys reach readers in order, at the grain of single memory
      accesses, and are dropped only when 255 wait, but extended keys (arrows,
      Home, ...) give nothing, a flaw of the code; the console is a screen of
      25 lines that scrolls; interrupts are dispatched and acknowledged; the
      clock is shown as it stands.
    - Programs: accounts are a map with unique names and a login needs the
      password; system calls refine a descriptor map; sleeping ends; the editor
      does to text and screen what its key table says and saves what it shows;
      the calculator evaluates the tree a line spells and survives any input;
      the shell tokenizes, recalls and executes lines as a session on lists.
    - The machine: [kernel_main] brings up every component on hardware with a
      disk that is found and works, lets in only who knows a password, and runs
      the session typed; the demo, benchmark and test processes line up as their
      schedulers say and never run, whatever interrupts force switches, so that
      the benchmarks fill the process table and the self tests cannot all
      pass.

    ** Bounds and fuel

    Loops over pointers or keys have fuel, and the theorems prove it enough:
    the heap walk 131073 (the window holds no more headers), queue walks 65 (64
    processes), file bodies count / 512 + 3 blocks, path walks the length of the
    path, number output 21 digits, ATA polling 1000000 reads as in the code, the
    parser of the calculator 260 (twice its line and a margin), editor loops the
    distance they can move, a session the number of keys.  Strings passed to
    system calls are read up to 65536 bytes.  A sleeping process waits as many
    interrupts as ticks are missing.  The waits of the scheduler benchmark have
    no fuel: the timer and keyboard interrupts that come during each wait and
    between the waits are an argument, and when they run out first the outcome
    says that the code still waits.

    ** Not modelled

    The boot code (boot/stage1.asm, stage2.asm, kernel/arch/x86_64/boot.asm) and
    the register saving of the interrupt stubs: machine state below the level of
    these definitions.  Components have memories of their own where
    the code shares one address space: heap objects, page tables and process
    stacks do not overlap by the fixed layout of memory.h.  Preemption inside a
    component is modelled only for the keyboard buffer; elsewhere interrupts
    come between calls, and in the composed machine where it waits: in the
    rounds of the benchmark's waits, between them, and around the reads of the
    clock.  A [yield] that really left its caller would end a modelled test run
    as gone elsewhere; the theorems show that none does. *)
From stdpp Require Export prelude gmap.
From Stdlib Require Export ZArith Lia.

(** Shared vocabulary: machine integers, bit lemmas, the state-and-fault monad
    in which C code is written, bounded loops and their invariant rules,
    indexed arrays, counting. *)

Declare Scope ares_scope.
Delimit Scope ares_scope with ares.
#[global] Open Scope Z_scope.

(** * Arithmetic automation *)

(** [lia] after replacing [/] and [mod] by their defining equations. *)
Ltac dlia := Z.div_mod_to_equations; lia.

(** Boolean comparisons on [Z] in hypotheses and goal become propositions. *)
Ltac zbool :=
  repeat match goal with
  | H : (_ <? _) = true |- _ => apply Z.ltb_lt in H
  | H : (_ <? _) = false |- _ => apply Z.ltb_ge in H
  | H : (_ <=? _) = true |- _ => apply Z.leb_le in H
  | H : (_ <=? _) = false |- _ => apply Z.leb_gt in H
  | H : (_ =? _) = true |- _ => apply Z.eqb_eq in H
  | H : (_ =? _) = false |- _ => apply Z.eqb_neq in H
  | H : (_ >=? _) = _ |- _ => rewrite Z.geb_leb in H
  | H : (_ >? _) = _ |- _ => rewrite Z.gtb_ltb in H
  | H : (_ && _) = true |- _ => apply andb_true_iff in H as [? ?]
  | H : (_ || _) = false |- _ => apply orb_false_iff in H as [? ?]
  | H : negb _ = true |- _ => apply negb_true_iff in H
  | H : negb _ = false |- _ => apply negb_false_iff in H
  end.

(** Case split on every boolean comparison that an [if] or a boolean
    expression of the goal tests. *)
Ltac zcases :=
  repeat match goal with
  | |- context [Z.eqb ?a ?b] => destruct (Z.eqb_spec a b); simpl; try lia
  | |- context [Z.ltb ?a ?b] => destruct (Z.ltb_spec a b); simpl; try lia
  | |- context [Z.leb ?a ?b] => destruct (Z.leb_spec a b); simpl; try lia
  end.

(** * Machine integers *)

(** The value a [w]-bit unsigned object holds after being assigned [x]. *)
Definition wrap (w x : Z) : Z := x mod 2 ^ w.

Abbreviation u8 := (wrap 8).
Abbreviation u16 := (wrap 16).
Abbreviation u32 := (wrap 32).
Abbreviation u64 := (wrap 64).

#[global] Arguments wrap : simpl never.

(** The value of an [int] converted from [x] (two's complement). *)
Definition i32 (x : Z) : Z := (x + 2 ^ 31) mod 2 ^ 32 - 2 ^ 31.

Lemma wrap_small w x : 0 <= x < 2 ^ w -> wrap w x = x.
Proof. apply Z.mod_small. Qed.

Lemma wrap_range w x : 0 <= w -> 0 <= wrap w x < 2 ^ w.
Proof. intros. apply Z.mod_pos_bound. lia. Qed.

Lemma i32_small x : - 2 ^ 31 <= x < 2 ^ 31 -> i32 x = x.
Proof. intros. unfold i32. rewrite Z.mod_small; lia. Qed.

(** Bitwise complement at width [w]: C's [~x] on an unsigned operand. *)
Definition bnot (w x : Z) : Z := wrap w (Z.lnot x).

(** [1 << k] at width [w]. *)
Definition bit (w k : Z) : Z := wrap w (Z.shiftl 1 k).

Lemma bit_pow w k : 0 <= k < w -> bit w k = 2 ^ k.
Proof.
  intros. unfold bit. rewrite Z.shiftl_1_l, wrap_small; [done|].
  split; [lia|]. apply Z.pow_lt_mono_r; lia.
Qed.

Lemma testbit_bit w k j : 0 <= k < w -> Z.testbit (bit w k) j = (k =? j).
Proof. intros. rewrite bit_pow by done. apply Z.pow2_bits_eqb. lia. Qed.

Lemma testbit_bnot w x j :
  0 <= w -> 0 <= j -> Z.testbit (bnot w x) j = (j <? w) && negb (Z.testbit x j).
Proof.
  intros. unfold bnot, wrap. rewrite Z.testbit_mod_pow2 by lia.
  by rewrite Z.lnot_spec by lia.
Qed.

(** A number of [w] bits: what every bit at or above [w] being clear means. *)
Lemma bits_range w x :
  0 <= w -> 0 <= x -> (forall j, w <= j -> Z.testbit x j = false) -> 0 <= x < 2 ^ w.
Proof. intros. split; [lia|]. by apply Z.bounded_iff_bits_nonneg. Qed.

Lemma testbit_high w x j : 0 <= x < 2 ^ w -> 0 <= w <= j -> Z.testbit x j = false.
Proof. intros. eapply (Z.bounded_iff_bits_nonneg w x); lia. Qed.

Lemma lor_range w x y : 0 <= w -> 0 <= x < 2 ^ w -> 0 <= y < 2 ^ w -> 0 <= Z.lor x y < 2 ^ w.
Proof.
  intros. apply bits_range; [lia|apply Z.lor_nonneg; lia|].
  intros. by rewrite Z.lor_spec, !(testbit_high w) by lia.
Qed.

Lemma land_range w x y : 0 <= w -> 0 <= x < 2 ^ w -> 0 <= Z.land x y < 2 ^ w.
Proof.
  intros. apply bits_range; [lia|apply Z.land_nonneg; lia|].
  intros. by rewrite Z.land_spec, (testbit_high w x) by lia.
Qed.

Lemma shiftr_range w x k : 0 <= w -> 0 <= k -> 0 <= x < 2 ^ w -> 0 <= Z.shiftr x k < 2 ^ w.
Proof.
  intros. apply bits_range; [lia|apply Z.shiftr_nonneg; lia|].
  intros. rewrite Z.shiftr_spec by lia. apply (testbit_high w); lia.
Qed.

(** Masking with [2^k - 1] is reduction modulo [2^k]. *)
Lemma land_low k m x : 0 <= k -> m = 2 ^ k - 1 -> Z.land x m = x mod 2 ^ k.
Proof.
  intros ? ->. rewrite <- Z.land_ones by lia. f_equal. rewrite Z.ones_equiv. lia.
Qed.

Lemma shiftr_div k x : 0 <= k -> Z.shiftr x k = x / 2 ^ k.
Proof. apply Z.shiftr_div_pow2. Qed.

(** Masking with [~(2^k - 1)] rounds down to a multiple of [2^k]. *)
Lemma land_bnot_low w k m x :
  0 <= k <= w -> m = 2 ^ k - 1 -> 0 <= x < 2 ^ w -> Z.land x (bnot w m) = x / 2 ^ k * 2 ^ k.
Proof.
  intros Hk -> Hx. rewrite <- Z.shiftr_div_pow2, <- Z.shiftl_mul_pow2 by lia.
  apply Z.bits_inj'. intros j Hj. rewrite Z.land_spec, testbit_bnot, Z.shiftl_spec by lia.
  replace (2 ^ k - 1) with (Z.ones k) by (rewrite Z.ones_equiv; lia).
  destruct (Z.lt_ge_cases j k).
  - rewrite Z.ones_spec_low, (Z.testbit_neg_r _ (j - k)) by lia. by rewrite !andb_false_r.
  - rewrite Z.ones_spec_high, Z.shiftr_spec, Z.sub_add by lia.
    destruct (Z.ltb_spec j w); [by rewrite andb_true_r|]. by rewrite (testbit_high w x j) by lia.
Qed.

(** The bits below [k] of a multiple of [2^k] are clear. *)
Lemma testbit_aligned k x j : 0 <= j < k -> x mod 2 ^ k = 0 -> Z.testbit x j = false.
Proof.
  intros Hj Hx. rewrite <- (Z.mod_pow2_bits_low x k j) by lia. by rewrite Hx, Z.bits_0.
Qed.

(** Or-ing low bits into an aligned address adds them. *)
Lemma lor_low_add k x f : 0 <= k -> x mod 2 ^ k = 0 -> 0 <= f < 2 ^ k -> Z.lor x f = x + f.
Proof.
  intros Hk Hx Hf. symmetry. apply Z.add_nocarry_lor, Z.bits_inj_0. intros j.
  rewrite Z.land_spec. destruct (Z.lt_ge_cases j 0); [by rewrite Z.testbit_neg_r|].
  destruct (Z.lt_ge_cases j k).
  - by rewrite (testbit_aligned k) by (done || lia).
  - by rewrite (testbit_high k f), andb_false_r by lia.
Qed.

(** Testing a flag: [(e & (1 << k)) != 0]. *)
Lemma land_bit_testbit w k e : 0 <= k < w -> negb (Z.land e (bit w k) =? 0) = Z.testbit e k.
Proof.
  intros Hk. destruct (Z.eqb_spec (Z.land e (bit w k)) 0) as [H|H]; cbn [negb].
  - apply (f_equal (fun x => Z.testbit x k)) in H.
    rewrite Z.land_spec, testbit_bit, Z.eqb_refl, andb_true_r, Z.bits_0 in H by lia. done.
  - symmetry. apply not_false_iff_true. intros Hf. apply H, Z.bits_inj_0. intros j.
    rewrite Z.land_spec, testbit_bit by lia. destruct (Z.eqb_spec k j) as [<-|]; [by rewrite Hf|].
    apply andb_false_r.
Qed.

Create HintDb mach.
#[export] Hint Resolve lor_range land_range shiftr_range wrap_range : mach.

(** The loop [while ((word & 1) == 0) { word >>= 1; bit++; }], which both the
    page allocator and the process table use to find the lowest set bit.  The
    fuel is the word's width; [None] is a loop that would not stop. *)
Fixpoint first_set (fuel : nat) (word bitno : Z) : option Z :=
  match fuel with
  | O => None
  | S fuel =>
      if Z.land word 1 =? 0 then first_set fuel (Z.shiftr word 1) (bitno + 1)
      else Some bitno
  end.

Lemma land_1_testbit x : (Z.land x 1 =? 0) = negb (Z.testbit x 0).
Proof.
  rewrite (land_low 1) by lia. rewrite Z.bit0_odd. change (2 ^ 1) with 2.
  rewrite Zmod_odd. by destruct (Z.odd x).
Qed.

Lemma first_set_spec fuel : forall word bitno,
  0 < word < 2 ^ Z.of_nat fuel ->
  exists k, first_set fuel word bitno = Some (bitno + k) /\ 0 <= k < Z.of_nat fuel /\
    Z.testbit word k = true /\ (forall j, j < k -> Z.testbit word j = false).
Proof.
  induction fuel as [|fuel IH]; intros word bitno Hw; [simpl in Hw; lia|].
  cbn [first_set]. rewrite land_1_testbit.
  rewrite Nat2Z.inj_succ, Z.pow_succ_r in Hw by lia.
  destruct (Z.testbit word 0) eqn:E0; simpl.
  { exists 0. rewrite Z.add_0_r. split_and!; try done; try lia.
    intros j Hj. apply Z.testbit_neg_r; lia. }
  pose proof (Z.div2_odd word) as Hd. rewrite Z.bit0_odd in E0. rewrite E0 in Hd.
  simpl in Hd. rewrite <- Z.div2_spec.
  destruct (IH (Z.div2 word) (bitno + 1)) as (k & -> & Hk & Hs & Hlow); [lia|].
  exists (k + 1). split_and!; try lia; [f_equal; lia| |].
  - rewrite <- Hs, Z.div2_spec, Z.shiftr_spec by lia. f_equal; lia.
  - intros j Hj. destruct (Z.eq_dec j 0) as [->|]; [by rewrite Z.bit0_odd|].
    destruct (Z.lt_ge_cases j 0); [apply Z.testbit_neg_r; lia|].
    rewrite <- (Hlow (j - 1)), Z.div2_spec, Z.shiftr_spec by lia. f_equal; lia.
Qed.

(** * Counting and arrays *)

(** How many elements of [l] satisfy [f]. *)
Fixpoint countb {A} (f : A -> bool) (l : list A) : Z :=
  match l with
  | [] => 0
  | x :: l => (if f x then 1 else 0) + countb f l
  end.

Lemma countb_range {A} (f : A -> bool) l : 0 <= countb f l <= Z.of_nat (length l).
Proof. induction l as [|x l IH]; cbn [countb length]; [lia|]. destruct (f x); lia. Qed.

Lemma countb_ext {A} (f g : A -> bool) l :
  (forall x, x ∈ l -> f x = g x) -> countb f l = countb g l.
Proof.
  induction l as [|x l IH]; intros H; [done|]. cbn [countb].
  rewrite (H x), IH; [done| |set_solver]. intros y Hy. apply H. set_solver.
Qed.

(** Turning one element's test from false to true adds one to the count. *)
Lemma countb_flip {A} (f g : A -> bool) l i :
  NoDup l -> i ∈ l -> f i = false -> g i = true ->
  (forall x, x ∈ l -> x <> i -> f x = g x) -> countb g l = countb f l + 1.
Proof.
  induction l as [|x l IH]; intros Hnd Hi Hf Hg Hext; [set_solver|].
  apply NoDup_cons in Hnd as [Hx Hnd]. cbn [countb].
  apply elem_of_cons in Hi as [->|Hi].
  - rewrite Hf, Hg. rewrite (countb_ext g f l); [lia|].
    intros y Hy. symmetry. apply Hext; set_solver.
  - rewrite (Hext x) by set_solver. rewrite IH by set_solver. lia.
Qed.

Lemma countb_pos {A} (f : A -> bool) l : 0 < countb f l <-> exists x, x ∈ l /\ f x = true.
Proof.
  induction l as [|x l IH]; cbn [countb].
  { split; [lia|]. by intros (x & Hx%elem_of_nil & _). }
  pose proof (countb_range f l). setoid_rewrite elem_of_cons. destruct (f x) eqn:E.
  - split; [eauto|lia].
  - rewrite Z.add_0_l, IH. split; [naive_solver|].
    intros (y & [->|?] & ?); [congruence|eauto].
Qed.

Lemma countb_zero {A} (f : A -> bool) l :
  countb f l = 0 <-> forall x, x ∈ l -> f x = false.
Proof.
  pose proof (countb_range f l) as Hr. pose proof (countb_pos f l) as Hp. split.
  - intros H0 x Hx. apply not_true_iff_false. intros Hfx.
    assert (0 < countb f l) by (apply Hp; eauto). lia.
  - intros H. destruct (Z.eq_dec (countb f l) 0) as [|Hne]; [done|].
    destruct (proj1 Hp ltac:(lia)) as (x & Hx & Hfx). rewrite H in Hfx; done.
Qed.

(** Removing an element that is not there. *)
Lemma filter_ne_id {A} `{EqDecision A} (x : A) (l : list A) : x ∉ l -> filter (.≠ x) l = l.
Proof.
  induction l as [|y l IH]; intros Hx; [done|]. apply not_elem_of_cons in Hx as [Hne Hx].
  rewrite filter_cons_True by done. by rewrite IH.
Qed.

Lemma elem_of_concat {A} (x : A) (ls : list (list A)) : x ∈ concat ls <-> exists l, x ∈ l /\ l ∈ ls.
Proof.
  induction ls as [|l ls IH]; cbn [concat]; [set_solver|].
  rewrite elem_of_app, IH. setoid_rewrite elem_of_cons. naive_solver.
Qed.

(** C array access: [arr_get l i] is [l[i]], and [arr_set l i x] the array
    after [l[i] = x]; [None] is an access outside the array. *)
Definition arr_get {A} (l : list A) (i : Z) : option A :=
  if 0 <=? i then l !! Z.to_nat i else None.

Definition arr_set {A} (l : list A) (i : Z) (x : A) : option (list A) :=
  if (0 <=? i) && (i <? Z.of_nat (length l)) then Some (<[Z.to_nat i := x]> l) else None.

Lemma arr_get_lookup {A} (l : list A) i : 0 <= i -> arr_get l i = l !! Z.to_nat i.
Proof. intros. unfold arr_get. by rewrite (proj2 (Z.leb_le _ _)) by lia. Qed.

Lemma arr_get_in {A} (l : list A) i :
  0 <= i < Z.of_nat (length l) -> exists x, arr_get l i = Some x.
Proof.
  intros. unfold arr_get. rewrite (proj2 (Z.leb_le _ _)) by lia.
  apply lookup_lt_is_Some. lia.
Qed.

Lemma arr_get_Some {A} (l : list A) i x :
  arr_get l i = Some x -> 0 <= i < Z.of_nat (length l).
Proof.
  unfold arr_get. destruct (Z.leb_spec 0 i); [|done].
  intros ?%lookup_lt_Some. lia.
Qed.

Lemma arr_get_elem {A} (l : list A) i x : arr_get l i = Some x -> x ∈ l.
Proof.
  unfold arr_get. destruct (0 <=? i); [|done]. apply list_elem_of_lookup_2.
Qed.

Lemma arr_set_in {A} (l : list A) i x :
  0 <= i < Z.of_nat (length l) -> arr_set l i x = Some (<[Z.to_nat i := x]> l).
Proof.
  intros. unfold arr_set. rewrite (proj2 (Z.leb_le _ _)), (proj2 (Z.ltb_lt _ _)) by lia. done.
Qed.

Lemma arr_set_Some {A} (l l' : list A) i x :
  arr_set l i x = Some l' -> 0 <= i < Z.of_nat (length l) /\ l' = <[Z.to_nat i := x]> l.
Proof.
  unfold arr_set. destruct (Z.leb_spec 0 i), (Z.ltb_spec i (Z.of_nat (length l)));
    simpl; intros; simplify_eq; split; [lia|done].
Qed.

Lemma arr_get_set {A} (l l' : list A) i j x :
  arr_set l i x = Some l' -> arr_get l' j = if j =? i then Some x else arr_get l j.
Proof.
  intros [? ->]%arr_set_Some. unfold arr_get. zcases; subst; try done.
  - rewrite list_lookup_insert_eq by lia. done.
  - apply list_lookup_insert_ne. lia.
Qed.

Lemma arr_set_length {A} (l l' : list A) i x :
  arr_set l i x = Some l' -> length l' = length l.
Proof. intros [_ ->]%arr_set_Some. apply length_insert. Qed.

Lemma arr_set_app {A} (l r : list A) x y : arr_set (l ++ x :: r) (Z.of_nat (length l)) y = Some (l ++ y :: r).
Proof.
  rewrite arr_set_in by (rewrite length_app; cbn; lia). rewrite Nat2Z.id, insert_app_r_alt, Nat.sub_diag by lia. done.
Qed.

Lemma arr_get_app {A} (l r : list A) x : arr_get (l ++ x :: r) (Z.of_nat (length l)) = Some x.
Proof.
  unfold arr_get. rewrite (proj2 (Z.leb_le _ _)), Nat2Z.id by lia. apply list_lookup_middle. done.
Qed.

Lemma arr_get_replicate {A} n (x : A) i :
  0 <= i < Z.of_nat n -> arr_get (replicate n x) i = Some x.
Proof.
  intros. unfold arr_get. rewrite (proj2 (Z.leb_le _ _)) by lia.
  apply lookup_replicate_2. lia.
Qed.

(** * Programs *)

(** C code that reads and writes a state [S] and returns an [A].  [None] is
    undefined behaviour: an access outside an array, a null dereference, a
    loop that does not stop. *)
Definition prog (S A : Type) : Type := S -> option (A * S).

#[global] Instance prog_ret S : MRet (prog S) := fun A a s => Some (a, s).
#[global] Instance prog_bind S : MBind (prog S) := fun A B k m s =>
  match m s with
  | Some (a, s') => k a s'
  | None => None
  end.

Definition gets {S A} (f : S -> A) : prog S A := fun s => Some (f s, s).
Definition modify {S} (f : S -> S) : prog S unit := fun s => Some (tt, f s).

(** Use a value that must be there: [None] is a fault. *)
Definition need {S A} (o : option A) : prog S A := fun s => (fun a => (a, s)) <$> o.

(** [for (i = start; i < start + n; i++) body(i);] *)
Fixpoint for_ {S} (n : nat) (i : Z) (body : Z -> prog S unit) : prog S unit :=
  match n with
  | O => mret tt
  | S n => _ ← body i; for_ n (i + 1) body
  end.

(** The same loop whose body may leave it with a value (a [return] or a
    [break]); [None] is a loop that ran to its end. *)
Fixpoint for_ret {S R} (n : nat) (i : Z) (body : Z -> prog S (option R)) : prog S (option R) :=
  match n with
  | O => mret None
  | S n =>
      r ← body i;
      match r with
      | Some r => mret (Some r)
      | None => for_ret n (i + 1) body
      end
  end.

(** [runs m s Q]: from [s] the program [m] terminates without undefined
    behaviour, in a result and a state that satisfy [Q]. *)
Definition runs {S A} (m : prog S A) (s : S) (Q : A -> S -> Prop) : Prop :=
  exists a s', m s = Some (a, s') /\ Q a s'.

Section runs.
Context {S : Type}.
Implicit Types (s : S).

Lemma runs_ret {A} (a : A) s (Q : A -> S -> Prop) : Q a s -> runs (mret a) s Q.
Proof. intros. by exists a, s. Qed.

Lemma runs_gets {A} (f : S -> A) s (Q : A -> S -> Prop) : Q (f s) s -> runs (gets f) s Q.
Proof. intros. by exists (f s), s. Qed.

Lemma runs_modify (f : S -> S) s (Q : unit -> S -> Prop) : Q tt (f s) -> runs (modify f) s Q.
Proof. intros. by exists tt, (f s). Qed.

Lemma runs_need {A} (o : option A) a s (Q : A -> S -> Prop) :
  o = Some a -> Q a s -> runs (need o) s Q.
Proof. intros -> ?. by exists a, s. Qed.

Lemma runs_bind {A B} (m : prog S A) (k : A -> prog S B) s (Q : B -> S -> Prop) :
  runs m s (fun a s' => runs (k a) s' Q) -> runs (m ≫= k) s Q.
Proof.
  intros (a & s' & Hm & b & s'' & Hk & HQ). exists b, s''. split; [|done].
  unfold mbind, prog_bind. by rewrite Hm.
Qed.

Lemma runs_mono {A} (m : prog S A) s (Q Q' : A -> S -> Prop) :
  runs m s Q -> (forall a s', Q a s' -> Q' a s') -> runs m s Q'.
Proof. intros (a & s' & ? & ?) HQ. exists a, s'. auto. Qed.

(** A program is a function: two runs agree. *)
Lemma runs_det {A} (m : prog S A) s a s' (Q : A -> S -> Prop) :
  runs m s Q -> m s = Some (a, s') -> Q a s'.
Proof. intros (a1 & s1 & Hm & HQ) Hm'. by simplify_eq. Qed.

(** Invariant rule of a counted loop. *)
Lemma runs_for (I : Z -> S -> Prop) n : forall i body s,
  I i s ->
  (forall j t, i <= j < i + Z.of_nat n -> I j t -> runs (body j) t (fun _ t' => I (j + 1) t')) ->
  runs (for_ n i body) s (fun _ t => I (i + Z.of_nat n) t).
Proof.
  induction n as [|n IH]; intros i body s Hi Hbody; cbn [for_].
  - apply runs_ret. by rewrite Z.add_0_r.
  - apply runs_bind. eapply runs_mono; [apply Hbody; [lia|done]|].
    intros [] t Ht. eapply runs_mono; [apply IH; [exact Ht|]|].
    + intros j t' Hj. apply Hbody. lia.
    + intros [] t'. simpl. by replace (i + 1 + Z.of_nat n) with (i + Z.of_nat (Datatypes.S n)) by lia.
Qed.

(** Invariant rule of a loop that may return early: [I j] holds before each
    iteration [j], an iteration that returns [r] establishes [Q (Some r)]. *)
Lemma runs_for_ret {R} (I : Z -> S -> Prop) (Q : option R -> S -> Prop) n : forall i body s,
  I i s ->
  (forall j t, i <= j < i + Z.of_nat n -> I j t ->
    runs (body j) t (fun r t' => match r with Some _ => Q r t' | None => I (j + 1) t' end)) ->
  (forall t, I (i + Z.of_nat n) t -> Q None t) ->
  runs (for_ret n i body) s Q.
Proof.
  induction n as [|n IH]; intros i body s Hi Hbody Hend; cbn [for_ret].
  - apply runs_ret, Hend. by rewrite Z.add_0_r.
  - apply runs_bind. eapply runs_mono; [apply Hbody; [lia|done]|].
    intros [r|] t Ht; simpl in *; [by apply runs_ret|].
    apply IH; [done| |].
    + intros j t' Hj. apply Hbody. lia.
    + intros t'. replace (i + 1 + Z.of_nat n) with (i + Z.of_nat (Datatypes.S n)) by lia. apply Hend.
Qed.
End runs.

#[global] Typeclasses Opaque prog.

(** One step of symbolic execution of a goal [runs m s Q]. *)
Ltac run1 :=
  match goal with
  | |- runs (mbind _ _) _ _ => apply runs_bind
  | |- runs (mret _) _ _ => apply runs_ret
  | |- runs (gets _) _ _ => apply runs_gets
  | |- runs (modify _) _ _ => apply runs_modify
  end; cbv beta.
Ltac run := repeat run1.
