(* ===== verification/Interfaces.v ===== *)
(** Contracts between components, stated as classes: a client is proved
    against the class, the implementation's file gives the instance. *)
From S2P Require Import Prelude.

(** A source of page frames, as the virtual memory manager uses
    [pmm_alloc_page]: the call itself, the allocator's invariant and the pool
    of frames (by physical address) it may still hand out. *)
Class FrameAllocator (S : Type) := {
  fa_alloc : prog S Z;
  fa_inv : S -> Prop;
  fa_free : S -> Z -> bool }.

(** What the client may rely on: the call never faults; it returns [NULL] (0)
    only when the pool is empty, and otherwise a non-null page-aligned
    address inside the physical address mask, taken out of the pool. *)
Class FrameAllocatorLaws (S : Type) `{FrameAllocator S} := {
  fa_pool_aligned s a : fa_inv s -> fa_free s a = true -> 0 < a < 2 ^ 52 /\ a mod 4096 = 0;
  fa_alloc_ok s : fa_inv s ->
    runs fa_alloc s (fun a s' => fa_inv s' /\
      ((a = 0 /\ s' = s /\ forall b, fa_free s b = false) \/
       (a <> 0 /\ fa_free s a = true /\
        forall b, fa_free s' b = if b =? a then false else fa_free s b))) }.

(** A disk of 512-byte sectors, as the file system uses the ATA driver:
    probing, presence, and the transfer of one sector.  A read is given the
    buffer and returns a status (0 is success) with the buffer's new contents;
    a write returns a status. *)
Class BlockDevice (D : Type) := {
  bd_init : prog D unit;
  bd_present : D -> bool;
  bd_read : Z -> list Z -> prog D (Z * list Z);
  bd_write : Z -> list Z -> prog D Z }.

(** A healthy drive: [bd_inv] says that a drive with working sectors is
    attached and was probed, [bd_sector] gives the contents of a sector.
    Reads return the sector and change no sector, writes replace exactly the
    addressed sector.  The file system needs sectors 2048 to 6143. *)
Class BlockDeviceLaws (D : Type) `{BlockDevice D} := {
  bd_inv : D -> Prop;
  bd_sector : D -> Z -> list Z;
  bd_limit : Z;
  bd_limit_ge : 6144 <= bd_limit;
  bd_sector_ok d lba : bd_inv d -> 0 <= lba < bd_limit ->
    length (bd_sector d lba) = 512%nat /\ Forall (fun b => 0 <= b < 2 ^ 8) (bd_sector d lba);
  bd_present_ok d : bd_inv d -> bd_present d = true;
  bd_read_ok d lba buf : bd_inv d -> 0 <= lba < bd_limit -> length buf = 512%nat ->
    runs (bd_read lba buf) d (fun r d' => r = (0, bd_sector d lba) /\ bd_inv d' /\
      forall l, 0 <= l < bd_limit -> bd_sector d' l = bd_sector d l);
  bd_write_ok d lba buf : bd_inv d -> 0 <= lba < bd_limit -> length buf = 512%nat ->
    Forall (fun b => 0 <= b < 2 ^ 8) buf ->
    runs (bd_write lba buf) d (fun r d' => r = 0 /\ bd_inv d' /\
      forall l, 0 <= l < bd_limit -> bd_sector d' l = if l =? lba then buf else bd_sector d l) }.

(** The hardware behind the x86 I/O ports: reading and writing a port of 8 or
    16 bits may change the state of the device that answers. *)
Class PortIO (H : Type) := {
  port_inb : Z -> H -> Z * H;
  port_outb : Z -> Z -> H -> H;
  port_inw : Z -> H -> Z * H;
  port_outw : Z -> Z -> H -> H }.

(** The master 8259A controller in fully nested mode: which of its eight lines
    are in service, and the delivery of a line to the processor.  Delivery puts
    the line in service; reading a port changes no line; a non-specific end of
    interrupt (0x20 to port 0x20) takes the line of highest priority, which is
    the lowest in-service number, out of service. *)
Class InterruptController (H : Type) `{PortIO H} := {
  in_service : H -> Z -> bool;
  deliver : Z -> H -> H;
  deliver_in_service i h j : 0 <= i < 8 -> in_service (deliver i h) j = (j =? i) || in_service h j;
  read_in_service p h j : in_service (port_inb p h).2 j = in_service h j;
  eoi_in_service h i : 0 <= i < 8 -> in_service h i = true -> (forall j, 0 <= j < i -> in_service h j = false) ->
    forall j, in_service (port_outb 0x20 0x20 h) j = if j =? i then false else in_service h j }.

(** The file calls a program makes through INT 0x80 (SYS_open, SYS_read,
    SYS_write, SYS_close): a path is its characters, a call returns the [int]
    the program sees; a read also gives the bytes stored to the buffer. *)
Class FileCalls (W : Type) := {
  fc_open : list Z -> Z -> prog W Z;
  fc_read : Z -> Z -> prog W (Z * list Z);
  fc_write : Z -> list Z -> prog W Z;
  fc_close : Z -> prog W unit }.

(** What a program relies on: from a state of the service every call returns,
    and a read stores as many bytes as it reports, at most as many as were
    asked for. *)
Class FileCallsLaws (W : Type) `{FileCalls W} := {
  fc_inv : W -> Prop;
  fc_open_ok path flags w : fc_inv w -> runs (fc_open path flags) w (fun _ w' => fc_inv w');
  fc_read_ok fd count w : fc_inv w -> 0 <= count -> runs (fc_read fd count) w (fun r w' =>
    fc_inv w' /\ Z.of_nat (length r.2) = Z.max 0 r.1 /\ r.1 <= count);
  fc_write_ok fd bytes w : fc_inv w -> runs (fc_write fd bytes) w (fun _ w' => fc_inv w');
  fc_close_ok fd w : fc_inv w -> runs (fc_close fd) w (fun _ w' => fc_inv w') }.
