(* ===== verification/Mem.v ===== *)
(** Physical memory as the kernel's C code sees it: bytes at 64-bit
    addresses, read and written in little-endian units (x86_64).

    A memory is a finite map from addresses to bytes; an address without an
    entry holds 0.  Every content of a finite machine is such a map, so
    quantifying over maps quantifies over the content left by firmware. *)
From S2P Require Import Prelude.

Definition mem_byte (m : gmap Z Z) (a : Z) : Z := u8 (default 0 (m !! a)).

(** The [n] bytes from [a] on. *)
Definition mem_bytes (m : gmap Z Z) (a n : Z) : list Z := mem_byte m <$> seqZ a n.

Definition load (n a : Z) (m : gmap Z Z) : Z := little_endian_to_Z 8 (mem_bytes m a n).

Fixpoint store_bytes (a : Z) (bs : list Z) (m : gmap Z Z) : gmap Z Z :=
  match bs with
  | [] => m
  | b :: bs => store_bytes (a + 1) bs (<[a := b]> m)
  end.

Definition store (n a v : Z) (m : gmap Z Z) : gmap Z Z :=
  store_bytes a (Z_to_little_endian n 8 v) m.

(** Two memories hold the same bytes in [lo, hi). *)
Definition same_on (m m' : gmap Z Z) (lo hi : Z) : Prop :=
  forall a, lo <= a < hi -> mem_byte m' a = mem_byte m a.

Lemma mem_byte_range m a : 0 <= mem_byte m a < 2 ^ 8.
Proof. apply wrap_range. lia. Qed.

Lemma mem_byte_insert m a b x :
  mem_byte (<[a := b]> m) x = if x =? a then u8 b else mem_byte m x.
Proof.
  unfold mem_byte. destruct (Z.eqb_spec x a) as [->|].
  - by rewrite lookup_insert_eq.
  - by rewrite lookup_insert_ne by done.
Qed.

Lemma store_bytes_outside bs : forall a m x,
  ~ (a <= x < a + Z.of_nat (length bs)) -> mem_byte (store_bytes a bs m) x = mem_byte m x.
Proof.
  induction bs as [|b bs IH]; intros a m x Hx; [done|]. cbn [store_bytes length] in *.
  rewrite IH, mem_byte_insert by lia. destruct (Z.eqb_spec x a); [lia|done].
Qed.

Lemma store_bytes_read bs : forall a m,
  Forall (fun b => 0 <= b < 2 ^ 8) bs ->
  mem_bytes (store_bytes a bs m) a (Z.of_nat (length bs)) = bs.
Proof.
  induction bs as [|b bs IH]; intros a m Hbs; [done|].
  apply Forall_cons in Hbs as [Hb Hbs]. unfold mem_bytes in *. cbn [store_bytes length].
  rewrite seqZ_cons by lia. cbn [fmap list_fmap].
  replace (Z.succ a) with (a + 1) by lia.
  replace (Z.pred (Z.of_nat (S (length bs)))) with (Z.of_nat (length bs)) by lia.
  f_equal; [|by apply IH].
  rewrite store_bytes_outside, mem_byte_insert, Z.eqb_refl by lia. by apply wrap_small.
Qed.

Lemma mem_bytes_same m m' a n : same_on m m' a (a + n) -> mem_bytes m' a n = mem_bytes m a n.
Proof.
  intros H. unfold mem_bytes. apply list_fmap_ext. intros i x Hx%list_elem_of_lookup_2.
  apply elem_of_seqZ in Hx. apply H. lia.
Qed.

Lemma mem_bytes_length m a n : 0 <= n -> Z.of_nat (length (mem_bytes m a n)) = n.
Proof. intros. unfold mem_bytes. rewrite length_fmap, length_seqZ. lia. Qed.

Lemma mem_bytes_range m a n : Forall (fun b => 0 <= b < 2 ^ 8) (mem_bytes m a n).
Proof. apply Forall_fmap, Forall_forall. intros; apply mem_byte_range. Qed.

Lemma load_same n a m m' : same_on m m' a (a + n) -> load n a m' = load n a m.
Proof. intros H. unfold load. by rewrite (mem_bytes_same m m'). Qed.

Lemma load_range n a m : 0 <= n -> 0 <= load n a m < 2 ^ (8 * n).
Proof.
  intros. unfold load. pose proof (little_endian_to_Z_bound 8 (mem_bytes m a n)) as Hb.
  rewrite mem_bytes_length in Hb by done. replace (8 * n) with (n * 8) by lia.
  apply Hb; [lia|apply mem_bytes_range].
Qed.

Lemma store_outside n a v m lo hi :
  0 <= n -> hi <= a \/ a + n <= lo -> same_on m (store n a v m) lo hi.
Proof.
  intros ? Hd x Hx. apply store_bytes_outside. rewrite length_Z_to_little_endian by lia. lia.
Qed.

Lemma load_store n a v m : 0 <= n -> load n a (store n a v m) = v mod 2 ^ (8 * n).
Proof.
  intros. unfold load, store.
  set (bs := Z_to_little_endian n 8 v).
  assert (Hl : Z.of_nat (length bs) = n) by (unfold bs; rewrite length_Z_to_little_endian; lia).
  rewrite <- Hl at 1. rewrite store_bytes_read by (apply Z_to_little_endian_bound; lia).
  unfold bs. rewrite little_endian_to_Z_to_little_endian by lia. f_equal. f_equal. lia.
Qed.

Lemma load_store_same n a v m :
  0 <= n -> 0 <= v < 2 ^ (8 * n) -> load n a (store n a v m) = v.
Proof. intros. rewrite load_store by done. by apply Z.mod_small. Qed.

Lemma load_store_other n a n' b v m :
  0 <= n' -> a + n <= b \/ b + n' <= a -> load n a (store n' b v m) = load n a m.
Proof. intros. apply load_same, store_outside; lia. Qed.

(** Writing a single byte. *)
Lemma mem_byte_store1 a v m x :
  0 <= v < 2 ^ 8 -> mem_byte (store 1 a v m) x = if x =? a then v else mem_byte m x.
Proof.
  intros Hv. unfold store.
  assert (Hle : Z_to_little_endian 1 8 v = [Z.land v (Z.ones 8)])
    by apply (Z_to_little_endian_succ 0 8 v ltac:(lia)).
  rewrite Hle. cbn [store_bytes]. rewrite mem_byte_insert, Z.land_ones by lia.
  destruct (x =? a); [|done]. rewrite Z.mod_small by lia. by apply wrap_small.
Qed.

Lemma same_on_refl m lo hi : same_on m m lo hi.
Proof. done. Qed.

Lemma same_on_trans m1 m2 m3 lo hi :
  same_on m1 m2 lo hi -> same_on m2 m3 lo hi -> same_on m1 m3 lo hi.
Proof. intros H1 H2 a Ha. rewrite H2, H1 by done. done. Qed.

Lemma same_on_sub m m' lo hi lo' hi' :
  same_on m m' lo hi -> lo <= lo' -> hi' <= hi -> same_on m m' lo' hi'.
Proof. intros H ? ? a Ha. apply H. lia. Qed.

(** [m'] differs from [m] at most inside [lo, hi). *)
Definition changed_in (m m' : gmap Z Z) (lo hi : Z) : Prop :=
  forall a, ~ (lo <= a < hi) -> mem_byte m' a = mem_byte m a.

Lemma changed_in_refl m lo hi : changed_in m m lo hi.
Proof. done. Qed.

Lemma changed_in_trans m1 m2 m3 lo hi :
  changed_in m1 m2 lo hi -> changed_in m2 m3 lo hi -> changed_in m1 m3 lo hi.
Proof. intros H1 H2 a Ha. rewrite H2, H1 by done. done. Qed.

Lemma changed_in_sub m m' lo hi lo' hi' :
  changed_in m m' lo hi -> lo' <= lo -> hi <= hi' -> changed_in m m' lo' hi'.
Proof. intros H ? ? a Ha. apply H. lia. Qed.

Lemma changed_in_store n a v m m' lo hi :
  0 <= n -> lo <= a -> a + n <= hi -> changed_in m m' lo hi -> changed_in m (store n a v m') lo hi.
Proof.
  intros ? ? ? H x Hx. rewrite <- H by done.
  unfold store. apply store_bytes_outside. rewrite length_Z_to_little_endian by lia. lia.
Qed.

Lemma changed_in_same m m' lo hi lo' hi' :
  changed_in m m' lo hi -> hi' <= lo \/ hi <= lo' -> same_on m m' lo' hi'.
Proof. intros H ? a Ha. apply H. lia. Qed.

(** Read back a field just written, or one outside what was written. *)
Ltac mem_simp :=
  repeat first [rewrite load_store_same by lia | rewrite load_store_other by lia].

#[export] Hint Resolve same_on_refl store_outside changed_in_refl : mach.
