(* ===== verification/Bytes.v ===== *)
(** Byte arrays as lists: slices, overwriting a range, little-endian fields,
    packed structures as sequences of fields.  Shared by the file system, the
    disk driver and everything else that lays data out in bytes. *)
From S2P Require Import Prelude.

Definition byte_ok (b : Z) : Prop := 0 <= b < 2 ^ 8.

(** [l[off .. off+n)]. *)
Definition slice (off n : Z) (l : list Z) : list Z := take (Z.to_nat n) (drop (Z.to_nat off) l).

(** [l] after [new] was copied to [&l[off]]. *)
Definition splice (off : Z) (new l : list Z) : list Z :=
  take (Z.to_nat off) l ++ new ++ drop (Z.to_nat off + length new) l.

(** Little-endian fields of [n] bytes. *)
Definition le (n v : Z) : list Z := Z_to_little_endian n 8 v.
Definition le_get (off n : Z) (l : list Z) : Z := little_endian_to_Z 8 (slice off n l).
Definition le_put (off n v : Z) (l : list Z) : list Z := splice off (le n v) l.

#[global] Arguments le : simpl never.
#[global] Arguments slice : simpl never.
#[global] Arguments splice : simpl never.

(** Packed structures: the values of fields of the given widths in bytes. *)
Fixpoint pack (ws vs : list Z) : list Z :=
  match ws, vs with
  | w :: ws, v :: vs => le w v ++ pack ws vs
  | _, _ => []
  end.

Fixpoint unpack (ws l : list Z) : list Z :=
  match ws with
  | [] => []
  | w :: ws => little_endian_to_Z 8 (take (Z.to_nat w) l) :: unpack ws (drop (Z.to_nat w) l)
  end.

(** The value fits the field. *)
Definition field_ok (w v : Z) : Prop := 0 <= v < 2 ^ (8 * w).

Definition sum_widths (ws : list Z) : nat := foldr (fun w n => (Z.to_nat w + n)%nat) 0%nat ws.

(** * Slices *)

Lemma slice_length off n l : 0 <= off -> 0 <= n -> off + n <= Z.of_nat (length l) -> length (slice off n l) = Z.to_nat n.
Proof. intros. unfold slice. rewrite length_take, length_drop. lia. Qed.

Lemma slice_all n l : n = Z.of_nat (length l) -> slice 0 n l = l.
Proof. intros ->. unfold slice. rewrite drop_0. apply firstn_all2. lia. Qed.

Lemma splice_length off new l : 0 <= off -> off + Z.of_nat (length new) <= Z.of_nat (length l) ->
  length (splice off new l) = length l.
Proof. intros. unfold splice. rewrite !length_app, length_take, length_drop. lia. Qed.

Lemma splice_all new l : length new = length l -> splice 0 new l = new.
Proof. intros H. unfold splice. cbn [Z.to_nat take app]. rewrite skipn_all2 by lia. by rewrite app_nil_r. Qed.

Lemma splice_lookup off new l i : 0 <= off -> off + Z.of_nat (length new) <= Z.of_nat (length l) ->
  splice off new l !! i =
    if decide (Z.to_nat off <= i < Z.to_nat off + length new)%nat then new !! (i - Z.to_nat off)%nat else l !! i.
Proof.
  intros Ho Hl. unfold splice. case_decide as Hi.
  - rewrite lookup_app_r by (rewrite length_take; lia). rewrite lookup_app_l by (rewrite length_take; lia).
    f_equal. rewrite length_take. lia.
  - destruct (decide (i < Z.to_nat off)%nat).
    + rewrite lookup_app_l by (rewrite length_take; lia). by rewrite lookup_take_lt.
    + rewrite lookup_app_r by (rewrite length_take; lia). rewrite lookup_app_r by (rewrite length_take; lia).
      rewrite lookup_drop. f_equal. rewrite length_take. lia.
Qed.

Lemma slice_lookup off n l i : (i < Z.to_nat n)%nat -> slice off n l !! i = l !! (Z.to_nat off + i)%nat.
Proof. intros. unfold slice. by rewrite lookup_take_lt, lookup_drop. Qed.

Lemma slice_lookup_ge off n l i : (Z.to_nat n <= i)%nat -> slice off n l !! i = None.
Proof. intros. unfold slice. apply lookup_take_ge. lia. Qed.

(** Reading back what was copied, and reading beside it. *)
Lemma slice_splice off n new l : 0 <= off -> n = Z.of_nat (length new) -> off + n <= Z.of_nat (length l) ->
  slice off n (splice off new l) = new.
Proof.
  intros Ho -> Hl. apply list_eq. intros i. destruct (decide (i < length new)%nat).
  - rewrite slice_lookup, splice_lookup by lia. rewrite decide_True by lia. f_equal. lia.
  - rewrite slice_lookup_ge by lia. symmetry. apply lookup_ge_None_2. lia.
Qed.

Lemma slice_splice_ne off n off' new l : 0 <= off -> 0 <= off' -> 0 <= n ->
  off' + Z.of_nat (length new) <= Z.of_nat (length l) ->
  off + n <= off' \/ off' + Z.of_nat (length new) <= off ->
  slice off n (splice off' new l) = slice off n l.
Proof.
  intros Ho Ho' Hn Hl Hd. apply list_eq. intros i. destruct (decide (i < Z.to_nat n)%nat).
  - rewrite !slice_lookup, splice_lookup by lia. rewrite decide_False by lia. done.
  - by rewrite !slice_lookup_ge by lia.
Qed.

Lemma byte_ok_slice off n l : Forall byte_ok l -> Forall byte_ok (slice off n l).
Proof. intros. by apply Forall_take, Forall_drop. Qed.

Lemma byte_ok_splice off new l : Forall byte_ok new -> Forall byte_ok l -> Forall byte_ok (splice off new l).
Proof. intros. unfold splice. rewrite !Forall_app. auto using Forall_take, Forall_drop. Qed.

(** * Little-endian fields *)

Lemma le_length n v : 0 <= n -> length (le n v) = Z.to_nat n.
Proof. intros. unfold le. apply Nat2Z.inj. rewrite length_Z_to_little_endian; lia. Qed.

Lemma le_byte_ok n v : 0 <= n -> Forall byte_ok (le n v).
Proof. intros. apply Z_to_little_endian_bound; lia. Qed.

Lemma le_value n v : 0 <= n -> field_ok n v -> little_endian_to_Z 8 (le n v) = v.
Proof.
  intros Hn Hv. unfold le. rewrite little_endian_to_Z_to_little_endian by lia.
  apply Z.mod_small. unfold field_ok in Hv. by replace (n * 8) with (8 * n) by lia.
Qed.

Lemma le_value_range l : Forall byte_ok l -> field_ok (Z.of_nat (length l)) (little_endian_to_Z 8 l).
Proof.
  intros H. unfold field_ok. pose proof (little_endian_to_Z_bound 8 l ltac:(lia) H) as Hb.
  by replace (8 * Z.of_nat (length l)) with (Z.of_nat (length l) * 8) by lia.
Qed.

Lemma le_get_put off n v l : 0 <= off -> 0 <= n -> off + n <= Z.of_nat (length l) -> field_ok n v ->
  le_get off n (le_put off n v l) = v.
Proof.
  intros. unfold le_get, le_put. rewrite slice_splice by (rewrite ?le_length; lia). by apply le_value.
Qed.

Lemma le_get_put_ne off n off' n' v l : 0 <= off -> 0 <= n -> 0 <= off' -> 0 <= n' ->
  off' + n' <= Z.of_nat (length l) -> off + n <= off' \/ off' + n' <= off ->
  le_get off n (le_put off' n' v l) = le_get off n l.
Proof.
  intros. unfold le_get, le_put. rewrite slice_splice_ne; [done|lia|lia|lia|rewrite le_length by lia..]; lia.
Qed.

Lemma le_put_length off n v l : 0 <= off -> 0 <= n -> off + n <= Z.of_nat (length l) -> length (le_put off n v l) = length l.
Proof. intros. unfold le_put. apply splice_length; rewrite ?le_length by lia; lia. Qed.

Lemma le_put_byte_ok off n v l : 0 <= n -> Forall byte_ok l -> Forall byte_ok (le_put off n v l).
Proof. intros. apply byte_ok_splice; [by apply le_byte_ok|done]. Qed.

Lemma le_get_range off n l : 0 <= off -> 0 <= n -> off + n <= Z.of_nat (length l) -> Forall byte_ok l ->
  field_ok n (le_get off n l).
Proof.
  intros. unfold le_get. pose proof (le_value_range (slice off n l) ltac:(by apply byte_ok_slice)) as Hb.
  rewrite slice_length, Z2Nat.id in Hb by lia. done.
Qed.

(** * Packed structures *)

Lemma pack_length ws : forall vs, length ws = length vs -> Forall (fun w => 0 <= w) ws -> length (pack ws vs) = sum_widths ws.
Proof.
  induction ws as [|w ws IH]; intros [|v vs] Hl Hw; try done. apply Forall_cons in Hw as [Hw Hws].
  cbn [pack sum_widths foldr]. rewrite length_app, le_length by done. f_equal. apply IH; [by injection Hl|done].
Qed.

Lemma pack_byte_ok ws : forall vs, Forall (fun w => 0 <= w) ws -> Forall byte_ok (pack ws vs).
Proof.
  induction ws as [|w ws IH]; intros [|v vs] Hw; try done; try constructor. apply Forall_cons in Hw as [Hw Hws].
  cbn [pack]. apply Forall_app. split; [by apply le_byte_ok|by apply IH].
Qed.

(** A structure written field by field reads back as it was. *)
Lemma unpack_pack ws : forall vs, Forall (fun w => 0 <= w) ws -> Forall2 field_ok ws vs -> unpack ws (pack ws vs) = vs.
Proof.
  induction ws as [|w ws IH]; intros vs Hw Hv; inversion Hv as [|w' v' ws' vs' Hf Hfs]; subst; [done|].
  apply Forall_cons in Hw as [Hw Hws]. cbn [pack unpack].
  rewrite take_app_length', drop_app_length' by (by rewrite le_length). by rewrite le_value, IH.
Qed.

Lemma unpack_length ws l : length (unpack ws l) = length ws.
Proof. revert l. induction ws as [|w ws IH]; intros l; [done|]. cbn. by rewrite IH. Qed.

Lemma unpack_field_ok ws : forall l, Forall (fun w => 0 <= w) ws -> (sum_widths ws <= length l)%nat -> Forall byte_ok l ->
  Forall2 field_ok ws (unpack ws l).
Proof.
  induction ws as [|w ws IH]; intros l Hw Hl Hb; [constructor|]. apply Forall_cons in Hw as [Hw Hws].
  cbn [unpack sum_widths foldr] in *. fold (sum_widths ws) in Hl. constructor.
  - pose proof (le_value_range (take (Z.to_nat w) l) ltac:(by apply Forall_take)) as H.
    rewrite length_take in H. by replace (Z.of_nat (Z.to_nat w `min` length l)) with w in H by lia.
  - apply IH; [done|rewrite length_drop; lia|by apply Forall_drop].
Qed.
