(* ===== verification/Pmm.v ===== *)
(** The physical memory manager (src/memory/pmm.c): a bitmap of 16384 page
    frames in 256 64-bit words, 1 = free, with its counters. *)
From S2P Require Import Prelude Interfaces.

Module Pmm.

(** src/memory/memory.h *)
Definition PAGE_SIZE : Z := 4096.
Definition KERNEL_HEAP_START : Z := 0x200000.
Definition KERNEL_HEAP_INITIAL_SIZE : Z := 0x400000.
Definition MEM_PHYSICAL_END : Z := 0x4000000.

Definition PMM_TOTAL_PAGES : Z := MEM_PHYSICAL_END / PAGE_SIZE.
Definition PMM_BITMAP_WORDS : Z := PMM_TOTAL_PAGES / 64.

(** The static variables of pmm.c. *)
Record pmm := mk_pmm {
  pmm_bitmap : list Z;
  pmm_total_pages : Z;
  pmm_free_pages : Z;
  pmm_reserved_pages : Z }.

Definition set_bitmap (b : list Z) (s : pmm) : pmm :=
  mk_pmm b (pmm_total_pages s) (pmm_free_pages s) (pmm_reserved_pages s).
Definition set_total (n : Z) (s : pmm) : pmm :=
  mk_pmm (pmm_bitmap s) n (pmm_free_pages s) (pmm_reserved_pages s).
Definition set_free (n : Z) (s : pmm) : pmm :=
  mk_pmm (pmm_bitmap s) (pmm_total_pages s) n (pmm_reserved_pages s).
Definition set_reserved (n : Z) (s : pmm) : pmm :=
  mk_pmm (pmm_bitmap s) (pmm_total_pages s) (pmm_free_pages s) n.

(** [pmm_bitmap[w]] read and written; outside the array is a fault. *)
Definition load_word (w : Z) : prog pmm Z :=
  b ← gets pmm_bitmap; need (arr_get b w).
Definition store_word (w x : Z) : prog pmm unit :=
  b ← gets pmm_bitmap; b' ← need (arr_set b w x); modify (set_bitmap b').

Definition bitmap_set_free (page_idx : Z) : prog pmm unit :=
  w ← load_word (Z.shiftr page_idx 6);
  store_word (Z.shiftr page_idx 6) (Z.lor w (bit 64 (Z.land page_idx 63))).

Definition bitmap_set_used (page_idx : Z) : prog pmm unit :=
  w ← load_word (Z.shiftr page_idx 6);
  store_word (Z.shiftr page_idx 6) (Z.land w (bnot 64 (bit 64 (Z.land page_idx 63)))).

Definition bitmap_is_free (page_idx : Z) : prog pmm bool :=
  w ← load_word (Z.shiftr page_idx 6);
  mret (negb (Z.land (Z.shiftr w (Z.land page_idx 63)) 1 =? 0)).

(** Pages [start / PAGE_SIZE <= i < ceil (end / PAGE_SIZE)] below the total. *)
Definition mark_range_used (start end_ : Z) : prog pmm unit :=
  let s := start / PAGE_SIZE in
  let e := u64 (end_ + PAGE_SIZE - 1) / PAGE_SIZE in
  total ← gets pmm_total_pages;
  for_ (Z.to_nat (Z.min e total - s)) s (fun i =>
    f ← bitmap_is_free i;
    if (f : bool) then
      _ ← bitmap_set_used i;
      _ ← modify (fun st => set_free (u64 (pmm_free_pages st - 1)) st);
      modify (fun st => set_reserved (u64 (pmm_reserved_pages st + 1)) st)
    else mret tt).

(** [_kernel_start] and [_kernel_end] are the linker's symbols (link.ld). *)
Definition pmm_init (_kernel_start _kernel_end mem_top : Z) : prog pmm unit :=
  _ ← for_ (Z.to_nat PMM_BITMAP_WORDS) 0 (fun w => store_word w 0);
  _ ← modify (set_total (mem_top / PAGE_SIZE));
  t ← gets pmm_total_pages;
  _ ← (if PMM_TOTAL_PAGES <? t then modify (set_total PMM_TOTAL_PAGES) else mret tt);
  _ ← modify (set_free 0);
  _ ← modify (set_reserved 0);
  total ← gets pmm_total_pages;
  _ ← for_ (Z.to_nat total) 0 (fun i =>
        _ ← bitmap_set_free i;
        modify (fun st => set_free (u64 (pmm_free_pages st + 1)) st));
  _ ← mark_range_used 0 0x100000;
  _ ← mark_range_used 0xB8000 0xC0000;
  _ ← mark_range_used _kernel_start _kernel_end;
  mark_range_used KERNEL_HEAP_START (KERNEL_HEAP_START + KERNEL_HEAP_INITIAL_SIZE).

(** The physical address of the lowest free page, marked used; 0 is [NULL]. *)
Definition pmm_alloc_page : prog pmm Z :=
  r ← for_ret (Z.to_nat PMM_BITMAP_WORDS) 0 (fun w =>
    word ← load_word w;
    if word =? 0 then mret None
    else
      bitno ← need (first_set 64 word 0);
      let page_idx := u64 (Z.shiftl w 6) + bitno in
      total ← gets pmm_total_pages;
      if total <=? page_idx then mret (Some 0)
      else
        _ ← bitmap_set_used page_idx;
        _ ← modify (fun st => set_free (u64 (pmm_free_pages st - 1)) st);
        mret (Some (u64 (page_idx * PAGE_SIZE))));
  mret (default 0 r).

Definition pmm_free_page (phys_addr : Z) : prog pmm unit :=
  if phys_addr =? 0 then mret tt
  else if negb (Z.land phys_addr (PAGE_SIZE - 1) =? 0) then mret tt
  else
    let page_idx := phys_addr / PAGE_SIZE in
    total ← gets pmm_total_pages;
    if total <=? page_idx then mret tt
    else
      f ← bitmap_is_free page_idx;
      if (f : bool) then mret tt
      else
        _ ← bitmap_set_free page_idx;
        modify (fun st => set_free (u64 (pmm_free_pages st + 1)) st).

Definition pmm_get_free_count (s : pmm) : Z := pmm_free_pages s.

Definition pmm_get_used_count (s : pmm) : Z :=
  u64 (pmm_total_pages s - pmm_free_pages s - pmm_reserved_pages s).

(** * What the bitmap means *)

Definition page_free (s : pmm) (i : Z) : bool :=
  match arr_get (pmm_bitmap s) (i / 64) with
  | Some w => Z.testbit w (i mod 64)
  | None => false
  end.

Definition free_count (s : pmm) : Z := countb (page_free s) (seqZ 0 PMM_TOTAL_PAGES).

(** The bitmap is an array of 256 64-bit words. *)
Record bitmap_ok (s : pmm) : Prop := {
  ok_len : length (pmm_bitmap s) = 256%nat;
  ok_words : Forall (fun w => 0 <= w < 2 ^ 64) (pmm_bitmap s) }.

(** The representation invariant. *)
Record pmm_wf (s : pmm) : Prop := {
  wf_bitmap : bitmap_ok s;
  wf_total : 0 <= pmm_total_pages s <= PMM_TOTAL_PAGES;
  wf_above : forall i, pmm_total_pages s <= i -> page_free s i = false;
  wf_free : pmm_free_pages s = free_count s }.

(** [s'] is [s] with the bit of page [i] set to [v] and nothing else changed. *)
Record bit_set (s : pmm) (i : Z) (v : bool) (s' : pmm) : Prop := {
  bs_ok : bitmap_ok s';
  bs_total : pmm_total_pages s' = pmm_total_pages s;
  bs_free : pmm_free_pages s' = pmm_free_pages s;
  bs_reserved : pmm_reserved_pages s' = pmm_reserved_pages s;
  bs_page : forall j, page_free s' j = if j =? i then v else page_free s j }.

Lemma word_index i : 0 <= i -> Z.shiftr i 6 = i / 64 /\ Z.land i 63 = i mod 64.
Proof.
  intros. rewrite shiftr_div, (land_low 6) by lia. done.
Qed.

Lemma load_word_ok s w :
  bitmap_ok s -> 0 <= w < 256 ->
  exists x, load_word w s = Some (x, s) /\ arr_get (pmm_bitmap s) w = Some x /\ 0 <= x < 2 ^ 64.
Proof.
  intros [Hlen Hw] Hi. destruct (arr_get_in (pmm_bitmap s) w) as [x Hx]; [lia|].
  assert (Hr : 0 <= x < 2 ^ 64).
  { eapply (proj1 (Forall_forall _ _) Hw), arr_get_elem, Hx. }
  exists x. split; [|done]. unfold load_word, need, gets, mbind, prog_bind. simpl. by rewrite Hx.
Qed.

Lemma page_free_out s i : bitmap_ok s -> ~ (0 <= i < PMM_TOTAL_PAGES) -> page_free s i = false.
Proof.
  intros [Hlen _] Hi. unfold page_free.
  destruct (arr_get _ _) as [w|] eqn:E; [|done].
  apply arr_get_Some in E. rewrite Hlen in E. change PMM_TOTAL_PAGES with 16384 in Hi. dlia.
Qed.

(** Storing into one word changes exactly the pages of that word. *)
Lemma store_word_ok s w x :
  bitmap_ok s -> 0 <= w < 256 -> 0 <= x < 2 ^ 64 ->
  runs (store_word w x) s (fun _ s' =>
    bitmap_ok s' /\ s' = set_bitmap (pmm_bitmap s') s /\
    forall j, page_free s' j = if j / 64 =? w then Z.testbit x (j mod 64) else page_free s j).
Proof.
  intros [Hlen Hw] Hi Hx. unfold store_word. run.
  eapply runs_need; [apply arr_set_in; rewrite Hlen; lia|]. run.
  split_and!; simpl; [split; simpl|done|].
  - by rewrite length_insert.
  - by apply Forall_insert.
  - intros j. unfold page_free. simpl.
    rewrite (arr_get_set (pmm_bitmap s) _ w (j / 64) x) by (apply arr_set_in; rewrite Hlen; lia).
    by destruct (j / 64 =? w).
Qed.

Lemma bitmap_is_free_ok s i :
  bitmap_ok s -> 0 <= i < PMM_TOTAL_PAGES -> bitmap_is_free i s = Some (page_free s i, s).
Proof.
  intros Hok Hi. change PMM_TOTAL_PAGES with 16384 in Hi.
  destruct (word_index i) as [E1 E2]; [lia|].
  unfold bitmap_is_free. rewrite E1, E2.
  destruct (load_word_ok s (i / 64)) as (w & Hl & Hg & Hr); [done|dlia|].
  unfold mbind, prog_bind. rewrite Hl. unfold mret, prog_ret, page_free. rewrite Hg.
  rewrite land_1_testbit, negb_involutive, Z.shiftr_spec by lia. done.
Qed.

Lemma div_mod_64 i j : j / 64 = i / 64 -> (j =? i) = (i mod 64 =? j mod 64).
Proof. intros. destruct (Z.eqb_spec j i), (Z.eqb_spec (i mod 64) (j mod 64)); try done; dlia. Qed.

Lemma bitmap_set_free_ok s i :
  bitmap_ok s -> 0 <= i < PMM_TOTAL_PAGES ->
  runs (bitmap_set_free i) s (fun _ s' => bit_set s i true s').
Proof.
  intros Hok Hi. change PMM_TOTAL_PAGES with 16384 in Hi.
  destruct (word_index i) as [E1 E2]; [lia|].
  unfold bitmap_set_free. rewrite E1, E2.
  destruct (load_word_ok s (i / 64)) as (w & Hl & Hg & Hr); [done|dlia|].
  assert (Hm : 0 <= i mod 64 < 64) by dlia.
  apply runs_bind. exists w, s. split; [done|].
  eapply runs_mono; [apply store_word_ok; [done|dlia|]|].
  { rewrite bit_pow by lia. apply lor_range; [lia|done|].
    split; [apply Z.pow_nonneg; lia|apply Z.pow_lt_mono_r; lia]. }
  intros _ s' (Hok' & Hs' & Hp). split; try (done || by rewrite Hs'). intros j. rewrite Hp.
  destruct (Z.eqb_spec (j / 64) (i / 64)) as [Ej|Ej].
  - rewrite Z.lor_spec, testbit_bit, (div_mod_64 i j) by (done || lia).
    unfold page_free. rewrite Ej, Hg. by destruct (i mod 64 =? j mod 64), (Z.testbit w (j mod 64)).
  - destruct (Z.eqb_spec j i); congruence.
Qed.

Lemma bitmap_set_used_ok s i :
  bitmap_ok s -> 0 <= i < PMM_TOTAL_PAGES ->
  runs (bitmap_set_used i) s (fun _ s' => bit_set s i false s').
Proof.
  intros Hok Hi. change PMM_TOTAL_PAGES with 16384 in Hi.
  destruct (word_index i) as [E1 E2]; [lia|].
  unfold bitmap_set_used. rewrite E1, E2.
  destruct (load_word_ok s (i / 64)) as (w & Hl & Hg & Hr); [done|dlia|].
  assert (Hm : 0 <= i mod 64 < 64) by dlia.
  apply runs_bind. exists w, s. split; [done|].
  eapply runs_mono; [apply store_word_ok; [done|dlia|apply land_range; lia]|].
  intros _ s' (Hok' & Hs' & Hp). split; try (done || by rewrite Hs'). intros j. rewrite Hp.
  destruct (Z.eqb_spec (j / 64) (i / 64)) as [Ej|Ej].
  - rewrite Z.land_spec, testbit_bnot, testbit_bit, (div_mod_64 i j) by (done || dlia).
    rewrite (proj2 (Z.ltb_lt _ _)) by dlia.
    unfold page_free. rewrite Ej, Hg. by destruct (i mod 64 =? j mod 64), (Z.testbit w (j mod 64)).
  - destruct (Z.eqb_spec j i); congruence.
Qed.

(** [s'] is [s] after page [i] changed to free ([v = true]) or used, with the
    free counter moved accordingly. *)
Record page_update (s : pmm) (i : Z) (v : bool) (s' : pmm) : Prop := {
  pu_wf : pmm_wf s';
  pu_total : pmm_total_pages s' = pmm_total_pages s;
  pu_reserved : pmm_reserved_pages s' = pmm_reserved_pages s;
  pu_free : pmm_free_pages s' = pmm_free_pages s + (if v then 1 else -1);
  pu_page : forall j, page_free s' j = if j =? i then v else page_free s j }.

Lemma free_count_range s : 0 <= free_count s <= PMM_TOTAL_PAGES.
Proof.
  pose proof (countb_range (page_free s) (seqZ 0 PMM_TOTAL_PAGES)) as H.
  rewrite length_seqZ in H. unfold free_count. change PMM_TOTAL_PAGES with 16384 in *. lia.
Qed.

Lemma free_count_flip s s' i :
  0 <= i < PMM_TOTAL_PAGES -> page_free s i = false -> page_free s' i = true ->
  (forall j, j <> i -> page_free s' j = page_free s j) -> free_count s' = free_count s + 1.
Proof.
  intros Hi H0 H1 Hext. apply (countb_flip _ _ _ i); try done.
  - apply NoDup_seqZ.
  - apply elem_of_seqZ. lia.
  - intros x _ Hx. by rewrite Hext.
Qed.

Lemma free_count_bitmap s s' : pmm_bitmap s = pmm_bitmap s' -> free_count s = free_count s'.
Proof. intros E. apply countb_ext. intros x _. unfold page_free. by rewrite E. Qed.

Lemma free_count_none s : (forall i, page_free s i = false) -> free_count s = 0.
Proof. intros H. apply countb_zero. intros; apply H. Qed.

#[local] Opaque free_count.

Lemma bit_set_update s s1 i v :
  pmm_wf s -> 0 <= i < pmm_total_pages s -> page_free s i = negb v -> bit_set s i v s1 ->
  page_update s i v (set_free (u64 (pmm_free_pages s1 + (if v then 1 else -1))) s1).
Proof.
  intros [Hok Htot Habove Hfree] Hi Hpi [Hok1 Ht Hf Hr Hp].
  assert (Hcount : free_count s1 = free_count s + (if v then 1 else -1)).
  { destruct v.
    - apply (free_count_flip _ _ i); [lia|done|by rewrite Hp, Z.eqb_refl|].
      intros j Hj. rewrite Hp. by apply Z.eqb_neq in Hj as ->.
    - enough (free_count s = free_count s1 + 1) by lia.
      apply (free_count_flip _ _ i); [lia|by rewrite Hp, Z.eqb_refl|done|].
      intros j Hj. rewrite Hp. by apply Z.eqb_neq in Hj as ->. }
  pose proof (free_count_range s1) as Hrange. change PMM_TOTAL_PAGES with 16384 in *.
  assert (Hw : u64 (pmm_free_pages s1 + (if v then 1 else -1)) = free_count s1).
  { rewrite Hf, Hfree, <- Hcount. apply wrap_small. lia. }
  split; [split| | | |].
  - by destruct Hok1.
  - cbn. rewrite Ht. change PMM_TOTAL_PAGES with 16384. lia.
  - intros j Hj. cbn in Hj. change (page_free s1 j = false). rewrite Hp, Habove by lia.
    destruct (Z.eqb_spec j i); [lia|done].
  - cbn [set_free pmm_free_pages]. rewrite Hw. by apply free_count_bitmap.
  - exact Ht.
  - exact Hr.
  - cbn [set_free pmm_free_pages]. rewrite Hw, Hcount, Hfree. done.
  - exact Hp.
Qed.

(** The loop over the words: every word before [w] is zero. *)
Definition none_below (s : pmm) (n : Z) : Prop := forall j, 0 <= j < n -> page_free s j = false.

Lemma word_zero_none s w :
  none_below s (64 * w) -> arr_get (pmm_bitmap s) w = Some 0 -> none_below s (64 * (w + 1)).
Proof.
  intros Hn Hg j Hj. destruct (Z.lt_ge_cases j (64 * w)); [apply Hn; lia|].
  unfold page_free. replace (j / 64) with w by dlia. rewrite Hg. apply Z.bits_0.
Qed.

Lemma word_first_free s w x k :
  arr_get (pmm_bitmap s) w = Some x -> none_below s (64 * w) -> 0 <= w -> 0 <= k < 64 ->
  Z.testbit x k = true -> (forall j, j < k -> Z.testbit x j = false) ->
  page_free s (64 * w + k) = true /\ none_below s (64 * w + k).
Proof.
  intros Hg Hn Hw Hk Hx Hlow. split.
  - unfold page_free. replace ((64 * w + k) / 64) with w by dlia.
    replace ((64 * w + k) mod 64) with k by dlia. by rewrite Hg.
  - intros j Hj. destruct (Z.lt_ge_cases j (64 * w)); [apply Hn; lia|].
    unfold page_free. replace (j / 64) with w by dlia. rewrite Hg. apply Hlow. dlia.
Qed.

Lemma pmm_alloc_page_ok s :
  pmm_wf s ->
  runs pmm_alloc_page s (fun a s' =>
    (a = 0 /\ s' = s /\ forall i, page_free s i = false) \/
    (exists i, a = i * PAGE_SIZE /\ 0 <= i < pmm_total_pages s /\ page_free s i = true /\
       none_below s i /\ page_update s i false s')).
Proof.
  intros Hwf. pose proof Hwf as [Hok Htot Habove _].
  unfold pmm_alloc_page. apply runs_bind.
  eapply runs_for_ret with (I := fun w t => t = s /\ none_below s (64 * w)).
  { split; [done|]. intros j Hj. lia. }
  2: { intros t [-> Hn]. apply runs_ret. left. split_and!; try done. intros i.
       destruct (decide (0 <= i < PMM_TOTAL_PAGES)) as [Hi|Hi]; [apply Hn|by apply page_free_out].
       change PMM_TOTAL_PAGES with 16384 in Hi. change (Z.of_nat _) with 256. lia. }
  intros w t Hw [-> Hn]. change (0 + Z.of_nat _) with 256 in Hw.
  destruct (load_word_ok s w) as (x & Hl & Hg & Hx); [done|lia|].
  apply runs_bind. exists x, s. split; [done|].
  destruct (Z.eqb_spec x 0) as [->|Hx0].
  { run. split; [done|]. by apply word_zero_none. }
  destruct (first_set_spec 64 x 0) as (k & Hk & Hkr & Hkx & Hklow); [lia|].
  apply runs_bind. eapply runs_need; [exact Hk|].
  destruct (word_first_free s w x k) as [Hfree Hbelow]; try done; [lia|].
  rewrite Z.add_0_l.
  assert (Hidx : u64 (Z.shiftl w 6) + k = 64 * w + k).
  { rewrite Z.shiftl_mul_pow2, wrap_small by lia. lia. }
  rewrite Hidx. set (i := 64 * w + k) in *. run.
  destruct (Z.leb_spec (pmm_total_pages s) i) as [Hge|Hlt].
  { rewrite Habove in Hfree by done. done. }
  assert (Hi : 0 <= i < PMM_TOTAL_PAGES) by lia.
  run. eapply runs_mono; [by apply bitmap_set_used_ok|]. intros [] s1 Hbs. run.
  right. exists i. simpl. change PAGE_SIZE with 4096. change PMM_TOTAL_PAGES with 16384 in Hi.
  rewrite wrap_small by lia. split_and!; try (done || lia).
  apply (bit_set_update s s1 i false); try done. lia.
Qed.

Lemma pmm_free_page_ok s i :
  pmm_wf s -> 0 < i < pmm_total_pages s -> page_free s i = false ->
  runs (pmm_free_page (i * PAGE_SIZE)) s (fun _ s' => page_update s i true s').
Proof.
  intros Hwf Hi Hf. pose proof Hwf as [Hok Htot _ _]. unfold pmm_free_page.
  change PAGE_SIZE with 4096. change PMM_TOTAL_PAGES with 16384 in *.
  rewrite (proj2 (Z.eqb_neq _ _)) by lia.
  rewrite (land_low 12) by lia. change (2 ^ 12) with 4096. rewrite Z_mod_mult. simpl.
  rewrite Z_div_mult by lia. run. rewrite (proj2 (Z.leb_gt _ _)) by lia.
  run. exists false, s.
  split; [rewrite bitmap_is_free_ok, Hf; (done || change PMM_TOTAL_PAGES with 16384; lia)|].
  run. eapply runs_mono; [apply bitmap_set_free_ok; [done|change PMM_TOTAL_PAGES with 16384; lia]|].
  intros [] s1 Hbs. run. apply (bit_set_update s s1 i true); (done || lia).
Qed.

(** While [pmm_init] runs every page below the total is free or reserved. *)
Record accounted (s : pmm) : Prop := {
  ac_wf : pmm_wf s;
  ac_reserved : 0 <= pmm_reserved_pages s;
  ac_sum : pmm_free_pages s + pmm_reserved_pages s = pmm_total_pages s }.

Definition in_range (lo hi i : Z) : bool := (lo <=? i) && (i <? hi).

(** Reserving one page, as the body of [mark_range_used] does. *)
Lemma reserve_page_ok s i :
  accounted s -> 0 <= i < pmm_total_pages s ->
  runs (f ← bitmap_is_free i;
        if (f : bool) then
          _ ← bitmap_set_used i;
          _ ← modify (fun st => set_free (u64 (pmm_free_pages st - 1)) st);
          modify (fun st => set_reserved (u64 (pmm_reserved_pages st + 1)) st)
        else mret tt) s
    (fun _ s' => accounted s' /\ pmm_total_pages s' = pmm_total_pages s /\
       forall k, page_free s' k = page_free s k && negb (k =? i)).
Proof.
  intros [Hwf Hres Hsum] Hi. pose proof Hwf as [Hok Htot _ Hf].
  pose proof (free_count_range s) as Hfc.
  run. exists (page_free s i), s. split; [apply bitmap_is_free_ok; (done || lia)|].
  destruct (page_free s i) eqn:Epi; run.
  - eapply runs_mono; [apply bitmap_set_used_ok; (done || lia)|]. intros [] s1 Hbs. run.
    pose proof (bit_set_update s s1 i false Hwf Hi Epi Hbs) as [Hwf' Ht' Hr' Hf' Hp'].
    set (s2 := set_free _ s1) in *.
    change PMM_TOTAL_PAGES with 16384 in *.
    assert (Hw : u64 (pmm_reserved_pages s2 + 1) = pmm_reserved_pages s2 + 1).
    { apply wrap_small. lia. }
    split_and!; [split| |].
    + destruct Hwf' as [[] ? ? Hfree]. split; [done|done|done|].
      cbn [set_reserved pmm_free_pages]. rewrite Hfree. by apply free_count_bitmap.
    + cbn [set_reserved pmm_reserved_pages]. lia.
    + cbn [set_reserved pmm_reserved_pages pmm_free_pages pmm_total_pages]. lia.
    + exact Ht'.
    + intros k. change (page_free s2 k = page_free s k && negb (k =? i)). rewrite Hp'.
      destruct (k =? i); [by rewrite andb_false_r|by rewrite andb_true_r].
  - split_and!; try done. intros k. destruct (Z.eqb_spec k i); [subst; by rewrite Epi|].
    by rewrite andb_true_r.
Qed.

Lemma mark_range_used_ok s start end_ :
  accounted s -> 0 <= start -> 0 <= end_ < 2 ^ 64 - PAGE_SIZE ->
  runs (mark_range_used start end_) s (fun _ s' =>
    accounted s' /\ pmm_total_pages s' = pmm_total_pages s /\
    forall k, page_free s' k =
      page_free s k && negb (in_range (start / PAGE_SIZE) ((end_ + PAGE_SIZE - 1) / PAGE_SIZE) k)).
Proof.
  intros Hac Hs He. unfold mark_range_used. change PAGE_SIZE with 4096 in *.
  rewrite wrap_small by lia. set (lo := start / 4096). set (hi := (end_ + 4096 - 1) / 4096).
  assert (Hlo : 0 <= lo) by (unfold lo; dlia). run.
  set (n := Z.to_nat _).
  eapply runs_mono.
  { apply runs_for with (I := fun j t => accounted t /\ pmm_total_pages t = pmm_total_pages s /\
      forall k, page_free t k = page_free s k && negb (in_range lo j k)).
    - split_and!; try done. intros k. unfold in_range.
      destruct (Z.leb_spec lo k), (Z.ltb_spec k lo); try lia; by rewrite andb_true_r.
    - intros j t Hj (Hac' & Ht & Hp).
      eapply runs_mono; [apply reserve_page_ok; [done|lia]|]. intros [] t' (Hac'' & Ht' & Hp').
      split_and!; [done|congruence|]. intros k. rewrite Hp', Hp, <- andb_assoc, <- negb_orb.
      do 2 f_equal. unfold in_range. zcases; done. }
  intros [] t (Hac' & Ht & Hp). split_and!; try done. intros k. rewrite Hp.
  destruct (page_free s k) eqn:Ek; [|done]. simpl. f_equal. unfold in_range.
  assert (k < pmm_total_pages s).
  { destruct (Z.lt_ge_cases k (pmm_total_pages s)) as [|Hge]; [done|].
    apply Hac in Hge. congruence. }
  destruct (Z.leb_spec lo k); [|done]. simpl. unfold n. zcases; done.
Qed.

(** Pages that [pmm_init] keeps out of the pool. *)
Definition reserved_page (_kernel_start _kernel_end i : Z) : bool :=
  in_range 0 (0x100000 / PAGE_SIZE) i ||
  in_range (0xB8000 / PAGE_SIZE) (0xC0000 / PAGE_SIZE) i ||
  in_range (_kernel_start / PAGE_SIZE) ((_kernel_end + PAGE_SIZE - 1) / PAGE_SIZE) i ||
  in_range (KERNEL_HEAP_START / PAGE_SIZE)
           ((KERNEL_HEAP_START + KERNEL_HEAP_INITIAL_SIZE) / PAGE_SIZE) i.

(** Zeroing the bitmap. *)
Lemma clear_bitmap_ok s :
  length (pmm_bitmap s) = 256%nat ->
  runs (for_ (Z.to_nat PMM_BITMAP_WORDS) 0 (fun w => store_word w 0)) s
    (fun _ s' => s' = set_bitmap (replicate 256 0) s).
Proof.
  intros Hlen. eapply runs_mono.
  { apply runs_for with (I := fun w t => exists b, t = set_bitmap b s /\ length b = 256%nat /\
      forall j, 0 <= j < w -> arr_get b j = Some 0).
    - exists (pmm_bitmap s). split_and!; [by destruct s|done|lia].
    - intros w t Hw (b & -> & Hb & Hz). change (0 + Z.of_nat _) with 256 in Hw.
      unfold store_word. run. eapply runs_need; [apply arr_set_in; cbn [set_bitmap pmm_bitmap]; rewrite Hb; lia|]. run.
      exists (<[Z.to_nat w := 0]> b). split_and!; [done|by rewrite length_insert|]. intros j Hj.
      rewrite (arr_get_set b _ w j 0) by (apply arr_set_in; rewrite Hb; lia).
      destruct (Z.eqb_spec j w); [done|apply Hz; lia]. }
  intros [] t (b & -> & Hb & Hz). f_equal. apply list_eq_same_length with 256%nat;
    [by rewrite length_replicate|done|].
  intros i x y Hi Hx Hy. specialize (Hz (Z.of_nat i)). rewrite lookup_replicate in Hy.
  unfold arr_get in Hz. rewrite Nat2Z.id, (proj2 (Z.leb_le _ _)) in Hz by lia.
  rewrite Hz in Hx by (change (Z.of_nat (Z.to_nat _)) with 256; lia). naive_solver.
Qed.

(** Marking every page below the total as free, from an all-zero bitmap. *)
Lemma fill_free_ok s total :
  0 <= total <= PMM_TOTAL_PAGES ->
  s = mk_pmm (replicate 256 0) total 0 0 ->
  runs (for_ (Z.to_nat total) 0 (fun i =>
          _ ← bitmap_set_free i;
          modify (fun st => set_free (u64 (pmm_free_pages st + 1)) st))) s
    (fun _ s' => accounted s' /\ pmm_total_pages s' = total /\
       forall k, page_free s' k = in_range 0 total k).
Proof.
  intros Htot ->. set (s := mk_pmm _ _ _ _).
  assert (Hzero : forall k, page_free s k = false).
  { intros k. unfold page_free. cbn [pmm_bitmap s]. destruct (arr_get _ _) as [w|] eqn:E; [|done].
    apply arr_get_elem, elem_of_replicate in E as [-> _]. apply Z.bits_0. }
  eapply runs_mono.
  { apply runs_for with (I := fun i t => bitmap_ok t /\ pmm_total_pages t = total /\
      pmm_reserved_pages t = 0 /\ pmm_free_pages t = i /\ free_count t = i /\
      forall k, page_free t k = in_range 0 i k).
    - split_and!; [|done|done|done| |].
      + split; [done|]. apply Forall_forall. intros w [-> _]%elem_of_replicate. lia.
      + by apply free_count_none.
      + intros k. rewrite Hzero. unfold in_range. zcases; done.
    - intros i t Hi (Hok & Ht & Hr & Hf & Hc & Hp). change PMM_TOTAL_PAGES with 16384 in *.
      run. eapply runs_mono; [apply bitmap_set_free_ok; [done|change PMM_TOTAL_PAGES with 16384; lia]|].
      intros [] t' [Hok' Ht' Hf' Hr' Hp']. run.
      assert (Hpage : forall k, page_free t' k = in_range 0 (i + 1) k).
      { intros k. rewrite Hp', Hp. unfold in_range. zcases; done. }
      split_and!; [by destruct Hok'|cbn; congruence|cbn; congruence| | |exact Hpage].
      + cbn [set_free pmm_free_pages]. rewrite wrap_small; lia.
      + transitivity (free_count t'); [by apply free_count_bitmap|]. rewrite <- Hc.
        apply (free_count_flip t t' i); [change PMM_TOTAL_PAGES with 16384; lia| | |].
        * rewrite Hp. unfold in_range. zcases.
        * by rewrite Hp', Z.eqb_refl.
        * intros j Hj. rewrite Hp'. by apply Z.eqb_neq in Hj as ->. }
  intros [] t (Hok & Ht & Hr & Hf & Hc & Hp).
  replace (0 + Z.of_nat (Z.to_nat total)) with total in * by lia.
  split_and!; [split; [split|lia|lia]|done|done].
  - done.
  - rewrite Ht. done.
  - intros i Hi. rewrite Hp. unfold in_range. zcases.
  - congruence.
Qed.

Lemma pmm_init_ok ks ke mem_top s :
  length (pmm_bitmap s) = 256%nat ->
  0 <= ks -> 0 <= ke < 2 ^ 64 - PAGE_SIZE -> 0 <= mem_top < 2 ^ 64 ->
  runs (pmm_init ks ke mem_top) s (fun _ s' =>
    accounted s' /\
    pmm_total_pages s' = Z.min (mem_top / PAGE_SIZE) PMM_TOTAL_PAGES /\
    forall i, page_free s' i =
      in_range 0 (pmm_total_pages s') i && negb (reserved_page ks ke i)).
Proof.
  intros Hlen Hks Hke Hmem. unfold pmm_init.
  apply runs_bind. eapply runs_mono; [by apply clear_bitmap_ok|]. intros [] ? ->. run.
  set (total := Z.min (mem_top / PAGE_SIZE) PMM_TOTAL_PAGES).
  assert (Ht : 0 <= total <= PMM_TOTAL_PAGES).
  { unfold total. change PAGE_SIZE with 4096. change PMM_TOTAL_PAGES with 16384. dlia. }
  apply runs_mono with (Q := fun _ t => t = mk_pmm (replicate 256 0) total
    (pmm_free_pages s) (pmm_reserved_pages s)).
  { cbn [set_total set_bitmap pmm_total_pages]. unfold total.
    destruct (Z.ltb_spec PMM_TOTAL_PAGES (mem_top / PAGE_SIZE)); run;
      [rewrite Z.min_r by lia|rewrite Z.min_l by lia]; done. }
  intros [] ? ->. run. apply runs_mono with (1 := fill_free_ok _ total Ht eq_refl).
  intros [] s1 (Hac1 & Ht1 & Hp1). run.
  eapply runs_mono; [apply mark_range_used_ok; [done|lia|change PAGE_SIZE with 4096; lia]|].
  intros [] s2 (Hac2 & Ht2 & Hp2). run.
  eapply runs_mono; [apply mark_range_used_ok; [done|lia|change PAGE_SIZE with 4096; lia]|].
  intros [] s3 (Hac3 & Ht3 & Hp3). run.
  eapply runs_mono; [by apply mark_range_used_ok|]. intros [] s4 (Hac4 & Ht4 & Hp4).
  eapply runs_mono; [apply mark_range_used_ok; [done|done|]|].
  { change PAGE_SIZE with 4096. split; [done|reflexivity]. }
  intros [] s5 (Hac5 & Ht5 & Hp5). split_and!; [done|congruence|].
  intros i. rewrite Hp5, Hp4, Hp3, Hp2, Hp1.
  replace (pmm_total_pages s5) with total by congruence.
  unfold reserved_page. rewrite !negb_orb, !andb_assoc. done.
Qed.

(** * The allocator as the frame source of the virtual memory manager *)

#[export] Instance pmm_frames : FrameAllocator pmm := {
  fa_alloc := pmm_alloc_page;
  fa_inv s := pmm_wf s /\ page_free s 0 = false;
  fa_free s a := (a mod PAGE_SIZE =? 0) && page_free s (a / PAGE_SIZE) }.

Lemma aligned_page a : a mod PAGE_SIZE = 0 -> a / PAGE_SIZE * PAGE_SIZE = a.
Proof. intros. change PAGE_SIZE with 4096 in *. dlia. Qed.

#[export] Instance pmm_frames_laws : FrameAllocatorLaws pmm.
Proof.
  split; unfold fa_inv, fa_free, fa_alloc, pmm_frames.
  - intros s a [Hwf H0] [Ha%Z.eqb_eq Hf]%andb_true_iff.
    destruct (decide (0 <= a / PAGE_SIZE < PMM_TOTAL_PAGES)) as [Hi|Hi].
    2: { rewrite page_free_out in Hf; [done|apply Hwf|done]. }
    assert (a / PAGE_SIZE <> 0) by congruence.
    change PAGE_SIZE with 4096 in *. change PMM_TOTAL_PAGES with 16384 in *. dlia.
  - intros s [Hwf H0]. eapply runs_mono; [by apply pmm_alloc_page_ok|].
    intros a s' [(-> & -> & Hnone)|(i & -> & Hi & Hf & Hlow & Hu)].
    + split; [done|]. left. split_and!; try done. intros b. by rewrite Hnone, andb_false_r.
    + assert (i <> 0) by congruence.
      split; [split; [apply Hu|]|right; split_and!].
      * rewrite (pu_page _ _ _ _ Hu). by destruct (0 =? i).
      * change PAGE_SIZE with 4096. lia.
      * change PAGE_SIZE with 4096. rewrite Z_mod_mult, Z_div_mult by lia. done.
      * intros b. rewrite (pu_page _ _ _ _ Hu). change PAGE_SIZE with 4096.
        destruct (Z.eqb_spec (b mod 4096) 0), (Z.eqb_spec (b / 4096) i),
          (Z.eqb_spec b (i * 4096)); simpl; try done; dlia.
Qed.

(** * Ownership of pages over any run of the allocator *)

(** A reserved page whose address [pmm_free_page] takes for one to free. *)
Definition gives_away (ks ke total a : Z) : bool :=
  negb (a =? 0) && (a mod PAGE_SIZE =? 0) && (a / PAGE_SIZE <? total) && reserved_page ks ke (a / PAGE_SIZE).

(** One call, with any address, and the books kept beside the allocator:
    [live] are the pages handed out and not freed since, [lost] the reserved
    pages somebody has freed. *)
Inductive pmm_step (ks ke : Z) : pmm * gset Z * gset Z -> pmm * gset Z * gset Z -> Prop :=
| step_alloc s live lost a s' :
    pmm_alloc_page s = Some (a, s') -> a <> 0 -> pmm_step ks ke (s, live, lost) (s', {[a]} ∪ live, lost)
| step_alloc_null s live lost s' :
    pmm_alloc_page s = Some (0, s') -> pmm_step ks ke (s, live, lost) (s', live, lost)
| step_free s live lost a s' :
    0 <= a < 2 ^ 64 -> pmm_free_page a s = Some (tt, s') ->
    pmm_step ks ke (s, live, lost)
      (s', live ∖ {[a]}, if gives_away ks ke (pmm_total_pages s) a then {[a]} ∪ lost else lost).

(** Every page below the total is reserved, in the pool or owned by a client,
    where a reserved page somebody freed counts as any other page; the counters
    are the sizes of these sets. *)
Record pool_inv (ks ke : Z) (s : pmm) (live lost : gset Z) : Prop := {
  pi_wf : pmm_wf s;
  pi_reserved : 0 <= pmm_reserved_pages s;
  pi_count : pmm_free_pages s + pmm_reserved_pages s + Z.of_nat (size live) = pmm_total_pages s + Z.of_nat (size lost);
  pi_pool : forall i, page_free s i = true <->
    in_range 0 (pmm_total_pages s) i = true /\ (reserved_page ks ke i = true -> i * PAGE_SIZE ∈ lost) /\
    i * PAGE_SIZE ∉ live;
  pi_live : forall a, a ∈ live -> a <> 0 /\ a mod PAGE_SIZE = 0 /\
    in_range 0 (pmm_total_pages s) (a / PAGE_SIZE) = true /\
    (reserved_page ks ke (a / PAGE_SIZE) = true -> a ∈ lost);
  pi_lost : forall a, a ∈ lost -> gives_away ks ke (pmm_total_pages s) a = true }.

Lemma page_zero_reserved ks ke : reserved_page ks ke 0 = true.
Proof. reflexivity. Qed.

(** What the invariant gives the virtual memory manager. *)
Lemma pool_inv_reserved ks ke s live lost i :
  pool_inv ks ke s live lost -> reserved_page ks ke i = true -> i * PAGE_SIZE ∉ lost -> page_free s i = false.
Proof. intros Hinv Hr Hn. apply not_true_iff_false. intros (_ & H & _)%(pi_pool _ _ _ _ _ Hinv). auto. Qed.

Lemma pool_inv_zero ks ke s live lost : pool_inv ks ke s live lost -> page_free s 0 = false.
Proof.
  intros Hinv. eapply pool_inv_reserved; [exact Hinv|apply page_zero_reserved|]. intros H%(pi_lost _ _ _ _ _ Hinv). done.
Qed.

Lemma pool_inv_frames ks ke s live lost : pool_inv ks ke s live lost -> fa_inv s.
Proof. intros Hinv. split; [apply Hinv|by eapply pool_inv_zero]. Qed.

(** [pmm_free_page] returns without effect on [NULL], an unaligned address, an
    address past the managed memory, and a page that is already free. *)
Lemma pmm_free_page_rejected s a :
  pmm_wf s -> 0 <= a ->
  a = 0 \/ a mod PAGE_SIZE <> 0 \/ pmm_total_pages s <= a / PAGE_SIZE \/
    page_free s (a / PAGE_SIZE) = true ->
  pmm_free_page a s = Some (tt, s).
Proof.
  intros Hwf Ha Hbad. unfold pmm_free_page.
  destruct (Z.eqb_spec a 0) as [|Hne]; [done|].
  rewrite (land_low 12) by (change PAGE_SIZE with 4096; lia).
  change (2 ^ 12) with PAGE_SIZE.
  destruct (Z.eqb_spec (a mod PAGE_SIZE) 0) as [E|E]; [|done]. simpl.
  unfold mbind, prog_bind, gets. cbv beta iota.
  destruct (Z.leb_spec (pmm_total_pages s) (a / PAGE_SIZE)) as [|Hlt]; [done|].
  rewrite bitmap_is_free_ok; [|apply Hwf|].
  - destruct Hbad as [|[|[|Hf]]]; try (done || lia). by rewrite Hf.
  - destruct Hwf as [_ ? _ _]. change PAGE_SIZE with 4096 in *. dlia.
Qed.

(** The pages in use are those owned, and the reserved ones still kept. *)
Lemma used_page ks ke s live lost i : pool_inv ks ke s live lost -> in_range 0 (pmm_total_pages s) i = true -> page_free s i = false ->
  i * PAGE_SIZE ∈ live \/ i * PAGE_SIZE ∉ live /\ reserved_page ks ke i = true /\ i * PAGE_SIZE ∉ lost.
Proof.
  intros Hinv Hr Hf. destruct (decide (i * PAGE_SIZE ∈ live)) as [|Hn]; [by left|right]. split; [done|].
  destruct (decide (reserved_page ks ke i = true /\ i * PAGE_SIZE ∉ lost)) as [|Hd]; [done|]. exfalso.
  rewrite (proj2 (pi_pool _ _ _ _ _ Hinv i)) in Hf; [done|]. split; [done|]. split; [|done]. intros Hres.
  destruct (decide (i * PAGE_SIZE ∈ lost)); [done|]. by destruct Hd.
Qed.

(** A call the guards refuse leaves the books as they are. *)
Lemma rejected_books ks ke s live lost a :
  pool_inv ks ke s live lost -> 0 <= a ->
  a = 0 \/ a mod PAGE_SIZE <> 0 \/ pmm_total_pages s <= a / PAGE_SIZE \/ page_free s (a / PAGE_SIZE) = true ->
  pool_inv ks ke s (live ∖ {[a]}) (if gives_away ks ke (pmm_total_pages s) a then {[a]} ∪ lost else lost).
Proof.
  intros Hinv Ha Hbad. assert (a ∉ live) as Hn.
  { intros Hin. destruct (pi_live _ _ _ _ _ Hinv a Hin) as (H0 & Hal & Hr & _). unfold in_range in Hr.
    destruct Hbad as [|[|[|Hf]]]; [done|done|zbool; lia|]. apply (pi_pool _ _ _ _ _ Hinv) in Hf as (_ & _ & Hf). by rewrite aligned_page in Hf. }
  replace (live ∖ {[a]}) with live by set_solver. destruct (gives_away _ _ _ a) eqn:E; [|done].
  replace ({[a]} ∪ lost) with lost; [done|]. assert (a ∈ lost); [|set_solver].
  unfold gives_away in E. zbool. destruct Hbad as [|[|[|Hf]]]; try (done || lia).
  apply (pi_pool _ _ _ _ _ Hinv) in Hf as (_ & Hf & _). rewrite aligned_page in Hf by done. auto.
Qed.

(** A page in use that is freed leaves the owned pages, or is lost. *)
Lemma freed_books ks ke s live lost a s' :
  pool_inv ks ke s live lost -> a <> 0 -> a mod PAGE_SIZE = 0 -> 0 <= a / PAGE_SIZE < pmm_total_pages s -> page_free s (a / PAGE_SIZE) = false ->
  page_update s (a / PAGE_SIZE) true s' ->
  pool_inv ks ke s' (live ∖ {[a]}) (if gives_away ks ke (pmm_total_pages s) a then {[a]} ∪ lost else lost).
Proof.
  intros Hinv H0 Hal Hr Hf [Hwf' Ht' Hr' Hf' Hp']. pose proof (aligned_page a Hal) as Ea. set (i := a / PAGE_SIZE) in *.
  assert (Hin : in_range 0 (pmm_total_pages s) i = true) by (unfold in_range; zcases).
  set (lost' := if gives_away _ _ _ _ then _ else _). assert (Hg : gives_away ks ke (pmm_total_pages s) a = reserved_page ks ke i).
  { unfold gives_away. rewrite (proj2 (Z.eqb_neq _ _)), (proj2 (Z.eqb_eq _ _)) by done. fold i. by rewrite (proj2 (Z.ltb_lt _ _)) by lia. }
  assert (Hsub : lost ⊆ lost') by (unfold lost'; destruct (gives_away _ _ _ _); set_solver).
  assert (Hcnt : Z.of_nat (size (live ∖ {[a]})) + 1 + Z.of_nat (size lost) = Z.of_nat (size live) + Z.of_nat (size lost')).
  { unfold lost'. rewrite Hg. destruct (used_page ks ke s live lost i Hinv Hin Hf) as [Hl|(Hn & Hres & Hnl)]; rewrite Ea in *.
    - rewrite size_difference by set_solver. rewrite size_singleton. assert (size live <> 0%nat) by (apply size_non_empty_iff; set_solver).
      destruct (reserved_page ks ke i) eqn:Er; [|lia]. replace ({[a]} ∪ lost) with lost; [lia|].
      pose proof (proj2 (proj2 (proj2 (pi_live _ _ _ _ _ Hinv a Hl))) Er). set_solver.
    - rewrite Hres. replace (live ∖ {[a]}) with live by set_solver.
      rewrite (size_union {[a]} lost) by set_solver. rewrite size_singleton. lia. }
  pose proof (pi_count _ _ _ _ _ Hinv). split; [done|rewrite Hr'; apply Hinv|lia| | |].
  - intros j. rewrite Hp', Ht'. destruct (Z.eqb_spec j i) as [->|Hj].
    + split; [intros _|done]. rewrite Ea. split; [done|]. split; [|set_solver]. intros Er. unfold lost'. rewrite Hg, Er. set_solver.
    + rewrite (pi_pool _ _ _ _ _ Hinv). assert (j * PAGE_SIZE <> a) by (change PAGE_SIZE with 4096 in *; lia).
      unfold lost'. destruct (gives_away _ _ _ _); set_solver.
  - intros b Hb. rewrite Ht'. destruct (pi_live _ _ _ _ _ Hinv b) as (? & ? & ? & ?); [set_solver|]. split_and!; try done. auto.
  - intros b Hb. rewrite Ht'. unfold lost' in Hb. destruct (gives_away ks ke (pmm_total_pages s) a) eqn:E; [|by apply Hinv].
    apply elem_of_union in Hb as [->%elem_of_singleton|Hb]; [done|by apply Hinv].
Qed.

Lemma step_free_ok ks ke s live lost a :
  pool_inv ks ke s live lost -> 0 <= a ->
  runs (pmm_free_page a) s (fun _ s' =>
    pool_inv ks ke s' (live ∖ {[a]}) (if gives_away ks ke (pmm_total_pages s) a then {[a]} ∪ lost else lost)).
Proof.
  intros Hinv Ha.
  destruct (decide (a = 0 \/ a mod PAGE_SIZE <> 0 \/ pmm_total_pages s <= a / PAGE_SIZE \/ page_free s (a / PAGE_SIZE) = true)) as [Hbad|Hok].
  - exists tt, s. split; [by apply pmm_free_page_rejected; [apply Hinv| |]|by apply rejected_books].
  - assert (Hall : a <> 0 /\ a mod PAGE_SIZE = 0 /\ a / PAGE_SIZE < pmm_total_pages s /\ page_free s (a / PAGE_SIZE) = false).
    { destruct (page_free s (a / PAGE_SIZE)); [tauto|]. split_and!; [tauto|lia|lia|done]. }
    destruct Hall as (H0 & Hal & Hlt & Hf). pose proof (aligned_page a Hal) as Ea.
    assert (Hi : 0 < a / PAGE_SIZE) by (change PAGE_SIZE with 4096 in *; lia). rewrite <- Ea at 1.
    eapply runs_mono; [by apply pmm_free_page_ok; [apply Hinv| |]|]. intros [] s' Hu. apply (freed_books _ _ s); (done || lia).
Qed.

Lemma step_alloc_ok ks ke s live lost :
  pool_inv ks ke s live lost ->
  runs pmm_alloc_page s (fun a s' =>
    (a = 0 /\ s' = s) \/ (a <> 0 /\ a ∉ live /\ pool_inv ks ke s' ({[a]} ∪ live) lost)).
Proof.
  intros Hinv. pose proof (pool_inv_zero _ _ _ _ _ Hinv) as Hz. destruct Hinv as [Hwf Hres Hcnt Hpool Hlive Hlost].
  eapply runs_mono; [by apply pmm_alloc_page_ok|].
  intros a s' [(-> & -> & _)|(i & -> & Hi & Hf & _ & [Hwf' Ht' Hr' Hf' Hp'])]; [by left|right].
  pose proof (proj1 (Hpool i) Hf) as (Hr & Hnr & Hn). assert (Hi0 : i <> 0) by congruence.
  assert (Hdiv : (i * PAGE_SIZE) / PAGE_SIZE = i) by (apply Z_div_mult; done).
  assert (Hne : i * PAGE_SIZE <> 0) by (change PAGE_SIZE with 4096; lia). split_and!; [done|done|]. split; [done|lia| | | |].
  - rewrite size_union by set_solver. rewrite size_singleton. lia.
  - intros j. rewrite Hp', Ht'. destruct (Z.eqb_spec j i) as [->|Hj].
    + split; [done|]. set_solver.
    + rewrite Hpool. assert (j * PAGE_SIZE <> i * PAGE_SIZE) by (change PAGE_SIZE with 4096; lia).
      set_solver.
  - intros b [->%elem_of_singleton|Hb]%elem_of_union; rewrite Ht'; [|by apply Hlive].
    rewrite Hdiv. split_and!; try done. apply Z_mod_mult.
  - intros b Hb. rewrite Ht'. auto.
Qed.

Lemma pmm_step_inv ks ke s live lost s' live' lost' :
  pool_inv ks ke s live lost -> pmm_step ks ke (s, live, lost) (s', live', lost') -> pool_inv ks ke s' live' lost'.
Proof.
  intros Hinv Hstep. inversion Hstep as [? ? ? a ? Ha Hne|? ? ? ? Ha|? ? ? a ? Hr Hf]; subst.
  - eapply runs_det in Ha; [|by apply step_alloc_ok]. naive_solver.
  - eapply runs_det in Ha; [|by apply step_alloc_ok]. naive_solver.
  - eapply runs_det in Hf; [|apply step_free_ok; [done|lia]]. exact Hf.
Qed.

Lemma accounted_pool_inv ks ke s :
  accounted s ->
  (forall i, page_free s i = in_range 0 (pmm_total_pages s) i && negb (reserved_page ks ke i)) ->
  pool_inv ks ke s ∅ ∅.
Proof.
  intros [Hwf Hr Hs] Hp. split; [done|done|rewrite size_empty; lia| |set_solver|set_solver].
  intros i. rewrite Hp, andb_true_iff, negb_true_iff. destruct (reserved_page ks ke i); set_solver.
Qed.

(** The bitmap is determined by which pages are free. *)
Lemma bitmap_ext s s' :
  bitmap_ok s -> bitmap_ok s' -> (forall i, page_free s i = page_free s' i) ->
  pmm_bitmap s = pmm_bitmap s'.
Proof.
  intros [Hl Hw] [Hl' Hw'] Hp. apply list_eq_same_length with 256%nat; [done|done|].
  intros k x y Hk Hx Hy.
  assert (Hbits : forall j, 0 <= j < 64 -> Z.testbit x j = Z.testbit y j).
  { intros j Hj. specialize (Hp (64 * Z.of_nat k + j)). unfold page_free, arr_get in Hp.
    replace ((64 * Z.of_nat k + j) / 64) with (Z.of_nat k) in Hp by dlia.
    replace ((64 * Z.of_nat k + j) mod 64) with j in Hp by dlia.
    rewrite (proj2 (Z.leb_le _ _)), Nat2Z.id in Hp by lia. by rewrite Hx, Hy in Hp. }
  apply Forall_lookup_1 with (2 := Hx) in Hw. apply Forall_lookup_1 with (2 := Hy) in Hw'.
  apply Z.bits_inj'. intros j Hj. destruct (Z.lt_ge_cases j 64); [by apply Hbits|].
  rewrite !(testbit_high 64) by lia. done.
Qed.

(** * The properties of the allocator *)

(** C36: after [pmm_init], for any amount of memory and any kernel image
    bounds, the managed total is the memory size in pages capped at 16384, a
    page is free exactly when it lies below the total and outside the low
    megabyte, the VGA window, the kernel image and the heap window, the
    counters are exact, no page counts as used, and no access leaves the
    bitmap (the run has no fault). *)
Theorem pmm_init_layout (ks ke mem_top : Z) (s : pmm) :
  length (pmm_bitmap s) = 256%nat ->
  0 <= ks -> 0 <= ke < 2 ^ 64 - PAGE_SIZE -> 0 <= mem_top < 2 ^ 64 ->
  exists s', pmm_init ks ke mem_top s = Some (tt, s') /\
    pmm_total_pages s' = Z.min (mem_top / PAGE_SIZE) PMM_TOTAL_PAGES /\
    (forall i, page_free s' i =
       in_range 0 (pmm_total_pages s') i && negb (reserved_page ks ke i)) /\
    pmm_get_free_count s' = free_count s' /\
    pmm_free_pages s' + pmm_reserved_pages s' = pmm_total_pages s' /\
    pmm_get_used_count s' = 0.
Proof.
  intros Hlen Hks Hke Hmem.
  destruct (pmm_init_ok ks ke mem_top s Hlen Hks Hke Hmem) as ([] & s' & Hrun & Hac & Ht & Hp).
  exists s'. destruct Hac as [Hwf Hr Hsum]. split_and!; try done; [apply Hwf|].
  unfold pmm_get_used_count.
  replace (pmm_total_pages s' - pmm_free_pages s' - pmm_reserved_pages s') with 0 by lia. done.
Qed.

Lemma pmm_init_layout_witness :
  exists s', pmm_init 0x100000 0x150000 0x4000000 (mk_pmm (replicate 256 0) 0 0 0) = Some (tt, s') /\
    pmm_total_pages s' = 16384 /\ page_free s' 0x150 = true /\ page_free s' 0x200 = false.
Proof.
  destruct (pmm_init_layout 0x100000 0x150000 0x4000000 (mk_pmm (replicate 256 0) 0 0 0))
    as (s' & Hrun & Ht & Hp & _); [reflexivity|lia|split; [lia|reflexivity]|lia|].
  exists s'. rewrite !Hp, Ht. split; [exact Hrun|]. split_and!; reflexivity.
Defined.

(** On a well-formed state [pmm_alloc_page] returns without fault; it
    returns [NULL] exactly when no page is free and then changes nothing;
    otherwise it returns the address of the lowest free page, marks that one
    page used, lowers the free counter by one and keeps the invariant. *)
Theorem pmm_alloc_page_lowest (s : pmm) :
  pmm_wf s -> page_free s 0 = false ->
  exists a s', pmm_alloc_page s = Some (a, s') /\ pmm_wf s' /\
    (a = 0 <-> forall i, page_free s i = false) /\
    (a = 0 -> s' = s) /\
    (a <> 0 -> exists i, a = i * PAGE_SIZE /\ 0 < i < pmm_total_pages s /\
       page_free s i = true /\ (forall j, j < i -> page_free s j = false) /\
       (forall j, page_free s' j = if j =? i then false else page_free s j) /\
       pmm_get_free_count s' = pmm_get_free_count s - 1).
Proof.
  intros Hwf H0. destruct (pmm_alloc_page_ok s Hwf) as (a & s' & Hrun & Hres).
  exists a, s'. split; [done|].
  destruct Hres as [(-> & -> & Hnone)|(i & -> & Hi & Hf & Hlow & [Hwf' Ht Hr Hfr Hp])].
  - split_and!; done.
  - assert (i <> 0) by congruence. change PAGE_SIZE with 4096. split_and!; [done| |lia|].
    + split; [lia|]. intros Hnone. by rewrite Hnone in Hf.
    + intros _. exists i. unfold pmm_get_free_count. split_and!; try (done || lia).
      intros j Hj. destruct (Z.lt_ge_cases j 0); [|apply Hlow; lia].
      apply page_free_out; [apply Hwf|lia].
Qed.

(** The state at boot of a 64 MiB machine whose kernel image ends at 0x150000. *)
Definition boot_pmm : pmm :=
  default (mk_pmm [] 0 0 0)
    (snd <$> pmm_init 0x100000 0x150000 0x4000000 (mk_pmm (replicate 256 0) 0 0 0)).

Lemma boot_pmm_inv : pool_inv 0x100000 0x150000 boot_pmm ∅ ∅.
Proof.
  destruct (pmm_init_ok 0x100000 0x150000 0x4000000 (mk_pmm (replicate 256 0) 0 0 0))
    as ([] & s' & Hrun & Hac & _ & Hp); [reflexivity|lia|split; [lia|reflexivity]|lia|].
  unfold boot_pmm. rewrite Hrun. by apply accounted_pool_inv.
Qed.

Lemma boot_alloc : exists s, pmm_alloc_page boot_pmm = Some (0x150000, s).
Proof.
  assert (E : fst <$> pmm_alloc_page boot_pmm = Some 0x150000) by (vm_compute; reflexivity).
  destruct (pmm_alloc_page boot_pmm) as [[a s]|]; [|done].
  exists s. by injection E as ->.
Qed.

Lemma pmm_alloc_page_lowest_witness :
  exists a s', pmm_alloc_page boot_pmm = Some (a, s') /\ a = 0x150000.
Proof.
  destruct (pmm_alloc_page_lowest boot_pmm) as (a & s' & Hrun & _);
    [apply boot_pmm_inv|vm_compute; reflexivity|].
  exists a, s'. split; [exact Hrun|]. destruct boot_alloc as [s1 E]. congruence.
Defined.

(** Every branch of [pmm_free_page].  [NULL], an unaligned address, an
    address at or past the managed memory and a page that is already free
    (the double-free guard) leave the whole state unchanged; any other page
    becomes free, the free counter goes up by one, and nothing else changes. *)
Theorem pmm_free_page_branches (s : pmm) (a : Z) :
  pmm_wf s -> 0 <= a < 2 ^ 64 ->
  let i := a / PAGE_SIZE in
  let rejected := (a =? 0) || negb (a mod PAGE_SIZE =? 0) ||
                  (pmm_total_pages s <=? i) || page_free s i in
  exists s', pmm_free_page a s = Some (tt, s') /\
    if rejected then s' = s
    else pmm_wf s' /\ pmm_get_free_count s' = pmm_get_free_count s + 1 /\
      pmm_total_pages s' = pmm_total_pages s /\ pmm_reserved_pages s' = pmm_reserved_pages s /\
      forall j, page_free s' j = if j =? i then true else page_free s j.
Proof.
  intros Hwf Ha i rejected. destruct rejected eqn:E; unfold rejected in E.
  - exists s. split; [|done]. apply pmm_free_page_rejected; [done|lia|].
    rewrite !orb_true_iff in E. destruct E as [[[E|E]|E]|E]; zbool; auto.
  - zbool. assert (Hi : 0 < i < pmm_total_pages s).
    { unfold i in *. change PAGE_SIZE with 4096 in *. dlia. }
    destruct (pmm_free_page_ok s i Hwf Hi) as ([] & s' & Hrun & [Hwf' Ht Hr Hf Hp]); [done|].
    unfold i in Hrun. rewrite aligned_page in Hrun by done. exists s'. split; [done|].
    unfold pmm_get_free_count. done.
Qed.

Lemma pmm_free_page_branches_witness :
  exists s', pmm_free_page 0x5000 boot_pmm = Some (tt, s') /\ page_free s' 5 = true.
Proof.
  destruct (pmm_free_page_branches boot_pmm 0x5000) as (s' & Hrun & Hres);
    [apply boot_pmm_inv|lia|].
  exists s'. split; [exact Hrun|].
  assert (E : page_free boot_pmm 5 = false) by (vm_compute; reflexivity).
  assert (Et : pmm_total_pages boot_pmm = 16384) by (vm_compute; reflexivity).
  change (0x5000 / PAGE_SIZE) with 5 in Hres. rewrite E, Et in Hres.
  destruct Hres as (_ & _ & _ & _ & Hp). by rewrite Hp.
Defined.

(** Freeing the page just allocated restores the allocator's state
    exactly: bitmap and counters. *)
Theorem pmm_alloc_free_roundtrip (s s1 : pmm) (a : Z) :
  pmm_wf s -> pmm_alloc_page s = Some (a, s1) -> a <> 0 ->
  pmm_free_page a s1 = Some (tt, s).
Proof.
  intros Hwf Hrun Hne. eapply runs_det in Hrun; [|by apply pmm_alloc_page_ok].
  destruct Hrun as [(-> & _)|(i & -> & Hi & Hf & _ & [Hwf1 Ht1 Hr1 Hf1 Hp1])]; [done|].
  assert (Hi1 : 0 < i < pmm_total_pages s1) by (change PAGE_SIZE with 4096 in *; lia).
  destruct (pmm_free_page_ok s1 i Hwf1 Hi1) as ([] & s2 & Hrun & [Hwf2 Ht2 Hr2 Hf2 Hp2]).
  { by rewrite Hp1, Z.eqb_refl. }
  rewrite Hrun. f_equal. f_equal.
  assert (Eb : pmm_bitmap s2 = pmm_bitmap s).
  { apply bitmap_ext; [apply Hwf2|apply Hwf|]. intros j. rewrite Hp2, Hp1.
    destruct (Z.eqb_spec j i); congruence. }
  destruct s, s2; simpl in *. f_equal; lia || congruence.
Qed.

Lemma pmm_alloc_free_roundtrip_witness :
  exists s1, pmm_alloc_page boot_pmm = Some (0x150000, s1) /\
    pmm_free_page 0x150000 s1 = Some (tt, boot_pmm).
Proof.
  destruct boot_alloc as [s1 E]. exists s1. split; [exact E|].
  apply (pmm_alloc_free_roundtrip boot_pmm s1 0x150000); [apply boot_pmm_inv|exact E|lia].
Defined.

(** C9: over any sequence of calls from boot, with any addresses freed, every
    page of managed memory is either reserved, free, or handed out and not freed
    since, and a page handed out is never one that is still owned.  A
    reserved page gets into the pool exactly when somebody frees it, which
    [pmm_free_page] does not refuse; each such page lowers the used count by
    one, below zero modulo 2^64 when it owns fewer.  As long as nobody does,
    the used count is the number of pages owned and no reserved page is ever
    handed out. *)
Theorem pmm_pool_ownership (ks ke mem_top : Z) (s0 s1 s : pmm) (live lost : gset Z) :
  length (pmm_bitmap s0) = 256%nat ->
  0 <= ks -> 0 <= ke < 2 ^ 64 - PAGE_SIZE -> 0 <= mem_top < 2 ^ 64 ->
  pmm_init ks ke mem_top s0 = Some (tt, s1) ->
  rtc (pmm_step ks ke) (s1, ∅, ∅) (s, live, lost) ->
  pmm_get_used_count s = u64 (Z.of_nat (size live) - Z.of_nat (size lost)) /\
  (lost = ∅ -> pmm_get_used_count s = Z.of_nat (size live)) /\
  (forall i, page_free s i = true <->
     in_range 0 (pmm_total_pages s) i = true /\ (reserved_page ks ke i = true -> i * PAGE_SIZE ∈ lost) /\
     i * PAGE_SIZE ∉ live) /\
  (forall a, a ∈ live -> reserved_page ks ke (a / PAGE_SIZE) = true -> a ∈ lost) /\
  (exists a s', pmm_alloc_page s = Some (a, s') /\
     (a = 0 \/ (a ∉ live /\ (reserved_page ks ke (a / PAGE_SIZE) = true -> a ∈ lost)))).
Proof.
  intros Hlen Hks Hke Hmem Hinit Hsteps.
  eapply runs_det in Hinit; [|by apply pmm_init_ok]. destruct Hinit as (Hac & _ & Hp).
  assert (Hinv : pool_inv ks ke s live lost).
  { apply accounted_pool_inv in Hp; [|done]. clear Hac.
    assert (Hgen : forall c1 c, rtc (pmm_step ks ke) c1 c -> pool_inv ks ke c1.1.1 c1.1.2 c1.2 -> pool_inv ks ke c.1.1 c.1.2 c.2).
    { intros c1 c H. induction H as [|[[? ?] ?] [[? ?] ?] ? Hst _ IH]; [done|]. intros Hi. apply IH. by eapply pmm_step_inv. }
    exact (Hgen _ _ Hsteps Hp). }
  destruct (step_alloc_ok ks ke s live lost Hinv) as (a & s' & Hrun & Hres).
  destruct Hinv as [Hwf Hr Hc Hpool Hlive Hlost].
  assert (Hu : pmm_get_used_count s = u64 (Z.of_nat (size live) - Z.of_nat (size lost))) by (unfold pmm_get_used_count; f_equal; lia).
  split_and!; [done| |done| |].
  - intros ->. rewrite Hu, size_empty. destruct Hwf as [_ Htot _ Hf]. pose proof (free_count_range s) as Hfc. rewrite size_empty in Hc.
    change PMM_TOTAL_PAGES with 16384 in *. rewrite wrap_small; lia.
  - intros b Hb. by apply Hlive.
  - exists a, s'. split; [done|]. destruct Hres as [[-> _]|(_ & Hn & Hi)]; [by left|right].
    split; [done|]. apply (pi_live _ _ _ _ _ Hi), elem_of_union_l, elem_of_singleton. done.
Qed.

(** One page is allocated, and then a page of the low megabyte freed. *)
Lemma pmm_pool_ownership_witness :
  exists s s2, pmm_alloc_page boot_pmm = Some (0x150000, s) /\ pmm_get_used_count s = 1 /\
    pmm_free_page 0x5000 s = Some (tt, s2) /\ pmm_get_used_count s2 = 0 /\ page_free s2 5 = true.
Proof.
  destruct boot_alloc as [s1 E]. pose proof (pmm_alloc_page_ok boot_pmm (pi_wf _ _ _ _ _ boot_pmm_inv)) as Hok.
  assert (St : pmm_step 0x100000 0x150000 (boot_pmm, ∅, ∅) (s1, {[0x150000]} ∪ ∅, ∅)) by (apply step_alloc; [exact E|lia]).
  pose proof (pmm_step_inv _ _ _ _ _ _ _ _ boot_pmm_inv St) as Hi1.
  destruct (step_free_ok _ _ _ _ _ 0x5000 Hi1) as ([] & s2 & E2 & Hi2); [lia|]. exists s1, s2.
  assert (Ht : pmm_total_pages s1 = 16384).
  { eapply runs_det in E; [|exact Hok]. destruct E as [[? _]|(i & _ & _ & _ & _ & [_ -> _ _ _])]; [done|]. vm_compute. reflexivity. }
  destruct (pmm_pool_ownership 0x100000 0x150000 0x4000000 (mk_pmm (replicate 256 0) 0 0 0)
    boot_pmm s1 ({[0x150000]} ∪ ∅) ∅) as [Hu _];
    [reflexivity|lia|split; [lia|reflexivity]|lia|vm_compute; reflexivity|by apply rtc_once|].
  destruct (pmm_pool_ownership 0x100000 0x150000 0x4000000 (mk_pmm (replicate 256 0) 0 0 0)
    boot_pmm s2 (({[0x150000]} ∪ ∅) ∖ {[0x5000]}) ({[0x5000]} ∪ ∅)) as (Hu2 & _ & Hp2 & _);
    [reflexivity|lia|split; [lia|reflexivity]|lia|vm_compute; reflexivity| |].
  { eapply rtc_l; [exact St|]. apply rtc_once. pose proof (step_free 0x100000 0x150000 s1 ({[0x150000]} ∪ ∅) ∅ 0x5000 s2) as Hst.
    rewrite Ht in Hst. apply Hst; [lia|exact E2]. }
  split; [exact E|]. split; [exact Hu|]. split; [exact E2|]. split; [exact Hu2|]. apply Hp2. change (5 * PAGE_SIZE) with 0x5000.
  assert (Hl : 0x5000 ∈ ({[0x5000]} ∪ ∅ : gset Z)) by (apply elem_of_union_l, elem_of_singleton; reflexivity). split_and!.
  2: { intros _. exact Hl. }
  2: { intros [_ Hx]%elem_of_difference. apply Hx, elem_of_singleton. reflexivity. }
  rewrite Ht in Hi2. pose proof (pi_lost _ _ _ _ _ Hi2 0x5000 Hl) as Hg.
  unfold gives_away in Hg. change (0x5000 / PAGE_SIZE) with 5 in Hg. zbool. unfold in_range. zcases.
Defined.

End Pmm.
