(* ===== verification/Heap.v ===== *)
(** The kernel heap (src/memory/heap.c): a first-fit allocator over the 4 MiB
    window at KERNEL_HEAP_START, its block headers living in memory. *)
From S2P Require Import Prelude Mem Pmm.

Module Heap.
Import Pmm(KERNEL_HEAP_START, KERNEL_HEAP_INITIAL_SIZE).

Definition HEAP_MAGIC : Z := 0xA55A5A55.
Definition HEAP_ALIGN : Z := 16.

(** [struct heap_block]: [size_t size] at 0, [uint32_t magic] at 8, [next] at
    16, [int free] at 24; 32 bytes with padding. *)
Definition sizeof_heap_block : Z := 32.

(** [heap_head], and the memory the headers and payloads live in. *)
Record heap := mk_heap { heap_head : Z; heap_mem : gmap Z Z }.

Definition on_mem (f : gmap Z Z -> gmap Z Z) (h : heap) : heap :=
  mk_heap (heap_head h) (f (heap_mem h)).

Definition get_size (b : Z) : prog heap Z := gets (fun h => load 8 b (heap_mem h)).
Definition get_magic (b : Z) : prog heap Z := gets (fun h => load 4 (b + 8) (heap_mem h)).
Definition get_next (b : Z) : prog heap Z := gets (fun h => load 8 (b + 16) (heap_mem h)).
Definition get_free (b : Z) : prog heap Z := gets (fun h => load 4 (b + 24) (heap_mem h)).
Definition put_size (b v : Z) : prog heap unit := modify (on_mem (store 8 b v)).
Definition put_magic (b v : Z) : prog heap unit := modify (on_mem (store 4 (b + 8) v)).
Definition put_next (b v : Z) : prog heap unit := modify (on_mem (store 8 (b + 16) v)).
Definition put_free (b v : Z) : prog heap unit := modify (on_mem (store 4 (b + 24) v)).

Definition align_up (n a : Z) : Z := Z.land (u64 (n + a - 1)) (bnot 64 (u64 (a - 1))).

Definition block_from_payload (ptr : Z) : Z := u64 (ptr - sizeof_heap_block).
Definition payload_of (b : Z) : Z := u64 (b + sizeof_heap_block).

(** A block takes at least its header, so the window holds at most 131072
    blocks; the walks over the list are given that many steps. *)
Definition heap_fuel : nat := Z.to_nat (KERNEL_HEAP_INITIAL_SIZE / sizeof_heap_block + 1).

Definition heap_init : prog heap unit :=
  _ ← modify (fun h => mk_heap KERNEL_HEAP_START (heap_mem h));
  b ← gets heap_head;
  _ ← put_size b (KERNEL_HEAP_INITIAL_SIZE - sizeof_heap_block);
  _ ← put_magic b HEAP_MAGIC;
  _ ← put_next b 0;
  put_free b 1.

(** Take block [b] for [want] bytes: split off the tail when there is room for
    a follow-up block, mark it used. *)
Definition kmalloc_take (want b size : Z) : prog heap Z :=
  let remainder := u64 (size - want) in
  _ ← (if sizeof_heap_block + HEAP_ALIGN <? remainder then
         let tail := u64 (payload_of b + want) in
         _ ← put_size tail (u64 (remainder - sizeof_heap_block));
         _ ← put_magic tail HEAP_MAGIC;
         next ← get_next b;
         _ ← put_next tail next;
         _ ← put_free tail 1;
         _ ← put_size b want;
         put_next b tail
       else mret tt);
  _ ← put_free b 0;
  mret (payload_of b).

Fixpoint kmalloc_loop (fuel : nat) (want b : Z) : prog heap Z :=
  match fuel with
  | O => need None
  | S fuel =>
      if b =? 0 then mret 0
      else
        magic ← get_magic b;
        if negb (magic =? HEAP_MAGIC) then mret 0
        else
          free ← get_free b;
          size ← get_size b;
          if (free =? 0) || (size <? want) then
            next ← get_next b;
            kmalloc_loop fuel want next
          else kmalloc_take want b size
  end.

Definition kmalloc (size : Z) : prog heap Z :=
  head ← gets heap_head;
  if (size =? 0) || (head =? 0) then mret 0
  else kmalloc_loop heap_fuel (align_up size HEAP_ALIGN) head.

Fixpoint kfree_loop (fuel : nat) (b : Z) : prog heap unit :=
  match fuel with
  | O => need None
  | S fuel =>
      next ← get_next b;
      if next =? 0 then mret tt
      else
        free ← get_free next;
        if free =? 0 then mret tt
        else
          magic ← get_magic next;
          if negb (magic =? HEAP_MAGIC) then mret tt
          else
            size ← get_size b;
            nsize ← get_size next;
            _ ← put_size b (u64 (size + sizeof_heap_block + nsize));
            nnext ← get_next next;
            _ ← put_next b nnext;
            kfree_loop fuel b
  end.

Definition kfree (ptr : Z) : prog heap unit :=
  if ptr =? 0 then mret tt
  else
    let b := block_from_payload ptr in
    magic ← get_magic b;
    if negb (magic =? HEAP_MAGIC) then mret tt
    else
      free ← get_free b;
      if negb (free =? 0) then mret tt
      else
        _ ← put_free b 1;
        kfree_loop heap_fuel b.

(** [for (i = 0; i < b->size; i++) dst[i] = src[i]]; the bound is read from
    the header at every turn. *)
Fixpoint copy_loop (fuel : nat) (b dst src i : Z) : prog heap unit :=
  match fuel with
  | O => need None
  | S fuel =>
      size ← get_size b;
      if i <? size then
        _ ← modify (on_mem (fun m => store 1 (dst + i) (mem_byte m (src + i)) m));
        copy_loop fuel b dst src (i + 1)
      else mret tt
  end.

Definition krealloc (ptr new_size : Z) : prog heap Z :=
  if ptr =? 0 then kmalloc new_size
  else if new_size =? 0 then _ ← kfree ptr; mret 0
  else
    let b := block_from_payload ptr in
    magic ← get_magic b;
    if negb (magic =? HEAP_MAGIC) then mret 0
    else
      size ← get_size b;
      if new_size <=? size then mret ptr
      else
        fresh ← kmalloc new_size;
        if fresh =? 0 then mret 0
        else
          _ ← copy_loop (S (Z.to_nat size)) b fresh ptr 0;
          _ ← kfree ptr;
          mret fresh.

(** The three statistics (used, free, largest free), as the loop adds them up. *)
Fixpoint heap_stats_loop (fuel : nat) (b u f l : Z) : prog heap (Z * Z * Z) :=
  match fuel with
  | O => need None
  | S fuel =>
      if b =? 0 then mret (u, f, l)
      else
        magic ← get_magic b;
        if negb (magic =? HEAP_MAGIC) then mret (u, f, l)
        else
          free ← get_free b;
          size ← get_size b;
          next ← get_next b;
          if negb (free =? 0) then
            heap_stats_loop fuel next u (u64 (f + size)) (if l <? size then size else l)
          else heap_stats_loop fuel next (u64 (u + size)) f l
  end.

Definition heap_stats : prog heap (Z * Z * Z) :=
  head ← gets heap_head; heap_stats_loop heap_fuel head 0 0 0.

(** * The heap as a list of blocks *)

Record block := mk_block { b_addr : Z; b_size : Z; b_free : bool }.

(** Where the payload of [b] starts and where [b] ends. *)
Definition b_payload (b : block) : Z := b_addr b + sizeof_heap_block.
Definition b_end (b : block) : Z := b_payload b + b_size b.

Definition heap_end : Z := KERNEL_HEAP_START + KERNEL_HEAP_INITIAL_SIZE.

(** The header of [b] in memory, its link being [nx]. *)
Record hdr (m : gmap Z Z) (b : block) (nx : Z) : Prop := {
  hdr_size : load 8 (b_addr b) m = b_size b;
  hdr_magic : load 4 (b_addr b + 8) m = HEAP_MAGIC;
  hdr_next : load 8 (b_addr b + 16) m = nx;
  hdr_free : load 4 (b_addr b + 24) m = if b_free b then 1 else 0 }.

Definition nextp (bs : list block) (nx : Z) : Z :=
  match bs with [] => nx | b :: _ => b_addr b end.

Fixpoint chain (m : gmap Z Z) (bs : list block) (nx : Z) : Prop :=
  match bs with
  | [] => True
  | b :: bs => hdr m b (nextp bs nx) /\ chain m bs nx
  end.

(** The blocks cover [lo, hi) without gap or overlap, sizes multiples of 16. *)
Fixpoint tiled (lo : Z) (bs : list block) (hi : Z) : Prop :=
  match bs with
  | [] => lo = hi
  | b :: bs => b_addr b = lo /\ 0 <= b_size b /\ b_size b mod HEAP_ALIGN = 0 /\ tiled (b_end b) bs hi
  end.

Record heap_rep (h : heap) (bs : list block) : Prop := {
  rep_head : heap_head h = KERNEL_HEAP_START;
  rep_tiled : tiled KERNEL_HEAP_START bs heap_end;
  rep_chain : chain (heap_mem h) bs 0 }.

(** First fit, on lists. *)
Definition split_block (want : Z) (b : block) : list block :=
  if sizeof_heap_block + HEAP_ALIGN <? b_size b - want then
    [mk_block (b_addr b) want false;
     mk_block (b_payload b + want) (b_size b - want - sizeof_heap_block) true]
  else [mk_block (b_addr b) (b_size b) false].

Definition fits (want : Z) (b : block) : bool := b_free b && (want <=? b_size b).

Fixpoint alloc_blocks (want : Z) (bs : list block) : option (Z * list block) :=
  match bs with
  | [] => None
  | b :: bs =>
      if fits want b then Some (b_payload b, split_block want b ++ bs)
      else '(p, bs') ← alloc_blocks want bs; Some (p, b :: bs')
  end.

(** Freeing with forward coalescing, on lists. *)
Fixpoint merge_free (b : block) (bs : list block) : list block :=
  match bs with
  | c :: bs' =>
      if b_free c
      then merge_free (mk_block (b_addr b) (b_size b + sizeof_heap_block + b_size c) (b_free b)) bs'
      else b :: bs
  | [] => [b]
  end.

Fixpoint free_blocks (p : Z) (bs : list block) : list block :=
  match bs with
  | [] => []
  | b :: bs =>
      if b_payload b =? p then merge_free (mk_block (b_addr b) (b_size b) true) bs
      else b :: free_blocks p bs
  end.

(** * Lemmas on tilings and chains *)

Lemma nextp_app bs1 bs2 nx : nextp (bs1 ++ bs2) nx = nextp bs1 (nextp bs2 nx).
Proof. by destruct bs1. Qed.

Lemma chain_app m bs1 bs2 nx :
  chain m (bs1 ++ bs2) nx <-> chain m bs1 (nextp bs2 nx) /\ chain m bs2 nx.
Proof.
  induction bs1 as [|b bs1 IH]; simpl; [tauto|]. rewrite IH, nextp_app. tauto.
Qed.

Lemma tiled_app lo bs1 bs2 hi :
  tiled lo (bs1 ++ bs2) hi <-> exists mid, tiled lo bs1 mid /\ tiled mid bs2 hi.
Proof.
  revert lo. induction bs1 as [|b bs1 IH]; intros lo; simpl; [naive_solver|].
  rewrite IH. naive_solver.
Qed.

Lemma b_end_eq b : b_end b = b_addr b + 32 + b_size b.
Proof. done. Qed.

Lemma tiled_le lo bs hi : tiled lo bs hi -> lo <= hi.
Proof.
  revert lo. induction bs as [|b bs IH]; intros lo; simpl; [lia|].
  intros (? & ? & _ & H%IH). rewrite b_end_eq in H. lia.
Qed.

Lemma tiled_bounds lo bs hi b :
  tiled lo bs hi -> b ∈ bs ->
  lo <= b_addr b /\ b_end b <= hi /\ 0 <= b_size b /\ b_size b mod HEAP_ALIGN = 0.
Proof.
  revert lo. induction bs as [|c bs IH]; intros lo; simpl; [by intros _ ?%elem_of_nil|].
  intros (Ha & Hs & Hm & Ht) [->|Hb]%elem_of_cons.
  - pose proof (tiled_le _ _ _ Ht). split_and!; (done || lia).
  - destruct (IH _ Ht Hb) as (? & ? & ? & ?). rewrite b_end_eq in *. split_and!; (done || lia).
Qed.

Lemma tiled_aligned lo bs hi b :
  tiled lo bs hi -> lo mod 16 = 0 -> b ∈ bs -> b_payload b mod 16 = 0.
Proof.
  revert lo. induction bs as [|c bs IH]; intros lo; cbn [tiled]; [by intros _ _ ?%elem_of_nil|].
  intros (Ha & Hs & Hm & Ht) Hlo [->|Hb]%elem_of_cons; unfold HEAP_ALIGN in Hm.
  - unfold b_payload, sizeof_heap_block. dlia.
  - eapply IH; [exact Ht| |done]. rewrite b_end_eq. dlia.
Qed.

Lemma tiled_length lo bs hi : tiled lo bs hi -> 32 * Z.of_nat (length bs) <= hi - lo.
Proof.
  revert lo. induction bs as [|c bs IH]; intros lo; cbn [tiled length]; [lia|].
  intros (Ha & Hs & Hm & Ht%IH). rewrite b_end_eq in Ht. lia.
Qed.

Lemma hdr_same m m' b nx :
  same_on m m' (b_addr b) (b_addr b + 32) -> hdr m b nx -> hdr m' b nx.
Proof.
  intros Hs [H1 H2 H3 H4].
  split; [rewrite <- H1|rewrite <- H2|rewrite <- H3|rewrite <- H4];
    apply load_same; eapply same_on_sub; try exact Hs; lia.
Qed.

Lemma chain_same m m' bs nx :
  (forall b, b ∈ bs -> same_on m m' (b_addr b) (b_addr b + 32)) -> chain m bs nx -> chain m' bs nx.
Proof.
  revert nx. induction bs as [|b bs IH]; intros nx Hs; simpl; [done|].
  intros [Hb Hc]. split; [eapply hdr_same, Hb; apply Hs|apply IH, Hc];
    [apply elem_of_cons; by left|]. intros c Hc'. apply Hs, elem_of_cons. by right.
Qed.

(** Headers outside the changed range survive. *)
Lemma chain_frame m m' lo hi a bs e nx :
  changed_in m m' lo hi -> tiled a bs e -> e <= lo \/ hi <= a -> chain m bs nx -> chain m' bs nx.
Proof.
  intros Hch Ht Hd. apply chain_same. intros b Hb.
  destruct (tiled_bounds _ _ _ _ Ht Hb) as (? & ? & ? & _). rewrite b_end_eq in *.
  eapply changed_in_same; [exact Hch|lia].
Qed.

Lemma heap_fuel_enough bs lo : tiled lo bs heap_end -> KERNEL_HEAP_START <= lo ->
  (length bs < heap_fuel)%nat.
Proof.
  intros Ht%tiled_length Hlo. unfold heap_fuel.
  change heap_end with 0x600000 in Ht. change KERNEL_HEAP_START with 0x200000 in Hlo.
  change (KERNEL_HEAP_INITIAL_SIZE / sizeof_heap_block + 1) with 131073. lia.
Qed.

(** * The operations refine the list operations *)

(** A request rounded up to the allocation granule. *)
Definition granules (n : Z) : Z := (n + 15) / 16 * 16.

Lemma align_up_granules n : 0 <= n <= 2 ^ 64 - 16 -> align_up n HEAP_ALIGN = granules n.
Proof.
  intros Hn. unfold align_up, granules, HEAP_ALIGN.
  rewrite (wrap_small 64 (n + 16 - 1)), (wrap_small 64 (16 - 1)) by lia.
  rewrite (land_bnot_low 64 4) by lia. f_equal. f_equal. lia.
Qed.

Lemma granules_bounds n : 0 <= n -> n <= granules n <= n + 15 /\ granules n mod 16 = 0.
Proof. intros. unfold granules. dlia. Qed.

(** What the take step leaves: the pieces of [b] with their headers, and
    nothing changed outside [b]. *)
Lemma kmalloc_take_ok want b nx h :
  hdr (heap_mem h) b nx -> 0 <= want <= b_size b -> KERNEL_HEAP_START <= b_addr b ->
  b_end b <= heap_end -> 0 <= nx < 2 ^ 64 ->
  runs (kmalloc_take want (b_addr b) (b_size b)) h (fun p h' =>
    p = b_payload b /\ heap_head h' = heap_head h /\
    changed_in (heap_mem h) (heap_mem h') (b_addr b) (b_end b) /\
    chain (heap_mem h') (split_block want b) nx).
Proof.
  intros [Hsz Hmg Hnx Hfr] Hw Hlo Hhi Hn.
  change KERNEL_HEAP_START with 0x200000 in Hlo. change heap_end with 0x600000 in Hhi.
  assert (Hend : b_end b = b_addr b + 32 + b_size b) by done.
  unfold kmalloc_take, payload_of, sizeof_heap_block, HEAP_ALIGN, split_block, b_payload.
  unfold sizeof_heap_block, HEAP_ALIGN.
  rewrite (wrap_small 64 (b_size b - want)), (wrap_small 64 (b_addr b + 32)) by lia.
  destruct (Z.ltb_spec (32 + 16) (b_size b - want)) as [Hs|Hs]; run.
  - rewrite (wrap_small 64 (b_size b - want - 32)), (wrap_small 64 (b_addr b + 32 + want)) by lia.
    unfold put_size, put_magic, put_next, put_free, get_next. run.
    cbn [on_mem heap_mem heap_head]. split_and!; [done|done| |].
    + repeat (apply changed_in_store; [lia|lia|lia|]). apply changed_in_refl.
    + cbn [chain nextp]. split_and!; split; cbn [b_addr b_size b_free nextp];
        unfold HEAP_MAGIC in *; mem_simp; try (done || lia).
      rewrite load_store_same; mem_simp; (done || lia).
  - unfold put_free. run. cbn [on_mem heap_mem heap_head]. split_and!; [done|done| |].
    + apply changed_in_store; try lia. apply changed_in_refl.
    + cbn [chain nextp]. split; [|done]. split; cbn [b_addr b_size b_free]; mem_simp; done.
Qed.

Lemma split_block_tiled want b :
  0 <= want <= b_size b -> want mod 16 = 0 -> b_size b mod HEAP_ALIGN = 0 ->
  tiled (b_addr b) (split_block want b) (b_end b).
Proof.
  intros Hw Hm Hb. unfold HEAP_ALIGN in Hb. unfold split_block, b_end, b_payload, sizeof_heap_block, HEAP_ALIGN.
  destruct (Z.ltb_spec (32 + 16) (b_size b - want)); cbn;
    unfold b_end, b_payload, sizeof_heap_block, HEAP_ALIGN; cbn; split_and!; try (done || lia); dlia.
Qed.

Lemma nextp_range bs lo : tiled lo bs heap_end -> KERNEL_HEAP_START <= lo -> 0 <= nextp bs 0 < 2 ^ 64.
Proof.
  intros Ht Hlo. destruct bs as [|b bs]; cbn [nextp]; [lia|].
  destruct (tiled_bounds _ _ _ b Ht) as (? & Hhi & ? & _); [apply elem_of_cons; by left|].
  change KERNEL_HEAP_START with 0x200000 in *. change heap_end with 0x600000 in *.
  rewrite b_end_eq in Hhi. lia.
Qed.

(** Bytes of the payloads of the blocks [bs] in use are kept. *)
Definition payloads_kept (m m' : gmap Z Z) (bs : list block) : Prop :=
  forall b, b ∈ bs -> b_free b = false -> same_on m m' (b_payload b) (b_end b).

(** Walking the list: [bs] is what is left of it from [nextp bs 0] on. *)
Lemma kmalloc_loop_ok want fuel : forall h lo bs,
  (length bs < fuel)%nat -> tiled lo bs heap_end -> KERNEL_HEAP_START <= lo ->
  chain (heap_mem h) bs 0 -> 0 <= want -> want mod 16 = 0 ->
  runs (kmalloc_loop fuel want (nextp bs 0)) h (fun p h' =>
    match alloc_blocks want bs with
    | None => p = 0 /\ h' = h
    | Some (q, bs') =>
        p = q /\ heap_head h' = heap_head h /\ changed_in (heap_mem h) (heap_mem h') lo heap_end /\
        nextp bs' 0 = nextp bs 0 /\ tiled lo bs' heap_end /\ chain (heap_mem h') bs' 0 /\
        payloads_kept (heap_mem h) (heap_mem h') bs
    end).
Proof.
  induction fuel as [|fuel IH]; intros h lo bs Hf Ht Hlo Hc Hw Hm; [lia|].
  destruct bs as [|b bs]; cbn [kmalloc_loop nextp alloc_blocks]; [rewrite Z.eqb_refl; by run|].
  cbn [length] in Hf. cbn [tiled chain] in Ht, Hc.
  destruct Ht as (Ha & Hs & Hal & Ht). destruct Hc as [Hb Hc].
  pose proof (tiled_le _ _ _ Ht) as Hend.
  pose proof Hb as [Hsz Hmg Hnx Hfr].
  assert (Hge : KERNEL_HEAP_START <= b_end b) by (rewrite b_end_eq; lia).
  rewrite (proj2 (Z.eqb_neq _ _)) by (change KERNEL_HEAP_START with 0x200000 in *; lia).
  unfold get_magic, get_free, get_size. run. rewrite Hmg, Z.eqb_refl. cbn [negb]. run.
  rewrite Hfr, Hsz.
  replace ((((if b_free b then 1 else 0) =? 0) || (b_size b <? want)))
    with (negb (fits want b)) by (unfold fits; rewrite Z.leb_antisym; by destruct (b_free b), (b_size b <? want)).
  destruct (fits want b) eqn:Hfit; cbn [negb].
  - unfold fits in Hfit. zbool.
    assert (Hwr : 0 <= want <= b_size b) by lia.
    eapply runs_mono; [eapply (kmalloc_take_ok want b); try done; [lia|by eapply nextp_range]|].
    intros p h' (-> & Hh & Hch & Hcs). split_and!; [done|done| | | | |].
    + eapply changed_in_sub; [exact Hch|lia|lia].
    + unfold split_block. by destruct (_ <? _).
    + rewrite <- Ha. apply tiled_app. exists (b_end b). split; [by apply split_block_tiled|done].
    + apply chain_app. split; [done|]. eapply chain_frame; [exact Hch|exact Ht|lia|done].
    + intros c [->|Hcb]%elem_of_cons Hused; [congruence|].
      destruct (tiled_bounds _ _ _ _ Ht Hcb) as (? & ? & ? & _).
      eapply changed_in_same; [exact Hch|]. rewrite (b_end_eq b) in *.
      unfold b_payload, sizeof_heap_block. lia.
  - unfold get_next. run. rewrite Hnx.
    eapply runs_mono; [apply (IH h (b_end b) bs); try done; lia|].
    intros p h'. destruct (alloc_blocks want bs) as [[q bs']|]; cbn [mbind option_bind]; [|done].
    intros (-> & Hh & Hch & Hnp & Htl & Hcn & Hpk). split_and!; try done.
    + eapply changed_in_sub; [exact Hch|rewrite b_end_eq; lia|lia].
    + cbn [chain]. split; [|done]. rewrite Hnp. eapply hdr_same, Hb.
      eapply changed_in_same; [exact Hch|]. rewrite b_end_eq. lia.
    + intros c [->|Hcb]%elem_of_cons Hused; [|by apply Hpk].
      eapply changed_in_same; [exact Hch|]. unfold b_payload, sizeof_heap_block. lia.
Qed.

(** Absorbing the free neighbours writes nothing but the size and the link in
    the header of [b]. *)
Lemma kfree_loop_ok fuel : forall h b bs,
  (length bs < fuel)%nat -> tiled (b_addr b) (b :: bs) heap_end -> KERNEL_HEAP_START <= b_addr b ->
  chain (heap_mem h) (b :: bs) 0 ->
  runs (kfree_loop fuel (b_addr b)) h (fun _ h' =>
    heap_head h' = heap_head h /\
    changed_in (heap_mem h) (heap_mem h') (b_addr b) (b_payload b) /\
    tiled (b_addr b) (merge_free b bs) heap_end /\ chain (heap_mem h') (merge_free b bs) 0).
Proof.
  induction fuel as [|fuel IH]; intros h b bs Hf Ht Hlo [Hb Hc]; [lia|].
  destruct Ht as (_ & Hs & Hal & Ht). pose proof Hb as [Hsz Hmg Hnx Hfr].
  cbn [kfree_loop]. unfold get_next. run. rewrite Hnx.
  destruct bs as [|c bs]; cbn [nextp merge_free].
  { rewrite Z.eqb_refl. run. by split_and!. }
  cbn [length] in Hf. pose proof Ht as (Hca & Hcs & Hcal & Htc).
  pose proof Hc as [[Hcsz Hcmg Hcnx Hcfr] Hcc].
  pose proof (tiled_le _ _ _ Htc) as Hce. rewrite (b_end_eq b) in *. rewrite (b_end_eq c) in *.
  change KERNEL_HEAP_START with 0x200000 in *.
  rewrite (proj2 (Z.eqb_neq _ _)) by lia. unfold get_free. run. rewrite Hcfr.
  destruct (b_free c) eqn:Hcf; [rewrite (proj2 (Z.eqb_neq 1 0)) by lia|rewrite Z.eqb_refl]; run.
  2: { split_and!; try done; cbn [tiled chain nextp]; rewrite ?(b_end_eq b); by split_and!. }
  unfold get_magic, get_size, put_size, put_next. run. rewrite Hcmg, Z.eqb_refl. cbn [negb]. run.
  cbn [on_mem heap_mem heap_head]. change heap_end with 0x600000 in *.
  rewrite Hsz, Hcsz. unfold sizeof_heap_block. rewrite wrap_small by lia.
  rewrite (load_store_other 8 (b_addr c + 16)), Hcnx by lia.
  set (b' := mk_block (b_addr b) (b_size b + 32 + b_size c) (b_free b)).
  assert (Hch : changed_in (heap_mem h)
      (store 8 (b_addr b + 16) (nextp bs 0) (store 8 (b_addr b) (b_size b + 32 + b_size c) (heap_mem h)))
      (b_addr b) (b_addr b + 32))
    by (repeat (apply changed_in_store; [lia|lia|lia|]); apply changed_in_refl).
  assert (Hnr : 0 <= nextp bs 0 < 2 ^ 64) by (eapply nextp_range; [exact Htc|change KERNEL_HEAP_START with 0x200000; lia]).
  eapply runs_mono; [eapply (IH _ b' bs)|].
  - lia.
  - cbn [tiled]. rewrite b_end_eq. cbn [b' b_addr b_size]. unfold HEAP_ALIGN in *. split_and!; try done; [lia|dlia|].
    replace (b_addr b + 32 + (b_size b + 32 + b_size c)) with (b_addr c + 32 + b_size c) by lia. done.
  - done.
  - cbn [chain]. split.
    + split; cbn [b' b_addr b_size b_free heap_mem on_mem]; unfold HEAP_MAGIC in *; mem_simp; done.
    + eapply chain_frame; [exact Hch|exact Htc|lia|done].
  - intros [] h' (Hh & Hch' & Ht' & Hc'). split_and!; try done.
    eapply changed_in_trans; [exact Hch|exact Hch'].
Qed.

(** Addresses grow along the list, so a payload address names one block. *)
Lemma free_blocks_split lo pre b post :
  tiled lo (pre ++ b :: post) heap_end ->
  free_blocks (b_payload b) (pre ++ b :: post) = pre ++ merge_free (mk_block (b_addr b) (b_size b) true) post.
Proof.
  revert lo. induction pre as [|c pre IH]; intros lo Ht; cbn [app free_blocks]; [by rewrite Z.eqb_refl|].
  destruct Ht as (Ha & Hs & _ & Ht).
  destruct (tiled_bounds _ _ _ b Ht) as (Hb & _); [set_solver|].
  rewrite (IH _ Ht), (proj2 (Z.eqb_neq _ _)); [done|].
  rewrite b_end_eq in Hb. unfold b_payload, sizeof_heap_block. lia.
Qed.

Lemma merge_free_addr b bs nx : nextp (merge_free b bs) nx = b_addr b.
Proof. revert b. induction bs as [|c bs IH]; intros b; cbn; [done|]. destruct (b_free c); [by rewrite IH|done]. Qed.

(** What a heap promises to keep for the owner of every payload but [p]. *)
Lemma hdr_in m pre b post nx : chain m (pre ++ b :: post) nx -> hdr m b (nextp post nx).
Proof. rewrite chain_app. cbn [chain]. tauto. Qed.

Lemma block_from_payload_eq b :
  KERNEL_HEAP_START <= b_addr b -> b_end b <= heap_end -> 0 <= b_size b ->
  block_from_payload (b_payload b) = b_addr b.
Proof.
  rewrite b_end_eq. change KERNEL_HEAP_START with 0x200000. change heap_end with 0x600000.
  intros. unfold block_from_payload, b_payload, sizeof_heap_block. rewrite wrap_small; lia.
Qed.

Lemma rep_member h bs b : heap_rep h bs -> b ∈ bs ->
  0x200000 <= b_addr b /\ b_addr b + 32 + b_size b <= 0x600000 /\ 0 <= b_size b /\
  b_size b mod 16 = 0 /\ block_from_payload (b_payload b) = b_addr b.
Proof.
  intros [_ Ht _] Hb. destruct (tiled_bounds _ _ _ _ Ht Hb) as (? & ? & ? & ?).
  split_and!; try done. by apply block_from_payload_eq.
Qed.

Lemma kfree_ok h bs b :
  heap_rep h bs -> b ∈ bs -> b_free b = false ->
  runs (kfree (b_payload b)) h (fun _ h' =>
    heap_rep h' (free_blocks (b_payload b) bs) /\
    changed_in (heap_mem h) (heap_mem h') (b_addr b) (b_payload b)).
Proof.
  intros Hrep Hin Hused. pose proof (rep_member _ _ _ Hrep Hin) as (Hlo & Hhi & Hs & Hal & Hbp).
  apply list_elem_of_split in Hin as (pre & post & ->). destruct Hrep as [Hh Ht Hc].
  rewrite (free_blocks_split _ _ _ _ Ht).
  pose proof (hdr_in _ _ _ _ _ Hc) as [Hsz Hmg Hnx Hfr]. rewrite Hused in Hfr.
  unfold kfree. rewrite (proj2 (Z.eqb_neq _ _)) by (unfold b_payload, sizeof_heap_block; lia).
  rewrite Hbp. unfold get_magic, get_free, put_free. run. rewrite Hmg, Z.eqb_refl. cbn [negb]. run.
  rewrite Hfr. rewrite Z.eqb_refl. cbn [negb]. run. cbn [on_mem].
  set (m1 := store 4 (b_addr b + 24) 1 (heap_mem h)).
  assert (Hch : changed_in (heap_mem h) m1 (b_addr b) (b_addr b + 32))
    by (apply changed_in_store; [lia|lia|lia|]; apply changed_in_refl).
  apply tiled_app in Ht as (mid & Htp & Htb). pose proof Htb as (Hmid & _ & _ & Htq).
  apply chain_app in Hc as [Hcp [_ Hcq]]. cbn [nextp] in Hcp.
  set (b' := mk_block (b_addr b) (b_size b) true).
  eapply runs_mono; [eapply (kfree_loop_ok _ _ b' post)|].
  - enough (length (b :: post) < heap_fuel)%nat by (cbn [length] in *; lia).
    eapply heap_fuel_enough; [exact Htb|]. change KERNEL_HEAP_START with 0x200000. lia.
  - rewrite <- Hmid in Htb. exact Htb.
  - exact Hlo.
  - cbn [chain heap_mem]. split.
    + split; cbn [b' b_addr b_size b_free heap_mem on_mem]; mem_simp; done.
    + eapply chain_frame; [exact Hch|exact Htq|rewrite b_end_eq; lia|done].
  - intros [] h' (Hh' & Hch' & Ht' & Hc'). cbn [heap_head heap_mem] in *.
    assert (Hcc : changed_in (heap_mem h) (heap_mem h') (b_addr b) (b_payload b))
      by (eapply changed_in_trans; [exact Hch|exact Hch']).
    split; [|done]. split; [by rewrite Hh'| |].
    + apply tiled_app. exists mid. split; [done|]. by rewrite <- Hmid.
    + apply chain_app. rewrite merge_free_addr. split; [|done].
      eapply chain_frame; [exact Hcc|exact Htp|lia|done].
Qed.

Lemma kmalloc_ok h bs size :
  heap_rep h bs -> 0 < size <= 2 ^ 64 - 16 ->
  runs (kmalloc size) h (fun p h' =>
    match alloc_blocks (granules size) bs with
    | None => p = 0 /\ h' = h
    | Some (q, bs') => p = q /\ heap_rep h' bs' /\ payloads_kept (heap_mem h) (heap_mem h') bs
    end).
Proof.
  intros [Hh Ht Hc] Hs. unfold kmalloc. run.
  assert (Hbs : nextp bs 0 = KERNEL_HEAP_START) by (destruct bs; [done|by destruct Ht]).
  rewrite (proj2 (Z.eqb_neq size 0)), Hh by lia. cbn [orb].
  change (KERNEL_HEAP_START =? 0) with false. rewrite align_up_granules by lia.
  pose proof (granules_bounds size ltac:(lia)) as [? ?].
  eapply runs_mono; [rewrite <- Hbs; apply (kmalloc_loop_ok _ _ h KERNEL_HEAP_START bs);
    [by eapply heap_fuel_enough|done|done|done|lia|done]|].
  intros p h'. destruct (alloc_blocks _ bs) as [[q bs']|]; [|done].
  intros (-> & Hh' & _ & _ & Ht' & Hc' & Hk). split_and!; [done| |done]. split; [by rewrite Hh'|done|done].
Qed.

Lemma alloc_blocks_some want bs q bs' : alloc_blocks want bs = Some (q, bs') ->
  exists pre b post, bs = pre ++ b :: post /\ q = b_payload b /\ fits want b = true /\
    (forall c, c ∈ pre -> fits want c = false) /\ bs' = pre ++ split_block want b ++ post.
Proof.
  revert q bs'. induction bs as [|b bs IH]; intros q bs'; [done|]. cbn [alloc_blocks].
  destruct (fits want b) eqn:Hf.
  - intros; simplify_eq. exists [], b, bs. split_and!; try done. by intros c ?%elem_of_nil.
  - destruct (alloc_blocks want bs) as [[q1 bs1]|]; cbn; [|done]. intros; simplify_eq.
    destruct (IH _ _ eq_refl) as (pre & c & post & -> & -> & Hc & Hpre & ->).
    exists (b :: pre), c, post. split_and!; try done. intros d [->|?]%elem_of_cons; auto.
Qed.

Lemma alloc_blocks_none want bs :
  alloc_blocks want bs = None <-> forall b, b ∈ bs -> fits want b = false.
Proof.
  split.
  - induction bs as [|b bs IH]; cbn [alloc_blocks]; [by intros _ c ?%elem_of_nil|].
    destruct (fits want b) eqn:Hf; [done|].
    destruct (alloc_blocks want bs) as [[? ?]|]; [done|].
    intros _ c [->|?]%elem_of_cons; [done|by apply IH].
  - intros H. destruct (alloc_blocks want bs) as [[q bs']|] eqn:E; [|done].
    apply alloc_blocks_some in E as (pre & b & post & -> & _ & Hf & _).
    rewrite H in Hf; [done|set_solver].
Qed.

Lemma tiled_disjoint lo bs hi b c :
  tiled lo bs hi -> b ∈ bs -> c ∈ bs -> b = c \/ b_end b <= b_addr c \/ b_end c <= b_addr b.
Proof.
  revert lo. induction bs as [|d bs IH]; intros lo; cbn [tiled]; [by intros _ ?%elem_of_nil|].
  intros (_ & _ & _ & Ht) [->|Hb]%elem_of_cons [->|Hc]%elem_of_cons; [by left| | |by eapply IH].
  - right; left. by eapply (tiled_bounds _ _ _ _ Ht).
  - right; right. by eapply (tiled_bounds _ _ _ _ Ht).
Qed.

(** The piece of [b] that the caller gets. *)
Lemma split_block_head want b :
  fits want b = true -> 0 <= want ->
  exists c rest, split_block want b = c :: rest /\ b_addr c = b_addr b /\ b_free c = false /\
    want <= b_size c <= b_size b /\ Forall (fun d => b_free d = true) rest.
Proof.
  unfold fits, split_block. intros Hf Hw. zbool. unfold sizeof_heap_block, HEAP_ALIGN.
  destruct (Z.ltb_spec (32 + 16) (b_size b - want)); do 2 eexists; split_and!; try done;
    cbn [b_size]; try lia; by repeat constructor.
Qed.

(** Blocks in use before an allocation are in use after it, and the one
    allocated is the only new one. *)
Lemma alloc_blocks_used lo bs hi want q bs' :
  tiled lo bs hi -> 0 <= want -> alloc_blocks want bs = Some (q, bs') ->
  exists c, b_payload c = q /\ b_free c = false /\ want <= b_size c /\
    (forall d, d ∈ bs -> b_free d = false -> b_end d <= b_addr c \/ b_end c <= b_addr d) /\
    (forall d, b_free d = false -> (d ∈ bs' <-> d = c \/ d ∈ bs)).
Proof.
  intros Ht Hw (pre & b & post & -> & -> & Hf & _ & ->)%alloc_blocks_some.
  pose proof Hf as Hf'. unfold fits in Hf'. zbool.
  destruct (split_block_head _ _ Hf Hw) as (c & rest & Hsp & Hca & Hcf & Hcs & Hrest).
  exists c. split_and!; try done; [unfold b_payload; by rewrite Hca|lia| |].
  - intros d Hd Hdf. rewrite (b_end_eq c), Hca.
    destruct (tiled_disjoint _ _ _ b d Ht) as [->|[]]; [set_solver|done|congruence| |lia].
    rewrite b_end_eq in *. lia.
  - intros d Hd. rewrite Hsp, !elem_of_app, !elem_of_cons.
    rewrite Forall_forall in Hrest. split; [intros [?|[[?|Hr]|?]]|intros [?|[?|[->|?]]]]; try tauto.
    + rewrite Hrest in Hd; done.
    + congruence.
Qed.

Lemma merge_free_used b bs c : b_free b = true -> b_free c = false -> c ∈ merge_free b bs <-> c ∈ bs.
Proof.
  intros Hb Hc. revert b Hb. induction bs as [|d bs IH]; intros b Hb; cbn [merge_free].
  - rewrite list_elem_of_singleton, elem_of_nil. split; [congruence|done].
  - destruct (b_free d) eqn:Hd.
    + rewrite IH, elem_of_cons by done. split; [tauto|]. intros [->|?]; [congruence|done].
    + rewrite !elem_of_cons. split; [intros [->|?]; [congruence|done]|tauto].
Qed.

(** Freeing takes exactly the freed block out of the blocks in use. *)
Lemma free_blocks_used lo bs b c :
  tiled lo bs heap_end -> b ∈ bs -> b_free c = false ->
  c ∈ free_blocks (b_payload b) bs <-> c ∈ bs /\ b_payload c <> b_payload b.
Proof.
  intros Ht Hb Hc. apply list_elem_of_split in Hb as (pre & post & ->).
  rewrite (free_blocks_split _ _ _ _ Ht), elem_of_app, merge_free_used, elem_of_app, elem_of_cons by done.
  assert (Hne : c ∈ pre \/ c ∈ post -> b_payload c <> b_payload b).
  { intros Hin. apply tiled_app in Ht as (mid & Ht1 & Hmid & ? & _ & Ht2).
    rewrite <- Hmid in Ht1. unfold b_payload.
    destruct Hin as [Hin|Hin]; [destruct (tiled_bounds _ _ _ _ Ht1 Hin) as (? & H2 & ? & _)
                               |destruct (tiled_bounds _ _ _ _ Ht2 Hin) as (H2 & ? & ? & _)];
      rewrite b_end_eq in H2; lia. }
  naive_solver.
Qed.

Lemma heap_init_ok h :
  runs heap_init h (fun _ h' =>
    heap_rep h' [mk_block KERNEL_HEAP_START (KERNEL_HEAP_INITIAL_SIZE - sizeof_heap_block) true]).
Proof.
  unfold heap_init, put_size, put_magic, put_next, put_free. run. cbn [on_mem heap_head heap_mem].
  split; [done|by cbn|]. cbn [chain nextp]. split; [|done].
  split; cbn [b_addr b_size b_free heap_mem heap_head on_mem]; unfold HEAP_MAGIC, KERNEL_HEAP_START, KERNEL_HEAP_INITIAL_SIZE, sizeof_heap_block; mem_simp; done.
Qed.

(** * The heap as a set of byte arrays *)

(** [objs] gives, for every pointer handed out and not yet freed, the bytes
    its owner sees there.  Every block in use is owned. *)
Record heap_view (h : heap) (bs : list block) (objs : gmap Z (list Z)) : Prop := {
  view_rep : heap_rep h bs;
  view_objs p l : objs !! p = Some l -> exists b, b ∈ bs /\ b_free b = false /\ b_payload b = p /\
    Z.of_nat (length l) <= b_size b /\ mem_bytes (heap_mem h) p (Z.of_nat (length l)) = l;
  view_owned b : b ∈ bs -> b_free b = false -> is_Some (objs !! b_payload b) }.

Definition heap_objs (h : heap) (objs : gmap Z (list Z)) : Prop := exists bs, heap_view h bs objs.

(** What clients of the heap do: allocate, free what they own, write a byte
    inside an object they own. *)
Inductive heap_step : heap * gmap Z (list Z) -> heap * gmap Z (list Z) -> Prop :=
  | step_kmalloc h o size p h' :
      0 <= size <= 2 ^ 64 - 16 -> kmalloc size h = Some (p, h') -> p <> 0 ->
      heap_step (h, o) (h', <[p := mem_bytes (heap_mem h') p size]> o)
  | step_kmalloc_fail h o size h' :
      0 <= size <= 2 ^ 64 - 16 -> kmalloc size h = Some (0, h') -> heap_step (h, o) (h', o)
  | step_kfree h o p h' :
      is_Some (o !! p) -> kfree p h = Some (tt, h') -> heap_step (h, o) (h', delete p o)
  | step_write h o p l i v :
      o !! p = Some l -> 0 <= i < Z.of_nat (length l) -> 0 <= v < 2 ^ 8 ->
      heap_step (h, o) (on_mem (store 1 (p + i) v) h, <[p := <[Z.to_nat i := v]> l]> o).

Lemma used_payload_eq lo bs hi b c :
  tiled lo bs hi -> b ∈ bs -> c ∈ bs -> b_payload b = b_payload c -> b = c.
Proof.
  intros Ht Hb Hc He. destruct (tiled_disjoint _ _ _ b c Ht Hb Hc) as [|Hd]; [done|].
  destruct (tiled_bounds _ _ _ _ Ht Hb) as (_ & _ & ? & _), (tiled_bounds _ _ _ _ Ht Hc) as (_ & _ & ? & _).
  rewrite !b_end_eq in Hd. unfold b_payload, sizeof_heap_block in He. lia.
Qed.

Lemma mem_bytes_store1 m p i v n :
  0 <= i < n -> 0 <= v < 2 ^ 8 ->
  mem_bytes (store 1 (p + i) v m) p n = <[Z.to_nat i := v]> (mem_bytes m p n).
Proof.
  intros Hi Hv. apply list_eq. intros j. unfold mem_bytes.
  destruct (decide (j < Z.to_nat n)%nat) as [Hj|Hj].
  2: { rewrite !lookup_ge_None_2; [done| |]; rewrite ?length_insert, length_fmap, length_seqZ; lia. }
  assert (Hsq : seqZ p n !! j = Some (p + Z.of_nat j)) by (apply lookup_seqZ; lia).
  rewrite list_lookup_fmap, Hsq. cbn [fmap option_fmap option_map].
  rewrite mem_byte_store1 by done. destruct (decide (j = Z.to_nat i)) as [->|Hne].
  - rewrite list_lookup_insert_eq by (rewrite length_fmap, length_seqZ; lia).
    rewrite Z2Nat.id, Z.eqb_refl by lia. done.
  - rewrite list_lookup_insert_ne, list_lookup_fmap, Hsq by done. cbn [fmap option_fmap option_map].
    rewrite (proj2 (Z.eqb_neq _ _)) by lia. done.
Qed.

Lemma payloads_kept_bytes m m' bs b n :
  payloads_kept m m' bs -> b ∈ bs -> b_free b = false -> n <= b_size b ->
  mem_bytes m' (b_payload b) n = mem_bytes m (b_payload b) n.
Proof.
  intros Hk Hb Hf Hn. apply mem_bytes_same. eapply same_on_sub; [by apply Hk|lia|].
  unfold b_end. lia.
Qed.

(** A change confined to the block [b] keeps the payloads of the others. *)
Lemma changed_in_kept m m' lo bs hi b l h :
  tiled lo bs hi -> b ∈ bs -> b_addr b <= l -> h <= b_end b -> changed_in m m' l h ->
  forall c, c ∈ bs -> b_payload c <> b_payload b -> same_on m m' (b_payload c) (b_end c).
Proof.
  intros Ht Hb Hl Hh Hch c Hc Hne. eapply changed_in_same; [exact Hch|].
  destruct (tiled_disjoint _ _ _ b c Ht Hb Hc) as [->|Hd]; [done|].
  unfold b_payload, sizeof_heap_block in *. lia.
Qed.

(** Allocation adds an object and keeps the bytes of the others. *)
Lemma kmalloc_view h bs o size :
  heap_view h bs o -> 0 < size <= 2 ^ 64 - 16 ->
  runs (kmalloc size) h (fun p h' =>
    (p = 0 /\ h' = h /\ forall b, b ∈ bs -> fits (granules size) b = false) \/
    (exists bs' c, p <> 0 /\ b_payload c = p /\ c ∈ bs' /\ b_free c = false /\ size <= b_size c /\
       (forall d, d ∈ bs -> b_free d = false -> d ∈ bs' /\ (b_end d <= b_addr c \/ b_end c <= b_addr d) /\
          same_on (heap_mem h) (heap_mem h') (b_payload d) (b_end d)) /\
       heap_view h' bs' (<[p := mem_bytes (heap_mem h') p size]> o))).
Proof.
  intros [Hrep Ho Hown] Hs. eapply runs_mono; [by apply kmalloc_ok|]. intros p h' HQ. cbv beta in HQ.
  pose proof (granules_bounds size ltac:(lia)) as [Hg _].
  destruct (alloc_blocks _ bs) as [[q bs']|] eqn:Ha.
  2: { left. split_and!; [apply HQ|apply HQ|by apply alloc_blocks_none]. }
  destruct HQ as (-> & Hrep' & Hk). right.
  assert (Hg0 : 0 <= granules size) by lia.
  destruct (alloc_blocks_used _ _ _ _ _ _ (rep_tiled _ _ Hrep) Hg0 Ha) as (c & <- & Hcf & Hcs & Hdis & Hmem).
  assert (Hcin : c ∈ bs') by (apply Hmem; auto).
  pose proof (rep_member _ _ _ Hrep' Hcin) as (? & _).
  exists bs', c. split_and!; try done; [unfold b_payload, sizeof_heap_block; lia|lia| |].
  { intros d Hd Hdf. split_and!; [apply Hmem; auto|by apply Hdis|by apply Hk]. }
  split; [done| |].
  - intros p l [[<- <-]|[Hne Hl]]%lookup_insert_Some.
    + exists c. rewrite mem_bytes_length by lia. split_and!; try done. lia.
    + destruct (Ho _ _ Hl) as (b & Hb & Hbf & <- & Hbl & Hbytes). exists b. split_and!; try done.
      * apply Hmem; auto.
      * by rewrite (payloads_kept_bytes _ _ _ _ _ Hk Hb Hbf Hbl).
  - intros b Hb Hbf. apply lookup_insert_is_Some'. apply Hmem in Hb as [->|Hb]; [by left|right; auto|done].
Qed.

(** Freeing removes the object and keeps the bytes of the others. *)
Lemma kfree_view h bs o b :
  heap_view h bs o -> b ∈ bs -> b_free b = false ->
  runs (kfree (b_payload b)) h (fun _ h' =>
    heap_view h' (free_blocks (b_payload b) bs) (delete (b_payload b) o)).
Proof.
  intros [Hrep Ho Hown] Hb Hbf. eapply runs_mono; [by apply kfree_ok|]. intros [] h' [Hrep' Hch].
  pose proof (rep_member _ _ _ Hrep Hb) as (_ & _ & Hs & _).
  assert (Hbe : b_payload b <= b_end b) by (unfold b_end; lia). split; [done| |].
  - intros q l' [Hne Hq]%lookup_delete_Some. destruct (Ho _ _ Hq) as (c & Hc & Hcf & <- & Hcl & Hby).
    exists c. split_and!; try done.
    + by apply (free_blocks_used _ _ _ _ (rep_tiled _ _ Hrep)).
    + rewrite <- Hby at 2. apply mem_bytes_same. eapply same_on_sub;
        [by apply (changed_in_kept _ _ _ _ _ b _ _ (rep_tiled _ _ Hrep) Hb (Z.le_refl _) Hbe Hch)|lia|unfold b_end; lia].
  - intros c Hc Hcf. apply (free_blocks_used _ _ _ _ (rep_tiled _ _ Hrep)) in Hc as [Hc Hne]; [|done|done].
    rewrite lookup_delete_ne by done. auto.
Qed.

(** Writes inside the payload of a block in use change that object only. *)
Lemma payload_write_view h bs o b m' n :
  heap_view h bs o -> b ∈ bs -> b_free b = false -> 0 <= n <= b_size b ->
  changed_in (heap_mem h) m' (b_payload b) (b_end b) ->
  heap_view (mk_heap (heap_head h) m') bs (<[b_payload b := mem_bytes m' (b_payload b) n]> o).
Proof.
  intros [Hrep Ho Hown] Hb Hbf Hn Hch. pose proof (rep_tiled _ _ Hrep) as Ht.
  assert (Hba : b_addr b <= b_payload b) by (unfold b_payload, sizeof_heap_block; lia). split.
  - destruct Hrep as [Hh _ Hc]. split; [done|done|]. cbn [heap_mem].
    eapply chain_same, Hc. intros c Hcin. eapply changed_in_same; [exact Hch|].
    destruct (tiled_disjoint _ _ _ b c Ht Hb Hcin) as [->|[]];
      destruct (tiled_bounds _ _ _ _ Ht Hcin) as (_ & _ & ? & _);
      rewrite ?b_end_eq in *; unfold b_payload, sizeof_heap_block in *; lia.
  - intros q l' [[<- <-]|[Hne Hq]]%lookup_insert_Some; cbn [heap_mem].
    + exists b. rewrite mem_bytes_length by lia. split_and!; try done. lia.
    + destruct (Ho _ _ Hq) as (c & Hc & Hcf & <- & Hcl & Hcby). exists c. split_and!; try done.
      rewrite <- Hcby at 2. apply mem_bytes_same. eapply same_on_sub;
        [by apply (changed_in_kept _ _ _ _ _ b _ _ Ht Hb Hba (Z.le_refl _) Hch)|lia|unfold b_end; lia].
  - intros c Hc Hcf. apply lookup_insert_is_Some'. right. auto.
Qed.

Lemma heap_step_objs s s' : heap_step s s' -> heap_objs s.1 s.2 -> heap_objs s'.1 s'.2.
Proof.
  intros [h o size p h' Hs Hr Hp|h o size h' Hs Hr|h o p h' [l Hl] Hr|h o p l i v Hl Hi Hv] [bs Hv']; cbn [fst snd] in *.
  - destruct (Z.eq_dec size 0) as [->|]; [by cbv in Hr; simplify_eq|].
    destruct (runs_det _ _ _ _ _ (kmalloc_view h bs o size Hv' ltac:(lia)) Hr) as [[? _]|(bs' & c & H)]; [done|].
    exists bs'. apply H.
  - destruct (Z.eq_dec size 0) as [->|]; [cbv in Hr; simplify_eq; by exists bs|].
    destruct (runs_det _ _ _ _ _ (kmalloc_view h bs o size Hv' ltac:(lia)) Hr) as [(_ & -> & _)|(bs' & c & ? & _)]; [|done].
    by exists bs.
  - destruct (view_objs _ _ _ Hv' _ _ Hl) as (b & Hb & Hbf & <- & _).
    eexists. exact (runs_det _ _ _ _ _ (kfree_view h bs o b Hv' Hb Hbf) Hr).
  - destruct (view_objs _ _ _ Hv' _ _ Hl) as (b & Hb & Hbf & <- & Hbl & Hby). exists bs.
    rewrite <- Hby, <- mem_bytes_store1 by done. apply payload_write_view; try done; [lia|].
    apply changed_in_store; [lia|lia|unfold b_end; lia|apply changed_in_refl].
Qed.

(** * Growing an object *)

Lemma copy_loop_ok fuel b dst src n : forall h0 h i,
  load 8 b (heap_mem h0) = n -> 0 <= i <= n -> (Z.to_nat (n - i) < fuel)%nat ->
  dst + n <= b \/ b + 8 <= dst -> dst + n <= src \/ src + n <= dst ->
  heap_head h = heap_head h0 -> changed_in (heap_mem h0) (heap_mem h) dst (dst + n) ->
  (forall j, 0 <= j < i -> mem_byte (heap_mem h) (dst + j) = mem_byte (heap_mem h0) (src + j)) ->
  runs (copy_loop fuel b dst src i) h (fun _ h' =>
    heap_head h' = heap_head h0 /\ changed_in (heap_mem h0) (heap_mem h') dst (dst + n) /\
    (forall j, 0 <= j < n -> mem_byte (heap_mem h') (dst + j) = mem_byte (heap_mem h0) (src + j))).
Proof.
  induction fuel as [|fuel IH]; intros h0 h i Hsz Hi Hf Hb Hd Hh Hch Hcp; [lia|].
  cbn [copy_loop]. unfold get_size. run.
  rewrite (load_same 8 b (heap_mem h0)), Hsz by (eapply changed_in_same; [exact Hch|lia]).
  destruct (Z.ltb_spec i n); run.
  - pose proof (mem_byte_range (heap_mem h) (src + i)) as Hr.
    apply (IH h0); try done; cbn [on_mem heap_mem]; try lia.
    + apply changed_in_store; [lia|lia|lia|done].
    + intros j Hj. rewrite mem_byte_store1 by done. destruct (Z.eqb_spec (dst + j) (dst + i)) as [He|He].
      * replace j with i by lia. apply Hch. lia.
      * apply Hcp. lia.
  - split_and!; try done. intros j Hj. apply Hcp. lia.
Qed.

Lemma mem_bytes_ext m m' a a' n :
  (forall j, 0 <= j < n -> mem_byte m' (a' + j) = mem_byte m (a + j)) ->
  mem_bytes m' a' n = mem_bytes m a n.
Proof.
  intros H. apply list_eq. intros j. unfold mem_bytes. rewrite !list_lookup_fmap.
  destruct (decide (j < Z.to_nat n)%nat).
  - rewrite !(proj2 (lookup_seqZ _ _ _ _)) by (split; [reflexivity|lia]). cbn. f_equal. apply H. lia.
  - rewrite !lookup_ge_None_2 by (rewrite length_seqZ; lia). done.
Qed.

Lemma mem_bytes_take m a n k : 0 <= k <= n -> take (Z.to_nat k) (mem_bytes m a n) = mem_bytes m a k.
Proof.
  intros. unfold mem_bytes. rewrite <- fmap_take. f_equal.
  replace n with (k + (n - k)) by lia. rewrite seqZ_app by lia.
  rewrite take_app_le, take_ge; [done| |]; rewrite length_seqZ; lia.
Qed.

Lemma view_hdr h bs o b : heap_view h bs o -> b ∈ bs -> exists nx, hdr (heap_mem h) b nx.
Proof.
  intros Hv Hb. pose proof (rep_chain _ _ (view_rep _ _ _ Hv)) as Hc.
  apply list_elem_of_split in Hb as (pre & post & ->). eexists. by eapply hdr_in.
Qed.

(** Moving the contents of [b] to a larger block [c] and freeing [b]. *)
Lemma move_view h bs o b c n :
  heap_view h bs o -> b ∈ bs -> b_free b = false -> c ∈ bs -> b_free c = false ->
  b_end b <= b_addr c \/ b_end c <= b_addr b -> b_size b < n <= b_size c ->
  runs (_ ← copy_loop (S (Z.to_nat (b_size b))) (b_addr b) (b_payload c) (b_payload b) 0;
        _ ← kfree (b_payload b); mret (b_payload c)) h (fun q h' =>
    q = b_payload c /\ exists l', Z.of_nat (length l') = n /\
      take (Z.to_nat (b_size b)) l' = mem_bytes (heap_mem h) (b_payload b) (b_size b) /\
      heap_objs h' (<[q := l']> (delete (b_payload b) o))).
Proof.
  intros Hv Hb Hbf Hc Hcf Hdis Hn. rewrite !b_end_eq in Hdis.
  pose proof (rep_member _ _ _ (view_rep _ _ _ Hv) Hc) as (? & ? & ? & _).
  pose proof (rep_member _ _ _ (view_rep _ _ _ Hv) Hb) as (? & ? & ? & _).
  assert (Hpc : b_payload c = b_addr c + 32) by done. assert (Hpb : b_payload b = b_addr b + 32) by done.
  destruct (view_hdr _ _ _ _ Hv Hb) as [nx [Hsz _ _ _]]. run.
  eapply runs_mono; [apply (copy_loop_ok _ _ _ _ (b_size b) h h 0); try done; lia|].
  intros [] h2 (Hh2 & Hch2 & Hcp). run.
  pose proof (payload_write_view _ _ _ _ (heap_mem h2) n Hv Hc Hcf ltac:(lia)) as Hv2.
  assert (Hh2' : mk_heap (heap_head h) (heap_mem h2) = h2) by (rewrite <- Hh2; by destruct h2).
  rewrite Hh2' in Hv2.
  specialize (Hv2 ltac:(eapply changed_in_sub; [exact Hch2|lia|rewrite b_end_eq; lia])).
  eapply runs_mono; [by apply (kfree_view _ _ _ b Hv2)|]. intros [] h3 Hv3. run.
  split; [done|]. exists (mem_bytes (heap_mem h2) (b_payload c) n).
  rewrite mem_bytes_length, mem_bytes_take by lia. split_and!; [done| |].
  - by apply mem_bytes_ext.
  - eexists. rewrite delete_insert_ne in Hv3 by lia. exact Hv3.
Qed.

(** The ways [krealloc] returns: no room, in place, moved. *)
Lemma krealloc_view h bs o b n :
  heap_view h bs o -> b ∈ bs -> b_free b = false -> 0 < n <= 2 ^ 64 - 16 ->
  runs (krealloc (b_payload b) n) h (fun q h' =>
    (q = 0 /\ h' = h /\ b_size b < n /\ forall c, c ∈ bs -> fits (granules n) c = false) \/
    (q <> 0 /\ exists l', Z.of_nat (length l') = n /\
       take (Z.to_nat (b_size b `min` n)) l' = mem_bytes (heap_mem h) (b_payload b) (b_size b `min` n) /\
       heap_objs h' (<[q := l']> (delete (b_payload b) o)))).
Proof.
  intros Hv Hb Hbf Hn.
  pose proof (rep_member _ _ _ (view_rep _ _ _ Hv) Hb) as (Hlo & Hhi & Hs & _ & Hbp).
  assert (Hp : b_payload b = b_addr b + 32) by done.
  destruct (view_hdr _ _ _ _ Hv Hb) as [nx [Hsz Hmg _ _]].
  unfold krealloc. rewrite (proj2 (Z.eqb_neq (b_payload b) 0)), (proj2 (Z.eqb_neq n 0)) by lia. rewrite Hbp.
  unfold get_magic, get_size. run. rewrite Hmg, Z.eqb_refl. cbn [negb]. run. rewrite Hsz.
  destruct (Z.leb_spec n (b_size b)) as [Hle|Hgt]; run.
  - right. split; [lia|]. exists (mem_bytes (heap_mem h) (b_payload b) n).
    rewrite mem_bytes_length, Z.min_r, mem_bytes_take by lia. split_and!; [done|done|].
    exists bs. rewrite insert_delete_eq. replace h with (mk_heap (heap_head h) (heap_mem h)) at 1 by by destruct h.
    apply payload_write_view; try done. lia.
  - eapply runs_mono; [by eapply kmalloc_view|]. intros p h1 [(-> & -> & Hno)|Hnew].
    { rewrite Z.eqb_refl. run. left. by split_and!. }
    destruct Hnew as (bs1 & c & Hp0 & <- & Hc & Hcf & Hcs & Hold & Hv1).
    destruct (Hold b Hb Hbf) as (Hb1 & Hdis & Hsame).
    rewrite (proj2 (Z.eqb_neq _ _)) by done.
    eapply runs_mono; [apply (move_view _ _ _ b c n Hv1); done || lia|].
    intros q h3 (-> & l' & Hl' & Htk & Ho). right. split; [done|]. exists l'.
    rewrite Z.min_l by lia. split_and!; [done| |].
    + rewrite Htk. by apply mem_bytes_same.
    + assert (b_payload b <> b_payload c) by (rewrite !b_end_eq in Hdis; unfold b_payload, sizeof_heap_block; lia).
      by rewrite delete_insert_ne, insert_insert_eq in Ho by done.
Qed.

(** * Statistics *)

Definition bytes_where (f : block -> bool) (bs : list block) : Z :=
  foldr (fun b n => (if f b then b_size b else 0) + n) 0 bs.

Definition largest_free (bs : list block) : Z :=
  foldr (fun b n => if b_free b then b_size b `max` n else n) 0 bs.

Lemma tiled_total lo bs hi : tiled lo bs hi ->
  bytes_where (fun b => negb (b_free b)) bs + bytes_where b_free bs + 32 * Z.of_nat (length bs) = hi - lo /\
  0 <= bytes_where (fun b => negb (b_free b)) bs /\ 0 <= bytes_where b_free bs /\ 0 <= largest_free bs.
Proof.
  revert lo. induction bs as [|b bs IH]; intros lo; cbn [tiled bytes_where largest_free foldr length]; [lia|].
  intros (Ha & Hs & _ & Ht%IH). rewrite b_end_eq in Ht.
  fold (bytes_where (fun b => negb (b_free b)) bs) (bytes_where b_free bs) (largest_free bs).
  destruct (b_free b); cbn [negb]; lia.
Qed.

Lemma heap_stats_loop_ok fuel : forall h lo bs u f l,
  (length bs < fuel)%nat -> tiled lo bs heap_end -> KERNEL_HEAP_START <= lo -> chain (heap_mem h) bs 0 ->
  0 <= u < 2 ^ 62 -> 0 <= f < 2 ^ 62 -> u + f + (heap_end - lo) < 2 ^ 62 -> 0 <= l ->
  heap_stats_loop fuel (nextp bs 0) u f l h =
    Some ((u + bytes_where (fun b => negb (b_free b)) bs, f + bytes_where b_free bs, l `max` largest_free bs), h).
Proof.
  induction fuel as [|fuel IH]; intros h lo bs u f l Hf Ht Hlo Hc Hu Hfr Huf Hl; [lia|].
  destruct bs as [|b bs]; cbn [heap_stats_loop nextp bytes_where largest_free foldr].
  { rewrite Z.eqb_refl. rewrite !Z.add_0_r, Z.max_l by lia. done. }
  fold (bytes_where (fun b => negb (b_free b)) bs) (bytes_where b_free bs) (largest_free bs).
  destruct Ht as (Ha & Hs & _ & Ht). destruct Hc as [[Hsz Hmg Hnx Hfree] Hc]. cbn [length] in Hf.
  pose proof (tiled_le _ _ _ Ht) as Hend. pose proof (tiled_total _ _ _ Ht) as Htot.
  assert (Hge : KERNEL_HEAP_START <= b_end b) by (rewrite b_end_eq; lia).
  rewrite b_end_eq in Hend, Htot. change KERNEL_HEAP_START with 0x200000 in *. change heap_end with 0x600000 in *.
  rewrite (proj2 (Z.eqb_neq _ _)) by lia.
  unfold get_magic, get_free, get_size, get_next, mbind, prog_bind, gets.
  rewrite Hmg, Z.eqb_refl. cbn [negb]. rewrite Hsz, Hnx, Hfree.
  destruct (b_free b) eqn:Hbf; cbn [negb Z.eqb];
    rewrite wrap_small by lia; rewrite (IH h (b_end b) bs); try done; try (rewrite ?b_end_eq; lia).
  - f_equal. f_equal. f_equal; [f_equal; lia|]. destruct (Z.ltb_spec l (b_size b)); lia.
  - destruct (Z.ltb_spec l (b_size b)); lia.
  - f_equal. f_equal. f_equal. f_equal; lia.
Qed.

(** * Correctness of the heap *)

(** C31: [kmalloc] of any size from 1 to 2^64 - 16 terminates without fault on
    a well-formed heap and is first fit: it takes the first free block (in
    address order) that holds the request rounded up to 16 bytes, splits off
    the tail when more than 48 bytes are left over, and leaves every payload
    in use untouched; it returns NULL, changing nothing, exactly when no free
    block is large enough. *)
Theorem kmalloc_first_fit h bs size :
  heap_rep h bs -> 0 < size <= 2 ^ 64 - 16 ->
  runs (kmalloc size) h (fun p h' =>
    (p = 0 /\ h' = h /\ forall b, b ∈ bs -> fits (granules size) b = false) \/
    (exists pre b post,
       bs = pre ++ b :: post /\ p = b_payload b /\ fits (granules size) b = true /\
       (forall c, c ∈ pre -> fits (granules size) c = false) /\
       heap_rep h' (pre ++ split_block (granules size) b ++ post) /\
       payloads_kept (heap_mem h) (heap_mem h') bs)).
Proof.
  intros Hrep Hs. eapply runs_mono; [by apply kmalloc_ok|]. intros p h' HQ. cbv beta in HQ.
  destruct (alloc_blocks _ bs) as [[q bs']|] eqn:Ha.
  - destruct HQ as (-> & Hrep' & Hk). right.
    apply alloc_blocks_some in Ha as (pre & b & post & -> & -> & Hf & Hpre & ->).
    by exists pre, b, post.
  - left. destruct HQ. split_and!; try done. by apply alloc_blocks_none.
Qed.

(** The state after [heap_init] on zeroed memory. *)
Definition boot_heap : heap := default (mk_heap 0 ∅) (snd <$> heap_init (mk_heap 0 ∅)).

Lemma boot_heap_rep : heap_rep boot_heap [mk_block 0x200000 0x3fffe0 true].
Proof.
  destruct (heap_init_ok (mk_heap 0 ∅)) as (a & h' & Hr & Hrep). unfold boot_heap. rewrite Hr. exact Hrep.
Qed.

Lemma kmalloc_first_fit_witness : runs (kmalloc 24) boot_heap (fun p h' =>
    (p = 0 /\ h' = boot_heap /\ forall b, b ∈ [mk_block 0x200000 0x3fffe0 true] -> fits (granules 24) b = false) \/
    (exists pre b post,
       [mk_block 0x200000 0x3fffe0 true] = pre ++ b :: post /\ p = b_payload b /\ fits (granules 24) b = true /\
       (forall c, c ∈ pre -> fits (granules 24) c = false) /\
       heap_rep h' (pre ++ split_block (granules 24) b ++ post) /\
       payloads_kept (heap_mem boot_heap) (heap_mem h') [mk_block 0x200000 0x3fffe0 true])).
Proof. apply (kmalloc_first_fit boot_heap [mk_block 0x200000 0x3fffe0 true] 24); [apply boot_heap_rep|lia]. Defined.

(** C32: [kfree] of the payload of a block in use frees exactly that block,
    merges it with all free blocks that follow it directly, and writes only
    its header; [kfree] of a payload that is already free, and of NULL,
    changes nothing. *)
Theorem kfree_coalesces h bs b :
  heap_rep h bs -> b ∈ bs ->
  kfree 0 h = Some (tt, h) /\
  (if b_free b then kfree (b_payload b) h = Some (tt, h)
   else runs (kfree (b_payload b)) h (fun _ h' =>
          heap_rep h' (free_blocks (b_payload b) bs) /\
          changed_in (heap_mem h) (heap_mem h') (b_addr b) (b_payload b) /\
          (forall c, b_free c = false ->
             c ∈ free_blocks (b_payload b) bs <-> c ∈ bs /\ b_payload c <> b_payload b))).
Proof.
  intros Hrep Hb. split; [done|]. destruct (b_free b) eqn:Hbf.
  - pose proof (rep_member _ _ _ Hrep Hb) as (Hlo & Hhi & Hs & _ & Hbp).
    destruct Hrep as [_ _ Hc]. apply list_elem_of_split in Hb as (pre & post & ->).
    destruct (hdr_in _ _ _ _ _ Hc) as [_ Hmg _ Hfr]. rewrite Hbf in Hfr.
    unfold kfree. rewrite (proj2 (Z.eqb_neq _ _)), Hbp by (unfold b_payload, sizeof_heap_block; lia).
    unfold get_magic, get_free, mbind, prog_bind, gets. rewrite Hmg, Z.eqb_refl. cbn [negb]. by rewrite Hfr.
  - eapply runs_mono; [by apply kfree_ok|]. intros [] h' [Hrep' Hch]. split_and!; try done.
    intros c Hcf. by apply (free_blocks_used _ _ _ _ (rep_tiled _ _ Hrep)).
Qed.

(** The heap after a first [kmalloc(24)]: a block of 32 bytes in use, the rest free. *)
Definition boot_heap1 : heap := default boot_heap (snd <$> kmalloc 24 boot_heap).
Definition boot_blocks1 : list block := [mk_block 0x200000 32 false; mk_block 0x200040 0x3fffa0 true].

Lemma boot_kmalloc : kmalloc 24 boot_heap = Some (0x200020, boot_heap1).
Proof. vm_compute. reflexivity. Qed.

Lemma boot_heap1_rep : heap_rep boot_heap1 boot_blocks1.
Proof.
  pose proof (runs_det _ _ _ _ _ (kmalloc_ok _ _ 24 boot_heap_rep ltac:(lia)) boot_kmalloc) as HQ.
  cbv beta in HQ. apply HQ.
Qed.

Lemma kfree_coalesces_witness : kfree 0 boot_heap1 = Some (tt, boot_heap1) /\
  runs (kfree 0x200020) boot_heap1 (fun _ h' =>
    heap_rep h' [mk_block 0x200000 0x3fffe0 true] /\
    changed_in (heap_mem boot_heap1) (heap_mem h') 0x200000 0x200020 /\
    (forall c, b_free c = false ->
       c ∈ [mk_block 0x200000 0x3fffe0 true] <-> c ∈ boot_blocks1 /\ b_payload c <> 0x200020)).
Proof.
  apply (kfree_coalesces boot_heap1 boot_blocks1 (mk_block 0x200000 32 false) boot_heap1_rep).
  apply elem_of_cons. by left.
Defined.

(** C2: the heap refines a map from pointers to byte arrays.  Start from
    [heap_init] and let clients allocate, free what they own and write inside
    what they own, in any order and number: every object still holds exactly
    the bytes its owner last wrote, lies 16-byte aligned inside the heap
    window, and overlaps no other object; the next operation of a client
    always terminates without fault. *)
Theorem heap_isolation h0 h o :
  rtc heap_step (default h0 (snd <$> heap_init h0), ∅) (h, o) ->
  (forall p l, o !! p = Some l ->
     mem_bytes (heap_mem h) p (Z.of_nat (length l)) = l /\
     p mod 16 = 0 /\ KERNEL_HEAP_START < p /\ p + Z.of_nat (length l) <= heap_end /\
     (forall q k, o !! q = Some k -> q <> p ->
        p + Z.of_nat (length l) <= q \/ q + Z.of_nat (length k) <= p) /\
     is_Some (kfree p h)) /\
  (forall size, 0 <= size <= 2 ^ 64 - 16 -> is_Some (kmalloc size h)).
Proof.
  intros Hsteps. assert (heap_objs h o) as [bs [Hrep Ho Hown]].
  { enough (heap_objs (default h0 (snd <$> heap_init h0)) ∅) as Hinit.
    { change (heap_objs (h, o).1 (h, o).2). eapply (rtc_ind_l (fun s => heap_objs s.1 s.2 -> heap_objs (h, o).1 (h, o).2));
        [done| |exact Hsteps|done]. intros s s' Hst _ IH Hs. by eapply IH, heap_step_objs. }
    destruct (heap_init_ok h0) as (a & h1 & -> & Hrep). cbn. eexists. split; [exact Hrep|done|].
    intros b ->%list_elem_of_singleton. done. }
  split.
  - intros p l Hl. destruct (Ho _ _ Hl) as (b & Hb & Hbf & <- & Hbl & Hby).
    pose proof (rep_member _ _ _ Hrep Hb) as (Hlo & Hhi & Hs & Hm & _).
    change KERNEL_HEAP_START with 0x200000. change heap_end with 0x600000.
    assert (Hp : b_payload b = b_addr b + 32) by done.
    split_and!; try done; [|lia|lia| |].
    + by eapply tiled_aligned; [apply (rep_tiled _ _ Hrep)| |].
    + intros q k Hk Hne. destruct (Ho _ _ Hk) as (c & Hc & Hcf & <- & Hcl & _).
      destruct (tiled_disjoint _ _ _ b c (rep_tiled _ _ Hrep) Hb Hc) as [->|Hd]; [done|].
      rewrite !b_end_eq in Hd. unfold b_payload, sizeof_heap_block. lia.
    + destruct (kfree_ok h bs b Hrep Hb Hbf) as (a & h' & -> & _). done.
  - intros size Hs. destruct (Z.eq_dec size 0) as [->|]; [by eexists|].
    destruct (kmalloc_ok h bs size Hrep ltac:(lia)) as (a & h' & -> & _). done.
Qed.

(** A client that allocates 24 bytes and writes into them. *)
Lemma heap_isolation_witness :
  mem_byte (heap_mem (on_mem (store 1 (0x200020 + 3) 0x41) boot_heap1)) 0x200023 = 0x41 /\
  forall size, 0 <= size <= 2 ^ 64 - 16 -> is_Some (kmalloc size (on_mem (store 1 (0x200020 + 3) 0x41) boot_heap1)).
Proof.
  split; [cbn [on_mem heap_mem]; by rewrite mem_byte_store1|].
  apply (heap_isolation (mk_heap 0 ∅) _
    (<[0x200020 := <[Z.to_nat 3 := 0x41]> (mem_bytes (heap_mem boot_heap1) 0x200020 24)]>
       (<[0x200020 := mem_bytes (heap_mem boot_heap1) 0x200020 24]> ∅))).
  eapply rtc_l; [apply (step_kmalloc _ _ 24 0x200020 boot_heap1); [lia|apply boot_kmalloc|lia]|].
  apply rtc_once, step_write; [apply lookup_insert_eq|rewrite mem_bytes_length; lia|lia].
Defined.

(** C33: [krealloc] on an object of [l] bytes to a positive size [n] either
    returns NULL and leaves the heap unchanged, which happens only when no
    free block holds [n] bytes, or returns a block of at least [n] bytes
    whose first bytes are those of the old object; the old pointer is no
    longer owned (unless returned), and every other object is kept. *)
Theorem krealloc_keeps_contents h o p l n :
  heap_objs h o -> o !! p = Some l -> 0 < n <= 2 ^ 64 - 16 ->
  runs (krealloc p n) h (fun q h' =>
    (q = 0 /\ h' = h /\ kmalloc n h = Some (0, h)) \/
    (q <> 0 /\ exists l', Z.of_nat (length l') = n /\
       take (length l) l' = take (Z.to_nat n) l /\
       heap_objs h' (<[q := l']> (delete p o)))).
Proof.
  intros [bs Hv] Hl Hn. destruct (view_objs _ _ _ Hv _ _ Hl) as (b & Hb & Hbf & <- & Hbl & Hby).
  eapply runs_mono; [by apply (krealloc_view h bs o b n)|].
  intros q h' [(-> & -> & _ & Hno)|(Hq & l' & Hlen & Htk & Ho)].
  - left. split_and!; try done. destruct (kmalloc_ok h bs n (view_rep _ _ _ Hv) Hn) as (a & h' & Hr & HQ).
    rewrite (proj2 (alloc_blocks_none _ _) Hno) in HQ. destruct HQ as [-> ->]. exact Hr.
  - right. split; [done|]. exists l'. split_and!; [done| |done].
    pose (k := Z.of_nat (length l) `min` n).
    assert (Hkb : 0 <= k <= b_size b `min` n) by (unfold k; lia).
    assert (Hk : take (Z.to_nat k) l' = take (Z.to_nat k) l).
    { assert (Hkl : take (Z.to_nat k) l = mem_bytes (heap_mem h) (b_payload b) k)
        by (rewrite <- Hby at 1; apply mem_bytes_take; unfold k; lia).
      rewrite Hkl, <- (mem_bytes_take _ _ (b_size b `min` n) k), <- Htk, take_take by done.
      f_equal. lia. }
    destruct (Z.le_ge_cases (Z.of_nat (length l)) n).
    + replace (Z.to_nat k) with (length l) in Hk by (unfold k; lia). by rewrite Hk, !take_ge by lia.
    + replace (Z.to_nat k) with (Z.to_nat n) in Hk by (unfold k; lia). by rewrite <- Hk, !take_ge by lia.
Qed.

Lemma krealloc_keeps_contents_witness :
  let l := mem_bytes (heap_mem boot_heap1) 0x200020 24 in
  runs (krealloc 0x200020 100) boot_heap1 (fun q h' =>
    (q = 0 /\ h' = boot_heap1 /\ kmalloc 100 boot_heap1 = Some (0, boot_heap1)) \/
    (q <> 0 /\ exists l', Z.of_nat (length l') = 100 /\
       take (length l) l' = take (Z.to_nat 100) l /\
       heap_objs h' (<[q := l']> (delete 0x200020 (<[0x200020 := l]> ∅))))).
Proof.
  intros l. apply (krealloc_keeps_contents boot_heap1 (<[0x200020 := l]> ∅) 0x200020 l 100).
  - pose proof (heap_step_objs _ _ (step_kmalloc boot_heap ∅ 24 0x200020 boot_heap1
      ltac:(lia) boot_kmalloc ltac:(lia))) as Hstep.
    apply Hstep. eexists. split; [apply boot_heap_rep|done|]. by intros b ->%list_elem_of_singleton.
  - apply lookup_insert_eq.
  - lia.
Defined.

(** [heap_stats] reports exactly the bytes in use, the free bytes and the
    largest free block, and changes nothing; together with the headers the
    two totals always add up to the 4 MiB of the window. *)
Theorem heap_stats_exact h bs :
  heap_rep h bs ->
  heap_stats h = Some ((bytes_where (fun b => negb (b_free b)) bs, bytes_where b_free bs, largest_free bs), h) /\
  bytes_where (fun b => negb (b_free b)) bs + bytes_where b_free bs +
    sizeof_heap_block * Z.of_nat (length bs) = KERNEL_HEAP_INITIAL_SIZE.
Proof.
  intros [Hh Ht Hc]. pose proof (tiled_total _ _ _ Ht) as (Htot & ? & ? & ?). split; [|exact Htot].
  assert (Hbs : nextp bs 0 = KERNEL_HEAP_START) by (destruct bs; [done|by destruct Ht]).
  unfold heap_stats, mbind, prog_bind, gets. rewrite Hh, <- Hbs.
  rewrite (heap_stats_loop_ok _ h KERNEL_HEAP_START bs 0 0 0); try done;
    [f_equal; f_equal; f_equal; lia|by eapply heap_fuel_enough].
Qed.

Lemma heap_stats_exact_witness :
  heap_stats boot_heap1 = Some ((32, 0x3fffa0, 0x3fffa0), boot_heap1) /\ 32 + 0x3fffa0 + 32 * 2 = 0x400000.
Proof. apply (heap_stats_exact boot_heap1 boot_blocks1), boot_heap1_rep. Defined.

(** A request within 15 bytes of 2^64 wraps around to zero when it is
    rounded up: instead of failing, [kmalloc] hands out the first free block,
    cut down to at most 48 bytes. *)
Theorem kmalloc_huge_request_wraps h bs size b :
  heap_rep h bs -> 2 ^ 64 - 15 <= size < 2 ^ 64 -> b ∈ bs -> b_free b = true ->
  runs (kmalloc size) h (fun p h' =>
    p <> 0 /\ exists bs' c, heap_rep h' bs' /\ c ∈ bs' /\ b_free c = false /\ b_payload c = p /\ b_size c <= 48).
Proof.
  intros [Hh Ht Hc] Hs Hb Hbf. unfold kmalloc. run.
  assert (Hbs : nextp bs 0 = KERNEL_HEAP_START) by (destruct bs; [done|by destruct Ht]).
  rewrite (proj2 (Z.eqb_neq size 0)), Hh by lia. cbn [orb]. change (KERNEL_HEAP_START =? 0) with false.
  assert (Hz : align_up size HEAP_ALIGN = 0).
  { unfold align_up, HEAP_ALIGN. replace (u64 (size + 16 - 1)) with (size + 15 - 2 ^ 64) by (unfold wrap; dlia).
    rewrite (wrap_small 64 (16 - 1)) by lia. rewrite (land_bnot_low 64 4) by lia. dlia. }
  rewrite Hz.
  eapply runs_mono; [rewrite <- Hbs; apply (kmalloc_loop_ok _ _ h KERNEL_HEAP_START bs);
    [by eapply heap_fuel_enough|done|done|done|lia|done]|].
  intros p h'. destruct (alloc_blocks 0 bs) as [[q bs']|] eqn:Ha.
  2: { destruct (tiled_bounds _ _ _ _ Ht Hb) as (_ & _ & ? & _).
       apply alloc_blocks_none with (b := b) in Ha; [|done]. unfold fits in Ha. rewrite Hbf in Ha.
       cbn [andb] in Ha. zbool. lia. }
  intros (-> & Hh' & _ & _ & Ht' & Hc' & _).
  apply alloc_blocks_some in Ha as (pre & d & post & -> & -> & Hf & _ & ->).
  destruct (split_block_head _ _ Hf ltac:(lia)) as (c & rest & Hsp & Hca & Hcf & Hcs & _).
  assert (Hrep' : heap_rep h' (pre ++ split_block 0 d ++ post)) by (split; [by rewrite Hh'|done|done]).
  assert (Hin : c ∈ pre ++ split_block 0 d ++ post) by (rewrite Hsp; set_solver).
  pose proof (rep_member _ _ _ Hrep' Hin) as (? & _).
  split; [unfold b_payload, sizeof_heap_block; lia|]. eexists _, c. split_and!; try done.
  - unfold b_payload. by rewrite Hca.
  - unfold split_block, sizeof_heap_block, HEAP_ALIGN in Hsp.
    destruct (Z.ltb_spec (32 + 16) (b_size d - 0)); simplify_eq; cbn [b_size]; lia.
Qed.

Lemma kmalloc_huge_request_wraps_witness :
  runs (kmalloc (2 ^ 64 - 1)) boot_heap (fun p h' =>
    p <> 0 /\ exists bs' c, heap_rep h' bs' /\ c ∈ bs' /\ b_free c = false /\ b_payload c = p /\ b_size c <= 48).
Proof.
  apply (kmalloc_huge_request_wraps boot_heap [mk_block 0x200000 0x3fffe0 true] _ (mk_block 0x200000 0x3fffe0 true));
    [apply boot_heap_rep|lia|apply elem_of_cons; by left|done].
Defined.

End Heap.
