(* ===== verification/Vmm.v ===== *)
(** The virtual memory manager (src/memory/vmm.c): map, unmap, query and split
    on the four-level x86_64 page tables, over any frame allocator that keeps
    the contract of Interfaces.v.  Table memory is reached through the
    identity mapping that vmm.h requires, so a table pointer is a physical
    address. *)
From S2P Require Import Prelude Interfaces Mem Pmm.

Module Vmm.
Import Pmm(PAGE_SIZE).

Definition LARGE_PAGE_SIZE : Z := 0x200000.

Definition PT_PRESENT : Z := bit 64 0.
Definition PT_WRITABLE : Z := bit 64 1.
Definition PT_USER : Z := bit 64 2.
Definition PT_HUGE : Z := bit 64 7.
Definition PT_PHYS_MASK : Z := 0x000FFFFFFFFFF000.

Definition VMM_READ : Z := bit 64 0.
Definition VMM_WRITE : Z := bit 64 1.
Definition VMM_EXEC : Z := bit 64 2.
Definition VMM_USER : Z := bit 64 3.

Definition PML4_INDEX (va : Z) : Z := Z.land (Z.shiftr va 39) 0x1FF.
Definition PDPT_INDEX (va : Z) : Z := Z.land (Z.shiftr va 30) 0x1FF.
Definition PD_INDEX (va : Z) : Z := Z.land (Z.shiftr va 21) 0x1FF.
Definition PT_INDEX (va : Z) : Z := Z.land (Z.shiftr va 12) 0x1FF.
Definition PT_ENTRIES : Z := 512.

(** The tests the code makes on an entry. *)
Definition pt_present (e : Z) : bool := negb (Z.land e PT_PRESENT =? 0).
Definition pt_huge (e : Z) : bool := negb (Z.land e PT_HUGE =? 0).
Definition pt_phys (e : Z) : Z := Z.land e PT_PHYS_MASK.

(** [vmm_cr3]; the register CR3; physical memory; the frame allocator; the
    addresses given to [invlpg], latest first. *)
Record vmm (S : Type) := mk_vmm {
  vmm_cr3 : Z; hw_cr3 : Z; vmm_mem : gmap Z Z; vmm_frames : S; vmm_flushed : list Z }.
Arguments mk_vmm {S}.
Arguments vmm_cr3 {S}.
Arguments hw_cr3 {S}.
Arguments vmm_mem {S}.
Arguments vmm_frames {S}.
Arguments vmm_flushed {S}.

Section code.
Context {S : Type} `{FA : FrameAllocator S}.
Implicit Types (v : vmm S).

Definition on_mem (f : gmap Z Z -> gmap Z Z) v : vmm S :=
  mk_vmm (vmm_cr3 v) (hw_cr3 v) (f (vmm_mem v)) (vmm_frames v) (vmm_flushed v).

(** [table[i]] read and written, [table] a [uint64_t *]. *)
Definition get_entry (table i : Z) : prog (vmm S) Z := gets (fun v => load 8 (table + 8 * i) (vmm_mem v)).
Definition put_entry (table i e : Z) : prog (vmm S) unit := modify (on_mem (store 8 (table + 8 * i) e)).

Definition read_cr3 : prog (vmm S) Z := gets hw_cr3.
Definition set_vmm_cr3 (x : Z) : prog (vmm S) unit :=
  modify (fun v => mk_vmm x (hw_cr3 v) (vmm_mem v) (vmm_frames v) (vmm_flushed v)).

Definition invlpg (va : Z) : prog (vmm S) unit :=
  modify (fun v => mk_vmm (vmm_cr3 v) (hw_cr3 v) (vmm_mem v) (vmm_frames v) (va :: vmm_flushed v)).

Definition alloc_page : prog (vmm S) Z := fun v =>
  '(a, fr) ← fa_alloc (vmm_frames v);
  Some (a, mk_vmm (vmm_cr3 v) (hw_cr3 v) (vmm_mem v) fr (vmm_flushed v)).

Definition vmm_init : prog (vmm S) unit := x ← read_cr3; set_vmm_cr3 x.

(** [if (vmm_cr3 == 0ULL) vmm_cr3 = read_cr3();] and the root table. *)
Definition load_cr3 : prog (vmm S) Z :=
  c ← gets vmm_cr3;
  _ ← (if c =? 0 then vmm_init else mret tt);
  c ← gets vmm_cr3;
  mret (Z.land c PT_PHYS_MASK).

Definition pte_flags_from (flags : Z) : Z :=
  let out := PT_PRESENT in
  let out := if negb (Z.land flags VMM_WRITE =? 0) then Z.lor out PT_WRITABLE else out in
  if negb (Z.land flags VMM_USER =? 0) then Z.lor out PT_USER else out.

Definition inter_flags_from (flags : Z) : Z :=
  let inter := Z.lor PT_PRESENT PT_WRITABLE in
  if negb (Z.land flags VMM_USER =? 0) then Z.lor inter PT_USER else inter.

Definition get_or_create_table (parent idx intermediate_flags : Z) (create : bool) : prog (vmm S) Z :=
  entry ← get_entry parent idx;
  if negb (Z.land entry PT_PRESENT =? 0) then mret (Z.land entry PT_PHYS_MASK)
  else if negb create then mret 0
  else
    page ← alloc_page;
    if page =? 0 then mret 0
    else
      _ ← for_ (Z.to_nat PT_ENTRIES) 0 (fun i => put_entry page i 0);
      _ ← put_entry parent idx (Z.lor (Z.land page PT_PHYS_MASK) intermediate_flags);
      mret page.

Definition vmm_split_large_page (va : Z) : prog (vmm S) unit :=
  pml4 ← load_cr3;
  pml4e ← get_entry pml4 (PML4_INDEX va);
  if Z.land pml4e PT_PRESENT =? 0 then mret tt else
  let pdpt := Z.land pml4e PT_PHYS_MASK in
  pdpte ← get_entry pdpt (PDPT_INDEX va);
  if Z.land pdpte PT_PRESENT =? 0 then mret tt else
  let pd := Z.land pdpte PT_PHYS_MASK in
  pde ← get_entry pd (PD_INDEX va);
  if (Z.land pde PT_PRESENT =? 0) || (Z.land pde PT_HUGE =? 0) then mret tt else
  new_pt ← alloc_page;
  if new_pt =? 0 then mret tt else
  let base_phys := Z.land pde PT_PHYS_MASK in
  let base_flags := Z.land (Z.land pde 0xFFF) (bnot 64 PT_HUGE) in
  _ ← for_ (Z.to_nat PT_ENTRIES) 0 (fun i =>
        put_entry new_pt i (Z.lor (u64 (base_phys + i * PAGE_SIZE)) base_flags));
  let new_pd := Z.lor (Z.lor (Z.lor (Z.land new_pt PT_PHYS_MASK) PT_PRESENT) PT_WRITABLE) (Z.land pde PT_USER) in
  _ ← put_entry pd (PD_INDEX va) new_pd;
  let base_va := Z.land va (bnot 64 (LARGE_PAGE_SIZE - 1)) in
  for_ (Z.to_nat PT_ENTRIES) 0 (fun i => invlpg (u64 (base_va + i * PAGE_SIZE))).

Definition vmm_map_page (va pa flags : Z) : prog (vmm S) bool :=
  pml4 ← load_cr3;
  if negb (Z.land va (PAGE_SIZE - 1) =? 0) then mret false else
  if negb (Z.land pa (PAGE_SIZE - 1) =? 0) then mret false else
  let inter := inter_flags_from flags in
  pdpt ← get_or_create_table pml4 (PML4_INDEX va) inter true;
  if pdpt =? 0 then mret false else
  pd ← get_or_create_table pdpt (PDPT_INDEX va) inter true;
  if pd =? 0 then mret false else
  pde ← get_entry pd (PD_INDEX va);
  _ ← (if negb (Z.land pde PT_PRESENT =? 0) && negb (Z.land pde PT_HUGE =? 0)
       then vmm_split_large_page va else mret tt);
  pt ← get_or_create_table pd (PD_INDEX va) inter true;
  if pt =? 0 then mret false else
  _ ← put_entry pt (PT_INDEX va) (Z.lor (Z.land pa PT_PHYS_MASK) (pte_flags_from flags));
  _ ← invlpg va;
  mret true.

Definition vmm_unmap_page (va : Z) : prog (vmm S) bool :=
  pml4 ← load_cr3;
  pml4e ← get_entry pml4 (PML4_INDEX va);
  if Z.land pml4e PT_PRESENT =? 0 then mret false else
  let pdpt := Z.land pml4e PT_PHYS_MASK in
  pdpte ← get_entry pdpt (PDPT_INDEX va);
  if Z.land pdpte PT_PRESENT =? 0 then mret false else
  let pd := Z.land pdpte PT_PHYS_MASK in
  pde ← get_entry pd (PD_INDEX va);
  if Z.land pde PT_PRESENT =? 0 then mret false else
  if negb (Z.land pde PT_HUGE =? 0) then
    _ ← put_entry pd (PD_INDEX va) 0;
    _ ← invlpg va;
    mret true
  else
  let pt := Z.land pde PT_PHYS_MASK in
  pte ← get_entry pt (PT_INDEX va);
  if Z.land pte PT_PRESENT =? 0 then mret false else
  _ ← put_entry pt (PT_INDEX va) 0;
  _ ← invlpg va;
  mret true.

Definition vmm_query (va : Z) : prog (vmm S) Z :=
  pml4 ← load_cr3;
  pml4e ← get_entry pml4 (PML4_INDEX va);
  if Z.land pml4e PT_PRESENT =? 0 then mret 0 else
  let pdpt := Z.land pml4e PT_PHYS_MASK in
  pdpte ← get_entry pdpt (PDPT_INDEX va);
  if Z.land pdpte PT_PRESENT =? 0 then mret 0 else
  if negb (Z.land pdpte PT_HUGE =? 0) then
    mret (Z.lor (Z.land pdpte PT_PHYS_MASK) (Z.land va (2 ^ 30 - 1)))
  else
  let pd := Z.land pdpte PT_PHYS_MASK in
  pde ← get_entry pd (PD_INDEX va);
  if Z.land pde PT_PRESENT =? 0 then mret 0 else
  if negb (Z.land pde PT_HUGE =? 0) then
    mret (Z.lor (Z.land pde PT_PHYS_MASK) (Z.land va (LARGE_PAGE_SIZE - 1)))
  else
  let pt := Z.land pde PT_PHYS_MASK in
  pte ← get_entry pt (PT_INDEX va);
  if Z.land pte PT_PRESENT =? 0 then mret 0 else
  mret (Z.lor (Z.land pte PT_PHYS_MASK) (Z.land va (PAGE_SIZE - 1))).

End code.

(** * Translation *)

Definition entry (m : gmap Z Z) (t i : Z) : Z := load 8 (t + 8 * i) m.

Definition indices (va : Z) : list Z := [PML4_INDEX va; PDPT_INDEX va; PD_INDEX va; PT_INDEX va].

(** The hardware walk from table [t] along the indices [idx]: the leaf entry
    and how many levels above the last it was found (0: 4 KiB page, 1: 2 MiB
    page, 2: 1 GiB page). *)
Fixpoint lookup_leaf (m : gmap Z Z) (t : Z) (idx : list Z) : option (Z * nat) :=
  match idx with
  | [] => None
  | i :: rest =>
      let e := entry m t i in
      if pt_present e then
        match rest with
        | [] => Some (e, O)
        | _ => if pt_huge e && (length rest <=? 2)%nat then Some (e, length rest)
               else lookup_leaf m (pt_phys e) rest
        end
      else None
  end.

(** The physical address a virtual address stands for. *)
Definition leaf_address (va : Z) (leaf : Z * nat) : Z :=
  Z.lor (pt_phys leaf.1) (va mod 2 ^ (12 + 9 * Z.of_nat leaf.2)).

Definition translate (m : gmap Z Z) (root va : Z) : option Z :=
  leaf_address va <$> lookup_leaf m root (indices va).

(** The table reached from [t] along [π], all entries being table entries. *)
Fixpoint walk (m : gmap Z Z) (t : Z) (π : list Z) : option Z :=
  match π with
  | [] => Some t
  | i :: π => if pt_present (entry m t i) && negb (pt_huge (entry m t i))
              then walk m (pt_phys (entry m t i)) π else None
  end.

(** * Well-formed tables *)

(** What an entry of the table at path [π] may be: absent, a leaf of the last
    level, a large page (aligned, never in the root), or a pointer to the
    table registered for this entry. *)
Definition entry_ok (owner : gmap Z (list Z)) (π : list Z) (i e : Z) : Prop :=
  pt_present e = true -> (length π < 3)%nat ->
  if pt_huge e then length π <> O /\ (length π = 2%nat -> pt_phys e mod LARGE_PAGE_SIZE = 0)
  else owner !! pt_phys e = Some (π ++ [i]).

(** [owner] registers every table under the path of indices that leads to it:
    so no table is shared by two entries. *)
Record tables_wf (m : gmap Z Z) (root : Z) (owner : gmap Z (list Z)) : Prop := {
  tw_root : owner !! root = Some [];
  tw_table t π : owner !! t = Some π ->
    0 < t < 2 ^ 52 /\ t mod PAGE_SIZE = 0 /\ (length π <= 3)%nat;
  tw_entry t π i : owner !! t = Some π -> 0 <= i < PT_ENTRIES -> entry_ok owner π i (entry m t i) }.

Definition index_ok (i : Z) : Prop := 0 <= i < PT_ENTRIES.

Lemma land_511_range x : 0 <= Z.land x 0x1FF < 512.
Proof. rewrite (land_low 9) by lia. apply Z.mod_pos_bound. lia. Qed.

Lemma indices_ok va : Forall index_ok (indices va).
Proof. unfold indices, index_ok, PT_ENTRIES. repeat constructor; apply land_511_range. Qed.

Lemma entry_disjoint t i t' i' :
  t mod PAGE_SIZE = 0 -> t' mod PAGE_SIZE = 0 -> index_ok i -> index_ok i' -> t <> t' \/ i <> i' ->
  t + 8 * i + 8 <= t' + 8 * i' \/ t' + 8 * i' + 8 <= t + 8 * i.
Proof. unfold index_ok, PAGE_SIZE, PT_ENTRIES. intros. dlia. Qed.

(** The entries that a walk from the table at [π] along [rest] can read are
    the same in both memories. *)
Definition agree (m m' : gmap Z Z) (owner : gmap Z (list Z)) (π rest : list Z) : Prop :=
  forall t π1 i rest', owner !! t = Some (π ++ π1) -> rest = π1 ++ i :: rest' -> entry m' t i = entry m t i.

Lemma agree_tail m m' owner π i rest : agree m m' owner π (i :: rest) -> agree m m' owner (π ++ [i]) rest.
Proof.
  intros H t π1 j rest' Ht ->. rewrite <- app_assoc in Ht. exact (H t (i :: π1) j rest' Ht eq_refl).
Qed.

Section tables.
Context (m : gmap Z Z) (root : Z) (owner : gmap Z (list Z)) (Hwf : tables_wf m root owner).

(** A present entry that is not a large page leads to its registered table. *)
Lemma step_owner t π i :
  owner !! t = Some π -> (length π < 3)%nat -> index_ok i ->
  pt_present (entry m t i) = true -> pt_huge (entry m t i) = false ->
  owner !! pt_phys (entry m t i) = Some (π ++ [i]).
Proof. intros Ht Hl Hi Hp Hh. pose proof (tw_entry _ _ _ Hwf t π i Ht Hi Hp Hl) as H. by rewrite Hh in H. Qed.

Lemma lookup_leaf_frame m' rest : forall t π,
  owner !! t = Some π -> (length π + length rest = 4)%nat -> Forall index_ok rest ->
  agree m m' owner π rest -> lookup_leaf m' t rest = lookup_leaf m t rest.
Proof.
  induction rest as [|i rest IH]; intros t π Ht Hl Hr Hag; [done|]. cbn [lookup_leaf length] in *.
  apply Forall_cons in Hr as [Hi Hr].
  rewrite (Hag t [] i rest) by (rewrite ?app_nil_r; done).
  destruct (pt_present (entry m t i)) eqn:Hp; [|done]. destruct rest as [|j rest]; [done|].
  destruct (pt_huge (entry m t i)) eqn:Hh; cbn [andb].
  - destruct (_ <=? 2)%nat eqn:Hle; [done|]. apply Nat.leb_gt in Hle. cbn [length] in *.
    pose proof (tw_entry _ _ _ Hwf t π i Ht Hi Hp ltac:(lia)) as Hok. rewrite Hh in Hok. lia.
  - apply IH with (π := π ++ [i]); [|rewrite length_app; cbn [length] in *; lia|done|by apply agree_tail].
    apply step_owner; try done. cbn [length] in Hl. lia.
Qed.

Lemma walk_frame m' π1 : forall t π t',
  owner !! t = Some π -> (length π + length π1 <= 3)%nat -> Forall index_ok π1 ->
  agree m m' owner π π1 -> walk m t π1 = Some t' -> walk m' t π1 = Some t'.
Proof.
  induction π1 as [|i π1 IH]; intros t π t' Ht Hl Hr Hag; [done|]. cbn [walk length] in *.
  apply Forall_cons in Hr as [Hi Hr].
  rewrite (Hag t [] i π1) by (rewrite ?app_nil_r; done).
  destruct (pt_present (entry m t i)) eqn:Hp; [|done]. destruct (pt_huge (entry m t i)) eqn:Hh; [done|].
  cbn [andb negb]. apply IH with (π := π ++ [i]); [|rewrite length_app; cbn; lia|done|by apply agree_tail].
  apply step_owner; try done. lia.
Qed.

Lemma walk_owner π1 : forall t π t',
  owner !! t = Some π -> (length π + length π1 <= 3)%nat -> Forall index_ok π1 ->
  walk m t π1 = Some t' -> owner !! t' = Some (π ++ π1).
Proof.
  induction π1 as [|i π1 IH]; intros t π t' Ht Hl Hr; cbn [walk length] in *.
  { intros; simplify_eq. by rewrite app_nil_r. }
  apply Forall_cons in Hr as [Hi Hr].
  destruct (pt_present (entry m t i)) eqn:Hp; [|done]. destruct (pt_huge (entry m t i)) eqn:Hh; [done|].
  cbn [andb negb]. intros Hw. change (i :: π1) with ([i] ++ π1). rewrite app_assoc.
  eapply IH; [|rewrite length_app; cbn; lia|done|exact Hw]. apply step_owner; try done. lia.
Qed.
End tables.

Lemma walk_leaf m π : forall t t' rest,
  walk m t π = Some t' -> rest <> [] -> lookup_leaf m t (π ++ rest) = lookup_leaf m t' rest.
Proof.
  induction π as [|i π IH]; intros t t' rest; cbn [walk app]; [by intros; simplify_eq|].
  cbn [lookup_leaf]. destruct (pt_present (entry m t i)); [|done].
  destruct (pt_huge (entry m t i)); [done|]. cbn [andb negb]. intros Hw Hr.
  rewrite <- (IH _ _ _ Hw Hr). by destruct (π ++ rest) eqn:E; [destruct π; cbn in E; simplify_eq|].
Qed.

Lemma walk_snoc m t π t' i :
  walk m t π = Some t' -> pt_present (entry m t' i) = true -> pt_huge (entry m t' i) = false ->
  walk m t (π ++ [i]) = Some (pt_phys (entry m t' i)).
Proof.
  intros Hw Hp Hh. revert t Hw. induction π as [|j π IH]; intros t; cbn [walk app].
  { intros; simplify_eq. by rewrite Hp, Hh. }
  destruct (pt_present (entry m t j) && negb (pt_huge (entry m t j))); [apply IH|done].
Qed.

Lemma entry_ok_mono owner owner' π i e : owner ⊆ owner' -> entry_ok owner π i e -> entry_ok owner' π i e.
Proof.
  intros Hs H Hp Hl. specialize (H Hp Hl). destruct (pt_huge e); [done|]. by eapply lookup_weaken.
Qed.

(** * Entries *)

Lemma pt_present_bit e : pt_present e = Z.testbit e 0.
Proof. apply land_bit_testbit. lia. Qed.

Lemma pt_huge_bit e : pt_huge e = Z.testbit e 7.
Proof. apply land_bit_testbit. lia. Qed.

Lemma not_present e : (Z.land e PT_PRESENT =? 0) = negb (pt_present e).
Proof. unfold pt_present. by rewrite negb_involutive. Qed.

Lemma not_huge e : (Z.land e PT_HUGE =? 0) = negb (pt_huge e).
Proof. unfold pt_huge. by rewrite negb_involutive. Qed.

Lemma pt_phys_eq e : pt_phys e = (e / 2 ^ 12) mod 2 ^ 40 * 2 ^ 12.
Proof.
  unfold pt_phys. change PT_PHYS_MASK with (Z.shiftl (Z.ones 40) 12).
  rewrite <- Z.shiftr_div_pow2, <- Z.land_ones, <- Z.shiftl_mul_pow2 by lia.
  apply Z.bits_inj'. intros j Hj. rewrite Z.land_spec, !Z.shiftl_spec by lia.
  destruct (Z.lt_ge_cases j 12); [by rewrite !(Z.testbit_neg_r _ (j - 12)), andb_false_r by lia|].
  rewrite Z.land_spec, Z.shiftr_spec by lia. do 2 f_equal. lia.
Qed.

Lemma pt_phys_range e : 0 <= pt_phys e < 2 ^ 52 /\ pt_phys e mod PAGE_SIZE = 0.
Proof. rewrite pt_phys_eq. unfold PAGE_SIZE. dlia. Qed.

Lemma pt_phys_frame p f :
  0 <= p < 2 ^ 52 -> p mod PAGE_SIZE = 0 -> 0 <= f < 2 ^ 12 -> pt_phys (Z.lor p f) = p.
Proof.
  intros Hp Ha Hf. unfold PAGE_SIZE in Ha. rewrite (lor_low_add 12) by done. rewrite pt_phys_eq. dlia.
Qed.

Lemma pt_phys_id p : 0 <= p < 2 ^ 52 -> p mod PAGE_SIZE = 0 -> pt_phys p = p.
Proof. intros. rewrite <- (pt_phys_frame p 0) at 2 by (done || lia). by rewrite Z.lor_0_r. Qed.

(** An entry made of an aligned frame and flag bits. *)
Lemma entry_bits p f j : p mod PAGE_SIZE = 0 -> 0 <= j < 12 -> Z.testbit (Z.lor p f) j = Z.testbit f j.
Proof. intros. rewrite Z.lor_spec, (testbit_aligned 12 p) by (done || lia). done. Qed.

Lemma entry_range p f : 0 <= p < 2 ^ 52 -> 0 <= f < 2 ^ 12 -> 0 <= Z.lor p f < 2 ^ (8 * 8).
Proof. intros. pose proof (lor_range 52 p f). lia. Qed.

(** * Updates *)

Lemma entry_outside m m' lo hi t i :
  changed_in m m' lo hi -> t + 8 * i + 8 <= lo \/ hi <= t + 8 * i -> entry m' t i = entry m t i.
Proof. intros Hc Hd. apply load_same. eapply changed_in_same; [exact Hc|lia]. Qed.

Lemma entry_put m t i e t' i' :
  t mod PAGE_SIZE = 0 -> t' mod PAGE_SIZE = 0 -> index_ok i -> index_ok i' -> 0 <= e < 2 ^ (8 * 8) ->
  entry (store 8 (t + 8 * i) e m) t' i' = if (t' =? t) && (i' =? i) then e else entry m t' i'.
Proof.
  intros Ht Ht' Hi Hi' He. unfold entry.
  destruct (Z.eqb_spec t' t) as [->|Hne]; cbn [andb].
  - destruct (Z.eqb_spec i' i) as [->|Hne]; [by rewrite load_store_same by lia|].
    apply load_store_other; [lia|]. destruct (entry_disjoint t i t i'); auto; lia.
  - apply load_store_other; [lia|]. destruct (entry_disjoint t i t' i'); auto; lia.
Qed.

Section update.
Context (m : gmap Z Z) (root : Z) (owner : gmap Z (list Z)) (Hwf : tables_wf m root owner).

(** Overwriting the entry [i] of the table at [π]. *)
Lemma tables_put t π i e :
  owner !! t = Some π -> index_ok i -> 0 <= e < 2 ^ (8 * 8) -> entry_ok owner π i e ->
  tables_wf (store 8 (t + 8 * i) e m) root owner.
Proof.
  intros Ht Hi He Hok. destruct Hwf as [Hr Htab Hent]. split; [done|done|].
  intros t' π' i' Ht' Hi'. destruct (Htab _ _ Ht) as (_ & ? & _), (Htab _ _ Ht') as (_ & ? & _).
  rewrite entry_put by done.
  destruct (Z.eqb_spec t' t) as [->|]; [destruct (Z.eqb_spec i' i) as [->|]|]; cbn [andb];
    [|by apply Hent|by apply Hent]. by simplify_eq.
Qed.

Lemma put_agree t π i e idx :
  owner !! t = Some π -> index_ok i -> 0 <= e < 2 ^ (8 * 8) -> Forall index_ok idx ->
  ~ (π ++ [i]) `prefix_of` idx -> agree m (store 8 (t + 8 * i) e m) owner [] idx.
Proof.
  intros Ht Hi He Hidx Hnp t' π1 j rest Ht' ->. cbn [app] in Ht'.
  apply Forall_app in Hidx as [_ [Hj _]%Forall_cons].
  destruct (tw_table _ _ _ Hwf _ _ Ht) as (_ & ? & _), (tw_table _ _ _ Hwf _ _ Ht') as (_ & ? & _).
  rewrite entry_put by done.
  destruct (Z.eqb_spec t' t) as [->|]; [destruct (Z.eqb_spec j i) as [->|]|]; cbn [andb]; [|done|done].
  destruct Hnp. simplify_eq. exists rest. by rewrite <- app_assoc.
Qed.

(** Only addresses under that entry are affected. *)
Lemma put_leaf_other t π i e idx :
  owner !! t = Some π -> index_ok i -> 0 <= e < 2 ^ (8 * 8) -> Forall index_ok idx -> length idx = 4%nat ->
  ~ (π ++ [i]) `prefix_of` idx ->
  lookup_leaf (store 8 (t + 8 * i) e m) root idx = lookup_leaf m root idx.
Proof.
  intros. eapply (lookup_leaf_frame m root owner Hwf _ _ _ []); [apply Hwf|done|done|].
  by eapply put_agree.
Qed.

Lemma put_walk t π i e π1 t1 :
  owner !! t = Some π -> index_ok i -> 0 <= e < 2 ^ (8 * 8) -> Forall index_ok π1 -> (length π1 <= 3)%nat ->
  ~ (π ++ [i]) `prefix_of` π1 -> walk m root π1 = Some t1 ->
  walk (store 8 (t + 8 * i) e m) root π1 = Some t1.
Proof.
  intros. eapply (walk_frame m root owner Hwf _ _ _ []); [apply Hwf|cbn; lia|done| |done].
  by eapply put_agree.
Qed.

(** Filling a page that is not yet a table, and registering it. *)
Lemma tables_new m' t1 π1 :
  owner !! t1 = None -> 0 < t1 < 2 ^ 52 -> t1 mod PAGE_SIZE = 0 -> (length π1 <= 3)%nat ->
  changed_in m m' t1 (t1 + PAGE_SIZE) ->
  (forall i, index_ok i -> entry_ok owner π1 i (entry m' t1 i)) ->
  tables_wf m' root (<[t1 := π1]> owner) /\
  (forall t π i, owner !! t = Some π -> index_ok i -> entry m' t i = entry m t i).
Proof.
  intros Hn Ht1 Ha Hl Hch Hnew. destruct Hwf as [Hr Htab Hent].
  assert (Hsame : forall t π i, owner !! t = Some π -> index_ok i -> entry m' t i = entry m t i).
  { intros t π i Ht Hi. destruct (Htab _ _ Ht) as (? & ? & _).
    assert (t <> t1) by congruence. eapply entry_outside; [exact Hch|].
    unfold PAGE_SIZE, index_ok, PT_ENTRIES in *. dlia. }
  split; [|exact Hsame]. split.
  - apply lookup_insert_Some. right. split; [congruence|done].
  - intros t π [[<- <-]|[_ Ht]]%lookup_insert_Some; [done|by apply Htab].
  - intros t π i [[<- <-]|[_ Ht]]%lookup_insert_Some Hi;
      (eapply entry_ok_mono; [by apply insert_subseteq|]); [by apply Hnew|].
    erewrite Hsame by done. by apply Hent.
Qed.

(** Memory that keeps every entry of the tables keeps every translation. *)
Lemma entries_same_leaf m' idx :
  (forall t π i, owner !! t = Some π -> index_ok i -> entry m' t i = entry m t i) ->
  Forall index_ok idx -> length idx = 4%nat -> lookup_leaf m' root idx = lookup_leaf m root idx.
Proof.
  intros Hs Hi Hl. eapply (lookup_leaf_frame m root owner Hwf _ _ _ []); [apply Hwf|done|done|].
  intros t π1 i rest Ht ->. apply Forall_app in Hi as [_ [Hi _]%Forall_cons]. by eapply Hs.
Qed.

Lemma entries_same_walk m' π t :
  (forall t π i, owner !! t = Some π -> index_ok i -> entry m' t i = entry m t i) ->
  Forall index_ok π -> (length π <= 3)%nat -> walk m root π = Some t -> walk m' root π = Some t.
Proof.
  intros Hs Hi Hl. eapply (walk_frame m root owner Hwf _ _ _ []); [apply Hwf|cbn; lia|done|].
  intros t' π1 i rest Ht ->. apply Forall_app in Hi as [_ [Hi _]%Forall_cons]. by eapply Hs.
Qed.
End update.

(** * The operations *)

Section ops.
Context {S : Type} `{FA : FrameAllocator S} `{!FrameAllocatorLaws S}.
Implicit Types (v : vmm S).

(** The state once [vmm_cr3] is loaded, and the root table. *)
Definition with_cr3 v : vmm S :=
  mk_vmm (if vmm_cr3 v =? 0 then hw_cr3 v else vmm_cr3 v) (hw_cr3 v) (vmm_mem v) (vmm_frames v) (vmm_flushed v).

Definition vmm_root v : Z := pt_phys (if vmm_cr3 v =? 0 then hw_cr3 v else vmm_cr3 v).

Lemma load_cr3_ok v : load_cr3 v = Some (vmm_root v, with_cr3 v).
Proof.
  unfold load_cr3, vmm_root, with_cr3, mbind, prog_bind, gets, mret, prog_ret.
  by destruct v as [c hw m fr fl]; cbn [vmm_cr3]; destruct (c =? 0).
Qed.

Lemma runs_load_cr3 v (Q : Z -> vmm S -> Prop) : Q (vmm_root v) (with_cr3 v) -> runs load_cr3 v Q.
Proof. intros H. exists (vmm_root v), (with_cr3 v). split; [apply load_cr3_ok|done]. Qed.

Lemma vmm_root_with_cr3 v : vmm_root (with_cr3 v) = vmm_root v.
Proof.
  unfold vmm_root, with_cr3. cbn [vmm_cr3 hw_cr3].
  destruct (vmm_cr3 v =? 0) eqn:E; [by destruct (hw_cr3 v =? 0)|by rewrite E].
Qed.

(** The tables are well formed, and none of their pages is free. *)
Record vmm_wf v (owner : gmap Z (list Z)) : Prop := {
  vw_frames : fa_inv (vmm_frames v);
  vw_tables : tables_wf (vmm_mem v) (vmm_root v) owner;
  vw_taken t π : owner !! t = Some π -> fa_free (vmm_frames v) t = false }.

Lemma vmm_wf_with_cr3 v owner : vmm_wf v owner -> vmm_wf (with_cr3 v) owner.
Proof. intros [H1 H2 H3]. split; [done|by rewrite vmm_root_with_cr3|done]. Qed.

(** Same registers, cached CR3 and root. *)
Definition same_regs v v' : Prop := vmm_cr3 v' = vmm_cr3 v /\ hw_cr3 v' = hw_cr3 v.

Lemma same_regs_root v v' : same_regs v v' -> vmm_root v' = vmm_root v.
Proof. intros [H1 H2]. unfold vmm_root. by rewrite H1, H2. Qed.

Lemma same_regs_trans v1 v2 v3 : same_regs v1 v2 -> same_regs v2 v3 -> same_regs v1 v3.
Proof. unfold same_regs. intuition congruence. Qed.

(** [for (i = 0; i < 512; i++) table[i] = f(i);] *)
Lemma fill_table t f v :
  (forall i, index_ok i -> 0 <= f i < 2 ^ (8 * 8)) ->
  runs (for_ (Z.to_nat PT_ENTRIES) 0 (fun i => put_entry t i (f i))) v (fun _ v' =>
    same_regs v v' /\ vmm_frames v' = vmm_frames v /\ vmm_flushed v' = vmm_flushed v /\
    changed_in (vmm_mem v) (vmm_mem v') t (t + PAGE_SIZE) /\
    (forall i, index_ok i -> entry (vmm_mem v') t i = f i)).
Proof.
  intros Hf. eapply runs_mono; [eapply (runs_for (fun n v' =>
    same_regs v v' /\ vmm_frames v' = vmm_frames v /\ vmm_flushed v' = vmm_flushed v /\
    changed_in (vmm_mem v) (vmm_mem v') t (t + PAGE_SIZE) /\
    (forall i, 0 <= i < n -> entry (vmm_mem v') t i = f i)))|].
  - split_and!; try done. lia.
  - intros j v1 Hj (Hr & Hfr & Hfl & Hch & Hent). unfold put_entry. run. cbn [on_mem vmm_mem vmm_frames vmm_flushed].
    change (Z.of_nat (Z.to_nat PT_ENTRIES)) with 512 in Hj.
    assert (Hij : index_ok j) by (unfold index_ok, PT_ENTRIES; lia).
    split_and!; try done.
    + unfold PAGE_SIZE in *. apply changed_in_store; [lia|lia|lia|done].
    + intros i Hi. unfold entry. destruct (Z.eq_dec i j) as [->|].
      * apply load_store_same; [lia|by apply Hf].
      * rewrite load_store_other by lia. apply Hent. lia.
  - intros [] v' (H1 & H2 & H3 & H4 & H5). split_and!; try done.
Qed.

Lemma alloc_page_ok v : fa_inv (vmm_frames v) ->
  runs alloc_page v (fun a v' =>
    same_regs v v' /\ vmm_mem v' = vmm_mem v /\ vmm_flushed v' = vmm_flushed v /\ fa_inv (vmm_frames v') /\
    ((a = 0 /\ v' = v /\ forall b, fa_free (vmm_frames v) b = false) \/
     (a <> 0 /\ fa_free (vmm_frames v) a = true /\ 0 < a < 2 ^ 52 /\ a mod PAGE_SIZE = 0 /\
      forall b, fa_free (vmm_frames v') b = if b =? a then false else fa_free (vmm_frames v) b))).
Proof.
  intros Hi. destruct (fa_alloc_ok _ Hi) as (a & fr & Hr & Hi' & Hc).
  exists a, (mk_vmm (vmm_cr3 v) (hw_cr3 v) (vmm_mem v) fr (vmm_flushed v)).
  split; [unfold alloc_page; by rewrite Hr|]. cbn [vmm_mem vmm_flushed vmm_frames]. split_and!; try done.
  destruct Hc as [(-> & -> & Hn)|(Hne & Hfree & Hb)].
  { left. split_and!; [done| |done]. destruct v. reflexivity. }
  right. destruct (fa_pool_aligned _ _ Hi Hfree) as [? ?]. split_and!; (done || lia).
Qed.

Definition table_flags (fl : Z) : Prop := 0 <= fl < 2 ^ 12 /\ Z.testbit fl 0 = true /\ Z.testbit fl 7 = false.

(** Installing a fresh table [t1], filled with [f], in a slot [i] of the table
    at [π]. *)
Lemma install_table v v1 owner π t i t1 fl :
  vmm_wf v owner -> walk (vmm_mem v) (vmm_root v) π = Some t -> (length π < 3)%nat -> Forall index_ok π ->
  index_ok i -> table_flags fl ->
  same_regs v v1 -> fa_inv (vmm_frames v1) ->
  fa_free (vmm_frames v) t1 = true -> 0 < t1 < 2 ^ 52 -> t1 mod PAGE_SIZE = 0 ->
  (forall b, fa_free (vmm_frames v1) b = if b =? t1 then false else fa_free (vmm_frames v) b) ->
  changed_in (vmm_mem v) (vmm_mem v1) t1 (t1 + PAGE_SIZE) ->
  (forall j, index_ok j -> entry_ok owner (π ++ [i]) j (entry (vmm_mem v1) t1 j)) ->
  let v2 := on_mem (store 8 (t + 8 * i) (Z.lor t1 fl)) v1 in
  vmm_wf v2 (<[t1 := π ++ [i]]> owner) /\ owner !! t1 = None /\
  walk (vmm_mem v2) (vmm_root v) π = Some t /\
  walk (vmm_mem v2) (vmm_root v) (π ++ [i]) = Some t1 /\
  (forall j, index_ok j -> entry (vmm_mem v2) t1 j = entry (vmm_mem v1) t1 j) /\
  (forall idx, Forall index_ok idx -> length idx = 4%nat -> ~ (π ++ [i]) `prefix_of` idx ->
     lookup_leaf (vmm_mem v2) (vmm_root v) idx = lookup_leaf (vmm_mem v) (vmm_root v) idx).
Proof.
  intros [Hinv Htw Htk] Hw Hl Hpi Hi (Hfr & Hf0 & Hf7) Hregs Hinv1 Hfree Ht1 Ha1 Hpool Hch Hent v2.
  assert (Hn1 : owner !! t1 = None).
  { destruct (owner !! t1) eqn:E; [|done]. apply Htk in E. congruence. }
  assert (Ht : owner !! t = Some π) by (apply (walk_owner _ _ _ Htw π (vmm_root v) [] t); [apply Htw|cbn; lia|done|done]).
  assert (Hlen : (length (π ++ [i]) <= 3)%nat) by (rewrite length_app; cbn [length]; lia).
  destruct (tables_new _ _ _ Htw _ t1 (π ++ [i]) Hn1 Ht1 Ha1 Hlen Hch Hent) as [Htw1 Hsame].
  set (owner1 := <[t1 := π ++ [i]]> owner) in *.
  assert (Ht' : owner1 !! t = Some π) by (apply lookup_insert_Some; right; split; [congruence|done]).
  assert (Hphys : pt_phys (Z.lor t1 fl) = t1) by (apply pt_phys_frame; (done || lia)).
  assert (Hpres : pt_present (Z.lor t1 fl) = true) by (rewrite pt_present_bit, entry_bits; (done || lia)).
  assert (Hhuge : pt_huge (Z.lor t1 fl) = false) by (rewrite pt_huge_bit, entry_bits; (done || lia)).
  assert (Her : 0 <= Z.lor t1 fl < 2 ^ (8 * 8)) by (apply entry_range; lia).
  assert (Hok : entry_ok owner1 π i (Z.lor t1 fl)).
  { intros _ _. rewrite Hhuge, Hphys. apply lookup_insert_eq. }
  assert (Hnp : forall π', (length π' <= length π)%nat -> ~ (π ++ [i]) `prefix_of` π').
  { intros π' Hle Hp%prefix_length. rewrite length_app in Hp. cbn [length] in Hp. lia. }
  destruct (tw_table _ _ _ Htw _ _ Ht) as (_ & Hta & _).
  assert (Hw2 : walk (vmm_mem v2) (vmm_root v) π = Some t).
  { apply (put_walk _ _ _ Htw1 t π); try done; [lia|by apply Hnp|].
    by apply (entries_same_walk _ _ _ Htw); try done; lia. }
  split_and!.
  - split; [done| |].
    + rewrite (same_regs_root v v2) by done. by apply (tables_put _ _ _ Htw1 t π).
    + intros t' π' [[<- _]|[_ Ht0]]%lookup_insert_Some; cbn [v2 on_mem vmm_frames]; rewrite Hpool;
        [by rewrite Z.eqb_refl|]. destruct (t' =? t1); [done|by eapply Htk].
  - done.
  - done.
  - assert (He : entry (vmm_mem v2) t i = Z.lor t1 fl)
      by (cbn [v2 on_mem vmm_mem]; rewrite entry_put by done; by rewrite !Z.eqb_refl).
    rewrite <- Hphys, <- He. apply walk_snoc; [done|by rewrite He|by rewrite He].
  - intros j Hj. cbn [v2 on_mem vmm_mem]. rewrite entry_put by done.
    destruct (Z.eqb_spec t1 t); [congruence|done].
  - intros idx Hidx Hl4 Hnpi.
    cbn [v2 on_mem vmm_mem]. rewrite (put_leaf_other _ _ _ Htw1 t π) by done.
    by apply (entries_same_leaf _ _ _ Htw).
Qed.
(** Every address is translated as before. *)
Definition same_leaves v v' : Prop := forall idx, Forall index_ok idx -> length idx = 4%nat ->
  lookup_leaf (vmm_mem v') (vmm_root v) idx = lookup_leaf (vmm_mem v) (vmm_root v) idx.

Lemma get_or_create_ok v owner π t i fl :
  vmm_wf v owner -> walk (vmm_mem v) (vmm_root v) π = Some t -> (length π < 3)%nat -> Forall index_ok π ->
  index_ok i -> table_flags fl ->
  (pt_present (entry (vmm_mem v) t i) = true -> pt_huge (entry (vmm_mem v) t i) = false) ->
  runs (get_or_create_table t i fl true) v (fun r v' =>
    (r = 0 /\ v' = v /\ forall a, fa_free (vmm_frames v) a = false) \/
    (r <> 0 /\ same_regs v v' /\ vmm_flushed v' = vmm_flushed v /\ same_leaves v v' /\
     (pt_present (entry (vmm_mem v) t i) = true -> v' = v) /\
     walk (vmm_mem v') (vmm_root v) (π ++ [i]) = Some r /\ exists owner', vmm_wf v' owner')).
Proof.
  intros Hwf Hw Hl Hpi Hi Hfl Hnh. pose proof (vw_tables _ _ Hwf) as Htw.
  assert (Ht : owner !! t = Some π) by (apply (walk_owner _ _ _ Htw π (vmm_root v) [] t); [apply Htw|cbn; lia|done|done]).
  unfold get_or_create_table, get_entry. run. fold (entry (vmm_mem v) t i). rewrite not_present, negb_involutive.
  destruct (pt_present (entry (vmm_mem v) t i)) eqn:Hp.
  { run. right. fold (pt_phys (entry (vmm_mem v) t i)).
    pose proof (step_owner _ _ _ Htw t π i Ht Hl Hi Hp (Hnh eq_refl)) as Ho.
    destruct (tw_table _ _ _ Htw _ _ Ho) as (? & _). split_and!; try done; [lia| |by eexists].
    apply walk_snoc; auto. }
  cbn [negb]. run. eapply runs_mono; [apply alloc_page_ok, Hwf|].
  intros a v1 (Hr1 & Hm1 & Hf1 & Hi1 & [(-> & -> & Hn)|(Hne & Hfree & Ha & Hal & Hpool)]).
  { rewrite Z.eqb_refl. run. by left. }
  rewrite (proj2 (Z.eqb_neq _ _)) by done. run.
  eapply runs_mono; [apply (fill_table a (fun _ => 0)); lia|].
  intros [] v2 (Hr2 & Hfr2 & Hf2 & Hch & Hz). unfold put_entry. run. fold (pt_phys a). rewrite pt_phys_id by (done || lia).
  rewrite Hm1 in Hch.
  assert (Hnp0 : forall j, index_ok j -> pt_present (entry (vmm_mem v2) a j) = false) by (intros j Hj; by rewrite Hz).
  assert (Hregs : same_regs v v2) by (by eapply same_regs_trans).
  destruct (install_table v v2 owner π t i a fl) as (Hwf3 & Hna & _ & Hw3 & He3 & Hoth); try done.
  { by rewrite Hfr2. } { intros b. by rewrite Hfr2. }
  { intros j Hj Hpj. by rewrite Hnp0 in Hpj. }
  right. split_and!; try done; [cbn [on_mem vmm_flushed]; congruence| |by eexists].
  intros idx Hidx Hl4. destruct (decide ((π ++ [i]) `prefix_of` idx)) as [[rest ->]|Hnp]; [|by apply Hoth].
  destruct rest as [|j rest]; [rewrite app_nil_r, length_app in Hl4; cbn in Hl4; lia|].
  rewrite (walk_leaf _ _ _ _ (j :: rest) Hw3) by done.
  rewrite <- app_assoc, (walk_leaf _ _ _ _ _ Hw) by done. cbn [app lookup_leaf]. rewrite Hp.
  apply Forall_app in Hidx as [_ [Hj _]%Forall_cons]. by rewrite He3, Hnp0.
Qed.

Lemma walk_split m t π i r :
  walk m t (π ++ [i]) = Some r -> exists t', walk m t π = Some t' /\
    pt_present (entry m t' i) = true /\ pt_huge (entry m t' i) = false /\ r = pt_phys (entry m t' i).
Proof.
  revert t. induction π as [|j π IH]; intros t; cbn [walk app].
  - destruct (pt_present (entry m t i)) eqn:Hp, (pt_huge (entry m t i)) eqn:Hh; cbn [andb negb]; try done.
    intros; simplify_eq. by exists t.
  - destruct (_ && _); [apply IH|done].
Qed.

(** How the walk to the page directory goes when there is no 1 GiB page. *)
Lemma leaf_present m t i rest leaf : lookup_leaf m t (i :: rest) = Some leaf -> pt_present (entry m t i) = true.
Proof. cbn [lookup_leaf]. by destruct (pt_present (entry m t i)). Qed.

(** [vmm_query] computes the translation and changes nothing but the cached CR3. *)
Lemma vmm_query_ok v va :
  vmm_query va v = Some (default 0 (translate (vmm_mem v) (vmm_root v) va), with_cr3 v).
Proof.
  set (m := vmm_mem v).
  enough (runs (vmm_query va) v (fun a v' => a = default 0 (translate m (vmm_root v) va) /\ v' = with_cr3 v))
    as (a & v' & -> & -> & ->) by done.
  unfold vmm_query, get_entry. run. apply runs_load_cr3. run. change (vmm_mem (with_cr3 v)) with m.
  unfold translate, indices, leaf_address. cbn [lookup_leaf length Nat.leb].
  fold (entry m (vmm_root v) (PML4_INDEX va)). set (e0 := entry m (vmm_root v) (PML4_INDEX va)).
  rewrite (not_present e0). fold (pt_phys e0). destruct (pt_present e0); cbn [negb]; run; [|done].
  rewrite andb_false_r.
  run. change (vmm_mem (with_cr3 v)) with m.
  fold (entry m (pt_phys e0) (PDPT_INDEX va)). set (e1 := entry m (pt_phys e0) (PDPT_INDEX va)).
  rewrite (not_present e1), (not_huge e1), negb_involutive. fold (pt_phys e1).
  destruct (pt_present e1); cbn [negb]; run; [|done]. rewrite andb_true_r.
  destruct (pt_huge e1).
  { run. split; [|done]. cbn. f_equal. by apply (land_low 30). }
  run. change (vmm_mem (with_cr3 v)) with m.
  fold (entry m (pt_phys e1) (PD_INDEX va)). set (e2 := entry m (pt_phys e1) (PD_INDEX va)).
  rewrite (not_present e2), (not_huge e2), negb_involutive. fold (pt_phys e2).
  destruct (pt_present e2); cbn [negb]; run; [|done]. rewrite andb_true_r.
  destruct (pt_huge e2).
  { run. split; [|done]. cbn. f_equal. by apply (land_low 21). }
  run. change (vmm_mem (with_cr3 v)) with m.
  fold (entry m (pt_phys e2) (PT_INDEX va)). set (e3 := entry m (pt_phys e2) (PT_INDEX va)).
  rewrite (not_present e3). fold (pt_phys e3). destruct (pt_present e3); cbn [negb]; run; [|done].
  run. split; [|done]. cbn. f_equal. by apply (land_low 12).
Qed.

(** No 1 GiB page covers [va] (the boot code maps 2 MiB pages only). *)
Definition no_1g v (va : Z) : Prop := forall e, lookup_leaf (vmm_mem v) (vmm_root v) (indices va) <> Some (e, 2%nat).

Section descent.
Context v owner (Hwf : vmm_wf v owner) (va : Z).
Let m := vmm_mem v.
Let e0 := entry m (vmm_root v) (PML4_INDEX va).
Let e1 := entry m (pt_phys e0) (PDPT_INDEX va).
Let pd := pt_phys e1.
Let e2 := entry m pd (PD_INDEX va).

Lemma index_ok_all : index_ok (PML4_INDEX va) /\ index_ok (PDPT_INDEX va) /\ index_ok (PD_INDEX va) /\ index_ok (PT_INDEX va).
Proof. split_and!; apply land_511_range. Qed.

Lemma pml4_not_huge : pt_present e0 = true -> pt_huge e0 = false.
Proof.
  intros Hp. pose proof (tw_entry _ _ _ (vw_tables _ _ Hwf) _ _ (PML4_INDEX va) (tw_root _ _ _ (vw_tables _ _ Hwf)) (proj1 index_ok_all) Hp ltac:(cbn; lia)) as H.
  fold m e0 in H. destruct (pt_huge e0); [|done]. cbn in H. lia.
Qed.

Lemma pml4_walk : pt_present e0 = true -> walk m (vmm_root v) [PML4_INDEX va] = Some (pt_phys e0).
Proof. intros Hp. apply (walk_snoc m _ []); [done|done|by apply pml4_not_huge]. Qed.

Lemma pdpt_leaf : pt_present e0 = true -> forall idx, idx <> [] ->
  lookup_leaf m (vmm_root v) (PML4_INDEX va :: idx) = lookup_leaf m (pt_phys e0) idx.
Proof. intros Hp idx Hi. by apply (walk_leaf m [PML4_INDEX va] _ _ idx (pml4_walk Hp)). Qed.

Lemma pdpt_not_huge : no_1g v va -> pt_present e0 = true -> pt_present e1 = true -> pt_huge e1 = false.
Proof.
  intros Hno Hp0 Hp1. destruct (pt_huge e1) eqn:Hh; [|done]. exfalso. apply (Hno e1).
  unfold indices. fold m. rewrite (pdpt_leaf Hp0) by done. cbn [lookup_leaf]. fold e1. by rewrite Hp1, Hh.
Qed.

Lemma pd_walk : no_1g v va -> pt_present e0 = true -> pt_present e1 = true ->
  walk m (vmm_root v) [PML4_INDEX va; PDPT_INDEX va] = Some pd.
Proof.
  intros Hno Hp0 Hp1. apply (walk_snoc m _ [PML4_INDEX va]); [by apply pml4_walk|done|by apply pdpt_not_huge].
Qed.

Lemma pd_leaf : no_1g v va -> pt_present e0 = true -> pt_present e1 = true ->
  lookup_leaf m (vmm_root v) (indices va) = lookup_leaf m pd [PD_INDEX va; PT_INDEX va].
Proof.
  intros Hno Hp0 Hp1.
  by apply (walk_leaf m [PML4_INDEX va; PDPT_INDEX va] _ _ [PD_INDEX va; PT_INDEX va] (pd_walk Hno Hp0 Hp1)).
Qed.

Lemma pt_walk : no_1g v va -> pt_present e0 = true -> pt_present e1 = true -> pt_present e2 = true -> pt_huge e2 = false ->
  walk m (vmm_root v) [PML4_INDEX va; PDPT_INDEX va; PD_INDEX va] = Some (pt_phys e2).
Proof.
  intros Hno Hp0 Hp1 Hp2 Hh2. apply (walk_snoc m _ [PML4_INDEX va; PDPT_INDEX va]); [by apply pd_walk|done|done].
Qed.
End descent.

Lemma indices_split va π i : (π ++ [i]) `prefix_of` indices va <->
  take (Datatypes.S (length π)) (indices va) = π ++ [i].
Proof.
  split.
  - intros [rest ->]. rewrite take_app_le by (rewrite length_app; cbn; lia).
    apply take_ge. rewrite length_app. cbn. lia.
  - intros <-. apply prefix_take.
Qed.

(** Clearing the entry that maps [va]. *)
Lemma clear_entry v owner π t i :
  vmm_wf v owner -> walk (vmm_mem v) (vmm_root v) π = Some t -> (length π <= 3)%nat -> Forall index_ok π -> index_ok i ->
  let v' := on_mem (store 8 (t + 8 * i) 0) v in
  vmm_wf v' owner /\
  forall va, translate (vmm_mem v') (vmm_root v) va =
    if decide (take (Datatypes.S (length π)) (indices va) = π ++ [i]) then None
    else translate (vmm_mem v) (vmm_root v) va.
Proof.
  intros Hwf Hw Hl Hpi Hi v'. pose proof (vw_tables _ _ Hwf) as Htw.
  assert (Ht : owner !! t = Some π) by (apply (walk_owner _ _ _ Htw π (vmm_root v) [] t); [apply Htw|cbn; lia|done|done]).
  destruct (tw_table _ _ _ Htw _ _ Ht) as (_ & Hta & _). split.
  - split; [apply Hwf| |apply Hwf]. by apply (tables_put _ _ _ Htw t π).
  - intros va. unfold translate. destruct (decide _) as [Hd|Hd].
    + assert (Hw' : walk (vmm_mem v') (vmm_root v) π = Some t).
      { apply (put_walk _ _ _ Htw t π); try done. intros Hp%prefix_length. rewrite length_app in Hp. cbn in Hp. lia. }
      apply indices_split in Hd as [rest ->]. rewrite <- app_assoc, (walk_leaf _ _ _ _ _ Hw') by done.
      cbn [app lookup_leaf]. unfold v'. cbn [on_mem vmm_mem]. rewrite entry_put by done.
      by rewrite !Z.eqb_refl.
    + f_equal. apply (put_leaf_other _ _ _ Htw t π); try done; [apply indices_ok|].
      by rewrite indices_split.
Qed.

Lemma vmm_unmap_page_ok v owner va :
  vmm_wf v owner -> no_1g v va ->
  runs (vmm_unmap_page va) v (fun ok v' =>
    vmm_wf v' owner /\ vmm_root v' = vmm_root v /\
    match lookup_leaf (vmm_mem v) (vmm_root v) (indices va) with
    | None => ok = false /\ v' = with_cr3 v
    | Some (_, n) => ok = true /\ vmm_flushed v' = va :: vmm_flushed v /\
        forall va', translate (vmm_mem v') (vmm_root v) va' =
          if decide (take (4 - n) (indices va') = take (4 - n) (indices va)) then None
          else translate (vmm_mem v) (vmm_root v) va'
    end).
Proof.
  intros Hwf Hno. pose proof (vmm_wf_with_cr3 _ _ Hwf) as Hwf0. pose proof (vmm_root_with_cr3 v) as Hr0.
  destruct (index_ok_all va) as (Hi0 & Hi1 & Hi2 & Hi3).
  unfold vmm_unmap_page, get_entry. run. apply runs_load_cr3. run. change (vmm_mem (with_cr3 v)) with (vmm_mem v).
  set (m := vmm_mem v).
  fold (entry m (vmm_root v) (PML4_INDEX va)). set (e0 := entry m (vmm_root v) (PML4_INDEX va)).
  rewrite (not_present e0). fold (pt_phys e0). destruct (pt_present e0) eqn:Hp0; cbn [negb]; run.
  2: { cbn [lookup_leaf indices]. fold e0. by rewrite Hp0. }
  change (vmm_mem (with_cr3 v)) with m.
  fold (entry m (pt_phys e0) (PDPT_INDEX va)). set (e1 := entry m (pt_phys e0) (PDPT_INDEX va)).
  rewrite (not_present e1). fold (pt_phys e1). destruct (pt_present e1) eqn:Hp1; cbn [negb]; run.
  2: { pose proof (pdpt_leaf v owner Hwf va Hp0) as Hpl. fold m e0 in Hpl. unfold indices.
       rewrite Hpl by done. cbn [lookup_leaf]. fold e1. by rewrite Hp1. }
  pose proof (pd_leaf v owner Hwf va Hno Hp0 Hp1) as Hpl. fold m e0 e1 in Hpl. rewrite Hpl. cbn [lookup_leaf].
  change (vmm_mem (with_cr3 v)) with m.
  fold (entry m (pt_phys e1) (PD_INDEX va)). set (e2 := entry m (pt_phys e1) (PD_INDEX va)).
  rewrite (not_present e2), (not_huge e2), negb_involutive. fold (pt_phys e2).
  destruct (pt_present e2) eqn:Hp2; cbn [negb]; run; [|done].
  cbn [length Nat.leb]. rewrite andb_true_r. destruct (pt_huge e2) eqn:Hh2; cbn [negb]; run.
  - unfold put_entry, invlpg. run. rewrite <- Hr0.
    destruct (clear_entry (with_cr3 v) owner [PML4_INDEX va; PDPT_INDEX va] (pt_phys e1) (PD_INDEX va) Hwf0)
      as [Hwf' Htr]; try done; [rewrite Hr0; by apply (pd_walk v owner)|cbn; lia|apply (Forall_take _ 2 (indices va)), indices_ok|].
    split_and!; [by destruct Hwf'|done|done|done|]. exact Htr.
  - change (vmm_mem (with_cr3 v)) with m.
    fold (entry m (pt_phys e2) (PT_INDEX va)). set (e3 := entry m (pt_phys e2) (PT_INDEX va)).
    rewrite (not_present e3). destruct (pt_present e3) eqn:Hp3; cbn [negb]; run; [|done].
    unfold put_entry, invlpg. run. rewrite <- Hr0.
    destruct (clear_entry (with_cr3 v) owner [PML4_INDEX va; PDPT_INDEX va; PD_INDEX va] (pt_phys e2) (PT_INDEX va) Hwf0)
      as [Hwf' Htr]; try done; [rewrite Hr0; by apply (pt_walk v owner)|apply (Forall_take _ 3 (indices va)), indices_ok|].
    split_and!; [by destruct Hwf'|done|done|done|]. exact Htr.
Qed.

(** An entry that is present is followed as it is. *)
Lemma runs_get_present v t i fl (Q : Z -> vmm S -> Prop) :
  pt_present (entry (vmm_mem v) t i) = true -> Q (pt_phys (entry (vmm_mem v) t i)) v ->
  runs (get_or_create_table t i fl true) v Q.
Proof.
  intros Hp HQ. unfold get_or_create_table, get_entry. run. fold (entry (vmm_mem v) t i).
  rewrite not_present, Hp. cbn [negb]. by run.
Qed.

Lemma walk_nonzero v owner π t :
  vmm_wf v owner -> walk (vmm_mem v) (vmm_root v) π = Some t -> (length π <= 3)%nat -> Forall index_ok π -> t <> 0.
Proof.
  intros [_ Htw _] Hw Hl Hi. assert (Ho : owner !! t = Some π)
    by (apply (walk_owner _ _ _ Htw π (vmm_root v) [] t); [apply Htw|done|done|done]).
  destruct (tw_table _ _ _ Htw _ _ Ho). lia.
Qed.

(** * Splitting a large page *)

Lemma split_flags_ok pde :
  let fl := Z.land (Z.land pde 0xFFF) (bnot 64 PT_HUGE) in
  0 <= fl < 2 ^ 12 /\ Z.testbit fl 0 = Z.testbit pde 0.
Proof.
  cbv zeta. split.
  - apply land_range; [lia|]. rewrite (land_low 12) by lia. apply Z.mod_pos_bound. lia.
  - rewrite !Z.land_spec. change (Z.testbit 0xFFF 0) with true.
    change (Z.testbit (bnot 64 PT_HUGE) 0) with true. by rewrite !andb_true_r.
Qed.

Lemma split_pd_flags pde : table_flags (Z.lor (Z.lor PT_PRESENT PT_WRITABLE) (Z.land pde PT_USER)).
Proof.
  change (Z.lor PT_PRESENT PT_WRITABLE) with 3. change PT_USER with 4.
  split; [|split].
  - apply lor_range; [lia|lia|]. rewrite Z.land_comm. apply land_range; lia.
  - by rewrite Z.lor_spec.
  - rewrite Z.lor_spec, Z.land_spec. change (Z.testbit 4 7) with false. by rewrite andb_false_r.
Qed.

(** The 4 KiB entry [i] of a split page at [base]. *)
Lemma split_entry base fl i :
  0 <= base < 2 ^ 52 -> base mod LARGE_PAGE_SIZE = 0 -> index_ok i -> 0 <= fl < 2 ^ 12 ->
  let e := Z.lor (u64 (base + i * PAGE_SIZE)) fl in
  0 <= e < 2 ^ (8 * 8) /\ pt_phys e = base + i * PAGE_SIZE /\ Z.testbit e 0 = Z.testbit fl 0.
Proof.
  unfold LARGE_PAGE_SIZE, index_ok, PT_ENTRIES, PAGE_SIZE. intros Hb Ha Hi Hf.
  assert (Hr : 0 <= base + i * 4096 < 2 ^ 52) by dlia.
  assert (Hal : (base + i * 4096) mod PAGE_SIZE = 0) by (unfold PAGE_SIZE; dlia).
  rewrite wrap_small by lia.
  split; [by apply entry_range|]. split; [by apply pt_phys_frame|by apply entry_bits].
Qed.

(** Both page sizes give the same physical address. *)
Lemma split_address base va :
  0 <= base < 2 ^ 52 -> base mod LARGE_PAGE_SIZE = 0 ->
  Z.lor (base + PT_INDEX va * PAGE_SIZE) (va mod 2 ^ 12) = Z.lor base (va mod 2 ^ 21).
Proof.
  intros Hb Ha. unfold LARGE_PAGE_SIZE in Ha. unfold PT_INDEX.
  rewrite (land_low 9), shiftr_div by lia. unfold PAGE_SIZE.
  rewrite (lor_low_add 12), (lor_low_add 21) by dlia. dlia.
Qed.

Lemma runs_invlpg_range base v :
  runs (for_ (Z.to_nat PT_ENTRIES) 0 (fun i => invlpg (u64 (base + i * PAGE_SIZE)))) v (fun _ v' =>
    same_regs v v' /\ vmm_mem v' = vmm_mem v /\ vmm_frames v' = vmm_frames v /\
    (forall i, index_ok i -> u64 (base + i * PAGE_SIZE) ∈ vmm_flushed v')).
Proof.
  eapply runs_mono; [eapply (runs_for (fun n v' =>
    same_regs v v' /\ vmm_mem v' = vmm_mem v /\ vmm_frames v' = vmm_frames v /\
    (forall i, 0 <= i < n -> u64 (base + i * PAGE_SIZE) ∈ vmm_flushed v')))|].
  - split_and!; try done. lia.
  - intros j v1 Hj (Hr & Hm & Hfr & Hfl). unfold invlpg. run. cbn [vmm_mem vmm_frames vmm_flushed].
    split_and!; try done. intros i Hi. apply elem_of_cons. destruct (Z.eq_dec i j) as [->|]; [by left|right].
    apply Hfl. lia.
  - intros [] v' (H1 & H2 & H3 & H4). by split_and!.
Qed.

Definition pages_same v v' : Prop := forall va,
  translate (vmm_mem v') (vmm_root v) va = translate (vmm_mem v) (vmm_root v) va.

Lemma same_leaves_pages v v' : same_leaves v v' -> pages_same v v'.
Proof. intros H va. unfold translate. by rewrite H by (apply indices_ok || done). Qed.

(** A page directory entry replaced by a table that splits it translates
    every address as before. *)
Lemma split_translate m m' root pd a i0 i1 i2 :
  let e2 := entry m pd i2 in
  walk m root [i0; i1] = Some pd -> pt_present e2 = true -> pt_huge e2 = true ->
  pt_phys e2 mod LARGE_PAGE_SIZE = 0 -> walk m' root [i0; i1; i2] = Some a ->
  (forall j, index_ok j -> entry m' a j =
     Z.lor (u64 (pt_phys e2 + j * PAGE_SIZE)) (Z.land (Z.land e2 0xFFF) (bnot 64 PT_HUGE))) ->
  (forall idx, Forall index_ok idx -> length idx = 4%nat -> ~ [i0; i1; i2] `prefix_of` idx ->
     lookup_leaf m' root idx = lookup_leaf m root idx) ->
  forall va, translate m' root va = translate m root va.
Proof.
  intros e2 Hw Hp2 Hh2 Hba Hw3 Hent Hoth va. unfold translate.
  pose proof (split_flags_ok e2) as [Hfl0 Hfl1]. pose proof (pt_phys_range e2) as [Hbr _].
  destruct (decide ([i0; i1; i2] `prefix_of` indices va)) as [[rest Hrest]|Hnp].
  2: { f_equal. apply (Hoth (indices va)); [apply indices_ok|done|done]. }
  unfold indices in Hrest. cbn [app] in Hrest. injection Hrest as E0 E1 E2 _.
  unfold indices. rewrite E0, E1, E2.
  pose proof (walk_leaf _ _ _ _ [PT_INDEX va] Hw3 ltac:(done)) as Hwl3. cbn [app] in Hwl3. rewrite Hwl3.
  pose proof (walk_leaf _ _ _ _ [i2; PT_INDEX va] Hw ltac:(done)) as Hwl. cbn [app] in Hwl. rewrite Hwl.
  cbn [lookup_leaf length Nat.leb]. fold e2. rewrite Hp2, Hh2. cbn [andb].
  rewrite Hent by apply land_511_range.
  destruct (split_entry (pt_phys e2) _ (PT_INDEX va) Hbr Hba (land_511_range _) Hfl0) as (_ & Hph & Hb0).
  rewrite pt_present_bit, Hb0, Hfl1, <- pt_present_bit, Hp2. cbn [fmap option_fmap option_map]. f_equal.
  unfold leaf_address. cbn [fst snd]. rewrite Hph. by apply split_address.
Qed.

(** The work of the split, once the large entry is found. *)
Lemma vmm_split_ok v owner va pd :
  let i0 := PML4_INDEX va in let i1 := PDPT_INDEX va in let i2 := PD_INDEX va in
  vmm_wf v owner -> walk (vmm_mem v) (vmm_root v) [i0; i1] = Some pd ->
  pt_present (entry (vmm_mem v) pd i2) = true -> pt_huge (entry (vmm_mem v) pd i2) = true ->
  runs (vmm_split_large_page va) v (fun _ v' =>
    ((forall a, fa_free (vmm_frames v) a = false) /\ v' = with_cr3 v) \/
    ((exists a, fa_free (vmm_frames v) a = true) /\ same_regs (with_cr3 v) v' /\ pages_same v v' /\
     walk (vmm_mem v') (vmm_root v) [i0; i1] = Some pd /\
     (exists t, walk (vmm_mem v') (vmm_root v) [i0; i1; i2] = Some t) /\
     (exists owner', vmm_wf v' owner') /\
     (forall i, index_ok i -> u64 (Z.land va (bnot 64 (LARGE_PAGE_SIZE - 1)) + i * PAGE_SIZE) ∈ vmm_flushed v'))).
Proof.
  intros i0 i1 i2 Hwf Hw Hp2 Hh2. pose proof (vmm_wf_with_cr3 _ _ Hwf) as Hwf0. pose proof (vmm_root_with_cr3 v) as Hr0.
  destruct (index_ok_all va) as (Hi0 & Hi1 & Hi2 & Hi3).
  pose proof Hw as Hw'. cbn [walk] in Hw'.
  set (m := vmm_mem v) in *. set (e0 := entry m (vmm_root v) i0) in *.
  destruct (pt_present e0) eqn:Hp0; [|done]. destruct (pt_huge e0); [done|]. cbn [andb negb] in Hw'.
  set (e1 := entry m (pt_phys e0) i1) in *.
  destruct (pt_present e1) eqn:Hp1; [|done]. destruct (pt_huge e1); [done|]. cbn [andb negb] in Hw'.
  injection Hw' as Hpd. set (e2 := entry m pd i2) in *.
  unfold vmm_split_large_page, get_entry. run. apply runs_load_cr3. run. change (vmm_mem (with_cr3 v)) with m.
  fold i0 i1 i2. fold (entry m (vmm_root v) i0). fold e0. rewrite (not_present e0), Hp0. cbn [negb]. run.
  change (vmm_mem (with_cr3 v)) with m. fold (pt_phys e0). fold (entry m (pt_phys e0) i1). fold e1.
  rewrite (not_present e1), Hp1. cbn [negb]. run. change (vmm_mem (with_cr3 v)) with m.
  fold (pt_phys e1). rewrite Hpd. fold (entry m pd i2). fold e2. rewrite (not_present e2), (not_huge e2), Hp2, Hh2.
  cbn [negb orb]. run. eapply runs_mono; [apply alloc_page_ok, Hwf0|].
  intros a v1 (Hr1 & Hm1 & Hf1 & Hinv1 & [(-> & -> & Hn)|(Hne & Hfree & Ha & Hal & Hpool)]).
  { rewrite Z.eqb_refl. run. by left. }
  rewrite (proj2 (Z.eqb_neq _ _)) by done. run.
  fold (pt_phys a) (pt_phys e2). rewrite (pt_phys_id a) by (done || lia).
  set (fl := Z.land (Z.land e2 0xFFF) (bnot 64 PT_HUGE)).
  pose proof (split_flags_ok e2) as [Hfl0 Hfl1]. fold fl in Hfl0, Hfl1.
  pose proof (pt_phys_range e2) as [Hbr _].
  pose proof (vw_tables _ _ Hwf) as Htw.
  assert (Hopd : owner !! pd = Some [i0; i1])
    by (apply (walk_owner _ _ _ Htw [i0; i1] (vmm_root v) [] pd); [apply Htw|cbn; lia|apply (Forall_take _ 2 (indices va)), indices_ok|done]).
  assert (Hba : pt_phys e2 mod LARGE_PAGE_SIZE = 0).
  { pose proof (tw_entry _ _ _ Htw _ _ i2 Hopd Hi2 Hp2 ltac:(cbn; lia)) as H. fold m e2 in H. rewrite Hh2 in H. by apply H. }
  eapply runs_mono; [apply (fill_table a (fun i => Z.lor (u64 (pt_phys e2 + i * PAGE_SIZE)) fl));
    intros i Hi; by apply split_entry|].
  intros [] v2 (Hr2 & Hfr2 & Hf2 & Hch & Hent). unfold put_entry. run.
  rewrite <- !Z.lor_assoc, (Z.lor_assoc PT_PRESENT). rewrite Hm1 in Hch.
  destruct (install_table (with_cr3 v) v2 owner [i0; i1] pd i2 a
    (Z.lor (Z.lor PT_PRESENT PT_WRITABLE) (Z.land e2 PT_USER))) as (Hwf3 & _ & Hw3a & Hw3 & He3 & Hoth); try done.
  { by rewrite Hr0. } { cbn; lia. } { apply (Forall_take _ 2 (indices va)), indices_ok. }
  { apply split_pd_flags. } { by eapply same_regs_trans. } { by rewrite Hfr2. } { intros b. by rewrite Hfr2. }
  { intros j Hj _ Hl. cbn in Hl. lia. }
  eapply runs_mono; [apply runs_invlpg_range|]. intros [] v4 (Hr4 & Hm4 & Hfr4 & Hfl4). right.
  rewrite Hr0 in *. set (v3 := on_mem _ v2) in *.
  assert (Hregs : same_regs (with_cr3 v) v4) by (do 2 (eapply same_regs_trans; [|eassumption]); done).
  split_and!; try done; [by exists a| |by rewrite Hm4|exists a; by rewrite Hm4|].
  - unfold pages_same. rewrite Hm4. apply (split_translate m _ _ pd a i0 i1 i2); try done.
    intros j Hj. by rewrite He3, Hent.
  - exists (<[a := [i0; i1] ++ [i2]]> owner). destruct Hwf3 as [Hx1 Hx2 Hx3]. rewrite <- Hfr4 in Hx1, Hx3.
    split; [done| |done]. rewrite Hm4. rewrite (same_regs_root v3 v4) by done. done.
Qed.

(** * Mapping a page *)

Lemma pte_flags_ok flags : 0 <= pte_flags_from flags < 2 ^ 12 /\ Z.testbit (pte_flags_from flags) 0 = true.
Proof. unfold pte_flags_from. by destruct (negb _), (negb _). Qed.

Lemma inter_flags_ok flags : table_flags (inter_flags_from flags).
Proof. unfold inter_flags_from. by destruct (negb _). Qed.

(** Writing the last-level entry. *)
Lemma put_leaf v owner va pt e :
  vmm_wf v owner -> walk (vmm_mem v) (vmm_root v) [PML4_INDEX va; PDPT_INDEX va; PD_INDEX va] = Some pt ->
  0 <= e < 2 ^ (8 * 8) -> pt_present e = true ->
  let v' := on_mem (store 8 (pt + 8 * PT_INDEX va) e) v in
  vmm_wf v' owner /\ lookup_leaf (vmm_mem v') (vmm_root v) (indices va) = Some (e, O) /\
  (forall va', indices va' <> indices va ->
     translate (vmm_mem v') (vmm_root v) va' = translate (vmm_mem v) (vmm_root v) va').
Proof.
  intros Hwf Hw He Hp v'. pose proof (vw_tables _ _ Hwf) as Htw. set (π := [PML4_INDEX va; PDPT_INDEX va; PD_INDEX va]) in *.
  destruct (index_ok_all va) as (_ & _ & _ & Hi).
  assert (Hpi : Forall index_ok π) by (apply (Forall_take _ 3 (indices va)), indices_ok).
  assert (Ht : owner !! pt = Some π) by (apply (walk_owner _ _ _ Htw π (vmm_root v) [] pt); [apply Htw|done|done|done]).
  destruct (tw_table _ _ _ Htw _ _ Ht) as (_ & Hta & _). split_and!.
  - split; [apply Hwf| |apply Hwf]. apply (tables_put _ _ _ Htw pt π); try done. intros _ Hl. cbn in Hl. lia.
  - assert (Hw' : walk (vmm_mem v') (vmm_root v) π = Some pt).
    { apply (put_walk _ _ _ Htw pt π); try done. intros Hl%prefix_length. cbn in Hl. lia. }
    change (indices va) with (π ++ [PT_INDEX va]). rewrite (walk_leaf _ _ _ _ _ Hw') by done.
    cbn [lookup_leaf]. unfold v'. cbn [on_mem vmm_mem]. rewrite entry_put by done. rewrite !Z.eqb_refl. cbn [andb].
    by rewrite Hp.
  - intros va' Hne. unfold translate. f_equal. apply (put_leaf_other _ _ _ Htw pt π); try done; [apply indices_ok|].
    intros [rest Hr]. apply Hne. destruct rest; [by rewrite Hr, app_nil_r|].
    apply (f_equal length) in Hr. cbn in Hr. lia.
Qed.

Lemma same_leaves_no_1g v v' va : same_leaves v v' -> same_regs v v' -> no_1g v va -> no_1g v' va.
Proof.
  intros Hs Hr Hno e. rewrite (same_regs_root v v') by done. rewrite Hs by (apply indices_ok || done). apply Hno.
Qed.

Lemma pages_same_trans v1 v2 v3 : same_regs v1 v2 -> pages_same v1 v2 -> pages_same v2 v3 -> pages_same v1 v3.
Proof.
  intros Hr H1 H2 va. rewrite <- H1. specialize (H2 va). by rewrite (same_regs_root v1 v2) in H2.
Qed.

(** The outcome of mapping [va]: every page as before, or [va] mapped. *)
Definition map_post v (va pa flags : Z) (ok : bool) v' : Prop :=
  (exists owner', vmm_wf v' owner') /\ vmm_root v' = vmm_root v /\
  if ok then
    (forall va', translate (vmm_mem v') (vmm_root v) va' =
       if decide (indices va' = indices va) then Some (pa + va' mod PAGE_SIZE)
       else translate (vmm_mem v) (vmm_root v) va') /\
    lookup_leaf (vmm_mem v') (vmm_root v) (indices va) = Some (Z.lor pa (pte_flags_from flags), O) /\
    va ∈ vmm_flushed v'
  else pages_same v v' /\ forall a, fa_free (vmm_frames v') a = false.

(** The last part of [vmm_map_page], from the page directory [pd] on. *)
Lemma map_in_pd v owner va pa flags pd :
  vmm_wf v owner -> walk (vmm_mem v) (vmm_root v) [PML4_INDEX va; PDPT_INDEX va] = Some pd ->
  (pt_present (entry (vmm_mem v) pd (PD_INDEX va)) = true -> pt_huge (entry (vmm_mem v) pd (PD_INDEX va)) = false) ->
  0 <= pa < 2 ^ 52 -> pa mod PAGE_SIZE = 0 ->
  runs (pt ← get_or_create_table pd (PD_INDEX va) (inter_flags_from flags) true;
        if pt =? 0 then mret false else
        _ ← put_entry pt (PT_INDEX va) (Z.lor (Z.land pa PT_PHYS_MASK) (pte_flags_from flags));
        _ ← invlpg va;
        mret true) v (map_post v va pa flags).
Proof.
  intros Hwf Hw Hnh Hpa Hal. destruct (index_ok_all va) as (Hi0 & Hi1 & Hi2 & Hi3). run.
  eapply runs_mono; [apply (get_or_create_ok v owner [PML4_INDEX va; PDPT_INDEX va]); try done;
    [cbn; lia|apply (Forall_take _ 2 (indices va)), indices_ok|apply inter_flags_ok]|].
  intros pt v1 [(-> & -> & Hn)|(Hne & Hr1 & Hf1 & Hs1 & _ & Hw1 & owner1 & Hwf1)].
  { rewrite Z.eqb_refl. run. by split_and!; [exists owner| | |]. }
  rewrite (proj2 (Z.eqb_neq _ _)) by done. unfold put_entry, invlpg. run. fold (pt_phys pa). rewrite pt_phys_id by done.
  destruct (pte_flags_ok flags) as [Hfr Hf0]. set (e := Z.lor pa (pte_flags_from flags)).
  pose proof (same_regs_root _ _ Hr1) as Hroot.
  destruct (put_leaf v1 owner1 va pt e Hwf1) as (Hwf2 & Hleaf & Hoth).
  { by rewrite Hroot. } { by apply entry_range. } { unfold e. rewrite pt_present_bit, entry_bits; (done || lia). }
  rewrite Hroot in Hleaf, Hoth. split_and!.
  - exists owner1. destruct Hwf2. by split.
  - exact Hroot.
  - intros va'. destruct (decide _) as [Hd|Hd].
    + unfold translate. rewrite Hd. cbn [vmm_mem]. rewrite Hleaf. cbn [fmap option_fmap option_map]. f_equal.
      unfold leaf_address. cbn [fst snd]. unfold e. rewrite pt_phys_frame by done.
      apply (lor_low_add 12); [lia|done|]. apply Z.mod_pos_bound. lia.
    + cbn [vmm_mem]. rewrite Hoth by done. by apply same_leaves_pages.
  - exact Hleaf.
  - apply elem_of_cons. by left.
Qed.

Lemma map_post_from v v1 va pa flags ok v' :
  same_regs v v1 -> pages_same v v1 -> map_post v1 va pa flags ok v' -> map_post v va pa flags ok v'.
Proof.
  intros Hr Hs (Hwf & Hroot & Hok). rewrite (same_regs_root v v1 Hr) in *. split_and!; [done|done|].
  destruct ok.
  - destruct Hok as (H1 & H2 & H3). split_and!; try done.
    intros va'. rewrite H1. destruct (decide _); [done|apply Hs].
  - destruct Hok as [H1 H2]. split; [by eapply pages_same_trans|done].
Qed.

Lemma map_post_with_cr3 v va pa flags ok v' :
  map_post (with_cr3 v) va pa flags ok v' -> map_post v va pa flags ok v'.
Proof. unfold map_post, pages_same. by rewrite vmm_root_with_cr3. Qed.

(** From the page directory on, with the split when the slot is a large page. *)
Lemma map_split_pd v owner va pa flags pd :
  vmm_wf v owner -> walk (vmm_mem v) (vmm_root v) [PML4_INDEX va; PDPT_INDEX va] = Some pd ->
  ((exists e, lookup_leaf (vmm_mem v) (vmm_root v) (indices va) = Some (e, 1%nat)) -> exists a, fa_free (vmm_frames v) a = true) ->
  0 <= pa < 2 ^ 52 -> pa mod PAGE_SIZE = 0 -> (vmm_cr3 v = 0 -> hw_cr3 v = 0) ->
  runs (pde ← get_entry pd (PD_INDEX va);
        _ ← (if negb (Z.land pde PT_PRESENT =? 0) && negb (Z.land pde PT_HUGE =? 0)
             then vmm_split_large_page va else mret tt);
        pt ← get_or_create_table pd (PD_INDEX va) (inter_flags_from flags) true;
        if pt =? 0 then mret false else
        _ ← put_entry pt (PT_INDEX va) (Z.lor (Z.land pa PT_PHYS_MASK) (pte_flags_from flags));
        _ ← invlpg va;
        mret true) v (map_post v va pa flags).
Proof.
  intros Hwf Hw Hpool Hpa Hal Hcr. assert (Hv : with_cr3 v = v).
  { destruct v as [c hw ? ? ?]. unfold with_cr3. cbn [vmm_cr3 hw_cr3] in *.
    destruct (Z.eqb_spec c 0) as [->|]; [by rewrite Hcr|done]. }
  unfold get_entry. run. fold (entry (vmm_mem v) pd (PD_INDEX va)). set (e2 := entry (vmm_mem v) pd (PD_INDEX va)).
  rewrite (not_present e2), (not_huge e2), !negb_involutive. destruct (pt_present e2 && pt_huge e2) eqn:Hph; [|run1].
  - apply andb_true_iff in Hph as [Hp2 Hh2]. eapply runs_mono; [by apply (vmm_split_ok v owner va pd)|].
    intros [] v3 [[Hn _]|(_ & Hr3 & Hs3 & Hw3 & [t Hw3'] & [owner3 Hwf3] & _)].
    { destruct Hpool as [a Ha]; [|congruence]. exists e2.
      change (indices va) with ([PML4_INDEX va; PDPT_INDEX va] ++ [PD_INDEX va; PT_INDEX va]).
      rewrite (walk_leaf _ _ _ _ _ Hw) by done. cbn [lookup_leaf]. fold e2. by rewrite Hp2, Hh2. }
    rewrite Hv in Hr3. pose proof (same_regs_root _ _ Hr3) as Hroot.
    apply (walk_split _ _ [PML4_INDEX va; PDPT_INDEX va]) in Hw3' as (pd' & Hw3' & Hp3 & Hh3 & _).
    eapply runs_mono; [eapply (map_in_pd v3 owner3); try done; rewrite ?Hroot; [done|intros _; congruence]|].
    intros ok v' H. by eapply map_post_from.
  - eapply map_in_pd; try done. fold e2. intros Hp2. by rewrite Hp2 in Hph.
Qed.

Lemma vmm_map_page_run v owner va pa flags :
  vmm_wf v owner -> va mod PAGE_SIZE = 0 -> 0 <= pa < 2 ^ 52 -> pa mod PAGE_SIZE = 0 ->
  no_1g v va ->
  ((exists e, lookup_leaf (vmm_mem v) (vmm_root v) (indices va) = Some (e, 1%nat)) -> exists a, fa_free (vmm_frames v) a = true) ->
  runs (vmm_map_page va pa flags) v (map_post v va pa flags).
Proof.
  intros Hwf0 Hva Hpa Hal Hno0 Hpool0. destruct (index_ok_all va) as (Hi0 & Hi1 & Hi2 & Hi3).
  unfold vmm_map_page. run. apply runs_load_cr3. rewrite !(land_low 12) by done.
  change (2 ^ 12) with PAGE_SIZE. rewrite Hva, Hal, Z.eqb_refl. cbn [negb].
  eapply runs_mono; [|intros ok v'; apply map_post_with_cr3].
  assert (Hcr : vmm_cr3 (with_cr3 v) = 0 -> hw_cr3 (with_cr3 v) = 0)
    by (cbn [with_cr3 vmm_cr3 hw_cr3]; destruct (Z.eqb_spec (vmm_cr3 v) 0); congruence).
  rewrite <- (vmm_root_with_cr3 v) in *. apply vmm_wf_with_cr3 in Hwf0.
  assert (Hno : no_1g (with_cr3 v) va) by (intros e; rewrite vmm_root_with_cr3; apply Hno0).
  change (vmm_mem v) with (vmm_mem (with_cr3 v)) in Hpool0. change (vmm_frames v) with (vmm_frames (with_cr3 v)) in Hpool0.
  set (v0 := with_cr3 v) in *. clearbody v0. clear Hno0. run.
  eapply runs_mono; [apply (get_or_create_ok v0 owner []); try done; [cbn; lia|apply inter_flags_ok|by apply (pml4_not_huge v0 owner)]|].
  cbn [app]. intros pdpt v1 [(-> & -> & Hn)|(Hne & Hr1 & Hf1 & Hs1 & Heq1 & Hw1 & owner1 & Hwf1)].
  { rewrite Z.eqb_refl. run. by split_and!; [exists owner| | |]. }
  rewrite (proj2 (Z.eqb_neq _ _)) by done. run.
  pose proof (same_leaves_no_1g _ _ _ Hs1 Hr1 Hno) as Hno1. pose proof (same_regs_root _ _ Hr1) as Hroot1.
  rewrite <- Hroot1 in Hw1. pose proof (walk_split _ _ [] _ _ Hw1) as (t0 & [= <-] & Hp0 & _ & Hpdpt).
  eapply runs_mono; [apply (get_or_create_ok v1 owner1 [PML4_INDEX va]); try done; [cbn; lia|by constructor|apply inter_flags_ok|]|].
  { rewrite Hpdpt. by apply (pdpt_not_huge v1 owner1). }
  cbn [app]. intros pd v2 [(-> & -> & Hn)|(Hne2 & Hr2 & Hf2 & Hs2 & Heq2 & Hw2 & owner2 & Hwf2)].
  { rewrite Z.eqb_refl. run. split_and!; [by exists owner1|done|by apply same_leaves_pages|done]. }
  rewrite (proj2 (Z.eqb_neq _ _)) by done. pose proof (same_regs_root _ _ Hr2) as Hroot2. rewrite <- Hroot2 in Hw2.
  eapply runs_mono; [apply (map_split_pd v2 owner2); try done|].
  - rewrite Hroot2, Hroot1. intros [e Hle].
    pose proof (Hs1 (indices va) (indices_ok _) eq_refl) as Hl1. pose proof (Hs2 (indices va) (indices_ok _) eq_refl) as Hl2.
    rewrite Hroot1 in Hl2. rewrite Hle in Hl2. symmetry in Hl2.
    assert (v1 = v0) as ->. { apply Heq1. eapply leaf_present. unfold indices in *. rewrite <- Hl1. exact Hl2. }
    assert (v2 = v0) as ->.
    { apply Heq2. rewrite Hpdpt. eapply leaf_present. rewrite <- (pdpt_leaf v0 owner Hwf0 va Hp0) by done. exact Hl2. }
    apply Hpool0. by exists e.
  - destruct Hr1 as [Hc1 Hh1], Hr2 as [Hc2 Hh2]. rewrite Hc2, Hh2, Hc1, Hh1. exact Hcr.
  - intros ok v' H. eapply map_post_from; [exact Hr1|by apply same_leaves_pages|].
    eapply map_post_from; [exact Hr2|by apply same_leaves_pages|done].
Qed.
End ops.

(** * Correctness of the virtual memory manager *)

(** What [vmm_query] answers in state [v]. *)
Definition query_result {S} (v : vmm S) (va : Z) : Z := default 0 (fst <$> vmm_query va v).

Lemma query_translate {S} (v : vmm S) va :
  query_result v va = default 0 (translate (vmm_mem v) (vmm_root v) va).
Proof. unfold query_result. by rewrite vmm_query_ok. Qed.

Section claims.
Context {S : Type} `{FA : FrameAllocator S} `{!FrameAllocatorLaws S}.
Implicit Types (v : vmm S).

(** C8: [vmm_map_page] on well-formed tables.  An unaligned virtual or
    physical address is refused without effect.  Otherwise, if no 1 GiB page
    covers the address and a free frame is left when a 2 MiB page has to be
    split: on success [vmm_query] finds [pa] plus the offset for every address
    of the page and its former answer for every other address, the entry
    carries exactly the requested flags, and the TLB entry is invalidated; on
    failure (which means that no frame is left) all answers are as before.
    The tables stay well formed either way. *)
Theorem vmm_map_page_maps v owner va pa flags :
  vmm_wf v owner -> 0 <= pa < 2 ^ 52 -> no_1g v va ->
  ((exists e, lookup_leaf (vmm_mem v) (vmm_root v) (indices va) = Some (e, 1%nat)) ->
   exists a, fa_free (vmm_frames v) a = true) ->
  if (va mod PAGE_SIZE =? 0) && (pa mod PAGE_SIZE =? 0) then
    runs (vmm_map_page va pa flags) v (fun ok v' =>
      (exists owner', vmm_wf v' owner') /\
      if ok then
        (forall va', query_result v' va' =
           if decide (indices va' = indices va) then pa + va' mod PAGE_SIZE else query_result v va') /\
        lookup_leaf (vmm_mem v') (vmm_root v') (indices va) = Some (Z.lor pa (pte_flags_from flags), O) /\
        va ∈ vmm_flushed v'
      else (forall va', query_result v' va' = query_result v va') /\
           (forall a, fa_free (vmm_frames v') a = false))
  else vmm_map_page va pa flags v = Some (false, with_cr3 v).
Proof.
  intros Hwf Hpa Hno Hpool.
  destruct (Z.eqb_spec (va mod PAGE_SIZE) 0) as [Hva|Hva]; [destruct (Z.eqb_spec (pa mod PAGE_SIZE) 0) as [Hal|Hal]|]; cbn [andb].
  - eapply runs_mono; [by apply (vmm_map_page_run v owner)|]. intros ok v' (Hwf' & Hroot & Hok). split; [done|].
    destruct ok; rewrite ?Hroot.
    + destruct Hok as (Htr & Hleaf & Hfl). split_and!; try done.
      intros va'. rewrite !query_translate, Hroot, Htr. by destruct (decide _).
    + destruct Hok as [Htr Hn]. split; [|done]. intros va'. by rewrite !query_translate, Hroot, Htr.
  - unfold vmm_map_page, mbind, prog_bind. rewrite load_cr3_ok, !(land_low 12) by done.
    change (2 ^ 12) with PAGE_SIZE. rewrite Hva, (proj2 (Z.eqb_neq (pa mod PAGE_SIZE) 0)) by done. done.
  - unfold vmm_map_page, mbind, prog_bind. rewrite load_cr3_ok, (land_low 12) by done.
    change (2 ^ 12) with PAGE_SIZE. rewrite (proj2 (Z.eqb_neq (va mod PAGE_SIZE) 0)) by done. done.
Qed.

(** C39: [vmm_unmap_page] on well-formed tables without a 1 GiB page at the
    address returns [true] exactly when the address is mapped; then
    [vmm_query] answers NULL for every address of the unmapped page (the whole
    2 MiB when a large page maps it) and as before for all others, and the
    TLB entry is invalidated.  The tables stay well formed, and no frame is
    given back. *)
Theorem vmm_unmap_page_unmaps v owner va :
  vmm_wf v owner -> no_1g v va ->
  runs (vmm_unmap_page va) v (fun ok v' =>
    vmm_wf v' owner /\
    match lookup_leaf (vmm_mem v) (vmm_root v) (indices va) with
    | None => ok = false /\ v' = with_cr3 v
    | Some (_, n) => ok = true /\ vmm_flushed v' = va :: vmm_flushed v /\
        forall va', query_result v' va' =
          if decide (take (4 - n) (indices va') = take (4 - n) (indices va)) then 0 else query_result v va'
    end).
Proof.
  intros Hwf Hno. eapply runs_mono; [by apply (vmm_unmap_page_ok v owner)|].
  intros ok v' (Hwf' & Hroot & Hm). split; [done|]. destruct (lookup_leaf _ _ _) as [[e n]|]; [|done].
  destruct Hm as (-> & Hfl & Htr). split_and!; try done.
  intros va'. rewrite !query_translate, Hroot, Htr. by destruct (decide _).
Qed.

(** C38: splitting a 2 MiB page into 512 pages of 4 KiB changes no answer of
    [vmm_query]; if a frame was left the address is afterwards reached through
    a page table, and every 4 KiB slot of the 2 MiB window is invalidated in
    the TLB.  Without a free frame nothing changes. *)
Theorem vmm_split_large_page_same v owner va pd :
  vmm_wf v owner -> walk (vmm_mem v) (vmm_root v) [PML4_INDEX va; PDPT_INDEX va] = Some pd ->
  pt_present (entry (vmm_mem v) pd (PD_INDEX va)) = true -> pt_huge (entry (vmm_mem v) pd (PD_INDEX va)) = true ->
  runs (vmm_split_large_page va) v (fun _ v' =>
    (exists owner', vmm_wf v' owner') /\ (forall va', query_result v' va' = query_result v va') /\
    ((forall a, fa_free (vmm_frames v) a = false) /\ v' = with_cr3 v \/
     (exists t, walk (vmm_mem v') (vmm_root v) [PML4_INDEX va; PDPT_INDEX va; PD_INDEX va] = Some t) /\
     (forall i, index_ok i -> u64 (Z.land va (bnot 64 (LARGE_PAGE_SIZE - 1)) + i * PAGE_SIZE) ∈ vmm_flushed v'))).
Proof.
  intros Hwf Hw Hp Hh. eapply runs_mono; [by apply (vmm_split_ok v owner va pd)|].
  intros [] v' [[Hn ->]|(_ & Hr & Hs & _ & Ht & Hwf' & Hfl)].
  - split_and!; [exists owner; by apply vmm_wf_with_cr3| |by left].
    intros va'. by rewrite !query_translate, vmm_root_with_cr3.
  - split_and!; [done| |by right]. intros va'. rewrite !query_translate.
    pose proof (same_regs_root _ _ Hr) as Hroot. by rewrite Hroot, vmm_root_with_cr3, Hs.
Qed.

(** Mapping a 4 KiB page inside a 2 MiB page when no frame is left for
    the split does not fail: the large entry is taken for a page table, and
    the new entry is written, as eight bytes of data, into the memory that
    the large page maps, with [true] returned. *)
Theorem vmm_map_page_oom_corrupts v owner va pa flags pd :
  let pde := entry (vmm_mem v) pd (PD_INDEX va) in
  vmm_wf v owner -> walk (vmm_mem v) (vmm_root v) [PML4_INDEX va; PDPT_INDEX va] = Some pd ->
  pt_present pde = true -> pt_huge pde = true -> pt_phys pde <> 0 ->
  (forall a, fa_free (vmm_frames v) a = false) ->
  va mod PAGE_SIZE = 0 -> 0 <= pa < 2 ^ 52 -> pa mod PAGE_SIZE = 0 -> vmm_cr3 v <> 0 ->
  runs (vmm_map_page va pa flags) v (fun ok v' =>
    ok = true /\
    vmm_mem v' = store 8 (pt_phys pde + 8 * PT_INDEX va) (Z.lor pa (pte_flags_from flags)) (vmm_mem v)).
Proof.
  intros pde Hwf Hw Hp Hh Hnz Hn Hva Hpa Hal Hcr.
  assert (Hv : with_cr3 v = v).
  { destruct v as [c ? ? ? ?]. unfold with_cr3. cbn [vmm_cr3] in *. by rewrite (proj2 (Z.eqb_neq c 0)). }
  pose proof Hw as Hw1. apply (walk_split _ _ [PML4_INDEX va]) in Hw1 as (pdpt & Hw1 & Hp1 & _ & Hpd).
  pose proof (walk_split _ _ [] _ _ Hw1) as (t0 & [= <-] & Hp0 & _ & Hpdpt).
  assert (Hi : Forall index_ok (indices va)) by apply indices_ok.
  assert (pdpt <> 0) by (eapply (walk_nonzero v owner _ _ Hwf); [exact Hw1|cbn; lia|by apply (Forall_take _ 1 (indices va))]).
  assert (pd <> 0) by (eapply (walk_nonzero v owner _ _ Hwf); [exact Hw|cbn; lia|by apply (Forall_take _ 2 (indices va))]).
  unfold vmm_map_page. run. apply runs_load_cr3. rewrite Hv, !(land_low 12) by done.
  change (2 ^ 12) with PAGE_SIZE. rewrite Hva, Hal, Z.eqb_refl. cbn [negb]. run.
  apply runs_get_present; [done|]. rewrite <- Hpdpt, (proj2 (Z.eqb_neq pdpt 0)) by done. run.
  apply runs_get_present; [done|]. rewrite <- Hpd, (proj2 (Z.eqb_neq pd 0)) by done.
  unfold get_entry at 1. run. fold (entry (vmm_mem v) pd (PD_INDEX va)). fold pde.
  rewrite (not_present pde), (not_huge pde), Hp, Hh. cbn [negb andb].
  eapply runs_mono; [by apply (vmm_split_ok v owner va pd)|].
  intros [] v' [[_ ->]|([a Ha] & _)]; [|by rewrite Hn in Ha]. rewrite Hv. run.
  apply runs_get_present; [done|]. fold pde. rewrite (proj2 (Z.eqb_neq (pt_phys pde) 0)) by done.
  unfold put_entry, invlpg. run. fold (pt_phys pa). rewrite (pt_phys_id pa) by done. done.
Qed.
End claims.

(** * The boot state *)

(** The tables that src/boot/stage2.asm builds at 0x1000, 0x2000 and 0x3000:
    16 MiB mapped to themselves by 2 MiB pages. *)
Definition boot_tables : gmap Z Z :=
  foldr (fun k => store 8 (0x3000 + 8 * k) (k * LARGE_PAGE_SIZE + 0x83))
    (store 8 0x1000 0x2003 (store 8 0x2000 0x3003 ∅)) (seqZ 0 8).

Definition boot_owner : gmap Z (list Z) := {[0x1000 := []; 0x2000 := [0]; 0x3000 := [0; 0]]}.

Definition entry_okb (owner : gmap Z (list Z)) (π : list Z) (i e : Z) : bool :=
  negb (pt_present e) || (3 <=? length π)%nat ||
  (if pt_huge e then negb (length π =? 0)%nat && (pt_phys e mod LARGE_PAGE_SIZE =? 0)
   else bool_decide (owner !! pt_phys e = Some (π ++ [i]))).

Lemma entry_okb_ok owner π i e : entry_okb owner π i e = true -> entry_ok owner π i e.
Proof.
  unfold entry_okb, entry_ok. intros H Hp Hl. rewrite Hp, (proj2 (Nat.leb_gt _ _) Hl) in H. cbn [negb orb] in H.
  destruct (pt_huge e); [|by apply bool_decide_eq_true in H].
  apply andb_true_iff in H as [H1%negb_true_iff%Nat.eqb_neq H2%Z.eqb_eq]. done.
Qed.

Lemma boot_tables_wf : tables_wf boot_tables 0x1000 boot_owner.
Proof.
  assert (Hall : forall t π, boot_owner !! t = Some π -> (t, π) ∈ [(0x1000, []); (0x2000, [0]); (0x3000, [0; 0])]).
  { intros t π. unfold boot_owner. rewrite !lookup_insert_Some, lookup_singleton_Some.
    rewrite !elem_of_cons. naive_solver. }
  assert (Hok : forallb (fun tp => forallb (fun i => entry_okb boot_owner tp.2 i (entry boot_tables tp.1 i)) (seqZ 0 512))
            [(0x1000, []); (0x2000, [0]); (0x3000, [0; 0])] = true) by (vm_compute; reflexivity).
  rewrite forallb_forall in Hok. split.
  - reflexivity.
  - intros t π Ht%Hall. rewrite !elem_of_cons, elem_of_nil in Ht.
    destruct Ht as [[= -> ->]|[[= -> ->]|[[= -> ->]|[]]]]; (split; [lia|split; [reflexivity|cbn; lia]]).
  - intros t π i Ht%Hall Hi. apply entry_okb_ok. apply list_elem_of_In in Ht. specialize (Hok _ Ht). cbn [fst snd] in Hok.
    rewrite forallb_forall in Hok. apply Hok, list_elem_of_In, elem_of_seqZ. unfold PT_ENTRIES in Hi. lia.
Qed.

#[local] Existing Instances Pmm.pmm_frames Pmm.pmm_frames_laws.

Definition boot_vmm : vmm Pmm.pmm := mk_vmm 0x1000 0x1000 boot_tables Pmm.boot_pmm [].

Lemma boot_vmm_wf : vmm_wf boot_vmm boot_owner.
Proof.
  assert (Hgen : forall s : Pmm.pmm, Pmm.pool_inv 0x100000 0x150000 s ∅ ∅ ->
    vmm_wf (mk_vmm 0x1000 0x1000 boot_tables s []) boot_owner); [|apply Hgen, Pmm.boot_pmm_inv].
  intros s Hinv. split.
  - by eapply Pmm.pool_inv_frames.
  - exact boot_tables_wf.
  - intros t π Ht. cbn [fa_free Pmm.pmm_frames vmm_frames]. apply andb_false_iff. right.
    eapply Pmm.pool_inv_reserved; [exact Hinv| |set_solver]. revert Ht.
    unfold boot_owner. rewrite !lookup_insert_Some, lookup_singleton_Some.
    intros [[<- _]|[_ [[<- _]|[_ [<- _]]]]]; reflexivity.
Qed.

(** Mapping a 4 KiB page inside the second 2 MiB page of the boot mapping. *)
Lemma vmm_map_page_maps_witness :
  runs (vmm_map_page 0x201000 0x700000 VMM_WRITE) boot_vmm (fun ok v' =>
    (exists owner', vmm_wf v' owner') /\
    if ok then
      (forall va', query_result v' va' =
         if decide (indices va' = indices 0x201000) then 0x700000 + va' mod PAGE_SIZE else query_result boot_vmm va') /\
      lookup_leaf (vmm_mem v') (vmm_root v') (indices 0x201000) = Some (Z.lor 0x700000 (pte_flags_from VMM_WRITE), O) /\
      0x201000 ∈ vmm_flushed v'
    else (forall va', query_result v' va' = query_result boot_vmm va') /\
         (forall a, fa_free (vmm_frames v') a = false)).
Proof.
  apply (vmm_map_page_maps boot_vmm boot_owner 0x201000 0x700000 VMM_WRITE boot_vmm_wf); [lia| |].
  - intros e H. vm_compute in H. discriminate.
  - intros _. exists 0x150000. vm_compute. reflexivity.
Defined.

Lemma vmm_unmap_page_unmaps_witness :
  runs (vmm_unmap_page 0x201000) boot_vmm (fun ok v' =>
    vmm_wf v' boot_owner /\ ok = true /\ vmm_flushed v' = [0x201000] /\
    forall va', query_result v' va' =
      if decide (take 3 (indices va') = take 3 (indices 0x201000)) then 0 else query_result boot_vmm va').
Proof.
  pose proof (vmm_unmap_page_unmaps boot_vmm boot_owner 0x201000 boot_vmm_wf) as H.
  assert (E : lookup_leaf boot_tables 0x1000 (indices 0x201000) = Some (0x200083, 1%nat)) by (vm_compute; reflexivity).
  change (lookup_leaf (vmm_mem boot_vmm) (vmm_root boot_vmm) (indices 0x201000))
    with (lookup_leaf boot_tables 0x1000 (indices 0x201000)) in H.
  rewrite E in H. apply H. intros e He. vm_compute in He. discriminate.
Defined.

Lemma vmm_split_large_page_same_witness :
  runs (vmm_split_large_page 0x201000) boot_vmm (fun _ v' =>
    (exists owner', vmm_wf v' owner') /\ (forall va', query_result v' va' = query_result boot_vmm va') /\
    ((forall a, fa_free (vmm_frames boot_vmm) a = false) /\ v' = with_cr3 boot_vmm \/
     (exists t, walk (vmm_mem v') (vmm_root boot_vmm) [0; 0; 1] = Some t) /\
     (forall i, index_ok i -> u64 (0x200000 + i * PAGE_SIZE) ∈ vmm_flushed v'))).
Proof.
  apply (vmm_split_large_page_same boot_vmm boot_owner 0x201000 0x3000 boot_vmm_wf); vm_compute; reflexivity.
Defined.

(** The boot tables with every page of memory handed out. *)
Definition full_vmm : vmm Pmm.pmm := mk_vmm 0x1000 0x1000 boot_tables (Pmm.mk_pmm (replicate 256 0) 16384 0 0) [].

Lemma full_vmm_wf : vmm_wf full_vmm boot_owner /\ forall a, fa_free (vmm_frames full_vmm) a = false.
Proof.
  assert (Hn : forall i, Pmm.page_free (Pmm.mk_pmm (replicate 256 0) 16384 0 0) i = false).
  { intros i. unfold Pmm.page_free. cbn [Pmm.pmm_bitmap]. destruct (arr_get _ _) as [w|] eqn:E; [|done].
    apply arr_get_elem, elem_of_replicate in E as [-> _]. apply Z.bits_0. }
  assert (Hf : forall a, fa_free (vmm_frames full_vmm) a = false)
    by (intros a; apply andb_false_iff; right; apply Hn).
  split; [|exact Hf]. split; [|exact boot_tables_wf|intros t π _; apply Hf].
  split; [|apply Hn]. split; [|done|intros i _; apply Hn|symmetry; by apply Pmm.free_count_none].
  split; [done|]. apply Forall_replicate. lia.
Qed.

Lemma vmm_map_page_oom_corrupts_witness :
  runs (vmm_map_page 0x201000 0x700000 VMM_WRITE) full_vmm (fun ok v' =>
    ok = true /\ vmm_mem v' = store 8 (0x200000 + 8 * 1) (Z.lor 0x700000 3) boot_tables).
Proof.
  apply (vmm_map_page_oom_corrupts full_vmm boot_owner 0x201000 0x700000 VMM_WRITE 0x3000 (proj1 full_vmm_wf));
    [vm_compute; reflexivity|vm_compute; reflexivity|vm_compute; reflexivity|vm_compute; discriminate
    |apply full_vmm_wf|reflexivity|lia|reflexivity|vm_compute; discriminate].
Defined.

End Vmm.
