(* ===== verification/Pcb.v ===== *)
(** The process table (src/process/pcb.h, src/process/pcb.c): 64 process
    control blocks, a bitmap of free slots, one kernel stack per slot. *)
From S2P Require Import Prelude.

Module Pcb.

Definition MAX_PROCESSES : Z := 64.
Definition PROCESS_NAME_MAX : Z := 24.
Definition STACK_SIZE : Z := 4096.

Inductive process_state :=
  | PROCESS_EMBRYO
  | PROCESS_READY
  | PROCESS_RUNNING
  | PROCESS_BLOCKED
  | PROCESS_TERMINATED.

#[export] Instance process_state_eq : EqDecision process_state.
Proof. solve_decision. Defined.

Definition PRIORITY_LOW : Z := 0.
Definition PRIORITY_NORMAL : Z := 1.
Definition PRIORITY_HIGH : Z := 2.
Definition PRIORITY_REALTIME : Z := 3.
Definition PRIORITY_COUNT : Z := 4.

(** [pcb_t].  A [pcb_t *] into the table is the index of the slot, NULL is [None]. *)
Record pcb := mk_pcb {
  pid : Z;
  state : process_state;
  name : list Z;
  priority : Z;
  rsp : Z;
  rip : Z;
  rflags : Z;
  cr3 : Z;
  stack_base : Z;
  time_created : Z;
  total_ticks : Z;
  wake_tick : Z;
  next : option Z }.

Definition set_next (n : option Z) (p : pcb) : pcb :=
  mk_pcb (pid p) (state p) (name p) (priority p) (rsp p) (rip p) (rflags p) (cr3 p) (stack_base p)
    (time_created p) (total_ticks p) (wake_tick p) n.
Definition set_state (s : process_state) (p : pcb) : pcb :=
  mk_pcb (pid p) s (name p) (priority p) (rsp p) (rip p) (rflags p) (cr3 p) (stack_base p)
    (time_created p) (total_ticks p) (wake_tick p) (next p).
Definition set_rsp (r : Z) (p : pcb) : pcb :=
  mk_pcb (pid p) (state p) (name p) (priority p) r (rip p) (rflags p) (cr3 p) (stack_base p)
    (time_created p) (total_ticks p) (wake_tick p) (next p).

(** [pcb_table] and [slot_free_map] (a set bit is a free slot). *)
Record pcbs := mk_pcbs { pcb_table : list pcb; slot_free_map : Z }.

Definition set_table (t : list pcb) (s : pcbs) : pcbs := mk_pcbs t (slot_free_map s).
Definition set_map (m : Z) (s : pcbs) : pcbs := mk_pcbs (pcb_table s) m.

(** [pcb_table[i]] read, and updated by [f]. *)
Definition get_pcb (i : Z) : prog pcbs pcb := fun s => p ← arr_get (pcb_table s) i; Some (p, s).
Definition upd_pcb (i : Z) (f : pcb -> pcb) : prog pcbs unit := fun s =>
  p ← arr_get (pcb_table s) i;
  t ← arr_set (pcb_table s) i (f p);
  Some (tt, set_table t s).

Definition pcb_init_table : prog pcbs unit :=
  _ ← modify (set_map (bnot 64 0));
  for_ (Z.to_nat MAX_PROCESSES) 0 (fun i => upd_pcb i (fun p =>
    mk_pcb 0 PROCESS_TERMINATED (name p) (priority p) (rsp p) (rip p) (rflags p) (cr3 p) (stack_base p)
      (time_created p) (total_ticks p) (wake_tick p) None)).

(** [find_free_slot] returns -1 when there is none. *)
Definition find_free_slot : prog pcbs Z :=
  m ← gets slot_free_map;
  if m =? 0 then mret (-1)
  else idx ← need (first_set 64 m 0); mret (i32 idx).

Definition mark_slot_used (idx : Z) : prog pcbs unit :=
  modify (fun s => set_map (Z.land (slot_free_map s) (bnot 64 (bit 64 idx))) s).
Definition mark_slot_free (idx : Z) : prog pcbs unit :=
  modify (fun s => set_map (Z.lor (slot_free_map s) (bit 64 idx)) s).

Section stacks.
(** The link-time address of the array [process_stacks]. *)
Context (process_stacks : Z).

Definition stack_top (idx : Z) : Z := u64 (process_stacks + idx * STACK_SIZE + STACK_SIZE).

Definition pcb_alloc : prog pcbs (option Z) :=
  idx ← find_free_slot;
  if idx <? 0 then mret None
  else
    _ ← mark_slot_used idx;
    _ ← upd_pcb idx (fun p =>
          mk_pcb 0 PROCESS_EMBRYO (name p) PRIORITY_NORMAL 0 0 0 0 (stack_top idx) 0 0 0 None);
    mret (Some idx).
End stacks.

(** The argument is NULL or a slot of the table. *)
Definition pcb_free (p : option Z) : prog pcbs unit :=
  match p with
  | None => mret tt
  | Some idx =>
      if (idx <? 0) || (MAX_PROCESSES <=? idx) then mret tt
      else
        _ ← upd_pcb idx (set_state PROCESS_TERMINATED);
        mark_slot_free idx
  end.

Definition active (p : pcb) : bool :=
  bool_decide (state p <> PROCESS_EMBRYO) && bool_decide (state p <> PROCESS_TERMINATED).

Definition pcb_by_pid (n : Z) : prog pcbs (option Z) :=
  for_ret (Z.to_nat MAX_PROCESSES) 0 (fun i =>
    p ← get_pcb i;
    mret (if (pid p =? n) && active p then Some i else None)).

(** [for (i = 0; i < MAX_PROCESSES && count < max; i++)]; the result is the
    filled part of [buf], whose length is the value returned. *)
Fixpoint pcb_enum_loop (n : nat) (i max : Z) (buf : list Z) : prog pcbs (list Z) :=
  match n with
  | O => mret buf
  | S n =>
      if Z.of_nat (length buf) <? max then
        p ← get_pcb i;
        pcb_enum_loop n (i + 1) max (if active p then buf ++ [i] else buf)
      else mret buf
  end.

Definition pcb_enum_active (max : Z) : prog pcbs (list Z) :=
  pcb_enum_loop (Z.to_nat MAX_PROCESSES) 0 max [].

(** * The table *)

(** The table has 64 slots, the map 64 bits. *)
Record table_wf (s : pcbs) : Prop := {
  tw_len : length (pcb_table s) = Z.to_nat MAX_PROCESSES;
  tw_map : 0 <= slot_free_map s < 2 ^ 64 }.

Definition slot_free (s : pcbs) (i : Z) : bool := Z.testbit (slot_free_map s) i.

Definition slot_ok (i : Z) : Prop := 0 <= i < MAX_PROCESSES.

Lemma table_get s i : table_wf s -> slot_ok i -> exists p, arr_get (pcb_table s) i = Some p.
Proof. intros [Hl _] Hi. apply arr_get_in. rewrite Hl. unfold slot_ok, MAX_PROCESSES in *. lia. Qed.

Lemma runs_get_pcb i s p (Q : pcb -> pcbs -> Prop) :
  arr_get (pcb_table s) i = Some p -> Q p s -> runs (get_pcb i) s Q.
Proof. intros Hg HQ. exists p, s. split; [|done]. unfold get_pcb. by rewrite Hg. Qed.

(** The table with the slot [i] replaced. *)
Lemma runs_upd_pcb i f s p (Q : unit -> pcbs -> Prop) :
  arr_get (pcb_table s) i = Some p ->
  Q tt (set_table (<[Z.to_nat i := f p]> (pcb_table s)) s) -> runs (upd_pcb i f) s Q.
Proof.
  intros Hg HQ. pose proof (arr_get_Some _ _ _ Hg) as Hi. eexists tt, _. split; [|exact HQ].
  unfold upd_pcb. rewrite Hg. cbn. by rewrite arr_set_in.
Qed.

Lemma table_upd_get (t : list pcb) i j q :
  0 <= i < Z.of_nat (length t) ->
  arr_get (<[Z.to_nat i := q]> t) j = if j =? i then Some q else arr_get t j.
Proof. intros Hi. eapply arr_get_set, arr_set_in. done. Qed.

Lemma find_free_slot_ok s : table_wf s ->
  runs find_free_slot s (fun i s' => s' = s /\
    ((i = -1 /\ forall j, slot_ok j -> slot_free s j = false) \/
     (slot_ok i /\ slot_free s i = true /\ forall j, j < i -> slot_free s j = false))).
Proof.
  intros [_ Hm]. unfold find_free_slot. run. destruct (Z.eqb_spec (slot_free_map s) 0) as [E|E]; run.
  - split; [done|]. left. split; [done|]. intros j _. unfold slot_free. rewrite E. apply Z.bits_0.
  - destruct (first_set_spec 64 (slot_free_map s) 0) as (k & Hk & Hr & Hs & Hl); [change (Z.of_nat 64) with 64; lia|].
    eapply runs_need; [exact Hk|]. run. cbn [Z.add]. rewrite i32_small by lia. split; [done|]. right.
    unfold slot_ok, MAX_PROCESSES. by split_and!; try lia.
Qed.

Lemma slot_free_range s i : table_wf s -> slot_free s i = true -> slot_ok i.
Proof.
  intros [_ Hm] Hf. unfold slot_free, slot_ok, MAX_PROCESSES in *.
  destruct (Z.lt_ge_cases i 0); [by rewrite Z.testbit_neg_r in Hf|].
  destruct (Z.lt_ge_cases i 64); [lia|]. by rewrite (testbit_high 64) in Hf by lia.
Qed.

(** Setting and clearing a slot's bit. *)
Lemma slot_used_bit m i j : 0 <= m < 2 ^ 64 -> slot_ok i ->
  Z.testbit (Z.land m (bnot 64 (bit 64 i))) j = if j =? i then false else Z.testbit m j.
Proof.
  intros Hm Hi. unfold slot_ok, MAX_PROCESSES in Hi.
  destruct (Z.lt_ge_cases j 0); [rewrite !Z.testbit_neg_r by done; by destruct (j =? i)|].
  rewrite Z.land_spec, testbit_bnot, testbit_bit, (Z.eqb_sym i j) by lia.
  destruct (Z.eqb_spec j i); cbn [negb]; [by rewrite !andb_false_r|].
  destruct (Z.ltb_spec j 64); cbn [andb]; [by rewrite andb_true_r|].
  by rewrite (testbit_high 64) by lia.
Qed.

Lemma slot_free_bit m i j : slot_ok i ->
  Z.testbit (Z.lor m (bit 64 i)) j = (j =? i) || Z.testbit m j.
Proof.
  intros Hi. unfold slot_ok, MAX_PROCESSES in Hi. rewrite Z.lor_spec, testbit_bit, (Z.eqb_sym i j) by lia.
  apply orb_comm.
Qed.

Lemma bit_range i : slot_ok i -> 0 <= bit 64 i < 2 ^ 64.
Proof. intros. apply wrap_range. lia. Qed.

(** [s'] is [s] with the record of slot [i] replaced by [q] and its free bit by [v]. *)
Record slot_set (s : pcbs) (i : Z) (q : pcb) (v : bool) (s' : pcbs) : Prop := {
  ss_wf : table_wf s';
  ss_pcb j : arr_get (pcb_table s') j = if j =? i then Some q else arr_get (pcb_table s) j;
  ss_free j : slot_free s' j = if j =? i then v else slot_free s j }.

Definition fresh_pcb (process_stacks i : Z) (p : pcb) : pcb :=
  mk_pcb 0 PROCESS_EMBRYO (name p) PRIORITY_NORMAL 0 0 0 0 (stack_top process_stacks i) 0 0 0 None.

Lemma pcb_alloc_ok stacks s : table_wf s ->
  runs (pcb_alloc stacks) s (fun r s' =>
    match r with
    | None => s' = s /\ forall j, slot_ok j -> slot_free s j = false
    | Some i => slot_ok i /\ slot_free s i = true /\ (forall j, j < i -> slot_free s j = false) /\
        exists p, arr_get (pcb_table s) i = Some p /\ slot_set s i (fresh_pcb stacks i p) false s'
    end).
Proof.
  intros Hwf. unfold pcb_alloc. run. eapply runs_mono; [by apply find_free_slot_ok|].
  intros i s' (-> & [(-> & Hn)|(Hi & Hf & Hlow)]).
  { rewrite (proj2 (Z.ltb_lt _ _)) by lia. by run. }
  pose proof Hi as Hi'. unfold slot_ok, MAX_PROCESSES in Hi'.
  rewrite (proj2 (Z.ltb_ge _ _)) by lia. unfold mark_slot_used. run.
  destruct (table_get s i Hwf Hi) as [p Hp]. eapply runs_upd_pcb; [exact Hp|]. run. split_and!; try done.
  exists p. split; [done|]. pose proof Hwf as [Hlen Hmap]. split; cbn [set_table set_map pcb_table slot_free_map].
  - split; cbn [set_table set_map pcb_table slot_free_map]; [by rewrite length_insert|]. apply land_range; lia.
  - intros j. apply table_upd_get. rewrite Hlen. unfold MAX_PROCESSES. lia.
  - intros j. unfold slot_free. cbn [set_table set_map slot_free_map]. by apply slot_used_bit.
Qed.

Lemma pcb_free_ok s i p : table_wf s -> slot_ok i -> arr_get (pcb_table s) i = Some p ->
  runs (pcb_free (Some i)) s (fun _ s' => slot_set s i (set_state PROCESS_TERMINATED p) true s').
Proof.
  intros Hwf Hi Hp. pose proof Hi as Hi'. unfold slot_ok, MAX_PROCESSES in Hi'. unfold pcb_free, MAX_PROCESSES.
  rewrite (proj2 (Z.ltb_ge _ _)), (proj2 (Z.leb_gt _ _)) by lia. cbn [orb]. run.
  eapply runs_upd_pcb; [exact Hp|]. unfold mark_slot_free. run. pose proof Hwf as [Hlen Hmap].
  split; cbn [set_table set_map pcb_table slot_free_map].
  - split; cbn [set_table set_map pcb_table slot_free_map]; [by rewrite length_insert|].
    apply lor_range; [lia|done|by apply bit_range].
  - intros j. apply table_upd_get. rewrite Hlen. unfold MAX_PROCESSES. lia.
  - intros j. unfold slot_free. cbn [set_table set_map slot_free_map]. rewrite slot_free_bit by done.
    by destruct (j =? i).
Qed.

(** The first active process with this pid. *)
Lemma pcb_by_pid_ok n s : table_wf s ->
  runs (pcb_by_pid n) s (fun r s' => s' = s /\
    match r with
    | None => forall i p, arr_get (pcb_table s) i = Some p -> active p = true -> pid p <> n
    | Some i => exists p, arr_get (pcb_table s) i = Some p /\ active p = true /\ pid p = n /\
        forall j q, j < i -> arr_get (pcb_table s) j = Some q -> active q = true -> pid q <> n
    end).
Proof.
  intros Hwf. unfold pcb_by_pid.
  apply (runs_for_ret (fun i s' => s' = s /\
    forall j q, j < i -> arr_get (pcb_table s) j = Some q -> active q = true -> pid q <> n)).
  - split; [done|]. intros j q Hj Hq%arr_get_Some. lia.
  - intros i s' Hi [-> Hlow]. change (0 + Z.of_nat (Z.to_nat MAX_PROCESSES)) with MAX_PROCESSES in Hi.
    destruct (table_get s i Hwf) as [p Hp]; [unfold slot_ok; lia|]. run. eapply runs_get_pcb; [exact Hp|]. run.
    destruct (Z.eqb_spec (pid p) n) as [En|En], (active p) eqn:Ha; cbn [andb].
    1: { split; [done|]. by exists p. }
    all: split; [done|]; intros j q Hj Hq Haq; destruct (Z.eq_dec j i) as [->|]; [|apply (Hlow j q); [lia|done|done]];
      rewrite Hp in Hq; simplify_eq; congruence.
  - intros s' [-> Hlow]. split; [done|]. intros i p Hp. pose proof (arr_get_Some _ _ _ Hp) as Hi.
    rewrite (tw_len _ Hwf) in Hi. apply (Hlow i p); [|done]. lia.
Qed.

(** * Correctness of the table *)

(** [pcb_alloc] returns the lowest free slot, freshly initialised with a
    kernel stack of its own, marks it used and touches no other slot; it
    returns NULL, changing nothing, exactly when all 64 slots are in use.
    Freeing the slot afterwards makes it free again. *)
Theorem pcb_alloc_lowest stacks s :
  table_wf s -> 0 <= stacks -> stacks + MAX_PROCESSES * STACK_SIZE < 2 ^ 64 ->
  runs (pcb_alloc stacks) s (fun r s' =>
    match r with
    | None => s' = s /\ forall j, slot_ok j -> slot_free s j = false
    | Some i => slot_ok i /\ slot_free s i = true /\ (forall j, j < i -> slot_free s j = false) /\
        (exists p, arr_get (pcb_table s) i = Some p /\ slot_set s i (fresh_pcb stacks i p) false s') /\
        (forall j, slot_ok j -> j <> i -> stack_top stacks j <= stack_top stacks i - STACK_SIZE \/
                                         stack_top stacks i <= stack_top stacks j - STACK_SIZE) /\
        runs (pcb_free r) s' (fun _ s'' => table_wf s'' /\ forall j, slot_free s'' j = slot_free s j)
    end).
Proof.
  intros Hwf Hs Hs'. eapply runs_mono; [by apply pcb_alloc_ok|]. intros [i|] s'; [|done].
  intros (Hi & Hf & Hlow & p & Hp & Hset). split_and!; try done; [by exists p| |].
  - intros j Hj Hne. unfold stack_top, slot_ok, MAX_PROCESSES, STACK_SIZE in *. rewrite !wrap_small by lia. lia.
  - assert (Hp' : arr_get (pcb_table s') i = Some (fresh_pcb stacks i p)) by (by rewrite (ss_pcb _ _ _ _ _ Hset), Z.eqb_refl).
    eapply runs_mono; [eapply (pcb_free_ok s' i); [apply Hset|done|exact Hp']|].
    intros [] s'' H. split; [apply H|]. intros j. rewrite (ss_free _ _ _ _ _ H), (ss_free _ _ _ _ _ Hset).
    destruct (Z.eqb_spec j i) as [->|]; congruence.
Qed.

(** The table before [pcb_init_table]: zeroed static storage. *)
Definition zero_pcb : pcb := mk_pcb 0 PROCESS_EMBRYO (replicate 24 0) 0 0 0 0 0 0 0 0 0 None.
Definition zero_pcbs : pcbs := mk_pcbs (replicate 64 zero_pcb) 0.

Definition boot_pcbs : pcbs := default zero_pcbs (snd <$> pcb_init_table zero_pcbs).

Lemma pcb_alloc_lowest_witness :
  exists s', pcb_alloc 0x180000 boot_pcbs = Some (Some 0, s') /\
    runs (pcb_free (Some 0)) s' (fun _ s'' => table_wf s'' /\ forall j, slot_free s'' j = slot_free boot_pcbs j).
Proof.
  destruct (pcb_alloc_lowest 0x180000 boot_pcbs) as (r & s' & Hr & HQ);
    [split; [reflexivity|split; vm_compute; [discriminate|reflexivity]]|lia|unfold MAX_PROCESSES, STACK_SIZE; lia|].
  assert (E : fst <$> pcb_alloc 0x180000 boot_pcbs = Some (Some 0)) by (vm_compute; reflexivity).
  rewrite Hr in E. injection E as ->. exists s'. split; [done|]. apply HQ.
Defined.

End Pcb.
