(* ===== verification/Queue.v ===== *)
(** The intrusive FIFO queue of process control blocks (src/process/queue.c).
    The links are the [next] fields of the process table. *)
From S2P Require Import Prelude Pcb.

Module Queue.
Import Pcb.

(** [process_queue_t] *)
Record process_queue := mk_queue { q_head : option Z; q_tail : option Z; q_count : Z }.

(** A queue passed by pointer is taken by value and returned. *)
Definition queue_init : process_queue := mk_queue None None 0.

Definition queue_push (q : process_queue) (proc : Z) : prog pcbs process_queue :=
  _ ← upd_pcb proc (set_next None);
  head ← (match q_tail q with
          | Some t => _ ← upd_pcb t (set_next (Some proc)); mret (q_head q)
          | None => mret (Some proc)
          end);
  mret (mk_queue head (Some proc) (u32 (q_count q + 1))).

Definition queue_pop (q : process_queue) : prog pcbs (option Z * process_queue) :=
  match q_head q with
  | None => mret (None, q)
  | Some proc =>
      p ← get_pcb proc;
      let head := next p in
      let tail := match head with None => None | Some _ => q_tail q end in
      _ ← upd_pcb proc (set_next None);
      mret (Some proc, mk_queue head tail (u32 (q_count q - 1)))
  end.

(** The loop of [queue_remove] at [prev], [curr]. *)
Fixpoint queue_remove_loop (fuel : nat) (q : process_queue) (proc : Z) (prev curr : option Z)
    : prog pcbs process_queue :=
  match fuel with
  | O => need None
  | S fuel =>
      match curr with
      | None => mret q
      | Some c =>
          p ← get_pcb c;
          if c =? proc then
            head ← (match prev with
                    | Some pr => _ ← upd_pcb pr (set_next (next p)); mret (q_head q)
                    | None => mret (next p)
                    end);
            p ← get_pcb c;
            let tail := match next p with None => prev | Some _ => q_tail q end in
            _ ← upd_pcb c (set_next None);
            mret (mk_queue head tail (u32 (q_count q - 1)))
          else queue_remove_loop fuel q proc (Some c) (next p)
      end
  end.

(** A queue links at most the 64 slots of the table. *)
Definition queue_fuel : nat := 65.

Definition queue_remove (q : process_queue) (proc : Z) : prog pcbs process_queue :=
  queue_remove_loop queue_fuel q proc None (q_head q).

Definition queue_peek (q : process_queue) : option Z := q_head q.

Fixpoint queue_contains_loop (fuel : nat) (proc : Z) (curr : option Z) : prog pcbs bool :=
  match fuel with
  | O => need None
  | S fuel =>
      match curr with
      | None => mret false
      | Some c =>
          if c =? proc then mret true
          else p ← get_pcb c; queue_contains_loop fuel proc (next p)
      end
  end.

Definition queue_contains (q : process_queue) (proc : Z) : prog pcbs bool :=
  queue_contains_loop queue_fuel proc (q_head q).

(** * A queue as a list of slots *)

(** The link of slot [i] is [n]. *)
Definition link (s : pcbs) (i : Z) (n : option Z) : Prop :=
  exists p, arr_get (pcb_table s) i = Some p /\ next p = n.

Fixpoint linked (s : pcbs) (l : list Z) (n : option Z) : Prop :=
  match l with
  | [] => True
  | i :: l => link s i (match l with [] => n | j :: _ => Some j end) /\ linked s l n
  end.

Record queue_rep (s : pcbs) (q : process_queue) (l : list Z) : Prop := {
  qr_nodup : NoDup l;
  qr_slots : Forall slot_ok l;
  qr_head : q_head q = head l;
  qr_tail : q_tail q = last l;
  qr_count : q_count q = Z.of_nat (length l);
  qr_linked : linked s l None }.

(** [s'] differs from [s] at most in the links of the slots [X]. *)
Record relinked (s s' : pcbs) (X : list Z) : Prop := {
  rl_map : slot_free_map s' = slot_free_map s;
  rl_len : length (pcb_table s') = length (pcb_table s);
  rl_core j : set_next None <$> arr_get (pcb_table s') j = set_next None <$> arr_get (pcb_table s) j;
  rl_other j : j ∉ X -> arr_get (pcb_table s') j = arr_get (pcb_table s) j }.

Lemma relinked_refl s X : relinked s s X.
Proof. done. Qed.

Lemma relinked_trans s1 s2 s3 X : relinked s1 s2 X -> relinked s2 s3 X -> relinked s1 s3 X.
Proof.
  intros [H1 H2 H3 H4] [K1 K2 K3 K4]. split; [congruence|congruence| |].
  - intros j. by rewrite K3.
  - intros j Hj. by rewrite K4, H4.
Qed.

Lemma relinked_sub s s' X Y : relinked s s' X -> X ⊆ Y -> relinked s s' Y.
Proof. intros [H1 H2 H3 H4] Hs. split; [done|done|done|]. intros j Hj. apply H4. auto. Qed.

Lemma relinked_wf s s' X : relinked s s' X -> table_wf s -> table_wf s'.
Proof. intros [H1 H2 _ _] [Hl Hm]. split; congruence. Qed.

Lemma slots_length l : NoDup l -> Forall slot_ok l -> (length l <= 64)%nat.
Proof.
  intros Hn Hs. change 64%nat with (length (seqZ 0 64)). apply submseteq_length, NoDup_submseteq; [done|].
  intros i Hi. apply elem_of_seqZ. rewrite Forall_forall in Hs. specialize (Hs i Hi). unfold slot_ok, MAX_PROCESSES in Hs. lia.
Qed.

Lemma linked_app s l1 l2 n :
  linked s (l1 ++ l2) n <-> linked s l1 (match l2 with [] => n | j :: _ => Some j end) /\ linked s l2 n.
Proof.
  induction l1 as [|i l1 IH]; cbn [app linked]; [tauto|]. rewrite IH.
  destruct l1; cbn [app]; [destruct l2; tauto|tauto].
Qed.

(** Links of slots that did not change. *)
Lemma linked_same s s' l n :
  (forall i, i ∈ l -> arr_get (pcb_table s') i = arr_get (pcb_table s) i) -> linked s l n -> linked s' l n.
Proof.
  induction l as [|i l IH]; intros Hs; cbn [linked]; [done|]. intros [(p & Hp & Hn) Hl]. split.
  - exists p. rewrite Hs by (apply elem_of_cons; by left). done.
  - apply IH; [|done]. intros j Hj. apply Hs, elem_of_cons. by right.
Qed.

(** A queue that shares no slot with the changed ones is kept. *)
Lemma queue_rep_frame s s' q l X : relinked s s' X -> l ## X -> queue_rep s q l -> queue_rep s' q l.
Proof.
  intros Hr Hd [H1 H2 H3 H4 H5 H6]. split; try done. eapply linked_same, H6.
  intros i Hi. apply (rl_other _ _ _ Hr). set_solver.
Qed.

(** Writing the link of slot [i]. *)
Lemma runs_set_next i n s (Q : unit -> pcbs -> Prop) :
  table_wf s -> slot_ok i ->
  (forall s', relinked s s' [i] -> link s' i n -> Q tt s') -> runs (upd_pcb i (set_next n)) s Q.
Proof.
  intros Hwf Hi HQ. destruct (table_get s i Hwf Hi) as [p Hp]. eapply runs_upd_pcb; [exact Hp|].
  assert (Hir : 0 <= i < Z.of_nat (length (pcb_table s))) by (by eapply arr_get_Some).
  apply HQ.
  - split; cbn [set_table pcb_table slot_free_map]; [done|by rewrite length_insert| |].
    + intros j. rewrite table_upd_get by done. destruct (Z.eqb_spec j i) as [->|]; [|done]. by rewrite Hp.
    + intros j Hj. rewrite table_upd_get by done. destruct (Z.eqb_spec j i) as [->|]; [set_solver|done].
  - exists (set_next n p). cbn [set_table pcb_table]. rewrite table_upd_get, Z.eqb_refl by done. done.
Qed.

Lemma link_same s s' X i n : relinked s s' X -> i ∉ X -> link s i n -> link s' i n.
Proof. intros Hr Hi (p & Hp & Hn). exists p. by rewrite (rl_other _ _ _ Hr). Qed.

Lemma runs_get_link i n s (Q : pcb -> pcbs -> Prop) :
  link s i n -> (forall p, next p = n -> Q p s) -> runs (get_pcb i) s Q.
Proof. intros (p & Hp & Hn) HQ. eapply runs_get_pcb; [exact Hp|]. by apply HQ. Qed.

Lemma linked_last s l t n m s' :
  linked s (l ++ [t]) n -> (forall i, i ∈ l -> arr_get (pcb_table s') i = arr_get (pcb_table s) i) ->
  link s' t m -> linked s' (l ++ [t]) m.
Proof.
  intros [Hl _]%linked_app Hs Ht. apply linked_app. split; [by eapply linked_same|by split].
Qed.

Lemma queue_push_ok s q l i :
  table_wf s -> queue_rep s q l -> slot_ok i -> i ∉ l ->
  runs (queue_push q i) s (fun q' s' => queue_rep s' q' (l ++ [i]) /\ relinked s s' (i :: l)).
Proof.
  intros Hwf [Hnd Hsl Hh Ht Hc Hlk] Hi Hnin. unfold queue_push. run. apply runs_set_next; [done|done|].
  intros s1 Hr1 Hl1. pose proof (relinked_wf _ _ _ Hr1 Hwf) as Hwf1. pose proof (slots_length l Hnd Hsl) as Hlen.
  assert (Hnd' : NoDup (l ++ [i])) by (apply NoDup_app; split_and!; [done|set_solver|apply NoDup_singleton]).
  assert (Hsl' : Forall slot_ok (l ++ [i])) by (apply Forall_app; split; [done|by constructor]).
  assert (Hcnt : u32 (q_count q + 1) = Z.of_nat (length (l ++ [i])))
    by (rewrite Hc, length_app, wrap_small; cbn [length]; lia).
  rewrite Ht. destruct (last l) as [t|] eqn:Hlast; run.
  - apply last_Some in Hlast as [l0 ->].
    assert (Hti : t <> i) by (intros ->; set_solver).
    assert (Htl : t ∉ l0) by (apply NoDup_app in Hnd as (_ & Hd & _); intros Hin; apply (Hd t Hin); set_solver).
    assert (Hts : slot_ok t) by (rewrite Forall_forall in Hsl; apply Hsl; set_solver).
    apply runs_set_next; [done|done|]. intros s2 Hr2 Hl2. run.
    assert (Hr : relinked s s2 (i :: l0 ++ [t])).
    { eapply relinked_trans; (eapply relinked_sub; [eassumption|]); intros j; set_solver. }
    split; [|done]. split; cbn [q_head q_tail q_count]; try done.
    + rewrite Hh. by destruct l0.
    + by rewrite last_snoc.
    + apply linked_app. split; [|split; [|done]].
      * eapply linked_last; [exact Hlk| |exact Hl2]. intros j Hj.
        rewrite (rl_other _ _ _ Hr2), (rl_other _ _ _ Hr1); [done|set_solver|set_solver].
      * eapply link_same; [exact Hr2|set_solver|done].
  - apply last_None in Hlast as ->. split; [|done]. split; cbn [q_head q_tail q_count]; try done.
Qed.

Lemma queue_pop_ok s q l :
  table_wf s -> queue_rep s q l ->
  runs (queue_pop q) s (fun r s' =>
    match l with
    | [] => r = (None, q) /\ s' = s
    | i :: l' => fst r = Some i /\ queue_rep s' (snd r) l' /\ relinked s s' [i]
    end).
Proof.
  intros Hwf [Hnd Hsl Hh Ht Hc Hlk]. unfold queue_pop. rewrite Hh.
  destruct l as [|i l']; cbn [head]; run; [done|].
  apply NoDup_cons in Hnd as [Hin Hnd]. pose proof Hsl as Hsl0. apply Forall_cons in Hsl as [Hi Hsl].
  cbn [linked] in Hlk. destruct Hlk as [Hli Hlk].
  eapply runs_get_link; [exact Hli|]. intros p Hp. run. apply runs_set_next; [done|done|].
  intros s' Hr Hl'. run. split_and!; [done| |done]. cbn [snd]. rewrite Hp.
  pose proof (slots_length l' Hnd Hsl) as Hlen.
  split; cbn [q_head q_tail q_count]; try done.
  - by destruct l'.
  - rewrite Hc. cbn [length]. rewrite wrap_small; lia.
  - eapply linked_same, Hlk. intros j Hj. apply (rl_other _ _ _ Hr). set_solver.
Qed.

(** [queue_remove_loop] on [l = l1 ++ l2], having passed [l1]. *)
Lemma queue_remove_loop_ok fuel s q i l1 l2 :
  table_wf s -> queue_rep s q (l1 ++ l2) -> i ∉ l1 -> (length l2 < fuel)%nat ->
  runs (queue_remove_loop fuel q i (last l1) (head l2)) s (fun q' s' =>
    queue_rep s' q' (filter (.≠ i) (l1 ++ l2)) /\ relinked s s' (l1 ++ l2)).
Proof.
  revert l1 l2. induction fuel as [|fuel IH]; intros l1 l2 Hwf Hrep Hi1 Hf; [lia|].
  pose proof Hrep as [Hnd Hsl Hh Ht Hc Hlk]. destruct l2 as [|c l2]; cbn [queue_remove_loop head].
  { run. rewrite app_nil_r in *. split; [|done]. by rewrite filter_ne_id. }
  apply linked_app in Hlk as [Hlk1 [Hlc Hlk2]]. run. eapply runs_get_link; [exact Hlc|]. intros p Hp.
  cbn [length] in Hf. destruct (Z.eqb_spec c i) as [->|Hci].
  2: { replace (next p) with (head l2) by (rewrite Hp; by destruct l2).
       replace (Some c) with (last (l1 ++ [c])) by apply last_snoc.
       change (c :: l2) with ([c] ++ l2) in *. rewrite app_assoc in *.
       apply IH; try done; [set_solver|lia]. }
  assert (Hi2 : i ∉ l2) by (apply NoDup_app in Hnd as (_ & _ & Hnd); by apply NoDup_cons in Hnd as [? _]).
  rewrite filter_app, filter_cons_False, !filter_ne_id by (done || tauto).
  assert (Hnd' : NoDup (l1 ++ l2)) by (eapply sublist_NoDup; [exact Hnd|]; apply sublist_app; [done|by apply sublist_cons]).
  assert (Hsl' : Forall slot_ok (l1 ++ l2)) by (apply Forall_app in Hsl as [? [? ?]%Forall_cons]; by apply Forall_app).
  assert (Hin : slot_ok i) by (rewrite Forall_forall in Hsl; apply Hsl; set_solver).
  pose proof (slots_length _ Hnd' Hsl') as Hlen.
  assert (Hcnt : u32 (q_count q - 1) = Z.of_nat (length (l1 ++ l2))).
  { rewrite Hc, length_app in *. rewrite length_app in *. cbn [length]. rewrite wrap_small; lia. }
  run. destruct (last l1) as [pr|] eqn:Hlast; run.
  - apply last_Some in Hlast as [l0 ->].
    assert (Hpr : slot_ok pr) by (rewrite Forall_forall in Hsl'; apply Hsl'; set_solver).
    assert (Hpi : pr <> i) by (intros ->; set_solver).
    apply runs_set_next; [done|done|]. intros s1 Hr1 Hl1. run.
    pose proof (relinked_wf _ _ _ Hr1 Hwf) as Hwf1.
    eapply runs_get_link; [eapply link_same; [exact Hr1|set_solver|exact Hlc]|]. intros p' Hp'. run.
    apply runs_set_next; [done|done|]. intros s2 Hr2 Hl2. run.
    assert (Hr : relinked s s2 ((l0 ++ [pr]) ++ i :: l2))
      by (eapply relinked_trans; (eapply relinked_sub; [eassumption|]); intros j; set_solver).
    split; [|done]. rewrite <- Hp' in Hp.
    assert (Hdis : pr ∉ l0 /\ pr ∉ l2).
    { rewrite <- app_assoc in Hnd'. apply NoDup_app in Hnd' as (_ & Hd & Hnd2). split; [intros ?; by apply (Hd pr); set_solver|].
      by apply NoDup_cons in Hnd2 as [? _]. }
    split; cbn [q_head q_tail q_count]; try done.
    + rewrite Hh. by destruct l0.
    + rewrite Hp', Ht. destruct l2 as [|j l2]; [by rewrite app_nil_r, last_snoc|]. by rewrite !last_app_cons.
    + apply linked_app. split.
      * apply linked_app in Hlk1 as [Hlk1 _]. apply linked_app. split; [eapply linked_same, Hlk1|split; [|done]].
        -- intros j Hj. rewrite (rl_other _ _ _ Hr2), (rl_other _ _ _ Hr1); [done|set_solver|set_solver].
        -- rewrite Hp, Hp' in Hl1. eapply link_same; [exact Hr2|set_solver|]. exact Hl1.
      * eapply linked_same, Hlk2. intros j Hj.
        rewrite (rl_other _ _ _ Hr2), (rl_other _ _ _ Hr1); [done|set_solver|set_solver].
  - apply last_None in Hlast as ->. cbn [app] in *.
    eapply runs_get_link; [exact Hlc|]. intros p' Hp'. run.
    apply runs_set_next; [done|done|]. intros s2 Hr2 Hl2. run. split; [|eapply relinked_sub; [exact Hr2|]; intros j; set_solver].
    rewrite Hp, Hp'. split; cbn [q_head q_tail q_count]; try done.
    + by destruct l2.
    + eapply linked_same, Hlk2. intros j Hj. apply (rl_other _ _ _ Hr2). set_solver.
Qed.

Lemma queue_remove_ok s q l i :
  table_wf s -> queue_rep s q l ->
  runs (queue_remove q i) s (fun q' s' => queue_rep s' q' (filter (.≠ i) l) /\ relinked s s' l).
Proof.
  intros Hwf Hrep. unfold queue_remove. rewrite (qr_head _ _ _ Hrep).
  apply (queue_remove_loop_ok _ _ _ _ [] l); try done; [set_solver|].
  pose proof (slots_length l (qr_nodup _ _ _ Hrep) (qr_slots _ _ _ Hrep)). unfold queue_fuel. lia.
Qed.

Lemma queue_contains_ok s q l i :
  queue_rep s q l -> runs (queue_contains q i) s (fun b s' => b = bool_decide (i ∈ l) /\ s' = s).
Proof.
  intros [Hnd Hsl Hh _ _ Hlk]. unfold queue_contains. rewrite Hh.
  assert (Hf : (length l < queue_fuel)%nat) by (pose proof (slots_length l Hnd Hsl); unfold queue_fuel; lia).
  clear Hnd Hsl Hh. revert l Hlk Hf. generalize queue_fuel as n.
  induction n as [|fuel IH]; intros l Hlk Hf; [lia|].
  destruct l as [|c l]; cbn [queue_contains_loop head]; [by run|]. destruct Hlk as [Hc Hlk].
  destruct (Z.eqb_spec c i) as [->|Hne]; run.
  - split; [|done]. symmetry. apply bool_decide_eq_true. set_solver.
  - eapply runs_get_link; [exact Hc|]. intros p Hp. replace (next p) with (head l) by (rewrite Hp; by destruct l).
    eapply runs_mono; [apply IH; [done|cbn [length] in Hf; lia]|]. intros b s' [-> ->]. split; [|done].
    apply bool_decide_ext. rewrite elem_of_cons. naive_solver.
Qed.

(** * Correctness of the queue *)

(** What a client does with a queue, and what it sees. *)
Inductive queue_op :=
  | OpPush (proc : Z)
  | OpPop
  | OpRemove (proc : Z)
  | OpPeek
  | OpContains (proc : Z).

Inductive queue_out :=
  | OutNone
  | OutProc (p : option Z)
  | OutBool (b : bool).

Definition queue_exec (op : queue_op) (q : process_queue) : prog pcbs (queue_out * process_queue) :=
  match op with
  | OpPush p => q' ← queue_push q p; mret (OutNone, q')
  | OpPop => '(r, q') ← queue_pop q; mret (OutProc r, q')
  | OpRemove p => q' ← queue_remove q p; mret (OutNone, q')
  | OpPeek => mret (OutProc (queue_peek q), q)
  | OpContains p => b ← queue_contains q p; mret (OutBool b, q)
  end.

Fixpoint queue_execs (ops : list queue_op) (q : process_queue) : prog pcbs (list queue_out * process_queue) :=
  match ops with
  | [] => mret ([], q)
  | op :: ops =>
      '(o, q') ← queue_exec op q;
      '(os, q'') ← queue_execs ops q';
      mret (o :: os, q'')
  end.

(** The same operations on a list. *)
Definition list_exec (op : queue_op) (l : list Z) : queue_out * list Z :=
  match op with
  | OpPush p => (OutNone, l ++ [p])
  | OpPop => (OutProc (head l), tail l)
  | OpRemove p => (OutNone, filter (.≠ p) l)
  | OpPeek => (OutProc (head l), l)
  | OpContains p => (OutBool (bool_decide (p ∈ l)), l)
  end.

Fixpoint list_execs (ops : list queue_op) (l : list Z) : list queue_out * list Z :=
  match ops with
  | [] => ([], l)
  | op :: ops => let '(o, l') := list_exec op l in let '(os, l'') := list_execs ops l' in (o :: os, l'')
  end.

(** Only slots of the table that are not queued are pushed. *)
Fixpoint pushes_ok (ops : list queue_op) (l : list Z) : Prop :=
  match ops with
  | [] => True
  | op :: ops =>
      match op with OpPush p => slot_ok p /\ p ∉ l | _ => True end /\ pushes_ok ops (snd (list_exec op l))
  end.

Lemma queue_exec_ok s q l op :
  table_wf s -> queue_rep s q l -> pushes_ok [op] l ->
  runs (queue_exec op q) s (fun r s' =>
    fst r = fst (list_exec op l) /\ queue_rep s' (snd r) (snd (list_exec op l)) /\ table_wf s').
Proof.
  intros Hwf Hrep [Hp _]. destruct op as [p| |p| |p]; cbn [queue_exec list_exec fst snd]; run.
  - eapply runs_mono; [eapply queue_push_ok; [done|done|apply Hp|apply Hp]|]. intros q' s' [Hr Hl]. run. split_and!; try done. by eapply relinked_wf.
  - eapply runs_mono; [by eapply queue_pop_ok|]. intros [r q'] s' HQ. destruct l as [|i l]; run; cbn [fst snd] in *.
    + destruct HQ as [[= -> ->] ->]. by split_and!.
    + destruct HQ as (-> & Hr & Hl). split_and!; try done. by eapply relinked_wf.
  - eapply runs_mono; [by eapply queue_remove_ok|]. intros q' s' [Hr Hl]. run. split_and!; try done. by eapply relinked_wf.
  - cbn [fst snd]. unfold queue_peek. by rewrite (qr_head _ _ _ Hrep).
  - eapply runs_mono; [by eapply queue_contains_ok|]. intros b s' [-> ->]. by run.
Qed.

(** [queue_push] does not look whether the process is queued: pushed a second
    time, the only process of a queue becomes its own successor, and a search
    for another process does not end within any number of steps. *)
Lemma push_twice_loops s q i :
  table_wf s -> queue_rep s q [i] ->
  runs (queue_push q i) s (fun q' s' => q_head q' = Some i /\ link s' i (Some i) /\
    forall fuel other, other <> i -> queue_contains_loop fuel other (q_head q') s' = None).
Proof.
  intros Hwf [_ Hsl Hh Ht _ _]. inversion Hsl as [|? ? Hi _]; subst. unfold queue_push. run. apply runs_set_next; [done|done|].
  intros s1 Hr1 _. rewrite Ht. cbn [last]. run. apply runs_set_next; [by eapply relinked_wf|done|]. intros s2 _ Hl2. run.
  split; [exact Hh|]. split; [done|]. intros fuel other Hne. cbn [q_head]. rewrite Hh. cbn [head hd_error].
  induction fuel as [|fuel IH]; cbn [queue_contains_loop]; [done|]. rewrite (proj2 (Z.eqb_neq _ _)) by done.
  destruct Hl2 as (p & Hp & Hn). destruct (runs_get_pcb i s2 p (fun x s' => x = p /\ s' = s2) Hp (conj eq_refl eq_refl)) as (? & ? & E & -> & ->).
  unfold mbind, prog_bind. rewrite E, Hn. exact IH.
Qed.

(** C4: the intrusive queue refines a list.  Any sequence of push, pop,
    remove, peek and contains, in which only slots not in the queue are
    pushed, terminates without fault, returns exactly what the same
    operations return on a list (first in, first out), and leaves the queue
    representing that list. *)
Theorem queue_refines_list s q l ops :
  table_wf s -> queue_rep s q l -> pushes_ok ops l ->
  runs (queue_execs ops q) s (fun r s' =>
    fst r = fst (list_execs ops l) /\ queue_rep s' (snd r) (snd (list_execs ops l)) /\ table_wf s').
Proof.
  revert s q l. induction ops as [|op ops IH]; intros s q l Hwf Hrep Hok; cbn [queue_execs list_execs]; run; [done|].
  destruct Hok as [Hp Hok]. eapply runs_mono; [by apply (queue_exec_ok s q l op)|].
  intros [o q1] s1 (Ho & Hrep1 & Hwf1). cbn [fst snd] in *. run. subst o.
  destruct (list_exec op l) as [o l1]. cbn [fst snd] in *.
  eapply runs_mono; [by apply IH|]. intros [os q2] s2 (Hos & Hrep2 & Hwf2). run.
  destruct (list_execs ops l1) as [os' l2]. cbn [fst snd] in *. by subst.
Qed.

Lemma queue_refines_list_witness :
  runs (queue_execs [OpPush 3; OpPush 7; OpPush 5; OpRemove 7; OpPop; OpContains 5] queue_init) boot_pcbs
    (fun r s' => fst r = [OutNone; OutNone; OutNone; OutNone; OutProc (Some 3); OutBool true] /\
      queue_rep s' (snd r) [5] /\ table_wf s').
Proof.
  apply (queue_refines_list boot_pcbs queue_init []).
  - split; [reflexivity|split; vm_compute; [discriminate|reflexivity]].
  - split; try done; constructor.
  - cbn. unfold slot_ok, MAX_PROCESSES. split_and!; try done; try lia; set_solver.
Defined.

End Queue.
