(* ===== verification/Sched.v ===== *)
(** The schedulers (src/scheduler/): the dispatcher of scheduler.c and the
    four algorithms fcfs.c, rr.c, priority.c and mlq.c behind its table of
    operations. *)
From S2P Require Import Prelude Pcb Queue.
From stdpp Require Import strings.
#[local] Open Scope Z_scope.

Module Sched.
Import Pcb Queue.

Definition QUANTUM_DEFAULT : Z := 3.

(** [scheduler_id_t] *)
Definition SCHED_FCFS : Z := 0.
Definition SCHED_RR : Z := 1.
Definition SCHED_PRIORITY : Z := 2.
Definition SCHED_MLQ : Z := 3.
Definition SCHED_COUNT : Z := 4.

(** [scheduler_stats_t] *)
Record scheduler_stats := mk_stats {
  st_name : string;
  context_switches : Z;
  idle_ticks : Z;
  st_total_ticks : Z;
  processes_completed : Z;
  queue_depth : Z }.

Definition zero_stats (n : string) : scheduler_stats := mk_stats n 0 0 0 0 0.

Definition count_switch (t : scheduler_stats) : scheduler_stats :=
  mk_stats (st_name t) (u64 (context_switches t + 1)) (idle_ticks t) (st_total_ticks t) (processes_completed t) (queue_depth t).
Definition count_tick (t : scheduler_stats) : scheduler_stats :=
  mk_stats (st_name t) (context_switches t) (idle_ticks t) (u64 (st_total_ticks t + 1)) (processes_completed t) (queue_depth t).
Definition count_idle (t : scheduler_stats) : scheduler_stats :=
  mk_stats (st_name t) (context_switches t) (u64 (idle_ticks t + 1)) (st_total_ticks t) (processes_completed t) (queue_depth t).
Definition with_depth (n : string) (d : Z) (t : scheduler_stats) : scheduler_stats :=
  mk_stats n (context_switches t) (idle_ticks t) (st_total_ticks t) (processes_completed t) d.

(** The static variables of each algorithm. *)
Record fcfs := mk_fcfs { fcfs_queue : process_queue; fcfs_stats : scheduler_stats }.
Record rr := mk_rr { rr_queue : process_queue; rr_stats : scheduler_stats; rr_current_ticks : Z }.
Record prio := mk_prio { priority_queues : list process_queue; prio_stats : scheduler_stats; prio_current_ticks : Z }.
Record mlq := mk_mlq { mlq_queues : list process_queue; mlq_stats : scheduler_stats; mlq_level_ticks : list Z }.

(** The state the schedulers work on: the process table, [current_process],
    [scheduler_need_resched], the dispatcher's [g_scheduler] (NULL or one of
    the four tables, named by its id) and [g_sched_id], the four algorithms. *)
Record sched := mk_sched {
  s_pcbs : pcbs;
  current_process : option Z;
  need_resched : Z;
  g_scheduler : option Z;
  g_sched_id : Z;
  s_fcfs : fcfs;
  s_rr : rr;
  s_prio : prio;
  s_mlq : mlq }.

Definition set_pcbs (x : pcbs) (s : sched) : sched :=
  mk_sched x (current_process s) (need_resched s) (g_scheduler s) (g_sched_id s) (s_fcfs s) (s_rr s) (s_prio s) (s_mlq s).
Definition set_current (x : option Z) (s : sched) : sched :=
  mk_sched (s_pcbs s) x (need_resched s) (g_scheduler s) (g_sched_id s) (s_fcfs s) (s_rr s) (s_prio s) (s_mlq s).
Definition set_need_resched (x : Z) (s : sched) : sched :=
  mk_sched (s_pcbs s) (current_process s) x (g_scheduler s) (g_sched_id s) (s_fcfs s) (s_rr s) (s_prio s) (s_mlq s).
Definition set_g_scheduler (x : option Z) (s : sched) : sched :=
  mk_sched (s_pcbs s) (current_process s) (need_resched s) x (g_sched_id s) (s_fcfs s) (s_rr s) (s_prio s) (s_mlq s).
Definition set_g_sched_id (x : Z) (s : sched) : sched :=
  mk_sched (s_pcbs s) (current_process s) (need_resched s) (g_scheduler s) x (s_fcfs s) (s_rr s) (s_prio s) (s_mlq s).
Definition set_fcfs (x : fcfs) (s : sched) : sched :=
  mk_sched (s_pcbs s) (current_process s) (need_resched s) (g_scheduler s) (g_sched_id s) x (s_rr s) (s_prio s) (s_mlq s).
Definition set_rr (x : rr) (s : sched) : sched :=
  mk_sched (s_pcbs s) (current_process s) (need_resched s) (g_scheduler s) (g_sched_id s) (s_fcfs s) x (s_prio s) (s_mlq s).
Definition set_prio (x : prio) (s : sched) : sched :=
  mk_sched (s_pcbs s) (current_process s) (need_resched s) (g_scheduler s) (g_sched_id s) (s_fcfs s) (s_rr s) x (s_mlq s).
Definition set_mlq (x : mlq) (s : sched) : sched :=
  mk_sched (s_pcbs s) (current_process s) (need_resched s) (g_scheduler s) (g_sched_id s) (s_fcfs s) (s_rr s) (s_prio s) x.

(** Code that works on the process table only. *)
Definition on_pcbs {A} (m : prog pcbs A) : prog sched A := fun s =>
  '(a, x) ← m (s_pcbs s); Some (a, set_pcbs x s).

(** The test of the tick functions: PID 1 is the idle process. *)
Definition current_counts : prog sched bool :=
  c ← gets current_process;
  match c with
  | None => mret false
  | Some i => p ← on_pcbs (get_pcb i); mret (1 <? pid p)
  end.

(** * First come, first served *)

Definition fcfs_init : prog sched unit := modify (set_fcfs (mk_fcfs queue_init (zero_stats "FCFS"))).

Definition fcfs_add (proc : Z) : prog sched unit :=
  f ← gets s_fcfs;
  q ← on_pcbs (queue_push (fcfs_queue f) proc);
  modify (set_fcfs (mk_fcfs q (fcfs_stats f))).

Definition fcfs_remove (proc : Z) : prog sched unit :=
  f ← gets s_fcfs;
  q ← on_pcbs (queue_remove (fcfs_queue f) proc);
  modify (set_fcfs (mk_fcfs q (fcfs_stats f))).

Definition fcfs_next : prog sched (option Z) :=
  f ← gets s_fcfs;
  '(next, q) ← on_pcbs (queue_pop (fcfs_queue f));
  _ ← modify (set_fcfs (mk_fcfs q (match next with Some _ => count_switch (fcfs_stats f) | None => fcfs_stats f end)));
  mret next.

Definition fcfs_get_stats : prog sched scheduler_stats :=
  f ← gets s_fcfs;
  let st := with_depth (st_name (fcfs_stats f)) (q_count (fcfs_queue f)) (fcfs_stats f) in
  _ ← modify (set_fcfs (mk_fcfs (fcfs_queue f) st));
  mret (with_depth "FCFS" (queue_depth st) st).

(** * Round robin *)

Definition rr_init : prog sched unit := modify (set_rr (mk_rr queue_init (zero_stats "Round Robin") 0)).

Definition rr_add (proc : Z) : prog sched unit :=
  r ← gets s_rr;
  q ← on_pcbs (queue_push (rr_queue r) proc);
  modify (set_rr (mk_rr q (rr_stats r) (rr_current_ticks r))).

Definition rr_remove (proc : Z) : prog sched unit :=
  r ← gets s_rr;
  q ← on_pcbs (queue_remove (rr_queue r) proc);
  modify (set_rr (mk_rr q (rr_stats r) (rr_current_ticks r))).

Definition rr_next : prog sched (option Z) :=
  r ← gets s_rr;
  '(next, q) ← on_pcbs (queue_pop (rr_queue r));
  _ ← modify (set_rr (match next with
                      | Some _ => mk_rr q (count_switch (rr_stats r)) 0
                      | None => mk_rr q (rr_stats r) (rr_current_ticks r)
                      end));
  mret next.

Definition rr_tick : prog sched unit :=
  r ← gets s_rr;
  let st := count_tick (rr_stats r) in
  counts ← current_counts;
  if (counts : bool) then
    let ticks := u32 (rr_current_ticks r + 1) in
    _ ← modify (set_rr (mk_rr (rr_queue r) st ticks));
    if QUANTUM_DEFAULT <=? ticks then modify (set_need_resched 1) else mret tt
  else modify (set_rr (mk_rr (rr_queue r) (count_idle st) (rr_current_ticks r))).

Definition rr_get_stats : prog sched scheduler_stats :=
  r ← gets s_rr;
  let st := with_depth (st_name (rr_stats r)) (q_count (rr_queue r)) (rr_stats r) in
  _ ← modify (set_rr (mk_rr (rr_queue r) st (rr_current_ticks r)));
  mret (with_depth "Round Robin" (queue_depth st) st).

(** * Priority *)

Definition PRIO_QUEUES : Z := PRIORITY_COUNT.

Definition prio_init : prog sched unit :=
  modify (set_prio (mk_prio (replicate (Z.to_nat PRIO_QUEUES) queue_init) (zero_stats "Priority") 0)).

(** The shared steps on an array of queues: [queues[i]] popped, pushed, searched. *)
Definition queues_push (qs : list process_queue) (level proc : Z) : prog sched (list process_queue) :=
  q ← need (arr_get qs level);
  q' ← on_pcbs (queue_push q proc);
  need (arr_set qs level q').

(** [for (i...) if (queue_contains(&queues[i], proc)) { queue_remove(...); return; }] *)
Fixpoint queues_remove (n : nat) (i : Z) (qs : list process_queue) (proc : Z) : prog sched (list process_queue) :=
  match n with
  | O => mret qs
  | S n =>
      q ← need (arr_get qs i);
      b ← on_pcbs (queue_contains q proc);
      if (b : bool) then
        q' ← on_pcbs (queue_remove q proc);
        need (arr_set qs i q')
      else queues_remove n (i + 1) qs proc
  end.

(** Pop the first non-empty queue, in the order of the indices [ids]. *)
Fixpoint queues_pop (ids : list Z) (qs : list process_queue) : prog sched (option Z * list process_queue) :=
  match ids with
  | [] => mret (None, qs)
  | i :: ids =>
      q ← need (arr_get qs i);
      '(next, q') ← on_pcbs (queue_pop q);
      qs' ← need (arr_set qs i q');
      match next with
      | Some p => mret (Some p, qs')
      | None => queues_pop ids qs'
      end
  end.

Definition queues_depth (qs : list process_queue) : Z := foldl (fun d q => u32 (d + q_count q)) 0 qs.

Definition prio_add (proc : Z) : prog sched unit :=
  p ← on_pcbs (get_pcb proc);
  let level := if PRIO_QUEUES <=? priority p then PRIO_QUEUES - 1 else priority p in
  r ← gets s_prio;
  qs ← queues_push (priority_queues r) level proc;
  modify (set_prio (mk_prio qs (prio_stats r) (prio_current_ticks r))).

Definition prio_remove (proc : Z) : prog sched unit :=
  r ← gets s_prio;
  qs ← queues_remove (Z.to_nat PRIO_QUEUES) 0 (priority_queues r) proc;
  modify (set_prio (mk_prio qs (prio_stats r) (prio_current_ticks r))).

(** [for (i = PRIO_QUEUES - 1; i >= 0; i--)] *)
Definition prio_next : prog sched (option Z) :=
  r ← gets s_prio;
  '(next, qs) ← queues_pop [3; 2; 1; 0] (priority_queues r);
  _ ← modify (set_prio (match next with
                        | Some _ => mk_prio qs (count_switch (prio_stats r)) 0
                        | None => mk_prio qs (prio_stats r) (prio_current_ticks r)
                        end));
  mret next.

Definition prio_tick : prog sched unit :=
  r ← gets s_prio;
  let st := count_tick (prio_stats r) in
  counts ← current_counts;
  if (counts : bool) then
    let ticks := u32 (prio_current_ticks r + 1) in
    _ ← modify (set_prio (mk_prio (priority_queues r) st ticks));
    if QUANTUM_DEFAULT <=? ticks then modify (set_need_resched 1) else mret tt
  else modify (set_prio (mk_prio (priority_queues r) (count_idle st) (prio_current_ticks r))).

Definition prio_get_stats : prog sched scheduler_stats :=
  r ← gets s_prio;
  let st := with_depth (st_name (prio_stats r)) (queues_depth (priority_queues r)) (prio_stats r) in
  _ ← modify (set_prio (mk_prio (priority_queues r) st (prio_current_ticks r)));
  mret (with_depth "Priority" (queue_depth st) st).

(** * Multi-level queue *)

Definition MLQ_LEVELS : Z := 4.
Definition mlq_quanta : list Z := [2; 4; 6; 8].

Definition mlq_level_of (priority : Z) : Z :=
  if PRIORITY_REALTIME <=? priority then 0
  else if PRIORITY_HIGH <=? priority then 1
  else if PRIORITY_NORMAL <=? priority then 2
  else 3.

Definition mlq_init : prog sched unit :=
  modify (set_mlq (mk_mlq (replicate (Z.to_nat MLQ_LEVELS) queue_init) (zero_stats "MLQ")
                     (replicate (Z.to_nat MLQ_LEVELS) 0))).

Definition mlq_add (proc : Z) : prog sched unit :=
  p ← on_pcbs (get_pcb proc);
  r ← gets s_mlq;
  qs ← queues_push (mlq_queues r) (mlq_level_of (priority p)) proc;
  modify (set_mlq (mk_mlq qs (mlq_stats r) (mlq_level_ticks r))).

Definition mlq_remove (proc : Z) : prog sched unit :=
  r ← gets s_mlq;
  qs ← queues_remove (Z.to_nat MLQ_LEVELS) 0 (mlq_queues r) proc;
  modify (set_mlq (mk_mlq qs (mlq_stats r) (mlq_level_ticks r))).

Definition mlq_next : prog sched (option Z) :=
  r ← gets s_mlq;
  '(next, qs) ← queues_pop [0; 1; 2; 3] (mlq_queues r);
  _ ← modify (set_mlq (match next with
                       | Some _ => mk_mlq qs (count_switch (mlq_stats r)) (replicate (Z.to_nat MLQ_LEVELS) 0)
                       | None => mk_mlq qs (mlq_stats r) (mlq_level_ticks r)
                       end));
  mret next.

Definition mlq_tick : prog sched unit :=
  r ← gets s_mlq;
  let st := count_tick (mlq_stats r) in
  counts ← current_counts;
  if (counts : bool) then
    c ← gets current_process;
    i ← need c;
    p ← on_pcbs (get_pcb i);
    let level := mlq_level_of (priority p) in
    t ← need (arr_get (mlq_level_ticks r) level);
    ts ← need (arr_set (mlq_level_ticks r) level (u32 (t + 1)));
    quantum ← need (arr_get mlq_quanta level);
    _ ← modify (set_mlq (mk_mlq (mlq_queues r) st ts));
    if quantum <=? u32 (t + 1) then modify (set_need_resched 1) else mret tt
  else modify (set_mlq (mk_mlq (mlq_queues r) (count_idle st) (mlq_level_ticks r))).

Definition mlq_get_stats : prog sched scheduler_stats :=
  r ← gets s_mlq;
  let st := with_depth (st_name (mlq_stats r)) (queues_depth (mlq_queues r)) (mlq_stats r) in
  _ ← modify (set_mlq (mk_mlq (mlq_queues r) st (mlq_level_ticks r)));
  mret (with_depth "MLQ" (queue_depth st) st).

(** * The dispatcher *)

(** [scheduler_ops_t]; a NULL [tick] is [None]. *)
Record scheduler_ops := mk_ops {
  op_name : string;
  op_init : prog sched unit;
  op_add : Z -> prog sched unit;
  op_remove : Z -> prog sched unit;
  op_next : prog sched (option Z);
  op_tick : option (prog sched unit);
  op_get_stats : prog sched scheduler_stats }.

Definition fcfs_ops : scheduler_ops := mk_ops "FCFS" fcfs_init fcfs_add fcfs_remove fcfs_next None fcfs_get_stats.
Definition rr_ops : scheduler_ops := mk_ops "Round Robin" rr_init rr_add rr_remove rr_next (Some rr_tick) rr_get_stats.
Definition priority_ops : scheduler_ops :=
  mk_ops "Priority" prio_init prio_add prio_remove prio_next (Some prio_tick) prio_get_stats.
Definition mlq_ops : scheduler_ops := mk_ops "MLQ" mlq_init mlq_add mlq_remove mlq_next (Some mlq_tick) mlq_get_stats.

(** The table an id selects; [None] is the default case of the switch. *)
Definition ops_of (id : Z) : option scheduler_ops :=
  if id =? SCHED_FCFS then Some fcfs_ops
  else if id =? SCHED_RR then Some rr_ops
  else if id =? SCHED_PRIORITY then Some priority_ops
  else if id =? SCHED_MLQ then Some mlq_ops
  else None.

Definition scheduler_set (id : Z) : prog sched unit :=
  _ ← modify (set_g_sched_id id);
  match ops_of id with
  | None => mret tt
  | Some ops => _ ← modify (set_g_scheduler (Some id)); op_init ops
  end.

(** The operations [g_scheduler] points to. *)
Definition g_ops : prog sched (option scheduler_ops) := g ← gets g_scheduler; mret (g ≫= ops_of).

Definition scheduler_add (proc : Z) : prog sched unit :=
  o ← g_ops; match o with Some ops => op_add ops proc | None => mret tt end.

Definition scheduler_remove (proc : Z) : prog sched unit :=
  o ← g_ops; match o with Some ops => op_remove ops proc | None => mret tt end.

Definition scheduler_next : prog sched (option Z) :=
  o ← g_ops; match o with Some ops => op_next ops | None => mret None end.

Definition scheduler_tick : prog sched unit :=
  o ← g_ops;
  match o with
  | Some ops => match op_tick ops with Some tick => tick | None => mret tt end
  | None => mret tt
  end.

Definition scheduler_get_current : prog sched Z := gets g_sched_id.

(** [None]: the caller's buffer is left as it was. *)
Definition scheduler_get_stats : prog sched (option scheduler_stats) :=
  o ← g_ops; match o with Some ops => st ← op_get_stats ops; mret (Some st) | None => mret None end.

Definition scheduler_name (id : Z) : string :=
  if id =? SCHED_FCFS then "FCFS"
  else if id =? SCHED_RR then "Round Robin"
  else if id =? SCHED_PRIORITY then "Priority"
  else if id =? SCHED_MLQ then "MLQ"
  else "Unknown".

(** * What a scheduler promises *)

(** Dispatch order: [p] goes behind every process of its rank or a better
    (smaller) one. *)
Fixpoint insert_rank (rk : Z -> Z) (p : Z) (l : list Z) : list Z :=
  match l with
  | [] => [p]
  | x :: l => if rk p <? rk x then p :: x :: l else x :: insert_rank rk p l
  end.

Definition prio_in (x : pcbs) (i : Z) : Z := default 0 (priority <$> arr_get (pcb_table x) i).

(** What no scheduler operation touches, the process table apart. *)
Definition frame (s s' : sched) : Prop :=
  current_process s' = current_process s /\ need_resched s' = need_resched s /\
  g_scheduler s' = g_scheduler s /\ g_sched_id s' = g_sched_id s.

(** The contract between the dispatcher and an algorithm: [rep s l] says that
    the algorithm holds the processes [l] in this dispatch order; [rank] is
    the rank it gives a priority. *)
Class SchedulerLaws (ops : scheduler_ops) (rank : Z -> Z) (rep : sched -> list Z -> Prop) := {
  sl_slots s l : rep s l -> NoDup l /\ Forall slot_ok l;
  sl_init s : runs (op_init ops) s (fun _ s' => rep s' [] /\ s_pcbs s' = s_pcbs s /\ frame s s');
  sl_add s l p : table_wf (s_pcbs s) -> rep s l -> slot_ok p -> p ∉ l -> 0 <= prio_in (s_pcbs s) p ->
    runs (op_add ops p) s (fun _ s' =>
      rep s' (insert_rank (fun i => rank (prio_in (s_pcbs s) i)) p l) /\
      relinked (s_pcbs s) (s_pcbs s') (p :: l) /\ frame s s');
  sl_remove s l p : table_wf (s_pcbs s) -> rep s l ->
    runs (op_remove ops p) s (fun _ s' =>
      rep s' (filter (.≠ p) l) /\ relinked (s_pcbs s) (s_pcbs s') l /\ frame s s');
  sl_next s l : table_wf (s_pcbs s) -> rep s l ->
    runs (op_next ops) s (fun r s' =>
      r = head l /\ rep s' (tail l) /\ relinked (s_pcbs s) (s_pcbs s') l /\ frame s s') }.

Lemma insert_rank_app rk p l1 l2 :
  (forall y, y ∈ l1 -> rk y <= rk p) -> (forall y, y ∈ l2 -> rk p < rk y) ->
  insert_rank rk p (l1 ++ l2) = l1 ++ p :: l2.
Proof.
  intros H1 H2. induction l1 as [|x l1 IH]; cbn [app insert_rank].
  - destruct l2 as [|x l2]; [done|]. cbn [insert_rank]. rewrite (proj2 (Z.ltb_lt _ _)) by (apply H2; set_solver). done.
  - rewrite (proj2 (Z.ltb_ge _ _)) by (apply H1; set_solver). rewrite IH; [done|]. intros y Hy. apply H1. set_solver.
Qed.

Lemma runs_on_pcbs {A} (m : prog pcbs A) s (Q : A -> sched -> Prop) :
  runs m (s_pcbs s) (fun a x => Q a (set_pcbs x s)) -> runs (on_pcbs m) s Q.
Proof.
  intros (a & x & Hm & HQ). exists a, (set_pcbs x s). split; [|done]. unfold on_pcbs. by rewrite Hm.
Qed.

Lemma relinked_prio x x' X i : relinked x x' X -> prio_in x' i = prio_in x i.
Proof.
  intros Hr. unfold prio_in. pose proof (rl_core _ _ _ Hr i) as H.
  destruct (arr_get (pcb_table x') i), (arr_get (pcb_table x) i); cbn in *; simplify_eq; congruence.
Qed.

Definition fcfs_rep (s : sched) (l : list Z) : Prop := queue_rep (s_pcbs s) (fcfs_queue (s_fcfs s)) l.
Definition rr_rep (s : sched) (l : list Z) : Prop := queue_rep (s_pcbs s) (rr_queue (s_rr s)) l.

Lemma queue_init_rep x : queue_rep x queue_init [].
Proof. split; (done || constructor). Qed.

(** With one rank, dispatch order is the order of arrival. *)
Lemma insert_rank_const p l (c : Z) : insert_rank (fun _ => c) p l = l ++ [p].
Proof. rewrite <- (app_nil_r l) at 1. apply insert_rank_app; [lia|set_solver]. Qed.

(** The steps of the two algorithms with a single queue. *)
Ltac single_queue :=
  run; apply runs_on_pcbs; eapply runs_mono;
  [first [by eapply queue_push_ok | by eapply queue_remove_ok | by eapply queue_pop_ok]|].

#[export] Instance fcfs_laws : SchedulerLaws fcfs_ops (fun _ => 0) fcfs_rep.
Proof.
  split; cbn [op_init op_add op_remove op_next fcfs_ops]; unfold fcfs_rep.
  - intros s l H. by destruct H.
  - intros s. unfold fcfs_init. run. split_and!; try done. apply queue_init_rep.
  - intros s l p Hwf Hrep Hp Hn _. unfold fcfs_add. single_queue. intros q x [Hr Hl]. run.
    rewrite insert_rank_const. by split_and!.
  - intros s l p Hwf Hrep. unfold fcfs_remove. single_queue. intros q x [Hr Hl]. run. by split_and!.
  - intros s l Hwf Hrep. unfold fcfs_next. single_queue. intros [r q] x HQ. run.
    destruct l as [|i l]; cbn [fst snd] in HQ.
    + destruct HQ as [[= -> ->] ->]. by split_and!.
    + destruct HQ as (-> & Hr & Hl). split_and!; try done. eapply relinked_sub; [exact Hl|]. intros j; set_solver.
Qed.

#[export] Instance rr_laws : SchedulerLaws rr_ops (fun _ => 0) rr_rep.
Proof.
  split; cbn [op_init op_add op_remove op_next rr_ops]; unfold rr_rep.
  - intros s l H. by destruct H.
  - intros s. unfold rr_init. run. split_and!; try done. apply queue_init_rep.
  - intros s l p Hwf Hrep Hp Hn _. unfold rr_add. single_queue. intros q x [Hr Hl]. run.
    rewrite insert_rank_const. by split_and!.
  - intros s l p Hwf Hrep. unfold rr_remove. single_queue. intros q x [Hr Hl]. run. by split_and!.
  - intros s l Hwf Hrep. unfold rr_next. single_queue. intros [r q] x HQ. run.
    destruct l as [|i l]; cbn [fst snd] in HQ.
    + destruct HQ as [[= -> ->] ->]. by split_and!.
    + destruct HQ as (-> & Hr & Hl). split_and!; try done. eapply relinked_sub; [exact Hl|]. intros j; set_solver.
Qed.

(** * Arrays of queues *)

(** The queue with index [i] holds the list [l]. *)
Definition level_rep (x : pcbs) (qs : list process_queue) (i : Z) (l : list Z) : Prop :=
  exists q, arr_get qs i = Some q /\ queue_rep x q l.

Lemma levels_frame x x' qs qs' X ids ls :
  Forall2 (level_rep x qs) ids ls -> relinked x x' X -> concat ls ## X ->
  (forall i, i ∈ ids -> arr_get qs' i = arr_get qs i) -> Forall2 (level_rep x' qs') ids ls.
Proof.
  intros H Hr Hd Hq. induction H as [|i l ids ls (q & Hi & Hl) H IH]; [constructor|].
  cbn [concat] in Hd. constructor.
  - exists q. rewrite Hq by (apply elem_of_cons; by left). split; [done|]. eapply queue_rep_frame; [exact Hr| |done]. set_solver.
  - apply IH; [set_solver|]. intros j Hj. apply Hq, elem_of_cons. by right.
Qed.

(** Replacing one queue of the array. *)
Lemma levels_update x x' qs qs' X ids1 i ids2 ls1 l ls2 q' l' :
  Forall2 (level_rep x qs) (ids1 ++ i :: ids2) (ls1 ++ l :: ls2) -> length ids1 = length ls1 ->
  NoDup (ids1 ++ i :: ids2) ->
  relinked x x' X -> concat ls1 ## X -> concat ls2 ## X ->
  arr_set qs i q' = Some qs' -> queue_rep x' q' l' ->
  Forall2 (level_rep x' qs') (ids1 ++ i :: ids2) (ls1 ++ l' :: ls2).
Proof.
  intros H Hlen Hnd Hr Hd1 Hd2 Hset Hrep. apply Forall2_app_inv in H as [H1 H2]; [|done].
  apply Forall2_cons in H2 as [_ H2]. apply NoDup_app in Hnd as (_ & Hni & Hnd2). apply NoDup_cons in Hnd2 as [Hi2 _].
  assert (Hoth : forall j, j <> i -> arr_get qs' j = arr_get qs j).
  { intros j Hj. rewrite (arr_get_set _ _ _ j _ Hset), (proj2 (Z.eqb_neq j i)) by done. done. }
  apply Forall2_app; [|apply Forall2_cons; split].
  - eapply levels_frame; [exact H1|exact Hr|done|]. intros j Hj. apply Hoth. intros ->. apply (Hni i Hj). set_solver.
  - exists q'. by rewrite (arr_get_set _ _ _ i _ Hset), Z.eqb_refl.
  - eapply levels_frame; [exact H2|exact Hr|done|]. intros j Hj. apply Hoth. by intros ->.
Qed.

Lemma arr_set_get_same {A} (l : list A) i x : arr_get l i = Some x -> arr_set l i x = Some l.
Proof.
  intros H. pose proof (arr_get_Some _ _ _ H) as Hi. rewrite arr_set_in by done. f_equal.
  unfold arr_get in H. destruct (0 <=? i); [|done]. by apply list_insert_id.
Qed.

Lemma arr_set_get {A} (l : list A) i x y : arr_get l i = Some x -> exists l', arr_set l i y = Some l'.
Proof. intros H%arr_get_Some. eexists. by apply arr_set_in. Qed.

(** Popping scans past the empty queues. *)
Lemma queues_pop_ok ids ls qs s :
  table_wf (s_pcbs s) -> Forall2 (level_rep (s_pcbs s) qs) ids ls ->
  runs (queues_pop ids qs) s (fun r s' => exists x',
    s' = set_pcbs x' s /\
    match concat ls with
    | [] => r = (None, qs) /\ x' = s_pcbs s
    | i :: _ => fst r = Some i /\ relinked (s_pcbs s) x' [i] /\
        exists ids1 k ids2 ls1 l ls2 q',
          ids = ids1 ++ k :: ids2 /\ ls = ls1 ++ (i :: l) :: ls2 /\ length ids1 = length ls1 /\ concat ls1 = [] /\
          arr_set qs k q' = Some (snd r) /\ queue_rep x' q' l
    end).
Proof.
  intros Hwf. revert ls. induction ids as [|k ids IH]; intros ls H; inversion H as [|? l ? ls' (q & Hq & Hl) H']; subst.
  { cbn [queues_pop]. run. exists (s_pcbs s). split; [by destruct s|done]. }
  cbn [queues_pop]. run. eapply runs_need; [exact Hq|]. run. apply runs_on_pcbs.
  eapply runs_mono; [by eapply queue_pop_ok|]. intros [r q'] x HQ. destruct l as [|i l]; cbn [fst snd] in HQ.
  - destruct HQ as [[= -> ->] ->]. run. eapply runs_need; [by apply arr_set_get_same|].
    replace (set_pcbs (s_pcbs s) s) with s by by destruct s.
    eapply runs_mono; [by apply IH|]. intros r s' (x' & -> & Hr). exists x'. split; [done|]. cbn [concat app].
    destruct (concat ls') as [|i rest]; [done|].
    destruct Hr as (Hf & Hrl & ids1 & k' & ids2 & ls1 & l & ls2 & q' & -> & -> & Hlen & Hc & Hs & Hrep).
    split_and!; try done. exists (k :: ids1), k', ids2, ([] :: ls1), l, ls2, q'. cbn [length app concat].
    split_and!; try done; congruence.
  - destruct HQ as (-> & Hr & Hl'). run. destruct (arr_set_get qs k q q' Hq) as [qs' Hs].
    eapply runs_need; [exact Hs|]. run. exists x. split; [done|]. cbn [concat app]. split_and!; [done|done|].
    by exists [], k, ids, [], l, ls', q'.
Qed.

(** Removing searches the queues in array order. *)
Lemma queues_remove_ok n qs p s : forall i ls,
  table_wf (s_pcbs s) -> Forall2 (level_rep (s_pcbs s) qs) (seqZ i (Z.of_nat n)) ls ->
  runs (queues_remove n i qs p) s (fun qs' s' => exists x',
    s' = set_pcbs x' s /\
    (p ∉ concat ls /\ qs' = qs /\ x' = s_pcbs s \/
     exists ids1 k ids2 ls1 l ls2 q',
       seqZ i (Z.of_nat n) = ids1 ++ k :: ids2 /\ ls = ls1 ++ l :: ls2 /\ length ids1 = length ls1 /\
       p ∈ l /\ arr_set qs k q' = Some qs' /\ queue_rep x' q' (filter (.≠ p) l) /\ relinked (s_pcbs s) x' l)).
Proof.
  induction n as [|n IH]; intros i ls Hwf H.
  { inversion H; subst. cbn [queues_remove]. run. exists (s_pcbs s). split; [by destruct s|].
    left. split_and!; [set_solver|done|done]. }
  rewrite seqZ_cons in H |- * by lia. replace (Z.succ i) with (i + 1) in * by lia.
  replace (Z.pred (Z.of_nat (S n))) with (Z.of_nat n) in * by lia.
  inversion H as [|? l ? ls' (q & Hq & Hl) H']; subst. cbn [queues_remove]. run. eapply runs_need; [exact Hq|]. run.
  apply runs_on_pcbs. eapply runs_mono; [by eapply queue_contains_ok|]. intros b x [-> ->].
  replace (set_pcbs (s_pcbs s) s) with s by by destruct s. destruct (bool_decide (p ∈ l)) eqn:Hp.
  - apply bool_decide_eq_true in Hp. run. apply runs_on_pcbs. eapply runs_mono; [by eapply queue_remove_ok|].
    intros q' x [Hr Hrl]. destruct (arr_set_get qs i q q' Hq) as [qs' Hs]. eapply runs_need; [exact Hs|].
    exists x. split; [done|]. right. by exists [], i, (seqZ (i + 1) (Z.of_nat n)), [], l, ls', q'.
  - apply bool_decide_eq_false in Hp. eapply runs_mono; [by apply IH|]. intros qs' s' (x' & -> & Hc). exists x'. split; [done|].
    destruct Hc as [(Hn & -> & ->)|(ids1 & k & ids2 & ls1 & l2 & ls2 & q' & Hi & -> & Hlen & Hc)].
    + left. cbn [concat]. split_and!; try done. set_solver.
    + right. exists (i :: ids1), k, ids2, (l :: ls1), l2, ls2, q'. cbn [app length]. rewrite Hi. split_and!; try done; congruence || apply Hc.
Qed.

(** The queues [qs], visited in the order [ids], hold [l]; the position of a
    process's queue is its rank. *)
Definition multi_rep (ids : list Z) (x : pcbs) (qs : list process_queue) (l : list Z) : Prop :=
  exists ls, Forall2 (level_rep x qs) ids ls /\ l = concat ls /\ NoDup l /\
    forall k lk j, ls !! k = Some lk -> j ∈ lk -> mlq_level_of (prio_in x j) = Z.of_nat k.

Lemma multi_slots ids x qs l : multi_rep ids x qs l -> NoDup l /\ Forall slot_ok l.
Proof.
  intros (ls & H & -> & Hnd & _). split; [done|]. clear Hnd. induction H as [|i l ids ls (q & _ & Hl) _ IH]; [constructor|].
  cbn [concat]. apply Forall_app. split; [apply Hl|done].
Qed.

Lemma multi_init x : forall ids qs, NoDup ids -> (forall i, i ∈ ids -> arr_get qs i = Some queue_init) ->
  multi_rep ids x qs [].
Proof.
  intros ids qs _ H. exists (replicate (length ids) []). split_and!.
  - induction ids as [|i ids IH]; cbn [length replicate]; constructor.
    + exists queue_init. split; [apply H; set_solver|apply queue_init_rep].
    + apply IH. intros j Hj. apply H. set_solver.
  - induction (length ids); [done|]. cbn. done.
  - constructor.
  - intros k lk j Hk%lookup_replicate_1 Hj. destruct Hk as [-> _]. by apply elem_of_nil in Hj.
Qed.

(** Changing one level of a representation. *)
Lemma multi_update ids1 i ids2 x x' qs qs' X ls1 l ls2 q' l' :
  let ids := ids1 ++ i :: ids2 in
  NoDup ids -> length ids1 = length ls1 ->
  Forall2 (level_rep x qs) ids (ls1 ++ l :: ls2) -> NoDup (concat (ls1 ++ l :: ls2)) ->
  (forall k lk j, (ls1 ++ l :: ls2) !! k = Some lk -> j ∈ lk -> mlq_level_of (prio_in x j) = Z.of_nat k) ->
  relinked x x' X -> concat ls1 ## X -> concat ls2 ## X ->
  arr_set qs i q' = Some qs' -> queue_rep x' q' l' -> NoDup (concat ls1 ++ l' ++ concat ls2) ->
  (forall j, j ∈ l' -> mlq_level_of (prio_in x j) = Z.of_nat (length ls1)) ->
  multi_rep ids x' qs' (concat ls1 ++ l' ++ concat ls2).
Proof.
  intros ids Hnd Hlen H _ Hrk Hr Hd1 Hd2 Hs Hq Hnd' Hl'. exists (ls1 ++ l' :: ls2). split_and!.
  - by eapply levels_update.
  - by rewrite concat_app.
  - done.
  - intros k lk j Hk Hj. rewrite (relinked_prio _ _ _ _ Hr).
    destruct (decide (k = length ls1)) as [->|Hne].
    + rewrite list_lookup_middle in Hk by done. simplify_eq. by apply Hl'.
    + apply (Hrk k lk j); [|done]. rewrite lookup_app in Hk |- *. destruct (ls1 !! k) eqn:E; [done|].
      apply lookup_ge_None_1 in E. destruct (k - length ls1)%nat eqn:Ek; [lia|]. exact Hk.
Qed.

Lemma multi_push ids1 i ids2 qs l p s :
  let ids := ids1 ++ i :: ids2 in
  NoDup ids -> table_wf (s_pcbs s) -> multi_rep ids (s_pcbs s) qs l -> slot_ok p -> p ∉ l ->
  mlq_level_of (prio_in (s_pcbs s) p) = Z.of_nat (length ids1) ->
  runs (queues_push qs i p) s (fun qs' s' => exists x', s' = set_pcbs x' s /\
    multi_rep ids x' qs' (insert_rank (fun j => mlq_level_of (prio_in (s_pcbs s) j)) p l) /\
    relinked (s_pcbs s) x' (p :: l)).
Proof.
  intros ids Hnd Hwf (ls & H & -> & Hndl & Hrk) Hp Hn Hk. pose proof H as H0.
  apply Forall2_app_inv_l in H as (ls1 & ls2' & H1 & H2 & ->).
  apply Forall2_cons_inv_l in H2 as (l & ls2 & (q & Hq & Hl) & H2 & ->).
  pose proof (Forall2_length _ _ _ H1) as Hlen. rewrite concat_app in *. cbn [concat] in *.
  pose proof Hndl as Hnd2. apply NoDup_app in Hnd2 as (_ & Hd1 & Hnd2). apply NoDup_app in Hnd2 as (_ & Hd2 & _).
  unfold queues_push. run. eapply runs_need; [exact Hq|]. run. apply runs_on_pcbs.
  eapply runs_mono; [eapply queue_push_ok; [done|exact Hl|done|set_solver]|].
  intros q' x' [Hr Hrl]. destruct (arr_set_get qs i q q' Hq) as [qs' Hs]. eapply runs_need; [exact Hs|].
  exists x'. split; [done|].
  assert (Hins : insert_rank (fun j => mlq_level_of (prio_in (s_pcbs s) j)) p (concat ls1 ++ l ++ concat ls2)
                 = concat ls1 ++ (l ++ [p]) ++ concat ls2).
  { rewrite (app_assoc (concat ls1)), insert_rank_app.
    - by rewrite <- !app_assoc.
    - intros y [Hy|Hy]%elem_of_app; rewrite Hk.
      + apply elem_of_concat in Hy as (lk & Hy & Hlk). apply list_elem_of_lookup in Hlk as [k Hlk].
        pose proof (lookup_lt_Some _ _ _ Hlk). rewrite (Hrk k lk y); [lia|by apply lookup_app_l_Some|done].
      + rewrite (Hrk (length ls1) l y); [lia|by apply list_lookup_middle|done].
    - intros y Hy. rewrite Hk. apply elem_of_concat in Hy as (lk & Hy & Hlk). apply list_elem_of_lookup in Hlk as [k Hlk].
      rewrite (Hrk (length ls1 + S k)%nat lk y); [lia| |done]. rewrite lookup_app_r by lia.
      by replace (length ls1 + S k - length ls1)%nat with (S k) by lia. }
  rewrite Hins. split; [|eapply relinked_sub; [exact Hrl|]; intros j; set_solver].
  apply (multi_update ids1 i ids2 (s_pcbs s) x' qs qs' (p :: l) ls1 l ls2 q'); try done.
  - rewrite concat_app. done.
  - set_solver.
  - set_solver.
  - apply NoDup_Permutation_proper with (x := p :: concat ls1 ++ l ++ concat ls2).
    + rewrite <- !app_assoc. by rewrite !Permutation_middle.
    + by constructor.
  - intros j [Hj|Hj]%elem_of_app; [|apply list_elem_of_singleton in Hj as ->; congruence].
    apply (Hrk _ l); [by apply list_lookup_middle|done].
Qed.

Lemma multi_pop ids qs l s :
  NoDup ids -> table_wf (s_pcbs s) -> multi_rep ids (s_pcbs s) qs l ->
  runs (queues_pop ids qs) s (fun r s' => exists x', s' = set_pcbs x' s /\
    fst r = head l /\ multi_rep ids x' (snd r) (tail l) /\ relinked (s_pcbs s) x' l).
Proof.
  intros Hnd Hwf Hm. pose proof Hm as (ls & H & -> & Hndl & Hrk).
  eapply runs_mono; [by apply (queues_pop_ok ids ls)|]. intros r s' (x' & -> & Hr). exists x'. split; [done|].
  destruct (concat ls) as [|i rest] eqn:Hc; cbn [head tail].
  { destruct Hr as [-> ->]. by split_and!. }
  destruct Hr as (-> & Hrl & ids1 & k & ids2 & ls1 & l & ls2 & q' & -> & -> & Hlen & Hc1 & Hs & Hq).
  rewrite concat_app, Hc1 in Hc. cbn [concat app] in Hc. injection Hc as Hrest.
  split_and!; [done| |eapply relinked_sub; [exact Hrl|]; intros j; set_solver].
  apply NoDup_cons in Hndl as [Hi Hnr].
  pose proof (multi_update ids1 k ids2 (s_pcbs s) x' qs (snd r) [i] ls1 (i :: l) ls2 q' l) as Hu.
  rewrite Hc1 in Hu. cbn [app] in Hu. rewrite <- Hrest. apply Hu; try done.
  - rewrite concat_app, Hc1. cbn [concat app]. rewrite Hrest. by constructor.
  - set_solver.
  - rewrite <- Hrest in Hi. set_solver.
  - by rewrite Hrest.
  - intros j Hj. apply (Hrk _ (i :: l)); [by apply list_lookup_middle|set_solver].
Qed.

Lemma filter_concat_one (p : Z) ls1 l ls2 :
  NoDup (concat (ls1 ++ l :: ls2)) -> p ∈ l ->
  filter (.≠ p) (concat (ls1 ++ l :: ls2)) = concat ls1 ++ filter (.≠ p) l ++ concat ls2.
Proof.
  rewrite concat_app. cbn [concat]. intros Hnd Hp. apply NoDup_app in Hnd as (_ & Hd1 & Hnd2).
  apply NoDup_app in Hnd2 as (_ & Hd2 & _). rewrite !filter_app.
  rewrite (filter_ne_id p (concat ls1)), (filter_ne_id p (concat ls2)); [done| |].
  - by apply Hd2.
  - intros H. apply (Hd1 p H). set_solver.
Qed.

(** Removal from the array, for a visiting order that is array order or its reverse. *)
Lemma multi_remove ids qs l p s :
  ids = seqZ 0 4 \/ ids = reverse (seqZ 0 4) -> table_wf (s_pcbs s) -> multi_rep ids (s_pcbs s) qs l ->
  runs (queues_remove 4 0 qs p) s (fun qs' s' => exists x', s' = set_pcbs x' s /\
    multi_rep ids x' qs' (filter (.≠ p) l) /\ relinked (s_pcbs s) x' l).
Proof.
  intros Hids Hwf Hm. pose proof Hm as (ls & H & Hl & Hndl & Hrk).
  assert (Hnd : NoDup ids) by (destruct Hids as [-> | ->]; [|rewrite reverse_Permutation]; apply NoDup_seqZ).
  assert (Hseq : exists ls0, Forall2 (level_rep (s_pcbs s) qs) (seqZ 0 (Z.of_nat 4)) ls0 /\
                   ((ids = seqZ 0 4 /\ ls = ls0) \/ (ids = reverse (seqZ 0 4) /\ ls = reverse ls0))).
  { destruct Hids as [-> | ->]; [by exists ls; auto|]. exists (reverse ls). rewrite reverse_involutive. split; [|auto].
    rewrite <- (reverse_involutive (seqZ 0 (Z.of_nat 4))). by apply Forall2_reverse. }
  destruct Hseq as (ls0 & H0 & Hor). eapply runs_mono; [by apply (queues_remove_ok 4 qs p s 0 ls0)|].
  intros qs' s' (x' & -> & Hc). exists x'. split; [done|].
  assert (Hin : forall j, j ∈ concat ls <-> j ∈ concat ls0).
  { intros j. rewrite !elem_of_concat. destruct Hor as [[_ ->]|[_ ->]]; [done|]. by setoid_rewrite elem_of_reverse. }
  destruct Hc as [(Hn & -> & ->)|(ids1 & k & ids2 & ls1 & lk & ls2 & q' & Hi & -> & Hlen & Hp & Hs & Hq & Hrl)].
  { rewrite filter_ne_id by (rewrite Hl, Hin; done). split; [done|apply relinked_refl]. }
  split; [|eapply relinked_sub; [exact Hrl|]; intros j Hj; rewrite Hl, Hin, concat_app; cbn [concat]; set_solver].
  assert (Hdec : exists i1 i2 m1 m2, ids = i1 ++ k :: i2 /\ ls = m1 ++ lk :: m2 /\ length i1 = length m1).
  { change (Z.of_nat 4) with 4 in Hi. pose proof (Forall2_length _ _ _ H0) as Hl0.
    destruct Hor as [[-> ->]|[-> ->]]; [by exists ids1, ids2, ls1, ls2|].
    exists (reverse ids2), (reverse ids1), (reverse ls2), (reverse ls1).
    rewrite Hi, !reverse_app, !reverse_cons, <- !app_assoc. split_and!; try done.
    change (Z.of_nat 4) with 4 in Hl0. rewrite Hi, !length_app in Hl0. cbn [length] in Hl0. rewrite !length_reverse. lia. }
  destruct Hdec as (i1 & i2 & m1 & m2 & -> & -> & Hlen').
  rewrite Hl in Hndl. rewrite Hl, filter_concat_one by done.
  pose proof Hndl as Hnd2. rewrite concat_app in Hnd2. cbn [concat] in Hnd2.
  apply NoDup_app in Hnd2 as (? & Hd1 & Hnd2). apply NoDup_app in Hnd2 as (? & Hd2 & ?).
  apply (multi_update i1 k i2 (s_pcbs s) x' qs qs' lk m1 lk m2 q'); try done.
  - intros j Hj1 Hj2. apply (Hd1 j Hj1). set_solver.
  - intros j Hj1 Hj2. by apply (Hd2 j Hj2).
  - rewrite <- filter_concat_one by done. by apply NoDup_filter.
  - intros j [_ Hj]%list_elem_of_filter. apply (Hrk _ lk); [by apply list_lookup_middle|done].
Qed.

Definition prio_rep (s : sched) (l : list Z) : Prop :=
  multi_rep [3; 2; 1; 0] (s_pcbs s) (priority_queues (s_prio s)) l.
Definition mlq_rep (s : sched) (l : list Z) : Prop :=
  multi_rep [0; 1; 2; 3] (s_pcbs s) (mlq_queues (s_mlq s)) l.

Lemma mlq_level_of_range p : 0 <= mlq_level_of p <= 3.
Proof. unfold mlq_level_of. repeat destruct (_ <=? _); lia. Qed.

(** The index [prio_add] computes. *)
Lemma prio_level p : 0 <= p ->
  (if PRIO_QUEUES <=? p then PRIO_QUEUES - 1 else p) = 3 - mlq_level_of p.
Proof.
  intros. unfold PRIO_QUEUES, mlq_level_of, PRIORITY_COUNT, PRIORITY_REALTIME, PRIORITY_HIGH, PRIORITY_NORMAL. zcases.
Qed.

(** The four levels, one by one. *)
Lemma level_split (r : Z) : 0 <= r <= 3 ->
  (exists i1 i2, [0; 1; 2; 3] = i1 ++ r :: i2 /\ Z.of_nat (length i1) = r) /\
  (exists i1 i2, [3; 2; 1; 0] = i1 ++ (3 - r) :: i2 /\ Z.of_nat (length i1) = r).
Proof.
  intros Hr. assert (r = 0 \/ r = 1 \/ r = 2 \/ r = 3) as [-> | [-> | [-> | ->]]] by lia; split.
  - by exists [], [1; 2; 3].
  - by exists [], [2; 1; 0].
  - by exists [0], [2; 3].
  - by exists [3], [1; 0].
  - by exists [0; 1], [3].
  - by exists [3; 2], [0].
  - by exists [0; 1; 2], [].
  - by exists [3; 2; 1], [].
Qed.

Lemma get_prio_in x p q : arr_get (pcb_table x) p = Some q -> prio_in x p = priority q.
Proof. intros H. unfold prio_in. by rewrite H. Qed.

Lemma arr_get_replicate4 (i : Z) (ids : list Z) : ids = [0; 1; 2; 3] \/ ids = [3; 2; 1; 0] -> i ∈ ids ->
  arr_get (replicate 4 queue_init) i = Some queue_init.
Proof. intros H Hi. apply arr_get_replicate. destruct H as [-> | ->]; set_unfold in Hi; lia. Qed.

#[export] Instance prio_laws : SchedulerLaws priority_ops mlq_level_of prio_rep.
Proof.
  assert (Hnd : NoDup [3; 2; 1; 0]) by (apply (bool_decide_unpack _); vm_compute; exact I).
  split; cbn [op_init op_add op_remove op_next priority_ops]; unfold prio_rep.
  - intros s l H. by eapply multi_slots.
  - intros s. unfold prio_init. run. split_and!; try done. apply multi_init; [done|].
    intros i Hi. by eapply arr_get_replicate4; [right|].
  - intros s l p Hwf Hrep Hp Hn H0. destruct (table_get _ _ Hwf Hp) as [q Hq]. pose proof (get_prio_in _ _ _ Hq) as Hpr.
    unfold prio_add. run. apply runs_on_pcbs. eapply runs_get_pcb; [exact Hq|]. run.
    replace (set_pcbs (s_pcbs s) s) with s by by destruct s. rewrite <- Hpr, prio_level by done.
    destruct (level_split _ (mlq_level_of_range (prio_in (s_pcbs s) p))) as [_ (i1 & i2 & He & Hl)].
    rewrite He in *. eapply runs_mono; [apply (multi_push i1 _ i2 _ l p s); try done|].
    intros qs s' (x' & -> & Hm & Hr). run. split_and!; try done.
  - intros s l p Hwf Hrep. unfold prio_remove. run. eapply runs_mono; [by apply (multi_remove [3; 2; 1; 0] _ l); [right| |]|].
    intros qs s' (x' & -> & Hm & Hr). run. by split_and!.
  - intros s l Hwf Hrep. unfold prio_next. run. eapply runs_mono; [by apply (multi_pop [3; 2; 1; 0] _ l)|].
    intros [r qs] s' (x' & -> & Hf & Hm & Hr). cbn [fst snd] in *. subst r. run. by destruct (head l); split_and!.
Qed.

#[export] Instance mlq_laws : SchedulerLaws mlq_ops mlq_level_of mlq_rep.
Proof.
  assert (Hnd : NoDup [0; 1; 2; 3]) by (apply (bool_decide_unpack _); vm_compute; exact I).
  split; cbn [op_init op_add op_remove op_next mlq_ops]; unfold mlq_rep.
  - intros s l H. by eapply multi_slots.
  - intros s. unfold mlq_init. run. split_and!; try done. apply multi_init; [done|].
    intros i Hi. by eapply arr_get_replicate4; [left|].
  - intros s l p Hwf Hrep Hp Hn H0. destruct (table_get _ _ Hwf Hp) as [q Hq]. pose proof (get_prio_in _ _ _ Hq) as Hpr.
    unfold mlq_add. run. apply runs_on_pcbs. eapply runs_get_pcb; [exact Hq|]. run.
    replace (set_pcbs (s_pcbs s) s) with s by by destruct s. rewrite <- Hpr.
    destruct (level_split _ (mlq_level_of_range (prio_in (s_pcbs s) p))) as [(i1 & i2 & He & Hl) _].
    rewrite He in *. eapply runs_mono; [apply (multi_push i1 _ i2 _ l p s); try done|].
    intros qs s' (x' & -> & Hm & Hr). run. split_and!; try done.
  - intros s l p Hwf Hrep. unfold mlq_remove. run. eapply runs_mono; [by apply (multi_remove [0; 1; 2; 3] _ l); [left| |]|].
    intros qs s' (x' & -> & Hm & Hr). run. by split_and!.
  - intros s l Hwf Hrep. unfold mlq_next. run. eapply runs_mono; [by apply (multi_pop [0; 1; 2; 3] _ l)|].
    intros [r qs] s' (x' & -> & Hf & Hm & Hr). cbn [fst snd] in *. subst r. run. by destruct (head l); split_and!.
Qed.

(** * The dispatcher *)

Definition sched_rank (id : Z) : Z -> Z :=
  if (id =? SCHED_FCFS) || (id =? SCHED_RR) then fun _ => 0 else mlq_level_of.

Definition sched_rep (id : Z) : sched -> list Z -> Prop :=
  if id =? SCHED_FCFS then fcfs_rep
  else if id =? SCHED_RR then rr_rep
  else if id =? SCHED_PRIORITY then prio_rep
  else mlq_rep.

Definition sched_id_ok (id : Z) : Prop := 0 <= id < SCHED_COUNT.

Lemma sched_id_cases id : sched_id_ok id -> id = 0 \/ id = 1 \/ id = 2 \/ id = 3.
Proof. unfold sched_id_ok, SCHED_COUNT. lia. Qed.

Lemma ops_laws id : sched_id_ok id ->
  exists ops, ops_of id = Some ops /\ SchedulerLaws ops (sched_rank id) (sched_rep id).
Proof.
  intros [-> | [-> | [-> | ->]]]%sched_id_cases; eexists; (split; [reflexivity|]);
    [exact fcfs_laws|exact rr_laws|exact prio_laws|exact mlq_laws].
Qed.

Lemma g_ops_eq s id ops : g_scheduler s = Some id -> ops_of id = Some ops -> g_ops s = Some (Some ops, s).
Proof. intros Hg Ho. unfold g_ops, mbind, prog_bind, gets, mret, prog_ret. rewrite Hg. cbn. by rewrite Ho. Qed.

Lemma runs_g_ops_eq s id ops (Q : option scheduler_ops -> sched -> Prop) :
  g_scheduler s = Some id -> ops_of id = Some ops -> Q (Some ops) s -> runs g_ops s Q.
Proof. intros Hg Ho HQ. exists (Some ops), s. split; [by eapply g_ops_eq|done]. Qed.

(** The scheduler in use has id [id] and holds [l]. *)
Record ready (s : sched) (id : Z) (l : list Z) : Prop := {
  rd_id : sched_id_ok id;
  rd_active : g_scheduler s = Some id;
  rd_wf : table_wf (s_pcbs s);
  rd_rep : sched_rep id s l }.

Section dispatch.
Context (s : sched) (id : Z) (l : list Z) (Hr : ready s id l).

Lemma runs_g_ops (Q : option scheduler_ops -> sched -> Prop) :
  (forall ops, SchedulerLaws ops (sched_rank id) (sched_rep id) -> Q (Some ops) s) -> runs g_ops s Q.
Proof.
  intros HQ. destruct (ops_laws id (rd_id _ _ _ Hr)) as (ops & Ho & Hl).
  eapply runs_g_ops_eq; [apply (rd_active _ _ _ Hr)|exact Ho|by apply HQ].
Qed.

Lemma ready_after s' l' X :
  sched_rep id s' l' -> relinked (s_pcbs s) (s_pcbs s') X -> frame s s' -> ready s' id l'.
Proof.
  intros Hrep Hrl (_ & _ & Hg & _). split; [apply Hr|rewrite Hg; apply Hr|by eapply relinked_wf, Hr|done].
Qed.

Lemma ready_slots : NoDup l /\ Forall slot_ok l.
Proof.
  destruct (ops_laws id (rd_id _ _ _ Hr)) as (ops & _ & Hl). eapply (sl_slots (SchedulerLaws := Hl)), Hr.
Qed.

Lemma scheduler_add_ok p : slot_ok p -> p ∉ l -> 0 <= prio_in (s_pcbs s) p ->
  runs (scheduler_add p) s (fun _ s' =>
    ready s' id (insert_rank (fun i => sched_rank id (prio_in (s_pcbs s) i)) p l) /\
    relinked (s_pcbs s) (s_pcbs s') (p :: l) /\ frame s s').
Proof.
  intros Hp Hn H0. unfold scheduler_add. run. apply runs_g_ops. intros ops Hl.
  eapply runs_mono; [apply (sl_add (SchedulerLaws := Hl) s l p); [apply Hr|apply Hr|done|done|done]|].
  intros [] s' (Hrep & Hrl & Hf). split_and!; try done. by eapply ready_after.
Qed.

Lemma scheduler_remove_ok p :
  runs (scheduler_remove p) s (fun _ s' =>
    ready s' id (filter (.≠ p) l) /\ relinked (s_pcbs s) (s_pcbs s') l /\ frame s s').
Proof.
  unfold scheduler_remove. run. apply runs_g_ops. intros ops Hl.
  eapply runs_mono; [apply (sl_remove (SchedulerLaws := Hl) s l p); apply Hr|].
  intros [] s' (Hrep & Hrl & Hf). split_and!; try done. by eapply ready_after.
Qed.

Lemma scheduler_next_ok :
  runs scheduler_next s (fun r s' =>
    r = head l /\ ready s' id (tail l) /\ relinked (s_pcbs s) (s_pcbs s') l /\ frame s s').
Proof.
  unfold scheduler_next. run. apply runs_g_ops. intros ops Hl.
  eapply runs_mono; [apply (sl_next (SchedulerLaws := Hl) s l); apply Hr|].
  intros r s' (-> & Hrep & Hrl & Hf). split_and!; try done. by eapply ready_after.
Qed.
End dispatch.

Lemma scheduler_set_ok id s : sched_id_ok id -> table_wf (s_pcbs s) ->
  runs (scheduler_set id) s (fun _ s' =>
    ready s' id [] /\ s_pcbs s' = s_pcbs s /\ current_process s' = current_process s /\ need_resched s' = need_resched s).
Proof.
  intros Hid Hwf. destruct (ops_laws id Hid) as (ops & Ho & Hl). unfold scheduler_set. rewrite Ho. run.
  eapply runs_mono; [apply (sl_init (SchedulerLaws := Hl))|]. intros [] s' (Hrep & Hp & H1 & H2 & H3 & H4).
  split_and!; try done. split; [done|done|by rewrite Hp|done].
Qed.

(** * Correctness of the schedulers *)

Inductive sched_op :=
  | SAdd (p : Z)
  | SRemove (p : Z)
  | SNext.

Definition sched_exec (op : sched_op) : prog sched (option Z) :=
  match op with
  | SAdd p => _ ← scheduler_add p; mret None
  | SRemove p => _ ← scheduler_remove p; mret None
  | SNext => scheduler_next
  end.

Fixpoint sched_execs (ops : list sched_op) : prog sched (list (option Z)) :=
  match ops with
  | [] => mret []
  | op :: ops => o ← sched_exec op; os ← sched_execs ops; mret (o :: os)
  end.

(** The abstract scheduler: a list ordered by rank. *)
Definition order_exec (rk : Z -> Z) (op : sched_op) (l : list Z) : option Z * list Z :=
  match op with
  | SAdd p => (None, insert_rank rk p l)
  | SRemove p => (None, filter (.≠ p) l)
  | SNext => (head l, tail l)
  end.

Fixpoint order_execs (rk : Z -> Z) (ops : list sched_op) (l : list Z) : list (option Z) * list Z :=
  match ops with
  | [] => ([], l)
  | op :: ops =>
      let '(o, l') := order_exec rk op l in
      let '(os, l'') := order_execs rk ops l' in (o :: os, l'')
  end.

(** Processes are added when they are not queued. *)
Fixpoint adds_ok (rk : Z -> Z) (pr : Z -> Z) (ops : list sched_op) (l : list Z) : Prop :=
  match ops with
  | [] => True
  | op :: ops =>
      match op with SAdd p => slot_ok p /\ p ∉ l /\ 0 <= pr p | _ => True end /\
      adds_ok rk pr ops (snd (order_exec rk op l))
  end.

Lemma insert_rank_ext rk rk' p l : (forall i, rk i = rk' i) -> insert_rank rk p l = insert_rank rk' p l.
Proof. intros H. induction l as [|x l IH]; cbn [insert_rank]; [done|]. by rewrite !H, IH. Qed.

Lemma sched_execs_ok id (pr : Z -> Z) ops : forall s l,
  let rk i := sched_rank id (pr i) in
  ready s id l -> (forall i, prio_in (s_pcbs s) i = pr i) -> adds_ok rk pr ops l ->
  runs (sched_execs ops) s (fun os s' =>
    os = fst (order_execs rk ops l) /\ ready s' id (snd (order_execs rk ops l)) /\ frame s s').
Proof.
  intros s l rk. revert s l. induction ops as [|op ops IH]; intros s l Hr Hpr Hok; cbn [sched_execs order_execs]; run.
  { by split_and!. }
  destruct Hok as [Hop Hok].
  assert (Hstep : runs (sched_exec op) s (fun o s' => exists X,
    o = fst (order_exec rk op l) /\ ready s' id (snd (order_exec rk op l)) /\
    relinked (s_pcbs s) (s_pcbs s') X /\ frame s s')).
  { destruct op as [p|p|]; cbn [sched_exec order_exec fst snd]; run.
    - destruct Hop as (Hp & Hn & H0). eapply runs_mono; [apply (scheduler_add_ok s id l Hr p); [done|done|by rewrite Hpr]|].
      intros [] s' (Hr' & Hrl & Hf). run. eexists. split_and!; try done.
      rewrite (insert_rank_ext rk (fun i => sched_rank id (prio_in (s_pcbs s) i))); [done|]. intros i. unfold rk. by rewrite Hpr.
    - eapply runs_mono; [apply (scheduler_remove_ok s id l Hr p)|]. intros [] s' (Hr' & Hrl & Hf). run. by eexists.
    - eapply runs_mono; [apply (scheduler_next_ok s id l Hr)|]. intros r s' (-> & Hr' & Hrl & Hf). by eexists. }
  eapply runs_mono; [exact Hstep|]. intros o s1 (X & -> & Hr1 & Hrl & Hf1). run.
  destruct (order_exec rk op l) as [o l1]. cbn [fst snd] in *.
  eapply runs_mono; [apply (IH s1 l1); [done| |done]|].
  { intros i. rewrite (relinked_prio _ _ _ i Hrl). apply Hpr. }
  intros os s2 (-> & Hr2 & Hf2). run. destruct (order_execs rk ops l1) as [os l2]. cbn [fst snd] in *.
  split_and!; try done. unfold frame in *. intuition congruence.
Qed.

(** C5: every scheduler behind the dispatcher refines a list kept in dispatch
    order.  For each of the four ids, any sequence of [scheduler_add] (of
    processes not queued), [scheduler_remove] and [scheduler_next] terminates
    without fault and returns exactly what a list returns in which a process is
    inserted behind all processes of its rank or better: arrival order for FCFS
    and round robin, the highest priority number first and arrival order within
    a priority for Priority and MLQ. *)
Theorem scheduler_dispatch_order id s l ops :
  let rk i := sched_rank id (prio_in (s_pcbs s) i) in
  ready s id l -> adds_ok rk (prio_in (s_pcbs s)) ops l ->
  runs (sched_execs ops) s (fun os s' =>
    os = fst (order_execs rk ops l) /\ ready s' id (snd (order_execs rk ops l)) /\ frame s s').
Proof. intros rk Hr Hok. by apply (sched_execs_ok id (prio_in (s_pcbs s))). Qed.

(** A table with priorities 0 to 3 in turn, and the schedulers set up on it. *)
Definition demo_pcbs : pcbs :=
  mk_pcbs ((fun i => mk_pcb (i + 1) PROCESS_READY [] (i mod 4) 0 0 0 0 0 0 0 0 None) <$> seqZ 0 64) 0.

Definition no_sched : sched :=
  mk_sched demo_pcbs None 0 None 0 (mk_fcfs queue_init (zero_stats "")) (mk_rr queue_init (zero_stats "") 0)
    (mk_prio [] (zero_stats "") 0) (mk_mlq [] (zero_stats "") []).

Definition demo_sched (id : Z) : sched := default no_sched (snd <$> scheduler_set id no_sched).

Lemma demo_ready id : sched_id_ok id ->
  ready (demo_sched id) id [] /\ s_pcbs (demo_sched id) = demo_pcbs.
Proof.
  intros Hid. destruct (scheduler_set_ok id no_sched Hid) as (a & s' & Hs & Hr & Hp & _).
  { split; [reflexivity|cbn; lia]. }
  unfold demo_sched. rewrite Hs. done.
Qed.

Lemma scheduler_dispatch_order_witness :
  runs (sched_execs [SAdd 0; SAdd 6; SAdd 3; SAdd 2; SNext; SRemove 6; SNext; SNext; SNext]) (demo_sched SCHED_PRIORITY)
    (fun os s' => os = [None; None; None; None; Some 3; None; Some 2; Some 0; None] /\
       ready s' SCHED_PRIORITY [] /\ frame (demo_sched SCHED_PRIORITY) s').
Proof.
  assert (Hid : sched_id_ok SCHED_PRIORITY) by (unfold sched_id_ok, SCHED_PRIORITY, SCHED_COUNT; lia).
  destruct (demo_ready SCHED_PRIORITY Hid) as [Hr Hp].
  apply (scheduler_dispatch_order SCHED_PRIORITY (demo_sched SCHED_PRIORITY) []
           [SAdd 0; SAdd 6; SAdd 3; SAdd 2; SNext; SRemove 6; SNext; SNext; SNext]); [exact Hr|].
  vm_compute. repeat (split || intros ?); try discriminate; try done; set_solver.
Defined.

(** The Priority and the MLQ scheduler dispatch in the same order: from
    states that hold the same processes with the same priorities, any sequence
    of operations returns the same processes.  The two differ only in how many
    ticks they grant. *)
Theorem mlq_priority_same_order s1 s2 l ops :
  let rk i := mlq_level_of (prio_in (s_pcbs s1) i) in
  ready s1 SCHED_PRIORITY l -> ready s2 SCHED_MLQ l ->
  (forall i, prio_in (s_pcbs s2) i = prio_in (s_pcbs s1) i) ->
  adds_ok rk (prio_in (s_pcbs s1)) ops l ->
  exists os s1' s2', sched_execs ops s1 = Some (os, s1') /\ sched_execs ops s2 = Some (os, s2').
Proof.
  intros rk Hr1 Hr2 Hpr Hok.
  destruct (sched_execs_ok SCHED_PRIORITY (prio_in (s_pcbs s1)) ops s1 l Hr1) as (os & s1' & E1 & -> & _); [done|done|].
  destruct (sched_execs_ok SCHED_MLQ (prio_in (s_pcbs s1)) ops s2 l Hr2) as (os & s2' & E2 & -> & _); [done|done|].
  eauto.
Qed.

Lemma mlq_priority_same_order_witness :
  exists os s1' s2', sched_execs [SAdd 0; SAdd 7; SAdd 3; SNext] (demo_sched SCHED_PRIORITY) = Some (os, s1') /\
    sched_execs [SAdd 0; SAdd 7; SAdd 3; SNext] (demo_sched SCHED_MLQ) = Some (os, s2').
Proof.
  assert (Hid1 : sched_id_ok SCHED_PRIORITY) by (unfold sched_id_ok, SCHED_PRIORITY, SCHED_COUNT; lia).
  assert (Hid2 : sched_id_ok SCHED_MLQ) by (unfold sched_id_ok, SCHED_MLQ, SCHED_COUNT; lia).
  destruct (demo_ready SCHED_PRIORITY Hid1) as [Hr1 Hp1], (demo_ready SCHED_MLQ Hid2) as [Hr2 Hp2].
  apply (mlq_priority_same_order (demo_sched SCHED_PRIORITY) (demo_sched SCHED_MLQ) [] [SAdd 0; SAdd 7; SAdd 3; SNext] Hr1 Hr2).
  - intros i. by rewrite Hp1, Hp2.
  - vm_compute. repeat (split || intros ?); try discriminate; try done; set_solver.
Defined.

(** [scheduler_set] to a valid id selects that scheduler with an empty
    queue and leaves the process table alone: processes that were waiting in
    the queue of the former scheduler, and in the queue of the selected one,
    stay READY but are never dispatched again until they are added anew.  An
    invalid id changes [g_sched_id] only. *)
Theorem scheduler_set_forgets s id :
  table_wf (s_pcbs s) ->
  (sched_id_ok id ->
   runs (_ ← scheduler_set id; scheduler_next) s (fun r s' =>
     r = None /\ ready s' id [] /\ g_sched_id s' = id /\ pcb_table (s_pcbs s') = pcb_table (s_pcbs s))) /\
  (~ sched_id_ok id -> scheduler_set id s = Some (tt, set_g_sched_id id s)).
Proof.
  intros Hwf. split.
  - intros Hid. pose proof (ops_laws id Hid) as (ops & Ho & Hl). run. unfold scheduler_set. rewrite Ho. run.
    eapply runs_mono; [apply (sl_init (SchedulerLaws := Hl))|]. intros [] s' (Hrep & Hp & H1 & H2 & H3 & H4).
    assert (Hr : ready s' id []) by (split; [done|done|by rewrite Hp|done]).
    eapply runs_mono; [apply (scheduler_next_ok s' id [] Hr)|]. intros r s'' (-> & Hr'' & Hrl & _ & _ & _ & Hid'').
    split_and!; [done|done|by rewrite Hid'', H4|]. rewrite Hp in Hrl. cbn [set_g_scheduler set_g_sched_id s_pcbs] in Hrl.
    apply list_eq. intros i. pose proof (rl_other _ _ _ Hrl (Z.of_nat i)) as H. unfold arr_get in H.
    rewrite (proj2 (Z.leb_le _ _)), Nat2Z.id in H by lia. apply H. set_solver.
  - intros Hid. unfold scheduler_set. destruct (ops_of id) eqn:Ho; [|done]. destruct Hid.
    unfold ops_of, SCHED_FCFS, SCHED_RR, SCHED_PRIORITY, SCHED_MLQ in Ho. unfold sched_id_ok, SCHED_COUNT.
    destruct (Z.eqb_spec id 0); [lia|]. destruct (Z.eqb_spec id 1); [lia|]. destruct (Z.eqb_spec id 2); [lia|].
    destruct (Z.eqb_spec id 3); [lia|done].
Qed.

(** Process 3 is queued under FCFS; after switching to round robin it is lost. *)
Lemma scheduler_set_forgets_witness :
  let s := default (demo_sched SCHED_FCFS) (snd <$> scheduler_add 3 (demo_sched SCHED_FCFS)) in
  runs (_ ← scheduler_set SCHED_RR; scheduler_next) s (fun r s' =>
    r = None /\ ready s' SCHED_RR [] /\ g_sched_id s' = SCHED_RR /\ pcb_table (s_pcbs s') = pcb_table (s_pcbs s)).
Proof.
  intros s. apply (scheduler_set_forgets s SCHED_RR).
  - split; [vm_compute; reflexivity|vm_compute; split; [discriminate|reflexivity]].
  - unfold sched_id_ok, SCHED_RR, SCHED_COUNT. lia.
Defined.

(** * Quanta *)

(** The quantum of a process of priority [pr]; [None]: no preemption. *)
Definition quantum (id pr : Z) : option Z :=
  if id =? SCHED_FCFS then None
  else if id =? SCHED_MLQ then arr_get mlq_quanta (mlq_level_of pr)
  else Some QUANTUM_DEFAULT.

(** The ticks counted against it. *)
Definition ticks_used (id pr : Z) (s : sched) : option Z :=
  if id =? SCHED_FCFS then Some 0
  else if id =? SCHED_RR then Some (rr_current_ticks (s_rr s))
  else if id =? SCHED_PRIORITY then Some (prio_current_ticks (s_prio s))
  else arr_get (mlq_level_ticks (s_mlq s)) (mlq_level_of pr).

(** [p], in slot [i], is the running process and not the idle process. *)
Record running (s : sched) (id i : Z) (p : pcb) : Prop := {
  ru_id : sched_id_ok id;
  ru_active : g_scheduler s = Some id;
  ru_current : current_process s = Some i;
  ru_pcb : arr_get (pcb_table (s_pcbs s)) i = Some p;
  ru_pid : 1 < pid p }.

Lemma runs_current_counts s id i p (Q : bool -> sched -> Prop) : running s id i p -> Q true s -> runs current_counts s Q.
Proof.
  intros [_ _ Hc Hp Hpid] HQ. unfold current_counts. run. rewrite Hc. run. apply runs_on_pcbs.
  eapply runs_get_pcb; [exact Hp|]. run. rewrite (proj2 (Z.ltb_lt _ _)) by done. by replace (set_pcbs (s_pcbs s) s) with s by by destruct s.
Qed.

(** The flag after a tick that brings the count to [t]. *)
Definition resched_after (id pr t old : Z) : Z :=
  match quantum id pr with Some q => if q <=? t then 1 else old | None => old end.

Lemma scheduler_tick_ok s id i p t :
  running s id i p -> ticks_used id (priority p) s = Some t -> 0 <= t -> t + 1 < 2 ^ 32 ->
  runs scheduler_tick s (fun _ s' =>
    running s' id i p /\ need_resched s' = resched_after id (priority p) (t + 1) (need_resched s) /\
    (id <> SCHED_FCFS -> ticks_used id (priority p) s' = Some (t + 1)) /\
    (id = SCHED_FCFS -> ticks_used id (priority p) s' = Some 0)).
Proof.
  intros Hrun Ht H0 Hw. pose proof Hrun as [Hid Hg Hc Hp Hpid].
  apply sched_id_cases in Hid as [-> | [-> | [-> | ->]]]; unfold scheduler_tick; run;
    (eapply runs_g_ops_eq; [exact Hg|reflexivity|]); cbn [op_tick fcfs_ops rr_ops priority_ops mlq_ops]; cbn in Ht.
  - run. by split_and!.
  - unfold rr_tick. run. eapply runs_current_counts; [exact Hrun|]. run. simplify_eq. rewrite wrap_small by lia.
    unfold resched_after. change (quantum 1 (priority p)) with (Some QUANTUM_DEFAULT).
    destruct (QUANTUM_DEFAULT <=? _) eqn:Eq; run; rewrite ?Eq; split_and!; try done; by split.
  - unfold prio_tick. run. eapply runs_current_counts; [exact Hrun|]. run. simplify_eq. rewrite wrap_small by lia.
    unfold resched_after. change (quantum 2 (priority p)) with (Some QUANTUM_DEFAULT).
    destruct (QUANTUM_DEFAULT <=? _) eqn:Eq; run; rewrite ?Eq; split_and!; try done; by split.
  - unfold mlq_tick. run. eapply runs_current_counts; [exact Hrun|]. run. rewrite Hc. eapply runs_need; [done|]. run.
    apply runs_on_pcbs. eapply runs_get_pcb; [exact Hp|]. run. replace (set_pcbs (s_pcbs s) s) with s by by destruct s.
    eapply runs_need; [exact Ht|]. run. destruct (arr_set_get _ _ _ (u32 (t + 1)) Ht) as [ts Hts].
    eapply runs_need; [exact Hts|]. run. rewrite wrap_small in * by lia.
    destruct (arr_get_in mlq_quanta (mlq_level_of (priority p))) as [q Hq]; [pose proof (mlq_level_of_range (priority p)); cbn; lia|].
    eapply runs_need; [exact Hq|]. run. unfold resched_after.
    change (quantum 3 (priority p)) with (arr_get mlq_quanta (mlq_level_of (priority p))). rewrite Hq.
    assert (Hts' : arr_get ts (mlq_level_of (priority p)) = Some (t + 1)) by (by rewrite (arr_get_set _ _ _ _ _ Hts), Z.eqb_refl).
    destruct (q <=? t + 1) eqn:Eq; run; rewrite ?Eq; split_and!; try done; by split.
Qed.

Lemma quantum_pos id pr q : quantum id pr = Some q -> 0 < q.
Proof.
  unfold quantum, QUANTUM_DEFAULT. destruct (id =? SCHED_FCFS); [done|]. destruct (id =? SCHED_MLQ); [|naive_solver lia].
  intros H%arr_get_elem. unfold mlq_quanta in H. set_unfold in H. lia.
Qed.

(** C40: the quantum is exact.  With a process other than idle running and its
    tick count at zero (as every [next] leaves it), [n] timer ticks raise
    [scheduler_need_resched] exactly when [n] reaches the quantum: 3 ticks
    under round robin and Priority; 2, 4, 6 or 8 ticks under MLQ for
    realtime, high, normal and low priority; never under FCFS. *)
Theorem quantum_exact s id i p n :
  running s id i p -> ticks_used id (priority p) s = Some 0 -> need_resched s = 0 -> Z.of_nat n < 2 ^ 32 ->
  runs (for_ n 0 (fun _ => scheduler_tick)) s (fun _ s' =>
    need_resched s' = match quantum id (priority p) with
                      | Some q => if q <=? Z.of_nat n then 1 else 0
                      | None => 0
                      end).
Proof.
  intros Hrun Ht Hn Hw. eapply runs_mono; [eapply (runs_for (fun j s' =>
    running s' id i p /\
    ticks_used id (priority p) s' = Some (if id =? SCHED_FCFS then 0 else j) /\
    need_resched s' = match quantum id (priority p) with Some q => if q <=? j then 1 else 0 | None => 0 end))|].
  - split_and!; [done|by destruct (id =? SCHED_FCFS)|]. rewrite Hn. destruct (quantum id (priority p)) as [q|] eqn:Hq; [|done].
    apply quantum_pos in Hq. by destruct (Z.leb_spec q 0); [lia|].
  - intros j t Hj (Hr & Hu & Hneed).
    eapply runs_mono; [eapply (scheduler_tick_ok t id i p _ Hr Hu); destruct (id =? SCHED_FCFS); lia|].
    intros [] t' (Hr' & Hn' & Hu1 & Hu0). split_and!; [done| |].
    + destruct (Z.eqb_spec id SCHED_FCFS); [by apply Hu0|by apply Hu1].
    + rewrite Hn', Hneed. unfold resched_after, quantum in *. destruct (Z.eqb_spec id SCHED_FCFS); [done|].
      destruct (if id =? SCHED_MLQ then _ else _) as [q|]; [|done].
      destruct (Z.leb_spec q (j + 1)), (Z.leb_spec q j); try done; lia.
  - intros [] s' (_ & _ & H). exact H.
Qed.

Lemma quantum_exact_witness :
  let s := set_current (Some 7) (demo_sched SCHED_MLQ) in
  runs (for_ 2 0 (fun _ => scheduler_tick)) s (fun _ s' => need_resched s' = 1).
Proof.
  intros s. apply (quantum_exact s SCHED_MLQ 7 (mk_pcb 8 PROCESS_READY [] 3 0 0 0 0 0 0 0 0 None) 2);
    [|vm_compute; reflexivity|vm_compute; reflexivity|lia].
  split; [unfold sched_id_ok, SCHED_MLQ, SCHED_COUNT; lia|vm_compute; reflexivity|reflexivity|vm_compute; reflexivity|cbn; lia].
Defined.

End Sched.
