(* ===== verification/Process.v ===== *)
(** Process management (src/process/process.c) and the context switch
    (src/process/switch.asm), over the process table and the dispatcher.
    Console output is not part of the state. *)
From S2P Require Import Prelude Mem Pcb Queue Sched.

Module Process.
Import Pcb Queue Sched.

(** The registers the context switch handles. *)
Record cpu := mk_cpu {
  c_rsp : Z; c_rbp : Z; c_rbx : Z; c_r12 : Z; c_r13 : Z; c_r14 : Z; c_r15 : Z }.

(** The schedulers' state, the remaining globals of process.c, memory (for the
    kernel stacks) and the CPU. *)
Record kern := mk_kern {
  k_sched : sched;
  next_pid : Z;
  process_count : Z;
  blocked_queue : process_queue;
  k_mem : gmap Z Z;
  k_cpu : cpu }.

Definition set_sched (x : sched) (k : kern) : kern :=
  mk_kern x (next_pid k) (process_count k) (blocked_queue k) (k_mem k) (k_cpu k).
Definition set_next_pid (x : Z) (k : kern) : kern :=
  mk_kern (k_sched k) x (process_count k) (blocked_queue k) (k_mem k) (k_cpu k).
Definition set_count (x : Z) (k : kern) : kern :=
  mk_kern (k_sched k) (next_pid k) x (blocked_queue k) (k_mem k) (k_cpu k).
Definition set_blocked (x : process_queue) (k : kern) : kern :=
  mk_kern (k_sched k) (next_pid k) (process_count k) x (k_mem k) (k_cpu k).
Definition set_mem (x : gmap Z Z) (k : kern) : kern :=
  mk_kern (k_sched k) (next_pid k) (process_count k) (blocked_queue k) x (k_cpu k).
Definition set_cpu (x : cpu) (k : kern) : kern :=
  mk_kern (k_sched k) (next_pid k) (process_count k) (blocked_queue k) (k_mem k) x.

Definition on_sched {A} (m : prog sched A) : prog kern A := fun k =>
  '(a, x) ← m (k_sched k); Some (a, set_sched x k).

Definition on_table {A} (m : prog pcbs A) : prog kern A := on_sched (on_pcbs m).

Definition get_current : prog kern (option Z) := gets (fun k => current_process (k_sched k)).
Definition put_current (c : option Z) : prog kern unit := on_sched (modify (set_current c)).

(** * The context switch *)

Definition with_rsp (r : Z) (c : cpu) : cpu :=
  mk_cpu r (c_rbp c) (c_rbx c) (c_r12 c) (c_r13 c) (c_r14 c) (c_r15 c).

Definition push (v : Z) : prog kern unit := modify (fun k =>
  let r := u64 (c_rsp (k_cpu k) - 8) in set_cpu (with_rsp r (k_cpu k)) (set_mem (store 8 r v (k_mem k)) k)).

Definition pop : prog kern Z := fun k =>
  let r := c_rsp (k_cpu k) in
  Some (load 8 r (k_mem k), set_cpu (with_rsp (u64 (r + 8)) (k_cpu k)) k).

Definition reg (f : cpu -> Z) : prog kern Z := gets (fun k => f (k_cpu k)).

(** The call pushes the address [ret] it returns to, the callee its registers. *)
Definition push_regs (ret : Z) : prog kern unit :=
  _ ← push ret;
  v ← reg c_rbp; _ ← push v;
  v ← reg c_rbx; _ ← push v;
  v ← reg c_r12; _ ← push v;
  v ← reg c_r13; _ ← push v;
  v ← reg c_r14; _ ← push v;
  v ← reg c_r15; push v.

(** The pops and the final [ret]; the value is the address it jumps to. *)
Definition pop_regs : prog kern Z :=
  r15 ← pop;
  r14 ← pop;
  r13 ← pop;
  r12 ← pop;
  rbx ← pop;
  rbp ← pop;
  _ ← modify (fun k => set_cpu (mk_cpu (c_rsp (k_cpu k)) rbp rbx r12 r13 r14 r15) k);
  pop.

Definition context_switch (ret next : Z) : prog kern Z :=
  _ ← push_regs ret;
  c ← get_current;
  _ ← (match c with
       | None => mret tt
       | Some i => r ← reg c_rsp; on_table (upd_pcb i (set_rsp r))
       end);
  p ← on_table (get_pcb next);
  _ ← modify (fun k => set_cpu (with_rsp (rsp p) (k_cpu k)) k);
  pop_regs.

(** * Creation *)

(** [while (name[i] && i < PROCESS_NAME_MAX - 1) { pcb->name[i] = name[i]; i++; }
    pcb->name[i] = 0;] on the characters of the string; past its end there is
    the terminator. *)
Fixpoint copy_name (fuel : nat) (i : Z) (name dst : list Z) : option (list Z) :=
  match fuel with
  | O => None
  | S fuel =>
      let c := match name with [] => 0 | c :: _ => c end in
      if negb (c =? 0) && (i <? PROCESS_NAME_MAX - 1) then
        dst ← arr_set dst i c; copy_name fuel (i + 1) (tail name) dst
      else arr_set dst i 0
  end.

Section create.
Context (process_stacks : Z).

Definition process_create (nm : list Z) (entry prio : Z) : prog kern (option Z) :=
  r ← on_table (pcb_alloc process_stacks);
  match r with
  | None => mret None
  | Some i =>
      n ← gets next_pid;
      _ ← modify (set_next_pid (u32 (n + 1)));
      p ← on_table (get_pcb i);
      dst ← need (copy_name (Z.to_nat PROCESS_NAME_MAX) 0 nm (name p));
      let base := stack_base p in
      _ ← modify (fun k => set_mem
            (store 8 (u64 (base - 56)) 0 (store 8 (u64 (base - 48)) 0 (store 8 (u64 (base - 40)) 0
            (store 8 (u64 (base - 32)) 0 (store 8 (u64 (base - 24)) 0 (store 8 (u64 (base - 16)) 0
            (store 8 (u64 (base - 8)) entry (k_mem k)))))))) k);
      _ ← on_table (upd_pcb i (fun p =>
            mk_pcb n PROCESS_READY dst prio (u64 (base - 56)) (rip p) (rflags p) 0 (stack_base p) 0 0 0 (next p)));
      _ ← on_sched (scheduler_add i);
      c ← gets process_count;
      _ ← modify (set_count (u32 (c + 1)));
      mret (Some i)
  end.

(** [idle] is the address of [idle_process]. *)
Definition process_init (idle : Z) : prog kern unit :=
  _ ← on_table pcb_init_table;
  _ ← modify (set_blocked queue_init);
  _ ← put_current None;
  _ ← modify (set_next_pid 1);
  _ ← modify (set_count 0);
  _ ← process_create [105; 100; 108; 101] idle PRIORITY_LOW;
  mret tt.
End create.

(** * Exit, kill, yield *)

(** The value of these is the address at which execution goes on; [ret] is
    the address after the call of [context_switch] in the function.  [None]
    of the option is a plain return before any switch.  Finding no process to
    run is the endless loop of the panic branch. *)
Definition process_exit (ret : Z) : prog kern (option Z) :=
  c ← get_current;
  match c with
  | None => mret None
  | Some dead =>
      _ ← on_table (upd_pcb dead (set_state PROCESS_TERMINATED));
      n ← gets process_count;
      _ ← modify (set_count (u32 (n - 1)));
      nx ← on_sched scheduler_next;
      match nx with
      | None => need None
      | Some next =>
          _ ← on_table (upd_pcb next (set_state PROCESS_RUNNING));
          _ ← put_current (Some next);
          _ ← on_table (pcb_free (Some dead));
          a ← context_switch ret next;
          mret (Some a)
      end
  end.

Definition process_by_pid (n : Z) : prog kern (option Z) :=
  c ← get_current;
  match c with
  | None => on_table (pcb_by_pid n)
  | Some i =>
      p ← on_table (get_pcb i);
      if pid p =? n then mret (Some i) else on_table (pcb_by_pid n)
  end.

(** The part of [process_kill] for a process that is not running. *)
Definition kill_other (n : Z) : prog kern Z :=
  r ← on_table (pcb_by_pid n);
  match r with
  | None => mret (-1)
  | Some i =>
      _ ← on_sched (scheduler_remove i);
      b ← gets blocked_queue;
      b' ← on_table (queue_remove b i);
      _ ← modify (set_blocked b');
      _ ← on_table (upd_pcb i (set_state PROCESS_TERMINATED));
      c ← gets process_count;
      _ ← modify (set_count (u32 (c - 1)));
      _ ← on_table (pcb_free (Some i));
      mret 0
  end.

Definition process_kill (ret n : Z) : prog kern Z :=
  if n =? 1 then mret (-1)
  else
    c ← get_current;
    match c with
    | None => kill_other n
    | Some i =>
        p ← on_table (get_pcb i);
        if pid p =? n then _ ← process_exit ret; mret 0 else kill_other n
    end.

Definition yield (ret : Z) : prog kern (option Z) :=
  c ← get_current;
  match c with
  | None => mret None
  | Some cur =>
      _ ← on_table (upd_pcb cur (set_state PROCESS_READY));
      _ ← on_sched (scheduler_add cur);
      nx ← on_sched scheduler_next;
      match nx with
      | None => _ ← on_sched (scheduler_remove cur); mret None
      | Some next =>
          _ ← on_table (upd_pcb next (set_state PROCESS_RUNNING));
          _ ← put_current (Some next);
          a ← context_switch ret next;
          mret (Some a)
      end
  end.

(** * Locality *)

(** A scheduler's view of the table is the link and the priority of the
    processes it holds. *)
Definition view (x : pcbs) (i : Z) : option (option Z * Z) := (fun p => (next p, priority p)) <$> arr_get (pcb_table x) i.

Lemma view_link x x' i n : view x' i = view x i -> link x i n -> link x' i n.
Proof.
  intros Hv (p & Hp & Hn). unfold view in Hv. rewrite Hp in Hv. cbn in Hv.
  destruct (arr_get (pcb_table x') i) as [p'|] eqn:E; [|done]. cbn in Hv. injection Hv as H1 H2. exists p'. by rewrite H1.
Qed.

Lemma view_prio x x' i : view x' i = view x i -> prio_in x' i = prio_in x i.
Proof.
  unfold view, prio_in. destruct (arr_get (pcb_table x') i), (arr_get (pcb_table x) i); cbn; naive_solver.
Qed.

Lemma queue_rep_view x x' q l : (forall i, i ∈ l -> view x' i = view x i) -> queue_rep x q l -> queue_rep x' q l.
Proof.
  intros Hv [H1 H2 H3 H4 H5 H6]. split; try done. clear - Hv H6. induction l as [|i l IH]; [done|].
  destruct H6 as [Hl H6]. split; [by eapply view_link; [apply Hv; set_solver|]|]. apply IH; [|done].
  intros j Hj. apply Hv. set_solver.
Qed.

Lemma multi_rep_view ids x x' qs l :
  (forall i, i ∈ l -> view x' i = view x i) -> multi_rep ids x qs l -> multi_rep ids x' qs l.
Proof.
  intros Hv (ls & H & -> & Hnd & Hrk). exists ls. split_and!; try done.
  - clear Hnd Hrk. induction H as [|i l ids ls (q & Hq & Hl) H IH]; [constructor|]. cbn [concat] in Hv. constructor.
    + exists q. split; [done|]. eapply queue_rep_view, Hl. intros j Hj. apply Hv. set_solver.
    + apply IH. intros j Hj. apply Hv. set_solver.
  - intros k lk j Hk Hj. rewrite (view_prio x); [by eapply Hrk|]. apply Hv, elem_of_concat. exists lk.
    split; [done|]. by eapply list_elem_of_lookup_2.
Qed.

Lemma sched_rep_view id s x' l :
  (forall i, i ∈ l -> view x' i = view (s_pcbs s) i) -> sched_rep id s l -> sched_rep id (set_pcbs x' s) l.
Proof.
  intros Hv. unfold sched_rep, fcfs_rep, rr_rep, prio_rep, mlq_rep.
  destruct (id =? SCHED_FCFS); [by apply queue_rep_view|]. destruct (id =? SCHED_RR); [by apply queue_rep_view|].
  destruct (id =? SCHED_PRIORITY); by apply multi_rep_view.
Qed.

Lemma ready_view s id l x' :
  table_wf x' -> (forall i, i ∈ l -> view x' i = view (s_pcbs s) i) -> ready s id l -> ready (set_pcbs x' s) id l.
Proof. intros Hwf Hv [H1 H2 H3 H4]. split; [done|done|done|by apply sched_rep_view]. Qed.

(** The schedulers do not look at [current_process]. *)
Lemma ready_current s id l c : ready s id l -> ready (set_current c s) id l.
Proof.
  intros [H1 H2 H3 H4]. split; try done. revert H4. unfold sched_rep.
  by destruct (id =? SCHED_FCFS), (id =? SCHED_RR), (id =? SCHED_PRIORITY).
Qed.

Lemma relinked_view_core x x' X i :
  relinked x x' X -> (fun p => (state p, pid p, rsp p, priority p, stack_base p, name p)) <$> arr_get (pcb_table x') i
                   = (fun p => (state p, pid p, rsp p, priority p, stack_base p, name p)) <$> arr_get (pcb_table x) i.
Proof.
  intros Hr. pose proof (rl_core _ _ _ Hr i) as H.
  destruct (arr_get (pcb_table x') i), (arr_get (pcb_table x) i); cbn in *; try done. injection H; intros; congruence.
Qed.

(** * Running on the parts of the state *)

Lemma runs_on_sched {A} (m : prog sched A) k (Q : A -> kern -> Prop) :
  runs m (k_sched k) (fun a x => Q a (set_sched x k)) -> runs (on_sched m) k Q.
Proof. intros (a & x & Hm & HQ). exists a, (set_sched x k). split; [|done]. unfold on_sched. by rewrite Hm. Qed.

Lemma runs_on_table {A} (m : prog pcbs A) k (Q : A -> kern -> Prop) :
  runs m (s_pcbs (k_sched k)) (fun a x => Q a (set_sched (set_pcbs x (k_sched k)) k)) -> runs (on_table m) k Q.
Proof. intros H. by apply runs_on_sched, runs_on_pcbs. Qed.

(** The process table of a state. *)
Definition procs (k : kern) : pcbs := s_pcbs (k_sched k).

Lemma runs_table_get i p k (Q : pcb -> kern -> Prop) :
  arr_get (pcb_table (procs k)) i = Some p -> Q p k -> runs (on_table (get_pcb i)) k Q.
Proof.
  intros Hp HQ. apply runs_on_table. eapply runs_get_pcb; [exact Hp|]. by destruct k as [[] ? ? ? ? ?].
Qed.

(** The state with slot [i] replaced. *)
Definition with_pcb (i : Z) (p : pcb) (k : kern) : kern :=
  set_sched (set_pcbs (set_table (<[Z.to_nat i := p]> (pcb_table (procs k))) (procs k)) (k_sched k)) k.

Lemma runs_table_upd i f p k (Q : unit -> kern -> Prop) :
  arr_get (pcb_table (procs k)) i = Some p -> Q tt (with_pcb i (f p) k) -> runs (on_table (upd_pcb i f)) k Q.
Proof. intros Hp HQ. apply runs_on_table. by eapply runs_upd_pcb. Qed.

Lemma with_pcb_get i p q k j :
  arr_get (pcb_table (procs k)) i = Some q ->
  arr_get (pcb_table (procs (with_pcb i p k))) j = if j =? i then Some p else arr_get (pcb_table (procs k)) j.
Proof. intros Hq%arr_get_Some. by apply table_upd_get. Qed.

(** * The context switch *)

(** Memory after the return address and the registers are pushed. *)
Definition pushed (ret : Z) (c : cpu) (m : gmap Z Z) : gmap Z Z :=
  let r := c_rsp c in
  store 8 (r - 56) (c_r15 c) (store 8 (r - 48) (c_r14 c) (store 8 (r - 40) (c_r13 c) (store 8 (r - 32) (c_r12 c)
  (store 8 (r - 24) (c_rbx c) (store 8 (r - 16) (c_rbp c) (store 8 (r - 8) ret m)))))).

(** The registers popped from a save area at [s]. *)
Definition popped (s : Z) (m : gmap Z Z) : cpu :=
  mk_cpu (s + 56) (load 8 (s + 40) m) (load 8 (s + 32) m) (load 8 (s + 24) m) (load 8 (s + 16) m)
    (load 8 (s + 8) m) (load 8 s m).

Lemma push_regs_ok ret k : 56 <= c_rsp (k_cpu k) < 2 ^ 64 ->
  push_regs ret k = Some (tt, set_cpu (with_rsp (c_rsp (k_cpu k) - 56) (k_cpu k)) (set_mem (pushed ret (k_cpu k) (k_mem k)) k)).
Proof.
  destruct k as [s n pc b m [r bp bx r12 r13 r14 r15]]. cbn [k_cpu c_rsp]. intros Hr.
  unfold push_regs, push, reg, mbind, prog_bind, gets, modify.
  cbn [set_cpu set_mem k_cpu k_mem k_sched with_rsp c_rsp c_rbp c_rbx c_r12 c_r13 c_r14 c_r15 next_pid process_count blocked_queue].
  repeat match goal with |- context [u64 (?a - 8)] => rewrite (wrap_small 64 (a - 8)) by lia end.
  unfold pushed. cbn [c_rsp c_rbp c_rbx c_r12 c_r13 c_r14 c_r15]. rewrite <- !Z.sub_add_distr. reflexivity.
Qed.

Lemma pop_regs_ok k : 0 <= c_rsp (k_cpu k) < 2 ^ 64 - 56 ->
  pop_regs k = Some (load 8 (c_rsp (k_cpu k) + 48) (k_mem k), set_cpu (popped (c_rsp (k_cpu k)) (k_mem k)) k).
Proof.
  destruct k as [s n pc b m [r bp bx r12 r13 r14 r15]]. cbn [k_cpu c_rsp]. intros Hr.
  unfold pop_regs, pop, mbind, prog_bind, modify.
  cbn [set_cpu k_cpu k_mem k_sched with_rsp c_rsp c_rbp c_rbx c_r12 c_r13 c_r14 c_r15 next_pid process_count blocked_queue].
  repeat match goal with |- context [u64 (?a + 8)] => rewrite (wrap_small 64 (a + 8)) by lia end.
  unfold popped. rewrite <- !Z.add_assoc. reflexivity.
Qed.

(** The state after the save half of the switch. *)
Definition saved (ret : Z) (k : kern) : kern :=
  let k1 := set_cpu (with_rsp (c_rsp (k_cpu k) - 56) (k_cpu k)) (set_mem (pushed ret (k_cpu k) (k_mem k)) k) in
  match current_process (k_sched k) with
  | None => k1
  | Some i => default k1 ((fun p => with_pcb i (set_rsp (c_rsp (k_cpu k) - 56) p) k1) <$> arr_get (pcb_table (procs k)) i)
  end.

Lemma context_switch_run ret next k p :
  56 <= c_rsp (k_cpu k) < 2 ^ 64 ->
  (forall c, current_process (k_sched k) = Some c -> is_Some (arr_get (pcb_table (procs k)) c)) ->
  arr_get (pcb_table (procs (saved ret k))) next = Some p -> 0 <= rsp p < 2 ^ 64 - 56 ->
  context_switch ret next k =
    Some (load 8 (rsp p + 48) (k_mem (saved ret k)), set_cpu (popped (rsp p) (k_mem (saved ret k))) (saved ret k)).
Proof.
  intros Hr Hc Hp Hs.
  unfold context_switch, mbind, prog_bind. rewrite push_regs_ok by done. unfold get_current, gets at 1.
  cbn [set_cpu set_mem k_sched].
  assert (Hsv : (match current_process (k_sched k) with
      | None => mret tt
      | Some i => r ← reg c_rsp; on_table (upd_pcb i (set_rsp r))
      end : prog kern unit) (set_cpu (with_rsp (c_rsp (k_cpu k) - 56) (k_cpu k)) (set_mem (pushed ret (k_cpu k) (k_mem k)) k))
      = Some (tt, saved ret k)).
  { unfold saved. destruct (current_process (k_sched k)) as [c|]; [|done]. destruct (Hc c eq_refl) as [q Hq].
    enough (runs (r ← reg c_rsp; on_table (upd_pcb c (set_rsp r)))
      (set_cpu (with_rsp (c_rsp (k_cpu k) - 56) (k_cpu k)) (set_mem (pushed ret (k_cpu k) (k_mem k)) k))
      (fun _ k' => k' = with_pcb c (set_rsp (c_rsp (k_cpu k) - 56) q)
         (set_cpu (with_rsp (c_rsp (k_cpu k) - 56) (k_cpu k)) (set_mem (pushed ret (k_cpu k) (k_mem k)) k)))) as ([] & k' & -> & ->)
      by (by rewrite Hq).
    unfold reg. run. by eapply runs_table_upd; [exact Hq|]. }
  unfold mbind, prog_bind in Hsv. rewrite Hsv.
  destruct (runs_table_get next p (saved ret k) (fun a k' => a = p /\ k' = saved ret k) Hp (conj eq_refl eq_refl))
    as (a & k' & -> & -> & ->).
  unfold modify. rewrite pop_regs_ok by done. done.
Qed.

(** 64-bit registers, and room for the save area below the stack pointer. *)
Record cpu_ok (c : cpu) : Prop := {
  co_rsp : 56 <= c_rsp c < 2 ^ 64;
  co_rbp : 0 <= c_rbp c < 2 ^ (8 * 8); co_rbx : 0 <= c_rbx c < 2 ^ (8 * 8);
  co_r12 : 0 <= c_r12 c < 2 ^ (8 * 8); co_r13 : 0 <= c_r13 c < 2 ^ (8 * 8);
  co_r14 : 0 <= c_r14 c < 2 ^ (8 * 8); co_r15 : 0 <= c_r15 c < 2 ^ (8 * 8) }.

(** Popping what was just pushed gives the registers and the return address back. *)
Lemma popped_pushed ret c m : cpu_ok c -> 0 <= ret < 2 ^ (8 * 8) ->
  popped (c_rsp c - 56) (pushed ret c m) = c /\ load 8 (c_rsp c - 56 + 48) (pushed ret c m) = ret.
Proof.
  intros [Hr H1 H2 H3 H4 H5 H6] Hret. unfold popped, pushed. destruct c as [r bp bx r12 r13 r14 r15].
  cbn [c_rsp c_rbp c_rbx c_r12 c_r13 c_r14 c_r15] in *.
  replace (r - 56 + 56) with r by lia. replace (r - 56 + 48) with (r - 8) by lia. replace (r - 56 + 40) with (r - 16) by lia.
  replace (r - 56 + 32) with (r - 24) by lia. replace (r - 56 + 24) with (r - 32) by lia.
  replace (r - 56 + 16) with (r - 40) by lia. replace (r - 56 + 8) with (r - 48) by lia. mem_simp. done.
Qed.

Lemma saved_mem ret k : k_mem (saved ret k) = pushed ret (k_cpu k) (k_mem k).
Proof.
  unfold saved. destruct (current_process (k_sched k)) as [c|]; [|done]. by destruct (arr_get (pcb_table (procs k)) c).
Qed.

(** Switching to the process that [current_process] already names saves and
    restores the same context. *)
Lemma context_switch_self ret next k p :
  cpu_ok (k_cpu k) -> 0 <= ret < 2 ^ (8 * 8) -> current_process (k_sched k) = Some next ->
  arr_get (pcb_table (procs k)) next = Some p ->
  context_switch ret next k = Some (ret, set_cpu (k_cpu k) (set_mem (pushed ret (k_cpu k) (k_mem k))
    (with_pcb next (set_rsp (c_rsp (k_cpu k) - 56) p) k))).
Proof.
  intros Hcpu Hret Hcur Hp. pose proof (co_rsp _ Hcpu) as Hr.
  assert (Hs : saved ret k = with_pcb next (set_rsp (c_rsp (k_cpu k) - 56) p)
    (set_cpu (with_rsp (c_rsp (k_cpu k) - 56) (k_cpu k)) (set_mem (pushed ret (k_cpu k) (k_mem k)) k)))
    by (unfold saved; rewrite Hcur, Hp; done).
  rewrite (context_switch_run ret next k (set_rsp (c_rsp (k_cpu k) - 56) p)); [|done| | |cbn [rsp set_rsp]; lia].
  - rewrite saved_mem. cbn [rsp set_rsp]. destruct (popped_pushed ret (k_cpu k) (k_mem k) Hcpu Hret) as [-> ->].
    by rewrite Hs.
  - intros c Hc. rewrite Hcur in Hc. injection Hc as <-. by rewrite Hp.
  - rewrite Hs. erewrite with_pcb_get by exact Hp. by rewrite Z.eqb_refl.
Qed.

(** * The invariant of process management *)

(** What the invariant says of a process control block: state, pid, priority, name. *)
Definition core (p : pcb) : process_state * Z * Z * list Z := (state p, pid p, priority p, name p).
Definition core_of (x : pcbs) (i : Z) : option (process_state * Z * Z * list Z) := core <$> arr_get (pcb_table x) i.

Definition active_state (s : process_state) : bool :=
  bool_decide (s <> PROCESS_EMBRYO) && bool_decide (s <> PROCESS_TERMINATED).

(** A name fills its array and is terminated. *)
Definition name_ok (nm : list Z) : Prop := length nm = Z.to_nat PROCESS_NAME_MAX /\ 0 ∈ nm.

(** [cur] is the running process, [l] the queued ones.  Every slot in use
    belongs to one of them and is active, queued processes are READY, free
    slots are not active; the process count is exact, pids are distinct and
    below [next_pid]. *)
Record core_inv (cur : option Z) (l : list Z) (x : pcbs) (cnt npid : Z) : Prop := {
  ci_slots : NoDup l /\ Forall slot_ok l;
  ci_current c : cur = Some c -> slot_ok c /\ c ∉ l;
  ci_live i : slot_ok i -> slot_free x i = false <-> cur = Some i \/ i ∈ l;
  ci_core i st pd pr nm : core_of x i = Some (st, pd, pr, nm) ->
    active_state st = negb (slot_free x i) /\ (i ∈ l -> st = PROCESS_READY) /\ 0 <= pr /\
    name_ok nm /\ (slot_free x i = false -> pd < npid);
  ci_pids i j si pd pi ni sj pj nj : core_of x i = Some (si, pd, pi, ni) -> core_of x j = Some (sj, pd, pj, nj) ->
    slot_free x i = false -> slot_free x j = false -> i = j;
  ci_count : cnt = Z.of_nat (length l) + (match cur with Some _ => 1 | None => 0 end);
  ci_npid : 0 <= npid }.

Record proc_inv (k : kern) (id : Z) (l : list Z) : Prop := {
  pi_ready : ready (k_sched k) id l;
  pi_blocked : blocked_queue k = queue_init;
  pi_core : core_inv (current_process (k_sched k)) l (procs k) (process_count k) (next_pid k) }.

(** The core after changing the state of slot [i]. *)
Definition core_state (s : process_state) (c : process_state * Z * Z * list Z) : process_state * Z * Z * list Z :=
  let '(_, pd, pr, nm) := c in (s, pd, pr, nm).

Lemma slot_free_out x i : table_wf x -> ~ slot_ok i -> slot_free x i = false.
Proof. intros Hwf Hi. apply not_true_iff_false. intros H. by apply Hi, (slot_free_range x). Qed.

Lemma core_slot x i c : table_wf x -> core_of x i = Some c -> slot_ok i.
Proof.
  intros [Hl _] H. unfold core_of in H. destruct (arr_get (pcb_table x) i) eqn:E; [|done].
  apply arr_get_Some in E. rewrite Hl in E. unfold slot_ok, MAX_PROCESSES in *. lia.
Qed.

(** Steps that change the states of processes and free slots. *)
Lemma core_inv_step (g : Z -> process_state -> process_state) cur l x cnt npid cur' l' x' cnt' :
  table_wf x -> core_inv cur l x cnt npid ->
  (forall i, core_of x' i = (fun c => core_state (g i c.1.1.1) c) <$> core_of x i) ->
  NoDup l' -> Forall slot_ok l' -> (forall c, cur' = Some c -> slot_ok c /\ c ∉ l') ->
  (forall i, slot_ok i -> slot_free x' i = false <-> cur' = Some i \/ i ∈ l') ->
  (forall i, slot_ok i -> slot_free x' i = false -> slot_free x i = false) ->
  (forall i st, slot_ok i -> active_state st = negb (slot_free x i) -> (i ∈ l -> st = PROCESS_READY) ->
     active_state (g i st) = negb (slot_free x' i) /\ (i ∈ l' -> g i st = PROCESS_READY)) ->
  cnt' = Z.of_nat (length l') + (match cur' with Some _ => 1 | None => 0 end) ->
  core_inv cur' l' x' cnt' npid.
Proof.
  intros Hwf [[Hnd Hsl] Hcur Hlive Hcore Hpid Hcnt Hnp] Hc Hnd' Hsl' Hcur' Hlive' Hmono Hg Hcnt'.
  assert (Hold : forall i st pd pr nm, core_of x' i = Some (st, pd, pr, nm) ->
    exists st0, core_of x i = Some (st0, pd, pr, nm) /\ st = g i st0).
  { intros i st pd pr nm Hi. rewrite Hc in Hi. destruct (core_of x i) as [[[[st0 pd0] pr0] nm0]|]; cbn in Hi; simplify_eq; eauto. }
  split; try done.
  - intros i st pd pr nm Hi. destruct (Hold _ _ _ _ _ Hi) as (st0 & Ho & ->).
    destruct (Hcore _ _ _ _ _ Ho) as (Ha & Hr & ? & ? & Hp). assert (Hs : slot_ok i) by (by eapply core_slot).
    destruct (Hg i st0 Hs Ha Hr) as [? ?]. split_and!; auto.
  - intros i j si pd pi ni sj pj nj Hi Hj Hfi Hfj.
    destruct (Hold _ _ _ _ _ Hi) as (? & Hi' & _), (Hold _ _ _ _ _ Hj) as (? & Hj' & _).
    eapply Hpid; [exact Hi'|exact Hj'|apply Hmono; [by eapply core_slot|done]|apply Hmono; [by eapply core_slot|done]].
Qed.

(** [yield]: [c] goes to the queue, [n] comes from it. *)
Lemma core_inv_yield c n l l' x x' cnt npid :
  table_wf x -> core_inv (Some c) l x cnt npid -> n :: l' ≡ₚ c :: l ->
  (forall i, slot_free x' i = slot_free x i) ->
  (forall i, core_of x' i = (fun e => core_state (if i =? n then PROCESS_RUNNING else if i =? c then PROCESS_READY else e.1.1.1) e) <$> core_of x i) ->
  core_inv (Some n) l' x' cnt npid.
Proof.
  intros Hwf Hci Hperm Hf Hc. pose proof Hci as [[Hnd Hsl] Hcur Hlive Hcore Hpid Hcnt Hnp]. destruct (Hcur c eq_refl) as [Hcs Hcl].
  assert (Hnd' : NoDup (n :: l')) by (rewrite Hperm; by constructor).
  assert (Hsl' : Forall slot_ok (n :: l')) by (rewrite Hperm; by constructor).
  apply NoDup_cons in Hnd' as [Hn Hnd']. apply Forall_cons in Hsl' as [Hns Hsl'].
  assert (Hin : forall i, i = n \/ i ∈ l' <-> i = c \/ i ∈ l) by (intros i; rewrite <- !elem_of_cons; by rewrite Hperm).
  assert (Hlive' : forall i, slot_ok i -> slot_free x i = false <-> Some n = Some i \/ i ∈ l')
    by (intros i Hi; rewrite Hlive by done; specialize (Hin i); naive_solver).
  eapply (core_inv_step (fun i st => if i =? n then PROCESS_RUNNING else if i =? c then PROCESS_READY else st)); try done.
  - intros c' [= <-]. done.
  - intros i Hi. rewrite Hf. by apply Hlive'.
  - intros i Hi. by rewrite Hf.
  - intros i st Hi Ha Hr. rewrite Hf. destruct (Z.eqb_spec i n) as [->|Hin']; [|destruct (Z.eqb_spec i c) as [->|]].
    + rewrite (proj2 (Hlive' n Hi)) by auto. done.
    + rewrite (proj2 (Hlive c Hi)) by auto. done.
    + split; [done|]. intros Hil. apply Hr. destruct (proj1 (Hin i) (or_intror Hil)); done.
  - rewrite Hcnt. apply Permutation_length in Hperm. cbn [length] in Hperm. lia.
Qed.

(** [process_exit]: the running [c] leaves, [n] comes from the queue. *)
Lemma core_inv_exit c n l' x x' cnt npid :
  table_wf x -> core_inv (Some c) (n :: l') x cnt npid ->
  (forall i, slot_free x' i = if i =? c then true else slot_free x i) ->
  (forall i, core_of x' i = (fun e => core_state (if i =? c then PROCESS_TERMINATED else if i =? n then PROCESS_RUNNING else e.1.1.1) e) <$> core_of x i) ->
  core_inv (Some n) l' x' (cnt - 1) npid.
Proof.
  intros Hwf Hci Hf Hc. pose proof Hci as [[Hnd Hsl] Hcur Hlive Hcore Hpid Hcnt Hnp]. destruct (Hcur c eq_refl) as [Hcs Hcl].
  apply NoDup_cons in Hnd as [Hn Hnd']. apply Forall_cons in Hsl as [Hns Hsl'].
  apply not_elem_of_cons in Hcl as [Hcn Hcl].
  eapply (core_inv_step (fun i st => if i =? c then PROCESS_TERMINATED else if i =? n then PROCESS_RUNNING else st)); try done.
  - intros c' [= <-]. done.
  - intros i Hi. rewrite Hf. destruct (Z.eqb_spec i c) as [->|Hic].
    + split; [done|]. intros [[= ->]|?]; done.
    + rewrite Hlive, elem_of_cons by done. naive_solver.
  - intros i Hi. rewrite Hf. by destruct (i =? c).
  - intros i st Hi Ha Hr. rewrite Hf. destruct (Z.eqb_spec i c) as [->|]; [done|]. destruct (Z.eqb_spec i n) as [->|].
    + rewrite (proj2 (Hlive n Hi)) by set_solver. done.
    + split; [done|]. intros Hil. apply Hr. set_solver.
  - rewrite Hcnt. cbn [length]. lia.
Qed.

(** [process_kill]: the queued [d] leaves. *)
Lemma core_inv_kill d cur l x x' cnt npid :
  table_wf x -> core_inv cur l x cnt npid -> d ∈ l ->
  (forall i, slot_free x' i = if i =? d then true else slot_free x i) ->
  (forall i, core_of x' i = (fun e => core_state (if i =? d then PROCESS_TERMINATED else e.1.1.1) e) <$> core_of x i) ->
  core_inv cur (filter (.≠ d) l) x' (cnt - 1) npid.
Proof.
  intros Hwf Hci Hd Hf Hc. pose proof Hci as [[Hnd Hsl] Hcur Hlive Hcore Hpid Hcnt Hnp].
  eapply (core_inv_step (fun i st => if i =? d then PROCESS_TERMINATED else st)); try done.
  - by apply NoDup_filter.
  - rewrite Forall_forall in *. intros i [_ Hi]%list_elem_of_filter. auto.
  - intros c Hcc. destruct (Hcur c Hcc) as [? Hcl]. split; [done|]. rewrite list_elem_of_filter. tauto.
  - intros i Hi. rewrite Hf, list_elem_of_filter. destruct (Z.eqb_spec i d) as [->|Hid].
    + split; [done|]. intros [Hcc|[? _]]; [|done]. by destruct (Hcur d Hcc).
    + rewrite Hlive by done. tauto.
  - intros i Hi. rewrite Hf. by destruct (i =? d).
  - intros i st Hi Ha Hr. rewrite Hf, list_elem_of_filter. destruct (Z.eqb_spec i d) as [->|]; [by split; [|intros [? _]]|].
    split; [done|]. intros [_ ?]. auto.
  - rewrite Hcnt. apply list_elem_of_split in Hd as (l1 & l2 & ->).
    apply NoDup_app in Hnd as (_ & Hd1 & Hnd2). apply NoDup_cons in Hnd2 as [Hd2 _].
    rewrite filter_app, filter_cons_False, !filter_ne_id, !length_app by (done || tauto || (intros ?; eapply Hd1; set_solver)).
    cbn [length]. lia.
Qed.

(** [process_create]: the free slot [d] becomes a READY process at the end of
    its rank. *)
Lemma core_inv_create d cur l l' x x' cnt npid pr nm :
  table_wf x -> core_inv cur l x cnt npid -> slot_ok d -> slot_free x d = true -> l' ≡ₚ d :: l ->
  0 <= pr -> name_ok nm ->
  (forall i, slot_free x' i = if i =? d then false else slot_free x i) ->
  (forall i, core_of x' i = if i =? d then Some (PROCESS_READY, npid, pr, nm) else core_of x i) ->
  core_inv cur l' x' (cnt + 1) (npid + 1).
Proof.
  intros Hwf [[Hnd Hsl] Hcur Hlive Hcore Hpid Hcnt Hnp] Hd Hfree Hperm Hpr Hnm Hf Hc.
  assert (Hdl : d ∉ l) by (intros H; by rewrite (proj2 (Hlive d Hd)) in Hfree by auto).
  assert (Hdc : cur <> Some d) by (intros H; by rewrite (proj2 (Hlive d Hd)) in Hfree by auto).
  assert (Hin : forall i, i ∈ l' <-> i = d \/ i ∈ l) by (intros i; rewrite Hperm; apply elem_of_cons).
  split.
  - rewrite Hperm. split; by constructor.
  - intros c Hcc. destruct (Hcur c Hcc). split; [done|]. rewrite Hin. naive_solver.
  - intros i Hi. rewrite Hf, Hin. destruct (Z.eqb_spec i d) as [->|]; [tauto|]. rewrite Hlive by done. tauto.
  - intros i st pd p n Hi. rewrite Hc in Hi. rewrite Hf, Hin. destruct (Z.eqb_spec i d) as [->|].
    + simplify_eq. split_and!; try done; lia.
    + destruct (Hcore _ _ _ _ _ Hi) as (? & ? & ? & ? & Hlt). split_and!; try done; [tauto|]. intros ?. specialize (Hlt ltac:(done)). lia.
  - intros i j si pd pi ni sj pj nj Hi Hj. rewrite Hc in Hi, Hj. rewrite !Hf.
    destruct (Z.eqb_spec i d) as [->|], (Z.eqb_spec j d) as [->|]; simplify_eq; intros Hfi Hfj; try done.
    + destruct (Hcore _ _ _ _ _ Hj) as (_ & _ & _ & _ & Hlt). specialize (Hlt Hfj). lia.
    + destruct (Hcore _ _ _ _ _ Hi) as (_ & _ & _ & _ & Hlt). specialize (Hlt Hfi). lia.
    + by eapply Hpid.
  - rewrite Hcnt. apply Permutation_length in Hperm. rewrite Hperm. cbn [length]. lia.
  - lia.
Qed.

(** * The operations keep the invariant *)

Lemma insert_rank_perm rk p l : insert_rank rk p l ≡ₚ p :: l.
Proof.
  induction l as [|x l IH]; cbn [insert_rank]; [done|]. destruct (rk p <? rk x); [done|]. rewrite IH. constructor.
Qed.

Lemma relinked_core x x' X i : relinked x x' X -> core_of x' i = core_of x i.
Proof.
  intros Hr. unfold core_of. pose proof (rl_core _ _ _ Hr i) as H.
  destruct (arr_get (pcb_table x') i), (arr_get (pcb_table x) i); cbn in *; try done. injection H; intros. unfold core. congruence.
Qed.

Lemma relinked_free x x' X i : relinked x x' X -> slot_free x' i = slot_free x i.
Proof. intros Hr. unfold slot_free. by rewrite (rl_map _ _ _ Hr). Qed.

Lemma relinked_get x x' X i p : relinked x x' X -> arr_get (pcb_table x) i = Some p ->
  exists p', arr_get (pcb_table x') i = Some p' /\ core p' = core p.
Proof.
  intros Hr Hp. pose proof (relinked_core x x' X i Hr) as H. unfold core_of in H. rewrite Hp in H.
  destruct (arr_get (pcb_table x') i) as [p'|]; cbn [fmap option_fmap option_map] in H; [|done]. exists p'. split; [done|]. by apply (inj Some).
Qed.

Lemma with_pcb_core i p q k j :
  arr_get (pcb_table (procs k)) i = Some q ->
  core_of (procs (with_pcb i p k)) j = if j =? i then Some (core p) else core_of (procs k) j.
Proof. intros Hq. unfold core_of. rewrite (with_pcb_get i p q k j Hq). by destruct (j =? i). Qed.

(** Changing the state of one process, on cores. *)
Definition restate (d : Z) (st : process_state) (i : Z) (e : process_state * Z * Z * list Z) : process_state * Z * Z * list Z :=
  core_state (if i =? d then st else e.1.1.1) e.

Lemma with_pcb_restate d st p q k i :
  arr_get (pcb_table (procs k)) d = Some q -> core p = core_state st (core q) ->
  core_of (procs (with_pcb d p k)) i = restate d st i <$> core_of (procs k) i.
Proof.
  intros Hq Hp. rewrite (with_pcb_core d p q k i Hq). unfold restate. destruct (Z.eqb_spec i d) as [->|].
  - unfold core_of. rewrite Hq. cbn [fmap option_fmap option_map]. by rewrite Hp.
  - by destruct (core_of (procs k) i) as [[[[? ?] ?] ?]|].
Qed.

(** Changing the saved stack pointer only. *)
Lemma with_rsp_core d r q k i :
  arr_get (pcb_table (procs k)) d = Some q -> core_of (procs (with_pcb d (set_rsp r q) k)) i = core_of (procs k) i.
Proof.
  intros Hq. rewrite (with_pcb_core d _ q k i Hq). destruct (Z.eqb_spec i d) as [->|]; [|done].
  unfold core_of. by rewrite Hq.
Qed.

Lemma with_pcb_wf i p k : table_wf (procs k) -> table_wf (procs (with_pcb i p k)).
Proof. intros [Hl Hm]. split; [|done]. unfold procs, with_pcb. cbn [set_sched k_sched set_pcbs s_pcbs set_table pcb_table]. by rewrite length_insert. Qed.

(** Changing a process control block, but not its link and priority, leaves
    the ready queue as it is. *)
Lemma with_pcb_ready i p q k id l :
  arr_get (pcb_table (procs k)) i = Some q -> (i ∈ l -> next p = next q /\ priority p = priority q) ->
  ready (k_sched k) id l -> ready (k_sched (with_pcb i p k)) id l.
Proof.
  intros Hq Hkeep Hr. apply ready_view; [apply (with_pcb_wf i p k), Hr| |done].
  intros j Hj. unfold view.
  change (set_table (<[Z.to_nat i := p]> (pcb_table (procs k))) (procs k)) with (procs (with_pcb i p k)).
  rewrite (with_pcb_get i p q k j Hq). destruct (Z.eqb_spec j i) as [->|]; [|done].
  unfold procs in Hq. rewrite Hq. cbn. destruct (Hkeep Hj) as [-> ->]. done.
Qed.

Lemma inv_slot k id l i : proc_inv k id l -> slot_ok i -> exists p, arr_get (pcb_table (procs k)) i = Some p.
Proof. intros H Hi. apply table_get; [apply (rd_wf _ _ _ (pi_ready _ _ _ H))|done]. Qed.

Lemma inv_wf k id l : proc_inv k id l -> table_wf (procs k).
Proof. intros H. apply (rd_wf _ _ _ (pi_ready _ _ _ H)). Qed.

Lemma inv_prio k id l i : proc_inv k id l -> 0 <= prio_in (procs k) i.
Proof.
  intros H. unfold prio_in. destruct (arr_get (pcb_table (procs k)) i) as [p|] eqn:Hp; [|done]. cbn.
  eapply (ci_core _ _ _ _ _ (pi_core _ _ _ H) i (state p) (pid p) (priority p) (name p)). unfold core_of. by rewrite Hp.
Qed.

(** The dispatch at the end of [yield] and [process_exit]: [n] is made the
    running process and switched to, which comes back to the caller. *)
Lemma dispatch_ok ret n k p :
  cpu_ok (k_cpu k) -> 0 <= ret < 2 ^ (8 * 8) -> arr_get (pcb_table (procs k)) n = Some p ->
  current_process (k_sched k) = Some n ->
  runs (context_switch ret n) k (fun a k' =>
    a = ret /\ k_cpu k' = k_cpu k /\
    k' = set_cpu (k_cpu k) (set_mem (k_mem k') (with_pcb n (set_rsp (c_rsp (k_cpu k) - 56) p) k))).
Proof.
  intros Hcpu Hret Hp Hcur. eexists _, _. split; [by apply context_switch_self|]. done.
Qed.

(** What creation and [yield] need: the queue is intact and its processes hold
    their slots.  Other processes may be in no queue. *)
Record tasks (k : kern) (id : Z) (l : list Z) : Prop := {
  tk_ready : ready (k_sched k) id l;
  tk_slots : Forall slot_ok l;
  tk_used i : i ∈ l -> slot_free (procs k) i = false;
  tk_names i p : arr_get (pcb_table (procs k)) i = Some p -> name_ok (name p) /\ 0 <= priority p;
  tk_pid : 0 <= next_pid k }.

Lemma inv_tasks k id l : proc_inv k id l -> tasks k id l.
Proof.
  intros [Hr Hb Hci]. destruct (ci_slots _ _ _ _ _ Hci) as [_ Hsl]. split; [done|done| | |apply (ci_npid _ _ _ _ _ Hci)].
  - intros i Hi. apply (ci_live _ _ _ _ _ Hci); [|auto]. rewrite Forall_forall in Hsl. auto.
  - intros i p Hp. destruct (ci_core _ _ _ _ _ Hci i (state p) (pid p) (priority p) (name p)) as (_ & _ & ? & ? & _); [|done].
    unfold core_of. by rewrite Hp.
Qed.

Lemma tasks_slot k id l i : tasks k id l -> slot_ok i -> exists p, arr_get (pcb_table (procs k)) i = Some p /\ 0 <= prio_in (procs k) i.
Proof.
  intros Ht Hi. destruct (table_get (procs k) i (rd_wf _ _ _ (tk_ready _ _ _ Ht)) Hi) as [p Hp]. exists p. split; [done|].
  unfold prio_in. rewrite Hp. by apply (tk_names _ _ _ Ht i p).
Qed.

(** Names, priorities and slots survive what changes links, states and saved
    stack pointers only. *)
Lemma tasks_core k k' id l l' :
  tasks k id l -> ready (k_sched k') id l' -> Forall slot_ok l' -> (forall i, i ∈ l' -> slot_free (procs k) i = false) ->
  (forall i, slot_free (procs k') i = slot_free (procs k) i) ->
  (forall i, exists f, core_of (procs k') i = (fun e : process_state * Z * Z * list Z => (f e, e.1.1.2, e.1.2, e.2)) <$> core_of (procs k) i) ->
  next_pid k' = next_pid k -> tasks k' id l'.
Proof.
  intros [_ _ _ Hnm Hn] Hr' Hsl' Hu Hf Hc Hn'. split; [done|done| | |by rewrite Hn'].
  - intros i Hi. rewrite Hf. auto.
  - intros i p Hp. destruct (Hc i) as [f Hci]. unfold core_of in Hci. rewrite Hp in Hci.
    destruct (arr_get (pcb_table (procs k)) i) as [q|] eqn:Hq; [|done]. cbn in Hci. injection Hci as _ _ -> ->. by eapply Hnm.
Qed.

Lemma yield_tasks ret k id l c :
  tasks k id l -> cpu_ok (k_cpu k) -> 0 <= ret < 2 ^ (8 * 8) -> current_process (k_sched k) = Some c ->
  slot_ok c -> c ∉ l -> slot_free (procs k) c = false ->
  runs (yield ret) k (fun a k' =>
    a = Some ret /\ k_cpu k' = k_cpu k /\
    exists n l', insert_rank (fun i => sched_rank id (prio_in (procs k) i)) c l = n :: l' /\
      current_process (k_sched k') = Some n /\ tasks k' id l' /\
      (forall i, slot_free (procs k') i = slot_free (procs k) i) /\
      (forall i, core_of (procs k') i = restate n PROCESS_RUNNING i <$> (restate c PROCESS_READY i <$> core_of (procs k) i)) /\
      (next_pid k', process_count k', blocked_queue k') = (next_pid k, process_count k, blocked_queue k)).
Proof.
  intros Ht Hcpu Hret Hcur Hcs Hcl Hcf. pose proof (tk_ready _ _ _ Ht) as Hr. destruct (tasks_slot _ _ _ c Ht Hcs) as (pc & Hpc & Hpp).
  unfold yield, get_current. run. rewrite Hcur. run. eapply runs_table_upd; [exact Hpc|].
  set (k1 := with_pcb c (set_state PROCESS_READY pc) k).
  assert (Hr1 : ready (k_sched k1) id l) by (by eapply with_pcb_ready; [exact Hpc| |]).
  assert (Hprio1 : forall i, prio_in (procs k1) i = prio_in (procs k) i).
  { intros i. unfold prio_in. unfold k1. rewrite (with_pcb_get _ _ _ _ i Hpc). destruct (Z.eqb_spec i c) as [->|]; [|done]. by rewrite Hpc. }
  run. apply runs_on_sched. eapply runs_mono; [apply (scheduler_add_ok _ _ _ Hr1); [done|done|]|].
  { fold (procs k1). by rewrite Hprio1. }
  intros [] s2 (Hr2 & Hrl2 & Hf2). fold (procs k1) in Hr2, Hrl2.
  rewrite (insert_rank_ext _ (fun i => sched_rank id (prio_in (procs k) i))) in Hr2 by (intros i; by rewrite Hprio1).
  set (l1 := insert_rank _ c l) in *. pose proof (insert_rank_perm (fun i => sched_rank id (prio_in (procs k) i)) c l) as Hperm. fold l1 in Hperm.
  run. apply runs_on_sched. eapply runs_mono; [apply (scheduler_next_ok _ _ _ Hr2)|].
  intros r s3 (-> & Hr3 & Hrl3 & Hf3). cbn [set_sched k_sched] in *.
  destruct l1 as [|n l']; [by apply Permutation_nil_cons in Hperm|]. cbn [head tail] in *. run.
  assert (Hsl : Forall slot_ok (n :: l')) by (rewrite Hperm; constructor; [done|apply Ht]). apply Forall_cons in Hsl as [Hns Hsl'].
  set (k3 := set_sched s3 (set_sched s2 k1)).
  destruct (table_get (procs k3) n (rd_wf _ _ _ Hr3) Hns) as [pn Hpn].
  eapply runs_table_upd; [exact Hpn|]. unfold put_current. run. apply runs_on_sched. run.
  set (k5 := set_sched _ (with_pcb n _ k3)).
  assert (Hpn5 : arr_get (pcb_table (procs k5)) n = Some (set_state PROCESS_RUNNING pn)).
  { pose proof (with_pcb_get n (set_state PROCESS_RUNNING pn) pn k3 n Hpn) as H. by rewrite Z.eqb_refl in H. }
  eapply runs_mono; [eapply (dispatch_ok ret n k5); [done|done|exact Hpn5|done]|].
  intros a k' (-> & Hcpu' & Hk'). run. split_and!; try done. exists n, l'. rewrite Hk'.
  assert (Hr5 : ready (k_sched k5) id l') by (apply ready_current; eapply (with_pcb_ready n _ pn k3); [exact Hpn|done|exact Hr3]).
  match goal with |- _ /\ _ /\ _ /\ ?F /\ ?G /\ _ => assert (Hcore : G); [|assert (Hfree : F)] end.
  { intros i. transitivity (core_of (procs k5) i); [exact (with_rsp_core n _ _ k5 i Hpn5)|].
    rewrite <- (with_pcb_restate c PROCESS_READY (set_state PROCESS_READY pc) pc k i Hpc) by done.
    fold k1. rewrite <- (relinked_core _ _ _ i Hrl2), <- (relinked_core _ _ _ i Hrl3).
    by apply (with_pcb_restate n PROCESS_RUNNING _ pn k3 i Hpn). }
  { intros i. change (slot_free (s_pcbs s3) i = slot_free (procs k1) i).
    by rewrite (relinked_free _ _ _ i Hrl3), (relinked_free _ _ _ i Hrl2). }
  split_and!; try done. eapply (tasks_core k _ id l); try done.
  - cbn [set_cpu set_mem k_sched]. eapply with_pcb_ready; [exact Hpn5|done|exact Hr5].
  - intros i Hi. assert (Hin : i = c \/ i ∈ l) by (apply elem_of_cons; rewrite <- Hperm; apply elem_of_cons; by right).
    destruct Hin as [->|Hin]; [done|]. by apply Ht.
  - intros i. eexists (fun e => if i =? n then PROCESS_RUNNING else if i =? c then PROCESS_READY else e.1.1.1). rewrite Hcore.
    destruct (core_of (procs k) i) as [[[[? ?] ?] ?]|]; [|done]. unfold restate. by destruct (i =? n), (i =? c).
Qed.

Lemma yield_run ret k id l c :
  proc_inv k id l -> cpu_ok (k_cpu k) -> 0 <= ret < 2 ^ (8 * 8) -> current_process (k_sched k) = Some c ->
  runs (yield ret) k (fun a k' =>
    a = Some ret /\ k_cpu k' = k_cpu k /\ next_pid k' = next_pid k /\
    exists n l', insert_rank (fun i => sched_rank id (prio_in (procs k) i)) c l = n :: l' /\
      current_process (k_sched k') = Some n /\ proc_inv k' id l' /\
      forall i, core_of (procs k') i = restate n PROCESS_RUNNING i <$> (restate c PROCESS_READY i <$> core_of (procs k) i)).
Proof.
  intros Hinv Hcpu Hret Hcur. pose proof Hinv as [Hr Hb Hci]. destruct (ci_current _ _ _ _ _ Hci c Hcur) as [Hcs Hcl].
  eapply runs_mono; [apply (yield_tasks ret k id l c); try done; [by apply inv_tasks|apply (ci_live _ _ _ _ _ Hci); auto]|].
  intros a k' (-> & Hcpu' & n & l' & Hl & Hn & Ht & Hf & Hcore & [= Hn' Hc' Hb']). split_and!; try done. exists n, l'. split_and!; try done.
  split; [apply Ht|congruence|]. rewrite Hn, Hn', Hc'.
  eapply core_inv_yield; [by eapply inv_wf|rewrite <- Hcur; exact Hci|rewrite <- Hl; apply insert_rank_perm|exact Hf|].
  intros i. rewrite Hcore. destruct (core_of (procs k) i) as [[[[? ?] ?] ?]|]; [|done]. unfold restate. by destruct (i =? n), (i =? c).
Qed.

Lemma yield_ok ret k id l c :
  proc_inv k id l -> cpu_ok (k_cpu k) -> 0 <= ret < 2 ^ (8 * 8) -> current_process (k_sched k) = Some c ->
  runs (yield ret) k (fun a k' =>
    a = Some ret /\ k_cpu k' = k_cpu k /\
    exists n l', insert_rank (fun i => sched_rank id (prio_in (procs k) i)) c l = n :: l' /\
      current_process (k_sched k') = Some n /\ proc_inv k' id l').
Proof.
  intros Hinv Hcpu Hret Hcur. eapply runs_mono; [by eapply yield_run|].
  intros a k' (-> & Hc & _ & n & l' & Hl & Hn & Hinv' & _). split_and!; try done. by exists n, l'.
Qed.

Lemma inv_count k id l : proc_inv k id l -> 0 <= process_count k <= 65 /\ Z.of_nat (length l) <= process_count k.
Proof.
  intros H. rewrite (ci_count _ _ _ _ _ (pi_core _ _ _ H)). destruct (ci_slots _ _ _ _ _ (pi_core _ _ _ H)) as [Hnd Hs].
  pose proof (slots_length l Hnd Hs). destruct (current_process _); lia.
Qed.

(** A table with slot [d] freed, in the state [k]. *)
Lemma slot_set_ready k id l d q x :
  slot_set (procs k) d q true x -> d ∉ l -> ready (k_sched k) id l -> ready (set_pcbs x (k_sched k)) id l.
Proof.
  intros Hs Hd Hr. apply ready_view; [apply Hs| |done]. intros j Hj. unfold view. rewrite (ss_pcb _ _ _ _ _ Hs).
  destruct (Z.eqb_spec j d) as [->|]; [done|]. done.
Qed.

Lemma slot_set_restate k d st q p v x i :
  slot_set (procs k) d p v x -> arr_get (pcb_table (procs k)) d = Some q -> core p = core_state st (core q) ->
  core_of x i = restate d st i <$> core_of (procs k) i.
Proof.
  intros Hs Hq Hp. unfold core_of, restate. rewrite (ss_pcb _ _ _ _ _ Hs). destruct (Z.eqb_spec i d) as [->|].
  - rewrite Hq. cbn [fmap option_fmap option_map]. by rewrite Hp.
  - by destruct (arr_get (pcb_table (procs k)) i).
Qed.

Lemma process_exit_ok ret k id l c :
  proc_inv k id l -> cpu_ok (k_cpu k) -> 0 <= ret < 2 ^ (8 * 8) -> current_process (k_sched k) = Some c ->
  match l with
  | [] => process_exit ret k = None
  | n :: l' => runs (process_exit ret) k (fun a k' =>
      a = Some ret /\ k_cpu k' = k_cpu k /\ current_process (k_sched k') = Some n /\
      slot_free (procs k') c = true /\ proc_inv k' id l')
  end.
Proof.
  intros Hinv Hcpu Hret Hcur. pose proof Hinv as [Hr Hb Hci]. destruct (ci_current _ _ _ _ _ Hci c Hcur) as [Hcs Hcl].
  destruct (inv_slot _ _ _ c Hinv Hcs) as [pc Hpc]. pose proof (inv_count _ _ _ Hinv) as [Hcnt Hcntl].
  set (k1 := set_count (u32 (process_count k - 1)) (with_pcb c (set_state PROCESS_TERMINATED pc) k)).
  assert (Hr1 : ready (k_sched k1) id l) by (by eapply (with_pcb_ready c _ pc k)).
  pose proof (scheduler_next_ok _ _ _ Hr1) as (r & s2 & Hnext & -> & Hr2 & Hrl2 & Hf2). fold (procs k1) in Hrl2.
  destruct l as [|n l'].
  { unfold process_exit, get_current, mbind, prog_bind, gets, modify. rewrite Hcur.
    destruct (runs_table_upd c (set_state PROCESS_TERMINATED) pc k (fun _ k' => k' = with_pcb c (set_state PROCESS_TERMINATED pc) k) Hpc eq_refl)
      as ([] & k' & -> & ->). unfold on_sched.
    match goal with |- context [scheduler_next (k_sched ?x)] => change (k_sched x) with (k_sched k1) end. by rewrite Hnext. }
  unfold process_exit, get_current. run. rewrite Hcur. run. eapply runs_table_upd; [exact Hpc|]. run.
  match goal with |- runs _ ?x _ => change x with k1 end. apply runs_on_sched. eexists _, s2. split; [exact Hnext|]. cbn [head tail] in *. run.
  set (k2 := set_sched s2 k1).
  pose proof (ci_slots _ _ _ _ _ Hci) as [Hnd Hsl]. apply NoDup_cons in Hnd as [Hn _]. apply Forall_cons in Hsl as [Hns _].
  apply not_elem_of_cons in Hcl as [Hcn Hcl].
  destruct (table_get (procs k2) n (rd_wf _ _ _ Hr2) Hns) as [pn Hpn].
  eapply runs_table_upd; [exact Hpn|]. unfold put_current. run. apply runs_on_sched. run.
  set (k4 := set_sched _ (with_pcb n _ k2)).
  assert (Hr4 : ready (k_sched k4) id l') by (apply ready_current; by eapply (with_pcb_ready n _ pn k2)).
  destruct (table_get (procs k4) c (rd_wf _ _ _ Hr4) Hcs) as [pc4 Hpc4].
  apply runs_on_table. eapply runs_mono; [by apply (pcb_free_ok (procs k4) c pc4); [apply Hr4| |]|]. intros [] x5 Hs5.
  set (k5 := set_sched (set_pcbs x5 (k_sched k4)) k4).
  assert (Hpn5 : arr_get (pcb_table (procs k5)) n = Some (set_state PROCESS_RUNNING pn)).
  { change (arr_get (pcb_table x5) n = Some (set_state PROCESS_RUNNING pn)). rewrite (ss_pcb _ _ _ _ _ Hs5).
    rewrite (proj2 (Z.eqb_neq n c)) by done.
    pose proof (with_pcb_get n (set_state PROCESS_RUNNING pn) pn k2 n Hpn) as H. by rewrite Z.eqb_refl in H. }
  run. eapply runs_mono; [by eapply (dispatch_ok ret n k5); [| |exact Hpn5|]|].
  intros a k' (-> & Hcpu' & Hk'). run. rewrite Hk'.
  assert (Hfree : forall i, slot_free x5 i = if i =? c then true else slot_free (procs k) i).
  { intros i. rewrite (ss_free _ _ _ _ _ Hs5). destruct (i =? c); [done|].
    change (slot_free (s_pcbs s2) i = slot_free (procs k1) i). by rewrite (relinked_free _ _ _ i Hrl2). }
  split_and!; try done; [change (slot_free x5 c = true); by rewrite Hfree, Z.eqb_refl|].
  split; cbn [set_cpu set_mem k_sched blocked_queue process_count next_pid]; [|done|].
  - eapply (with_pcb_ready n _ _ k5); [exact Hpn5|done|]. by eapply slot_set_ready.
  - change (process_count (with_pcb n (set_rsp (c_rsp (k_cpu k5) - 56) (set_state PROCESS_RUNNING pn)) k5))
      with (u32 (process_count k - 1)). cbn [length] in Hcntl. rewrite wrap_small by lia.
    eapply core_inv_exit; [by eapply inv_wf|rewrite <- Hcur; exact Hci|exact Hfree|].
    intros i. transitivity (core_of x5 i); [exact (with_rsp_core n _ _ k5 i Hpn5)|].
    transitivity (restate c PROCESS_TERMINATED i <$> (restate n PROCESS_RUNNING i <$> (restate c PROCESS_TERMINATED i <$> core_of (procs k) i))).
    + rewrite <- (with_pcb_restate c PROCESS_TERMINATED (set_state PROCESS_TERMINATED pc) pc k i Hpc) by done.
      change (procs (with_pcb c (set_state PROCESS_TERMINATED pc) k)) with (procs k1).
      rewrite <- (relinked_core _ _ _ i Hrl2). change (s_pcbs s2) with (procs k2).
      rewrite <- (with_pcb_restate n PROCESS_RUNNING (set_state PROCESS_RUNNING pn) pn k2 i Hpn) by done.
      exact (slot_set_restate k4 c _ pc4 _ true x5 i Hs5 Hpc4 eq_refl).
    + destruct (core_of (procs k) i) as [[[[? ?] ?] ?]|]; [|done]. unfold restate. by destruct (i =? n), (i =? c).
Qed.

Lemma inv_active_used k id l i p :
  proc_inv k id l -> arr_get (pcb_table (procs k)) i = Some p -> active p = true ->
  slot_ok i /\ (current_process (k_sched k) = Some i \/ i ∈ l).
Proof.
  intros Hinv Hp Ha. pose proof (pi_core _ _ _ Hinv) as Hci.
  assert (Hc : core_of (procs k) i = Some (state p, pid p, priority p, name p)) by (unfold core_of; by rewrite Hp).
  assert (Hs : slot_ok i) by (eapply core_slot; [by eapply inv_wf|exact Hc]). split; [done|].
  apply (ci_live _ _ _ _ _ Hci i Hs). destruct (ci_core _ _ _ _ _ Hci _ _ _ _ _ Hc) as [Hst _].
  apply negb_true_iff. by rewrite <- Hst.
Qed.

Lemma kill_other_run n k id l :
  proc_inv k id l -> (forall c p, current_process (k_sched k) = Some c -> arr_get (pcb_table (procs k)) c = Some p -> pid p <> n) ->
  runs (kill_other n) k (fun r k' =>
    (r = -1 /\ k' = k /\ forall i p, arr_get (pcb_table (procs k)) i = Some p -> active p = true -> pid p <> n) \/
    (r = 0 /\ exists d p, d ∈ l /\ arr_get (pcb_table (procs k)) d = Some p /\ pid p = n /\
       (forall i, slot_free (procs k') i = if i =? d then true else slot_free (procs k) i) /\
       (forall i, core_of (procs k') i = restate d PROCESS_TERMINATED i <$> core_of (procs k) i) /\
       current_process (k_sched k') = current_process (k_sched k) /\ (k_cpu k', next_pid k') = (k_cpu k, next_pid k) /\
       proc_inv k' id (filter (.≠ d) l))).
Proof.
  intros Hinv Hcp. pose proof Hinv as [Hr Hb Hci]. unfold kill_other. run. apply runs_on_table.
  eapply runs_mono; [apply pcb_by_pid_ok; by eapply inv_wf|]. intros r x [-> Hx]. change (s_pcbs (k_sched k)) with (procs k) in Hx |- *.
  replace (set_sched (set_pcbs (procs k) (k_sched k)) k) with k by by destruct k as [[] ? ? ? ? ?].
  destruct r as [d|]; run; [|by left].
  destruct Hx as (p & Hp & Ha & Hpid & _). destruct (inv_active_used _ _ _ _ _ Hinv Hp Ha) as [Hds Hdl].
  assert (Hd : d ∈ l) by (destruct Hdl as [Hcd|]; [|done]; by destruct (Hcp d p Hcd Hp)).
  assert (Hdf : d ∉ filter (.≠ d) l) by (intros H; apply list_elem_of_filter in H; tauto).
  apply runs_on_sched. eapply runs_mono; [apply (scheduler_remove_ok _ _ _ Hr d)|]. intros [] s1 (Hr1 & Hrl1 & Hf1).
  change (s_pcbs (k_sched k)) with (procs k) in Hrl1. run. set (k1 := set_sched s1 k).
  change (blocked_queue k1) with (blocked_queue k). rewrite Hb.
  apply runs_on_table. eapply runs_mono; [apply (queue_remove_ok _ _ [] d); [apply Hr1|apply queue_init_rep]|].
  intros q x [Hq Hrl2]. change (s_pcbs (k_sched k1)) with (s_pcbs s1) in Hrl2.
  assert (Hqi : q = queue_init) by (destruct q as [h t c]; destruct Hq as [_ _ H1 H2 H3 _]; cbn in *; by subst).
  assert (Hr2 : ready (set_pcbs x s1) id (filter (.≠ d) l)).
  { apply ready_view; [eapply relinked_wf; [exact Hrl2|apply Hr1]| |done].
    intros i _. unfold view. rewrite (rl_other _ _ _ Hrl2) by set_solver. done. }
  run. set (k2 := set_blocked q _). change (k_sched k1) with s1 in *.
  destruct (table_get (procs k2) d (rd_wf _ _ _ Hr2) Hds) as [p2 Hp2]. eapply runs_table_upd; [exact Hp2|]. run.
  set (k3 := set_count _ (with_pcb d _ k2)).
  assert (Hr3 : ready (k_sched k3) id (filter (.≠ d) l)) by (by eapply (with_pcb_ready d _ p2 k2); [exact Hp2| |exact Hr2]).
  destruct (table_get (procs k3) d (rd_wf _ _ _ Hr3) Hds) as [p3 Hp3].
  apply runs_on_table. eapply runs_mono; [by apply (pcb_free_ok (procs k3) d p3); [apply Hr3| |]|]. intros [] x4 Hs4. run.
  right. split; [done|]. exists d, p. pose proof (inv_count _ _ _ Hinv) as [Hcnt Hcntl].
  assert (Hlen : (0 < length l)%nat) by (destruct l; [set_solver|cbn; lia]).
  assert (Hfree : forall i, slot_free x4 i = if i =? d then true else slot_free (procs k) i).
  { intros i. rewrite (ss_free _ _ _ _ _ Hs4). destruct (i =? d); [done|]. change (slot_free x i = slot_free (procs k) i).
    by rewrite (relinked_free _ _ _ i Hrl2), (relinked_free _ _ _ i Hrl1). }
  assert (Hcur : current_process s1 = current_process (k_sched k)) by apply Hf1.
  assert (Hcore : forall i, core_of x4 i = restate d PROCESS_TERMINATED i <$> core_of (procs k) i).
  { intros i. transitivity (restate d PROCESS_TERMINATED i <$> (restate d PROCESS_TERMINATED i <$> core_of (procs k) i)).
    - rewrite <- (relinked_core _ _ _ i Hrl1), <- (relinked_core _ _ _ i Hrl2). change x with (procs k2).
      rewrite <- (with_pcb_restate d PROCESS_TERMINATED (set_state PROCESS_TERMINATED p2) p2 k2 i Hp2) by done.
      exact (slot_set_restate k3 d _ p3 _ true x4 i Hs4 Hp3 eq_refl).
    - destruct (core_of (procs k) i) as [[[[? ?] ?] ?]|]; [|done]. unfold restate. by destruct (i =? d). }
  split_and!; try done. split; [by eapply slot_set_ready|done|].
  change (core_inv (current_process s1) (filter (.≠ d) l) x4 (u32 (process_count k - 1)) (next_pid k)).
  rewrite Hcur, wrap_small by lia. by eapply core_inv_kill; [by eapply inv_wf|exact Hci|done|exact Hfree|].
Qed.

Lemma kill_other_ok n k id l :
  proc_inv k id l -> (forall c p, current_process (k_sched k) = Some c -> arr_get (pcb_table (procs k)) c = Some p -> pid p <> n) ->
  runs (kill_other n) k (fun r k' =>
    (r = -1 /\ k' = k /\ forall i p, arr_get (pcb_table (procs k)) i = Some p -> active p = true -> pid p <> n) \/
    (r = 0 /\ exists d p, d ∈ l /\ arr_get (pcb_table (procs k)) d = Some p /\ pid p = n /\
       slot_free (procs k') d = true /\ current_process (k_sched k') = current_process (k_sched k) /\
       k_cpu k' = k_cpu k /\ proc_inv k' id (filter (.≠ d) l))).
Proof.
  intros Hinv Hcp. eapply runs_mono; [by eapply kill_other_run|]. intros r k' [H|(-> & d & p & Hd & Hp & Hn & Hf & _ & Hc & [= Hcpu _] & Hi)]; [by left|right].
  split; [done|]. exists d, p. split_and!; try done. by rewrite Hf, Z.eqb_refl.
Qed.

(** * Creation *)

(** The characters of a C string held in a buffer. *)
Fixpoint c_string (s : list Z) : list Z :=
  match s with
  | [] => []
  | c :: s => if c =? 0 then [] else c :: c_string s
  end.

(** The name is copied up to 23 characters and terminated. *)
Lemma copy_name_ok fuel : forall i nm dst,
  length dst = Z.to_nat PROCESS_NAME_MAX -> 0 <= i < PROCESS_NAME_MAX -> (Z.to_nat (PROCESS_NAME_MAX - 1 - i) < fuel)%nat ->
  exists dst', copy_name fuel i nm dst = Some dst' /\ name_ok dst' /\
    (forall j, (j < Z.to_nat i)%nat -> dst' !! j = dst !! j) /\
    c_string (drop (Z.to_nat i) dst') = take (Z.to_nat (PROCESS_NAME_MAX - 1 - i)) (c_string nm).
Proof.
  unfold name_ok, PROCESS_NAME_MAX. induction fuel as [|fuel IH]; intros i nm dst Hl Hi Hf; [lia|].
  cbn [copy_name]. unfold PROCESS_NAME_MAX.
  set (c := match nm with [] => 0 | c :: _ => c end). destruct (negb (c =? 0) && (i <? 24 - 1)) eqn:Hgo.
  - zbool. rewrite (arr_set_in dst) by lia. cbn [mbind option_bind].
    destruct (IH (i + 1) (tail nm) (<[Z.to_nat i := c]> dst)) as (dst' & -> & (Hl' & Hz') & Hpre & Hstr); [by rewrite length_insert|lia|lia|].
    exists dst'. split; [done|]. split; [done|]. split.
    + intros j Hj. rewrite Hpre by lia. apply list_lookup_insert_ne. lia.
    + destruct nm as [|d nm]; cbn in c; [done|]. subst c.
      assert (Hd : dst' !! Z.to_nat i = Some d) by (rewrite Hpre by lia; apply list_lookup_insert_eq; lia).
      rewrite (drop_S _ _ _ Hd). cbn [c_string]. rewrite (proj2 (Z.eqb_neq d 0)) by done.
      replace (Z.to_nat (24 - 1 - i)) with (S (Z.to_nat (24 - 1 - (i + 1)))) by lia. cbn [take]. f_equal.
      cbn [tail] in Hstr. rewrite <- Hstr. f_equal. f_equal. lia.
  - rewrite (arr_set_in dst) by lia. eexists. split; [reflexivity|]. rewrite length_insert. split_and!; [done| | |].
    + eapply (list_elem_of_lookup_2 _ (Z.to_nat i)), list_lookup_insert_eq. lia.
    + intros j Hj. apply list_lookup_insert_ne. lia.
    + rewrite (drop_S _ 0) by (apply list_lookup_insert_eq; lia). cbn [c_string]. rewrite Z.eqb_refl. symmetry.
      apply andb_false_iff in Hgo as [Hc|Hi']; zbool.
      * destruct nm as [|d nm]; cbn in c; [cbn [c_string]; by rewrite take_nil|]. subst c. cbn [c_string]. rewrite Hc, Z.eqb_refl. by rewrite take_nil.
      * replace (Z.to_nat (24 - 1 - i)) with 0%nat by lia. done.
Qed.

(** The initial stack of a process with entry point [entry]. *)
Definition initial_stack (base entry : Z) (m : gmap Z Z) : gmap Z Z :=
  store 8 (base - 56) 0 (store 8 (base - 48) 0 (store 8 (base - 40) 0 (store 8 (base - 32) 0
  (store 8 (base - 24) 0 (store 8 (base - 16) 0 (store 8 (base - 8) entry m)))))).

(** The control block a new process gets in slot [i]. *)
Definition new_pcb (stacks i n prio : Z) (dst : list Z) : pcb :=
  mk_pcb n PROCESS_READY dst prio (stack_top stacks i - 56) 0 0 0 (stack_top stacks i) 0 0 0 None.

(** [k3] is [k] with the process [p] set up in slot [i], not yet queued. *)
Record created (stacks entry i : Z) (p : pcb) (k k3 : kern) : Prop := {
  cr_wf : table_wf (procs k3);
  cr_free j : slot_free (procs k3) j = if j =? i then false else slot_free (procs k) j;
  cr_get j : arr_get (pcb_table (procs k3)) j = if j =? i then Some p else arr_get (pcb_table (procs k)) j;
  cr_rest : k3 = set_next_pid (next_pid k + 1) (set_mem (initial_stack (stack_top stacks i) entry (k_mem k))
                   (set_sched (set_pcbs (procs k3) (k_sched k)) k)) }.

(** [process_create] up to and after its call of [scheduler_add]. *)
Lemma process_create_run stacks nm entry prio k (Q : option Z -> kern -> Prop) :
  table_wf (procs k) -> (forall i p, arr_get (pcb_table (procs k)) i = Some p -> length (name p) = Z.to_nat PROCESS_NAME_MAX) ->
  0 <= next_pid k -> next_pid k + 1 < 2 ^ 32 -> 0 <= stacks -> stacks + MAX_PROCESSES * STACK_SIZE < 2 ^ 64 ->
  ((forall i, slot_ok i -> slot_free (procs k) i = false) -> Q None k) ->
  (forall i dst k3, slot_ok i -> slot_free (procs k) i = true -> (forall j, j < i -> slot_free (procs k) j = false) ->
     name_ok dst -> c_string dst = take 23 (c_string nm) -> created stacks entry i (new_pcb stacks i (next_pid k) prio dst) k k3 ->
     runs (scheduler_add i) (k_sched k3) (fun _ s => Q (Some i) (set_count (u32 (process_count k + 1)) (set_sched s k3)))) ->
  runs (process_create stacks nm entry prio) k Q.
Proof.
  intros Hwf Hlen Hn0 Hn1 Hst0 Hst1 Hfull Hsome. unfold process_create. run. apply runs_on_table.
  eapply runs_mono; [by apply pcb_alloc_ok|]. change (s_pcbs (k_sched k)) with (procs k).
  intros [i|] x1; [|intros [-> Hn]; run; specialize (Hfull Hn); by destruct k as [[] ? ? ? ? ?]].
  intros (Hi & Hfree & Hlow & p0 & Hp0 & Hs1). run. set (k1 := set_next_pid _ _).
  assert (Hp1 : arr_get (pcb_table (procs k1)) i = Some (fresh_pcb stacks i p0))
    by (change (procs k1) with x1; by rewrite (ss_pcb _ _ _ _ _ Hs1), Z.eqb_refl).
  eapply runs_table_get; [exact Hp1|]. run. cbn [fresh_pcb name stack_base].
  destruct (copy_name_ok (Z.to_nat PROCESS_NAME_MAX) 0 nm (name p0) (Hlen _ _ Hp0)) as (dst & Hdst & Hdl & _ & Hstr);
    [unfold PROCESS_NAME_MAX; lia|unfold PROCESS_NAME_MAX; lia|].
  eapply runs_need; [exact Hdst|]. run. set (base := stack_top stacks i).
  assert (Hbase : 4096 <= base < 2 ^ 64) by (unfold base, stack_top, slot_ok, MAX_PROCESSES, STACK_SIZE in *; rewrite wrap_small; lia).
  rewrite !wrap_small by lia. set (k2 := set_mem _ k1).
  eapply runs_table_upd; [exact Hp1|]. cbn [fresh_pcb rip rflags stack_base next]. fold base. run.
  change (next_pid (set_sched (set_pcbs x1 (k_sched k)) k)) with (next_pid k).
  change (mk_pcb _ _ _ _ _ _ _ _ _ _ _ _ _) with (new_pcb stacks i (next_pid k) prio dst).
  set (k3 := with_pcb i _ k2). apply runs_on_sched. eapply runs_mono; [apply (Hsome i dst k3); try done|].
  - split.
    + apply (with_pcb_wf i _ k2), Hs1.
    + apply (ss_free _ _ _ _ _ Hs1).
    + intros j. unfold k3. rewrite (with_pcb_get i _ _ k2 j Hp1). change (procs k2) with x1. rewrite (ss_pcb _ _ _ _ _ Hs1).
      by destruct (j =? i).
    + unfold k3, k2, k1. rewrite wrap_small by (cbn; lia). done.
  - intros [] s4 HQ. run. exact HQ.
Qed.

(** [as_current c k] is the state with [c] for the running process. *)
Definition as_current (c : option Z) (k : kern) : kern := set_sched (set_current c (k_sched k)) k.

Lemma as_current_id k : as_current (current_process (k_sched k)) k = k.
Proof. by destruct k as [[] ? ? ? ? ?]. Qed.

Lemma ready_current_iff s id l c : ready (set_current c s) id l <-> ready s id l.
Proof.
  split; [|apply ready_current]. intros H. apply (ready_current _ _ _ (current_process s)) in H. by destruct s.
Qed.

Lemma tasks_current k id l c : tasks (as_current c k) id l <-> tasks k id l.
Proof.
  split; intros [Hr ? ? ? ?]; split; try done; [by apply (ready_current_iff _ _ _ c)|by apply ready_current].
Qed.

(** Creating a process: it takes the lowest free slot and the next pid and is
    queued; nothing else changes. *)
Lemma process_create_tasks stacks nm entry prio k id l :
  tasks k id l -> 0 <= prio -> next_pid k + 1 < 2 ^ 32 -> 0 <= stacks -> stacks + MAX_PROCESSES * STACK_SIZE < 2 ^ 64 ->
  runs (process_create stacks nm entry prio) k (fun r k' =>
    match r with
    | None => k' = k /\ forall i, slot_ok i -> slot_free (procs k) i = false
    | Some i => slot_ok i /\ slot_free (procs k) i = true /\ (forall j, j < i -> slot_free (procs k) j = false) /\
        tasks k' id (insert_rank (fun j => sched_rank id (prio_in (procs k') j)) i l) /\
        (exists dst, name_ok dst /\ c_string dst = take 23 (c_string nm) /\ forall j, core_of (procs k') j =
           if j =? i then Some (PROCESS_READY, next_pid k, prio, dst) else core_of (procs k) j) /\
        (exists p, arr_get (pcb_table (procs k')) i = Some p /\ stack_base p = stack_top stacks i /\ rsp p = stack_top stacks i - 56) /\
        (forall j, slot_free (procs k') j = if j =? i then false else slot_free (procs k) j) /\
        (next_pid k', process_count k', blocked_queue k', k_cpu k') = (next_pid k + 1, u32 (process_count k + 1), blocked_queue k, k_cpu k) /\
        k_mem k' = initial_stack (stack_top stacks i) entry (k_mem k) /\
        current_process (k_sched k') = current_process (k_sched k)
    end).
Proof.
  intros [Hr Hsl Hused Hnm Hpid] Hprio Hn1 Hst0 Hst1. apply process_create_run; try done; [apply Hr|by intros i p Hp; apply (Hnm i p)|].
  intros i dst k3 Hi Hfree Hlow Hdl Hstr Hcr. assert (Hil : i ∉ l) by (intros H; by rewrite (Hused i H) in Hfree).
  assert (Hr3 : ready (k_sched k3) id l).
  { rewrite (cr_rest _ _ _ _ _ _ Hcr). apply (ready_view (k_sched k) id l (procs k3)); [apply Hcr| |done].
    intros j Hj. unfold view. rewrite (cr_get _ _ _ _ _ _ Hcr). destruct (Z.eqb_spec j i) as [->|]; done. }
  eapply runs_mono; [apply (scheduler_add_ok _ _ _ Hr3 i); [done|done|]|].
  { unfold prio_in. change (s_pcbs (k_sched k3)) with (procs k3). rewrite (cr_get _ _ _ _ _ _ Hcr), Z.eqb_refl. done. }
  intros [] s4 (Hr4 & Hrl4 & Hf4). change (s_pcbs (k_sched k3)) with (procs k3) in *.
  change (procs (set_count _ (set_sched s4 k3))) with (s_pcbs s4). assert (Hk3 := cr_rest _ _ _ _ _ _ Hcr).
  assert (Hfree4 : forall j, slot_free (s_pcbs s4) j = if j =? i then false else slot_free (procs k) j)
    by (intros j; rewrite (relinked_free _ _ _ j Hrl4); apply (cr_free _ _ _ _ _ _ Hcr)).
  set (rk := fun j => sched_rank id (prio_in (s_pcbs s4) j)).
  assert (Hrk : insert_rank (fun j => sched_rank id (prio_in (procs k3) j)) i l = insert_rank rk i l)
    by (apply insert_rank_ext; intros j; unfold rk; f_equal; symmetry; by apply (relinked_prio _ _ _ j Hrl4)).
  rewrite Hrk in Hr4. pose proof (insert_rank_perm rk i l) as Hperm.
  split_and!; try done; try (rewrite Hk3; done).
  - split; [done|rewrite Hperm; by constructor| | |].
    + intros j. rewrite Hperm, elem_of_cons.
      intros Hj. change (procs (set_count _ (set_sched s4 k3))) with (s_pcbs s4). rewrite Hfree4.
      destruct (Z.eqb_spec j i); [done|]. apply Hused. tauto.
    + intros j p Hp. change (procs (set_count _ (set_sched s4 k3))) with (s_pcbs s4) in Hp.
      pose proof (rl_core _ _ _ Hrl4 j) as Hc. rewrite Hp, (cr_get _ _ _ _ _ _ Hcr) in Hc. destruct (j =? i); [by injection Hc as ? ? -> -> ????????|].
      destruct (arr_get (pcb_table (procs k)) j) as [q|] eqn:Hq; [|done]. cbn in Hc. injection Hc as ? ? -> -> ????????. by eapply Hnm.
    + rewrite Hk3. cbn. lia.
  - exists dst. split_and!; [done|done|]. intros j. rewrite (relinked_core _ _ _ j Hrl4). unfold core_of.
    rewrite (cr_get _ _ _ _ _ _ Hcr). by destruct (j =? i).
  - pose proof (rl_core _ _ _ Hrl4 i) as Hc. rewrite (cr_get _ _ _ _ _ _ Hcr), Z.eqb_refl in Hc.
    destruct (arr_get (pcb_table (s_pcbs s4)) i) as [p4|]; [|done]. cbn in Hc. injection Hc as ????????????. by exists p4.
  - change (current_process s4 = current_process (k_sched k)). destruct Hf4 as [-> _]. by rewrite Hk3.
Qed.

(** Creation keeps the invariant, also where [current_process] does not name
    the process [c] that owns the processor. *)
Lemma process_create_gen c stacks nm entry prio k id l :
  proc_inv (as_current c k) id l -> 0 <= prio -> next_pid k + 1 < 2 ^ 32 ->
  0 <= stacks -> stacks + MAX_PROCESSES * STACK_SIZE < 2 ^ 64 ->
  runs (process_create stacks nm entry prio) k (fun r k' =>
    match r with
    | None => k' = k /\ forall i, slot_ok i -> slot_free (procs k) i = false
    | Some i => slot_ok i /\ slot_free (procs k) i = true /\ (forall j, j < i -> slot_free (procs k) j = false) /\
        proc_inv (as_current c k') id (insert_rank (fun j => sched_rank id (prio_in (procs k') j)) i l) /\
        (forall j, core_of (procs k') j = if j =? i then core_of (procs k') i else core_of (procs k) j) /\
        (exists p, arr_get (pcb_table (procs k')) i = Some p /\ state p = PROCESS_READY /\ pid p = next_pid k /\
           priority p = prio /\ c_string (name p) = take 23 (c_string nm) /\
           stack_base p = stack_top stacks i /\ rsp p = stack_top stacks i - 56) /\
        (forall j, slot_free (procs k') j = if j =? i then false else slot_free (procs k) j) /\
        next_pid k' = next_pid k + 1 /\
        k_mem k' = initial_stack (stack_top stacks i) entry (k_mem k) /\
        current_process (k_sched k') = current_process (k_sched k) /\ k_cpu k' = k_cpu k
    end).
Proof.
  intros Hinv Hprio Hn1 Hst0 Hst1. pose proof (proj1 (tasks_current _ _ _ _) (inv_tasks _ _ _ Hinv)) as Ht.
  pose proof (inv_count _ _ _ Hinv) as [Hcnt _]. cbn [process_count as_current set_sched] in Hcnt. destruct Hinv as [Hr Hb Hci].
  eapply runs_mono; [by apply (process_create_tasks _ _ _ _ _ _ _ Ht)|]. intros [i|] k'; [|done].
  intros (Hi & Hfree & Hlow & Ht' & (dst & Hdl & Hstr & Hcore) & (p & Hp & Hsb & Hrsp) & Hf' & [= Hn' Hc' Hb' Hcpu] & Hm & Hcur).
  pose proof (Hcore i) as Hci'. rewrite Z.eqb_refl in Hci'. rewrite wrap_small in Hc' by lia. split_and!; try done.
  - split; [by apply ready_current, Ht'|exact (eq_trans Hb' Hb)|]. cbn [as_current k_sched set_sched set_current current_process process_count next_pid].
    rewrite Hc', Hn'. eapply (core_inv_create i _ l _ (procs k)); [apply Ht|exact Hci|done|done|apply insert_rank_perm|exact Hprio|exact Hdl|done|done].
  - intros j. rewrite Hci'. apply Hcore.
  - exists p. unfold core_of in Hci'. rewrite Hp in Hci'. cbn in Hci'. unfold core in Hci'. injection Hci' as ? ? ? Hnm.
    split_and!; try done. by rewrite Hnm.
Qed.

Lemma process_create_ok stacks nm entry prio k id l :
  proc_inv k id l -> 0 <= prio -> next_pid k + 1 < 2 ^ 32 ->
  0 <= stacks -> stacks + MAX_PROCESSES * STACK_SIZE < 2 ^ 64 ->
  runs (process_create stacks nm entry prio) k (fun r k' =>
    match r with
    | None => k' = k /\ forall i, slot_ok i -> slot_free (procs k) i = false
    | Some i => slot_ok i /\ slot_free (procs k) i = true /\
        (exists l', l' = insert_rank (fun j => sched_rank id (prio_in (procs k') j)) i l /\ proc_inv k' id l') /\
        (exists p, arr_get (pcb_table (procs k')) i = Some p /\ state p = PROCESS_READY /\ pid p = next_pid k /\
           priority p = prio /\ c_string (name p) = take 23 (c_string nm) /\
           stack_base p = stack_top stacks i /\ rsp p = stack_top stacks i - 56) /\
        k_mem k' = initial_stack (stack_top stacks i) entry (k_mem k) /\
        current_process (k_sched k') = current_process (k_sched k) /\ k_cpu k' = k_cpu k
    end).
Proof.
  intros Hinv Hprio Hn Hst0 Hst1. rewrite <- (as_current_id k) in Hinv.
  eapply runs_mono; [by apply (process_create_gen _ _ _ _ _ _ _ _ Hinv)|]. intros [i|] k'; [|done].
  intros (? & ? & _ & Hinv' & _ & ? & _ & _ & ? & Hc & ?). split_and!; try done.
  eexists. split; [reflexivity|]. by rewrite <- Hc, as_current_id in Hinv'.
Qed.

(** * Correctness of process management *)

(** The operations of process.c, as other parts of the kernel call them. *)
Inductive proc_step (stacks : Z) : kern -> kern -> Prop :=
  | step_create k nm entry prio r k' :
      0 <= prio -> next_pid k + 1 < 2 ^ 32 -> process_create stacks nm entry prio k = Some (r, k') -> proc_step stacks k k'
  | step_yield k ret r k' : 0 <= ret < 2 ^ (8 * 8) -> yield ret k = Some (r, k') -> proc_step stacks k k'
  | step_exit k ret r k' : 0 <= ret < 2 ^ (8 * 8) -> process_exit ret k = Some (r, k') -> proc_step stacks k k'
  | step_kill k ret n r k' : 0 <= ret < 2 ^ (8 * 8) -> process_kill ret n k = Some (r, k') -> proc_step stacks k k'.

(** With no running process [yield] and [process_exit] do nothing. *)
Lemma yield_none ret k : current_process (k_sched k) = None -> yield ret k = Some (None, k).
Proof. intros Hcur. unfold yield, get_current, mbind, prog_bind, gets. by rewrite Hcur. Qed.

Lemma process_exit_none ret k : current_process (k_sched k) = None -> process_exit ret k = Some (None, k).
Proof. intros Hcur. unfold process_exit, get_current, mbind, prog_bind, gets. by rewrite Hcur. Qed.

Lemma exit_step ret k id l r k' :
  proc_inv k id l -> cpu_ok (k_cpu k) -> 0 <= ret < 2 ^ (8 * 8) -> process_exit ret k = Some (r, k') ->
  exists l', proc_inv k' id l' /\ k_cpu k' = k_cpu k.
Proof.
  intros Hinv Hcpu Hret Hrun. destruct (current_process (k_sched k)) as [c|] eqn:Hcur.
  - pose proof (process_exit_ok ret k id l c Hinv Hcpu Hret Hcur) as H. destruct l as [|n l']; [congruence|].
    destruct (runs_det _ _ _ _ _ H Hrun) as (_ & ? & _ & _ & ?). eauto.
  - rewrite (process_exit_none _ _ Hcur) in Hrun. simplify_eq. eauto.
Qed.

Lemma kill_step ret n k id l :
  proc_inv k id l -> cpu_ok (k_cpu k) -> 0 <= ret < 2 ^ (8 * 8) ->
  forall r k', process_kill ret n k = Some (r, k') -> exists l', proc_inv k' id l' /\ k_cpu k' = k_cpu k.
Proof.
  intros Hinv Hcpu Hret r k' Hrun. unfold process_kill in Hrun. destruct (n =? 1); [unfold mret, prog_ret in Hrun; simplify_eq; eauto|].
  assert (Hother : (forall c p, current_process (k_sched k) = Some c -> arr_get (pcb_table (procs k)) c = Some p -> pid p <> n) ->
    kill_other n k = Some (r, k') -> exists l', proc_inv k' id l' /\ k_cpu k' = k_cpu k).
  { intros Hne Hk. destruct (runs_det _ _ _ _ _ (kill_other_ok n k id l Hinv Hne) Hk)
      as [(_ & -> & _)|(_ & d & p & _ & _ & _ & _ & _ & ? & ?)]; eauto. }
  unfold get_current, mbind, prog_bind, gets in Hrun. destruct (current_process (k_sched k)) as [c|] eqn:Hcur; [|by apply Hother].
  destruct (ci_current _ _ _ _ _ (pi_core _ _ _ Hinv) c Hcur) as [Hcs _]. destruct (inv_slot _ _ _ c Hinv Hcs) as [p Hp].
  destruct (runs_table_get c p k (fun a k' => a = p /\ k' = k) Hp (conj eq_refl eq_refl)) as (a & k0 & Hg & -> & ->).
  rewrite Hg in Hrun. destruct (Z.eqb_spec (pid p) n) as [E|E].
  - destruct (process_exit ret k) as [[r1 k1]|] eqn:Hex; [|done]. unfold mret, prog_ret in Hrun. simplify_eq. by eapply exit_step.
  - apply Hother; [|done]. intros c' p' [= <-] Hp'. congruence.
Qed.

Lemma proc_step_inv stacks k k' id l :
  0 <= stacks -> stacks + MAX_PROCESSES * STACK_SIZE < 2 ^ 64 -> proc_step stacks k k' ->
  proc_inv k id l -> cpu_ok (k_cpu k) -> exists l', proc_inv k' id l' /\ k_cpu k' = k_cpu k.
Proof.
  intros Hs0 Hs1 [k0 nm entry prio r k1 Hpr Hnp Hrun|k0 ret r k1 Hret Hrun|k0 ret r k1 Hret Hrun|k0 ret n r k1 Hret Hrun] Hinv Hcpu.
  - pose proof (runs_det _ _ _ _ _ (process_create_ok stacks nm entry prio k0 id l Hinv Hpr Hnp Hs0 Hs1) Hrun) as HQ.
    destruct r as [i|]; [|destruct HQ as [-> _]; eauto]. destruct HQ as (_ & _ & (l' & _ & ?) & _ & _ & _ & ?). eauto.
  - destruct (current_process (k_sched k0)) as [c|] eqn:Hcur.
    + destruct (runs_det _ _ _ _ _ (yield_ok ret k0 id l c Hinv Hcpu Hret Hcur) Hrun) as (_ & ? & n & l' & _ & _ & ?). eauto.
    + rewrite (yield_none _ _ Hcur) in Hrun. simplify_eq. eauto.
  - by eapply exit_step.
  - by eapply kill_step.
Qed.

(** C7: whatever sequence of [process_create], [yield], [process_exit] and
    [process_kill] runs, under any of the four schedulers: every slot in use
    belongs to the running process or is queued exactly once, all of them are
    active and the queued ones READY, every other slot is free and inactive,
    pids are distinct, and [process_count] is the number of processes. *)
Theorem process_invariant stacks k k' id l :
  0 <= stacks -> stacks + MAX_PROCESSES * STACK_SIZE < 2 ^ 64 ->
  proc_inv k id l -> cpu_ok (k_cpu k) -> rtc (proc_step stacks) k k' -> exists l', proc_inv k' id l'.
Proof.
  intros Hs0 Hs1 Hinv Hcpu Hsteps. revert l Hinv Hcpu.
  induction Hsteps as [k|k k1 k2 Hst _ IH]; intros l Hinv Hcpu; [eauto|].
  destruct (proc_step_inv _ _ _ _ _ Hs0 Hs1 Hst Hinv Hcpu) as (l1 & Hinv1 & Hc1). apply (IH l1); [done|by rewrite Hc1].
Qed.

(** The registers and the address at which a switch to a new process goes on. *)
Lemma new_context ret stacks i entry c m :
  cpu_ok c -> 0 <= stacks -> stacks + MAX_PROCESSES * STACK_SIZE < 2 ^ 64 - 56 -> slot_ok i -> 0 <= entry < 2 ^ (8 * 8) ->
  c_rsp c <= stacks \/ stacks + MAX_PROCESSES * STACK_SIZE <= c_rsp c - 56 ->
  let m' := pushed ret c (initial_stack (stack_top stacks i) entry m) in
  popped (stack_top stacks i - 56) m' = mk_cpu (stack_top stacks i) 0 0 0 0 0 0 /\ load 8 (stack_top stacks i - 56 + 48) m' = entry.
Proof.
  intros Hcpu Hs0 Hs1 Hi Hentry Hdis. cbv zeta.
  assert (Hbase : stacks + STACK_SIZE <= stack_top stacks i /\ stack_top stacks i <= stacks + MAX_PROCESSES * STACK_SIZE).
  { unfold stack_top, slot_ok, MAX_PROCESSES, STACK_SIZE in *. rewrite wrap_small; lia. }
  set (b := stack_top stacks i) in *. unfold MAX_PROCESSES, STACK_SIZE in *. pose proof (co_rsp _ Hcpu) as Hr.
  unfold pushed, popped, initial_stack. set (r := c_rsp c) in *.
  replace (b - 56 + 56) with b by lia. replace (b - 56 + 48) with (b - 8) by lia. replace (b - 56 + 40) with (b - 16) by lia.
  replace (b - 56 + 32) with (b - 24) by lia. replace (b - 56 + 24) with (b - 32) by lia.
  replace (b - 56 + 16) with (b - 40) by lia. replace (b - 56 + 8) with (b - 48) by lia. mem_simp. done.
Qed.

(** C37: [process_create] on a consistent system takes a free slot, gives the
    process the next pid, the name cut to 23 characters, its own stack and the
    READY state, and puts it into the ready queue behind all processes of its
    rank; it returns NULL, changing nothing, when all 64 slots are in use.
    A switch to the new process while [current_process] still names the old
    one, on a stack outside the array of the stacks, enters the entry point on
    the new stack with all callee-saved registers zero.  After
    [current_process] has been set to the new process, as all callers do first,
    the same switch comes back to the caller with its registers. *)
Theorem process_create_starts stacks nm entry prio k id l ret :
  proc_inv k id l -> 0 <= prio -> next_pid k + 1 < 2 ^ 32 ->
  0 <= stacks -> stacks + MAX_PROCESSES * STACK_SIZE < 2 ^ 64 - 56 -> 0 <= entry < 2 ^ (8 * 8) ->
  cpu_ok (k_cpu k) -> 0 <= ret < 2 ^ (8 * 8) ->
  runs (process_create stacks nm entry prio) k (fun r k' =>
    match r with
    | None => k' = k /\ forall i, slot_ok i -> slot_free (procs k) i = false
    | Some i => slot_ok i /\ slot_free (procs k) i = true /\
        (exists l', l' = insert_rank (fun j => sched_rank id (prio_in (procs k') j)) i l /\ proc_inv k' id l') /\
        (exists p, arr_get (pcb_table (procs k')) i = Some p /\ state p = PROCESS_READY /\ pid p = next_pid k /\
           priority p = prio /\ c_string (name p) = take 23 (c_string nm)) /\
        (c_rsp (k_cpu k) <= stacks \/ stacks + MAX_PROCESSES * STACK_SIZE <= c_rsp (k_cpu k) - 56 ->
         runs (context_switch ret i) k' (fun rip k'' =>
           rip = entry /\ k_cpu k'' = mk_cpu (stack_top stacks i) 0 0 0 0 0 0)) /\
        runs (context_switch ret i) (as_current (Some i) k') (fun rip k'' => rip = ret /\ k_cpu k'' = k_cpu k)
    end).
Proof.
  intros Hinv Hprio Hnp Hs0 Hs1 Hentry Hcpu Hret. eapply runs_mono; [apply process_create_ok; (done || lia)|].
  intros [i|] k'; [|done]. intros (Hi & Hfree & (l' & Hl & Hinv') & (p & Hp & Hst & Hpid & Hpr & Hnm & Hsb & Hrsp) & Hm & Hc' & Hcpu').
  split_and!; try done; [by exists l'|by exists p| |].
  - intros Hdis. assert (Hne : forall c, current_process (k_sched k') = Some c -> is_Some (arr_get (pcb_table (procs k')) c) /\ c <> i).
    { intros c Hc. rewrite Hc' in Hc. destruct (ci_current _ _ _ _ _ (pi_core _ _ _ Hinv) c Hc) as [Hcs _].
      destruct (inv_slot _ _ _ c Hinv' Hcs) as [q Hq]. split; [by exists q|]. intros ->.
      rewrite (proj2 (ci_live _ _ _ _ _ (pi_core _ _ _ Hinv) i Hi)) in Hfree; [done|by left]. }
    destruct (new_context ret stacks i entry (k_cpu k) (k_mem k) Hcpu Hs0 Hs1 Hi Hentry Hdis) as [E1 E2].
    eexists _, _. split; [apply (context_switch_run ret i k' p)|].
    + rewrite Hcpu'. apply Hcpu.
    + intros c Hc. by apply Hne.
    + destruct (current_process (k_sched k')) as [c|] eqn:Ec; [|unfold saved; by rewrite Ec]. destruct (Hne c eq_refl) as [[q Hq] Hci].
      assert (Hs : saved ret k' = with_pcb c (set_rsp (c_rsp (k_cpu k') - 56) q)
        (set_cpu (with_rsp (c_rsp (k_cpu k') - 56) (k_cpu k')) (set_mem (pushed ret (k_cpu k') (k_mem k')) k')))
        by (unfold saved; rewrite Ec, Hq; done).
      rewrite Hs. erewrite with_pcb_get by exact Hq. by rewrite (proj2 (Z.eqb_neq _ _)) by congruence.
    + rewrite Hrsp. unfold stack_top, slot_ok, MAX_PROCESSES, STACK_SIZE in *. rewrite wrap_small; lia.
    + rewrite saved_mem, Hrsp, Hcpu', Hm. cbn [set_cpu k_cpu]. by rewrite E1, E2.
  - eexists _, _. split; [apply (context_switch_self ret i (as_current (Some i) k') p)|]; try done. cbn [as_current set_sched k_cpu]. by rewrite Hcpu'.
Qed.

(** C18: [yield] and [process_exit] never leave the caller.  They set
    [current_process] to the next process before they call [context_switch],
    which therefore saves the stack pointer of the caller into the next
    process and loads it right back: execution goes on after the call, with
    all registers and the stack as before, while [current_process] names the
    next process, whose own saved context is overwritten.  After
    [process_exit] the code of the dead process runs on. *)
Theorem switch_never_leaves_caller ret k id l c :
  proc_inv k id l -> cpu_ok (k_cpu k) -> 0 <= ret < 2 ^ (8 * 8) -> current_process (k_sched k) = Some c ->
  runs (yield ret) k (fun a k' => a = Some ret /\ k_cpu k' = k_cpu k /\
    exists n l', insert_rank (fun i => sched_rank id (prio_in (procs k) i)) c l = n :: l' /\
      current_process (k_sched k') = Some n) /\
  (forall n l', l = n :: l' -> runs (process_exit ret) k (fun a k' =>
     a = Some ret /\ k_cpu k' = k_cpu k /\ current_process (k_sched k') = Some n /\ slot_free (procs k') c = true)).
Proof.
  intros Hinv Hcpu Hret Hcur. split.
  - eapply runs_mono; [by apply (yield_ok ret k id l c)|]. intros a k' (? & ? & n & l' & ? & ? & _). eauto 10.
  - intros n l' ->. eapply runs_mono; [by apply (process_exit_ok ret k id (n :: l') c)|].
    intros a k' (? & ? & ? & ? & _). done.
Qed.

(** [process_kill] refuses pid 1 and unknown pids with -1, changing
    nothing; for a process that waits in the ready queue it returns 0 and
    removes exactly that process from the queue, frees its slot and keeps the
    running process. *)
Theorem process_kill_branches ret n k id l :
  proc_inv k id l ->
  (forall c p, current_process (k_sched k) = Some c -> arr_get (pcb_table (procs k)) c = Some p -> pid p <> n) ->
  runs (process_kill ret n) k (fun r k' =>
    (r = -1 /\ k' = k /\ (n = 1 \/ forall i p, arr_get (pcb_table (procs k)) i = Some p -> active p = true -> pid p <> n)) \/
    (r = 0 /\ n <> 1 /\ exists d p, d ∈ l /\ arr_get (pcb_table (procs k)) d = Some p /\ pid p = n /\
       slot_free (procs k') d = true /\ current_process (k_sched k') = current_process (k_sched k) /\
       proc_inv k' id (filter (.≠ d) l))).
Proof.
  intros Hinv Hne. unfold process_kill. destruct (Z.eqb_spec n 1) as [->|Hn1]; [run; left; auto|].
  assert (Hgo : runs (kill_other n) k (fun r k' =>
    (r = -1 /\ k' = k /\ (n = 1 \/ forall i p, arr_get (pcb_table (procs k)) i = Some p -> active p = true -> pid p <> n)) \/
    (r = 0 /\ n <> 1 /\ exists d p, d ∈ l /\ arr_get (pcb_table (procs k)) d = Some p /\ pid p = n /\
       slot_free (procs k') d = true /\ current_process (k_sched k') = current_process (k_sched k) /\
       proc_inv k' id (filter (.≠ d) l)))).
  { eapply runs_mono; [by apply kill_other_ok|]. intros r k' [(-> & -> & H)|(-> & d & p & H)]; [left; auto|right].
    split_and!; try done. exists d, p. naive_solver. }
  unfold get_current. run. destruct (current_process (k_sched k)) as [c|] eqn:Hcur; [|done].
  destruct (ci_current _ _ _ _ _ (pi_core _ _ _ Hinv) c Hcur) as [Hcs _]. destruct (inv_slot _ _ _ c Hinv Hcs) as [p Hp].
  run. eapply runs_table_get; [exact Hp|]. rewrite (proj2 (Z.eqb_neq _ _)) by (by eapply Hne). exact Hgo.
Qed.
(** * A running system *)

(** The state after boot, with ([b = true]) or without the process of slot 0
    running, and nothing queued. *)
Definition boot_pcb (b : bool) (i : Z) : pcb :=
  let run := b && (i =? 0) in
  mk_pcb (if run then 1 else 0) (if run then PROCESS_RUNNING else PROCESS_TERMINATED) (replicate 24 0) 0 0 0 0 0 0 0 0 0 None.

Definition boot_pcbs (b : bool) : pcbs :=
  mk_pcbs (boot_pcb b <$> seqZ 0 64) (if b then 2 ^ 64 - 2 else 2 ^ 64 - 1).

Definition boot_sched (b : bool) (id : Z) : sched :=
  let s := set_current (if b then Some 0 else None) (set_pcbs (boot_pcbs b) no_sched) in
  default s (snd <$> scheduler_set id s).

Definition boot_kern (b : bool) (id : Z) : kern :=
  mk_kern (boot_sched b id) 2 (if b then 1 else 0) queue_init ∅ (mk_cpu 0x90000 0 7 0 0 0 0).

Lemma boot_core b i c : core_of (boot_pcbs b) i = Some c -> slot_ok i /\ c = core (boot_pcb b i).
Proof.
  unfold core_of, boot_pcbs, arr_get. cbn [pcb_table]. destruct (Z.leb_spec 0 i); [|done].
  rewrite list_lookup_fmap. destruct (seqZ 0 64 !! Z.to_nat i) as [j|] eqn:E; [|done].
  apply lookup_seqZ in E as [-> ?]. cbn [fmap option_fmap option_map]. intros [= <-].
  replace (0 + Z.of_nat (Z.to_nat i)) with i by lia. split; [unfold slot_ok, MAX_PROCESSES; lia|done].
Qed.

Lemma boot_free b i : slot_ok i -> slot_free (boot_pcbs b) i = negb (b && (i =? 0)).
Proof.
  unfold slot_ok, MAX_PROCESSES. intros Hi. unfold slot_free, boot_pcbs. cbn [slot_free_map].
  replace (if b then 2 ^ 64 - 2 else 2 ^ 64 - 1) with (bnot 64 (if b then 1 else 0)) by (by destruct b).
  rewrite testbit_bnot by lia. rewrite (proj2 (Z.ltb_lt _ _)) by lia. cbn [andb]. f_equal.
  destruct b; [|by rewrite Z.bits_0]. replace 1 with (bit 64 0) by done. rewrite testbit_bit by lia. apply Z.eqb_sym.
Qed.

Lemma boot_core_inv (b : bool) : core_inv (if b then Some 0 else None) [] (boot_pcbs b) (if b then 1 else 0) 2.
Proof.
  split.
  - split; constructor.
  - intros c Hc. destruct b; simplify_eq. split; [unfold slot_ok, MAX_PROCESSES; lia|set_solver].
  - intros i Hi. rewrite boot_free by done. destruct b; cbn [andb negb]; [|set_solver].
    destruct (Z.eqb_spec i 0) as [->|]; set_solver.
  - intros i st pd pr nm Hc. apply boot_core in Hc as [Hi Hc]. rewrite boot_free by done.
    unfold core, boot_pcb in Hc. cbn [state pid priority name] in Hc.
    destruct (b && (i =? 0)); simplify_eq; (split_and!; [done|set_solver|lia|split; [done|by apply elem_of_cons; left]|done]).
  - intros i j si pd pi ni sj pj nj Hi Hj. apply boot_core in Hi as [Hi _], Hj as [Hj _].
    rewrite !boot_free by done. destruct b; cbn [andb negb]; [|done]. zcases; done.
  - by destruct b.
  - lia.
Qed.

Lemma boot_inv b id : sched_id_ok id -> proc_inv (boot_kern b id) id [].
Proof.
  intros Hid. set (s := set_current (if b then Some 0 else None) (set_pcbs (boot_pcbs b) no_sched)).
  destruct (scheduler_set_ok id s Hid) as (a & s' & Hs & Hr & Hp & Hc & _).
  { split; [reflexivity|destruct b; cbn; lia]. }
  assert (Hb : boot_sched b id = s') by (unfold boot_sched; fold s; by rewrite Hs).
  split; [by cbn; rewrite Hb|done|]. unfold procs. cbn [k_sched boot_kern process_count next_pid].
  rewrite Hb, Hp, Hc. apply boot_core_inv.
Qed.

Lemma boot_cpu b id : cpu_ok (k_cpu (boot_kern b id)).
Proof. split; cbn; lia. Qed.

(** The running system after it created a second process. *)
Definition two_kern : kern :=
  default (boot_kern true SCHED_RR) (snd <$> process_create 0x180000 [97] 0x5000 1 (boot_kern true SCHED_RR)).

Lemma rr_id : sched_id_ok SCHED_RR.
Proof. unfold sched_id_ok, SCHED_RR, SCHED_COUNT. lia. Qed.

Lemma two_inv : proc_inv two_kern SCHED_RR [1] /\ k_cpu two_kern = k_cpu (boot_kern true SCHED_RR) /\
  current_process (k_sched two_kern) = Some 0.
Proof.
  destruct (process_create_ok 0x180000 [97] 0x5000 1 _ _ _ (boot_inv true SCHED_RR rr_id)) as (r & k' & Hrun & HQ);
    [lia|cbn; lia|lia|unfold MAX_PROCESSES, STACK_SIZE; lia|].
  assert (Hr : fst <$> process_create 0x180000 [97] 0x5000 1 (boot_kern true SCHED_RR) = Some (Some 1)) by (vm_compute; reflexivity).
  unfold two_kern. rewrite Hrun in *. cbn in *. injection Hr as ->.
  destruct HQ as (_ & _ & (l' & Hl & Hinv) & _ & _ & Hc & Hcpu). cbn [insert_rank] in Hl. subst l'.
  rewrite Hc, Hcpu. split_and!; try done.
Qed.

Lemma process_invariant_witness :
  exists l, proc_inv (default two_kern (snd <$> yield 0x4000 two_kern)) SCHED_RR l.
Proof.
  destruct two_inv as (Hinv & Hcpu & Hcur).
  assert (Hk : cpu_ok (k_cpu two_kern)) by (rewrite Hcpu; apply boot_cpu).
  apply (process_invariant 0x180000 two_kern _ SCHED_RR [1]); [lia|unfold MAX_PROCESSES, STACK_SIZE; lia|exact Hinv|exact Hk|].
  destruct (yield_ok 0x4000 _ _ _ 0 Hinv Hk ltac:(lia) Hcur) as (r & k' & Hrun & _).
  apply rtc_once. apply (step_yield _ two_kern 0x4000 r); [lia|]. by rewrite Hrun.
Defined.

(** A second process is created while the first one runs. *)
Lemma process_create_starts_witness :
  runs (process_create 0x180000 [97; 98] 0x5000 2) two_kern (fun r k' => exists i, r = Some i /\
    runs (context_switch 0x4000 i) k' (fun rip _ => rip = 0x5000) /\
    runs (context_switch 0x4000 i) (as_current (Some i) k') (fun rip _ => rip = 0x4000)).
Proof.
  destruct two_inv as (Hinv & Hcpu & Hcur).
  eapply runs_mono; [apply (process_create_starts 0x180000 [97; 98] 0x5000 2 two_kern SCHED_RR [1] 0x4000 Hinv)|].
  - lia.
  - vm_compute; reflexivity.
  - lia.
  - unfold MAX_PROCESSES, STACK_SIZE; lia.
  - lia.
  - rewrite Hcpu. apply boot_cpu.
  - lia.
  - intros [i|] k'.
    + intros (_ & _ & _ & _ & Hsw & Hself). exists i. split; [done|]. split.
      * eapply runs_mono; [apply Hsw|by intros rip k'' [-> _]]. left. rewrite Hcpu. cbn; lia.
      * eapply runs_mono; [exact Hself|]. by intros rip k'' [-> _].
    + intros [_ Hfull]. specialize (Hfull 5). rewrite <- not_true_iff_false in Hfull.
      destruct Hfull; [unfold slot_ok, MAX_PROCESSES; lia|vm_compute; reflexivity].
Defined.

Lemma switch_never_leaves_caller_witness :
  runs (yield 0x4000) two_kern (fun a k' => a = Some 0x4000 /\ k_cpu k' = k_cpu two_kern) /\
  runs (process_exit 0x4000) two_kern (fun a k' => a = Some 0x4000 /\ current_process (k_sched k') = Some 1).
Proof.
  destruct two_inv as (Hinv & Hcpu & Hcur).
  destruct (switch_never_leaves_caller 0x4000 two_kern SCHED_RR [1] 0 Hinv) as [Hy He]; [rewrite Hcpu; apply boot_cpu|lia|exact Hcur|].
  split; [eapply runs_mono; [exact Hy|]|eapply runs_mono; [apply (He 1 []); reflexivity|]].
  - intros a k' (? & ? & _). done.
  - intros a k' (? & _ & ? & _). done.
Defined.

Lemma process_kill_branches_witness :
  runs (process_kill 0x4000 2) two_kern (fun r k' => r = 0 /\ exists l, proc_inv k' SCHED_RR l).
Proof.
  destruct two_inv as (Hinv & _ & Hcur).
  eapply runs_mono; [apply (process_kill_branches 0x4000 2 two_kern SCHED_RR [1] Hinv)|].
  - intros c p Hc Hp. rewrite Hcur in Hc. injection Hc as <-.
    assert (H0 : pid <$> arr_get (pcb_table (procs two_kern)) 0 = Some 1) by (vm_compute; reflexivity).
    rewrite Hp in H0. cbn in H0. injection H0 as ->. done.
  - intros r k' [(_ & _ & [?|Hno])|(-> & _ & d & p & _ & _ & _ & _ & _ & ?)]; [done| |eauto].
    assert (H1 : (fun p => (active p, pid p)) <$> arr_get (pcb_table (procs two_kern)) 1 = Some (true, 2)) by (vm_compute; reflexivity).
    destruct (arr_get (pcb_table (procs two_kern)) 1) as [p|] eqn:Hp; [|done]. cbn in H1. injection H1 as Ha Hpid.
    by destruct (Hno 1 p Hp Ha).
Defined.

End Process.
