(* ===== verification/RamDisk.v ===== *)
(** A disk held in memory: an instance of the block-device contract, used
    where a theorem about an arbitrary disk is shown at a concrete one. *)
From S2P Require Import Prelude Interfaces Bytes.

Module RamDisk.

(** The written sectors; every other sector holds zeros. *)
Record ram_disk := mk_ram { sectors : gmap Z (list Z) }.

Definition sector (d : ram_disk) (lba : Z) : list Z := default (replicate 512 0) (sectors d !! lba).

#[export] Instance ram_device : BlockDevice ram_disk := {
  bd_init := mret tt;
  bd_present := fun _ => true;
  bd_read := fun lba _ d => Some ((0, sector d lba), d);
  bd_write := fun lba buf d => Some (0, mk_ram (<[lba := buf]> (sectors d))) }.

Definition ram_ok (d : ram_disk) : Prop :=
  map_Forall (fun _ buf => length buf = 512%nat /\ Forall byte_ok buf) (sectors d).

#[export] Program Instance ram_laws : BlockDeviceLaws ram_disk := {
  bd_inv := ram_ok;
  bd_sector := sector;
  bd_limit := 2 ^ 28 }.
Next Obligation. lia. Qed.
Next Obligation.
  intros d lba Hd _. unfold sector. destruct (sectors d !! lba) as [buf|] eqn:E; [by apply (Hd lba)|].
  split; [done|]. apply Forall_replicate. lia.
Qed.
Next Obligation. done. Qed.
Next Obligation. intros d lba buf Hd _ _. by exists (0, sector d lba), d. Qed.
Next Obligation.
  intros d lba buf Hd _ Hl Hb. exists 0, (mk_ram (<[lba := buf]> (sectors d))). split_and!; try done.
  - by apply map_Forall_insert_2.
  - intros l _. unfold sector. cbn [sectors]. destruct (Z.eqb_spec l lba) as [->|].
    + by rewrite lookup_insert_eq.
    + by rewrite lookup_insert_ne.
Qed.

Definition blank : ram_disk := mk_ram ∅.

Lemma blank_ok : ram_ok blank.
Proof. apply map_Forall_empty. Qed.

End RamDisk.
