(* ===== verification/FsDisk.v ===== *)
(** fs/aresfs.c, the lower half: the cached state, block transfer, bitmaps,
    block and inode allocation, the inode table.  The disk is any block
    device; on-disk structures are byte blocks with little-endian fields. *)
From S2P Require Import Prelude Interfaces Bytes RamDisk.

Import RamDisk.

Module FsDisk.

(** * Constants and on-disk structures (aresfs.h, kernel.h) *)

Inductive ares_status := ARES_OK | ARES_ERROR | ARES_ENOMEM | ARES_EINVAL | ARES_ENODEV | ARES_EBUSY.

#[export] Instance ares_status_eq_dec : EqDecision ares_status.
Proof. solve_decision. Defined.

Definition ARESFS_MAGIC : Z := 0x41524553.
Definition ARESFS_VERSION : Z := 1.
Definition ARESFS_BLOCK_SIZE : Z := 512.
Definition ARESFS_TOTAL_BLOCKS : Z := 4096.
Definition ARESFS_BASE_LBA : Z := 2048.
Definition ARESFS_SUPERBLOCK_BLOCK : Z := 1.
Definition ARESFS_BLOCK_BITMAP_BLOCK : Z := 2.
Definition ARESFS_INODE_BITMAP_BLOCK : Z := 3.
Definition ARESFS_INODE_START_BLOCK : Z := 4.
Definition ARESFS_INODE_TABLE_BLOCKS : Z := 128.
Definition ARESFS_DATA_START_BLOCK : Z := ARESFS_INODE_START_BLOCK + ARESFS_INODE_TABLE_BLOCKS.
Definition ARESFS_INODE_SIZE : Z := 128.
Definition ARESFS_INODES_PER_BLOCK : Z := ARESFS_BLOCK_SIZE / ARESFS_INODE_SIZE.
Definition ARESFS_INODE_COUNT : Z := ARESFS_INODE_TABLE_BLOCKS * ARESFS_INODES_PER_BLOCK.
Definition ARESFS_DIRECT_BLOCKS : Z := 12.
Definition ARESFS_INDIRECT_PTRS : Z := ARESFS_BLOCK_SIZE / 4.
Definition ARESFS_MAX_FILE_BLOCKS : Z := ARESFS_DIRECT_BLOCKS + ARESFS_INDIRECT_PTRS.
Definition ARESFS_INODE_INVALID : Z := 0.
Definition ARESFS_ROOT_INODE : Z := 1.
Definition ARESFS_TYPE_MASK : Z := 0xF000.
Definition ARESFS_TYPE_FILE : Z := 0x8000.
Definition ARESFS_TYPE_DIR : Z := 0x4000.
Definition ARESFS_PERM_DEFAULT : Z := 0x01B6.
Definition ARESFS_MAX_OPEN_FILES : Z := 16.

Record aresfs_superblock := mk_sb {
  magic : Z; version : Z; total_blocks : Z; block_size : Z; root_inode : Z;
  block_bitmap_blocks : Z; inode_bitmap_blocks : Z; data_bitmap_blocks : Z;
  inode_start_block : Z; data_start_block : Z; sb_pad : list Z; checksum : Z }.

Record aresfs_inode := mk_inode {
  mode : Z; uid : Z; gid : Z; size : Z; create_time : Z; mod_time : Z;
  direct : list Z; indirect : Z; double_indirect : Z; ino_pad : list Z }.

(** Field widths of the packed structures, and their byte images. *)
Definition sb_widths : list Z := replicate 10 4 ++ replicate 468 1 ++ [4].
Definition inode_widths : list Z := [4; 4; 4; 8; 8; 8] ++ replicate 12 4 ++ [4; 4] ++ replicate 36 1.

Definition sb_fields (s : aresfs_superblock) : list Z :=
  [magic s; version s; total_blocks s; block_size s; root_inode s; block_bitmap_blocks s;
   inode_bitmap_blocks s; data_bitmap_blocks s; inode_start_block s; data_start_block s] ++ sb_pad s ++ [checksum s].

Definition inode_fields (i : aresfs_inode) : list Z :=
  [mode i; uid i; gid i; size i; create_time i; mod_time i] ++ direct i ++ [indirect i; double_indirect i] ++ ino_pad i.

Definition fld (k : nat) (vs : list Z) : Z := default 0 (vs !! k).

Definition sb_of_fields (vs : list Z) : aresfs_superblock :=
  mk_sb (fld 0 vs) (fld 1 vs) (fld 2 vs) (fld 3 vs) (fld 4 vs) (fld 5 vs) (fld 6 vs) (fld 7 vs) (fld 8 vs) (fld 9 vs)
    (take 468 (drop 10 vs)) (fld 478 vs).

Definition inode_of_fields (vs : list Z) : aresfs_inode :=
  mk_inode (fld 0 vs) (fld 1 vs) (fld 2 vs) (fld 3 vs) (fld 4 vs) (fld 5 vs) (take 12 (drop 6 vs))
    (fld 18 vs) (fld 19 vs) (take 36 (drop 20 vs)).

Definition sb_bytes (s : aresfs_superblock) : list Z := pack sb_widths (sb_fields s).
Definition sb_of_bytes (l : list Z) : aresfs_superblock := sb_of_fields (unpack sb_widths l).
Definition inode_bytes (i : aresfs_inode) : list Z := pack inode_widths (inode_fields i).
Definition inode_of_bytes (l : list Z) : aresfs_inode := inode_of_fields (unpack inode_widths l).

(** A structure after [memset(&s, 0, sizeof(s))]. *)
Definition zero_sb : aresfs_superblock := mk_sb 0 0 0 0 0 0 0 0 0 0 (replicate 468 0) 0.
Definition zero_inode : aresfs_inode := mk_inode 0 0 0 0 0 0 (replicate 12 0) 0 0 (replicate 36 0).

Definition set_mode (x : Z) (i : aresfs_inode) : aresfs_inode :=
  mk_inode x (uid i) (gid i) (size i) (create_time i) (mod_time i) (direct i) (indirect i) (double_indirect i) (ino_pad i).
Definition set_size (x : Z) (i : aresfs_inode) : aresfs_inode :=
  mk_inode (mode i) (uid i) (gid i) x (create_time i) (mod_time i) (direct i) (indirect i) (double_indirect i) (ino_pad i).
Definition set_direct (x : list Z) (i : aresfs_inode) : aresfs_inode :=
  mk_inode (mode i) (uid i) (gid i) (size i) (create_time i) (mod_time i) x (indirect i) (double_indirect i) (ino_pad i).
Definition set_indirect (x : Z) (i : aresfs_inode) : aresfs_inode :=
  mk_inode (mode i) (uid i) (gid i) (size i) (create_time i) (mod_time i) (direct i) x (double_indirect i) (ino_pad i).

Record fd_entry := mk_fd { fd_used : bool; fd_inode : Z; fd_pos : Z; fd_flags : Z }.

(** The globals of aresfs.c, and the disk. *)
Record fs (D : Type) := mk_fs {
  g_sb : aresfs_superblock;
  g_block_bitmap : list Z;
  g_inode_bitmap : list Z;
  g_mounted : bool;
  g_fds : list fd_entry;
  f_dev : D }.
#[global] Arguments mk_fs {D}.
#[global] Arguments g_sb {D}.
#[global] Arguments g_block_bitmap {D}.
#[global] Arguments g_inode_bitmap {D}.
#[global] Arguments g_mounted {D}.
#[global] Arguments g_fds {D}.
#[global] Arguments f_dev {D}.

(** * Bitmaps: bit [idx] of byte [idx >> 3]; 1 is used *)

Definition bitmap_test (bm : list Z) (idx : Z) : option bool :=
  w ← arr_get bm (Z.shiftr idx 3);
  Some (negb (Z.land (Z.shiftr w (Z.land idx 7)) 1 =? 0)).

Definition bitmap_set (bm : list Z) (idx : Z) : option (list Z) :=
  w ← arr_get bm (Z.shiftr idx 3);
  arr_set bm (Z.shiftr idx 3) (u8 (Z.lor w (u8 (bit 32 (Z.land idx 7))))).

Definition bitmap_clear (bm : list Z) (idx : Z) : option (list Z) :=
  w ← arr_get bm (Z.shiftr idx 3);
  arr_set bm (Z.shiftr idx 3) (u8 (Z.land w (u8 (bnot 32 (bit 32 (Z.land idx 7)))))).

Definition UINT32_MAX : Z := 2 ^ 32 - 1.

Fixpoint find_free_from (n : nat) (i : Z) (bm : list Z) : option Z :=
  match n with
  | O => Some UINT32_MAX
  | S n => t ← bitmap_test bm i; if (t : bool) then find_free_from n (i + 1) bm else Some i
  end.

Definition bitmap_find_first_free (bm : list Z) (bit_count : Z) : option Z :=
  find_free_from (Z.to_nat bit_count) 0 bm.

Section dev.
Context {D : Type} {HD : BlockDevice D}.

Definition set_sb (x : aresfs_superblock) (s : fs D) : fs D :=
  mk_fs x (g_block_bitmap s) (g_inode_bitmap s) (g_mounted s) (g_fds s) (f_dev s).
Definition set_block_bitmap (x : list Z) (s : fs D) : fs D :=
  mk_fs (g_sb s) x (g_inode_bitmap s) (g_mounted s) (g_fds s) (f_dev s).
Definition set_inode_bitmap (x : list Z) (s : fs D) : fs D :=
  mk_fs (g_sb s) (g_block_bitmap s) x (g_mounted s) (g_fds s) (f_dev s).
Definition set_mounted (x : bool) (s : fs D) : fs D :=
  mk_fs (g_sb s) (g_block_bitmap s) (g_inode_bitmap s) x (g_fds s) (f_dev s).
Definition set_fds (x : list fd_entry) (s : fs D) : fs D :=
  mk_fs (g_sb s) (g_block_bitmap s) (g_inode_bitmap s) (g_mounted s) x (f_dev s).
Definition set_dev (x : D) (s : fs D) : fs D :=
  mk_fs (g_sb s) (g_block_bitmap s) (g_inode_bitmap s) (g_mounted s) (g_fds s) x.

Definition on_dev {A} (m : prog D A) : prog (fs D) A := fun s =>
  '(a, d) ← m (f_dev s); Some (a, set_dev d s).

(** A block of zeros: a buffer after [fs_memset]; also the buffers on the
    stack, whose contents are never used before they are filled. *)
Definition zero_block : list Z := replicate 512 0.

(** * Block transfer *)

Definition block_read (fs_block : Z) (buf : list Z) : prog (fs D) (ares_status * list Z) :=
  if ARESFS_TOTAL_BLOCKS <=? fs_block then mret (ARES_EINVAL, buf)
  else
    '(r, buf) ← on_dev (bd_read (u32 (ARESFS_BASE_LBA + fs_block)) buf);
    mret (if r =? 0 then ARES_OK else ARES_ERROR, buf).

Definition block_write (fs_block : Z) (buf : list Z) : prog (fs D) ares_status :=
  if ARESFS_TOTAL_BLOCKS <=? fs_block then mret ARES_EINVAL
  else
    r ← on_dev (bd_write (u32 (ARESFS_BASE_LBA + fs_block)) buf);
    mret (if r =? 0 then ARES_OK else ARES_ERROR).

(** * Allocation *)

Definition alloc_block : prog (fs D) Z :=
  bm ← gets g_block_bitmap;
  b ← need (bitmap_find_first_free bm ARESFS_TOTAL_BLOCKS);
  if b =? UINT32_MAX then mret 0
  else
    bm' ← need (bitmap_set bm b);
    _ ← modify (set_block_bitmap bm');
    _ ← block_write ARESFS_BLOCK_BITMAP_BLOCK bm';
    mret b.

Definition free_block (block_num : Z) : prog (fs D) unit :=
  if (block_num =? 0) || (ARESFS_TOTAL_BLOCKS <=? block_num) then mret tt
  else
    bm ← gets g_block_bitmap;
    t ← need (bitmap_test bm block_num);
    if negb t then mret tt
    else
      bm' ← need (bitmap_clear bm block_num);
      _ ← modify (set_block_bitmap bm');
      _ ← block_write ARESFS_BLOCK_BITMAP_BLOCK bm';
      mret tt.

Definition alloc_inode : prog (fs D) Z :=
  bm ← gets g_inode_bitmap;
  b ← need (bitmap_find_first_free bm ARESFS_INODE_COUNT);
  if b =? UINT32_MAX then mret ARESFS_INODE_INVALID
  else
    bm' ← need (bitmap_set bm b);
    _ ← modify (set_inode_bitmap bm');
    _ ← block_write ARESFS_INODE_BITMAP_BLOCK bm';
    mret b.

Definition free_inode (inode_num : Z) : prog (fs D) unit :=
  if inode_num =? ARESFS_INODE_INVALID then mret tt
  else if ARESFS_INODE_COUNT <=? inode_num then mret tt
  else
    bm ← gets g_inode_bitmap;
    t ← need (bitmap_test bm inode_num);
    if negb t then mret tt
    else
      bm' ← need (bitmap_clear bm inode_num);
      _ ← modify (set_inode_bitmap bm');
      _ ← block_write ARESFS_INODE_BITMAP_BLOCK bm';
      mret tt.

(** * The inode table; an error is the left value *)

Definition inode_read (inode_num : Z) : prog (fs D) (ares_status + aresfs_inode) :=
  if ARESFS_INODE_COUNT <=? inode_num then mret (inl ARES_EINVAL)
  else
    let block_idx := inode_num / ARESFS_INODES_PER_BLOCK in
    let slot_idx := inode_num mod ARESFS_INODES_PER_BLOCK in
    '(st, buf) ← block_read (ARESFS_INODE_START_BLOCK + block_idx) zero_block;
    if bool_decide (st <> ARES_OK) then mret (inl st)
    else mret (inr (inode_of_bytes (slice (slot_idx * ARESFS_INODE_SIZE) ARESFS_INODE_SIZE buf))).

Definition inode_write (inode_num : Z) (ino : aresfs_inode) : prog (fs D) ares_status :=
  if ARESFS_INODE_COUNT <=? inode_num then mret ARES_EINVAL
  else
    let block_idx := inode_num / ARESFS_INODES_PER_BLOCK in
    let slot_idx := inode_num mod ARESFS_INODES_PER_BLOCK in
    '(st, buf) ← block_read (ARESFS_INODE_START_BLOCK + block_idx) zero_block;
    if bool_decide (st <> ARES_OK) then mret st
    else block_write (ARESFS_INODE_START_BLOCK + block_idx)
           (splice (slot_idx * ARESFS_INODE_SIZE) (inode_bytes ino) buf).

End dev.

(** * Bitmaps as sets of bits *)

Definition bm_ok (bm : list Z) : Prop := length bm = 512%nat /\ Forall byte_ok bm.
Definition bm_bit (bm : list Z) (i : Z) : bool := Z.testbit (default 0 (arr_get bm (i / 8))) (i mod 8).
Definition bit_ok (i : Z) : Prop := 0 <= i < 4096.

Lemma bm_byte bm i : bm_ok bm -> bit_ok i -> exists w, arr_get bm (i / 8) = Some w /\ byte_ok w.
Proof.
  intros [Hl Hb] Hi. unfold bit_ok in Hi. destruct (arr_get_in bm (i / 8)) as [w Hw]; [rewrite Hl; dlia|].
  exists w. split; [done|]. rewrite Forall_forall in Hb. by eapply Hb, arr_get_elem.
Qed.

Lemma idx_split i : 0 <= i -> Z.shiftr i 3 = i / 8 /\ Z.land i 7 = i mod 8 /\ 0 <= i mod 8 < 8.
Proof.
  intros Hi. rewrite (shiftr_div 3), (land_low 3) by lia. change (2 ^ 3) with 8. split_and!; [done|done|dlia|dlia].
Qed.

Lemma bitmap_test_ok bm i : bm_ok bm -> bit_ok i -> bitmap_test bm i = Some (bm_bit bm i).
Proof.
  intros Hbm Hi. destruct (bm_byte bm i Hbm Hi) as (w & Hw & _). destruct (idx_split i) as (E1 & E2 & Hr); [unfold bit_ok in Hi; lia|].
  unfold bitmap_test, bm_bit. rewrite E1, E2, Hw. cbn [mbind option_bind default]. f_equal.
  rewrite land_1_testbit, negb_involutive, Z.shiftr_spec by lia. by rewrite Z.add_0_l.
Qed.

(** The bits of the bitmap after one byte was replaced. *)
Lemma bm_put bm i w : bm_ok bm -> bit_ok i -> byte_ok w ->
  exists bm', arr_set bm (i / 8) w = Some bm' /\ bm_ok bm' /\
    forall j, bm_bit bm' j = if j / 8 =? i / 8 then Z.testbit w (j mod 8) else bm_bit bm j.
Proof.
  intros [Hl Hb] Hi Hw. unfold bit_ok in Hi. eexists. split; [apply arr_set_in; rewrite Hl; dlia|]. split.
  - split; [by rewrite length_insert|]. by apply Forall_insert.
  - intros j. unfold bm_bit. rewrite (arr_get_set bm _ (i / 8) (j / 8) w) by (apply arr_set_in; rewrite Hl; dlia).
    by destruct (j / 8 =? i / 8).
Qed.

Lemma idx_eq i j : (j =? i) = (j / 8 =? i / 8) && (j mod 8 =? i mod 8).
Proof. pose proof (Z.div_mod j 8 ltac:(lia)). pose proof (Z.div_mod i 8 ltac:(lia)). zcases; subst; lia. Qed.

Lemma bitmap_set_ok bm i : bm_ok bm -> bit_ok i ->
  exists bm', bitmap_set bm i = Some bm' /\ bm_ok bm' /\ forall j, bm_bit bm' j = (j =? i) || bm_bit bm j.
Proof.
  intros Hbm Hi. destruct (bm_byte bm i Hbm Hi) as (w & Hw & Hwb). destruct (idx_split i) as (E1 & E2 & Hr); [unfold bit_ok in Hi; lia|].
  unfold bitmap_set. rewrite E1, E2, Hw. cbn [mbind option_bind].
  assert (Hbit : u8 (bit 32 (i mod 8)) = 2 ^ (i mod 8) /\ byte_ok (2 ^ (i mod 8))).
  { assert (Hp : byte_ok (2 ^ (i mod 8))) by (split; [lia|apply Z.pow_lt_mono_r; lia]).
    rewrite bit_pow by lia. by rewrite wrap_small. }
  destruct Hbit as [-> Hp]. assert (Hv : byte_ok (Z.lor w (2 ^ (i mod 8)))) by exact (lor_range 8 _ _ ltac:(lia) Hwb Hp).
  rewrite wrap_small by done.
  destruct (bm_put bm i _ Hbm Hi Hv) as (bm' & -> & Hok & Hbits). exists bm'. split_and!; [done|done|].
  intros j. rewrite Hbits, (idx_eq i j). destruct (Z.eqb_spec (j / 8) (i / 8)) as [E|]; [|done].
  unfold bm_bit. rewrite E, Hw. cbn [default andb]. rewrite Z.lor_spec, Z.pow2_bits_eqb by lia.
  rewrite orb_comm. f_equal. apply Z.eqb_sym.
Qed.

Lemma bitmap_clear_ok bm i : bm_ok bm -> bit_ok i ->
  exists bm', bitmap_clear bm i = Some bm' /\ bm_ok bm' /\ forall j, bm_bit bm' j = negb (j =? i) && bm_bit bm j.
Proof.
  intros Hbm Hi. destruct (bm_byte bm i Hbm Hi) as (w & Hw & Hwb). destruct (idx_split i) as (E1 & E2 & Hr); [unfold bit_ok in Hi; lia|].
  unfold bitmap_clear. rewrite E1, E2, Hw. cbn [mbind option_bind].
  set (mk := u8 (bnot 32 (bit 32 (i mod 8)))).
  assert (Hv : byte_ok (Z.land w mk)) by exact (land_range 8 _ _ ltac:(lia) Hwb).
  rewrite wrap_small by done.
  destruct (bm_put bm i _ Hbm Hi Hv) as (bm' & -> & Hok & Hbits). exists bm'. split_and!; [done|done|].
  intros j. rewrite Hbits, (idx_eq i j). destruct (Z.eqb_spec (j / 8) (i / 8)) as [E|]; [|done].
  unfold bm_bit. rewrite E, Hw. cbn [default andb]. unfold mk, wrap. pose proof (Z.mod_pos_bound j 8).
  rewrite Z.land_spec, Z.testbit_mod_pow2, testbit_bnot, testbit_bit by lia.
  rewrite (proj2 (Z.ltb_lt _ 8)), (proj2 (Z.ltb_lt _ 32)), (Z.eqb_sym (i mod 8)) by lia. cbn [andb]. apply andb_comm.
Qed.

Lemma find_free_from_ok bm n : forall i, bm_ok bm -> 0 <= i -> i + Z.of_nat n <= 4096 ->
  (find_free_from n i bm = Some UINT32_MAX /\ forall j, i <= j < i + Z.of_nat n -> bm_bit bm j = true) \/
  (exists k, find_free_from n i bm = Some k /\ i <= k < i + Z.of_nat n /\ bm_bit bm k = false /\
     forall j, i <= j < k -> bm_bit bm j = true).
Proof.
  induction n as [|n IH]; intros i Hbm H0 Hn; cbn [find_free_from]; [left; split; [done|lia]|].
  rewrite bitmap_test_ok by (done || (unfold bit_ok; lia)). cbn [mbind option_bind].
  destruct (bm_bit bm i) eqn:E.
  - destruct (IH (i + 1) Hbm) as [[-> Hall]|(k & -> & Hk & Hf & Hlow)]; [lia|lia| |].
    + left. split; [done|]. intros j Hj. destruct (Z.eq_dec j i) as [->|]; [done|apply Hall; lia].
    + right. exists k. split_and!; [done|lia|lia|done|]. intros j Hj. destruct (Z.eq_dec j i) as [->|]; [done|apply Hlow; lia].
  - right. exists i. split_and!; [done|lia|lia|done|lia].
Qed.

(** * Inodes and their byte images *)

Record inode_ok (i : aresfs_inode) : Prop := {
  io_mode : field_ok 4 (mode i); io_uid : field_ok 4 (uid i); io_gid : field_ok 4 (gid i);
  io_size : field_ok 8 (size i); io_ctime : field_ok 8 (create_time i); io_mtime : field_ok 8 (mod_time i);
  io_direct : length (direct i) = 12%nat /\ Forall (field_ok 4) (direct i);
  io_indirect : field_ok 4 (indirect i); io_double : field_ok 4 (double_indirect i);
  io_pad : length (ino_pad i) = 36%nat /\ Forall (field_ok 1) (ino_pad i) }.

Lemma inode_widths_pos : Forall (fun w => 0 <= w) inode_widths.
Proof. apply (bool_decide_unpack _). vm_compute. exact I. Qed.

Lemma fields_replicate w n vs : length vs = n -> Forall (field_ok w) vs -> Forall2 field_ok (replicate n w) vs.
Proof.
  intros <-. induction vs as [|v vs IH]; intros Hv; [constructor|]. apply Forall_cons in Hv as [Hv Hvs].
  constructor; [done|by apply IH].
Qed.

Lemma replicate_fields w n vs : Forall2 field_ok (replicate n w) vs -> length vs = n /\ Forall (field_ok w) vs.
Proof.
  revert vs. induction n as [|n IH]; intros vs Hv; inversion Hv as [|? v ? vs' H1 H2]; subst; [done|].
  destruct (IH _ H2) as [<- ?]. split; [done|by constructor].
Qed.

Lemma inode_fields_ok i : inode_ok i -> Forall2 field_ok inode_widths (inode_fields i).
Proof.
  intros [Hm Hu Hg Hs Hc Hmt [Hdl Hd] Hi Hdi [Hpl Hp]]. unfold inode_widths, inode_fields.
  apply Forall2_app; [repeat (constructor; [done|]); constructor|]. apply Forall2_app; [by apply fields_replicate|].
  apply Forall2_app; [repeat (constructor; [done|]); constructor|by apply fields_replicate].
Qed.

(** Twelve direct pointers and 36 pad bytes: the fields name the record. *)
Lemma inode_of_to_fields i : length (direct i) = 12%nat -> length (ino_pad i) = 36%nat -> inode_of_fields (inode_fields i) = i.
Proof.
  intros Hd Hp. destruct i as [m u g s c mt d ind di p]. cbn [direct ino_pad] in *.
  do 12 (destruct d as [|? d]; [discriminate Hd|]). destruct d; [|discriminate Hd].
  do 36 (destruct p as [|? p]; [discriminate Hp|]). destruct p; [|discriminate Hp]. reflexivity.
Qed.

Lemma inode_bytes_length i : inode_ok i -> length (inode_bytes i) = 128%nat.
Proof.
  intros Hi. unfold inode_bytes. rewrite pack_length; [reflexivity|by eapply Forall2_length, inode_fields_ok|apply inode_widths_pos].
Qed.

Lemma inode_bytes_ok i : Forall byte_ok (inode_bytes i).
Proof. apply pack_byte_ok, inode_widths_pos. Qed.

Lemma inode_of_bytes_bytes i : inode_ok i -> inode_of_bytes (inode_bytes i) = i.
Proof.
  intros Hi. unfold inode_of_bytes, inode_bytes. rewrite unpack_pack by (apply inode_widths_pos || by apply inode_fields_ok).
  by apply inode_of_to_fields; apply Hi.
Qed.

Lemma zero_inode_ok : inode_ok zero_inode.
Proof.
  assert (forall w, 0 <= w -> field_ok w 0) by (intros; unfold field_ok; lia).
  split; cbn [mode uid gid size create_time mod_time direct indirect double_indirect ino_pad zero_inode]; auto with lia;
    (split; [reflexivity|apply Forall_replicate; auto with lia]).
Qed.

Lemma set_mode_ok i x : inode_ok i -> field_ok 4 x -> inode_ok (set_mode x i).
Proof. intros [] ?. by split. Qed.
Lemma set_size_ok i x : inode_ok i -> field_ok 8 x -> inode_ok (set_size x i).
Proof. intros [] ?. by split. Qed.
Lemma set_direct_ok i x : inode_ok i -> length x = 12%nat -> Forall (field_ok 4) x -> inode_ok (set_direct x i).
Proof. intros [] ? ?. by split. Qed.
Lemma set_indirect_ok i x : inode_ok i -> field_ok 4 x -> inode_ok (set_indirect x i).
Proof. intros [] ?. by split. Qed.

(** Any 128 bytes are the image of a well-formed inode. *)
Lemma inode_of_bytes_ok l : length l = 128%nat -> Forall byte_ok l -> inode_ok (inode_of_bytes l).
Proof.
  intros Hl Hb. unfold inode_of_bytes.
  assert (Hf : Forall2 field_ok inode_widths (unpack inode_widths l)) by (apply unpack_field_ok; [apply inode_widths_pos|by rewrite Hl|done]).
  revert Hf. generalize (unpack inode_widths l) as vs. intros vs Hf. unfold inode_widths in Hf.
  apply Forall2_app_inv_l in Hf as (h & vs1 & Hh & Hf & ->). apply Forall2_app_inv_l in Hf as (d & vs2 & Hd & Hf & ->).
  apply Forall2_app_inv_l in Hf as (x & p & Hx & Hp & ->). apply replicate_fields in Hd as [Hdl Hd], Hp as [Hpl Hp].
  repeat match goal with H : Forall2 _ (_ :: _) _ |- _ => inversion H; subst; clear H end.
  repeat match goal with H : Forall2 _ [] _ |- _ => inversion H; subst; clear H end.
  match goal with |- inode_ok (inode_of_fields ([?a; ?b; ?c; ?e; ?f; ?g] ++ d ++ [?y; ?z] ++ p)) =>
    change (inode_ok (inode_of_fields (inode_fields (mk_inode a b c e f g d y z p)))) end.
  rewrite inode_of_to_fields by done. by split.
Qed.

(** * The abstract file-system state *)

(** The cached globals and the contents of the 4096 blocks. *)
Record afs := mk_afs {
  a_sb : aresfs_superblock; a_bbm : list Z; a_ibm : list Z; a_mounted : bool; a_fds : list fd_entry;
  a_blk : Z -> list Z }.

Definition a_write (b : Z) (buf : list Z) (a : afs) : afs :=
  mk_afs (a_sb a) (a_bbm a) (a_ibm a) (a_mounted a) (a_fds a) (fun c => if c =? b then buf else a_blk a c).
Definition a_set_sb (x : aresfs_superblock) (a : afs) : afs := mk_afs x (a_bbm a) (a_ibm a) (a_mounted a) (a_fds a) (a_blk a).
Definition a_set_bbm (x : list Z) (a : afs) : afs := mk_afs (a_sb a) x (a_ibm a) (a_mounted a) (a_fds a) (a_blk a).
Definition a_set_ibm (x : list Z) (a : afs) : afs := mk_afs (a_sb a) (a_bbm a) x (a_mounted a) (a_fds a) (a_blk a).
Definition a_set_mounted (x : bool) (a : afs) : afs := mk_afs (a_sb a) (a_bbm a) (a_ibm a) x (a_fds a) (a_blk a).
Definition a_set_fds (x : list fd_entry) (a : afs) : afs := mk_afs (a_sb a) (a_bbm a) (a_ibm a) (a_mounted a) x (a_blk a).

Definition block_ok (b : Z) : Prop := 0 <= b < ARESFS_TOTAL_BLOCKS.
Definition blk_ok (buf : list Z) : Prop := length buf = 512%nat /\ Forall byte_ok buf.

Lemma zero_block_ok : blk_ok zero_block.
Proof. split; [done|]. apply Forall_replicate. unfold byte_ok. lia. Qed.

(** Inode [n] as the inode table on disk holds it. *)
Definition slot_off (n : Z) : Z := (n mod ARESFS_INODES_PER_BLOCK) * ARESFS_INODE_SIZE.
Definition slot_blk (n : Z) : Z := ARESFS_INODE_START_BLOCK + n / ARESFS_INODES_PER_BLOCK.
Definition a_inode (a : afs) (n : Z) : aresfs_inode :=
  inode_of_bytes (slice (slot_off n) ARESFS_INODE_SIZE (a_blk a (slot_blk n))).
Definition a_put_inode (n : Z) (i : aresfs_inode) (a : afs) : afs :=
  a_write (slot_blk n) (splice (slot_off n) (inode_bytes i) (a_blk a (slot_blk n))) a.
Definition inum_ok (n : Z) : Prop := 0 <= n < ARESFS_INODE_COUNT.

Lemma slot_bounds n : inum_ok n -> 0 <= slot_off n /\ slot_off n + 128 <= 512 /\ 4 <= slot_blk n < 132 /\ block_ok (slot_blk n).
Proof.
  intros Hn. assert (H : 0 <= n < 512) by exact Hn. unfold slot_off, slot_blk, block_ok.
  change ARESFS_INODES_PER_BLOCK with 4. change ARESFS_INODE_SIZE with 128. change ARESFS_INODE_START_BLOCK with 4.
  change ARESFS_TOTAL_BLOCKS with 4096. split_and!; dlia.
Qed.

Lemma slot_apart n m : inum_ok n -> inum_ok m -> n <> m -> slot_blk n = slot_blk m ->
  slot_off m + 128 <= slot_off n \/ slot_off n + 128 <= slot_off m.
Proof.
  intros Hn Hm Hne. unfold slot_off, slot_blk. change ARESFS_INODES_PER_BLOCK with 4. change ARESFS_INODE_SIZE with 128.
  change ARESFS_INODE_START_BLOCK with 4. intros E. dlia.
Qed.

Section ops.
Context {D : Type} {HD : BlockDevice D} {HL : BlockDeviceLaws D}.
Implicit Types (s : fs D) (a : afs).

(** The concrete state [s] on a healthy disk holds [a]. *)
Record rep (s : fs D) (a : afs) : Prop := {
  rep_dev : bd_inv (f_dev s);
  rep_sb : g_sb s = a_sb a; rep_bbm : g_block_bitmap s = a_bbm a; rep_ibm : g_inode_bitmap s = a_ibm a;
  rep_mounted : g_mounted s = a_mounted a; rep_fds : g_fds s = a_fds a;
  rep_blk b : block_ok b -> bd_sector (f_dev s) (ARESFS_BASE_LBA + b) = a_blk a b }.

Lemma lba_ok b : block_ok b -> u32 (ARESFS_BASE_LBA + b) = ARESFS_BASE_LBA + b /\ 0 <= ARESFS_BASE_LBA + b < bd_limit.
Proof.
  intros Hb. pose proof bd_limit_ge. unfold block_ok, ARESFS_TOTAL_BLOCKS, ARESFS_BASE_LBA in *. rewrite wrap_small by lia. lia.
Qed.

Lemma rep_blk_ok s a b : rep s a -> block_ok b -> blk_ok (a_blk a b).
Proof. intros Hr Hb. rewrite <- (rep_blk _ _ Hr b Hb). apply bd_sector_ok; [apply Hr|by apply lba_ok]. Qed.

Lemma runs_on_dev {A} (m : prog D A) s (Q : A -> fs D -> Prop) :
  runs m (f_dev s) (fun r d => Q r (set_dev d s)) -> runs (on_dev m) s Q.
Proof. intros (r & d & Hm & HQ). exists r, (set_dev d s). split; [|done]. unfold on_dev. by rewrite Hm. Qed.

Lemma block_read_ok s a b buf : rep s a -> block_ok b -> length buf = 512%nat ->
  runs (block_read b buf) s (fun r s' => r = (ARES_OK, a_blk a b) /\ rep s' a).
Proof.
  intros Hr Hb Hl. unfold block_read. rewrite (proj2 (Z.leb_gt _ _)) by apply Hb. destruct (lba_ok b Hb) as [-> Hlba].
  run. apply runs_on_dev. eapply runs_mono; [apply bd_read_ok; [apply Hr|done|done]|].
  intros r d (-> & Hd & Hsec). run. rewrite (rep_blk _ _ Hr b Hb). split; [done|]. split; try apply Hr; [done|].
  intros c Hc. cbn [f_dev set_dev]. rewrite Hsec by apply lba_ok, Hc. by apply Hr.
Qed.

Lemma block_write_ok s a b buf : rep s a -> block_ok b -> blk_ok buf ->
  runs (block_write b buf) s (fun r s' => r = ARES_OK /\ rep s' (a_write b buf a)).
Proof.
  intros Hr Hb [Hl Hbs]. unfold block_write. rewrite (proj2 (Z.leb_gt _ _)) by apply Hb. destruct (lba_ok b Hb) as [-> Hlba].
  run. apply runs_on_dev. eapply runs_mono; [apply bd_write_ok; [apply Hr|done|done|done]|].
  intros r d (-> & Hd & Hsec). run. split; [done|]. split; try apply Hr; [done|].
  intros c Hc. cbn [f_dev set_dev a_write a_blk]. rewrite Hsec by apply lba_ok, Hc.
  destruct (Z.eqb_spec c b) as [->|Hne]; [by rewrite Z.eqb_refl|].
  destruct (Z.eqb_spec (ARESFS_BASE_LBA + c) (ARESFS_BASE_LBA + b)); [lia|]. by apply Hr.
Qed.

(** Updates of the cached state. *)
Lemma rep_set_bbm s a x : rep s a -> rep (set_block_bitmap x s) (a_set_bbm x a).
Proof. intros []. by split. Qed.
Lemma rep_set_ibm s a x : rep s a -> rep (set_inode_bitmap x s) (a_set_ibm x a).
Proof. intros []. by split. Qed.
Lemma rep_set_sb s a x : rep s a -> rep (set_sb x s) (a_set_sb x a).
Proof. intros []. by split. Qed.
Lemma rep_set_mounted s a x : rep s a -> rep (set_mounted x s) (a_set_mounted x a).
Proof. intros []. by split. Qed.
Lemma rep_set_fds s a x : rep s a -> rep (set_fds x s) (a_set_fds x a).
Proof. intros []. by split. Qed.

(** * The inode table *)

Lemma inode_read_ok s a n : rep s a -> inum_ok n ->
  runs (inode_read n) s (fun r s' => r = inr (a_inode a n) /\ rep s' a).
Proof.
  intros Hr Hn. unfold inode_read. rewrite (proj2 (Z.leb_gt _ _)) by apply Hn. cbv zeta.
  fold (slot_blk n) (slot_off n). destruct (slot_bounds n Hn) as (_ & _ & _ & Hb).
  run. eapply runs_mono; [by apply block_read_ok|]. intros r s' [-> Hr']. rewrite bool_decide_false by (intros E; by apply E).
  by run.
Qed.

Lemma inode_write_ok s a n i : rep s a -> inum_ok n -> inode_ok i ->
  runs (inode_write n i) s (fun r s' => r = ARES_OK /\ rep s' (a_put_inode n i a)).
Proof.
  intros Hr Hn Hi. unfold inode_write. rewrite (proj2 (Z.leb_gt _ _)) by apply Hn. cbv zeta.
  fold (slot_blk n) (slot_off n). destruct (slot_bounds n Hn) as (H0 & H1 & _ & Hb).
  run. eapply runs_mono; [by apply block_read_ok|]. intros r s' [-> Hr']. rewrite bool_decide_false by (intros E; by apply E).
  destruct (rep_blk_ok _ _ (slot_blk n) Hr Hb) as [Hl Hbs].
  eapply runs_mono; [apply (block_write_ok s' a); [done|done|]|done]. split.
  - rewrite splice_length; rewrite ?inode_bytes_length by done; lia.
  - apply byte_ok_splice; [apply inode_bytes_ok|done].
Qed.

Lemma a_inode_ok s a n : rep s a -> inum_ok n -> inode_ok (a_inode a n).
Proof.
  intros Hr Hn. destruct (slot_bounds n Hn) as (H0 & H1 & _ & Hb). destruct (rep_blk_ok _ _ (slot_blk n) Hr Hb) as [Hl Hbs].
  apply inode_of_bytes_ok; [rewrite slice_length; [reflexivity|lia|done|]|by apply byte_ok_slice].
  rewrite Hl. change ARESFS_INODE_SIZE with 128. lia.
Qed.

(** Writing an inode changes that inode and no other. *)
Lemma a_inode_store a n ino m : inode_ok ino -> inum_ok n -> inum_ok m -> length (a_blk a (slot_blk n)) = 512%nat ->
  a_inode (a_put_inode n ino a) m = if m =? n then ino else a_inode a m.
Proof.
  intros Hok Hn Hm Hl. pose proof (slot_bounds n Hn) as (Hso & Hso2 & Hsb & Hsbk). pose proof (slot_bounds m Hm) as (Hmo & _ & Hmb & _).
  pose proof (inode_bytes_length ino Hok) as Hil. unfold a_inode, a_put_inode. cbn [a_blk a_write]. change ARESFS_INODE_SIZE with 128.
  destruct (Z.eqb_spec (slot_blk m) (slot_blk n)) as [E|E], (Z.eqb_spec m n) as [->|Hne]; try done.
  - rewrite slice_splice by (rewrite ?Hl; (done || lia)). by apply inode_of_bytes_bytes.
  - rewrite slice_splice_ne; [by rewrite E|lia|lia|lia|rewrite Hl by done; lia|]. rewrite Hil. change (Z.of_nat 128) with 128.
    pose proof (slot_apart n m Hn Hm ltac:(done) ltac:(done)). lia.
Qed.

Lemma a_inode_put s a n i m : rep s a -> inum_ok n -> inum_ok m -> inode_ok i ->
  a_inode (a_put_inode n i a) m = if m =? n then i else a_inode a m.
Proof.
  intros Hr Hn Hm Hi. destruct (slot_bounds n Hn) as (_ & _ & _ & Hb). apply a_inode_store; try done. by apply (rep_blk_ok s a).
Qed.

End ops.

(** * Allocation *)

(** The cached block and inode bitmaps are those on disk (write-through), and
    the metadata blocks and the inodes 0 and 1 are marked used. *)
Record bitmaps_inv (a : afs) : Prop := {
  bi_bbm : bm_ok (a_bbm a); bi_ibm : bm_ok (a_ibm a);
  bi_bdisk : a_blk a ARESFS_BLOCK_BITMAP_BLOCK = a_bbm a;
  bi_idisk : a_blk a ARESFS_INODE_BITMAP_BLOCK = a_ibm a;
  bi_meta j : 0 <= j < ARESFS_DATA_START_BLOCK -> bm_bit (a_bbm a) j = true;
  bi_inodes j : 0 <= j <= ARESFS_ROOT_INODE -> bm_bit (a_ibm a) j = true }.

(** The state with another block bitmap, in memory and on disk. *)
Definition a_bbm_to (bm : list Z) (a : afs) : afs := a_write ARESFS_BLOCK_BITMAP_BLOCK bm (a_set_bbm bm a).
Definition a_ibm_to (bm : list Z) (a : afs) : afs := a_write ARESFS_INODE_BITMAP_BLOCK bm (a_set_ibm bm a).

(** [bm'] is [bm] with bit [i] set to [v]. *)
Definition bm_upd (bm : list Z) (i : Z) (v : bool) (bm' : list Z) : Prop :=
  bm_ok bm' /\ forall j, bm_bit bm' j = if j =? i then v else bm_bit bm j.

Lemma bitmaps_inv_bbm a i v bm : bitmaps_inv a -> ARESFS_DATA_START_BLOCK <= i -> bm_upd (a_bbm a) i v bm ->
  bitmaps_inv (a_bbm_to bm a).
Proof.
  intros [] Hi [Hok Hb]. split; try done. intros j Hj. cbn. rewrite Hb. destruct (Z.eqb_spec j i); [lia|auto].
Qed.

Lemma bitmaps_inv_ibm a i v bm : bitmaps_inv a -> ARESFS_ROOT_INODE < i -> bm_upd (a_ibm a) i v bm ->
  bitmaps_inv (a_ibm_to bm a).
Proof.
  intros [] Hi [Hok Hb]. split; try done. intros j Hj. cbn. rewrite Hb. destruct (Z.eqb_spec j i); [lia|auto].
Qed.

(** Writing any other block keeps the bitmaps. *)
Lemma bitmaps_inv_write a b buf : bitmaps_inv a -> ARESFS_INODE_BITMAP_BLOCK < b -> bitmaps_inv (a_write b buf a).
Proof.
  intros [] Hb. split; try done; cbn [a_write a_blk a_bbm a_ibm].
  - by destruct (Z.eqb_spec ARESFS_BLOCK_BITMAP_BLOCK b) as [<-|]; [unfold ARESFS_BLOCK_BITMAP_BLOCK, ARESFS_INODE_BITMAP_BLOCK in Hb; lia|].
  - by destruct (Z.eqb_spec ARESFS_INODE_BITMAP_BLOCK b) as [<-|]; [lia|].
Qed.

Lemma bitmap_set_upd bm i : bm_ok bm -> bit_ok i -> exists bm', bitmap_set bm i = Some bm' /\ bm_upd bm i true bm'.
Proof.
  intros Hbm Hi. destruct (bitmap_set_ok bm i Hbm Hi) as (bm' & ? & ? & Hb). exists bm'. split; [done|].
  split; [done|]. intros j. rewrite Hb. by destruct (j =? i).
Qed.

Lemma bitmap_clear_upd bm i : bm_ok bm -> bit_ok i -> exists bm', bitmap_clear bm i = Some bm' /\ bm_upd bm i false bm'.
Proof.
  intros Hbm Hi. destruct (bitmap_clear_ok bm i Hbm Hi) as (bm' & ? & ? & Hb). exists bm'. split; [done|].
  split; [done|]. intros j. rewrite Hb. by destruct (j =? i).
Qed.

Section alloc.
Context {D : Type} {HD : BlockDevice D} {HL : BlockDeviceLaws D}.
Implicit Types (s : fs D) (a : afs).

Lemma alloc_block_ok s a : rep s a -> bitmaps_inv a ->
  runs alloc_block s (fun b s' =>
    (b = 0 /\ rep s' a /\ forall j, block_ok j -> bm_bit (a_bbm a) j = true) \/
    (ARESFS_DATA_START_BLOCK <= b < ARESFS_TOTAL_BLOCKS /\ bm_bit (a_bbm a) b = false /\
     (forall j, 0 <= j < b -> bm_bit (a_bbm a) j = true) /\
     exists bm', bm_upd (a_bbm a) b true bm' /\ rep s' (a_bbm_to bm' a))).
Proof.
  intros Hr Hi. pose proof (bi_bbm _ Hi) as Hbm. unfold alloc_block. run. rewrite (rep_bbm _ _ Hr).
  unfold bitmap_find_first_free. change (Z.to_nat ARESFS_TOTAL_BLOCKS) with 4096%nat.
  destruct (find_free_from_ok (a_bbm a) 4096 0 Hbm) as [[E Hall]|(k & E & Hk & Hf & Hlow)]; [lia|lia| |];
    (eapply runs_need; [exact E|]).
  - rewrite Z.eqb_refl. run. left. split_and!; [done|done|]. intros j Hj. apply Hall. unfold block_ok, ARESFS_TOTAL_BLOCKS in Hj. lia.
  - rewrite (proj2 (Z.eqb_neq k UINT32_MAX)) by (unfold UINT32_MAX; lia). run.
    destruct (bitmap_set_upd (a_bbm a) k Hbm) as (bm' & E' & Hu); [unfold bit_ok; lia|].
    eapply runs_need; [exact E'|]. run.
    eapply runs_mono; [apply (block_write_ok _ (a_set_bbm bm' a)); [by apply rep_set_bbm|done|apply Hu]|].
    intros r s' [_ Hr']. run. right.
    assert (Hk132 : ARESFS_DATA_START_BLOCK <= k).
    { destruct (Z.le_gt_cases ARESFS_DATA_START_BLOCK k); [done|]. rewrite (bi_meta _ Hi k) in Hf by lia. done. }
    split_and!; [done|unfold ARESFS_TOTAL_BLOCKS; lia|done|intros; apply Hlow; lia|]. exists bm'. done.
Qed.

Lemma alloc_inode_ok s a : rep s a -> bitmaps_inv a ->
  runs alloc_inode s (fun n s' =>
    (n = ARESFS_INODE_INVALID /\ rep s' a /\ forall j, inum_ok j -> bm_bit (a_ibm a) j = true) \/
    (ARESFS_ROOT_INODE < n < ARESFS_INODE_COUNT /\ bm_bit (a_ibm a) n = false /\
     (forall j, 0 <= j < n -> bm_bit (a_ibm a) j = true) /\
     exists bm', bm_upd (a_ibm a) n true bm' /\ rep s' (a_ibm_to bm' a))).
Proof.
  intros Hr Hi. pose proof (bi_ibm _ Hi) as Hbm. unfold alloc_inode. run. rewrite (rep_ibm _ _ Hr).
  unfold bitmap_find_first_free. change (Z.to_nat ARESFS_INODE_COUNT) with 512%nat.
  destruct (find_free_from_ok (a_ibm a) 512 0 Hbm) as [[E Hall]|(k & E & Hk & Hf & Hlow)]; [lia|lia| |];
    (eapply runs_need; [exact E|]).
  - rewrite Z.eqb_refl. run. left. split_and!; [done|done|]. intros j Hj. apply Hall.
    assert (0 <= j < 512) by exact Hj. lia.
  - rewrite (proj2 (Z.eqb_neq k UINT32_MAX)) by (unfold UINT32_MAX; lia). run.
    destruct (bitmap_set_upd (a_ibm a) k Hbm) as (bm' & E' & Hu); [unfold bit_ok; lia|].
    eapply runs_need; [exact E'|]. run.
    eapply runs_mono; [apply (block_write_ok _ (a_set_ibm bm' a)); [by apply rep_set_ibm|done|apply Hu]|].
    intros r s' [_ Hr']. run. right.
    assert (Hk1 : ARESFS_ROOT_INODE < k).
    { destruct (Z.lt_ge_cases ARESFS_ROOT_INODE k); [done|]. rewrite (bi_inodes _ Hi k) in Hf by lia. done. }
    change ARESFS_INODE_COUNT with 512. split_and!; [done|lia|done|intros; apply Hlow; lia|]. exists bm'. done.
Qed.

(** [free_block] ignores block 0, blocks outside the disk and free blocks. *)
Lemma free_block_ok s a b : rep s a -> bitmaps_inv a -> 0 <= b ->
  runs (free_block b) s (fun _ s' =>
    if (0 <? b) && (b <? ARESFS_TOTAL_BLOCKS) && bm_bit (a_bbm a) b
    then exists bm', bm_upd (a_bbm a) b false bm' /\ rep s' (a_bbm_to bm' a)
    else rep s' a).
Proof.
  intros Hr Hi H0. pose proof (bi_bbm _ Hi) as Hbm. unfold free_block.
  destruct (Z.eqb_spec b 0) as [->|Hne]; [apply runs_ret; exact Hr|]. destruct (Z.leb_spec ARESFS_TOTAL_BLOCKS b) as [Hge|Hlt].
  { rewrite (proj2 (Z.ltb_ge b _)), andb_false_r by lia. apply runs_ret. exact Hr. }
  rewrite (proj2 (Z.ltb_lt 0 b)), (proj2 (Z.ltb_lt b _)) by lia. cbn [orb andb]. run. rewrite (rep_bbm _ _ Hr).
  assert (Hb : bit_ok b) by (unfold bit_ok, ARESFS_TOTAL_BLOCKS in *; lia).
  eapply runs_need; [by apply bitmap_test_ok|]. destruct (bm_bit (a_bbm a) b); cbn [negb]; [|run; exact Hr].
  destruct (bitmap_clear_upd (a_bbm a) b Hbm Hb) as (bm' & E' & Hu). run. eapply runs_need; [exact E'|]. run.
  eapply runs_mono; [apply (block_write_ok _ (a_set_bbm bm' a)); [by apply rep_set_bbm|done|apply Hu]|].
  intros r s' [_ Hr']. run. eauto.
Qed.

Lemma free_inode_ok s a n : rep s a -> bitmaps_inv a -> 0 <= n ->
  runs (free_inode n) s (fun _ s' =>
    if (0 <? n) && (n <? ARESFS_INODE_COUNT) && bm_bit (a_ibm a) n
    then exists bm', bm_upd (a_ibm a) n false bm' /\ rep s' (a_ibm_to bm' a)
    else rep s' a).
Proof.
  intros Hr Hi H0. pose proof (bi_ibm _ Hi) as Hbm. unfold free_inode. unfold ARESFS_INODE_INVALID.
  destruct (Z.eqb_spec n 0) as [->|Hne]; [run; exact Hr|]. destruct (Z.leb_spec ARESFS_INODE_COUNT n) as [Hge|Hlt].
  { rewrite (proj2 (Z.ltb_ge n _)), andb_false_r by lia. apply runs_ret. exact Hr. }
  rewrite (proj2 (Z.ltb_lt 0 n)), (proj2 (Z.ltb_lt n _)) by lia. cbn [andb]. run. rewrite (rep_ibm _ _ Hr).
  assert (Hb : bit_ok n) by (change ARESFS_INODE_COUNT with 512 in Hlt; unfold bit_ok; lia).
  eapply runs_need; [by apply bitmap_test_ok|]. destruct (bm_bit (a_ibm a) n); cbn [negb]; [|run; exact Hr].
  destruct (bitmap_clear_upd (a_ibm a) n Hbm Hb) as (bm' & E' & Hu). run. eapply runs_need; [exact E'|]. run.
  eapply runs_mono; [apply (block_write_ok _ (a_set_ibm bm' a)); [by apply rep_set_ibm|done|apply Hu]|].
  intros r s' [_ Hr']. run. eauto.
Qed.

End alloc.

(** * Correctness of allocation and of the inode table *)

Section claims.
Context {D : Type} {HD : BlockDevice D} {HL : BlockDeviceLaws D}.
Implicit Types (s : fs D) (a : afs).

(** The inode table round trip.  An inode written with [inode_write] is
    read back exactly by [inode_read], every other inode reads as before
    although four inodes share a block, and nothing but the inode's block
    changes.  An inode number of 512 or more is refused with [ARES_EINVAL]. *)
Theorem inode_table_roundtrip s a n m ino :
  rep s a -> inode_ok ino -> inum_ok m ->
  if n <? ARESFS_INODE_COUNT
  then 0 <= n -> runs (st ← inode_write n ino; r ← inode_read m; mret (st, r)) s (fun r s' =>
    r = (ARES_OK, inr (if m =? n then ino else a_inode a m)) /\
    exists buf, blk_ok buf /\ rep s' (a_write (ARESFS_INODE_START_BLOCK + n / ARESFS_INODES_PER_BLOCK) buf a))
  else inode_write n ino s = Some (ARES_EINVAL, s) /\ inode_read n s = Some (inl ARES_EINVAL, s).
Proof.
  intros Hr Hi Hm. destruct (Z.ltb_spec n ARESFS_INODE_COUNT) as [Hn|Hn].
  - intros Hn0. assert (Hnum : inum_ok n) by done. run. eapply runs_mono; [by apply (inode_write_ok s a n ino)|].
    intros st s1 [-> Hr1]. run. eapply runs_mono; [by apply (inode_read_ok s1 (a_put_inode n ino a) m)|]. intros r s2 [-> Hr2]. run.
    rewrite (a_inode_put s) by done. split; [done|]. eexists. split; [|exact Hr2].
    destruct (slot_bounds n Hnum) as (H0 & H1 & _ & Hb). destruct (rep_blk_ok _ _ (slot_blk n) Hr Hb) as [Hl Hbs]. split.
    + rewrite splice_length; rewrite ?inode_bytes_length by done; lia.
    + apply byte_ok_splice; [apply inode_bytes_ok|done].
  - unfold inode_write, inode_read. by rewrite (proj2 (Z.leb_le _ _)).
Qed.

(** [alloc_block] returns the lowest free block, which is a data block,
    marks it used and nothing else, and keeps the cached bitmap equal to the
    one on disk; it returns 0, changing nothing, exactly when all blocks are
    used.  [free_block] of the new block gives the former bitmap back. *)
Theorem alloc_block_lowest s a :
  rep s a -> bitmaps_inv a ->
  runs alloc_block s (fun b s' => exists a', rep s' a' /\ bitmaps_inv a' /\
    if b =? 0 then a' = a /\ forall j, block_ok j -> bm_bit (a_bbm a) j = true
    else ARESFS_DATA_START_BLOCK <= b < ARESFS_TOTAL_BLOCKS /\ bm_bit (a_bbm a) b = false /\
      (forall j, 0 <= j < b -> bm_bit (a_bbm a) j = true) /\
      (forall j, bm_bit (a_bbm a') j = (j =? b) || bm_bit (a_bbm a) j) /\
      runs (free_block b) s' (fun _ s'' => exists a'', rep s'' a'' /\ bitmaps_inv a'' /\
        forall j, bm_bit (a_bbm a'') j = bm_bit (a_bbm a) j)).
Proof.
  intros Hr Hi. eapply runs_mono; [by apply alloc_block_ok|].
  intros b s' [(-> & Hr' & Hall)|(Hb & Hf & Hlow & bm & Hu & Hr')]; [by exists a|].
  exists (a_bbm_to bm a). assert (Hi' : bitmaps_inv (a_bbm_to bm a)) by (eapply bitmaps_inv_bbm; [done|apply Hb|done]).
  unfold ARESFS_DATA_START_BLOCK, ARESFS_INODE_START_BLOCK, ARESFS_INODE_TABLE_BLOCKS in Hb.
  rewrite (proj2 (Z.eqb_neq b 0)) by lia. destruct Hu as [Hok Hbits].
  split_and!; try done; [apply Hb|apply Hb|].
  eapply runs_mono; [apply (free_block_ok _ _ b Hr' Hi'); lia|]. intros [] s''.
  rewrite (proj2 (Z.ltb_lt 0 b)), (proj2 (Z.ltb_lt b _)) by lia. cbn [andb a_bbm_to a_write a_set_bbm a_bbm].
  rewrite Hbits, Z.eqb_refl. intros (bm2 & Hu2 & Hr2). exists (a_bbm_to bm2 (a_bbm_to bm a)).
  split_and!; [done|eapply bitmaps_inv_bbm; [done|apply Hb|done]|].
  intros j. cbn [a_bbm_to a_write a_set_bbm a_bbm]. rewrite (proj2 Hu2). cbn [a_bbm_to a_write a_set_bbm a_bbm].
  rewrite Hbits. by destruct (Z.eqb_spec j b) as [->|].
Qed.

End claims.

(** * A freshly formatted disk *)

(** The two bitmaps as [aresfs_format] leaves them, on a disk in memory. *)
Definition fresh_bbm : list Z := replicate 16 255 ++ [31] ++ replicate 495 0.
Definition fresh_ibm : list Z := 3 :: replicate 511 0.

Definition demo_fs : fs RamDisk.ram_disk :=
  mk_fs zero_sb fresh_bbm fresh_ibm true [] (RamDisk.mk_ram (<[2050 := fresh_bbm]> (<[2051 := fresh_ibm]> ∅))).

Definition demo_afs : afs :=
  mk_afs zero_sb fresh_bbm fresh_ibm true [] (fun b => RamDisk.sector (f_dev demo_fs) (ARESFS_BASE_LBA + b)).

Lemma demo_rep : rep demo_fs demo_afs.
Proof.
  split; try done. apply map_Forall_insert_2; [|apply map_Forall_insert_2; [|apply map_Forall_empty]];
    apply (bool_decide_unpack _); vm_compute; exact I.
Qed.

Lemma demo_bitmaps : bitmaps_inv demo_afs.
Proof.
  assert (Hb : forall bm n, forallb (bm_bit bm) (seqZ 0 n) = true -> forall j, 0 <= j < n -> bm_bit bm j = true).
  { intros bm n H j Hj. rewrite forallb_forall in H. apply H, list_elem_of_In, elem_of_seqZ. lia. }
  split; [apply (bool_decide_unpack _); vm_compute; exact I..|vm_compute; reflexivity|vm_compute; reflexivity| |].
  - apply (Hb _ 132). vm_compute. reflexivity.
  - intros j Hj. apply (Hb _ 2); [vm_compute; reflexivity|]. unfold ARESFS_ROOT_INODE in Hj. lia.
Qed.

Lemma inode_table_roundtrip_witness :
  runs (st ← inode_write 5 (set_size 77 zero_inode); r ← inode_read 6; mret (st, r)) demo_fs (fun r _ =>
    r = (ARES_OK, inr zero_inode)).
Proof.
  assert (Hino : inode_ok (set_size 77 zero_inode)) by (apply set_size_ok; [apply zero_inode_ok|unfold field_ok; lia]).
  pose proof (inode_table_roundtrip demo_fs demo_afs 5 6 (set_size 77 zero_inode) demo_rep Hino) as Hrt.
  eapply runs_mono; [apply Hrt; unfold inum_ok; change ARESFS_INODE_COUNT with 512; lia|].
  intros r s' [-> _]. vm_compute. reflexivity.
Defined.

Lemma alloc_block_lowest_witness :
  runs alloc_block demo_fs (fun b _ => ARESFS_DATA_START_BLOCK <= b).
Proof.
  eapply runs_mono; [apply (alloc_block_lowest demo_fs demo_afs demo_rep demo_bitmaps)|].
  intros b s' (a' & _ & _ & Hb). destruct (b =? 0); [|apply Hb].
  destruct Hb as [_ Hall]. specialize (Hall 133). discriminate Hall. unfold block_ok, ARESFS_TOTAL_BLOCKS. lia.
Defined.

End FsDisk.
