(* ===== verification/FsFile.v ===== *)
(** fs/aresfs.c, file bodies: from logical to physical blocks, truncation,
    reading and writing bytes of a file.  A file is seen as a function from
    offsets to bytes; the theorems say what each operation does to it, to the
    block bitmap and to the other files. *)
From S2P Require Import Prelude Interfaces Bytes RamDisk FsDisk.
Import RamDisk FsDisk.

Module FsFile.

Section defs.
Context {D : Type} {HD : BlockDevice D}.

(** * Operations *)

(** Returns the physical block (0 is failure or a hole) and the inode, which
    the C function changes in place. *)
Definition inode_resolve_block (ino : aresfs_inode) (logical_idx : Z) (create : bool) : prog (fs D) (Z * aresfs_inode) :=
  if logical_idx <? ARESFS_DIRECT_BLOCKS then
    p ← need (arr_get (direct ino) logical_idx);
    if (p =? 0) && create then
      b ← alloc_block;
      if b =? 0 then mret (0, ino)
      else
        _ ← block_write b zero_block;
        d ← need (arr_set (direct ino) logical_idx b);
        mret (b, set_direct d ino)
    else mret (p, ino)
  else
    let off := logical_idx - ARESFS_DIRECT_BLOCKS in
    if ARESFS_INDIRECT_PTRS <=? off then mret (0, ino)
    else
      r ← (if indirect ino =? 0 then
             if negb create then mret None
             else
               b ← alloc_block;
               if b =? 0 then mret None
               else
                 _ ← block_write b zero_block;
                 mret (Some (zero_block, set_indirect b ino))
           else
             '(st, buf) ← block_read (indirect ino) zero_block;
             if bool_decide (st <> ARES_OK) then mret None else mret (Some (buf, ino)));
      match r with
      | None => mret (0, ino)
      | Some (ind_buf, ino) =>
          let p := le_get (4 * off) 4 ind_buf in
          if (p =? 0) && create then
            b ← alloc_block;
            if b =? 0 then mret (0, ino)
            else
              _ ← block_write b zero_block;
              _ ← block_write (indirect ino) (le_put (4 * off) 4 b ind_buf);
              mret (b, ino)
          else mret (p, ino)
      end.

(** The loop over the direct pointers, from pointer [i] on. *)
Fixpoint truncate_direct (n : nat) (i : Z) (ino : aresfs_inode) : prog (fs D) aresfs_inode :=
  match n with
  | O => mret ino
  | S n =>
      p ← need (arr_get (direct ino) i);
      if negb (p =? 0) then
        _ ← free_block p;
        d ← need (arr_set (direct ino) i 0);
        truncate_direct n (i + 1) (set_direct d ino)
      else truncate_direct n (i + 1) ino
  end.

Definition inode_truncate (ino : aresfs_inode) : prog (fs D) aresfs_inode :=
  ino ← truncate_direct (Z.to_nat ARESFS_DIRECT_BLOCKS) 0 ino;
  if negb (indirect ino =? 0) then
    '(st, buf) ← block_read (indirect ino) zero_block;
    _ ← (if bool_decide (st = ARES_OK) then
           for_ (Z.to_nat ARESFS_INDIRECT_PTRS) 0 (fun i =>
             let p := le_get (4 * i) 4 buf in
             if negb (p =? 0) then free_block p else mret tt)
         else mret tt);
    _ ← free_block (indirect ino);
    mret (set_size 0 (set_indirect 0 ino))
  else mret (set_size 0 ino).

(** The loop of [file_read_body]; [acc] is what was copied to the buffer. *)
Fixpoint read_loop (fuel : nat) (ino : aresfs_inode) (pos count done : Z) (acc : list Z) : prog (fs D) (Z * list Z) :=
  match fuel with
  | O => need None
  | S fuel =>
      if done <? count then
        let off := u64 (pos + done) in
        let logical := u32 (off / ARESFS_BLOCK_SIZE) in
        let block_off := u32 (off mod ARESFS_BLOCK_SIZE) in
        let chunk := Z.min (ARESFS_BLOCK_SIZE - block_off) (count - done) in
        '(phys, ino) ← inode_resolve_block ino logical false;
        if phys =? 0 then
          read_loop fuel ino pos count (done + chunk) (acc ++ replicate (Z.to_nat chunk) 0)
        else
          '(st, block) ← block_read phys zero_block;
          if bool_decide (st <> ARES_OK) then mret (-1, acc)
          else read_loop fuel ino pos count (done + chunk) (acc ++ slice block_off chunk block)
      else mret (i32 done, acc)
  end.

(** Each iteration but the first starts at a block boundary. *)
Definition body_fuel (count : Z) : nat := Z.to_nat (count / ARESFS_BLOCK_SIZE + 3).

(** Returns the C result and the bytes stored to the caller's buffer. *)
Definition file_read_body (ino : aresfs_inode) (pos count : Z) : prog (fs D) (Z * list Z) :=
  if size ino <=? pos then mret (0, [])
  else
    let count := if size ino - pos <? count then size ino - pos else count in
    read_loop (body_fuel count) ino pos count 0 [].

(** The loop of [file_write_body]: [Some] is the final [done] and the inode,
    [None] the early [return -1]. *)
Fixpoint write_loop (fuel : nat) (ino : aresfs_inode) (pos count done : Z) (src : list Z) : prog (fs D) (option (Z * aresfs_inode)) :=
  match fuel with
  | O => need None
  | S fuel =>
      if done <? count then
        let off := u64 (pos + done) in
        let logical := u32 (off / ARESFS_BLOCK_SIZE) in
        let block_off := u32 (off mod ARESFS_BLOCK_SIZE) in
        '(phys, ino) ← inode_resolve_block ino logical true;
        if phys =? 0 then mret (Some (done, ino))
        else
          let chunk := Z.min (ARESFS_BLOCK_SIZE - block_off) (count - done) in
          r ← (if negb (chunk =? ARESFS_BLOCK_SIZE) then block_read phys zero_block else mret (ARES_OK, zero_block));
          if bool_decide (r.1 <> ARES_OK) then mret None
          else
            st ← block_write phys (splice block_off (slice done chunk src) r.2);
            if bool_decide (st <> ARES_OK) then mret None
            else write_loop fuel ino pos count (done + chunk) src
      else mret (Some (done, ino))
  end.

Definition file_write_body (inode_num : Z) (ino : aresfs_inode) (pos : Z) (src : list Z) : prog (fs D) Z :=
  let count := Z.of_nat (length src) in
  let max_size := ARESFS_MAX_FILE_BLOCKS * ARESFS_BLOCK_SIZE in
  if max_size <=? pos then mret (-1)
  else
    let count := if max_size - pos <? count then max_size - pos else count in
    r ← write_loop (body_fuel count) ino pos count 0 src;
    match r with
    | None => mret (-1)
    | Some (done, ino) =>
        let new_end := u64 (pos + done) in
        let ino := if size ino <? new_end then set_size new_end ino else ino in
        st ← inode_write inode_num ino;
        if bool_decide (st <> ARES_OK) then mret (-1) else mret (i32 done)
    end.
End defs.

(** * A file as a function from offsets to bytes *)

Definition MAXB : Z := ARESFS_MAX_FILE_BLOCKS.
Definition lblock_ok (l : Z) : Prop := 0 <= l < ARESFS_MAX_FILE_BLOCKS.

(** The physical block of logical block [l]; 0 is a hole. *)
Definition bmap (a : afs) (ino : aresfs_inode) (l : Z) : Z :=
  if l <? ARESFS_DIRECT_BLOCKS then default 0 (arr_get (direct ino) l)
  else if indirect ino =? 0 then 0
  else le_get (4 * (l - ARESFS_DIRECT_BLOCKS)) 4 (a_blk a (indirect ino)).

Definition file_byte (a : afs) (ino : aresfs_inode) (off : Z) : Z :=
  let p := bmap a ino (off / ARESFS_BLOCK_SIZE) in
  if p =? 0 then 0 else default 0 (arr_get (a_blk a p) (off mod ARESFS_BLOCK_SIZE)).

(** The blocks a file occupies: its data blocks and its indirect block. *)
Definition owned (a : afs) (ino : aresfs_inode) (j : Z) : Prop :=
  j <> 0 /\ (j = indirect ino \/ exists l, lblock_ok l /\ bmap a ino l = j).

Definition data_used (a : afs) (j : Z) : Prop :=
  ARESFS_DATA_START_BLOCK <= j < ARESFS_TOTAL_BLOCKS /\ bm_bit (a_bbm a) j = true.

(** Every block of the file is a data block marked used, and no block serves
    two purposes. *)
Record file_wf (a : afs) (ino : aresfs_inode) : Prop := {
  fw_ino : inode_ok ino;
  fw_used j : owned a ino j -> data_used a j;
  fw_ind l : lblock_ok l -> bmap a ino l <> 0 -> bmap a ino l <> indirect ino;
  fw_inj l l' : lblock_ok l -> lblock_ok l' -> bmap a ino l <> 0 -> bmap a ino l = bmap a ino l' -> l = l' }.

(** The fields of an inode other than the block pointers. *)
Definition ino_rest (i : aresfs_inode) := (mode i, uid i, gid i, size i, create_time i, mod_time i, double_indirect i, ino_pad i).

(** From [a] and [ino] to [a'] and [ino'] the file may only have taken free
    blocks and have changed its own blocks. *)
Record extends (a : afs) (ino : aresfs_inode) (a' : afs) (ino' : aresfs_inode) : Prop := {
  ex_inv : bitmaps_inv a';
  ex_wf : file_wf a' ino';
  ex_bits j : bm_bit (a_bbm a) j = true -> bm_bit (a_bbm a') j = true;
  ex_frame j : ARESFS_INODE_START_BLOCK <= j < ARESFS_TOTAL_BLOCKS -> bm_bit (a_bbm a) j = true -> ~ owned a ino j -> a_blk a' j = a_blk a j;
  ex_owned j : owned a' ino' j -> owned a ino j \/ bm_bit (a_bbm a) j = false;
  ex_cache : (a_sb a', a_ibm a', a_mounted a', a_fds a') = (a_sb a, a_ibm a, a_mounted a, a_fds a);
  ex_rest : ino_rest ino' = ino_rest ino }.

Lemma extends_refl a ino : bitmaps_inv a -> file_wf a ino -> extends a ino a ino.
Proof. intros. split; auto. Qed.

Lemma extends_trans a i a1 i1 a2 i2 : extends a i a1 i1 -> extends a1 i1 a2 i2 -> extends a i a2 i2.
Proof.
  intros [] []. split; auto; try congruence.
  - intros j Hj Hu Hn. rewrite ex_frame1; [by apply ex_frame0|done|by apply ex_bits0|].
    intros Ho. destruct (ex_owned0 j Ho) as [?|?]; [done|congruence].
  - intros j Hj. destruct (ex_owned1 j Hj) as [Ho|Hf]; [by apply ex_owned0|].
    right. destruct (bm_bit (a_bbm a) j) eqn:E; [|done]. rewrite ex_bits0 in Hf by done. done.
Qed.

Lemma le_get_zero off n : 0 <= off -> 0 <= n -> le_get off n zero_block = 0.
Proof.
  intros. unfold le_get, slice, zero_block. rewrite drop_replicate, take_replicate.
  generalize (Z.to_nat n `min` (512 - Z.to_nat off))%nat. intros k. induction k as [|k IH]; [done|].
  cbn [replicate little_endian_to_Z]. by rewrite IH.
Qed.

Lemma zero_block_get i : default 0 (arr_get zero_block i) = 0.
Proof.
  unfold arr_get, zero_block. destruct (0 <=? i); [|done].
  destruct (replicate 512 0 !! Z.to_nat i) as [x|] eqn:E; [|done]. by apply lookup_replicate in E as [-> _].
Qed.

Lemma data_start : ARESFS_DATA_START_BLOCK = 132.
Proof. done. Qed.

(** * Taking a free block *)

(** [reserved a b a']: block [b], free in [a], was marked used and zeroed. *)
Record reserved (a : afs) (b : Z) (a' : afs) : Prop := {
  rs_inv : bitmaps_inv a';
  rs_range : ARESFS_DATA_START_BLOCK <= b < ARESFS_TOTAL_BLOCKS;
  rs_free : bm_bit (a_bbm a) b = false;
  rs_bits j : bm_bit (a_bbm a') j = (j =? b) || bm_bit (a_bbm a) j;
  rs_zero : a_blk a' b = zero_block;
  rs_frame j : ARESFS_INODE_START_BLOCK <= j -> j <> b -> a_blk a' j = a_blk a j;
  rs_cache : (a_sb a', a_ibm a', a_mounted a', a_fds a') = (a_sb a, a_ibm a, a_mounted a, a_fds a) }.

Section file.
Context {D : Type} {HD : BlockDevice D} {HL : BlockDeviceLaws D}.
Implicit Types (s : fs D) (a : afs).

Definition full (a : afs) : Prop := forall j, block_ok j -> bm_bit (a_bbm a) j = true.

(** The sequence that allocates a block and zeroes it. *)
Lemma alloc_zero_ok {A} s a (k : Z -> prog (fs D) A) (e : prog (fs D) A) (Q : A -> fs D -> Prop) :
  rep s a -> bitmaps_inv a ->
  (forall s', rep s' a -> full a -> runs e s' Q) ->
  (forall b s' a', rep s' a' -> reserved a b a' -> runs (k b) s' Q) ->
  runs (b ← alloc_block; if b =? 0 then e else _ ← block_write b zero_block; k b) s Q.
Proof.
  intros Hr Hi He Hk. run. eapply runs_mono; [by apply alloc_block_ok|].
  intros b s' [(-> & Hr' & Hall)|(Hb & Hf & _ & bm & Hu & Hr')]; [cbn [Z.eqb]; by apply He|].
  pose proof data_start as E132. rewrite (proj2 (Z.eqb_neq b 0)) by lia. run.
  eapply runs_mono; [apply (block_write_ok _ _ b zero_block Hr'); [split; lia|apply zero_block_ok]|].
  intros st s'' [_ Hr'']. eapply Hk; [exact Hr''|]. split.
  - apply bitmaps_inv_write; [by eapply bitmaps_inv_bbm; [|apply Hb|]|]. unfold ARESFS_INODE_BITMAP_BLOCK. lia.
  - done.
  - done.
  - intros j. cbn [a_write a_bbm_to a_set_bbm a_bbm]. rewrite (proj2 Hu). by destruct (j =? b).
  - cbn [a_write a_blk]. by rewrite Z.eqb_refl.
  - intros j Hj Hne. cbn [a_write a_bbm_to a_set_bbm a_blk]. rewrite (proj2 (Z.eqb_neq j b)) by done.
    rewrite (proj2 (Z.eqb_neq j _)); [done|]. unfold ARESFS_BLOCK_BITMAP_BLOCK, ARESFS_INODE_START_BLOCK in *. lia.
  - done.
Qed.
End file.

Lemma bmap_ext a a' i i' l : direct i' = direct i -> indirect i' = indirect i ->
  (indirect i <> 0 -> a_blk a' (indirect i) = a_blk a (indirect i)) -> bmap a' i' l = bmap a i l.
Proof.
  intros Hd Hi Hb. unfold bmap. rewrite Hd, Hi. destruct (l <? ARESFS_DIRECT_BLOCKS); [done|].
  destruct (Z.eqb_spec (indirect i) 0); [done|]. by rewrite Hb.
Qed.

Lemma owned_ext a a' i i' j : indirect i' = indirect i -> (forall l, bmap a' i' l = bmap a i l) -> owned a' i' j <-> owned a i j.
Proof. intros Hi Hb. unfold owned. rewrite Hi. by setoid_rewrite Hb. Qed.

Lemma owned_bmap a i l : lblock_ok l -> bmap a i l <> 0 -> owned a i (bmap a i l).
Proof. intros. split; [done|]. right. eauto. Qed.

Lemma owned_ind a i : indirect i <> 0 -> owned a i (indirect i).
Proof. intros. split; auto. Qed.

(** Offsets of a file lie in its logical blocks. *)
Definition off_ok (off : Z) : Prop := 0 <= off < ARESFS_MAX_FILE_BLOCKS * ARESFS_BLOCK_SIZE.

Lemma off_lblock off : off_ok off -> lblock_ok (off / ARESFS_BLOCK_SIZE) /\ 0 <= off mod ARESFS_BLOCK_SIZE < 512.
Proof.
  unfold off_ok, lblock_ok. change ARESFS_MAX_FILE_BLOCKS with 140. change ARESFS_BLOCK_SIZE with 512. intros. split; dlia.
Qed.

Lemma file_byte_ext a a' i i' off : off_ok off -> (forall l, lblock_ok l -> bmap a' i' l = bmap a i l) ->
  (forall l, lblock_ok l -> bmap a i l <> 0 -> a_blk a' (bmap a i l) = a_blk a (bmap a i l)) ->
  file_byte a' i' off = file_byte a i off.
Proof.
  intros Ho Hm Hb. destruct (off_lblock off Ho) as [Hl _]. unfold file_byte. rewrite Hm by done.
  destruct (Z.eqb_spec (bmap a i (off / ARESFS_BLOCK_SIZE)) 0); [done|]. by rewrite Hb.
Qed.

(** Taking a block leaves the file as it is and does not give it the block. *)
Lemma reserved_extends a b a' ino : file_wf a ino -> reserved a b a' ->
  extends a ino a' ino /\ (forall l, bmap a' ino l = bmap a ino l) /\ ~ owned a' ino b /\
  (forall off, off_ok off -> file_byte a' ino off = file_byte a ino off) /\ data_used a' b.
Proof.
  intros Hwf Hrs. pose proof data_start as E132.
  assert (Hnb : forall j, owned a ino j -> j <> b).
  { intros j Hj ->. destruct (fw_used _ _ Hwf b Hj) as [_ Hu]. rewrite (rs_free _ _ _ Hrs) in Hu. done. }
  assert (Hblk : forall j, owned a ino j -> a_blk a' j = a_blk a j).
  { intros j Hj. apply (rs_frame _ _ _ Hrs); [|by apply Hnb]. destruct (fw_used _ _ Hwf j Hj). unfold ARESFS_INODE_START_BLOCK. lia. }
  assert (Hm : forall l, bmap a' ino l = bmap a ino l) by (intros l; apply bmap_ext; [done|done|]; intros; by apply Hblk, owned_ind).
  assert (Ho : forall j, owned a' ino j <-> owned a ino j) by (intros j; by apply owned_ext).
  assert (Hbits : forall j, bm_bit (a_bbm a) j = true -> bm_bit (a_bbm a') j = true) by
    (intros j Hj; by rewrite (rs_bits _ _ _ Hrs), Hj, orb_true_r).
  split_and!.
  - split; try done.
    + apply Hrs.
    + split; [apply Hwf| | |].
      * intros j Hj%Ho. destruct (fw_used _ _ Hwf j Hj). split; auto.
      * intros l Hl. rewrite Hm. by apply Hwf.
      * intros l l' Hl Hl'. rewrite !Hm. by apply Hwf.
    + intros j Hj Hu _. apply (rs_frame _ _ _ Hrs); [lia|]. intros ->. rewrite (rs_free _ _ _ Hrs) in Hu. done.
    + intros j Hj%Ho. by left.
    + apply Hrs.
  - done.
  - intros Hb%Ho. by destruct (Hnb b Hb).
  - intros off Hoff. apply file_byte_ext; [done|done|]. intros l Hl Hne. by apply Hblk, owned_bmap.
  - split; [apply Hrs|]. by rewrite (rs_bits _ _ _ Hrs), Z.eqb_refl.
Qed.

(** Linking a zeroed block that nobody owns as logical block [l], a hole so
    far: however the pointer is stored, if it maps [l] and keeps the rest. *)
Lemma link_extends a ino a' ino' l b :
  bitmaps_inv a -> file_wf a ino -> lblock_ok l -> bmap a ino l = 0 ->
  data_used a b -> ~ owned a ino b -> a_blk a b = zero_block ->
  inode_ok ino' -> indirect ino' = indirect ino -> ino_rest ino' = ino_rest ino ->
  a_bbm a' = a_bbm a -> bitmaps_inv a' ->
  (a_sb a', a_ibm a', a_mounted a', a_fds a') = (a_sb a, a_ibm a, a_mounted a, a_fds a) ->
  (forall j, j <> indirect ino \/ indirect ino = 0 -> a_blk a' j = a_blk a j) ->
  (forall l', lblock_ok l' -> bmap a' ino' l' = if l' =? l then b else bmap a ino l') ->
  file_wf a' ino' /\ (forall j, owned a' ino' j <-> owned a ino j \/ j = b) /\
  (forall off, off_ok off -> file_byte a' ino' off = file_byte a ino off).
Proof.
  intros Hi Hwf Hl H0 Hb Hno Hz Hok Hind Hrest Hbm Hi' Hcache Hblk Hmap. pose proof data_start as E132.
  assert (Hb0 : b <> 0) by (destruct Hb as [? _]; lia).
  assert (Ho : forall j, owned a' ino' j <-> owned a ino j \/ j = b).
  { intros j. unfold owned. rewrite Hind. split.
    - intros [Hj [->|(l' & Hl' & E)]]; [auto|]. rewrite Hmap in E by done. destruct (l' =? l); [by right|]. left. eauto.
    - intros [[Hj [->|(l' & Hl' & E)]]| ->]; [auto| |].
      + split; [done|]. right. exists l'. split; [done|]. rewrite Hmap by done. destruct (Z.eqb_spec l' l) as [->|]; [congruence|done].
      + split; [done|]. right. exists l. split; [done|]. rewrite Hmap by done. by rewrite Z.eqb_refl. }
  assert (Hnb : forall l', lblock_ok l' -> bmap a ino l' <> b).
  { intros l' Hl' E. apply Hno. rewrite <- E. apply owned_bmap; [done|congruence]. }
  split_and!; [|done|].
  - split; [done| | |].
    + intros j [Hj| ->]%Ho; unfold data_used; rewrite Hbm; [by apply Hwf|done].
    + intros l' Hl' Hne. rewrite Hmap, Hind in * by done. destruct (Z.eqb_spec l' l) as [->|]; [|by apply Hwf].
      intros E. apply Hno. split; [done|by left].
    + intros l1 l2 Hl1 Hl2. rewrite !Hmap by done.
      destruct (Z.eqb_spec l1 l), (Z.eqb_spec l2 l); subst; try done; [| |by apply Hwf].
      * intros _ E. symmetry in E. by apply Hnb in E.
      * intros _ E. by apply Hnb in E.
  - intros off Hoff. destruct (off_lblock off Hoff) as [Hlo _]. unfold file_byte. rewrite Hmap by done.
    destruct (Z.eqb_spec (off / ARESFS_BLOCK_SIZE) l) as [->|Hne].
    + rewrite H0, Z.eqb_refl, (proj2 (Z.eqb_neq b 0)) by done. rewrite Hblk, Hz by (left; intros ->; by apply Hno, owned_ind).
      apply zero_block_get.
    + destruct (Z.eqb_spec (bmap a ino (off / ARESFS_BLOCK_SIZE)) 0); [done|]. rewrite Hblk; [done|].
      left. by apply Hwf.
Qed.

Lemma bmap_direct a ino l : inode_ok ino -> 0 <= l < ARESFS_DIRECT_BLOCKS -> arr_get (direct ino) l = Some (bmap a ino l).
Proof.
  intros Hok Hl. unfold bmap. rewrite (proj2 (Z.ltb_lt l _)) by lia.
  destruct (arr_get_in (direct ino) l) as [p ->]; [|done]. rewrite (proj1 (io_direct _ Hok)). unfold ARESFS_DIRECT_BLOCKS in Hl. lia.
Qed.

Lemma block_field b : ARESFS_DATA_START_BLOCK <= b < ARESFS_TOTAL_BLOCKS -> field_ok 4 b.
Proof. unfold field_ok. rewrite data_start. unfold ARESFS_TOTAL_BLOCKS. lia. Qed.

(** A block pointer in an owned block is a pointer within the disk. *)
Lemma owned_block_ok a ino j : file_wf a ino -> owned a ino j -> block_ok j /\ ARESFS_INODE_BITMAP_BLOCK < j /\ ARESFS_DATA_START_BLOCK <= j.
Proof.
  intros Hwf Ho. destruct (fw_used _ _ Hwf j Ho) as [Hj _]. rewrite data_start in *. unfold block_ok, ARESFS_INODE_BITMAP_BLOCK. lia.
Qed.

(** Storing a fresh block in a direct pointer. *)
Lemma link_direct a ino l b d :
  bitmaps_inv a -> file_wf a ino -> 0 <= l < ARESFS_DIRECT_BLOCKS -> bmap a ino l = 0 ->
  data_used a b -> ~ owned a ino b -> a_blk a b = zero_block -> arr_set (direct ino) l b = Some d ->
  file_wf a (set_direct d ino) /\ (forall j, owned a (set_direct d ino) j <-> owned a ino j \/ j = b) /\
  (forall off, off_ok off -> file_byte a (set_direct d ino) off = file_byte a ino off) /\ bmap a (set_direct d ino) l = b.
Proof.
  intros Hi Hwf Hl H0 Hb Hno Hz Hd. pose proof (fw_ino _ _ Hwf) as Hok.
  assert (Hmap : forall l', lblock_ok l' -> bmap a (set_direct d ino) l' = if l' =? l then b else bmap a ino l').
  { intros l' _. unfold bmap. cbn [set_direct direct indirect]. rewrite (arr_get_set _ _ _ l' _ Hd).
    destruct (Z.ltb_spec l' ARESFS_DIRECT_BLOCKS); [by destruct (l' =? l)|]. rewrite (proj2 (Z.eqb_neq l' l)) by lia. done. }
  assert (Hlb : lblock_ok l) by (unfold lblock_ok; change ARESFS_MAX_FILE_BLOCKS with 140; unfold ARESFS_DIRECT_BLOCKS in Hl; lia).
  destruct (link_extends a ino a (set_direct d ino) l b) as (? & ? & ?); try done.
  - apply set_direct_ok; [done| |].
    + rewrite (arr_set_length _ _ _ _ Hd). apply Hok.
    + apply arr_set_Some in Hd as [_ ->]. apply Forall_insert; [apply Hok|apply block_field, Hb].
  - split_and!; try done. rewrite Hmap by done. by rewrite Z.eqb_refl.
Qed.

(** Storing a fresh block in the indirect block. *)
Lemma link_indirect a ino l b :
  bitmaps_inv a -> file_wf a ino -> ARESFS_DIRECT_BLOCKS <= l -> lblock_ok l -> bmap a ino l = 0 -> indirect ino <> 0 ->
  data_used a b -> ~ owned a ino b -> a_blk a b = zero_block -> length (a_blk a (indirect ino)) = 512%nat ->
  let a' := a_write (indirect ino) (le_put (4 * (l - ARESFS_DIRECT_BLOCKS)) 4 b (a_blk a (indirect ino))) a in
  bitmaps_inv a' /\ file_wf a' ino /\ (forall j, owned a' ino j <-> owned a ino j \/ j = b) /\
  (forall off, off_ok off -> file_byte a' ino off = file_byte a ino off) /\ bmap a' ino l = b.
Proof.
  intros Hi Hwf Hl Hlb H0 Hind Hb Hno Hz Hlen a'.
  destruct (owned_block_ok a ino (indirect ino) Hwf) as (Hbk & Hgt & _); [by apply owned_ind|].
  assert (Hmap : forall l', lblock_ok l' -> bmap a' ino l' = if l' =? l then b else bmap a ino l').
  { intros l' Hl'. unfold lblock_ok in *. change ARESFS_MAX_FILE_BLOCKS with 140 in *. unfold bmap, a', ARESFS_DIRECT_BLOCKS in *.
    cbn [a_write a_blk]. rewrite (proj2 (Z.eqb_neq _ 0) Hind), Z.eqb_refl.
    destruct (Z.ltb_spec l' 12); [rewrite (proj2 (Z.eqb_neq l' l)) by lia; done|].
    destruct (Z.eqb_spec l' l) as [->|].
    - apply le_get_put; [lia|lia|rewrite Hlen; lia|apply block_field, Hb].
    - apply le_get_put_ne; try lia. }
  assert (Hi' : bitmaps_inv a') by (by apply bitmaps_inv_write).
  destruct (link_extends a ino a' ino l b) as (? & ? & ?); try done.
  - apply Hwf.
  - intros j [Hj|?]; [|done]. cbn [a' a_write a_blk]. unfold a'. cbn [a_write a_blk]. by rewrite (proj2 (Z.eqb_neq j _)).
  - split_and!; try done. rewrite Hmap by done. by rewrite Z.eqb_refl.
Qed.

(** A reserved block that was then linked. *)
Lemma reserved_link a ino a1 b a2 ino2 :
  file_wf a ino -> reserved a b a1 -> bitmaps_inv a2 -> file_wf a2 ino2 -> a_bbm a2 = a_bbm a1 ->
  (forall j, owned a2 ino2 j <-> owned a1 ino j \/ j = b) ->
  (forall j, ~ owned a1 ino j -> a_blk a2 j = a_blk a1 j) ->
  (a_sb a2, a_ibm a2, a_mounted a2, a_fds a2) = (a_sb a1, a_ibm a1, a_mounted a1, a_fds a1) ->
  ino_rest ino2 = ino_rest ino -> extends a ino a2 ino2.
Proof.
  intros Hwf Hrs Hi2 Hwf2 Hbm Ho Hblk Hc Hrest. destruct (reserved_extends a b a1 ino Hwf Hrs) as (Hex & Hm & _ & _ & _).
  assert (Ho1 : forall j, owned a1 ino j <-> owned a ino j) by (intros j; by apply owned_ext).
  split; try done.
  - intros j Hj. rewrite Hbm. by apply (ex_bits _ _ _ _ Hex).
  - intros j Hj Hu Hn. rewrite Hblk by (by rewrite Ho1). by apply (ex_frame _ _ _ _ Hex).
  - intros j [Hj| ->]%Ho; [left; by apply Ho1|]. right. apply Hrs.
  - rewrite Hc. apply Hrs.
Qed.

Section resolve.
Context {D : Type} {HD : BlockDevice D} {HL : BlockDeviceLaws D}.
Implicit Types (s : fs D) (a : afs).

Lemma resolve_read_ok s a ino l : rep s a -> file_wf a ino -> 0 <= l ->
  runs (inode_resolve_block ino l false) s (fun r s' => r = (if l <? MAXB then bmap a ino l else 0, ino) /\ rep s' a).
Proof.
  intros Hr Hwf Hl. unfold inode_resolve_block, MAXB. change ARESFS_MAX_FILE_BLOCKS with 140. change ARESFS_INDIRECT_PTRS with 128.
  destruct (Z.ltb_spec l ARESFS_DIRECT_BLOCKS) as [Hlt|Hge].
  - run. eapply runs_need; [apply (bmap_direct a); [apply Hwf|done]|]. rewrite andb_false_r. run.
    rewrite (proj2 (Z.ltb_lt l 140)) by (unfold ARESFS_DIRECT_BLOCKS in Hlt; lia). done.
  - unfold ARESFS_DIRECT_BLOCKS in *. destruct (Z.leb_spec 128 (l - 12)).
    { run. rewrite (proj2 (Z.ltb_ge l 140)) by lia. done. }
    rewrite (proj2 (Z.ltb_lt l 140)) by lia. unfold bmap, ARESFS_DIRECT_BLOCKS. rewrite (proj2 (Z.ltb_ge l 12)) by lia.
    run. destruct (Z.eqb_spec (indirect ino) 0) as [E|E]; cbn [negb].
    + run. split; [done|done].
    + destruct (owned_block_ok a ino (indirect ino) Hwf) as (Hbk & _); [by apply owned_ind|].
      run. eapply runs_mono; [by apply block_read_ok|]. intros r s' [-> Hr']. rewrite bool_decide_false by (intros H'; by apply H').
      run. rewrite andb_false_r. run. done.
Qed.

(** The outcome of a [create] call: the mapping is there, or the disk is full. *)
Definition resolved (a : afs) (ino : aresfs_inode) (l : Z) (r : Z * aresfs_inode) (s' : fs D) : Prop :=
  exists a', rep s' a' /\ extends a ino a' r.2 /\
    (forall off, off_ok off -> file_byte a' r.2 off = file_byte a ino off) /\
    (if r.1 =? 0 then full a' else bmap a' r.2 l = r.1).

Lemma resolved_trans a i a1 i1 l r s' : extends a i a1 i1 ->
  (forall off, off_ok off -> file_byte a1 i1 off = file_byte a i off) -> resolved a1 i1 l r s' -> resolved a i l r s'.
Proof.
  intros Hex Hb (a' & ? & ? & Hb' & ?). exists a'. split_and!; try done; [by eapply extends_trans|].
  intros off Hoff. rewrite Hb' by done. by apply Hb.
Qed.

(** The pointer exists, or its block is allocated: the part of the function
    behind a present indirect block. *)
Lemma resolve_through_indirect s a ino l : rep s a -> bitmaps_inv a -> file_wf a ino ->
  ARESFS_DIRECT_BLOCKS <= l -> lblock_ok l -> indirect ino <> 0 ->
  let off := l - ARESFS_DIRECT_BLOCKS in let buf := a_blk a (indirect ino) in
  runs (let p := le_get (4 * off) 4 buf in
        if (p =? 0) && true then
          b ← alloc_block;
          if b =? 0 then mret (0, ino)
          else
            _ ← block_write b zero_block;
            _ ← block_write (indirect ino) (le_put (4 * off) 4 b buf);
            mret (b, ino)
        else mret (p, ino)) s (resolved a ino l).
Proof.
  intros Hr Hi Hwf Hl Hlb Hind off buf.
  assert (Hp : le_get (4 * off) 4 buf = bmap a ino l).
  { unfold bmap. by rewrite (proj2 (Z.ltb_ge l _)), (proj2 (Z.eqb_neq _ 0) Hind) by lia. }
  cbv zeta. rewrite Hp, andb_true_r. destruct (Z.eqb_spec (bmap a ino l) 0) as [E|E].
  2:{ run. exists a. cbn [fst snd]. rewrite (proj2 (Z.eqb_neq _ 0) E). split_and!; try done. by apply extends_refl. }
  apply (alloc_zero_ok s a); [done|done| |].
  - intros s' Hr' Hfull. run. exists a. split_and!; try done. by apply extends_refl.
  - intros b s1 a1 Hr1 Hrs. destruct (reserved_extends a b a1 ino Hwf Hrs) as (Hex & Hm & Hno & Hby & Hbu).
    destruct (owned_block_ok a ino (indirect ino) Hwf) as (Hbk & _ & Hge); [by apply owned_ind|].
    assert (Hbuf : a_blk a1 (indirect ino) = buf).
    { apply (rs_frame _ _ _ Hrs); [rewrite data_start in Hge; unfold ARESFS_INODE_START_BLOCK; lia|].
      intros E'. apply Hno. rewrite <- E'. by apply owned_ind. }
    destruct (rep_blk_ok s a (indirect ino) Hr Hbk) as [Hlen Hbytes].
    destruct (link_indirect a1 ino l b) as (Hi2 & Hwf2 & Ho2 & Hby2 & Hb2); try done;
      [apply Hex|apply Hex|by rewrite Hm|apply Hrs|by rewrite Hbuf|].
    rewrite Hbuf in *. fold off in Hi2, Hwf2, Ho2, Hby2, Hb2. run.
    eapply runs_mono; [apply (block_write_ok s1 a1 (indirect ino)); [done|done|]|].
    { assert (0 <= 4 * off /\ 4 * off + 4 <= 512).
      { unfold off, lblock_ok in *. change ARESFS_MAX_FILE_BLOCKS with 140 in *. unfold ARESFS_DIRECT_BLOCKS in *. lia. }
      split; [rewrite le_put_length; [done|lia|lia|unfold buf; rewrite Hlen; lia]|]. by apply le_put_byte_ok. }
    intros st s2 [_ Hr2]. run. eexists. split_and!; [exact Hr2| | |].
    + eapply (reserved_link a ino a1 b); try done. intros j Hj. cbn [a_write a_blk]. destruct (Z.eqb_spec j (indirect ino)) as [->|]; [|done].
      destruct Hj. by apply owned_ind.
    + intros o Ho. cbn [snd]. rewrite Hby2 by done. by apply Hby.
    + cbn [fst snd]. rewrite (proj2 (Z.eqb_neq b 0)); [done|]. pose proof (rs_range _ _ _ Hrs) as Hrg. rewrite data_start in Hrg. lia.
Qed.
End resolve.

(** A zeroed block as the first indirect block. *)
Lemma link_new_indirect a ino b :
  bitmaps_inv a -> file_wf a ino -> indirect ino = 0 -> data_used a b -> ~ owned a ino b -> a_blk a b = zero_block ->
  file_wf a (set_indirect b ino) /\ (forall j, owned a (set_indirect b ino) j <-> owned a ino j \/ j = b) /\
  (forall off, off_ok off -> file_byte a (set_indirect b ino) off = file_byte a ino off).
Proof.
  intros Hi Hwf Hind Hb Hno Hz. assert (Hb0 : b <> 0) by (destruct Hb as [H _]; rewrite data_start in H; lia).
  assert (Hmap : forall l, lblock_ok l -> bmap a (set_indirect b ino) l = bmap a ino l).
  { intros l Hl. unfold bmap. cbn [set_indirect direct indirect]. destruct (Z.ltb_spec l ARESFS_DIRECT_BLOCKS); [done|].
    rewrite Hind, (proj2 (Z.eqb_neq b 0) Hb0), Hz. cbn [Z.eqb]. apply le_get_zero; lia. }
  assert (Ho : forall j, owned a (set_indirect b ino) j <-> owned a ino j \/ j = b).
  { intros j. unfold owned. cbn [set_indirect indirect]. rewrite Hind. split.
    - intros [Hj [->|(l & Hl & E)]]; [by right|]. rewrite Hmap in E by done. left. eauto.
    - intros [[Hj [->|(l & Hl & E)]]| ->]; [done| |auto]. split; [done|]. right. exists l. by rewrite Hmap. }
  split_and!; [|done|].
  - split.
    + apply set_indirect_ok; [apply Hwf|apply block_field, Hb].
    + intros j [Hj| ->]%Ho; [by apply Hwf|done].
    + intros l Hl Hne E. rewrite Hmap in * by done. cbn [set_indirect indirect] in E. apply Hno. rewrite <- E. by apply owned_bmap.
    + intros l l' Hl Hl'. rewrite !Hmap by done. by apply Hwf.
  - intros off Hoff. by apply file_byte_ext.
Qed.

Section create.
Context {D : Type} {HD : BlockDevice D} {HL : BlockDeviceLaws D}.
Implicit Types (s : fs D) (a : afs).

(** Everything about [inode_resolve_block] with [create]: the call succeeds
    with the block of [l] or finds the disk full; in both cases no byte of the
    file changes and only free blocks were taken. *)
Lemma resolve_create_ok s a ino l : rep s a -> bitmaps_inv a -> file_wf a ino -> lblock_ok l ->
  runs (inode_resolve_block ino l true) s (resolved a ino l).
Proof.
  intros Hr Hi Hwf Hlb. unfold inode_resolve_block. change ARESFS_INDIRECT_PTRS with 128.
  destruct (Z.ltb_spec l ARESFS_DIRECT_BLOCKS) as [Hlt|Hge].
  - assert (Hl : 0 <= l < ARESFS_DIRECT_BLOCKS) by (split; [apply Hlb|done]).
    run. eapply runs_need; [apply (bmap_direct a); [apply Hwf|done]|]. rewrite andb_true_r.
    destruct (Z.eqb_spec (bmap a ino l) 0) as [E|E].
    2:{ run. exists a. cbn [fst snd]. rewrite (proj2 (Z.eqb_neq _ 0) E). split_and!; try done. by apply extends_refl. }
    apply (alloc_zero_ok s a); [done|done| |].
    + intros s' Hr' Hfull. run. exists a. split_and!; try done. by apply extends_refl.
    + intros b s1 a1 Hr1 Hrs. destruct (reserved_extends a b a1 ino Hwf Hrs) as (Hex & Hm & Hno & Hby & Hbu).
      destruct (arr_set (direct ino) l b) as [d|] eqn:Hd.
      2:{ unfold arr_set in Hd. rewrite (proj1 (io_direct _ (fw_ino _ _ Hwf))) in Hd. unfold ARESFS_DIRECT_BLOCKS in Hl.
          rewrite (proj2 (Z.leb_le _ _)), (proj2 (Z.ltb_lt _ _)) in Hd by lia. done. }
      destruct (link_direct a1 ino l b d) as (Hwf2 & Ho2 & Hby2 & Hb2); try done; [apply Hex|apply Hex|by rewrite Hm|apply Hrs|].
      run. eapply runs_need; [reflexivity|]. run. exists a1. cbn [fst snd]. split_and!; [done| | |].
      * by eapply (reserved_link a ino a1 b); try done; apply Hrs.
      * intros o Ho. rewrite Hby2 by done. by apply Hby.
      * rewrite (proj2 (Z.eqb_neq b 0)); [done|]. pose proof (rs_range _ _ _ Hrs) as Hrg. rewrite data_start in Hrg. lia.
  - assert (Hoff : l - ARESFS_DIRECT_BLOCKS < 128).
    { unfold lblock_ok in Hlb. change ARESFS_MAX_FILE_BLOCKS with 140 in Hlb. unfold ARESFS_DIRECT_BLOCKS. lia. }
    rewrite (proj2 (Z.leb_gt 128 _)) by lia. apply runs_bind. destruct (Z.eqb_spec (indirect ino) 0) as [E|E]; cbn [negb].
    + apply (alloc_zero_ok s a); [done|done| |].
      * intros s' Hr' Hfull. run. exists a. split_and!; try done. by apply extends_refl.
      * intros b s1 a1 Hr1 Hrs. destruct (reserved_extends a b a1 ino Hwf Hrs) as (Hex & Hm & Hno & Hby & Hbu).
        destruct (link_new_indirect a1 ino b) as (Hwf2 & Ho2 & Hby2); try done; [apply Hex|apply Hex|apply Hrs|]. run.
        assert (Hex2 : extends a ino a1 (set_indirect b ino)) by (by eapply (reserved_link a ino a1 b); try done; apply Hrs).
        assert (Hb0 : indirect (set_indirect b ino) <> 0).
        { cbn [set_indirect indirect]. pose proof (rs_range _ _ _ Hrs) as Hrg. rewrite data_start in Hrg. lia. }
        pose proof (resolve_through_indirect s1 a1 _ l Hr1 (rs_inv _ _ _ Hrs) Hwf2 Hge Hlb Hb0) as Hth.
        cbv zeta in Hth. change (indirect (set_indirect b ino)) with b in Hth. rewrite (rs_zero _ _ _ Hrs) in Hth.
        eapply runs_mono; [exact Hth|].
        intros r s2 Hres. eapply resolved_trans; [exact Hex2| |exact Hres]. intros o Ho. rewrite Hby2 by done. by apply Hby.
    + destruct (owned_block_ok a ino (indirect ino) Hwf) as (Hbk & _); [by apply owned_ind|].
      run. eapply runs_mono; [by apply block_read_ok|]. intros r s' [-> Hr']. rewrite bool_decide_false by (intros H'; by apply H').
      run. by apply resolve_through_indirect.
Qed.
End create.

(** * Writing data *)

Lemma arr_get_splice off new l i : 0 <= off -> off + Z.of_nat (length new) <= Z.of_nat (length l) -> 0 <= i ->
  arr_get (splice off new l) i = if (off <=? i) && (i <? off + Z.of_nat (length new)) then arr_get new (i - off) else arr_get l i.
Proof.
  intros Ho Hl Hi. unfold arr_get. rewrite (proj2 (Z.leb_le 0 i)) by done. rewrite splice_lookup by done.
  destruct (Z.leb_spec off i), (Z.ltb_spec i (off + Z.of_nat (length new))); cbn [andb].
  - rewrite decide_True by lia. rewrite (proj2 (Z.leb_le 0 (i - off))) by lia. f_equal. lia.
  - by rewrite decide_False by lia.
  - by rewrite decide_False by lia.
  - by rewrite decide_False by lia.
Qed.

Lemma arr_get_slice off n l i : 0 <= off -> 0 <= i < n -> arr_get (slice off n l) i = arr_get l (off + i).
Proof.
  intros Ho Hi. unfold arr_get. rewrite (proj2 (Z.leb_le 0 i)), (proj2 (Z.leb_le 0 (off + i))) by lia.
  rewrite slice_lookup by lia. f_equal. lia.
Qed.

(** Replacing the contents of one data block. *)
Lemma data_write_extends a ino l buf :
  bitmaps_inv a -> file_wf a ino -> lblock_ok l -> bmap a ino l <> 0 ->
  let a' := a_write (bmap a ino l) buf a in
  extends a ino a' ino /\
  (forall off, off_ok off -> file_byte a' ino off =
     if off / ARESFS_BLOCK_SIZE =? l then default 0 (arr_get buf (off mod ARESFS_BLOCK_SIZE)) else file_byte a ino off).
Proof.
  intros Hi Hwf Hl Hp a'. set (p := bmap a ino l) in *.
  assert (Hop : owned a ino p) by (by apply owned_bmap). destruct (owned_block_ok a ino p Hwf Hop) as (Hbk & Hgt & _).
  assert (Hm : forall l', lblock_ok l' -> bmap a' ino l' = bmap a ino l').
  { intros l' Hl'. apply bmap_ext; [done|done|]. intros Hne. cbn. rewrite (proj2 (Z.eqb_neq _ p)); [done|].
    intros E. by apply (fw_ind _ _ Hwf l Hl Hp). }
  assert (Ho : forall j, owned a' ino j <-> owned a ino j).
  { intros j. unfold owned. split; intros [Hj [->|(l' & Hl' & E)]]; split; auto; right; exists l'; (split; [done|]);
      [rewrite <- Hm by done|rewrite Hm by done]; done. }
  split.
  - split; try done.
    + by apply bitmaps_inv_write.
    + split; [apply Hwf| | |].
      * intros j Hj%Ho. by apply Hwf.
      * intros l' Hl'. rewrite Hm by done. by apply Hwf.
      * intros l1 l2 H1 H2. rewrite !Hm by done. by apply Hwf.
    + intros j Hj Hu Hn. cbn. destruct (Z.eqb_spec j p) as [->|]; [done|done].
    + intros j Hj%Ho. by left.
  - intros off Hoff. destruct (off_lblock off Hoff) as [Hlo _]. unfold file_byte. rewrite Hm by done.
    destruct (Z.eqb_spec (off / ARESFS_BLOCK_SIZE) l) as [->|Hne].
    + fold p. rewrite (proj2 (Z.eqb_neq p 0) Hp). cbn [a' a_write a_blk]. unfold a'. cbn [a_write a_blk]. by rewrite Z.eqb_refl.
    + destruct (Z.eqb_spec (bmap a ino (off / ARESFS_BLOCK_SIZE)) 0) as [|Hb]; [done|]. unfold a'. cbn [a_write a_blk].
      rewrite (proj2 (Z.eqb_neq _ p)); [done|]. intros E. apply Hne. by apply (fw_inj _ _ Hwf).
Qed.

Section body.
Context {D : Type} {HD : BlockDevice D} {HL : BlockDeviceLaws D}.
Implicit Types (s : fs D) (a : afs).

(** The bytes of a mapped block. *)
Lemma file_byte_mapped a ino l i : lblock_ok l -> 0 <= i < 512 -> bmap a ino l <> 0 ->
  file_byte a ino (ARESFS_BLOCK_SIZE * l + i) = default 0 (arr_get (a_blk a (bmap a ino l)) i).
Proof.
  intros Hl Hi Hp. unfold file_byte, ARESFS_BLOCK_SIZE.
  replace ((512 * l + i) / 512) with l by dlia. replace ((512 * l + i) mod 512) with i by dlia.
  by rewrite (proj2 (Z.eqb_neq _ 0) Hp).
Qed.

(** One block's worth of a write: [chunk] bytes of [src] from [done] on. *)
Lemma write_chunk {A} (e : prog (fs D) A) k (Q : A -> fs D -> Prop) s a ino pos done chunk src : rep s a -> bitmaps_inv a -> file_wf a ino -> Forall byte_ok src ->
  0 <= pos -> 0 <= done -> 0 < chunk -> done + chunk <= Z.of_nat (length src) ->
  let l := (pos + done) / ARESFS_BLOCK_SIZE in let bo := (pos + done) mod ARESFS_BLOCK_SIZE in
  lblock_ok l -> bo + chunk <= 512 -> bmap a ino l <> 0 ->
  (forall s' a', rep s' a' -> extends a ino a' ino ->
    (forall off, off_ok off -> file_byte a' ino off =
       if (pos + done <=? off) && (off <? pos + done + chunk) then default 0 (arr_get src (off - pos)) else file_byte a ino off) ->
    runs k s' Q) ->
  runs (r ← (if negb (chunk =? ARESFS_BLOCK_SIZE) then block_read (bmap a ino l) zero_block else mret (ARES_OK, zero_block));
        if bool_decide (r.1 <> ARES_OK) then e
        else
          st ← block_write (bmap a ino l) (splice bo (slice done chunk src) r.2);
          if bool_decide (st <> ARES_OK) then e else k) s Q.
Proof.
  intros Hr Hi Hwf Hsrc Hpos Hdone Hchunk Hlen l bo Hl Hfit Hp Hk. set (p := bmap a ino l) in *.
  destruct (owned_block_ok a ino p Hwf) as (Hbk & _); [by apply owned_bmap|].
  destruct (rep_blk_ok s a p Hr Hbk) as [Hbl Hbb].
  assert (Hbo : 0 <= bo) by (unfold bo, ARESFS_BLOCK_SIZE; dlia).
  assert (Hsl : length (slice done chunk src) = Z.to_nat chunk) by (apply slice_length; lia).
  assert (Hread : runs (if negb (chunk =? ARESFS_BLOCK_SIZE) then block_read p zero_block else mret (ARES_OK, zero_block)) s
    (fun r s' => r.1 = ARES_OK /\ rep s' a /\ blk_ok r.2 /\ (chunk <> 512 -> r.2 = a_blk a p))).
  { unfold ARESFS_BLOCK_SIZE. destruct (Z.eqb_spec chunk 512) as [E|E]; cbn [negb].
    - run. split_and!; [done|done|apply zero_block_ok|done].
    - eapply runs_mono; [by apply block_read_ok|]. intros r s' [-> Hr']. by split_and!. }
  apply runs_bind. eapply runs_mono; [exact Hread|]. intros [st buf] s1 (-> & Hr1 & Hbuf & Hsame). cbn [fst snd] in *.
  rewrite bool_decide_false by (intros H'; by apply H'). set (new := splice bo (slice done chunk src) buf).
  assert (Hnew : blk_ok new).
  { split; [unfold new; rewrite splice_length; [apply Hbuf|lia|rewrite (proj1 Hbuf); lia]|].
    apply byte_ok_splice; [by apply byte_ok_slice|apply Hbuf]. }
  apply runs_bind. eapply runs_mono; [apply (block_write_ok s1 a p new); done|]. intros st2 s2 [-> Hr2].
  rewrite bool_decide_false by (intros H'; by apply H').
  destruct (data_write_extends a ino l new Hi Hwf Hl Hp) as [Hex Hby]. fold p in Hex, Hby.
  eapply Hk; [exact Hr2|exact Hex|]. intros off Hoff. rewrite Hby by done.
  destruct (off_lblock off Hoff) as [_ Hmod].
  assert (Hpd : pos + done = 512 * l + bo) by (unfold l, bo, ARESFS_BLOCK_SIZE; dlia).
  assert (Hod : off = 512 * (off / ARESFS_BLOCK_SIZE) + off mod ARESFS_BLOCK_SIZE) by (unfold ARESFS_BLOCK_SIZE; dlia).
  set (i := off mod ARESFS_BLOCK_SIZE) in *. destruct (Z.eqb_spec (off / ARESFS_BLOCK_SIZE) l) as [E|E].
  - rewrite E in Hod. unfold new. rewrite arr_get_splice by (rewrite ?(proj1 Hbuf); lia). rewrite Hsl, Z2Nat.id by lia.
    destruct (Z.leb_spec bo i), (Z.ltb_spec i (bo + chunk)), (Z.leb_spec (pos + done) off), (Z.ltb_spec off (pos + done + chunk));
      try lia; cbn [andb].
    + rewrite arr_get_slice by lia. f_equal. f_equal. lia.
    + rewrite Hsame by lia. rewrite Hod. symmetry. by apply file_byte_mapped.
    + rewrite Hsame by lia. rewrite Hod. symmetry. by apply file_byte_mapped.
  - destruct (Z.leb_spec (pos + done) off), (Z.ltb_spec off (pos + done + chunk)); try done. cbn [andb]. lia.
Qed.
End body.

Section loops.
Context {D : Type} {HD : BlockDevice D} {HL : BlockDeviceLaws D}.
Implicit Types (s : fs D) (a : afs).

(** How many iterations a transfer of [count] bytes at [pos] still takes. *)
Definition blocks_left (pos count done : Z) : Z :=
  if done <? count then (pos + count - 1) / ARESFS_BLOCK_SIZE - (pos + done) / ARESFS_BLOCK_SIZE + 1 else 0.

Lemma blocks_left_step pos count done : 0 <= pos -> 0 <= done < count ->
  let bo := (pos + done) mod ARESFS_BLOCK_SIZE in let chunk := Z.min (ARESFS_BLOCK_SIZE - bo) (count - done) in
  0 < chunk /\ bo + chunk <= 512 /\ done + chunk <= count /\ blocks_left pos count (done + chunk) < blocks_left pos count done.
Proof.
  intros Hp Hd bo chunk. subst bo chunk. unfold blocks_left, ARESFS_BLOCK_SIZE. rewrite (proj2 (Z.ltb_lt done count)) by lia.
  split; [dlia|]. split; [dlia|]. split; [dlia|]. destruct (Z.ltb_spec (done + Z.min (512 - (pos + done) mod 512) (count - done)) count); dlia.
Qed.

Lemma body_fuel_enough pos count : 0 <= pos -> 0 <= count -> blocks_left pos count 0 < Z.of_nat (body_fuel count).
Proof. intros. unfold blocks_left, body_fuel, ARESFS_BLOCK_SIZE. destruct (0 <? count); dlia. Qed.

(** Offsets in range do not wrap around. *)
Lemma off_widths pos done : 0 <= pos -> 0 <= done -> pos + done < 2 ^ 40 ->
  u64 (pos + done) = pos + done /\
  u32 ((pos + done) / ARESFS_BLOCK_SIZE) = (pos + done) / ARESFS_BLOCK_SIZE /\
  u32 ((pos + done) mod ARESFS_BLOCK_SIZE) = (pos + done) mod ARESFS_BLOCK_SIZE.
Proof. intros. unfold ARESFS_BLOCK_SIZE. rewrite !wrap_small by dlia. done. Qed.

(** The file after [k] bytes of [src] were written at [pos]. *)
Definition written (a : afs) (ino : aresfs_inode) (pos lo hi : Z) (src : list Z) (a' : afs) (ino' : aresfs_inode) : Prop :=
  forall off, off_ok off -> file_byte a' ino' off =
    if (pos + lo <=? off) && (off <? pos + hi) then default 0 (arr_get src (off - pos)) else file_byte a ino off.

Lemma write_loop_ok fuel : forall s a ino pos count done src,
  rep s a -> bitmaps_inv a -> file_wf a ino -> Forall byte_ok src ->
  0 <= pos -> 0 <= done <= count -> pos + count <= MAXB * ARESFS_BLOCK_SIZE -> count <= Z.of_nat (length src) ->
  blocks_left pos count done < Z.of_nat fuel ->
  runs (write_loop fuel ino pos count done src) s (fun r s' => exists k ino' a', r = Some (k, ino') /\ done <= k <= count /\
    rep s' a' /\ extends a ino a' ino' /\ written a ino pos done k src a' ino' /\ (k = count \/ full a')).
Proof.
  unfold MAXB. change (ARESFS_MAX_FILE_BLOCKS * ARESFS_BLOCK_SIZE) with 71680.
  induction fuel as [|fuel IH]; intros s a ino pos count done src Hr Hi Hwf Hsrc Hpos Hdone Hmax Hcount Hfuel; cbn [write_loop].
  { exfalso. unfold blocks_left, ARESFS_BLOCK_SIZE in Hfuel. destruct (Z.ltb_spec done count); dlia. }
  destruct (Z.ltb_spec done count) as [Hlt|Hge].
  2:{ run. exists done, ino, a. split_and!; try done; [lia|by apply extends_refl| |left; lia].
      intros off Hoff. destruct (Z.leb_spec (pos + done) off), (Z.ltb_spec off (pos + done)); try done. lia. }
  destruct (off_widths pos done) as (-> & -> & ->); [lia|lia|lia|].
  destruct (blocks_left_step pos count done) as (Hc0 & Hc1 & Hc2 & Hc3); [lia|lia|].
  set (l := (pos + done) / ARESFS_BLOCK_SIZE) in *. set (bo := (pos + done) mod ARESFS_BLOCK_SIZE) in *.
  set (chunk := Z.min (ARESFS_BLOCK_SIZE - bo) (count - done)) in *.
  assert (Hl : lblock_ok l) by (unfold lblock_ok, l; change ARESFS_MAX_FILE_BLOCKS with 140; unfold ARESFS_BLOCK_SIZE; dlia).
  apply runs_bind. eapply runs_mono; [by apply resolve_create_ok|]. intros [phys ino1] s1 (a1 & Hr1 & Hex1 & Hb1 & Hres).
  cbn [fst snd] in *. destruct (Z.eqb_spec phys 0) as [->|Hne].
  { run. exists done, ino1, a1. split_and!; try done; [lia| |by right]. intros off Hoff. rewrite Hb1 by done.
    destruct (Z.leb_spec (pos + done) off), (Z.ltb_spec off (pos + done)); try done. lia. }
  subst phys. cbv zeta. eapply write_chunk; try done; [apply Hex1|apply Hex1|lia|lia|].
  intros s2 a2 Hr2 Hex2 Hb2. eapply runs_mono; [eapply IH; try done; [apply Hex2|apply Hex2|lia|lia]|].
  intros r s3 (k & ino3 & a3 & -> & Hk & Hr3 & Hex3 & Hb3 & Hfin). exists k, ino3, a3. split_and!; try done; [lia|lia| |].
  - eapply extends_trans; [exact Hex1|]. by eapply extends_trans.
  - intros off Hoff. rewrite Hb3, Hb2, Hb1 by done.
    destruct (Z.leb_spec (pos + (done + chunk)) off), (Z.ltb_spec off (pos + k)), (Z.leb_spec (pos + done) off),
      (Z.ltb_spec off (pos + done + chunk)); try lia; try done.
Qed.
End loops.

(** * Reading *)

(** [n] bytes of the file from [pos] on. *)
Definition file_bytes (a : afs) (ino : aresfs_inode) (pos n : Z) : list Z := file_byte a ino <$> seqZ pos n.

Lemma file_bytes_app a ino pos n m : 0 <= n -> 0 <= m -> file_bytes a ino pos n ++ file_bytes a ino (pos + n) m = file_bytes a ino pos (n + m).
Proof. intros. unfold file_bytes. rewrite <- fmap_app, <- seqZ_app by lia. done. Qed.

Lemma file_bytes_ext a a' i i' pos n : (forall off, pos <= off < pos + n -> file_byte a' i' off = file_byte a i off) ->
  file_bytes a' i' pos n = file_bytes a i pos n.
Proof.
  intros Hb. unfold file_bytes. apply list_fmap_ext. intros k x Hx. apply lookup_seqZ in Hx as [-> ?]. apply Hb. lia.
Qed.

Lemma file_bytes_length a ino pos n : length (file_bytes a ino pos n) = Z.to_nat n.
Proof. unfold file_bytes. by rewrite length_fmap, length_seqZ. Qed.

Section read.
Context {D : Type} {HD : BlockDevice D} {HL : BlockDeviceLaws D}.
Implicit Types (s : fs D) (a : afs).

(** A part of one block is a run of bytes of the file. *)
Lemma chunk_bytes a ino off chunk : off_ok off -> 0 <= chunk -> off mod ARESFS_BLOCK_SIZE + chunk <= 512 ->
  let p := bmap a ino (off / ARESFS_BLOCK_SIZE) in
  (p <> 0 -> length (a_blk a p) = 512%nat) ->
  file_bytes a ino off chunk = if p =? 0 then replicate (Z.to_nat chunk) 0 else slice (off mod ARESFS_BLOCK_SIZE) chunk (a_blk a p).
Proof.
  intros Ho Hc Hfit p Hlen. destruct (off_lblock off Ho) as [Hl Hm]. set (l := off / ARESFS_BLOCK_SIZE) in *. set (bo := off mod ARESFS_BLOCK_SIZE) in *.
  assert (Hod : off = 512 * l + bo) by (unfold l, bo, ARESFS_BLOCK_SIZE; dlia).
  assert (Hby : forall k, 0 <= k < chunk -> file_byte a ino (off + k) = if p =? 0 then 0 else default 0 (arr_get (a_blk a p) (bo + k))).
  { intros k Hk. unfold file_byte, ARESFS_BLOCK_SIZE. replace ((off + k) / 512) with l by dlia. replace ((off + k) mod 512) with (bo + k) by dlia.
    done. }
  apply list_eq. intros i. unfold file_bytes. rewrite list_lookup_fmap. destruct (decide (i < Z.to_nat chunk)%nat) as [Hi|Hi].
  - rewrite lookup_seqZ_lt by lia. cbn [fmap option_fmap option_map]. rewrite Hby by lia. destruct (Z.eqb_spec p 0) as [E|E].
    + symmetry. by apply lookup_replicate_2.
    + rewrite slice_lookup by done. unfold arr_get. rewrite (proj2 (Z.leb_le 0 _)) by lia.
      replace (Z.to_nat (bo + Z.of_nat i)) with (Z.to_nat bo + i)%nat by lia.
      destruct (lookup_lt_is_Some_2 (a_blk a p) (Z.to_nat bo + i)) as [x ->]; [rewrite Hlen by done; lia|done].
  - rewrite lookup_seqZ_ge by lia. destruct (p =? 0).
    + symmetry. apply lookup_ge_None_2. rewrite length_replicate. lia.
    + symmetry. apply slice_lookup_ge. lia.
Qed.

Lemma read_loop_ok fuel : forall s a ino pos count done acc,
  rep s a -> file_wf a ino -> 0 <= pos -> 0 <= done <= count -> pos + count <= MAXB * ARESFS_BLOCK_SIZE ->
  blocks_left pos count done < Z.of_nat fuel ->
  runs (read_loop fuel ino pos count done acc) s (fun r s' =>
    r = (count, acc ++ file_bytes a ino (pos + done) (count - done)) /\ rep s' a).
Proof.
  unfold MAXB. change (ARESFS_MAX_FILE_BLOCKS * ARESFS_BLOCK_SIZE) with 71680.
  induction fuel as [|fuel IH]; intros s a ino pos count done acc Hr Hwf Hpos Hdone Hmax Hfuel; cbn [read_loop].
  { exfalso. unfold blocks_left, ARESFS_BLOCK_SIZE in Hfuel. destruct (Z.ltb_spec done count); dlia. }
  destruct (Z.ltb_spec done count) as [Hlt|Hge].
  2:{ run. rewrite i32_small by lia. replace done with count by lia. rewrite Z.sub_diag. by rewrite app_nil_r. }
  destruct (off_widths pos done) as (-> & -> & ->); [lia|lia|lia|].
  destruct (blocks_left_step pos count done) as (Hc0 & Hc1 & Hc2 & Hc3); [lia|lia|].
  set (l := (pos + done) / ARESFS_BLOCK_SIZE) in *. set (bo := (pos + done) mod ARESFS_BLOCK_SIZE) in *.
  set (chunk := Z.min (ARESFS_BLOCK_SIZE - bo) (count - done)) in *.
  assert (Hoff : off_ok (pos + done)) by (unfold off_ok; change (ARESFS_MAX_FILE_BLOCKS * ARESFS_BLOCK_SIZE) with 71680; lia).
  destruct (off_lblock _ Hoff) as [Hl _]. fold l in Hl.
  assert (Hlen : bmap a ino l <> 0 -> block_ok (bmap a ino l) /\ length (a_blk a (bmap a ino l)) = 512%nat).
  { intros Hp. destruct (owned_block_ok a ino (bmap a ino l) Hwf) as (Hbk & _); [by apply owned_bmap|]. split; [done|]. by eapply rep_blk_ok. }
  assert (Hacc : forall x s1, x = file_bytes a ino (pos + done) chunk -> rep s1 a ->
    runs (read_loop fuel ino pos count (done + chunk) (acc ++ x)) s1
      (fun r s' => r = (count, acc ++ file_bytes a ino (pos + done) (count - done)) /\ rep s' a)).
  { intros x s1 -> Hr1. eapply runs_mono; [apply (IH s1 a); (done || lia)|]. intros r s' [-> Hr']. split; [|done].
    rewrite <- app_assoc. do 2 f_equal. replace (pos + (done + chunk)) with (pos + done + chunk) by lia.
    rewrite file_bytes_app by lia. f_equal. lia. }
  pose proof (chunk_bytes a ino (pos + done) chunk Hoff ltac:(lia) Hc1) as Hcb. cbv zeta in Hcb. fold l bo in Hcb.
  specialize (Hcb ltac:(intros; by apply Hlen)).
  apply runs_bind. eapply runs_mono; [apply (resolve_read_ok s a ino l Hr Hwf); apply Hl|]. intros r s1 [-> Hr1].
  unfold MAXB. rewrite (proj2 (Z.ltb_lt l _)) by apply Hl. destruct (Z.eqb_spec (bmap a ino l) 0) as [E|E].
  - apply Hacc; [by rewrite Hcb|done].
  - apply runs_bind. eapply runs_mono; [apply (block_read_ok s1 a); [done|by apply Hlen|done]|]. intros r s2 [-> Hr2].
    rewrite bool_decide_false by (intros H'; by apply H'). apply Hacc; [by rewrite Hcb|done].
Qed.

(** Reading returns the bytes of the file from [pos] up to its size. *)
Lemma file_read_body_ok s a ino pos count : rep s a -> file_wf a ino -> 0 <= pos -> 0 <= count ->
  size ino <= MAXB * ARESFS_BLOCK_SIZE ->
  let n := Z.max 0 (Z.min count (size ino - pos)) in
  runs (file_read_body ino pos count) s (fun r s' => r = (n, file_bytes a ino pos n) /\ rep s' a).
Proof.
  intros Hr Hwf Hpos Hcount Hsize n. unfold file_read_body. destruct (Z.leb_spec (size ino) pos) as [Hle|Hgt].
  { run. assert (n = 0) as -> by lia. done. }
  assert (Hn : (if size ino - pos <? count then size ino - pos else count) = n).
  { unfold n. destruct (Z.ltb_spec (size ino - pos) count); lia. }
  rewrite Hn. eapply runs_mono; [apply (read_loop_ok (body_fuel n) s a); [done|done|done|lia|lia|apply body_fuel_enough; lia]|].
  intros r s' [-> Hr']. split; [|done]. rewrite Z.add_0_r, Z.sub_0_r. done.
Qed.
End read.

(** * Writing a file *)

(** Writing a metadata block (an inode) changes no file. *)
Lemma meta_write_file a ino b buf : file_wf a ino -> b < ARESFS_DATA_START_BLOCK ->
  (forall l, lblock_ok l -> bmap (a_write b buf a) ino l = bmap a ino l) /\
  (forall off, off_ok off -> file_byte (a_write b buf a) ino off = file_byte a ino off) /\
  (forall j, owned (a_write b buf a) ino j <-> owned a ino j) /\ file_wf (a_write b buf a) ino.
Proof.
  intros Hwf Hb. assert (Hne : forall j, owned a ino j -> a_blk (a_write b buf a) j = a_blk a j).
  { intros j Hj. destruct (owned_block_ok a ino j Hwf Hj) as (_ & _ & Hge). cbn. by rewrite (proj2 (Z.eqb_neq j b)) by lia. }
  assert (Hm : forall l, bmap (a_write b buf a) ino l = bmap a ino l) by (intros l; apply bmap_ext; [done|done|]; intros; by apply Hne, owned_ind).
  assert (Ho : forall j, owned (a_write b buf a) ino j <-> owned a ino j) by (intros j; by apply owned_ext).
  split_and!; [done| |done|].
  - intros off Hoff. apply file_byte_ext; [done|done|]. intros l Hl Hp. by apply Hne, owned_bmap.
  - split; [apply Hwf| | |].
    + intros j Hj%Ho. by apply Hwf.
    + intros l Hl. rewrite Hm. by apply Hwf.
    + intros l l' Hl Hl'. rewrite !Hm. by apply Hwf.
Qed.

(** The size is no part of the block map. *)
Lemma set_size_file a ino x : file_wf a ino -> field_ok 8 x ->
  (forall off, file_byte a (set_size x ino) off = file_byte a ino off) /\
  (forall j, owned a (set_size x ino) j <-> owned a ino j) /\ file_wf a (set_size x ino).
Proof. intros [] Hx. split_and!; [done|done|]. split; [by apply set_size_ok|done|done|done]. Qed.

(** The inode table is not changed by what a file does to its own blocks. *)
Lemma extends_inodes a ino a' ino' m : bitmaps_inv a -> file_wf a ino -> extends a ino a' ino' -> inum_ok m -> a_inode a' m = a_inode a m.
Proof.
  intros Hi Hwf Hex Hm. destruct (slot_bounds m Hm) as (_ & _ & Hb & Hbk). unfold a_inode. do 2 f_equal.
  apply (ex_frame _ _ _ _ Hex); [split; [apply Hb|apply Hbk]|apply (bi_meta _ Hi); rewrite data_start; lia|].
  intros Ho. destruct (owned_block_ok a ino _ Hwf Ho) as (_ & _ & Hge). rewrite data_start in Hge. lia.
Qed.

(** What a completed write leaves: [k] bytes of [src] at [pos] of inode [n]. *)
Record file_written (a : afs) (n : Z) (ino : aresfs_inode) (pos k : Z) (src : list Z) (a' : afs) (ino' : aresfs_inode) : Prop := {
  wr_inv : bitmaps_inv a';
  wr_wf : file_wf a' ino';
  wr_inode m : inum_ok m -> a_inode a' m = if m =? n then ino' else a_inode a m;
  wr_bytes : written a ino pos 0 k src a' ino';
  wr_size : size ino' = Z.max (size ino) (pos + k);
  wr_mode : mode ino' = mode ino;
  wr_bits j : bm_bit (a_bbm a) j = true -> bm_bit (a_bbm a') j = true;
  wr_owned j : owned a' ino' j -> owned a ino j \/ bm_bit (a_bbm a) j = false;
  wr_frame j : data_used a j -> ~ owned a ino j -> a_blk a' j = a_blk a j;
  wr_cache : (a_sb a', a_ibm a', a_mounted a', a_fds a') = (a_sb a, a_ibm a, a_mounted a, a_fds a) }.

Section write.
Context {D : Type} {HD : BlockDevice D} {HL : BlockDeviceLaws D}.
Implicit Types (s : fs D) (a : afs).

Lemma file_write_body_ok s a n ino pos src : rep s a -> bitmaps_inv a -> file_wf a ino -> inum_ok n -> Forall byte_ok src ->
  0 <= pos < MAXB * ARESFS_BLOCK_SIZE ->
  let c := Z.min (Z.of_nat (length src)) (MAXB * ARESFS_BLOCK_SIZE - pos) in
  runs (file_write_body n ino pos src) s (fun k s' => exists a' ino', rep s' a' /\ 0 <= k <= c /\
    file_written a n ino pos k src a' ino' /\ (k = c \/ full a')).
Proof.
  intros Hr Hi Hwf Hn Hsrc Hpos c. unfold file_write_body. cbv zeta. unfold MAXB in *.
  change (ARESFS_MAX_FILE_BLOCKS * ARESFS_BLOCK_SIZE) with 71680 in *. rewrite (proj2 (Z.leb_gt 71680 pos)) by lia.
  assert (Hc : (if 71680 - pos <? Z.of_nat (length src) then 71680 - pos else Z.of_nat (length src)) = c).
  { unfold c. destruct (Z.ltb_spec (71680 - pos) (Z.of_nat (length src))); lia. }
  rewrite Hc. apply runs_bind. eapply runs_mono.
  { apply (write_loop_ok (body_fuel c) s a ino pos c 0 src); try done; unfold MAXB;
      change (ARESFS_MAX_FILE_BLOCKS * ARESFS_BLOCK_SIZE) with 71680; [lia..|apply body_fuel_enough; lia]. }
  intros r s1 (k & ino1 & a1 & -> & Hk & Hr1 & Hex & Hby & Hfin). rewrite wrap_small by lia.
  assert (Hsz1 : size ino1 = size ino) by (pose proof (ex_rest _ _ _ _ Hex) as E; by inversion E).
  assert (Hmd1 : mode ino1 = mode ino) by (pose proof (ex_rest _ _ _ _ Hex) as E; by inversion E).
  set (ino2 := if size ino1 <? pos + k then set_size (pos + k) ino1 else ino1).
  destruct (set_size_file a1 ino1 (pos + k)) as (Hb2 & Ho2 & Hwf2); [apply Hex|unfold field_ok; lia|].
  assert (H2 : (forall off, file_byte a1 ino2 off = file_byte a1 ino1 off) /\ (forall j, owned a1 ino2 j <-> owned a1 ino1 j) /\
    file_wf a1 ino2 /\ size ino2 = Z.max (size ino) (pos + k) /\ mode ino2 = mode ino).
  { unfold ino2. destruct (Z.ltb_spec (size ino1) (pos + k)); (split_and!; [done|done|first [done|apply Hex]|cbn [set_size size]; lia|done]). }
  destruct H2 as (Hby2 & Hown2 & Hwf2' & Hsz2 & Hmd2). pose proof (slot_bounds n Hn) as (_ & _ & Hsb & _).
  apply runs_bind. eapply runs_mono; [apply (inode_write_ok s1 a1 n ino2 Hr1 Hn), Hwf2'|]. intros st s2 [-> Hr2].
  rewrite bool_decide_false by (intros H'; by apply H'). run. rewrite i32_small by lia.
  destruct (meta_write_file a1 ino2 (slot_blk n) (splice (slot_off n) (inode_bytes ino2) (a_blk a1 (slot_blk n))) Hwf2')
    as (_ & Hby3 & Hown3 & Hwf3); [rewrite data_start; lia|]. fold (a_put_inode n ino2 a1) in Hby3, Hown3, Hwf3.
  exists (a_put_inode n ino2 a1), ino2. split_and!; [done|lia|lia| |done]. split; try done.
  - apply bitmaps_inv_write; [apply Hex|unfold ARESFS_INODE_BITMAP_BLOCK; lia].
  - intros m Hm. rewrite (a_inode_put s1) by (done || apply Hwf2'). destruct (m =? n); [done|]. by eapply extends_inodes.
  - intros off Hoff. rewrite Hby3, Hby2 by done. by apply Hby.
  - apply Hex.
  - intros j Hj%Hown3%Hown2. by apply (ex_owned _ _ _ _ Hex).
  - intros j [Hrg Hu] Hno. cbn [a_put_inode a_write a_blk]. unfold a_put_inode. cbn [a_write a_blk].
    rewrite data_start in Hrg. rewrite (proj2 (Z.eqb_neq j _)) by lia. apply (ex_frame _ _ _ _ Hex); [unfold ARESFS_INODE_START_BLOCK; lia|done|done].
  - apply Hex.
Qed.

(** Another file, whose blocks are disjoint, is untouched by a write. *)
Lemma file_written_other a n ino pos k src a' ino' other : file_written a n ino pos k src a' ino' -> file_wf a other ->
  (forall j, owned a other j -> ~ owned a ino j) ->
  file_wf a' other /\ (forall off, off_ok off -> file_byte a' other off = file_byte a other off).
Proof.
  intros Hw Hwf Hdis.
  assert (Hblk : forall j, owned a other j -> a_blk a' j = a_blk a j).
  { intros j Hj. apply (wr_frame _ _ _ _ _ _ _ _ Hw); [by apply Hwf|by apply Hdis]. }
  assert (Hm : forall l, bmap a' other l = bmap a other l) by (intros l; apply bmap_ext; [done|done|]; intros; by apply Hblk, owned_ind).
  split.
  - split; [apply Hwf| | |].
    + intros j Hj. apply (owned_ext a a' other other j eq_refl Hm) in Hj. destruct (fw_used _ _ Hwf j Hj). split; [done|].
      by apply (wr_bits _ _ _ _ _ _ _ _ Hw).
    + intros l Hl. rewrite Hm. by apply Hwf.
    + intros l l' Hl Hl'. rewrite !Hm. by apply Hwf.
  - intros off Hoff. apply file_byte_ext; [done|done|]. intros l Hl Hp. by apply Hblk, owned_bmap.
Qed.
End write.

(** * Truncation *)

(** The blocks of [X] were freed, and nothing else happened. *)
Record freed (a : afs) (X : list Z) (a' : afs) : Prop := {
  fr_inv : bitmaps_inv a';
  fr_bits j : bm_bit (a_bbm a') j = bm_bit (a_bbm a) j && negb (bool_decide (j ∈ X));
  fr_blk j : j <> ARESFS_BLOCK_BITMAP_BLOCK -> a_blk a' j = a_blk a j;
  fr_cache : (a_sb a', a_ibm a', a_mounted a', a_fds a') = (a_sb a, a_ibm a, a_mounted a, a_fds a) }.

Lemma freed_nil a : bitmaps_inv a -> freed a [] a.
Proof. intros. split; try done. intros j. rewrite bool_decide_false by set_solver. by rewrite andb_true_r. Qed.

Lemma freed_app a X a1 Y a2 : freed a X a1 -> freed a1 Y a2 -> freed a (X ++ Y) a2.
Proof.
  intros [H1 B1 K1 C1] [H2 B2 K2 C2]. split; try done.
  - intros j. rewrite B2, B1. rewrite <- andb_assoc, <- negb_orb. do 2 f_equal.
    apply eq_true_iff_eq. rewrite orb_true_iff, !bool_decide_eq_true. by rewrite elem_of_app.
  - intros j Hj. by rewrite K2, K1.
  - by rewrite C2.
Qed.

Definition data_block (j : Z) : Prop := ARESFS_DATA_START_BLOCK <= j < ARESFS_TOTAL_BLOCKS.

Section truncate.
Context {D : Type} {HD : BlockDevice D} {HL : BlockDeviceLaws D}.
Implicit Types (s : fs D) (a : afs).

Lemma free_block_freed s a p : rep s a -> bitmaps_inv a -> data_block p ->
  runs (free_block p) s (fun _ s' => exists a', rep s' a' /\ freed a [p] a').
Proof.
  intros Hr Hi Hp. unfold data_block in Hp. pose proof data_start as E. eapply runs_mono; [apply (free_block_ok s a p Hr Hi); lia|].
  intros [] s'. rewrite (proj2 (Z.ltb_lt 0 p)), (proj2 (Z.ltb_lt p _)) by lia. cbn [andb].
  destruct (bm_bit (a_bbm a) p) eqn:Hbit.
  - intros (bm & Hu & Hr'). exists (a_bbm_to bm a). split; [done|]. split; try done.
    + eapply bitmaps_inv_bbm; [done|apply Hp|done].
    + intros j. cbn [a_bbm_to a_write a_set_bbm a_bbm]. rewrite (proj2 Hu). destruct (Z.eqb_spec j p) as [->|Hne].
      * rewrite bool_decide_true by set_solver. by rewrite andb_false_r.
      * rewrite bool_decide_false by set_solver. by rewrite andb_true_r.
    + intros j Hj. cbn [a_bbm_to a_write a_set_bbm a_blk]. by rewrite (proj2 (Z.eqb_neq j _)).
  - intros Hr'. exists a. split; [done|]. split; try done. intros j. destruct (Z.eqb_spec j p) as [->|Hne].
    + by rewrite Hbit.
    + rewrite bool_decide_false by set_solver. by rewrite andb_true_r.
Qed.

Lemma truncate_direct_ok n : forall i s a ino, rep s a -> bitmaps_inv a -> 0 <= i ->
  i + Z.of_nat n <= Z.of_nat (length (direct ino)) ->
  (forall l p, i <= l < i + Z.of_nat n -> arr_get (direct ino) l = Some p -> p <> 0 -> data_block p) ->
  runs (truncate_direct n i ino) s (fun ino' s' => exists a' X d, rep s' a' /\ freed a X a' /\ ino' = set_direct d ino /\
    length d = length (direct ino) /\
    (forall l, arr_get d l = if (i <=? l) && (l <? i + Z.of_nat n) then Some 0 else arr_get (direct ino) l) /\
    (forall p, p ∈ X <-> p <> 0 /\ exists l, i <= l < i + Z.of_nat n /\ arr_get (direct ino) l = Some p)).
Proof.
  induction n as [|n IH]; intros i s a ino Hr Hi H0 Hlen Hptr; cbn [truncate_direct].
  { run. exists a, [], (direct ino). split_and!; [done|by apply freed_nil|by destruct ino|done| |].
    - intros l. destruct (Z.leb_spec i l), (Z.ltb_spec l (i + Z.of_nat 0)); try done. lia.
    - intros p. split; [set_solver|]. intros (_ & l & Hl & _). lia. }
  destruct (arr_get_in (direct ino) i) as [p Hp]; [lia|]. run. eapply runs_need; [exact Hp|].
  assert (Hgo : forall s1 a1 ino1 Y, rep s1 a1 -> freed a Y a1 -> (forall x, x ∈ Y <-> x = p /\ p <> 0) ->
    (exists d1, ino1 = set_direct d1 ino /\ length d1 = length (direct ino) /\
       forall l, arr_get d1 l = if l =? i then Some 0 else arr_get (direct ino) l) ->
    runs (truncate_direct n (i + 1) ino1) s1 (fun ino' s' => exists a' X d, rep s' a' /\ freed a X a' /\ ino' = set_direct d ino /\
      length d = length (direct ino) /\
      (forall l, arr_get d l = if (i <=? l) && (l <? i + Z.of_nat (S n)) then Some 0 else arr_get (direct ino) l) /\
      (forall x, x ∈ X <-> x <> 0 /\ exists l, i <= l < i + Z.of_nat (S n) /\ arr_get (direct ino) l = Some x))).
  { intros s1 a1 ino1 Y Hr1 Hf1 HY (d1 & -> & Hd1 & Hg1). eapply runs_mono; [apply (IH (i + 1) s1 a1 (set_direct d1 ino) Hr1)|].
    - apply Hf1.
    - lia.
    - cbn [set_direct direct]. rewrite Hd1. lia.
    - intros l q Hl. cbn [set_direct direct]. rewrite Hg1, (proj2 (Z.eqb_neq l i)) by lia. apply Hptr. lia.
    - intros ino' s' (a' & X & d & Hr' & Hf' & -> & Hdl & Hdg & HX). exists a', (Y ++ X), d. cbn [set_direct direct] in *.
      split_and!; [done|by eapply freed_app|done|congruence| |].
      + intros l. rewrite Hdg, Hg1. destruct (Z.leb_spec (i + 1) l), (Z.ltb_spec l (i + 1 + Z.of_nat n)), (Z.leb_spec i l),
          (Z.ltb_spec l (i + Z.of_nat (S n))), (Z.eqb_spec l i); try done; lia.
      + intros x. rewrite elem_of_app, HX, HY. split.
        * intros [[-> ?]|[? (l & Hl & E)]]; [split; [done|]; exists i; split; [lia|done]|].
          split; [done|]. exists l. rewrite Hg1, (proj2 (Z.eqb_neq l i)) in E by lia. split; [lia|done].
        * intros [? (l & Hl & E)]. destruct (Z.eq_dec l i) as [->|]; [left; split; congruence|]. right. split; [done|].
          exists l. rewrite Hg1, (proj2 (Z.eqb_neq l i)) by lia. split; [lia|done]. }
  destruct (Z.eqb_spec p 0) as [->|Hne]; cbn [negb].
  - apply (Hgo s a ino []); [done|by apply freed_nil| |].
    { intros x. rewrite elem_of_nil. split; [done|by intros [_ ?]]. }
    exists (direct ino). split_and!; [by destruct ino|done|].
    intros l. by destruct (Z.eqb_spec l i) as [->|].
  - run. eapply runs_mono; [apply (free_block_freed s a p Hr Hi); apply (Hptr i); (done || lia)|].
    intros [] s1 (a1 & Hr1 & Hf1). run. eapply runs_need; [apply arr_set_in; lia|].
    apply (Hgo s1 a1 _ [p]); [done|done| |].
    { intros x. rewrite list_elem_of_singleton. split; [done|by intros [? _]]. }
    exists (<[Z.to_nat i := 0]> (direct ino)). split_and!; [done|by rewrite length_insert|].
    intros l. apply (arr_get_set (direct ino) _ i l 0). apply arr_set_in. lia.
Qed.
End truncate.

Section truncate2.
Context {D : Type} {HD : BlockDevice D} {HL : BlockDeviceLaws D}.
Implicit Types (s : fs D) (a : afs).

(** The loop over the pointers of the indirect block. *)
Lemma truncate_pointers_ok s a X a1 buf : rep s a1 -> freed a X a1 ->
  (forall l, 0 <= l < 128 -> le_get (4 * l) 4 buf <> 0 -> data_block (le_get (4 * l) 4 buf)) ->
  runs (for_ (Z.to_nat ARESFS_INDIRECT_PTRS) 0 (fun i =>
    let p := le_get (4 * i) 4 buf in if negb (p =? 0) then free_block p else mret tt)) s (fun _ s' =>
    exists a' Y, rep s' a' /\ freed a Y a' /\
      forall p, p ∈ Y <-> p ∈ X \/ p <> 0 /\ exists l, 0 <= l < 128 /\ le_get (4 * l) 4 buf = p).
Proof.
  intros Hr Hf Hptr. change (Z.to_nat ARESFS_INDIRECT_PTRS) with 128%nat.
  eapply runs_mono; [apply (runs_for (fun i t => exists a' Y, rep t a' /\ freed a Y a' /\
    forall p, p ∈ Y <-> p ∈ X \/ p <> 0 /\ exists l, 0 <= l < i /\ le_get (4 * l) 4 buf = p))|].
  - exists a1, X. split_and!; [done|done|]. intros p. split; [by left|]. intros [?|(_ & l & ? & _)]; [done|lia].
  - intros i t Hi (a2 & Y & Hr2 & Hf2 & HY).
    assert (Hstep : forall p, (exists l, 0 <= l < i + 1 /\ le_get (4 * l) 4 buf = p) <->
      (exists l, 0 <= l < i /\ le_get (4 * l) 4 buf = p) \/ p = le_get (4 * i) 4 buf).
    { intros p. split.
      - intros (l & Hl & E). destruct (Z.eq_dec l i) as [->|]; [by right|left]. exists l. split; [lia|done].
      - intros [(l & Hl & E)| ->]; [exists l; split; [lia|done]|exists i; split; [lia|done]]. }
    cbv zeta. destruct (Z.eqb_spec (le_get (4 * i) 4 buf) 0) as [E|E]; cbn [negb].
    + run. exists a2, Y. split_and!; [done|done|]. intros p. rewrite HY, Hstep, E.
      split; [intros [?|[? ?]]; [by left|by right; split; [done|left]]|intros [?|[? [?|?]]]; [by left|by right|done]].
    + eapply runs_mono; [apply (free_block_freed t a2 _ Hr2 (fr_inv _ _ _ Hf2)), Hptr; [lia|done]|].
      intros [] t' (a3 & Hr3 & Hf3). exists a3, (Y ++ [le_get (4 * i) 4 buf]). split_and!; [done|by eapply freed_app|].
      intros p. rewrite elem_of_app, HY, list_elem_of_singleton, Hstep.
      split; [intros [[?|[? ?]]| ->]; auto|intros [?|[? [?|?]]]; auto].
  - intros [] t (a' & Y & ? & ? & HY). exists a', Y. done.
Qed.

(** A file's pointers, by where they are stored. *)
Lemma owned_pointers a ino p : file_wf a ino ->
  owned a ino p <-> p <> 0 /\ ((exists l, 0 <= l < 12 /\ arr_get (direct ino) l = Some p) \/
    (indirect ino <> 0 /\ (p = indirect ino \/ exists l, 0 <= l < 128 /\ le_get (4 * l) 4 (a_blk a (indirect ino)) = p))).
Proof.
  intros Hwf. pose proof (fw_ino _ _ Hwf) as Hok. unfold owned, lblock_ok. change ARESFS_MAX_FILE_BLOCKS with 140.
  assert (Hd : forall l, 0 <= l < 12 -> arr_get (direct ino) l = Some (bmap a ino l)) by (intros; by apply bmap_direct).
  assert (Hi : forall l, 12 <= l -> bmap a ino l = if indirect ino =? 0 then 0 else le_get (4 * (l - 12)) 4 (a_blk a (indirect ino))).
  { intros l Hl. unfold bmap, ARESFS_DIRECT_BLOCKS. by rewrite (proj2 (Z.ltb_ge l 12)). }
  split; intros [Hp H]; (split; [done|]).
  - destruct H as [->|(l & Hl & E)]; [right; auto|]. destruct (Z.lt_ge_cases l 12).
    + left. exists l. rewrite Hd by lia. split; [lia|congruence].
    + rewrite Hi in E by done. destruct (Z.eqb_spec (indirect ino) 0); [done|]. right. split; [done|]. right. exists (l - 12). split; [lia|done].
  - destruct H as [(l & Hl & E)|[Hn [->|(l & Hl & E)]]]; [right|by left|right].
    + exists l. rewrite Hd in E by done. split; [lia|congruence].
    + exists (l + 12). rewrite Hi, (proj2 (Z.eqb_neq _ 0) Hn) by lia. split; [lia|]. by replace (l + 12 - 12) with l by lia.
Qed.

(** The inode after truncation. *)
Definition emptied (ino : aresfs_inode) : aresfs_inode := set_size 0 (set_indirect 0 (set_direct (replicate 12 0) ino)).

Lemma inode_truncate_ok s a ino : rep s a -> bitmaps_inv a -> file_wf a ino ->
  runs (inode_truncate ino) s (fun ino' s' => ino' = emptied ino /\
    exists a' X, rep s' a' /\ freed a X a' /\ forall j, j ∈ X <-> owned a ino j).
Proof.
  intros Hr Hi Hwf. pose proof (fw_ino _ _ Hwf) as Hok. destruct (io_direct _ Hok) as [Hdl _].
  assert (Hdata : forall p, owned a ino p -> data_block p) by (intros p Hp; apply (fw_used _ _ Hwf p Hp)).
  setoid_rewrite owned_pointers in Hdata; [|done]. unfold inode_truncate. change (Z.to_nat ARESFS_DIRECT_BLOCKS) with 12%nat.
  apply runs_bind. eapply runs_mono; [apply (truncate_direct_ok 12 0 s a ino Hr Hi); [lia|rewrite Hdl; lia|]|].
  { intros l p Hl E Hp. apply Hdata. split; [done|]. left. exists l. split; [lia|done]. }
  intros ino1 s1 (a1 & X1 & d & Hr1 & Hf1 & -> & Hd & Hdg & HX1). cbn [set_direct indirect].
  assert (d = replicate 12 0) as ->.
  { apply list_eq. intros k. destruct (decide (k < 12)%nat) as [Hk|Hk].
    - rewrite lookup_replicate_2 by done. specialize (Hdg (Z.of_nat k)). unfold arr_get in Hdg.
      rewrite (proj2 (Z.leb_le 0 _)), Nat2Z.id, (proj2 (Z.ltb_lt _ _)) in Hdg by lia. done.
    - rewrite (proj2 (lookup_ge_None d k)), (proj2 (lookup_ge_None (replicate 12 0) k)); [done|rewrite length_replicate; lia|lia]. }
  assert (HX : forall p, p ∈ X1 <-> p <> 0 /\ exists l, 0 <= l < 12 /\ arr_get (direct ino) l = Some p) by exact HX1.
  destruct (Z.eqb_spec (indirect ino) 0) as [E|E]; cbn [negb].
  - run. split; [unfold emptied, set_direct, set_indirect, set_size; cbn; by rewrite E|]. exists a1, X1. split_and!; [done|done|].
    intros j. rewrite HX, owned_pointers by done. split; [intros [? ?]; auto|intros [? [?|[? _]]]; done].
  - destruct (owned_block_ok a ino (indirect ino) Hwf) as (Hbk & _ & Hge); [by apply owned_ind|]. rewrite data_start in Hge.
    apply runs_bind. eapply runs_mono; [by apply block_read_ok|]. intros r s2 [-> Hr2]. rewrite bool_decide_true by done.
    rewrite (fr_blk _ _ _ Hf1) by (unfold ARESFS_BLOCK_BITMAP_BLOCK; lia). apply runs_bind.
    eapply runs_mono; [apply (truncate_pointers_ok s2 a X1 a1 _ Hr2 Hf1)|].
    { intros l Hl Hp. apply Hdata. split; [done|]. right. split; [done|]. right. eauto. }
    intros [] s3 (a3 & Y & Hr3 & Hf3 & HY). apply runs_bind.
    eapply runs_mono; [apply (free_block_freed s3 a3 (indirect ino) Hr3 (fr_inv _ _ _ Hf3))|].
    { apply Hdata. split; [done|]. right. auto. }
    intros [] s4 (a4 & Hr4 & Hf4). run. split; [done|]. exists a4, (Y ++ [indirect ino]). split_and!; [done|by eapply freed_app|].
    intros j. rewrite elem_of_app, HY, HX, list_elem_of_singleton, owned_pointers by done. split.
    + intros [[[? ?]|[? ?]]| ->]; auto.
    + intros [? [?|[_ [->|?]]]]; auto.
Qed.
End truncate2.

(** * Correctness of file bodies *)

Section claims.
Context {D : Type} {HD : BlockDevice D} {HL : BlockDeviceLaws D}.
Implicit Types (s : fs D) (a : afs).

(** Write to file [n], then read a window of it and the same window of file [m]. *)
Definition write_read2 (n m pos : Z) (src : list Z) (q c : Z) : prog (fs D) (Z * (Z * list Z) * (Z * list Z)) :=
  r ← inode_read n;
  match r with
  | inl _ => need None
  | inr i =>
      k ← file_write_body n i pos src;
      r1 ← inode_read n;
      r2 ← inode_read m;
      match r1, r2 with
      | inr i1, inr i2 =>
          x ← file_read_body i1 q c;
          y ← file_read_body i2 q c;
          mret (k, x, y)
      | _, _ => need None
      end
  end.

(** C6: [file_write_body] followed by [file_read_body].  A write of [src] at
    [pos] stores a prefix of [k] bytes of [src]; [k] is all of it up to the
    largest file size, unless the disk is full.  Reading any window of the file
    then gives exactly the new bytes inside the written range and the old bytes
    (zeros in holes) outside, up to the new size; reading any window of another
    file gives what it held before.  At or beyond the largest size the write
    is refused with -1. *)
Theorem file_write_then_read s a n m pos src q c :
  rep s a -> bitmaps_inv a -> inum_ok n -> inum_ok m -> n <> m ->
  file_wf a (a_inode a n) -> file_wf a (a_inode a m) ->
  (forall j, owned a (a_inode a m) j -> ~ owned a (a_inode a n) j) ->
  size (a_inode a n) <= MAXB * ARESFS_BLOCK_SIZE -> size (a_inode a m) <= MAXB * ARESFS_BLOCK_SIZE ->
  Forall byte_ok src -> 0 <= pos -> 0 <= q -> 0 <= c ->
  if pos <? MAXB * ARESFS_BLOCK_SIZE
  then runs (write_read2 n m pos src q c) s (fun r s' =>
    let '(k, x, y) := r in
    let want := Z.min (Z.of_nat (length src)) (MAXB * ARESFS_BLOCK_SIZE - pos) in
    let nx := Z.max 0 (Z.min c (Z.max (size (a_inode a n)) (pos + k) - q)) in
    let ny := Z.max 0 (Z.min c (size (a_inode a m) - q)) in
    0 <= k <= want /\ (k = want \/ exists a', rep s' a' /\ full a') /\
    x = (nx, (fun off => if (pos <=? off) && (off <? pos + k) then default 0 (arr_get src (off - pos))
                         else file_byte a (a_inode a n) off) <$> seqZ q nx) /\
    y = (ny, file_bytes a (a_inode a m) q ny))
  else file_write_body n (a_inode a n) pos src s = Some (-1, s).
Proof.
  intros Hr Hi Hn Hm Hne Hwn Hwm Hdis Hsn Hsm Hsrc Hpos Hq Hc. destruct (Z.ltb_spec pos (MAXB * ARESFS_BLOCK_SIZE)) as [Hlt|Hge].
  2:{ unfold file_write_body. by rewrite (proj2 (Z.leb_le _ _)). }
  unfold write_read2. apply runs_bind. eapply runs_mono; [by apply (inode_read_ok s a n)|]. intros r s0 [-> Hr0].
  apply runs_bind. eapply runs_mono; [by apply (file_write_body_ok s0 a n (a_inode a n) pos src)|].
  intros k s1 (a1 & ino1 & Hr1 & Hk & Hw & Hfin). unfold MAXB in *. change (ARESFS_MAX_FILE_BLOCKS * ARESFS_BLOCK_SIZE) with 71680 in *.
  apply runs_bind. eapply runs_mono; [by apply (inode_read_ok s1 a1 n)|]. intros r s2 [-> Hr2].
  apply runs_bind. eapply runs_mono; [by apply (inode_read_ok s2 a1 m)|]. intros r s3 [-> Hr3].
  rewrite !(wr_inode _ _ _ _ _ _ _ _ Hw), Z.eqb_refl, (proj2 (Z.eqb_neq m n)) by done.
  destruct (file_written_other _ _ _ _ _ _ _ _ (a_inode a m) Hw Hwm Hdis) as [Hwm' Hbm'].
  assert (Hwin : forall z off, z <= 71680 -> q <= off < q + Z.max 0 (Z.min c (z - q)) -> off_ok off).
  { intros z off Hz Hoff. unfold off_ok. change (ARESFS_MAX_FILE_BLOCKS * ARESFS_BLOCK_SIZE) with 71680. lia. }
  apply runs_bind. eapply runs_mono; [apply (file_read_body_ok s3 a1 ino1 q c); [done|apply Hw|done|done|]|].
  { rewrite (wr_size _ _ _ _ _ _ _ _ Hw). unfold MAXB. change (ARESFS_MAX_FILE_BLOCKS * ARESFS_BLOCK_SIZE) with 71680. lia. }
  intros x s4 [-> Hr4]. apply runs_bind. eapply runs_mono; [by apply (file_read_body_ok s4 a1 (a_inode a m) q c)|].
  intros y s5 [-> Hr5]. run. rewrite (wr_size _ _ _ _ _ _ _ _ Hw). split_and!; [lia|lia| | |].
  - destruct Hfin as [->|Hfull]; [by left|right]. eauto.
  - f_equal. unfold file_bytes. apply list_fmap_ext. intros i x Hx. apply lookup_seqZ in Hx as [-> Hx].
    rewrite (wr_bytes _ _ _ _ _ _ _ _ Hw); [by rewrite Z.add_0_r|].
    apply (Hwin (Z.max (size (a_inode a n)) (pos + k))); lia.
  - f_equal. apply file_bytes_ext. intros off Hoff. apply Hbm'. by apply (Hwin (size (a_inode a m))).
Qed.

(** [inode_truncate] frees exactly the blocks of the file, data blocks and
    indirect block, and clears its pointers and size; no other bit of the block
    bitmap, no block besides the bitmap and no file with other blocks changes. *)
Theorem inode_truncate_frees s a ino other :
  rep s a -> bitmaps_inv a -> file_wf a ino -> file_wf a other ->
  (forall j, owned a other j -> ~ owned a ino j) ->
  runs (inode_truncate ino) s (fun ino' s' => exists a', rep s' a' /\ bitmaps_inv a' /\
    ino' = set_size 0 (set_indirect 0 (set_direct (replicate 12 0) ino)) /\
    (forall j, bm_bit (a_bbm a') j = true <-> bm_bit (a_bbm a) j = true /\ ~ owned a ino j) /\
    (forall j, j <> ARESFS_BLOCK_BITMAP_BLOCK -> a_blk a' j = a_blk a j) /\
    file_wf a' other /\ forall off, off_ok off -> file_byte a' other off = file_byte a other off).
Proof.
  intros Hr Hi Hwf Hwo Hdis. eapply runs_mono; [by apply inode_truncate_ok|]. intros ino' s' (-> & a' & X & Hr' & Hf & HX).
  assert (Hbits : forall j, bm_bit (a_bbm a') j = true <-> bm_bit (a_bbm a) j = true /\ ~ owned a ino j).
  { intros j. rewrite (fr_bits _ _ _ Hf), andb_true_iff, negb_true_iff, bool_decide_eq_false, HX. done. }
  assert (Hblk : forall j, owned a other j -> a_blk a' j = a_blk a j).
  { intros j Hj. apply (fr_blk _ _ _ Hf). destruct (owned_block_ok a other j Hwo Hj) as (_ & Hgt & _).
    unfold ARESFS_INODE_BITMAP_BLOCK, ARESFS_BLOCK_BITMAP_BLOCK in *. lia. }
  assert (Hm : forall l, bmap a' other l = bmap a other l) by (intros l; apply bmap_ext; [done|done|]; intros; by apply Hblk, owned_ind).
  exists a'. split; [done|]. split; [apply Hf|]. split; [done|]. split; [done|]. split; [apply Hf|]. split.
  - split; [apply Hwo| | |].
    + intros j Hj. apply (owned_ext a a' other other j eq_refl Hm) in Hj. destruct (fw_used _ _ Hwo j Hj). split; [done|].
      apply Hbits. auto.
    + intros l Hl. rewrite Hm. by apply Hwo.
    + intros l l' Hl Hl'. rewrite !Hm. by apply Hwo.
  - intros off Hoff. apply file_byte_ext; [done|done|]. intros l Hl Hp. by apply Hblk, owned_bmap.
Qed.
End claims.

(** A file without blocks. *)
Lemma empty_file a ino : inode_ok ino -> direct ino = replicate 12 0 -> indirect ino = 0 ->
  (forall j, ~ owned a ino j) /\ file_wf a ino.
Proof.
  intros Hok Hd Hi. assert (Hm : forall l, bmap a ino l = 0).
  { intros l. unfold bmap. rewrite Hd, Hi. destruct (l <? ARESFS_DIRECT_BLOCKS); [|done]. unfold arr_get. destruct (0 <=? l); [|done].
    destruct (replicate 12 0 !! Z.to_nat l) as [x|] eqn:E; [|done]. by apply lookup_replicate in E as [-> _]. }
  assert (Hno : forall j, ~ owned a ino j).
  { intros j [Hj [->|(l & _ & E)]]; [by rewrite Hi in Hj|]. rewrite Hm in E. done. }
  split; [done|]. split; [done| | |].
  - intros j Hj. by destruct (Hno j).
  - intros l _. by rewrite Hm.
  - intros l l' _ _. by rewrite Hm.
Qed.

Lemma file_write_then_read_witness :
  runs (write_read2 2 3 510 [7; 8; 9] 509 100) demo_fs (fun r _ => r.1 = (3, (4, [0; 7; 8; 9])) \/ exists k, r.1.1 = k /\ k < 3).
Proof.
  assert (E2 : a_inode demo_afs 2 = zero_inode) by (vm_compute; reflexivity).
  assert (E3 : a_inode demo_afs 3 = zero_inode) by (vm_compute; reflexivity).
  destruct (empty_file demo_afs zero_inode zero_inode_ok eq_refl eq_refl) as [Hno Hwf].
  eapply runs_mono; [apply (file_write_then_read demo_fs demo_afs 2 3 510 [7; 8; 9] 509 100 demo_rep demo_bitmaps)|]; rewrite ?E2, ?E3.
  - unfold inum_ok. change ARESFS_INODE_COUNT with 512. lia.
  - unfold inum_ok. change ARESFS_INODE_COUNT with 512. lia.
  - lia.
  - exact Hwf.
  - exact Hwf.
  - intros j Hj. apply Hno.
  - vm_compute. discriminate.
  - vm_compute. discriminate.
  - repeat constructor; unfold byte_ok; lia.
  - lia.
  - lia.
  - lia.
  - intros [[k x] y] s' (Hk & _ & Hx & _). destruct (Z.eq_dec k 3) as [->|Hne].
    + left. cbn [fst]. rewrite Hx. f_equal.
    + right. exists k. split; [done|]. change (Z.min (Z.of_nat (length [7; 8; 9])) (MAXB * ARESFS_BLOCK_SIZE - 510)) with 3 in Hk. lia.
Defined.

Lemma inode_truncate_frees_witness :
  runs (inode_truncate (set_direct (132 :: replicate 11 0) zero_inode)) demo_fs (fun ino' s' => ino' = zero_inode /\
    bm_bit (g_block_bitmap s') 132 = false).
Proof.
  set (ino := set_direct (132 :: replicate 11 0) zero_inode).
  assert (Hmap : forall l, lblock_ok l -> bmap demo_afs ino l = if l =? 0 then 132 else 0).
  { intros l Hl. unfold bmap, arr_get. unfold lblock_ok in Hl. cbn [ino set_direct direct indirect zero_inode]. unfold ino.
    cbn [set_direct direct indirect zero_inode]. destruct (Z.ltb_spec l ARESFS_DIRECT_BLOCKS).
    - rewrite (proj2 (Z.leb_le 0 l)) by lia. destruct (Z.eqb_spec l 0) as [->|]; [done|].
      destruct (Z.to_nat l) as [|k] eqn:E; [lia|]. cbn [lookup list_lookup]. destruct (replicate 11 0 !! k) as [x|] eqn:Ex; [|done].
      by apply lookup_replicate in Ex as [-> _].
    - rewrite (proj2 (Z.eqb_neq l 0)) by (unfold ARESFS_DIRECT_BLOCKS in *; lia). done. }
  assert (Hino : inode_ok ino).
  { apply set_direct_ok; [apply zero_inode_ok|done|]. constructor; [unfold field_ok; lia|]. apply Forall_replicate. unfold field_ok. lia. }
  assert (Hown : forall j, owned demo_afs ino j -> j = 132).
  { intros j [Hj [->|(l & Hl & E)]]; [done|]. rewrite Hmap in E by done. destruct (l =? 0); congruence. }
  assert (Hwf : file_wf demo_afs ino).
  { split; [done| | |].
    - intros j ->%Hown. split; [rewrite data_start; unfold ARESFS_TOTAL_BLOCKS; lia|vm_compute; reflexivity].
    - intros l Hl Hp. done.
    - intros l l' Hl Hl'. rewrite !Hmap by done. destruct (Z.eqb_spec l 0), (Z.eqb_spec l' 0); subst; try done. }
  destruct (empty_file demo_afs zero_inode zero_inode_ok eq_refl eq_refl) as [Hno Hwz].
  eapply runs_mono; [apply (inode_truncate_frees demo_fs demo_afs ino zero_inode demo_rep demo_bitmaps Hwf Hwz)|].
  - intros j Hj. by destruct (Hno j).
  - intros ino' s' (a' & Hr' & _ & -> & Hbits & _). split; [reflexivity|]. rewrite (rep_bbm _ _ Hr').
    apply not_true_iff_false. intros Hb%Hbits. apply Hb. split; [done|]. right. exists 0. split; [|apply Hmap];
      unfold lblock_ok; change ARESFS_MAX_FILE_BLOCKS with 140; lia.
Defined.

End FsFile.
