(* ===== verification/FsDir.v ===== *)
(** fs/aresfs.c, directories and paths: directory entries in data blocks, the
    walk over them, lookup, insertion and removal of names, resolution of
    slash-separated paths.

    A C string is the list of its characters from the pointer on, up to and
    including the terminating NUL and whatever memory follows; running off the
    end of the list is an access outside the object. *)
From S2P Require Import Prelude Interfaces Bytes RamDisk FsDisk FsFile.
Import RamDisk FsDisk FsFile.

Module FsDir.

Definition ARESFS_NAME_MAX : Z := 55.
Definition ARESFS_DIRENT_SIZE : Z := 60.
Definition ARESFS_DIRENTS_PER_BLOCK : Z := ARESFS_BLOCK_SIZE / ARESFS_DIRENT_SIZE.
Definition SLASH : Z := 47.

(** * Strings *)

Fixpoint fs_strlen (s : list Z) : option Z :=
  match s with
  | [] => None
  | c :: s => if c =? 0 then Some 0 else n ← fs_strlen s; Some (n + 1)
  end.

Fixpoint fs_strcmp (a b : list Z) : option Z :=
  match a, b with
  | x :: a, y :: b => if negb (x =? 0) && (x =? y) then fs_strcmp a b else Some (u8 x - u8 y)
  | _, _ => None
  end.

(** * Directory entries: a 4-byte inode number and a 56-byte name *)

(** [dirent_set_name(&des[slot], name)] on the block [buf]. *)
Definition dirent_set_name (buf : list Z) (slot : Z) (name : list Z) : option (list Z) :=
  let at_ := slot * ARESFS_DIRENT_SIZE + 4 in
  let buf := splice at_ (replicate 56 0) buf in
  n ← fs_strlen name;
  let n := if ARESFS_NAME_MAX <? n then ARESFS_NAME_MAX else n in
  Some (splice at_ (take (Z.to_nat n) name) buf).

(** [des[slot].inode = child] and the name. *)
Definition dirent_put (buf : list Z) (slot child : Z) (name : list Z) : option (list Z) :=
  dirent_set_name (le_put (slot * ARESFS_DIRENT_SIZE) 4 child buf) slot name.

(** The two predicates passed to [dir_walk]; the argument is memory from the
    entry on. *)
Definition match_by_name (target de : list Z) : option bool :=
  if le_get 0 4 de =? ARESFS_INODE_INVALID then Some false
  else c ← fs_strcmp (drop 4 de) target; Some (c =? 0).

Definition match_empty_slot (de : list Z) : option bool := Some (le_get 0 4 de =? ARESFS_INODE_INVALID).

Definition DOT : list Z := [46; 0].
Definition DOTDOT : list Z := [46; 46; 0].

(** A directory block with the entries "." and "..". *)
Definition dots_block (self parent : Z) : option (list Z) :=
  buf ← dirent_put zero_block 0 self DOT;
  dirent_put buf 1 parent DOTDOT.

(** A new directory's inode, over a zeroed structure. *)
Definition new_dir_inode (blk : Z) : aresfs_inode :=
  set_direct (blk :: replicate 11 0) (set_size ARESFS_BLOCK_SIZE (set_mode (Z.lor ARESFS_TYPE_DIR ARESFS_PERM_DEFAULT) zero_inode)).

Definition is_dir (ino : aresfs_inode) : bool := Z.land (mode ino) ARESFS_TYPE_MASK =? ARESFS_TYPE_DIR.

Section defs.
Context {D : Type} {HD : BlockDevice D}.

(** The inner loop over the entries of one block. *)
Definition walk_block (mtch : list Z -> option bool) (blk : Z) (buf : list Z) : prog (fs D) (option (Z * Z * list Z)) :=
  for_ret (Z.to_nat ARESFS_DIRENTS_PER_BLOCK) 0 (fun s =>
    m ← need (mtch (drop (Z.to_nat (s * ARESFS_DIRENT_SIZE)) buf));
    if (m : bool) then mret (Some (blk, s, slice (s * ARESFS_DIRENT_SIZE) ARESFS_DIRENT_SIZE buf)) else mret None).

(** Block, slot and copy of the first matching entry. *)
Definition dir_walk (dir_inode_num : Z) (mtch : list Z -> option bool) : prog (fs D) (option (Z * Z * list Z)) :=
  r ← inode_read dir_inode_num;
  match r with
  | inl _ => mret None
  | inr dir =>
      if negb (is_dir dir) then mret None
      else
        for_ret (Z.to_nat ARESFS_DIRECT_BLOCKS) 0 (fun i =>
          blk ← need (arr_get (direct dir) i);
          if blk =? 0 then mret None
          else
            '(st, buf) ← block_read blk zero_block;
            if bool_decide (st <> ARES_OK) then mret None
            else walk_block mtch blk buf)
  end.

Definition dir_find_entry (dir_inode_num : Z) (name : list Z) : prog (fs D) Z :=
  r ← dir_walk dir_inode_num (match_by_name name);
  match r with
  | None => mret ARESFS_INODE_INVALID
  | Some (_, _, de) => mret (le_get 0 4 de)
  end.

(** The second pass of [dir_add_entry]: a new block behind the first unused
    direct pointer. *)
Definition dir_add_block (dir_inode_num : Z) (dir : aresfs_inode) (name : list Z) (child_inode : Z) : prog (fs D) ares_status :=
  r ← for_ret (Z.to_nat ARESFS_DIRECT_BLOCKS) 0 (fun i =>
    p ← need (arr_get (direct dir) i);
    if negb (p =? 0) then mret None
    else
      b ← alloc_block;
      if b =? 0 then mret (Some ARES_ENOMEM)
      else
        buf ← need (dirent_put zero_block 0 child_inode name);
        st ← block_write b buf;
        if bool_decide (st <> ARES_OK) then _ ← free_block b; mret (Some st)
        else
          d ← need (arr_set (direct dir) i b);
          st ← inode_write dir_inode_num (set_size (u64 (size dir + ARESFS_BLOCK_SIZE)) (set_direct d dir));
          mret (Some st));
  match r with
  | Some st => mret st
  | None => mret ARES_ENOMEM
  end.

Definition dir_add_entry (dir_inode_num : Z) (name : list Z) (child_inode : Z) : prog (fs D) ares_status :=
  f ← dir_find_entry dir_inode_num name;
  if negb (f =? ARESFS_INODE_INVALID) then mret ARES_EBUSY
  else
    r ← inode_read dir_inode_num;
    match r with
    | inl st => mret st
    | inr dir =>
        if negb (is_dir dir) then mret ARES_EINVAL
        else
          w ← dir_walk dir_inode_num match_empty_slot;
          match w with
          | Some (blk, slot, _) =>
              '(st, buf) ← block_read blk zero_block;
              if bool_decide (st <> ARES_OK) then mret ARES_ERROR
              else
                buf ← need (dirent_put buf slot child_inode name);
                block_write blk buf
          | None => dir_add_block dir_inode_num dir name child_inode
          end
    end.

Definition dir_remove_entry (dir_inode_num : Z) (name : list Z) : prog (fs D) ares_status :=
  w ← dir_walk dir_inode_num (match_by_name name);
  match w with
  | None => mret ARES_ENODEV
  | Some (blk, slot, _) =>
      '(st, buf) ← block_read blk zero_block;
      if bool_decide (st <> ARES_OK) then mret st
      else
        let buf := le_put (slot * ARESFS_DIRENT_SIZE) 4 ARESFS_INODE_INVALID buf in
        block_write blk (splice (slot * ARESFS_DIRENT_SIZE + 4) (replicate 56 0) buf)
  end.
End defs.

(** * Paths *)

(** [while ( *path == '/') path++;] *)
Fixpoint skip_slashes (path : list Z) : option (list Z) :=
  match path with
  | [] => None
  | c :: rest => if c =? SLASH then skip_slashes rest else Some path
  end.

(** Copies one component to [name]: [Some None] is the [return] on a component
    of more than 55 characters, otherwise the component and the rest of the
    path. *)
Fixpoint component (i : Z) (path : list Z) : option (option (list Z * list Z)) :=
  match path with
  | [] => None
  | c :: rest =>
      if negb (c =? SLASH) && negb (c =? 0) then
        if ARESFS_NAME_MAX <=? i then Some None
        else
          r ← component (i + 1) rest;
          Some (match r with None => None | Some (nm, rest') => Some (c :: nm, rest') end)
      else Some (Some ([], path))
  end.

Section paths.
Context {D : Type} {HD : BlockDevice D}.

(** The loop of [lookup_path]; every round consumes a component. *)
Fixpoint lookup_loop (fuel : nat) (cur : Z) (path : list Z) : prog (fs D) Z :=
  match fuel with
  | O => need None
  | S fuel =>
      c ← need (head path);
      if negb (c =? 0) then
        r ← need (component 0 path);
        match r with
        | None => mret ARESFS_INODE_INVALID
        | Some (name, rest) =>
            rest ← need (skip_slashes rest);
            cur ← dir_find_entry cur (name ++ [0]);
            if cur =? ARESFS_INODE_INVALID then mret ARESFS_INODE_INVALID else lookup_loop fuel cur rest
        end
      else mret cur
  end.

(** A null pointer is [None]. *)
Definition lookup_path (path : option (list Z)) : prog (fs D) Z :=
  match path with
  | None => mret ARESFS_INODE_INVALID
  | Some path =>
      p ← need (skip_slashes path);
      c ← need (head p);
      if c =? 0 then mret ARESFS_ROOT_INODE else lookup_loop (length path) ARESFS_ROOT_INODE p
  end.

(** The loop of [split_parent_leaf]: [None] is [return false], otherwise the
    parent and the leaf name at the end of the loop. *)
Fixpoint split_loop (fuel : nat) (parent : Z) (leaf p : list Z) : prog (fs D) (option (Z * list Z)) :=
  match fuel with
  | O => need None
  | S fuel =>
      c ← need (head p);
      if negb (c =? 0) then
        r ← need (component 0 p);
        match r with
        | None => mret None
        | Some (name, rest) =>
            let leaf := name ++ [0] in
            c1 ← need (head rest);
            rest' ← need (skip_slashes rest);
            c2 ← need (head rest');
            if negb (c1 =? SLASH) || (c2 =? 0) then mret (Some (parent, leaf))
            else
              next ← dir_find_entry parent leaf;
              if next =? ARESFS_INODE_INVALID then mret None
              else
                t ← inode_read next;
                match t with
                | inl _ => mret None
                | inr tmp => if negb (is_dir tmp) then mret None else split_loop fuel next leaf rest'
                end
        end
      else mret (Some (parent, leaf))
  end.

Definition split_parent_leaf (path : option (list Z)) : prog (fs D) (option (Z * list Z)) :=
  match path with
  | None => mret None
  | Some path =>
      c ← need (head path);
      if c =? 0 then mret None
      else
        p ← need (skip_slashes path);
        c ← need (head p);
        if c =? 0 then mret None
        else
          r ← split_loop (length path) ARESFS_ROOT_INODE [0] p;
          match r with
          | None => mret None
          | Some (parent, leaf) =>
              l0 ← need (head leaf);
              if l0 =? 0 then mret None else mret (Some (parent, leaf))
          end
  end.
End paths.

(** * Strings and slots *)

Definition char_ok (c : Z) : Prop := 0 < c < 2 ^ 8.
Definition name_ok (nm : list Z) : Prop := Forall char_ok nm /\ (length nm <= 55)%nat.

Lemma strlen_ok x r : Forall char_ok x -> fs_strlen (x ++ 0 :: r) = Some (Z.of_nat (length x)).
Proof.
  induction 1 as [|c x Hc Hx IH]; [done|]. cbn [app fs_strlen length]. unfold char_ok in Hc.
  rewrite (proj2 (Z.eqb_neq c 0)) by lia. rewrite IH. cbn. f_equal. lia.
Qed.

(** Two strings compare equal exactly when they are. *)
Lemma strcmp_ok x : forall y ra rb, Forall char_ok x -> Forall char_ok y ->
  exists c, fs_strcmp (x ++ 0 :: ra) (y ++ 0 :: rb) = Some c /\ (c = 0 <-> x = y).
Proof.
  induction x as [|c x IH]; intros [|d y] ra rb Hx Hy; cbn [app fs_strcmp].
  - exists 0. done.
  - apply Forall_cons in Hy as [Hd _]. unfold char_ok in Hd. cbn [Z.eqb negb andb]. eexists. split; [done|].
    rewrite !wrap_small by lia. split; [intros ?; exfalso; lia|done].
  - apply Forall_cons in Hx as [Hc _]. unfold char_ok in Hc. rewrite andb_comm. rewrite (proj2 (Z.eqb_neq c 0)) by lia. cbn [andb].
    eexists. split; [done|]. rewrite !wrap_small by lia. split; [intros ?; exfalso; lia|done].
  - apply Forall_cons in Hx as [Hc Hx], Hy as [Hd Hy]. unfold char_ok in Hc, Hd. rewrite (proj2 (Z.eqb_neq c 0)) by lia.
    cbn [negb andb]. destruct (Z.eqb_spec c d) as [->|Hne].
    + destruct (IH y ra rb Hx Hy) as (e & -> & He). exists e. split; [done|]. rewrite He. split; [by intros ->|by intros [= ->]].
    + eexists. split; [done|]. rewrite !wrap_small by lia. split; [intros ?; exfalso; lia|congruence].
Qed.

Definition slot_ok (s : Z) : Prop := 0 <= s < 8.
Definition slot_ino (buf : list Z) (s : Z) : Z := le_get (s * ARESFS_DIRENT_SIZE) 4 buf.
Definition slot_name (buf : list Z) (s : Z) (nm : list Z) : Prop :=
  Forall char_ok nm /\ exists rest, slice (s * ARESFS_DIRENT_SIZE + 4) 56 buf = nm ++ 0 :: rest.

Lemma name_unique x : forall y ra rb, Forall char_ok x -> Forall char_ok y -> x ++ 0 :: ra = y ++ 0 :: rb -> x = y.
Proof.
  induction x as [|c x IH]; intros [|d y] ra rb Hx Hy E; try done.
  - apply Forall_cons in Hy as [Hd _]. injection E as E0 _. unfold char_ok in Hd. lia.
  - apply Forall_cons in Hx as [Hc _]. injection E as E0 _. unfold char_ok in Hc. lia.
  - apply Forall_cons in Hx as [_ Hx], Hy as [_ Hy]. injection E as -> E. f_equal. by eapply IH.
Qed.

Lemma slot_name_unique buf s x y : slot_name buf s x -> slot_name buf s y -> x = y.
Proof. intros [Hx [ra Ea]] [Hy [rb Eb]]. rewrite Ea in Eb. by eapply name_unique. Qed.

Lemma slice_drop off n k l : 0 <= off -> slice off n (drop k l) = slice (Z.of_nat k + off) n l.
Proof. intros. unfold slice. rewrite drop_drop. do 2 f_equal. lia. Qed.

(** What the walk sees at slot [s]: the entry's inode, and its name followed by
    the rest of the block. *)
Lemma slot_view buf s : slot_ok s -> length buf = 512%nat ->
  let de := drop (Z.to_nat (s * ARESFS_DIRENT_SIZE)) buf in
  le_get 0 4 de = slot_ino buf s /\
  (forall nm, slot_name buf s nm -> exists rest, drop 4 de = nm ++ 0 :: rest) /\
  le_get 0 4 (slice (s * ARESFS_DIRENT_SIZE) ARESFS_DIRENT_SIZE buf) = slot_ino buf s.
Proof.
  intros Hs Hl de. unfold slot_ok in Hs. unfold ARESFS_DIRENT_SIZE in *. split; [|split].
  - unfold le_get, slot_ino, de, le_get, ARESFS_DIRENT_SIZE. rewrite slice_drop by lia. do 2 f_equal. lia.
  - intros nm [_ [rest E]]. exists (rest ++ drop 60 de). unfold ARESFS_DIRENT_SIZE, slice in E.
    replace (drop (Z.to_nat (s * 60 + 4)) buf) with (drop 4 de) in E by (unfold de; rewrite drop_drop; f_equal; lia).
    rewrite <- (take_drop 56 (drop 4 de)). change (Z.to_nat 56) with 56%nat in E. rewrite E, drop_drop.
    rewrite <- app_assoc. done.
  - unfold slot_ino, le_get, slice, ARESFS_DIRENT_SIZE. rewrite drop_0, take_take. done.
Qed.

(** Storing an entry: the slot holds it, the other slots are as before. *)
Lemma dirent_put_ok buf s child nm : slot_ok s -> blk_ok buf -> name_ok nm -> field_ok 4 child ->
  exists buf', dirent_put buf s child (nm ++ [0]) = Some buf' /\ blk_ok buf' /\ slot_ino buf' s = child /\ slot_name buf' s nm /\
    forall t, slot_ok t -> t <> s -> slot_ino buf' t = slot_ino buf t /\ forall x, slot_name buf' t x <-> slot_name buf t x.
Proof.
  intros Hs [Hl Hb] [Hnm Hlen] Hc. unfold dirent_put, dirent_set_name. rewrite strlen_ok by done. cbn [mbind option_bind].
  unfold ARESFS_NAME_MAX. rewrite (proj2 (Z.ltb_ge 55 _)) by lia. rewrite Nat2Z.id, take_app_length.
  set (b1 := le_put (s * ARESFS_DIRENT_SIZE) 4 child buf). set (b2 := splice (s * ARESFS_DIRENT_SIZE + 4) (replicate 56 0) b1).
  unfold slot_ok, ARESFS_DIRENT_SIZE in *.
  assert (H1 : length b1 = 512%nat) by (unfold b1; rewrite le_put_length; lia).
  assert (H2 : length b2 = 512%nat) by (unfold b2; rewrite splice_length; rewrite ?length_replicate; lia).
  assert (Hb1 : Forall byte_ok b1) by (by apply le_put_byte_ok).
  assert (Hb2 : Forall byte_ok b2) by (apply byte_ok_splice; [apply Forall_replicate; unfold byte_ok; lia|done]).
  eexists. split; [done|]. set (b3 := splice (s * 60 + 4) nm b2).
  assert (H3 : forall off n, 0 <= off -> 0 <= n -> off + n <= s * 60 + 4 \/ s * 60 + 60 <= off -> slice off n b3 = slice off n b1).
  { intros off n Ho Hn Hd. unfold b3, b2. rewrite slice_splice_ne; [|lia|lia|lia|fold b2; lia|lia].
    apply slice_splice_ne; rewrite ?length_replicate; lia. }
  split_and!.
  - split; [unfold b3; rewrite splice_length; lia|]. apply byte_ok_splice; [|done].
    eapply Forall_impl; [exact Hnm|]. intros c Hch. unfold char_ok, byte_ok in *. lia.
  - unfold slot_ino, le_get, ARESFS_DIRENT_SIZE. rewrite H3 by lia. apply (le_get_put (s * 60) 4 child buf); (done || lia).
  - split; [done|]. exists (replicate (55 - length nm) 0). unfold ARESFS_DIRENT_SIZE. apply list_eq. intros i.
    destruct (decide (i < 56)%nat) as [Hi|Hi].
    + rewrite slice_lookup by lia. unfold b3. rewrite splice_lookup by lia.
      destruct (decide (i < length nm)%nat) as [Hin|Hin].
      * rewrite decide_True by lia. rewrite lookup_app_l by done. f_equal. lia.
      * rewrite decide_False by lia. unfold b2. rewrite splice_lookup by (rewrite ?length_replicate; lia).
        rewrite decide_True by (rewrite length_replicate; lia). rewrite lookup_app_r by lia.
        rewrite lookup_replicate_2 by lia. destruct (i - length nm)%nat as [|k] eqn:Ek; [done|].
        cbn [lookup list_lookup]. symmetry. apply lookup_replicate_2. lia.
    + rewrite slice_lookup_ge by lia. symmetry. apply lookup_ge_None_2. rewrite length_app. cbn [length]. rewrite length_replicate. lia.
  - intros t Ht Hne.
    assert (Hd : forall off n, 0 <= off -> 0 <= n -> off + n <= s * 60 \/ s * 60 + 60 <= off -> slice off n b3 = slice off n buf).
    { intros off n Ho Hn Hdis. rewrite H3 by lia. unfold b1, le_put. apply slice_splice_ne; try lia; rewrite ?le_length by lia; lia. }
    split.
    + unfold slot_ino, le_get, ARESFS_DIRENT_SIZE. by rewrite Hd by lia.
    + intros x. unfold slot_name, ARESFS_DIRENT_SIZE. by rewrite Hd by lia.
Qed.

(** * Directories as maps from names to inode numbers *)

(** [blk] is one of the directory's blocks. *)
Definition dir_block (dir : aresfs_inode) (blk : Z) : Prop := blk <> 0 /\ exists i, arr_get (direct dir) i = Some blk.

(** Entry [s] of block [blk] names inode [k] as [nm]. *)
Definition dir_entry (a : afs) (dir : aresfs_inode) (blk s : Z) (nm : list Z) (k : Z) : Prop :=
  dir_block dir blk /\ slot_ok s /\ slot_ino (a_blk a blk) s = k /\ k <> 0 /\ slot_name (a_blk a blk) s nm.

Definition dir_maps (a : afs) (dir : aresfs_inode) (nm : list Z) (k : Z) : Prop := exists blk s, dir_entry a dir blk s nm k.

(** A directory: its blocks are distinct data blocks in use, its used entries
    have terminated names, and no name occurs twice. *)
Record dir_wf (a : afs) (dir : aresfs_inode) : Prop := {
  dw_ino : inode_ok dir;
  dw_dir : is_dir dir = true;
  dw_used blk : dir_block dir blk -> data_used a blk;
  dw_inj i j blk : blk <> 0 -> arr_get (direct dir) i = Some blk -> arr_get (direct dir) j = Some blk -> i = j;
  dw_name blk s : dir_block dir blk -> slot_ok s -> slot_ino (a_blk a blk) s <> 0 -> exists nm, slot_name (a_blk a blk) s nm;
  dw_uniq b1 s1 b2 s2 nm k1 k2 : dir_entry a dir b1 s1 nm k1 -> dir_entry a dir b2 s2 nm k2 -> b1 = b2 /\ s1 = s2 }.

Lemma dir_block_ok a dir blk : dir_wf a dir -> dir_block dir blk -> block_ok blk /\ ARESFS_INODE_BITMAP_BLOCK < blk.
Proof.
  intros Hd Hb. destruct (dw_used _ _ Hd blk Hb) as [H _]. rewrite data_start in H. unfold block_ok, ARESFS_INODE_BITMAP_BLOCK. lia.
Qed.

Lemma dir_maps_unique a dir nm k k' : dir_wf a dir -> dir_maps a dir nm k -> dir_maps a dir nm k' -> k = k'.
Proof.
  intros Hd (b & s & H) (b' & s' & H'). destruct (dw_uniq _ _ Hd _ _ _ _ _ _ _ H H') as [-> ->].
  destruct H as (_ & _ & <- & _), H' as (_ & _ & <- & _). done.
Qed.

Section dirs.
Context {D : Type} {HD : BlockDevice D} {HL : BlockDeviceLaws D}.
Implicit Types (s : fs D) (a : afs).

(** The match function's verdict on entry [t] of block [blk]. *)
Definition verdict (mtch : list Z -> option bool) (a : afs) (blk t : Z) : option bool :=
  mtch (drop (Z.to_nat (t * ARESFS_DIRENT_SIZE)) (a_blk a blk)).

(** A walk over a directory: it stops at an entry that matches, and reports
    none only if no entry matches. *)
Lemma dir_walk_ok mtch s a n : rep s a -> inum_ok n -> dir_wf a (a_inode a n) ->
  (forall blk t, dir_block (a_inode a n) blk -> slot_ok t -> is_Some (verdict mtch a blk t)) ->
  runs (dir_walk n mtch) s (fun r s' => rep s' a /\
    match r with
    | Some (blk, t, de) => dir_block (a_inode a n) blk /\ slot_ok t /\ verdict mtch a blk t = Some true /\
        de = slice (t * ARESFS_DIRENT_SIZE) ARESFS_DIRENT_SIZE (a_blk a blk)
    | None => forall blk t, dir_block (a_inode a n) blk -> slot_ok t -> verdict mtch a blk t = Some false
    end).
Proof.
  intros Hr Hn Hd Hm. set (dir := a_inode a n) in *. unfold dir_walk. run. eapply runs_mono; [by apply (inode_read_ok s a n)|].
  intros r s1 [-> Hr1]. fold dir. rewrite (dw_dir _ _ Hd). cbn [negb]. change (Z.to_nat ARESFS_DIRECT_BLOCKS) with 12%nat.
  destruct (io_direct _ (dw_ino _ _ Hd)) as [Hlen _].
  apply (runs_for_ret (fun j t => rep t a /\ forall i blk sl, 0 <= i < j -> arr_get (direct dir) i = Some blk -> blk <> 0 -> slot_ok sl ->
    verdict mtch a blk sl = Some false)).
  - split; [done|]. intros. lia.
  - intros j t Hj [Ht Hprev]. destruct (arr_get_in (direct dir) j) as [blk Hblk]; [lia|]. run. eapply runs_need; [exact Hblk|].
    destruct (Z.eqb_spec blk 0) as [E|E].
    { run. split; [done|]. intros i b sl Hi Hb Hne. destruct (Z.eq_dec i j) as [->|]; [congruence|]. apply (Hprev i); [lia|done|done]. }
    assert (Hdb : dir_block dir blk) by (split; eauto). destruct (dir_block_ok a dir blk Hd Hdb) as [Hbk _].
    run. eapply runs_mono; [by apply (block_read_ok t a)|]. intros r t1 [-> Ht1]. rewrite bool_decide_false by (intros H'; by apply H').
    unfold walk_block. change (Z.to_nat ARESFS_DIRENTS_PER_BLOCK) with 8%nat.
    apply (runs_for_ret (fun k u => rep u a /\ forall sl, 0 <= sl < k -> verdict mtch a blk sl = Some false)).
    + split; [done|]. intros. lia.
    + intros k u Hk [Hu Hsl]. assert (Hkok : slot_ok k) by (unfold slot_ok; lia). destruct (Hm blk k Hdb Hkok) as [v Hv].
      run. eapply runs_need; [exact Hv|]. destruct v; run.
      * split; [done|]. split_and!; try done.
      * split; [done|]. intros sl Hsl'. destruct (Z.eq_dec sl k) as [->|]; [done|]. apply Hsl. lia.
    + intros u [Hu Hall]. split; [done|]. intros i b sl Hi Hb Hne Hsl. destruct (Z.eq_dec i j) as [->|].
      * assert (b = blk) as -> by congruence. apply Hall. unfold slot_ok in Hsl. lia.
      * apply (Hprev i); [lia|done|done|done].
  - intros t [Ht Hall]. split; [done|]. intros blk sl [Hne [i Hi]] Hsl. apply (Hall i); [|done|done|done].
    pose proof (arr_get_Some _ _ _ Hi). lia.
Qed.

Lemma verdict_name a dir blk t nm : length (a_blk a blk) = 512%nat -> dir_wf a dir -> dir_block dir blk -> slot_ok t -> name_ok nm ->
  exists v, verdict (match_by_name (nm ++ [0])) a blk t = Some v /\ (v = true <-> exists k, dir_entry a dir blk t nm k).
Proof.
  intros Hl Hd Hb Ht [Hnm _]. destruct (slot_view (a_blk a blk) t Ht Hl) as (Hi & Hn & _). unfold verdict, match_by_name.
  rewrite Hi. unfold ARESFS_INODE_INVALID. destruct (Z.eqb_spec (slot_ino (a_blk a blk) t) 0) as [E|E].
  - exists false. split; [done|]. split; [done|]. intros (k & _ & _ & <- & ? & _). done.
  - destruct (dw_name _ _ Hd blk t Hb Ht E) as [x Hx]. destruct (Hn x Hx) as [rest ->].
    destruct (strcmp_ok x nm rest [] (proj1 Hx) Hnm) as (c & -> & Hc). cbn [mbind option_bind]. eexists. split; [done|].
    rewrite Z.eqb_eq, Hc. split.
    + intros ->. eexists. split_and!; [done|done|..|done|done]; apply Ht || done.
    + intros (k & _ & _ & _ & _ & Hx'). by eapply slot_name_unique.
Qed.

(** Looking a name up gives the inode it maps to, or 0 if there is none. *)
Lemma dir_find_entry_ok s a n nm : rep s a -> inum_ok n -> dir_wf a (a_inode a n) -> name_ok nm ->
  runs (dir_find_entry n (nm ++ [0])) s (fun k s' => rep s' a /\
    if k =? 0 then forall k', ~ dir_maps a (a_inode a n) nm k' else dir_maps a (a_inode a n) nm k).
Proof.
  intros Hr Hn Hd Hnm. assert (Hlen : forall blk, dir_block (a_inode a n) blk -> length (a_blk a blk) = 512%nat).
  { intros blk Hb. eapply rep_blk_ok; [exact Hr|]. by eapply dir_block_ok. }
  unfold dir_find_entry. run. eapply runs_mono; [apply (dir_walk_ok _ s a n Hr Hn Hd)|].
  { intros blk t Hb Ht. destruct (verdict_name a (a_inode a n) blk t nm) as (v & -> & _); auto. }
  intros [[[blk t] de]|] s' [Hr' Hw].
  - destruct Hw as (Hb & Ht & Hv & ->). run. split; [done|].
    destruct (slot_view (a_blk a blk) t Ht (Hlen _ Hb)) as (_ & _ & ->).
    destruct (verdict_name a (a_inode a n) blk t nm) as (v & Hv' & Hiff); auto. rewrite Hv in Hv'. injection Hv' as <-.
    destruct (proj1 Hiff eq_refl) as (k & He). pose proof He as (_ & _ & -> & Hk & _).
    rewrite (proj2 (Z.eqb_neq k 0) Hk). by exists blk, t.
  - run. split; [done|]. unfold ARESFS_INODE_INVALID. rewrite Z.eqb_refl. intros k' (blk & t & He). pose proof He as (Hb & Ht & _).
    destruct (verdict_name a (a_inode a n) blk t nm) as (v & Hv' & Hiff); auto. rewrite Hw in Hv' by done. injection Hv' as <-.
    discriminate (proj2 Hiff (ex_intro _ k' He)).
Qed.
End dirs.

(** * Adding an entry *)

(** What adding [nm -> child] to directory [n] does to the disk. *)
Record dir_added (a : afs) (n : Z) (nm : list Z) (child : Z) (a' : afs) : Prop := {
  da_inv : bitmaps_inv a';
  da_wf : dir_wf a' (a_inode a' n);
  da_maps x k : dir_maps a' (a_inode a' n) x k <-> (x = nm /\ k = child) \/ dir_maps a (a_inode a n) x k;
  da_inode m : inum_ok m -> m <> n -> a_inode a' m = a_inode a m;
  da_mode : mode (a_inode a' n) = mode (a_inode a n);
  da_bits j : bm_bit (a_bbm a) j = true -> bm_bit (a_bbm a') j = true;
  da_frame j : data_used a j -> ~ dir_block (a_inode a n) j -> a_blk a' j = a_blk a j;
  da_block j : dir_block (a_inode a' n) j -> dir_block (a_inode a n) j \/ bm_bit (a_bbm a) j = false;
  da_cache : (a_sb a', a_ibm a', a_mounted a', a_fds a') = (a_sb a, a_ibm a, a_mounted a, a_fds a) }.

Lemma slot_ino_zero s : slot_ok s -> slot_ino zero_block s = 0.
Proof. intros Hs. unfold slot_ino. apply le_get_zero; unfold slot_ok, ARESFS_DIRENT_SIZE in *; lia. Qed.

#[export] Instance dir_block_dec dir blk : Decision (dir_block dir blk).
Proof.
  destruct (decide (blk = 0)) as [->|Hne]; [right; by intros [? _]|]. destruct (decide (blk ∈ direct dir)) as [Hin|Hni].
  - left. split; [done|]. apply list_elem_of_lookup in Hin as [i Hi]. exists (Z.of_nat i). unfold arr_get.
    rewrite (proj2 (Z.leb_le 0 _)), Nat2Z.id by lia. done.
  - right. intros [_ [i Hi]]. by apply Hni, arr_get_elem with i.
Qed.

(** The directory's entries when one slot, empty before, was filled: [dir'] has
    the blocks of [dir] and perhaps the block [blk] of that slot. *)
Lemma dir_fill a dir a' dir' blk t nm child :
  dir_wf a dir -> inode_ok dir' -> is_dir dir' = true -> child <> 0 -> name_ok nm -> slot_ok t ->
  (forall b, dir_block dir' b <-> dir_block dir b \/ b = blk) -> blk <> 0 ->
  (forall i j b, b <> 0 -> arr_get (direct dir') i = Some b -> arr_get (direct dir') j = Some b -> i = j) ->
  (forall b, dir_block dir' b -> data_used a' b) ->
  (forall b, dir_block dir b -> b <> blk -> a_blk a' b = a_blk a b) ->
  slot_ino (a_blk a' blk) t = child -> slot_name (a_blk a' blk) t nm ->
  (forall u, slot_ok u -> u <> t ->
     (dir_block dir blk -> slot_ino (a_blk a' blk) u = slot_ino (a_blk a blk) u /\
        forall x, slot_name (a_blk a' blk) u x <-> slot_name (a_blk a blk) u x) /\
     (~ dir_block dir blk -> slot_ino (a_blk a' blk) u = 0)) ->
  (dir_block dir blk -> slot_ino (a_blk a blk) t = 0) ->
  (forall k, ~ dir_maps a dir nm k) ->
  dir_wf a' dir' /\ forall x k, dir_maps a' dir' x k <-> (x = nm /\ k = child) \/ dir_maps a dir x k.
Proof.
  intros Hd Hok Hisd Hc Hnm Ht Hblks Hb0 Hinj Hused Hsame Hino Hname Hrest Hempty Hfree.
  (* an entry of the new directory is the new one or an old one in the same place *)
  assert (Hent : forall b u x k, dir_entry a' dir' b u x k <->
    (b = blk /\ u = t /\ x = nm /\ k = child) \/ (dir_entry a dir b u x k)).
  { intros b u x k. unfold dir_entry. rewrite Hblks. split.
    - intros (Hb & Hu & Hk & Hk0 & Hx). destruct (Z.eq_dec b blk) as [->|Hne].
      + destruct (Z.eq_dec u t) as [->|Hut].
        * left. split_and!; [done|done|by eapply slot_name_unique|congruence].
        * destruct (Hrest u Hu Hut) as [Hold Hnew]. right.
          destruct (decide (dir_block dir blk)) as [Hbd|Hbd]; [|rewrite Hnew in Hk; congruence].
          destruct (Hold Hbd) as [E1 E2]. rewrite E1 in Hk. apply E2 in Hx. done.
      + destruct Hb as [Hb| ->]; [|done]. rewrite Hsame in Hk, Hx by done. by right.
    - intros [(-> & -> & -> & ->)|(Hb & Hu & Hk & Hk0 & Hx)].
      + split_and!; try done; try apply Ht. by right.
      + split; [by left|]. split; [done|]. destruct (Z.eq_dec b blk) as [->|Hne].
        * destruct (Z.eq_dec u t) as [->|Hut]; [rewrite Hempty in Hk by done; congruence|].
          destruct (Hrest u Hu Hut) as [Hold _]. destruct (Hold Hb) as [E1 E2]. rewrite E1, E2. done.
        * rewrite Hsame by done. done. }
  assert (Hmaps : forall x k, dir_maps a' dir' x k <-> (x = nm /\ k = child) \/ dir_maps a dir x k).
  { intros x k. unfold dir_maps. setoid_rewrite Hent. split.
    - intros (b & u & [(_ & _ & -> & ->)|He]); [by left|right; eauto].
    - intros [[-> ->]|(b & u & He)]; [exists blk, t; auto|exists b, u; auto]. }
  split; [|done]. split; [done|done|done|done| |].
  - intros b u Hb Hu Hne. apply Hblks in Hb. destruct (Z.eq_dec b blk) as [->|Hbne].
    + destruct (Z.eq_dec u t) as [->|Hut]; [by exists nm|]. destruct (Hrest u Hu Hut) as [Hold Hnew].
      destruct (decide (dir_block dir blk)) as [Hbd|Hbd]; [|rewrite Hnew in Hne; done].
      destruct (Hold Hbd) as [E1 E2]. rewrite E1 in Hne. destruct (dw_name _ _ Hd blk u Hbd Hu Hne) as [x Hx]. exists x. by apply E2.
    + destruct Hb as [Hb| ->]; [|done]. rewrite Hsame in * by done. by apply (dw_name _ _ Hd b u).
  - intros b1 u1 b2 u2 x k1 k2 H1%Hent H2%Hent. destruct H1 as [(-> & -> & Hx1 & _)|H1], H2 as [(-> & -> & Hx2 & _)|H2].
    + done.
    + exfalso. subst x. eapply (Hfree k2). by exists b2, u2.
    + exfalso. subst x. eapply (Hfree k1). by exists b1, u1.
    + by eapply (dw_uniq _ _ Hd).
Qed.

Lemma a_inode_write_data a b buf m : ARESFS_DATA_START_BLOCK <= b -> inum_ok m -> a_inode (a_write b buf a) m = a_inode a m.
Proof.
  intros Hb Hm. destruct (slot_bounds m Hm) as (_ & _ & Hsb & _). rewrite data_start in Hb. unfold a_inode. cbn [a_write a_blk].
  by rewrite (proj2 (Z.eqb_neq _ b)) by lia.
Qed.

(** The entry goes to an empty slot of a block the directory has. *)
Lemma dir_add_slot a n nm child blk t buf :
  bitmaps_inv a -> inum_ok n -> dir_wf a (a_inode a n) -> name_ok nm -> child <> 0 -> (forall k, ~ dir_maps a (a_inode a n) nm k) ->
  dir_block (a_inode a n) blk -> slot_ok t -> slot_ino (a_blk a blk) t = 0 ->
  slot_ino buf t = child -> slot_name buf t nm ->
  (forall u, slot_ok u -> u <> t -> slot_ino buf u = slot_ino (a_blk a blk) u /\ forall x, slot_name buf u x <-> slot_name (a_blk a blk) u x) ->
  dir_added a n nm child (a_write blk buf a).
Proof.
  intros Hi Hn Hd Hnm Hc Hfree Hb Ht Hempty Hino Hname Hrest. destruct (dw_used _ _ Hd blk Hb) as [Hrange Hbit].
  destruct (dir_block_ok a _ blk Hd Hb) as [_ Hgt].
  assert (Hin : forall m, inum_ok m -> a_inode (a_write blk buf a) m = a_inode a m) by (intros; apply a_inode_write_data; [apply Hrange|done]).
  assert (Hat : a_blk (a_write blk buf a) blk = buf) by (cbn; by rewrite Z.eqb_refl).
  destruct (dir_fill a (a_inode a n) (a_write blk buf a) (a_inode a n) blk t nm child) as [Hwf Hmaps]; try done; rewrite ?Hat; try done.
  - apply Hd.
  - apply Hd.
  - intros b. split; [by left|]. intros [?| ->]; done.
  - apply Hb.
  - apply Hd.
  - intros b Hb'. by apply (dw_used _ _ Hd b).
  - intros b Hb' Hne. cbn [a_write a_blk]. by rewrite (proj2 (Z.eqb_neq b blk)).
  - intros u Hu Hut. split; [intros _; by apply Hrest|done].
  - split; try done; rewrite ?Hin by done; try done.
    + by apply bitmaps_inv_write.
    + auto.
    + intros j Hj Hnb. cbn [a_write a_blk]. by destruct (Z.eqb_spec j blk) as [->|].
    + intros j Hj. by left.
Qed.

(** A directory that got the block [b] in its empty pointer [i]. *)
Definition grown (dir : aresfs_inode) (d : list Z) : aresfs_inode := set_size (u64 (size dir + ARESFS_BLOCK_SIZE)) (set_direct d dir).

Lemma grown_ok a dir i b d : dir_wf a dir -> data_block b -> arr_set (direct dir) i b = Some d -> inode_ok (grown dir d).
Proof.
  intros Hd Hb Hset. apply set_size_ok; [apply set_direct_ok; [apply Hd| |]|].
  - rewrite (arr_set_length _ _ _ _ Hset). apply (dw_ino _ _ Hd).
  - apply arr_set_Some in Hset as [_ ->]. apply Forall_insert; [apply (dw_ino _ _ Hd)|by apply block_field].
  - unfold field_ok. apply (wrap_range 64). lia.
Qed.

Lemma grown_blocks dir i b d x : arr_get (direct dir) i = Some 0 -> b <> 0 -> arr_set (direct dir) i b = Some d ->
  dir_block (grown dir d) x <-> dir_block dir x \/ x = b.
Proof.
  intros Hptr Hb Hset. unfold dir_block, grown. cbn [set_size set_direct direct].
  setoid_rewrite (fun j => arr_get_set _ _ _ j _ Hset). split.
  - intros [Hx [j Hj]]. destruct (j =? i); [right; congruence|left; eauto].
  - intros [[Hx [j Hj]]| ->]; [|split; [done|]; exists i; by rewrite Z.eqb_refl]. split; [done|]. exists j.
    destruct (Z.eqb_spec j i) as [->|]; [congruence|done].
Qed.

(** The entry goes to the first slot of a new block [b], stored in pointer [i]. *)
Lemma dir_add_fresh {D : Type} {HD : BlockDevice D} {HL : BlockDeviceLaws D} (s : fs D) a n nm child i b d bm buf :
  rep s a -> bitmaps_inv a -> inum_ok n -> dir_wf a (a_inode a n) -> name_ok nm -> child <> 0 -> (forall k, ~ dir_maps a (a_inode a n) nm k) ->
  arr_get (direct (a_inode a n)) i = Some 0 -> data_block b -> bm_bit (a_bbm a) b = false -> bm_upd (a_bbm a) b true bm ->
  arr_set (direct (a_inode a n)) i b = Some d -> blk_ok buf ->
  slot_ino buf 0 = child -> slot_name buf 0 nm -> (forall u, slot_ok u -> u <> 0 -> slot_ino buf u = 0) ->
  let dir' := set_size (u64 (size (a_inode a n) + ARESFS_BLOCK_SIZE)) (set_direct d (a_inode a n)) in
  inode_ok dir' /\ dir_added a n nm child (a_put_inode n dir' (a_write b buf (a_bbm_to bm a))).
Proof.
  intros Hr Hi Hn Hd Hnm Hc Hfree Hptr Hb Hbit Hu Hset Hbuf Hino Hname Hrest dir'. set (dir := a_inode a n) in *.
  unfold data_block in Hb. pose proof data_start as E132. pose proof (slot_bounds n Hn) as (Hso & Hso2 & Hsb & Hsbk).
  assert (Hok : inode_ok dir') by (by apply (grown_ok a dir i b d)).
  split; [done|]. set (a1 := a_bbm_to bm a). set (a2 := a_write b buf a1). set (a3 := a_put_inode n dir' a2).
  assert (Hnb : forall x, dir_block dir x -> x <> b).
  { intros x Hx ->. destruct (dw_used _ _ Hd b Hx) as [_ H]. congruence. }
  assert (Hget : forall j, arr_get d j = if j =? i then Some b else arr_get (direct dir) j) by (intros j; by apply (arr_get_set _ _ _ j _ Hset)).
  assert (Hblk3 : forall j, ARESFS_DATA_START_BLOCK <= j -> a_blk a3 j = if j =? b then buf else a_blk a j).
  { intros j Hj. unfold a3, a_put_inode, a2, a1, a_bbm_to. cbn [a_write a_set_bbm a_blk].
    rewrite (proj2 (Z.eqb_neq j (slot_blk n))) by lia. destruct (j =? b); [done|].
    rewrite (proj2 (Z.eqb_neq j _)); [done|]. unfold ARESFS_BLOCK_BITMAP_BLOCK. lia. }
  assert (Hblks : forall x, dir_block dir' x <-> dir_block dir x \/ x = b) by (intros x; apply (grown_blocks dir i b d x); [done|lia|done]).
  assert (Hrep2 : forall c, c = slot_blk n -> length (a_blk a2 c) = 512%nat).
  { intros c ->. unfold a2, a1, a_bbm_to. cbn [a_write a_set_bbm a_blk]. rewrite (proj2 (Z.eqb_neq _ b)) by lia.
    rewrite (proj2 (Z.eqb_neq _ ARESFS_BLOCK_BITMAP_BLOCK)) by (unfold ARESFS_BLOCK_BITMAP_BLOCK; lia). by apply (rep_blk_ok s a). }
  assert (Hinos : forall m, inum_ok m -> a_inode a3 m = if m =? n then dir' else a_inode a m).
  { intros m Hm. pose proof (slot_bounds m Hm) as (Hmo & _ & Hmb & _). unfold a3.
    rewrite a_inode_store by (done || by apply Hrep2). destruct (m =? n); [done|].
    unfold a2. rewrite a_inode_write_data by (lia || done).
    unfold a1, a_bbm_to, a_inode. cbn [a_write a_set_bbm a_blk].
    by rewrite (proj2 (Z.eqb_neq _ ARESFS_BLOCK_BITMAP_BLOCK)) by (unfold ARESFS_BLOCK_BITMAP_BLOCK; lia). }
  assert (Hbits3 : forall j, bm_bit (a_bbm a3) j = (j =? b) || bm_bit (a_bbm a) j).
  { intros j. unfold a3, a_put_inode, a2, a1, a_bbm_to. cbn [a_write a_set_bbm a_bbm]. rewrite (proj2 Hu). by destruct (j =? b). }
  destruct (dir_fill a dir a3 dir' b 0 nm child) as [Hwf Hmaps]; try done; rewrite ?Hblk3, ?Z.eqb_refl by lia; try done.
  - apply (dw_dir _ _ Hd).
  - lia.
  - intros j k x Hx. cbn [dir' set_size set_direct direct]. unfold dir'. cbn [set_size set_direct direct]. rewrite !Hget.
    destruct (Z.eqb_spec j i), (Z.eqb_spec k i); subst; try done; [| |by apply (dw_inj _ _ Hd)].
    + intros [= <-] Hk. exfalso. apply (Hnb b); [split; eauto|done].
    + intros Hj [= <-]. exfalso. apply (Hnb b); [split; eauto|done].
  - intros x [Hx| ->]%Hblks; unfold data_used; rewrite Hbits3.
    + destruct (dw_used _ _ Hd x Hx) as [? ->]. by rewrite orb_true_r.
    + by rewrite Z.eqb_refl.
  - intros x Hx Hne. rewrite Hblk3 by apply (dw_used _ _ Hd x Hx). by rewrite (proj2 (Z.eqb_neq x b)).
  - intros u Hu0 Hne. split; [|intros _; by apply Hrest]. intros Hx. by destruct (Hnb b Hx).
  - intros Hx. by destruct (Hnb b Hx).
  - assert (Hn3 : a_inode a3 n = dir') by (rewrite Hinos, Z.eqb_refl by done; done).
    split; rewrite ?Hn3; try done.
    + apply bitmaps_inv_write; [|unfold ARESFS_INODE_BITMAP_BLOCK; lia]. apply bitmaps_inv_write; [|unfold ARESFS_INODE_BITMAP_BLOCK; lia].
      by eapply bitmaps_inv_bbm; [|apply Hb|].
    + intros m Hm Hne. by rewrite Hinos, (proj2 (Z.eqb_neq m n)).
    + intros j Hj. by rewrite Hbits3, Hj, orb_true_r.
    + intros j [Hj Hju] Hnj. rewrite Hblk3 by lia. destruct (Z.eqb_spec j b) as [->|]; [congruence|done].
    + intros j [Hj| ->]%Hblks; auto.
Qed.

(** No slot of the directory is empty and no block can be added. *)
Definition dir_full (a : afs) (dir : aresfs_inode) : Prop :=
  (forall blk t, dir_block dir blk -> slot_ok t -> slot_ino (a_blk a blk) t <> 0) /\
  ((forall i, 0 <= i < ARESFS_DIRECT_BLOCKS -> arr_get (direct dir) i <> Some 0) \/ full a).

Section add.
Context {D : Type} {HD : BlockDevice D} {HL : BlockDeviceLaws D}.
Implicit Types (s : fs D) (a : afs).

(** The outcomes of adding an entry. *)
Definition add_outcome (a : afs) (n : Z) (nm : list Z) (child : Z) (st : ares_status) (s' : fs D) : Prop :=
  match st with
  | ARES_OK => (forall k, ~ dir_maps a (a_inode a n) nm k) /\ exists a', rep s' a' /\ dir_added a n nm child a'
  | ARES_EBUSY => rep s' a /\ exists k, dir_maps a (a_inode a n) nm k
  | ARES_ENOMEM => rep s' a /\ dir_full a (a_inode a n)
  | _ => False
  end.

Lemma dir_add_block_ok s a n nm child : rep s a -> bitmaps_inv a -> inum_ok n -> dir_wf a (a_inode a n) -> name_ok nm ->
  child <> 0 -> field_ok 4 child -> (forall k, ~ dir_maps a (a_inode a n) nm k) ->
  (forall blk t, dir_block (a_inode a n) blk -> slot_ok t -> slot_ino (a_blk a blk) t <> 0) ->
  runs (dir_add_block n (a_inode a n) (nm ++ [0]) child) s (add_outcome a n nm child).
Proof.
  intros Hr Hi Hn Hd Hnm Hc Hcf Hfree Hfull. unfold dir_add_block. change (Z.to_nat ARESFS_DIRECT_BLOCKS) with 12%nat.
  destruct (io_direct _ (dw_ino _ _ Hd)) as [Hlen _]. pose proof data_start as E132. apply runs_bind.
  eapply runs_mono; [apply (runs_for_ret (fun j t => rep t a /\ forall i, 0 <= i < j -> arr_get (direct (a_inode a n)) i <> Some 0)
    (fun r t => match r with Some st => add_outcome a n nm child st t | None => rep t a /\ dir_full a (a_inode a n) end))|].
  - split; [done|]. intros. lia.
  - intros j t Hj [Ht Hprev]. destruct (arr_get_in (direct (a_inode a n)) j) as [p Hp]; [lia|]. run. eapply runs_need; [exact Hp|].
    destruct (Z.eqb_spec p 0) as [->|Hne]; cbn [negb].
    2:{ run. split; [done|]. intros i Hi'. destruct (Z.eq_dec i j) as [->|]; [congruence|apply Hprev; lia]. }
    run. eapply runs_mono; [by apply (alloc_block_ok t a)|]. intros b t1 [(-> & Ht1 & Hall)|(Hb & Hf & _ & bm & Hu & Ht1)].
    { cbn [Z.eqb]. run. split; [done|]. split; [done|]. by right. }
    rewrite (proj2 (Z.eqb_neq b 0)) by lia.
    destruct (dirent_put_ok zero_block 0 child nm) as (buf & Hbuf & Hbok & Hino & Hname & Hrest); [unfold slot_ok; lia|apply zero_block_ok|done|done|].
    run. eapply runs_need; [exact Hbuf|]. run.
    eapply runs_mono; [apply (block_write_ok t1 _ b buf Ht1); [split; lia|done]|]. intros st t2 [-> Ht2].
    rewrite bool_decide_false by (intros H'; by apply H').
    destruct (arr_set (direct (a_inode a n)) j b) as [d|] eqn:Hset.
    2:{ unfold arr_set in Hset. rewrite Hlen, (proj2 (Z.leb_le _ _)), (proj2 (Z.ltb_lt _ _)) in Hset by lia. done. }
    run. eapply runs_need; [reflexivity|]. run.
    destruct (dir_add_fresh t a n nm child j b d bm buf) as [Hok Hadd]; try done.
    { intros u Hu0 Hne. destruct (Hrest u Hu0 Hne) as [-> _]. by apply slot_ino_zero. }
    eapply runs_mono; [apply (inode_write_ok t2 _ n _ Ht2 Hn Hok)|]. intros st t3 [-> Ht3]. run. cbn. eauto.
  - intros t [Ht Hall]. split; [done|]. split; [done|]. left. intros i Hi'. apply Hall. unfold ARESFS_DIRECT_BLOCKS in Hi'. lia.
  - intros [st|] t Ht; run; [done|]. exact Ht.
Qed.

Lemma dir_add_entry_ok s a n nm child : rep s a -> bitmaps_inv a -> inum_ok n -> dir_wf a (a_inode a n) -> name_ok nm ->
  child <> 0 -> field_ok 4 child ->
  runs (dir_add_entry n (nm ++ [0]) child) s (add_outcome a n nm child).
Proof.
  intros Hr Hi Hn Hd Hnm Hc Hcf. unfold dir_add_entry. apply runs_bind. eapply runs_mono; [by apply (dir_find_entry_ok s a n nm)|].
  intros f s1 [Hr1 Hf]. unfold ARESFS_INODE_INVALID. destruct (f =? 0) eqn:Ef; cbn [negb]; [|run; cbn; eauto].
  apply runs_bind. eapply runs_mono; [by apply (inode_read_ok s1 a n)|]. intros r s2 [-> Hr2]. rewrite (dw_dir _ _ Hd). cbn [negb].
  assert (Hlen : forall blk, dir_block (a_inode a n) blk -> block_ok blk /\ length (a_blk a blk) = 512%nat).
  { intros blk Hb. destruct (dir_block_ok a _ blk Hd Hb) as [Hbk _]. split; [done|]. by eapply rep_blk_ok. }
  assert (Hv : forall blk t, dir_block (a_inode a n) blk -> slot_ok t ->
    verdict match_empty_slot a blk t = Some (slot_ino (a_blk a blk) t =? 0)).
  { intros blk t Hb Ht. destruct (slot_view (a_blk a blk) t Ht) as (E & _); [by apply Hlen|]. unfold verdict, match_empty_slot. by rewrite E. }
  apply runs_bind. eapply runs_mono; [apply (dir_walk_ok match_empty_slot s2 a n Hr2 Hn Hd); intros; rewrite Hv by done; eauto|].
  intros [[[blk t] de]|] s3 [Hr3 Hw].
  - destruct Hw as (Hb & Ht & Hvt & _). rewrite Hv in Hvt by done. injection Hvt as Hvt%Z.eqb_eq. destruct (Hlen blk Hb) as [Hbk Hl].
    apply runs_bind. eapply runs_mono; [by apply (block_read_ok s3 a)|]. intros r s4 [-> Hr4].
    rewrite bool_decide_false by (intros H'; by apply H').
    destruct (dirent_put_ok (a_blk a blk) t child nm) as (buf & Hbuf & Hbok & Hino & Hname & Hrest); [done|by eapply rep_blk_ok|done|done|].
    run. eapply runs_need; [exact Hbuf|]. eapply runs_mono; [apply (block_write_ok s4 a blk buf); done|]. intros st s5 [-> Hr5].
    cbn. split; [done|]. eexists. split; [exact Hr5|]. by eapply dir_add_slot.
  - apply dir_add_block_ok; try done. intros blk t Hb Ht. specialize (Hw blk t Hb Ht). rewrite Hv in Hw by done.
    injection Hw as Hw%Z.eqb_neq. done.
Qed.
End add.

(** * Paths *)

(** The non-empty components of a path. *)
Fixpoint segs (p : list Z) : list (list Z) :=
  match p with
  | [] => [[]]
  | c :: p =>
      if c =? SLASH then [] :: segs p
      else match segs p with
           | [] => [[c]]
           | x :: r => (c :: x) :: r
           end
  end.

Definition comps (p : list Z) : list (list Z) := filter (fun x => x <> []) (segs p).

(** A directory leads from name to name; entries of anything else do not count. *)
Inductive resolves (a : afs) : Z -> list (list Z) -> Z -> Prop :=
  | res_here n : resolves a n [] n
  | res_step n nm k l m :
      is_dir (a_inode a n) = true -> dir_maps a (a_inode a n) nm k -> resolves a k l m -> resolves a n (nm :: l) m.

(** The directory tree below [n]: directories are well formed and entries
    name valid inodes. *)
Record tree_ok (a : afs) : Prop := {
  to_dir n : inum_ok n -> is_dir (a_inode a n) = true -> dir_wf a (a_inode a n);
  to_child n nm k : inum_ok n -> is_dir (a_inode a n) = true -> dir_maps a (a_inode a n) nm k -> inum_ok k }.

Definition path_chars (p : list Z) : Prop := Forall char_ok p.

(** One component, without slashes, in front of the end or of a slash. *)
Fixpoint no_slash (x : list Z) : bool :=
  match x with
  | [] => true
  | c :: x => negb (c =? SLASH) && no_slash x
  end.

Lemma segs_nonempty p : segs p <> [].
Proof. destruct p as [|c p]; [done|]. cbn [segs]. destruct (c =? SLASH); [done|]. by destruct (segs p). Qed.

Lemma comps_slash p : comps (SLASH :: p) = comps p.
Proof. unfold comps. cbn [segs]. rewrite Z.eqb_refl. by rewrite filter_cons_False by (intros H; by apply H). Qed.

(** The first segment and what follows it. *)
Lemma segs_split x r : no_slash x = true -> segs (x ++ r) =
  match segs r with [] => [] | y :: l => (x ++ y) :: l end.
Proof.
  induction x as [|c x IH]; intros Hx; cbn [app].
  - destruct (segs r) eqn:E; [by destruct (segs_nonempty r)|done].
  - cbn [no_slash] in Hx. apply andb_true_iff in Hx as [Hc Hx]. apply negb_true_iff in Hc. cbn [segs]. rewrite Hc, (IH Hx).
    pose proof (segs_nonempty r). by destruct (segs r).
Qed.

Lemma comps_component x r : no_slash x = true -> x <> [] -> (r = [] \/ exists r', r = SLASH :: r') -> comps (x ++ r) = x :: comps r.
Proof.
  intros Hx Hne Hr. unfold comps. rewrite segs_split by done. destruct Hr as [->|(r' & ->)].
  - cbn [segs]. rewrite app_nil_r, filter_cons_True by done. by rewrite filter_cons_False by (intros H; by apply H).
  - cbn [segs]. rewrite Z.eqb_refl, app_nil_r, filter_cons_True by done. done.
Qed.

Lemma comps_nil : comps [] = [].
Proof. reflexivity. Qed.

(** [skip_slashes] drops leading slashes and no component. *)
Lemma skip_slashes_ok p : path_chars p -> exists q, skip_slashes (p ++ [0]) = Some (q ++ [0]) /\ comps q = comps p /\
  path_chars q /\ (length q <= length p)%nat /\ (q = [] \/ exists c q', q = c :: q' /\ c <> SLASH).
Proof.
  induction 1 as [|c p Hc Hp IH]; [exists []; split_and!; try done; [constructor|by left]|]. cbn [app skip_slashes].
  destruct (Z.eqb_spec c SLASH) as [->|Hne].
  - destruct IH as (q & -> & Hq & Hch & Hl & Hs). exists q. split_and!; [done|by rewrite comps_slash|done|cbn [length]; lia|done].
  - exists (c :: p). split_and!; [done|done|by constructor|done|right; eauto].
Qed.

(** [component] takes the first component, unless it has over 55 characters. *)
Lemma component_ok q : forall i, path_chars q -> 0 <= i <= 55 ->
  exists x r, q = x ++ r /\ no_slash x = true /\ (r = [] \/ exists r', r = SLASH :: r') /\
    component i (q ++ [0]) = Some (if i + Z.of_nat (length x) <=? 55 then Some (x, r ++ [0]) else None).
Proof.
  induction q as [|c q IH]; intros i Hq Hi; cbn [app component].
  - exists [], []. split_and!; [done|done|by left|]. cbn. rewrite (proj2 (Z.leb_le _ _)) by lia. done.
  - apply Forall_cons in Hq as [Hc Hq]. unfold char_ok in Hc. rewrite (proj2 (Z.eqb_neq c 0)) by lia. rewrite andb_true_r.
    destruct (Z.eqb_spec c SLASH) as [->|Hne]; cbn [negb].
    + exists [], (SLASH :: q). split_and!; [done|done|right; eauto|]. cbn [length app]. rewrite (proj2 (Z.leb_le _ _)) by lia. done.
    + unfold ARESFS_NAME_MAX. destruct (Z.leb_spec 55 i) as [H55|H55].
      * destruct (IH i Hq Hi) as (x & r & -> & Hx & Hr & _). exists (c :: x), r. split_and!; [done| |done|].
        { cbn [no_slash]. by rewrite (proj2 (Z.eqb_neq c SLASH)). }
        rewrite (proj2 (Z.leb_gt _ 55)); [done|]. cbn [length]. lia.
      * destruct (IH (i + 1) Hq) as (x & r & -> & Hx & Hr & ->); [lia|]. exists (c :: x), r. split_and!; [done| |done|].
        { cbn [no_slash]. by rewrite (proj2 (Z.eqb_neq c SLASH)). }
        cbn [mbind option_bind]. f_equal. cbn [length]. replace (i + Z.of_nat (S (length x))) with (i + 1 + Z.of_nat (length x)) by lia.
        by destruct (i + 1 + Z.of_nat (length x) <=? 55).
Qed.

Lemma slot_name_length buf s nm : slot_name buf s nm -> (length nm <= 55)%nat.
Proof.
  intros [_ [rest E]]. apply (f_equal length) in E. unfold slice in E. rewrite length_take, length_app in E. cbn [length] in E. lia.
Qed.

Section lookup.
Context {D : Type} {HD : BlockDevice D} {HL : BlockDeviceLaws D}.
Implicit Types (s : fs D) (a : afs).

(** In something that is no directory nothing is found. *)
Lemma dir_find_entry_any s a n nm : rep s a -> tree_ok a -> inum_ok n -> name_ok nm ->
  runs (dir_find_entry n (nm ++ [0])) s (fun k s' => rep s' a /\
    if k =? 0 then is_dir (a_inode a n) = true -> forall k', ~ dir_maps a (a_inode a n) nm k'
    else is_dir (a_inode a n) = true /\ dir_maps a (a_inode a n) nm k).
Proof.
  intros Hr Ht Hn Hnm. destruct (is_dir (a_inode a n)) eqn:Ed.
  - eapply runs_mono; [apply (dir_find_entry_ok s a n nm); [done|done|by apply Ht|done]|]. intros k s' [Hr' Hk]. split; [done|].
    by destruct (k =? 0).
  - unfold dir_find_entry, dir_walk. run. eapply runs_mono; [by apply (inode_read_ok s a n)|]. intros r s' [-> Hr']. rewrite Ed. cbn [negb]. run.
    split; [done|]. done.
Qed.

Lemma resolves_cons a n nm l : (exists k m, is_dir (a_inode a n) = true /\ dir_maps a (a_inode a n) nm k /\ resolves a k l m) <->
  exists m, resolves a n (nm :: l) m.
Proof.
  split.
  - intros (k & m & ? & ? & ?). exists m. by econstructor.
  - intros (m & Hm). inversion Hm; subst. eauto 10.
Qed.

Lemma lookup_loop_ok fuel : forall s a cur q, rep s a -> tree_ok a -> inum_ok cur -> cur <> 0 -> path_chars q ->
  (q = [] \/ exists c q', q = c :: q' /\ c <> SLASH) -> (length q < fuel)%nat ->
  runs (lookup_loop fuel cur (q ++ [0])) s (fun k s' => rep s' a /\
    if k =? 0 then forall m, ~ resolves a cur (comps q) m else inum_ok k /\ resolves a cur (comps q) k).
Proof.
  induction fuel as [|fuel IH]; intros s a cur q Hr Ht Hcur Hc0 Hq Hst Hf; [lia|]. cbn [lookup_loop].
  destruct Hst as [->|(c & q' & Eq & Hns)].
  { run. eapply runs_need; [reflexivity|]. cbn [Z.eqb negb]. run. rewrite (proj2 (Z.eqb_neq cur 0) Hc0).
    split; [done|]. split; [done|]. rewrite comps_nil. constructor. }
  assert (Hc : c <> 0) by (rewrite Eq in Hq; apply Forall_cons in Hq as [Hc _]; unfold char_ok in Hc; lia).
  run. eapply runs_need; [rewrite Eq; reflexivity|]. rewrite (proj2 (Z.eqb_neq c 0) Hc). cbn [negb].
  destruct (component_ok q 0 Hq) as (x & r & Exr & Hx & Hrr & Hcomp); [lia|].
  assert (Hxne : x <> []).
  { intros ->. cbn [app] in Exr. destruct Hrr as [->|(r' & ->)]; congruence. }
  assert (Hcq : comps q = x :: comps r) by (rewrite Exr; by apply comps_component).
  rewrite Exr in Hq. apply Forall_app in Hq as [Hxc Hrc]. run. eapply runs_need; [exact Hcomp|]. rewrite Z.add_0_l.
  destruct (Z.leb_spec (Z.of_nat (length x)) 55) as [H55|H55].
  - destruct (skip_slashes_ok r Hrc) as (r1 & Hsk & Hcr & Hr1c & Hr1l & Hr1s). run. eapply runs_need; [exact Hsk|].
    apply runs_bind. eapply runs_mono; [apply (dir_find_entry_any s a cur x); try done; split; [done|lia]|].
    intros k s1 [Hr1 Hk]. unfold ARESFS_INODE_INVALID. destruct (Z.eqb_spec k 0) as [->|Hk0].
    + run. split; [done|]. rewrite Z.eqb_refl, Hcq. intros m Hm. inversion Hm; subst. by eapply Hk.
    + destruct Hk as [Hd Hmap]. eapply runs_mono; [apply (IH s1 a k r1); try done|].
      * by eapply (to_child _ Ht cur).
      * rewrite Exr, length_app in Hf. destruct x; [done|]. cbn [length] in Hf. lia.
      * intros m s2 [Hr2 Hm]. split; [done|]. rewrite Hcq, <- Hcr. destruct (m =? 0).
        -- intros m' Hm'. inversion Hm' as [|? ? k' ? ? _ Hmap' Hres]; subst.
           assert (k' = k) as -> by (eapply (dir_maps_unique a (a_inode a cur) x); [by apply Ht|done|done]). by eapply Hm.
        -- destruct Hm as [Hmi Hm]. split; [done|]. by econstructor.
  - run. split; [done|]. unfold ARESFS_INODE_INVALID. rewrite Z.eqb_refl, Hcq. intros m Hm.
    inversion Hm as [|? ? k' ? ? _ (blk & t & _ & _ & _ & _ & Hnm)]; subst. apply slot_name_length in Hnm. lia.
Qed.

Lemma lookup_path_ok s a p : rep s a -> tree_ok a -> path_chars p ->
  runs (lookup_path (Some (p ++ [0]))) s (fun k s' => rep s' a /\
    if k =? 0 then forall m, ~ resolves a ARESFS_ROOT_INODE (comps p) m
    else inum_ok k /\ resolves a ARESFS_ROOT_INODE (comps p) k).
Proof.
  intros Hr Ht Hp. destruct (skip_slashes_ok p Hp) as (q & Hsk & Hcq & Hqc & Hql & Hqs). unfold lookup_path. run.
  eapply runs_need; [exact Hsk|]. assert (Hroot : inum_ok ARESFS_ROOT_INODE) by (unfold inum_ok; change ARESFS_INODE_COUNT with 512; unfold ARESFS_ROOT_INODE; lia).
  rewrite <- Hcq. destruct q as [|c q].
  - run. eapply runs_need; [reflexivity|]. cbn [Z.eqb]. run. split; [done|]. cbn [ARESFS_ROOT_INODE Z.eqb]. split; [done|]. rewrite comps_nil. constructor.
  - run. eapply runs_need; [reflexivity|]. assert (Hc : c <> 0) by (apply Forall_cons in Hqc as [Hc _]; unfold char_ok in Hc; lia).
    rewrite (proj2 (Z.eqb_neq c 0) Hc). apply lookup_loop_ok; try done.
    rewrite length_app. cbn [length] in *. lia.
Qed.
End lookup.

(** * A directory with the entries "." and ".." only *)

Lemma dots_block_ok self parent : field_ok 4 self -> field_ok 4 parent -> exists buf, dots_block self parent = Some buf /\ blk_ok buf /\
  slot_ino buf 0 = self /\ slot_name buf 0 [46] /\ slot_ino buf 1 = parent /\ slot_name buf 1 [46; 46] /\
  forall t, slot_ok t -> t <> 0 -> t <> 1 -> slot_ino buf t = 0.
Proof.
  intros Hs Hp. assert (H1 : name_ok [46]) by (split; [repeat constructor; unfold char_ok; lia|cbn; lia]).
  assert (H2 : name_ok [46; 46]) by (split; [repeat constructor; unfold char_ok; lia|cbn; lia]).
  destruct (dirent_put_ok zero_block 0 self [46]) as (b1 & E1 & Hb1 & Hi1 & Hn1 & Hr1); [unfold slot_ok; lia|apply zero_block_ok|done|done|].
  destruct (dirent_put_ok b1 1 parent [46; 46]) as (b2 & E2 & Hb2 & Hi2 & Hn2 & Hr2); [unfold slot_ok; lia|done|done|done|].
  exists b2. unfold dots_block, DOT, DOTDOT. change [46; 0] with ([46] ++ [0]). change [46; 46; 0] with ([46; 46] ++ [0]). rewrite E1.
  cbn [mbind option_bind]. destruct (Hr2 0) as [E0 N0]; [unfold slot_ok; lia|lia|]. split_and!; try done; [congruence|by apply N0|].
  intros t Ht Ht0 Ht1. destruct (Hr2 t Ht Ht1) as [-> _]. destruct (Hr1 t Ht Ht0) as [-> _]. by apply slot_ino_zero.
Qed.

Lemma new_dir_inode_ok blk : field_ok 4 blk -> inode_ok (new_dir_inode blk).
Proof.
  intros Hb. apply set_direct_ok; [|done|constructor; [done|apply Forall_replicate; unfold field_ok; lia]].
  apply set_size_ok; [|unfold field_ok, ARESFS_BLOCK_SIZE; lia]. apply set_mode_ok; [apply zero_inode_ok|].
  unfold field_ok. vm_compute. split; [discriminate|reflexivity].
Qed.

Lemma new_dir_block blk b : blk <> 0 -> dir_block (new_dir_inode blk) b <-> b = blk.
Proof.
  intros Hb. unfold dir_block, new_dir_inode. cbn [set_direct direct]. split.
  - intros [Hne [i Hi]]. unfold arr_get in Hi. destruct (0 <=? i); [|done]. destruct (Z.to_nat i) as [|k]; cbn [lookup list_lookup] in Hi; [congruence|].
    apply lookup_replicate in Hi as [-> _]. done.
  - intros ->. split; [done|]. by exists 0.
Qed.

Lemma dots_dir_wf a blk self parent buf : data_used a blk -> self <> 0 -> parent <> 0 -> field_ok 4 self -> field_ok 4 parent ->
  dots_block self parent = Some buf -> a_blk a blk = buf ->
  dir_wf a (new_dir_inode blk) /\
  forall nm k, dir_maps a (new_dir_inode blk) nm k <-> (nm = [46] /\ k = self) \/ (nm = [46; 46] /\ k = parent).
Proof.
  intros Hu Hs Hp Hsf Hpf Hdots Hblk. destruct (dots_block_ok self parent Hsf Hpf) as (buf' & E & Hok & Hi0 & Hn0 & Hi1 & Hn1 & Hrest).
  assert (buf' = buf) as -> by congruence. assert (Hb0 : blk <> 0) by (destruct Hu as [H _]; rewrite data_start in H; lia).
  assert (Hent : forall b t nm k, dir_entry a (new_dir_inode blk) b t nm k <->
    b = blk /\ ((t = 0 /\ nm = [46] /\ k = self) \/ (t = 1 /\ nm = [46; 46] /\ k = parent))).
  { intros b t nm k. unfold dir_entry. rewrite new_dir_block by done. split.
    - intros (-> & Ht & Hk & Hk0 & Hnm). split; [done|]. rewrite Hblk in *. destruct (Z.eq_dec t 0) as [->|]; [left|].
      + split_and!; [done|by eapply slot_name_unique|congruence].
      + destruct (Z.eq_dec t 1) as [->|]; [right|rewrite Hrest in Hk by done; congruence].
        split_and!; [done|by eapply slot_name_unique|congruence].
    - intros (-> & [(-> & -> & ->)|(-> & -> & ->)]); rewrite Hblk; (split_and!; try done; unfold slot_ok; lia). }
  split.
  - split.
    + apply new_dir_inode_ok, block_field, Hu.
    + reflexivity.
    + intros b ->%new_dir_block; done.
    + intros i j b Hb. unfold new_dir_inode. cbn [set_direct direct]. unfold arr_get. destruct (Z.leb_spec 0 i), (Z.leb_spec 0 j); try done.
      destruct (Z.to_nat i) as [|k] eqn:Ei, (Z.to_nat j) as [|k'] eqn:Ej; cbn [lookup list_lookup]; intros H1 H2; try lia;
        first [apply lookup_replicate in H1 as [-> _]|apply lookup_replicate in H2 as [-> _]]; done.
    + intros b t ->%new_dir_block Ht Hne; [|done]. rewrite Hblk in *. destruct (Z.eq_dec t 0) as [->|]; [eauto|].
      destruct (Z.eq_dec t 1) as [->|]; [eauto|]. by rewrite Hrest in Hne.
    + intros b1 t1 b2 t2 nm k1 k2 (-> & H1)%Hent (-> & H2)%Hent. split; [done|].
      destruct H1 as [(-> & -> & _)|(-> & -> & _)], H2 as [(-> & ? & _)|(-> & ? & _)]; done.
  - intros nm k. unfold dir_maps. setoid_rewrite Hent. split.
    + intros (b & t & _ & [(_ & ? & ?)|(_ & ? & ?)]); auto.
    + intros [[? ?]|[? ?]]; [exists blk, 0|exists blk, 1]; split; auto.
Qed.

(** * Correctness of directories and paths *)

Section claims.
Context {D : Type} {HD : BlockDevice D} {HL : BlockDeviceLaws D}.
Implicit Types (s : fs D) (a : afs).

(** C3: a directory refines a map from names to inode numbers.
    [dir_add_entry] refuses a name that is there ([ARES_EBUSY]) and otherwise
    adds it, reusing an empty slot or adding a block; [ARES_ENOMEM] is returned
    only when every slot is taken and no block can be added.  A later
    [dir_find_entry] finds the new entry and every other name as before; other
    inodes are untouched. *)
Theorem directory_refines_map s a n nm child nm' :
  rep s a -> bitmaps_inv a -> inum_ok n -> dir_wf a (a_inode a n) -> name_ok nm -> name_ok nm' -> child <> 0 -> field_ok 4 child ->
  runs (st ← dir_add_entry n (nm ++ [0]) child; k ← dir_find_entry n (nm' ++ [0]); mret (st, k)) s (fun r s' =>
    exists a', rep s' a' /\ bitmaps_inv a' /\ dir_wf a' (a_inode a' n) /\
      (forall m, inum_ok m -> m <> n -> a_inode a' m = a_inode a m) /\
      let '(st, k) := r in
      (st = ARES_OK /\ (forall k', ~ dir_maps a (a_inode a n) nm k') /\ (nm' = nm -> k = child) /\
        (nm' <> nm -> if k =? 0 then forall k', ~ dir_maps a (a_inode a n) nm' k' else dir_maps a (a_inode a n) nm' k)) \/
      (st = ARES_EBUSY /\ a' = a /\ exists k', dir_maps a (a_inode a n) nm k') \/
      (st = ARES_ENOMEM /\ a' = a /\ dir_full a (a_inode a n))).
Proof.
  intros Hr Hi Hn Hd Hnm Hnm' Hc Hcf. apply runs_bind. eapply runs_mono; [by apply dir_add_entry_ok|].
  intros st s1 Hout.
  assert (Hsame : forall Q : ares_status * Z -> fs D -> Prop, rep s1 a -> (forall k s', rep s' a -> Q (st, k) s') ->
    runs (k ← dir_find_entry n (nm' ++ [0]); mret (st, k)) s1 Q).
  { intros Q Hr1 HQ. apply runs_bind. eapply runs_mono; [by apply (dir_find_entry_ok s1 a n nm')|]. intros k s2 [Hr2 _]. run. auto. }
  destruct st; cbn in Hout; try done.
  - destruct Hout as (Hfree & a' & Hr1 & Hadd). apply runs_bind.
    eapply runs_mono; [apply (dir_find_entry_ok s1 a' n nm'); [done|done|apply Hadd|done]|].
    intros k s2 [Hr2 Hk]. run. exists a'. split_and!; [done|apply Hadd|apply Hadd|apply Hadd|]. left. split_and!; [done|done| |].
    + intros ->. destruct (k =? 0).
      * exfalso. apply (Hk child). apply (da_maps _ _ _ _ _ Hadd). by left.
      * apply (da_maps _ _ _ _ _ Hadd) in Hk as [[_ ?]|Hk]; [done|]. by destruct (Hfree k).
    + intros Hne. destruct (k =? 0).
      * intros k' Hk'. apply (Hk k'). apply (da_maps _ _ _ _ _ Hadd). by right.
      * apply (da_maps _ _ _ _ _ Hadd) in Hk as [[? _]|Hk]; done.
  - destruct Hout as [Hr1 Hfull]. apply Hsame; [done|]. intros k s2 Hr2. exists a. split_and!; try done. right. right. done.
  - destruct Hout as [Hr1 Hk]. apply Hsame; [done|]. intros k s2 Hr2. exists a. split_and!; try done. right. left. done.
Qed.

(** C26: [lookup_path] computes the resolution of a path: repeated, leading and
    trailing slashes do not matter, so that a relative path starts at the root
    as well, the empty path is the root, each component, ".." included, is
    looked up as an entry of the directory reached so far, and 0 is returned
    exactly when the path names nothing, which includes components of more than
    55 characters and files used as directories.  It terminates on every path
    and never leaves the string or the disk. *)
Theorem lookup_path_resolves s a p :
  rep s a -> tree_ok a -> Forall char_ok p ->
  runs (lookup_path (Some (p ++ [0]))) s (fun k s' => rep s' a /\
    (k = 0 <-> forall m, ~ resolves a ARESFS_ROOT_INODE (comps p) m) /\
    (k <> 0 -> inum_ok k /\ forall m, resolves a ARESFS_ROOT_INODE (comps p) m <-> m = k)).
Proof.
  intros Hr Ht Hp. eapply runs_mono; [by apply lookup_path_ok|]. intros k s' [Hr' Hk]. split; [done|].
  assert (Hdet : forall n l m m', inum_ok n -> resolves a n l m -> resolves a n l m' -> m = m').
  { intros n l m m' Hn H. revert m' Hn. induction H as [|n nm k1 l m Hd Hm Hres IH]; intros m' Hn H'; inversion H' as [|? ? k2 ? ? Hd' Hm' Hres']; subst; [done|].
    assert (k2 = k1) as -> by (eapply (dir_maps_unique a (a_inode a n)); [by apply Ht|done|done]).
    apply IH; [by eapply (to_child _ Ht n)|done]. }
  assert (Hroot : inum_ok ARESFS_ROOT_INODE) by (unfold inum_ok; change ARESFS_INODE_COUNT with 512; unfold ARESFS_ROOT_INODE; lia).
  destruct (Z.eqb_spec k 0) as [->|Hne]; [split; [split; done|done]|]. destruct Hk as [Hki Hk]. split.
  - split; [done|]. intros Hno. by destruct (Hno k).
  - intros _. split; [done|]. intros m. split; [intros Hm; by eapply Hdet|by intros ->].
Qed.
End claims.

(** A disk with an empty root directory. *)
Definition root_block : list Z := default [] (dots_block 1 1).

Definition root_fs : fs ram_disk :=
  default demo_fs (snd <$> (_ ← inode_write 1 (new_dir_inode 132); block_write 132 root_block) demo_fs).
Definition root_afs : afs := a_write 132 root_block (a_put_inode 1 (new_dir_inode 132) demo_afs).

Lemma root_inum : inum_ok 1.
Proof. unfold inum_ok. change ARESFS_INODE_COUNT with 512. lia. Qed.

Lemma root_dots : dots_block 1 1 = Some root_block.
Proof. vm_compute. reflexivity. Qed.

Lemma root_rep : rep root_fs root_afs /\ a_inode root_afs 1 = new_dir_inode 132.
Proof.
  assert (Hino : inode_ok (new_dir_inode 132)) by (apply new_dir_inode_ok; unfold field_ok; lia).
  assert (Hblk : blk_ok root_block).
  { destruct (dots_block_ok 1 1) as (b & Hb & Hok & _); [unfold field_ok; lia..|]. rewrite root_dots in Hb. by injection Hb as <-. }
  assert (Hrun : runs (_ ← inode_write 1 (new_dir_inode 132); block_write 132 root_block) demo_fs (fun _ s => rep s root_afs)).
  { apply runs_bind. eapply runs_mono; [apply (inode_write_ok demo_fs demo_afs 1 _ demo_rep root_inum Hino)|]. intros st s [_ Hr].
    eapply runs_mono; [apply (block_write_ok s _ 132 _ Hr); [unfold block_ok, ARESFS_TOTAL_BLOCKS; lia|done]|]. by intros st' s' [_ ?]. }
  destruct Hrun as (st & s & Hrun & Hr). split.
  - unfold root_fs. rewrite Hrun. exact Hr.
  - unfold root_afs. rewrite a_inode_write_data by (rewrite ?data_start; (lia || apply root_inum)).
    by rewrite (a_inode_put demo_fs), Z.eqb_refl by (done || apply demo_rep || apply root_inum).
Qed.

Lemma root_bitmaps : bitmaps_inv root_afs.
Proof.
  apply bitmaps_inv_write; [|unfold ARESFS_INODE_BITMAP_BLOCK; lia]. apply bitmaps_inv_write; [apply demo_bitmaps|].
  pose proof (slot_bounds 1 root_inum) as (_ & _ & ? & _). unfold ARESFS_INODE_BITMAP_BLOCK. lia.
Qed.

Lemma root_dir : dir_wf root_afs (a_inode root_afs 1) /\
  forall nm k, dir_maps root_afs (a_inode root_afs 1) nm k <-> (nm = [46] /\ k = 1) \/ (nm = [46; 46] /\ k = 1).
Proof.
  rewrite (proj2 root_rep). eapply (dots_dir_wf root_afs 132 1 1 root_block); [|lia|lia|unfold field_ok; lia|unfold field_ok; lia|apply root_dots|].
  - split; [rewrite data_start; unfold ARESFS_TOTAL_BLOCKS; lia|vm_compute; reflexivity].
  - cbn [root_afs a_write a_blk]. unfold root_afs. cbn [a_write a_blk]. reflexivity.
Qed.

Lemma root_tree : tree_ok root_afs.
Proof.
  assert (Hother : forall n, inum_ok n -> n <> 1 -> is_dir (a_inode root_afs n) = false).
  { intros n Hn Hne. unfold root_afs. rewrite a_inode_write_data by (rewrite ?data_start; (lia || done)).
    rewrite (a_inode_put demo_fs); [|apply demo_rep|apply root_inum|done|apply new_dir_inode_ok; unfold field_ok; lia].
    rewrite (proj2 (Z.eqb_neq n 1)) by done.
    assert (Hz : a_blk demo_afs (slot_blk n) = zero_block).
    { pose proof (slot_bounds n Hn) as (_ & _ & Hb & _). unfold demo_afs, RamDisk.sector. cbn [a_blk f_dev demo_fs sectors].
      rewrite !lookup_insert_ne by (unfold ARESFS_BASE_LBA; lia). done. }
    unfold a_inode. rewrite Hz. unfold slice, zero_block. rewrite drop_replicate, take_replicate.
    pose proof (slot_bounds n Hn) as (H0 & H1 & _). change (Z.to_nat ARESFS_INODE_SIZE) with 128%nat.
    replace (128 `min` (512 - Z.to_nat (slot_off n)))%nat with 128%nat by lia. vm_compute. reflexivity. }
  split.
  - intros n Hn Hd. destruct (Z.eq_dec n 1) as [->|Hne]; [apply root_dir|]. rewrite Hother in Hd by done. done.
  - intros n nm k Hn Hd Hm. destruct (Z.eq_dec n 1) as [->|Hne]; [|rewrite Hother in Hd by done; done].
    apply root_dir in Hm as [[_ ->]|[_ ->]]; apply root_inum.
Qed.

Lemma directory_refines_map_witness :
  runs (st ← dir_add_entry 1 ([97] ++ [0]) 7; k ← dir_find_entry 1 ([97] ++ [0]); mret (st, k)) root_fs (fun r _ =>
    r.1 = ARES_OK -> r.2 = 7).
Proof.
  assert (Hnm : name_ok [97]) by (split; [repeat constructor; unfold char_ok; lia|cbn; lia]).
  eapply runs_mono; [apply (directory_refines_map root_fs root_afs 1 [97] 7 [97] (proj1 root_rep) root_bitmaps root_inum (proj1 root_dir) Hnm Hnm)|].
  - lia.
  - unfold field_ok. lia.
  - intros [st k] s' (a' & _ & _ & _ & _ & [(_ & _ & Hk & _)|[(-> & _)|(-> & _)]]); [by intros _; apply Hk|done|done].
Defined.

Lemma lookup_path_resolves_witness :
  runs (lookup_path (Some ([47; 46; 47; 47] ++ [0]))) root_fs (fun k _ => k <> 0 -> k = 1).
Proof.
  eapply runs_mono; [apply (lookup_path_resolves root_fs root_afs [47; 46; 47; 47] (proj1 root_rep) root_tree)|].
  - repeat constructor; unfold char_ok; lia.
  - intros k s' (_ & _ & Hk) Hne. destruct (Hk Hne) as [_ Hres]. symmetry. apply Hres.
    change (comps [47; 46; 47; 47]) with [[46]]. econstructor; [vm_compute; reflexivity| |constructor]. apply root_dir. by left.
Defined.

End FsDir.
