(* ===== verification/FsApi.v ===== *)
(** fs/aresfs.c, the public interface: format, mount and unmount, open files,
    directories, status, and the boot wiring. *)
From S2P Require Import Prelude Interfaces Bytes RamDisk FsDisk FsFile FsDir.
Import RamDisk FsDisk FsFile FsDir.

Module FsApi.

Definition ARESFS_O_RDONLY : Z := 0.
Definition ARESFS_O_WRONLY : Z := 1.
Definition ARESFS_O_CREAT : Z := 0x40.
Definition ARESFS_O_TRUNC : Z := 0x200.
Definition ARESFS_O_APPEND : Z := 0x400.

Definition sb_checksum (sb : aresfs_superblock) : Z :=
  Z.lxor (u32 (magic sb + version sb + total_blocks sb + block_size sb + root_inode sb + block_bitmap_blocks sb
    + inode_bitmap_blocks sb + data_bitmap_blocks sb + inode_start_block sb + data_start_block sb)) 0xDEADBEEF.

Definition set_checksum (c : Z) (sb : aresfs_superblock) : aresfs_superblock :=
  mk_sb (magic sb) (version sb) (total_blocks sb) (block_size sb) (root_inode sb) (block_bitmap_blocks sb)
    (inode_bitmap_blocks sb) (data_bitmap_blocks sb) (inode_start_block sb) (data_start_block sb) (sb_pad sb) c.

(** An unused descriptor, as [fs_memset] leaves it. *)
Definition zero_fd : fd_entry := mk_fd false 0 0 0.
Definition no_fds : list fd_entry := replicate (Z.to_nat ARESFS_MAX_OPEN_FILES) zero_fd.

(** The superblock that [aresfs_format] writes. *)
Definition format_sb : aresfs_superblock :=
  let sb := mk_sb ARESFS_MAGIC ARESFS_VERSION ARESFS_TOTAL_BLOCKS ARESFS_BLOCK_SIZE ARESFS_ROOT_INODE 1 1 0
              ARESFS_INODE_START_BLOCK ARESFS_DATA_START_BLOCK (replicate 468 0) 0 in
  set_checksum (sb_checksum sb) sb.

(** A new file, over a zeroed structure. *)
Definition new_file_inode : aresfs_inode := set_mode (Z.lor ARESFS_TYPE_FILE ARESFS_PERM_DEFAULT) zero_inode.

Definition is_file (ino : aresfs_inode) : bool := Z.land (mode ino) ARESFS_TYPE_MASK =? ARESFS_TYPE_FILE.

(** Setting the bits [0..n) of a bitmap. *)
Fixpoint bitmap_set_below (n : nat) (i : Z) (bm : list Z) : option (list Z) :=
  match n with
  | O => Some bm
  | S n => bm ← bitmap_set bm i; bitmap_set_below n (i + 1) bm
  end.

Section api.
Context {D : Type} {HD : BlockDevice D}.

(** [st = m; if (st != ARES_OK) return st; k] *)
Definition or_return (m k : prog (fs D) ares_status) : prog (fs D) ares_status :=
  st ← m; if bool_decide (st <> ARES_OK) then mret st else k.

(** * Format, mount, unmount *)

Definition aresfs_format : prog (fs D) ares_status :=
  present ← gets (fun s => bd_present (f_dev s));
  if negb present then mret ARES_ENODEV
  else
    _ ← modify (set_sb format_sb);
    or_return (block_write ARESFS_SUPERBLOCK_BLOCK (splice 0 (sb_bytes format_sb) zero_block)) (
    bbm ← need (bitmap_set_below (Z.to_nat (ARESFS_DATA_START_BLOCK + 1)) 0 zero_block);
    _ ← modify (set_block_bitmap bbm);
    or_return (block_write ARESFS_BLOCK_BITMAP_BLOCK bbm) (
    ibm ← need (bitmap_set zero_block ARESFS_INODE_INVALID ≫= fun bm => bitmap_set bm ARESFS_ROOT_INODE);
    _ ← modify (set_inode_bitmap ibm);
    or_return (block_write ARESFS_INODE_BITMAP_BLOCK ibm) (
    r ← for_ret (Z.to_nat ARESFS_INODE_TABLE_BLOCKS) 0 (fun i =>
      st ← block_write (ARESFS_INODE_START_BLOCK + i) zero_block;
      mret (if bool_decide (st <> ARES_OK) then Some st else None));
    match r with
    | Some st => mret st
    | None =>
        or_return (inode_write ARESFS_ROOT_INODE (new_dir_inode ARESFS_DATA_START_BLOCK)) (
        buf ← need (dots_block ARESFS_ROOT_INODE ARESFS_ROOT_INODE);
        or_return (block_write ARESFS_DATA_START_BLOCK buf) (
        _ ← modify (set_fds no_fds);
        _ ← modify (set_mounted true);
        mret ARES_OK))
    end))).

Definition aresfs_mount : prog (fs D) ares_status :=
  present ← gets (fun s => bd_present (f_dev s));
  if negb present then mret ARES_ENODEV
  else
    '(st, buf) ← block_read ARESFS_SUPERBLOCK_BLOCK zero_block;
    if bool_decide (st <> ARES_OK) then mret st
    else
      let sb := sb_of_bytes buf in
      _ ← modify (set_sb sb);
      if negb (magic sb =? ARESFS_MAGIC) then mret ARES_EINVAL
      else if negb (version sb =? ARESFS_VERSION) then mret ARES_EINVAL
      else if negb (block_size sb =? ARESFS_BLOCK_SIZE) then mret ARES_EINVAL
      else if negb (checksum sb =? sb_checksum sb) then mret ARES_EINVAL
      else
        bm0 ← gets g_block_bitmap;
        '(st, bbm) ← block_read ARESFS_BLOCK_BITMAP_BLOCK bm0;
        _ ← modify (set_block_bitmap bbm);
        if bool_decide (st <> ARES_OK) then mret st
        else
          im0 ← gets g_inode_bitmap;
          '(st, ibm) ← block_read ARESFS_INODE_BITMAP_BLOCK im0;
          _ ← modify (set_inode_bitmap ibm);
          if bool_decide (st <> ARES_OK) then mret st
          else
            _ ← modify (set_fds no_fds);
            _ ← modify (set_mounted true);
            mret ARES_OK.

Definition aresfs_unmount : prog (fs D) ares_status :=
  mounted ← gets g_mounted;
  if negb mounted then mret ARES_EINVAL
  else
    sb ← gets g_sb;
    let sb := set_checksum (sb_checksum sb) sb in
    _ ← modify (set_sb sb);
    _ ← block_write ARESFS_SUPERBLOCK_BLOCK (splice 0 (sb_bytes sb) zero_block);
    bbm ← gets g_block_bitmap;
    _ ← block_write ARESFS_BLOCK_BITMAP_BLOCK bbm;
    ibm ← gets g_inode_bitmap;
    _ ← block_write ARESFS_INODE_BITMAP_BLOCK ibm;
    _ ← modify (set_fds no_fds);
    _ ← modify (set_mounted false);
    mret ARES_OK.

(** * Descriptors *)

Definition get_fd (fd : Z) : prog (fs D) fd_entry := fds ← gets g_fds; need (arr_get fds fd).
Definition put_fd (fd : Z) (e : fd_entry) : prog (fs D) unit :=
  fds ← gets g_fds; fds ← need (arr_set fds fd e); modify (set_fds fds).

(** -1 when all descriptors are in use. *)
Definition fd_alloc : prog (fs D) Z :=
  r ← for_ret (Z.to_nat ARESFS_MAX_OPEN_FILES) 0 (fun i =>
    e ← get_fd i; mret (if fd_used e then None else Some i));
  mret (default (-1) r).

(** [fd < 0 || fd >= ARESFS_MAX_OPEN_FILES], or the descriptor is not in use. *)
Definition fd_valid (fd : Z) : prog (fs D) bool :=
  if (fd <? 0) || (ARESFS_MAX_OPEN_FILES <=? fd) then mret false
  else e ← get_fd fd; mret (fd_used e).

(** The part of [aresfs_open] that finds or creates the file: the inode number
    and the inode, [None] for [return -1]. *)
Definition open_inode (path : list Z) (flags : Z) : prog (fs D) (option (Z * aresfs_inode)) :=
  ino_num ← lookup_path (Some path);
  if ino_num =? ARESFS_INODE_INVALID then
    if Z.land flags ARESFS_O_CREAT =? 0 then mret None
    else
      sp ← split_parent_leaf (Some path);
      match sp with
      | None => mret None
      | Some (parent, leaf) =>
          ino_num ← alloc_inode;
          if ino_num =? ARESFS_INODE_INVALID then mret None
          else
            st ← inode_write ino_num new_file_inode;
            if bool_decide (st <> ARES_OK) then _ ← free_inode ino_num; mret None
            else
              st ← dir_add_entry parent leaf ino_num;
              if bool_decide (st <> ARES_OK) then _ ← free_inode ino_num; mret None
              else mret (Some (ino_num, new_file_inode))
      end
  else
    r ← inode_read ino_num;
    match r with
    | inl _ => mret None
    | inr ino =>
        if negb (is_file ino) then mret None
        else if negb (Z.land flags ARESFS_O_TRUNC =? 0) then
          ino ← inode_truncate ino;
          st ← inode_write ino_num ino;
          if bool_decide (st <> ARES_OK) then mret None else mret (Some (ino_num, ino))
        else mret (Some (ino_num, ino))
    end.

Definition aresfs_open (path : option (list Z)) (flags : Z) : prog (fs D) Z :=
  mounted ← gets g_mounted;
  match path with
  | None => mret (-1)
  | Some path =>
      if negb mounted then mret (-1)
      else
        r ← open_inode path flags;
        match r with
        | None => mret (-1)
        | Some (ino_num, ino) =>
            fd ← fd_alloc;
            if fd <? 0 then mret (-1)
            else
              _ ← put_fd fd (mk_fd true ino_num (if negb (Z.land flags ARESFS_O_APPEND =? 0) then size ino else 0) flags);
              mret fd
        end
  end.

Definition aresfs_close (fd : Z) : prog (fs D) ares_status :=
  v ← fd_valid fd;
  if negb v then mret ARES_EINVAL
  else _ ← put_fd fd zero_fd; mret ARES_OK.

(** [isnull]: the buffer argument is a null pointer.  Returns the C result and
    the bytes stored to the buffer. *)
Definition aresfs_read (fd : Z) (isnull : bool) (count : Z) : prog (fs D) (Z * list Z) :=
  mounted ← gets g_mounted;
  if negb mounted || isnull then mret (-1, [])
  else
    v ← fd_valid fd;
    if negb v then mret (-1, [])
    else
      e ← get_fd fd;
      if Z.land (fd_flags e) 3 =? ARESFS_O_WRONLY then mret (-1, [])
      else
        r ← inode_read (fd_inode e);
        match r with
        | inl _ => mret (-1, [])
        | inr ino =>
            '(n, bytes) ← file_read_body ino (fd_pos e) count;
            _ ← (if 0 <? n then put_fd fd (mk_fd (fd_used e) (fd_inode e) (u64 (fd_pos e + n)) (fd_flags e)) else mret tt);
            mret (n, bytes)
        end.

(** [buf]: [None] is a null pointer, otherwise the [count] bytes to write. *)
Definition aresfs_write (fd : Z) (buf : option (list Z)) : prog (fs D) Z :=
  mounted ← gets g_mounted;
  match buf with
  | None => mret (-1)
  | Some src =>
      if negb mounted then mret (-1)
      else
        v ← fd_valid fd;
        if negb v then mret (-1)
        else
          e ← get_fd fd;
          if Z.land (fd_flags e) 3 =? ARESFS_O_RDONLY then mret (-1)
          else
            r ← inode_read (fd_inode e);
            match r with
            | inl _ => mret (-1)
            | inr ino =>
                let e := if negb (Z.land (fd_flags e) ARESFS_O_APPEND =? 0)
                         then mk_fd (fd_used e) (fd_inode e) (size ino) (fd_flags e) else e in
                _ ← put_fd fd e;
                n ← file_write_body (fd_inode e) ino (fd_pos e) src;
                _ ← (if 0 <? n then put_fd fd (mk_fd (fd_used e) (fd_inode e) (u64 (fd_pos e + n)) (fd_flags e)) else mret tt);
                mret n
            end
  end.

(** * Directories and status *)

Definition aresfs_mkdir (path : option (list Z)) : prog (fs D) ares_status :=
  mounted ← gets g_mounted;
  match path with
  | None => mret ARES_EINVAL
  | Some path =>
      if negb mounted then mret ARES_EINVAL
      else
        f ← lookup_path (Some path);
        if negb (f =? ARESFS_INODE_INVALID) then mret ARES_EBUSY
        else
          sp ← split_parent_leaf (Some path);
          match sp with
          | None => mret ARES_EINVAL
          | Some (parent, leaf) =>
              ino_num ← alloc_inode;
              if ino_num =? ARESFS_INODE_INVALID then mret ARES_ENOMEM
              else
                data_block ← alloc_block;
                if data_block =? 0 then _ ← free_inode ino_num; mret ARES_ENOMEM
                else
                  let undo st := _ ← free_block data_block; _ ← free_inode ino_num; mret st in
                  buf ← need (dots_block ino_num parent);
                  st ← block_write data_block buf;
                  if bool_decide (st <> ARES_OK) then undo st
                  else
                    st ← inode_write ino_num (new_dir_inode data_block);
                    if bool_decide (st <> ARES_OK) then undo st
                    else
                      st ← dir_add_entry parent leaf ino_num;
                      if bool_decide (st <> ARES_OK) then undo st else mret ARES_OK
          end
  end.

(** The text of a listing: each name and a newline.  [inr] is the text so far,
    [inl] a listing that does not fit (the buffer keeps what was written). *)
Fixpoint list_block (n : nat) (s bufsize : Z) (buf text : list Z) : option (list Z + list Z) :=
  match n with
  | O => Some (inr text)
  | S n =>
      if le_get (s * ARESFS_DIRENT_SIZE) 4 buf =? ARESFS_INODE_INVALID then list_block n (s + 1) bufsize buf text
      else
        let name := drop (Z.to_nat (s * ARESFS_DIRENT_SIZE + 4)) buf in
        len ← fs_strlen name;
        if bufsize <? Z.of_nat (length text) + len + 2 then Some (inl text)
        else list_block n (s + 1) bufsize buf (text ++ take (Z.to_nat len) name ++ [10])
  end.

Fixpoint list_blocks (blks : list Z) (bufsize : Z) (text : list Z) : prog (fs D) (list Z + list Z) :=
  match blks with
  | [] => mret (inr text)
  | blk :: blks =>
      if blk =? 0 then list_blocks blks bufsize text
      else
        '(st, buf) ← block_read blk zero_block;
        if bool_decide (st <> ARES_OK) then list_blocks blks bufsize text
        else
          r ← need (list_block (Z.to_nat ARESFS_DIRENTS_PER_BLOCK) 0 bufsize buf text);
          match r with
          | inl text => mret (inl text)
          | inr text => list_blocks blks bufsize text
          end
  end.

(** Returns the status and the characters left in the buffer before the NUL. *)
Definition aresfs_listdir (path : option (list Z)) (isnull : bool) (bufsize : Z) : prog (fs D) (ares_status * list Z) :=
  mounted ← gets g_mounted;
  match path with
  | None => mret (ARES_EINVAL, [])
  | Some path =>
      if negb mounted || isnull || (bufsize =? 0) then mret (ARES_EINVAL, [])
      else
        ino_num ← lookup_path (Some path);
        if ino_num =? ARESFS_INODE_INVALID then mret (ARES_ENODEV, [])
        else
          r ← inode_read ino_num;
          match r with
          | inl _ => mret (ARES_ERROR, [])
          | inr dir =>
              if negb (is_dir dir) then mret (ARES_EINVAL, [])
              else
                r ← list_blocks (direct dir) bufsize [];
                match r with
                | inl text => mret (ARES_ENOMEM, text)
                | inr text => mret (ARES_OK, text)
                end
          end
  end.

(** Status, with the size and mode that are stored through the pointers. *)
Definition aresfs_stat (path : option (list Z)) : prog (fs D) (ares_status * option (Z * Z)) :=
  mounted ← gets g_mounted;
  match path with
  | None => mret (ARES_EINVAL, None)
  | Some path =>
      if negb mounted then mret (ARES_EINVAL, None)
      else
        ino_num ← lookup_path (Some path);
        if ino_num =? ARESFS_INODE_INVALID then mret (ARES_ENODEV, None)
        else
          r ← inode_read ino_num;
          match r with
          | inl _ => mret (ARES_ERROR, None)
          | inr ino => mret (ARES_OK, Some (size ino, mode ino))
          end
  end.

(** Probe the disk, mount, and format when there is no valid file system. *)
Definition fs_init : prog (fs D) unit :=
  _ ← on_dev bd_init;
  present ← gets (fun s => bd_present (f_dev s));
  if negb present then mret tt
  else
    st ← aresfs_mount;
    if bool_decide (st = ARES_OK) then mret tt
    else _ ← aresfs_format; mret tt.
End api.

(** * An example session *)

Definition ram_boot : fs ram_disk := mk_fs zero_sb zero_block zero_block false no_fds blank.

(** "/a" and "/a/b" as C strings. *)
Definition path_a : list Z := [47; 97; 0].
Definition path_ab : list Z := [47; 97; 47; 98; 0].

Definition demo_session : prog (fs ram_disk) (ares_status * Z * Z * ares_status * (Z * list Z)) :=
  _ ← fs_init;
  st ← aresfs_mkdir (Some path_a);
  fd ← aresfs_open (Some path_ab) (Z.lor ARESFS_O_WRONLY ARESFS_O_CREAT);
  n ← aresfs_write fd (Some [1; 2; 3; 4]);
  cl ← aresfs_close fd;
  fd2 ← aresfs_open (Some path_ab) ARESFS_O_RDONLY;
  x ← aresfs_read fd2 false 100;
  mret (st, fd, n, cl, x).

Example demo_session_ok : fst <$> demo_session ram_boot = Some (ARES_OK, 0, 4, ARES_OK, (4, [1; 2; 3; 4])).
Proof. vm_compute. reflexivity. Qed.

(** * Format and mount *)

Lemma format_bbm : bitmap_set_below (Z.to_nat (ARESFS_DATA_START_BLOCK + 1)) 0 zero_block = Some fresh_bbm.
Proof. vm_compute. reflexivity. Qed.

Lemma format_ibm : (bitmap_set zero_block ARESFS_INODE_INVALID ≫= fun bm => bitmap_set bm ARESFS_ROOT_INODE) = Some fresh_ibm.
Proof. vm_compute. reflexivity. Qed.

(** The blocks of a bitmap on a range, by computation. *)
Lemma bits_below bm n v : forallb (fun j => Bool.eqb (bm_bit bm j) (v j)) (seqZ 0 n) = true ->
  forall j, 0 <= j < n -> bm_bit bm j = v j.
Proof.
  intros H j Hj. rewrite forallb_forall in H. apply eqb_prop, H, list_elem_of_In, elem_of_seqZ. lia.
Qed.

Lemma fresh_bits j : block_ok j -> bm_bit fresh_bbm j = (j <=? ARESFS_DATA_START_BLOCK).
Proof. apply (bits_below fresh_bbm 4096 (fun j => j <=? ARESFS_DATA_START_BLOCK)). vm_compute. reflexivity. Qed.

Lemma fresh_inode_bits n : inum_ok n -> bm_bit fresh_ibm n = (n <=? ARESFS_ROOT_INODE).
Proof. apply (bits_below fresh_ibm 512 (fun j => j <=? ARESFS_ROOT_INODE)). vm_compute. reflexivity. Qed.

Lemma fresh_ok : bm_ok fresh_bbm /\ bm_ok fresh_ibm.
Proof. split; apply (bool_decide_unpack _); vm_compute; exact I. Qed.

Lemma format_sb_block : blk_ok (splice 0 (sb_bytes format_sb) zero_block) /\
  sb_of_bytes (splice 0 (sb_bytes format_sb) zero_block) = format_sb.
Proof. split; [apply (bool_decide_unpack _); vm_compute; exact I|vm_compute; reflexivity]. Qed.

Lemma zero_slot_inode n : inum_ok n -> inode_of_bytes (slice (slot_off n) ARESFS_INODE_SIZE zero_block) = zero_inode.
Proof.
  intros Hn. pose proof (slot_bounds n Hn) as (H0 & H1 & _). unfold slice, zero_block. rewrite drop_replicate, take_replicate.
  change (Z.to_nat ARESFS_INODE_SIZE) with 128%nat. replace (128 `min` (512 - Z.to_nat (slot_off n)))%nat with 128%nat by lia.
  vm_compute. reflexivity.
Qed.

(** A freshly formatted file system. *)
Record formatted (a : afs) : Prop := {
  fm_sb : a_sb a = format_sb; fm_bbm : a_bbm a = fresh_bbm; fm_ibm : a_ibm a = fresh_ibm;
  fm_mounted : a_mounted a = true; fm_fds : a_fds a = no_fds;
  fm_super : a_blk a ARESFS_SUPERBLOCK_BLOCK = splice 0 (sb_bytes format_sb) zero_block;
  fm_inv : bitmaps_inv a;
  fm_inode n : inum_ok n -> a_inode a n = if n =? ARESFS_ROOT_INODE then new_dir_inode ARESFS_DATA_START_BLOCK else zero_inode;
  fm_root : a_blk a ARESFS_DATA_START_BLOCK = root_block }.

Section format.
Context {D : Type} {HD : BlockDevice D} {HL : BlockDeviceLaws D}.
Implicit Types (s : fs D) (a : afs).

(** The loop that zeroes the inode table. *)
Lemma zero_table_ok s a : rep s a ->
  runs (for_ret (Z.to_nat ARESFS_INODE_TABLE_BLOCKS) 0 (fun i =>
    st ← block_write (ARESFS_INODE_START_BLOCK + i) zero_block;
    mret (if bool_decide (st <> ARES_OK) then Some st else None))) s (fun r s' => r = None /\ exists a', rep s' a' /\
    a_blk a' = (fun c => if (4 <=? c) && (c <? 132) then zero_block else a_blk a c) /\
    (a_sb a', a_bbm a', a_ibm a', a_mounted a', a_fds a') = (a_sb a, a_bbm a, a_ibm a, a_mounted a, a_fds a)).
Proof.
  intros Hr. change (Z.to_nat ARESFS_INODE_TABLE_BLOCKS) with 128%nat. unfold ARESFS_INODE_START_BLOCK.
  set (upto k := mk_afs (a_sb a) (a_bbm a) (a_ibm a) (a_mounted a) (a_fds a) (fun c => if (4 <=? c) && (c <? 4 + k) then zero_block else a_blk a c)).
  apply (runs_for_ret (fun k t => rep t (upto k))).
  - split; try apply Hr. intros b Hb. cbn. rewrite (rep_blk _ _ Hr b Hb). change (4 + 0) with 4. destruct (Z.leb_spec 4 b), (Z.ltb_spec b 4); try done; lia.
  - intros k t Hk Ht. run. eapply runs_mono; [apply (block_write_ok t (upto k) (4 + k) zero_block Ht)|].
    + unfold block_ok, ARESFS_TOTAL_BLOCKS. lia.
    + apply zero_block_ok.
    + intros st t' [-> Ht']. run. rewrite bool_decide_false by (intros H'; by apply H'). split; try apply Ht'.
      intros b Hb. rewrite (rep_blk _ _ Ht' b Hb). cbn. destruct (Z.eqb_spec b (4 + k)) as [->|].
      * by rewrite (proj2 (Z.leb_le _ _)), (proj2 (Z.ltb_lt _ _)) by lia.
      * destruct (Z.leb_spec 4 b), (Z.ltb_spec b (4 + k)), (Z.ltb_spec b (4 + (k + 1))); try done; lia.
  - intros t Ht. split; [done|]. exists (upto 128). done.
Qed.

Lemma runs_or_return m k s (P : fs D -> Prop) (Q : ares_status -> fs D -> Prop) :
  runs m s (fun st s' => st = ARES_OK /\ P s') -> (forall s', P s' -> runs k s' Q) -> runs (or_return m k) s Q.
Proof.
  intros Hm Hk. unfold or_return. apply runs_bind. eapply runs_mono; [exact Hm|]. intros st s' [-> HP].
  rewrite bool_decide_false by (intros H'; by apply H'). by apply Hk.
Qed.

Lemma aresfs_format_ok s a : rep s a ->
  runs aresfs_format s (fun st s' => st = ARES_OK /\ exists a', rep s' a' /\ formatted a').
Proof.
  intros Hr. unfold aresfs_format. run. rewrite (bd_present_ok _ (rep_dev _ _ Hr)). cbn [negb]. run.
  eapply runs_or_return; [apply (block_write_ok _ _ ARESFS_SUPERBLOCK_BLOCK _ (rep_set_sb _ _ format_sb Hr)); [done|apply format_sb_block]|]. intros s1 Hr1.
  run. eapply runs_need; [exact format_bbm|]. run.
  eapply runs_or_return; [apply (block_write_ok _ _ ARESFS_BLOCK_BITMAP_BLOCK fresh_bbm (rep_set_bbm _ _ fresh_bbm Hr1)); [done|apply fresh_ok]|]. intros s2 Hr2.
  run. eapply runs_need; [exact format_ibm|]. run.
  eapply runs_or_return; [apply (block_write_ok _ _ ARESFS_INODE_BITMAP_BLOCK fresh_ibm (rep_set_ibm _ _ fresh_ibm Hr2)); [done|apply fresh_ok]|]. intros s3 Hr3.
  run. eapply runs_mono; [apply (zero_table_ok _ _ Hr3)|]. intros r s4 (-> & a4 & Hr4 & Hb4 & Hc4).
  assert (Hroot : inum_ok ARESFS_ROOT_INODE) by exact root_inum.
  assert (Hino : inode_ok (new_dir_inode ARESFS_DATA_START_BLOCK)) by (apply new_dir_inode_ok; rewrite data_start; unfold field_ok; lia).
  eapply runs_or_return; [by apply (inode_write_ok s4 a4 ARESFS_ROOT_INODE)|]. intros s5 Hr5.
  assert (Hrb : blk_ok root_block).
  { destruct (dots_block_ok 1 1) as (b & Hb & Hok & _); [unfold field_ok; lia..|]. rewrite root_dots in Hb. by injection Hb as <-. }
  run. eapply runs_need; [exact root_dots|].
  eapply runs_or_return; [apply (block_write_ok s5 _ ARESFS_DATA_START_BLOCK root_block Hr5); [rewrite data_start; unfold block_ok, ARESFS_TOTAL_BLOCKS; lia|done]|].
  intros s6 Hr6. run. split; [done|]. eexists. split; [apply rep_set_mounted, rep_set_fds, Hr6|].
  set (a5 := a_put_inode ARESFS_ROOT_INODE (new_dir_inode ARESFS_DATA_START_BLOCK) a4). injection Hc4 as Hsb Hbbm Hibm Hmt Hfds.
  assert (Hblk : forall c, c <> ARESFS_INODE_START_BLOCK -> c <> ARESFS_DATA_START_BLOCK ->
    a_blk (a_set_mounted true (a_set_fds no_fds (a_write ARESFS_DATA_START_BLOCK root_block a5))) c = a_blk a4 c).
  { intros c Hc Hd. unfold a5, a_put_inode. cbn [a_set_mounted a_set_fds a_write a_blk].
    rewrite (proj2 (Z.eqb_neq c _) Hd). by rewrite (proj2 (Z.eqb_neq c (slot_blk ARESFS_ROOT_INODE)) Hc). }
  split; try done.
  - rewrite Hblk, Hb4 by done. reflexivity.
  - destruct fresh_ok as [Hf1 Hf2]. split; rewrite ?Hblk, ?Hb4 by done;
      cbn [a_set_mounted a_set_fds a_write a_put_inode a5 a_bbm a_ibm]; unfold a5, a_put_inode; cbn [a_write a_bbm a_ibm]; rewrite ?Hbbm, ?Hibm; try done.
    + intros j Hj. rewrite fresh_bits by (rewrite data_start in Hj; unfold block_ok, ARESFS_TOTAL_BLOCKS; lia). apply Z.leb_le. lia.
    + intros j Hj. rewrite fresh_inode_bits by (unfold ARESFS_ROOT_INODE in Hj; unfold inum_ok; change ARESFS_INODE_COUNT with 512; lia).
      apply Z.leb_le. lia.
  - intros n Hn. change (a_inode (a_set_mounted true (a_set_fds no_fds (a_write ARESFS_DATA_START_BLOCK root_block a5))) n)
      with (a_inode (a_write ARESFS_DATA_START_BLOCK root_block a5) n).
    rewrite a_inode_write_data by done. unfold a5. rewrite (a_inode_put s4) by done. destruct (n =? ARESFS_ROOT_INODE); [done|].
    unfold a_inode. rewrite Hb4. pose proof (slot_bounds n Hn) as (_ & _ & Hb & _).
    rewrite (proj2 (Z.leb_le _ _)), (proj2 (Z.ltb_lt _ _)) by lia. by apply zero_slot_inode.
Qed.

(** The directory tree of a formatted disk is the root with its two entries. *)
Lemma formatted_tree a : formatted a -> tree_ok a /\
  forall nm k, dir_maps a (a_inode a ARESFS_ROOT_INODE) nm k <-> (nm = [46] \/ nm = [46; 46]) /\ k = ARESFS_ROOT_INODE.
Proof.
  intros Hf. assert (Hroot : a_inode a ARESFS_ROOT_INODE = new_dir_inode ARESFS_DATA_START_BLOCK) by (rewrite (fm_inode _ Hf) by apply root_inum; reflexivity).
  destruct (dots_dir_wf a ARESFS_DATA_START_BLOCK 1 1 root_block) as [Hwf Hmaps]; [|lia|lia|unfold field_ok; lia|unfold field_ok; lia|apply root_dots|apply Hf|].
  { split; [rewrite data_start; unfold ARESFS_TOTAL_BLOCKS; lia|]. rewrite (fm_bbm _ Hf). vm_compute. reflexivity. }
  rewrite <- Hroot in Hwf, Hmaps.
  assert (Hother : forall n, inum_ok n -> is_dir (a_inode a n) = true -> n = ARESFS_ROOT_INODE).
  { intros n Hn Hd. rewrite (fm_inode _ Hf) in Hd by done. destruct (Z.eqb_spec n ARESFS_ROOT_INODE); [done|]. discriminate Hd. }
  split.
  - split; [intros n Hn Hd; by rewrite (Hother n Hn Hd)|]. intros n nm k Hn Hd. rewrite (Hother n Hn Hd), Hmaps.
    intros [[_ ->]|[_ ->]]; apply root_inum.
  - intros nm k. rewrite Hmaps. unfold ARESFS_ROOT_INODE. naive_solver.
Qed.
End format.

Section mount.
Context {D : Type} {HD : BlockDevice D} {HL : BlockDeviceLaws D}.
Implicit Types (s : fs D) (a : afs).

(** The superblock that [aresfs_mount] accepts. *)
Definition sb_valid (sb : aresfs_superblock) : bool :=
  (magic sb =? ARESFS_MAGIC) && (version sb =? ARESFS_VERSION) && (block_size sb =? ARESFS_BLOCK_SIZE) && (checksum sb =? sb_checksum sb).

(** Mounting loads the caches from the disk if the superblock is valid, and
    otherwise refuses and leaves the mount state alone. *)
Lemma aresfs_mount_ok s a : rep s a -> length (a_bbm a) = 512%nat -> length (a_ibm a) = 512%nat ->
  let sb := sb_of_bytes (a_blk a ARESFS_SUPERBLOCK_BLOCK) in
  runs aresfs_mount s (fun st s' =>
    if sb_valid sb
    then st = ARES_OK /\ rep s' (a_set_mounted true (a_set_fds no_fds (a_set_ibm (a_blk a ARESFS_INODE_BITMAP_BLOCK)
           (a_set_bbm (a_blk a ARESFS_BLOCK_BITMAP_BLOCK) (a_set_sb sb a)))))
    else st = ARES_EINVAL /\ rep s' (a_set_sb sb a)).
Proof.
  intros Hr Hb Hi sb. unfold aresfs_mount. run. rewrite (bd_present_ok _ (rep_dev _ _ Hr)). cbn [negb].
  run. eapply runs_mono; [by apply (block_read_ok s a ARESFS_SUPERBLOCK_BLOCK)|]. intros r s1 [-> Hr1].
  rewrite bool_decide_false by (intros H'; by apply H'). fold sb. cbv zeta. run. apply (rep_set_sb _ _ sb) in Hr1. unfold sb_valid.
  destruct (magic sb =? ARESFS_MAGIC); cbn [negb andb]; [|by run]. destruct (version sb =? ARESFS_VERSION); cbn [negb andb]; [|by run].
  destruct (block_size sb =? ARESFS_BLOCK_SIZE); cbn [negb andb]; [|by run]. destruct (checksum sb =? sb_checksum sb); cbn [negb]; [|by run].
  run. eapply runs_mono; [apply (block_read_ok _ _ ARESFS_BLOCK_BITMAP_BLOCK _ Hr1); [done|by rewrite (rep_bbm _ _ Hr1)]|].
  intros r s2 [-> Hr2]. run. rewrite bool_decide_false by (intros H'; by apply H').
  apply (rep_set_bbm _ _ (a_blk (a_set_sb sb a) ARESFS_BLOCK_BITMAP_BLOCK)) in Hr2.
  run. eapply runs_mono; [apply (block_read_ok _ _ ARESFS_INODE_BITMAP_BLOCK _ Hr2); [done|by rewrite (rep_ibm _ _ Hr2)]|].
  intros r s3 [-> Hr3]. run. rewrite bool_decide_false by (intros H'; by apply H'). run. split; [done|].
  by apply rep_set_mounted, rep_set_fds, rep_set_ibm.
Qed.

(** Unmounting writes the caches back. *)
Lemma aresfs_unmount_ok s a : rep s a -> a_mounted a = true -> bm_ok (a_bbm a) -> bm_ok (a_ibm a) ->
  let sb := set_checksum (sb_checksum (a_sb a)) (a_sb a) in blk_ok (splice 0 (sb_bytes sb) zero_block) ->
  runs aresfs_unmount s (fun st s' => st = ARES_OK /\
    rep s' (a_set_mounted false (a_set_fds no_fds (a_write ARESFS_INODE_BITMAP_BLOCK (a_ibm a) (a_write ARESFS_BLOCK_BITMAP_BLOCK (a_bbm a)
      (a_write ARESFS_SUPERBLOCK_BLOCK (splice 0 (sb_bytes sb) zero_block) (a_set_sb sb a))))))).
Proof.
  intros Hr Hm Hb Hi sb Hsb. unfold aresfs_unmount. run. rewrite (rep_mounted _ _ Hr), Hm. cbn [negb]. run. rewrite (rep_sb _ _ Hr). cbv zeta. fold sb. run.
  apply (rep_set_sb _ _ sb) in Hr. eapply runs_mono; [apply (block_write_ok _ _ ARESFS_SUPERBLOCK_BLOCK _ Hr); done|]. intros st s1 [_ Hr1].
  run. rewrite (rep_bbm _ _ Hr1). eapply runs_mono; [apply (block_write_ok _ _ ARESFS_BLOCK_BITMAP_BLOCK _ Hr1); done|]. intros st2 s2 [_ Hr2].
  run. rewrite (rep_ibm _ _ Hr2). eapply runs_mono; [apply (block_write_ok _ _ ARESFS_INODE_BITMAP_BLOCK _ Hr2); done|]. intros st3 s3 [_ Hr3].
  run. split; [done|]. by apply rep_set_mounted, rep_set_fds.
Qed.

(** C28: format, unmount and mount round trip.  On a healthy disk with any
    contents [aresfs_format] succeeds, and unmounting and mounting give the
    formatted file system back: exactly the blocks 0 to 132 and the inodes 0
    and 1 in use, no open descriptor, and a directory tree that consists of
    the root with its entries "." and "..". *)
Theorem format_mount_roundtrip s a :
  rep s a ->
  runs (st1 ← aresfs_format; st2 ← aresfs_unmount; st3 ← aresfs_mount; mret (st1, st2, st3)) s (fun r s' =>
    r = (ARES_OK, ARES_OK, ARES_OK) /\ exists a', rep s' a' /\ bitmaps_inv a' /\ tree_ok a' /\
    a_sb a' = format_sb /\ a_mounted a' = true /\ a_fds a' = no_fds /\
    (forall j, block_ok j -> bm_bit (a_bbm a') j = (j <=? ARESFS_DATA_START_BLOCK)) /\
    (forall n, inum_ok n -> bm_bit (a_ibm a') n = (n <=? ARESFS_ROOT_INODE)) /\
    (forall nm k, dir_maps a' (a_inode a' ARESFS_ROOT_INODE) nm k <-> (nm = [46] \/ nm = [46; 46]) /\ k = ARESFS_ROOT_INODE)).
Proof.
  intros Hr. run. eapply runs_mono; [apply (aresfs_format_ok s a Hr)|]. intros st1 s1 (-> & a1 & Hr1 & Hf). run.
  assert (Hsb : set_checksum (sb_checksum (a_sb a1)) (a_sb a1) = format_sb) by (rewrite (fm_sb _ Hf); vm_compute; reflexivity).
  destruct fresh_ok as [Hf1 Hf2].
  eapply runs_mono; [apply (aresfs_unmount_ok s1 a1 Hr1); [apply Hf|by rewrite (fm_bbm _ Hf)|by rewrite (fm_ibm _ Hf)|]|].
  { rewrite Hsb. apply format_sb_block. }
  rewrite Hsb, (fm_bbm _ Hf), (fm_ibm _ Hf). intros st2 s2 [-> Hr2]. run.
  eapply runs_mono; [apply (aresfs_mount_ok s2 _ Hr2); cbn [a_set_mounted a_set_fds a_write a_set_sb a_bbm a_ibm]; [rewrite (fm_bbm _ Hf); apply Hf1|rewrite (fm_ibm _ Hf); apply Hf2]|].
  set (a2 := a_set_mounted false _) in *. assert (Hsup : a_blk a2 ARESFS_SUPERBLOCK_BLOCK = splice 0 (sb_bytes format_sb) zero_block) by reflexivity.
  rewrite Hsup, (proj2 format_sb_block). change (sb_valid format_sb) with true. cbn match. intros st3 s3 [-> Hr3]. run. split; [done|].
  assert (Hblk : forall c, ARESFS_INODE_BITMAP_BLOCK < c -> a_blk a2 c = a_blk a1 c).
  { intros c Hc. unfold a2. cbn [a_set_mounted a_set_fds a_write a_set_sb a_blk]. unfold ARESFS_INODE_BITMAP_BLOCK, ARESFS_BLOCK_BITMAP_BLOCK, ARESFS_SUPERBLOCK_BLOCK in *.
    rewrite (proj2 (Z.eqb_neq c 3)), (proj2 (Z.eqb_neq c 2)), (proj2 (Z.eqb_neq c 1)) by lia. done. }
  eexists. split; [exact Hr3|]. set (a3 := a_set_mounted true _). assert (Hf3 : formatted a3).
  { split; try reflexivity.
    - split; try done.
      + intros j Hj. change (a_bbm a3) with fresh_bbm. rewrite <- (fm_bbm _ Hf). by apply (bi_meta _ (fm_inv _ Hf)).
      + intros j Hj. change (a_ibm a3) with fresh_ibm. rewrite <- (fm_ibm _ Hf). by apply (bi_inodes _ (fm_inv _ Hf)).
    - intros n Hn. rewrite <- (fm_inode _ Hf n Hn). unfold a_inode. do 2 f_equal. apply Hblk.
      pose proof (slot_bounds n Hn) as (_ & _ & ? & _). unfold ARESFS_INODE_BITMAP_BLOCK. lia.
    - rewrite <- (fm_root _ Hf). apply Hblk. done. }
  destruct (formatted_tree a3 Hf3) as [Htree Hmaps]. split_and!; try done; [apply Hf3|apply fresh_bits|apply fresh_inode_bits].
Qed.
End mount.

Lemma format_mount_roundtrip_witness :
  runs (st1 ← aresfs_format; st2 ← aresfs_unmount; st3 ← aresfs_mount; mret (st1, st2, st3)) ram_boot (fun r _ =>
    r = (ARES_OK, ARES_OK, ARES_OK)).
Proof.
  eapply runs_mono; [apply (format_mount_roundtrip ram_boot (mk_afs zero_sb zero_block zero_block false no_fds (fun _ => zero_block)))|].
  - split; try reflexivity. apply blank_ok.
  - by intros r s' [-> _].
Defined.

(** * Input and output through descriptors *)

Definition with_pos (p : Z) (e : fd_entry) : fd_entry := mk_fd (fd_used e) (fd_inode e) p (fd_flags e).

(** The descriptor a write may use: the file system is mounted, the descriptor
    is open, and not for reading only. *)
Definition writable (a : afs) (fd : Z) : option fd_entry :=
  e ← arr_get (a_fds a) fd;
  if a_mounted a && fd_used e && negb (Z.land (fd_flags e) 3 =? ARESFS_O_RDONLY) then Some e else None.

(** Where it starts to write. *)
Definition write_pos (a : afs) (e : fd_entry) : Z :=
  if negb (Z.land (fd_flags e) ARESFS_O_APPEND =? 0) then size (a_inode a (fd_inode e)) else fd_pos e.

Section descriptors.
Context {D : Type} {HD : BlockDevice D} {HL : BlockDeviceLaws D}.
Implicit Types (s : fs D) (a : afs).

Lemma get_fd_ok s a fd e (Q : fd_entry -> fs D -> Prop) : rep s a -> arr_get (a_fds a) fd = Some e -> Q e s -> runs (get_fd fd) s Q.
Proof. intros Hr He HQ. unfold get_fd. run. rewrite (rep_fds _ _ Hr). by eapply runs_need. Qed.

Lemma put_fd_ok s a fd e e' fds (Q : unit -> fs D -> Prop) : rep s a -> arr_get (a_fds a) fd = Some e' -> arr_set (a_fds a) fd e = Some fds ->
  (forall s', rep s' (a_set_fds fds a) -> Q tt s') -> runs (put_fd fd e) s Q.
Proof. intros Hr _ He HQ. unfold put_fd. run. rewrite (rep_fds _ _ Hr). eapply runs_need; [exact He|]. run. by apply HQ, rep_set_fds. Qed.

(** Descriptor numbers outside the table, and unused descriptors. *)
Lemma fd_valid_eq s a fd : rep s a -> length (a_fds a) = 16%nat ->
  fd_valid fd s = Some (match arr_get (a_fds a) fd with Some e => fd_used e | None => false end, s).
Proof.
  intros Hr Hl. unfold fd_valid, ARESFS_MAX_OPEN_FILES. destruct (Z.ltb_spec fd 0) as [H0|H0]; cbn [orb].
  { unfold arr_get. by rewrite (proj2 (Z.leb_gt 0 fd)). }
  destruct (Z.leb_spec 16 fd) as [H16|H16].
  { unfold arr_get. rewrite (proj2 (Z.leb_le 0 fd)) by done. rewrite (proj2 (lookup_ge_None (a_fds a) (Z.to_nat fd))) by lia. done. }
  destruct (arr_get_in (a_fds a) fd) as [e He]; [lia|]. rewrite He. unfold get_fd, mbind, prog_bind, gets, need. rewrite (rep_fds _ _ Hr), He. done.
Qed.

(** A write through a descriptor that is not open for writing. *)
Lemma write_refused s a fd src : rep s a -> length (a_fds a) = 16%nat -> writable a fd = None ->
  aresfs_write fd (Some src) s = Some (-1, s).
Proof.
  intros Hr Hl Hw. unfold writable in Hw. pose proof (fd_valid_eq s a fd Hr Hl) as Hv.
  unfold aresfs_write, mbind, prog_bind, gets in *. rewrite (rep_mounted _ _ Hr). destruct (a_mounted a); [|done]. cbn [negb].
  rewrite Hv. destruct (arr_get (a_fds a) fd) as [e|] eqn:He; [|done]. cbn in Hw. destruct (fd_used e); [|done]. cbn [negb andb] in *.
  unfold get_fd, mbind, prog_bind, gets, need. rewrite (rep_fds _ _ Hr), He. cbn. by destruct (Z.land (fd_flags e) 3 =? ARESFS_O_RDONLY).
Qed.

(** The table [fds] is that of [a] with descriptor [fd] at position [p]. *)
Definition fd_moved a fd e p (fds : list fd_entry) : Prop :=
  length fds = 16%nat /\ forall d, arr_get fds d = if d =? fd then Some (with_pos p e) else arr_get (a_fds a) d.

Lemma fd_move a fd e p q fds : fd_moved a fd e p fds -> 0 <= fd < 16 ->
  exists fds', arr_set fds fd (with_pos q e) = Some fds' /\ fd_moved a fd e q fds'.
Proof.
  intros [Hl Hg] Hf. eexists. split; [apply arr_set_in; lia|]. split; [by rewrite length_insert|]. intros d.
  rewrite (arr_get_set _ _ _ d _ (arr_set_in fds fd (with_pos q e) ltac:(lia))), Hg. by destruct (d =? fd).
Qed.

(** The end of [aresfs_write]: the position moves by what was written. *)
Lemma advance_fd s a0 a fd e pos k : rep s a -> fd_moved a0 fd e pos (a_fds a) -> 0 <= fd < 16 -> 0 <= pos -> pos + k < 2 ^ 64 -> 0 <= k ->
  runs (_ ← (if 0 <? k then put_fd fd (mk_fd (fd_used e) (fd_inode e) (u64 (pos + k)) (fd_flags e)) else mret tt); mret k) s
    (fun r s' => r = k /\ exists fds, rep s' (a_set_fds fds a) /\ fd_moved a0 fd e (pos + k) fds).
Proof.
  intros Hr Hm Hf Hp Hk64 Hk. apply runs_bind. destruct (Z.ltb_spec 0 k) as [Hk0|Hk0].
  - destruct (fd_move a0 fd e pos (pos + k) _ Hm Hf) as (f2 & Hf2 & Hm2). rewrite (wrap_small 64) by lia.
    eapply (put_fd_ok s a fd (with_pos (pos + k) e) (with_pos pos e) f2); [done| |done|].
    + by rewrite (proj2 Hm), Z.eqb_refl.
    + intros s4 Hr4. apply runs_ret. split; [done|]. by exists f2.
  - apply runs_ret, runs_ret. split; [done|]. exists (a_fds a). replace (pos + k) with pos by lia. split; [by destruct a|done].
Qed.

(** C29: [aresfs_write] through a descriptor.  It is refused with -1, changing
    nothing, when the file system is not mounted, the number is outside the
    table, the descriptor is closed or open for reading only.  Otherwise the
    bytes go to the descriptor's position, for [O_APPEND] to the end of the
    file, the position advances by the number of bytes written, and the other
    descriptors, files and directories keep their contents. *)
Theorem aresfs_write_descriptor s a fd src :
  rep s a -> bitmaps_inv a -> length (a_fds a) = 16%nat -> Forall byte_ok src ->
  match writable a fd with
  | None => aresfs_write fd (Some src) s = Some (-1, s)
  | Some e =>
      let n := fd_inode e in let pos := write_pos a e in
      inum_ok n -> file_wf a (a_inode a n) -> size (a_inode a n) <= MAXB * ARESFS_BLOCK_SIZE -> 0 <= pos < MAXB * ARESFS_BLOCK_SIZE ->
      let want := Z.min (Z.of_nat (length src)) (MAXB * ARESFS_BLOCK_SIZE - pos) in
      runs (aresfs_write fd (Some src)) s (fun k s' => 0 <= k <= want /\ exists a' ino' fds,
        file_written a n (a_inode a n) pos k src a' ino' /\ (k = want \/ full a') /\ rep s' (a_set_fds fds a') /\
        length fds = 16%nat /\
        forall d, arr_get fds d = if d =? fd then Some (with_pos (pos + k) e) else arr_get (a_fds a) d)
  end.
Proof.
  intros Hr Hi Hl Hsrc. destruct (writable a fd) as [e|] eqn:Hw; [|by apply (write_refused _ a)].
  unfold writable in Hw. destruct (arr_get (a_fds a) fd) as [e0|] eqn:He; [|done]. cbn [mbind option_bind] in Hw.
  destruct (a_mounted a && fd_used e0 && _) eqn:Hg; [|done]. injection Hw as ->.
  apply andb_true_iff in Hg as [[Hm Hu]%andb_true_iff Hfl]. intros n pos Hn Hwf Hsz Hpos want.
  assert (Hlt : 0 <= fd < 16) by (apply arr_get_Some in He; lia).
  pose proof (fd_valid_eq s a fd Hr Hl) as Hv. rewrite He, Hu in Hv.
  unfold aresfs_write. run. rewrite (rep_mounted _ _ Hr), Hm. cbn [negb]. apply runs_bind. exists true, s. split; [done|]. cbn [negb].
  apply runs_bind. eapply get_fd_ok; [done|done|]. apply negb_true_iff in Hfl. rewrite Hfl.
  apply runs_bind. eapply runs_mono; [by apply (inode_read_ok s a n)|]. intros r s1 [-> Hr1]. cbv zeta.
  assert ((if negb (Z.land (fd_flags e) ARESFS_O_APPEND =? 0) then mk_fd (fd_used e) (fd_inode e) (size (a_inode a n)) (fd_flags e) else e)
    = with_pos pos e) as ->.
  { unfold with_pos, pos, write_pos. fold n. destruct (Z.land (fd_flags e) ARESFS_O_APPEND =? 0); [by destruct e|done]. }
  cbn [with_pos fd_inode fd_pos fd_used fd_flags].
  assert (fd_moved a fd e (fd_pos e) (a_fds a)) as Hm0.
  { split; [done|]. intros d. destruct (Z.eqb_spec d fd) as [->|]; [|done]. rewrite He. by destruct e. }
  destruct (fd_move a fd e _ pos _ Hm0 Hlt) as (f1 & Hf1 & Hm1).
  apply runs_bind. eapply put_fd_ok; [exact Hr1|exact He|exact Hf1|]. intros s2 Hr2.
  assert (Hi2 : bitmaps_inv (a_set_fds f1 a)) by (destruct Hi; by split). assert (Hwf2 : file_wf (a_set_fds f1 a) (a_inode a n)) by (destruct Hwf; by split).
  apply runs_bind. eapply runs_mono; [apply (file_write_body_ok s2 _ n (a_inode a n) pos src Hr2 Hi2 Hwf2 Hn Hsrc Hpos)|].
  intros k s3 (a3 & ino3 & Hr3 & Hk & Hwr & Hfin). change (MAXB * ARESFS_BLOCK_SIZE) with 71680 in *.
  assert (a_fds a3 = f1) as Hfds3 by (pose proof (wr_cache _ _ _ _ _ _ _ _ Hwr) as E; by injection E).
  eapply runs_mono; [apply (advance_fd s3 a a3 fd e pos k); [done|by rewrite Hfds3|done|lia|lia|lia]|].
  intros r s4 (-> & fds & Hr4 & Hl4 & Hg4). split; [done|]. exists (a_set_fds (a_fds a) a3), ino3, fds. split_and!; try done.
  destruct Hwr as [W1 W2 W3 W4 W5 W6 W7 W8 W9 W10]. injection W10 as ? ? ? ?. split; try done; [by destruct W1|by destruct W2|]. cbn. congruence.
Qed.
End descriptors.

(** An open descriptor for inode 2 on the freshly formatted disk. *)
Definition fd_afs : afs := a_set_fds (mk_fd true 2 0 (Z.lor ARESFS_O_WRONLY ARESFS_O_APPEND) :: replicate 15 zero_fd) demo_afs.
Definition fd_fs : fs ram_disk := set_fds (a_fds fd_afs) demo_fs.

Lemma aresfs_write_descriptor_witness :
  runs (aresfs_write 0 (Some [1; 2; 3])) fd_fs (fun k _ => 0 <= k <= 3).
Proof.
  assert (Hr : rep fd_fs fd_afs) by (apply rep_set_fds, demo_rep).
  assert (Hi : bitmaps_inv fd_afs) by (destruct demo_bitmaps; by split).
  assert (Hino : a_inode fd_afs 2 = zero_inode) by (vm_compute; reflexivity).
  destruct (empty_file fd_afs zero_inode zero_inode_ok eq_refl eq_refl) as [_ Hwf].
  assert (Hsrc : Forall byte_ok [1; 2; 3]) by (repeat constructor; unfold byte_ok; lia).
  pose proof (aresfs_write_descriptor fd_fs fd_afs 0 [1; 2; 3] Hr Hi eq_refl Hsrc) as H.
  assert (Hwr : writable fd_afs 0 = Some (mk_fd true 2 0 0x401)) by (vm_compute; reflexivity).
  rewrite Hwr in H. eapply runs_mono; [apply H; change (fd_inode (mk_fd true 2 0 0x401)) with 2; rewrite ?Hino|].
  - vm_compute. split; [discriminate|reflexivity].
  - exact Hwf.
  - vm_compute. discriminate.
  - vm_compute. split; [discriminate|reflexivity].
  - intros k s' [Hk _]. exact Hk.
Defined.

End FsApi.
