(* ===== verification/Ports.v ===== *)
(** Port input and output (src/lib/io.h).  The hardware behind the ports is a
    parameter [H] with the class [PortIO]; a driver runs on the hardware and
    on its own static variables [D]. *)
From S2P Require Import Prelude Interfaces.

Module Ports.
Section ports.
Context {H D : Type} {HP : PortIO H}.

(** The value register of [inb] has 8 bits and that of [inw] 16. *)
Definition inb (port : Z) : prog (H * D) Z := fun s =>
  let r := port_inb (u16 port) s.1 in Some (u8 r.1, (r.2, s.2)).

Definition outb (port val : Z) : prog (H * D) unit := fun s =>
  Some (tt, (port_outb (u16 port) (u8 val) s.1, s.2)).

Definition inw (port : Z) : prog (H * D) Z := fun s =>
  let r := port_inw (u16 port) s.1 in Some (u16 r.1, (r.2, s.2)).

Definition outw (port val : Z) : prog (H * D) unit := fun s =>
  Some (tt, (port_outw (u16 port) (u16 val) s.1, s.2)).

(** Code that uses only the driver's own variables. *)
Definition dev {A} (m : prog D A) : prog (H * D) A := fun s =>
  match m s.2 with
  | Some (a, d) => Some (a, (s.1, d))
  | None => None
  end.

Lemma runs_dev {A} (m : prog D A) h d (Q : A -> H * D -> Prop) :
  runs m d (fun a d' => Q a (h, d')) -> runs (dev m) (h, d) Q.
Proof. intros (a & d' & Hm & HQ). exists a, (h, d'). split; [|done]. unfold dev. cbn [snd fst]. by rewrite Hm. Qed.

Lemma runs_inb port h d (Q : Z -> H * D -> Prop) :
  (forall v h', port_inb (u16 port) h = (v, h') -> Q (u8 v) (h', d)) -> runs (inb port) (h, d) Q.
Proof.
  intros HQ. destruct (port_inb (u16 port) h) as [v h'] eqn:E. exists (u8 v), (h', d).
  split; [|by apply HQ]. unfold inb. cbn [fst snd]. by rewrite E.
Qed.

Lemma runs_inw port h d (Q : Z -> H * D -> Prop) :
  (forall v h', port_inw (u16 port) h = (v, h') -> Q (u16 v) (h', d)) -> runs (inw port) (h, d) Q.
Proof.
  intros HQ. destruct (port_inw (u16 port) h) as [v h'] eqn:E. exists (u16 v), (h', d).
  split; [|by apply HQ]. unfold inw. cbn [fst snd]. by rewrite E.
Qed.

Lemma runs_outb port val h d (Q : unit -> H * D -> Prop) :
  Q tt (port_outb (u16 port) (u8 val) h, d) -> runs (outb port val) (h, d) Q.
Proof. intros. by eexists tt, _. Qed.

Lemma runs_outw port val h d (Q : unit -> H * D -> Prop) :
  Q tt (port_outw (u16 port) (u16 val) h, d) -> runs (outw port val) (h, d) Q.
Proof. intros. by eexists tt, _. Qed.

End ports.
End Ports.
