(* ===== verification/Frame.v ===== *)
(** What programs leave alone: [keeps f m] says that no run of [m] changes the
    part [f] of the state.  The rules follow the shape of the program, so that
    the hint database [keeps] proves most instances. *)
From S2P Require Import Prelude Interfaces Ports.

Module Frame.

Section keeps.
Context {S X : Type} (f : S -> X).

(** Whatever [m] does, it leaves the part [f] of the state as it was. *)
Definition keeps {A} (m : prog S A) : Prop := forall s a s', m s = Some (a, s') -> f s' = f s.

Lemma keeps_ret {A} (a : A) : keeps (mret a).
Proof. by intros s ? ? [= <- <-]. Qed.

Lemma keeps_gets {A} (g : S -> A) : keeps (gets g).
Proof. by intros s ? ? [= <- <-]. Qed.

Lemma keeps_need {A} (o : option A) : keeps (need o).
Proof. intros s ? ?. unfold need. destruct o; [|done]. by intros [= <- <-]. Qed.

Lemma keeps_modify g : (forall s, f (g s) = f s) -> keeps (modify g).
Proof. intros Hg s ? ? [= <- <-]. apply Hg. Qed.

Lemma keeps_bind {A B} (m : prog S A) (k : A -> prog S B) : keeps m -> (forall a, keeps (k a)) -> keeps (m ≫= k).
Proof.
  intros Hm Hk s b s''. unfold mbind, prog_bind. destruct (m s) as [[a s']|] eqn:E; [|done].
  intros H. rewrite (Hk _ _ _ _ H). by eapply Hm.
Qed.

Lemma keeps_for n : forall i (body : Z -> prog S unit), (forall j, keeps (body j)) -> keeps (for_ n i body).
Proof. induction n as [|n IH]; intros i body Hb; [apply keeps_ret|]. apply keeps_bind; [apply Hb|]. intros _. by apply IH. Qed.

Lemma runs_keeps {A} (m : prog S A) s (Q : A -> S -> Prop) : keeps m -> runs m s Q -> runs m s (fun a s' => Q a s' /\ f s' = f s).
Proof. intros Hk (a & s' & Hm & HQ). exists a, s'. split_and!; [done|done|by eapply Hk]. Qed.
End keeps.

(** [stable P m]: no run of [m] breaks [P]. *)
Section stable.
Context {S : Type} (P : S -> Prop).

Definition stable {A} (m : prog S A) : Prop := forall s a s', m s = Some (a, s') -> P s -> P s'.

Lemma stable_bind {A B} (m : prog S A) (k : A -> prog S B) : stable m -> (forall a, stable (k a)) -> stable (m ≫= k).
Proof.
  intros Hm Hk s b s''. unfold mbind, prog_bind. destruct (m s) as [[a s']|] eqn:E; [|done]. intros H HP. eapply Hk; [exact H|]. by eapply Hm.
Qed.

Lemma keeps_stable {X} (f : S -> X) (Q : X -> Prop) {A} (m : prog S A) : (forall s, P s <-> Q (f s)) -> keeps f m -> stable m.
Proof. intros Hq Hm s a s' E HP. apply Hq. rewrite (Hm _ _ _ E). by apply Hq. Qed.

Lemma runs_stable {A} (m : prog S A) s (Q : A -> S -> Prop) : stable m -> P s -> runs m s Q -> runs m s (fun a s' => Q a s' /\ P s').
Proof. intros Hk HP (a & s' & Hm & HQ). exists a, s'. split_and!; [done|done|by eapply Hk]. Qed.
End stable.

(** [ends m s Q]: if [m] comes to an end from [s], then with [Q]. *)
Section ends.
Context {S : Type}.

Definition ends {A} (m : prog S A) (s : S) (Q : A -> S -> Prop) : Prop := forall a s', m s = Some (a, s') -> Q a s'.

Lemma ends_ret {A} (a : A) s (Q : A -> S -> Prop) : Q a s -> ends (mret a) s Q.
Proof. by intros HQ ? ? [= <- <-]. Qed.

Lemma ends_bind {A B} (m : prog S A) (k : A -> prog S B) s Q : ends m s (fun a s' => ends (k a) s' Q) -> ends (m ≫= k) s Q.
Proof. intros Hm b s''. unfold mbind, prog_bind. destruct (m s) as [[a s']|] eqn:E; [|done]. by apply (Hm a s'). Qed.

Lemma ends_mono {A} (m : prog S A) s (Q Q' : A -> S -> Prop) : ends m s Q -> (forall a s', Q a s' -> Q' a s') -> ends m s Q'.
Proof. intros Hm HQ a s' E. by apply HQ, Hm. Qed.

Lemma keeps_ends {X A} (f : S -> X) (m : prog S A) s (Q : A -> S -> Prop) : keeps f m -> (forall a s', f s' = f s -> Q a s') -> ends m s Q.
Proof. intros Hm HQ a s' E. by eapply HQ, Hm. Qed.

Lemma runs_ends {A} (m : prog S A) s (Q : A -> S -> Prop) : runs m s Q -> ends m s Q.
Proof. intros (a & s' & E & HQ) b s'' E'. rewrite E in E'. by injection E' as <- <-. Qed.
End ends.

Create HintDb keeps.
#[export] Hint Resolve keeps_ret keeps_gets keeps_need keeps_bind keeps_for : keeps.
#[export] Hint Extern 2 (keeps _ (modify _)) => apply keeps_modify; intros; reflexivity : keeps.

Lemma keeps_dev {H M X A} (f : M -> X) (m : prog M A) : keeps f m -> keeps (f ∘ snd) (Ports.dev (H := H) m).
Proof.
  intros Hm [h x] a s'. unfold Ports.dev. cbn [fst snd]. destruct (m x) as [[b x']|] eqn:E; [|done]. intros [= <- <-]. by eapply Hm.
Qed.

Lemma keeps_outb {H M X} {HP : PortIO H} (f : M -> X) p v : keeps (f ∘ snd) (Ports.outb (H := H) p v).
Proof. by intros [h x] a s' [= <- <-]. Qed.
#[export] Hint Resolve keeps_dev keeps_outb : keeps.


End Frame.
