(* ===== verification/Keyboard.v ===== *)
(** The PS/2 keyboard driver (src/drivers/keyboard.c): translation of scancode
    set 1, modifier tracking and the ring buffer between the interrupt handler
    and the readers.  The buffer is also modelled at the grain of its single
    memory accesses, so that an interrupt may come between any two of them. *)
From stdpp Require Import strings.
From S2P Require Import Prelude Interfaces Ports.
#[local] Open Scope Z_scope.

Module Keyboard.
Import Ports.

Definition KBD_BUF_SIZE := 256.

Definition KBD_MOD_LCTRL := 0x01.
Definition KBD_MOD_LSHIFT := 0x02.
Definition KBD_MOD_LALT := 0x04.
Definition KBD_MOD_LGUI := 0x08.
Definition KBD_MOD_RCTRL := 0x10.
Definition KBD_MOD_RSHIFT := 0x20.
Definition KBD_MOD_RALT := 0x40.
Definition KBD_MOD_RGUI := 0x80.

Definition KEY_NONE := 0x00.
Definition KEY_ESC := 0x1B.
Definition KEY_BACKSPACE := 0x08.
Definition KEY_TAB := 0x09.
Definition KEY_ENTER := 0x0D.
Definition KEY_UP := 0x80.
Definition KEY_DOWN := 0x81.
Definition KEY_LEFT := 0x82.
Definition KEY_RIGHT := 0x83.
Definition KEY_HOME := 0x84.
Definition KEY_END := 0x85.
Definition KEY_PAGEUP := 0x86.
Definition KEY_PAGEDOWN := 0x87.
Definition KEY_DELETE := 0x88.
Definition KEY_INSERT := 0x89.
Definition KEY_F1 := 0x8A.
Definition KEY_F2 := 0x8B.
Definition KEY_F3 := 0x8C.
Definition KEY_F4 := 0x8D.
Definition KEY_F5 := 0x8E.
Definition KEY_F6 := 0x8F.
Definition KEY_F7 := 0x90.
Definition KEY_F8 := 0x91.
Definition KEY_F9 := 0x92.
Definition KEY_F10 := 0x93.
Definition KEY_F11 := 0x94.
Definition KEY_F12 := 0x95.
Definition KEY_CAPS := 0x96.
Definition KEY_NUMLOCK := 0x97.
Definition KEY_SCROLLLOCK := 0x98.
Definition KEY_LCTRL := 0x99.
Definition KEY_LSHIFT := 0x9A.
Definition KEY_LALT := 0x9B.
Definition KEY_RCTRL := 0x9C.
Definition KEY_RSHIFT := 0x9D.
Definition KEY_RALT := 0x9E.
Definition KEY_LGUI := 0x9F.
Definition KEY_RGUI := 0xA0.
Definition KEY_PRINTSCREEN := 0xA1.

Definition MAX_SCAN := 0x60.

(** The codes of the characters of a string. *)
Definition chars (s : string) : list Z := (fun c => Z.of_N (Ascii.N_of_ascii c)) <$> String.list_ascii_of_string s.

(** The rows 0x38 to 0x58 are the same in both tables; the 7 entries the
    initialisers leave out are zero. *)
Definition keymap_tail : list Z :=
  [KEY_LALT] ++ chars " " ++ [KEY_CAPS; KEY_F1; KEY_F2; KEY_F3; KEY_F4; KEY_F5; KEY_F6; KEY_F7; KEY_F8; KEY_F9;
   KEY_F10; KEY_NUMLOCK; KEY_SCROLLLOCK] ++ chars "789-456+1230." ++
  [KEY_NONE; KEY_NONE; KEY_NONE; KEY_F11; KEY_F12] ++ replicate 7 0.

Definition keymap_us : list Z :=
  [KEY_NONE; KEY_ESC] ++ chars "1234567890-=" ++ [KEY_BACKSPACE; KEY_TAB] ++ chars "qwertyuiop[]" ++
  [KEY_ENTER; KEY_LCTRL] ++ chars "asdfghjkl;'`" ++ [KEY_LSHIFT] ++ chars "\zxcvbnm,./" ++
  [KEY_RSHIFT] ++ chars "*" ++ keymap_tail.

Definition keymap_us_shift : list Z :=
  [KEY_NONE; KEY_ESC] ++ chars "!@#$%^&*()_+" ++ [KEY_BACKSPACE; KEY_TAB] ++ chars "QWERTYUIOP{}" ++
  [KEY_ENTER; KEY_LCTRL] ++ chars "ASDFGHJKL:" ++ [34] ++ chars "~" ++ [KEY_LSHIFT] ++ chars "|ZXCVBNM<>?" ++
  [KEY_RSHIFT] ++ chars "*" ++ keymap_tail.

Definition keymap_ext : list Z :=
  [KEY_ENTER; KEY_RCTRL] ++ chars "/" ++ [KEY_PRINTSCREEN; KEY_RALT; KEY_HOME; KEY_UP; KEY_PAGEUP; KEY_LEFT;
   KEY_RIGHT; KEY_END; KEY_DOWN; KEY_PAGEDOWN; KEY_INSERT; KEY_DELETE; KEY_LGUI; KEY_RGUI].

Definition EXT_SCAN_COUNT := Z.of_nat (length keymap_ext).

(** The static variables of the driver. *)
Record kbd := mk_kbd {
  modifiers : Z;
  kbd_buffer : list Z;
  buf_head : Z;
  buf_tail : Z;
  extended : Z }.

Definition set_modifiers m k := mk_kbd m (kbd_buffer k) (buf_head k) (buf_tail k) (extended k).
Definition set_buffer b k := mk_kbd (modifiers k) b (buf_head k) (buf_tail k) (extended k).
Definition set_head h k := mk_kbd (modifiers k) (kbd_buffer k) h (buf_tail k) (extended k).
Definition set_tail t k := mk_kbd (modifiers k) (kbd_buffer k) (buf_head k) t (extended k).
Definition set_extended e k := mk_kbd (modifiers k) (kbd_buffer k) (buf_head k) (buf_tail k) e.

(** The loop over [i = 0, 2, 4, ...]; it runs at most 9 times. *)
Fixpoint lookup_ext_loop (fuel : nat) (i scancode : Z) : prog kbd Z :=
  match fuel with
  | O => need None
  | S fuel =>
      if i <? u8 EXT_SCAN_COUNT then
        k ← need (arr_get keymap_ext i);
        if k =? scancode then need (arr_get keymap_ext (i + 1))
        else lookup_ext_loop fuel (u8 (i + 2)) scancode
      else mret KEY_NONE
  end.

Definition lookup_extended (scancode : Z) : prog kbd Z := lookup_ext_loop 10 0 scancode.

Definition modifier_for_scancode (scancode : Z) (is_ext : bool) : Z :=
  if is_ext then
    if scancode =? 0x1D then KBD_MOD_RCTRL else
    if scancode =? 0x38 then KBD_MOD_RALT else
    if scancode =? 0x5B then KBD_MOD_LGUI else
    if scancode =? 0x5C then KBD_MOD_RGUI else 0
  else
    if scancode =? 0x1D then KBD_MOD_LCTRL else
    if scancode =? 0x2A then KBD_MOD_LSHIFT else
    if scancode =? 0x36 then KBD_MOD_RSHIFT else
    if scancode =? 0x38 then KBD_MOD_LALT else 0.

Definition buffer_put (value : Z) : prog kbd unit :=
  head ← gets buf_head;
  tail ← gets buf_tail;
  let next := u16 ((head + 1) mod KBD_BUF_SIZE) in
  if negb (next =? tail) then
    buf ← gets kbd_buffer;
    buf' ← need (arr_set buf head value);
    _ ← modify (set_buffer buf');
    modify (set_head next)
  else mret tt.

(** [modifiers &= ~mod] and [modifiers |= mod]. *)
Definition mod_clear (mod_ : Z) : prog kbd unit :=
  modify (fun k => set_modifiers (u8 (Z.land (modifiers k) (bnot 32 mod_))) k).
Definition mod_set (mod_ : Z) : prog kbd unit :=
  modify (fun k => set_modifiers (u8 (Z.lor (modifiers k) mod_)) k).

Definition put_key (key : Z) : prog kbd unit :=
  if negb (key =? KEY_NONE) then buffer_put key else mret tt.

(** What the handler does with the byte it has read. *)
Definition handle_scancode (scancode : Z) : prog kbd unit :=
  if scancode =? 0xE0 then modify (set_extended 1) else
  let is_break := negb (Z.land scancode 0x80 =? 0) in
  let scan7 := Z.land scancode 0x7F in
  ext ← gets extended;
  if negb (ext =? 0) then
    _ ← (if is_break then mod_clear (modifier_for_scancode scan7 true)
         else
           let mod_ := modifier_for_scancode scan7 true in
           if negb (mod_ =? 0) then mod_set mod_
           else key ← lookup_extended scancode; put_key key);
    modify (set_extended 0)
  else if is_break then mod_clear (modifier_for_scancode scan7 false)
  else
    let mod_ := modifier_for_scancode scancode false in
    if negb (mod_ =? 0) then
      _ ← mod_set mod_;
      _ ← (if scancode =? 0x1D then buffer_put KEY_LCTRL else mret tt);
      _ ← (if scancode =? 0x2A then buffer_put KEY_LSHIFT else mret tt);
      _ ← (if scancode =? 0x36 then buffer_put KEY_RSHIFT else mret tt);
      if scancode =? 0x38 then buffer_put KEY_LALT else mret tt
    else if scancode <? MAX_SCAN then
      mods ← gets modifiers;
      let shifted := negb (Z.land mods (Z.lor KBD_MOD_LSHIFT KBD_MOD_RSHIFT) =? 0) in
      key ← need (arr_get (if (shifted : bool) then keymap_us_shift else keymap_us) scancode);
      put_key key
    else mret tt.

Definition keyboard_getchar : prog kbd Z :=
  head ← gets buf_head;
  tail ← gets buf_tail;
  if head =? tail then mret 0
  else
    buf ← gets kbd_buffer;
    c ← need (arr_get buf tail);
    _ ← modify (set_tail (u16 ((tail + 1) mod KBD_BUF_SIZE)));
    mret c.

Definition keyboard_has_data : prog kbd Z :=
  gets (fun k => if buf_head k =? buf_tail k then 0 else 1).

Definition keyboard_get_modifiers : prog kbd Z := gets modifiers.

Section hardware.
Context {H : Type} {HP : PortIO H}.

Definition keyboard_irq_handler : prog (H * kbd) unit :=
  scancode ← inb 0x60; dev (handle_scancode scancode).

Definition keyboard_init : prog (H * kbd) unit :=
  _ ← dev (modify (fun k => set_tail 0 (set_head 0 (set_extended 0 (set_modifiers 0 k)))));
  _ ← for_ 4 0 (fun _ => _ ← inb 0x60; mret tt);
  outb 0x64 0xAE.
End hardware.

(** The variables at load time. *)
Definition kbd_zero : kbd := mk_kbd 0 (replicate 256 0) 0 0 0.
(** * The ring buffer as a queue *)

(** The keys waiting between the two indices, oldest first. *)
Definition queue_at (buf : list Z) (tail n : Z) : list Z :=
  (fun i => default 0 (arr_get buf ((tail + i) mod 256))) <$> seqZ 0 n.

Definition waiting (k : kbd) : Z := (buf_head k - buf_tail k) mod 256.
Definition queue (k : kbd) : list Z := queue_at (kbd_buffer k) (buf_tail k) (waiting k).

Record ring_ok (k : kbd) : Prop := {
  ring_length : length (kbd_buffer k) = 256%nat;
  ring_head : 0 <= buf_head k < 256;
  ring_tail : 0 <= buf_tail k < 256 }.

Lemma ring_zero : ring_ok kbd_zero.
Proof. split; cbn; lia || done. Qed.

Lemma ring_mods m k : ring_ok k -> ring_ok (set_modifiers m k).
Proof. intros [? ? ?]. by split. Qed.

Lemma queue_length k : Z.of_nat (length (queue k)) = waiting k.
Proof. unfold queue, queue_at, waiting. rewrite length_fmap, length_seqZ. dlia. Qed.

Lemma waiting_zero k : ring_ok k -> (buf_head k =? buf_tail k) = (waiting k =? 0).
Proof.
  intros [_ ? ?]. unfold waiting. destruct (Z.eqb_spec (buf_head k) (buf_tail k)) as [->|];
    symmetry; [apply Z.eqb_eq|apply Z.eqb_neq]; dlia.
Qed.

Lemma queue_at_ext buf buf' tail n :
  (forall i, 0 <= i < n -> arr_get buf ((tail + i) mod 256) = arr_get buf' ((tail + i) mod 256)) ->
  queue_at buf tail n = queue_at buf' tail n.
Proof.
  intros He. unfold queue_at. apply list_fmap_ext. intros j i Hi.
  apply lookup_seqZ in Hi as [-> ?]. rewrite He; [done|lia].
Qed.

Lemma queue_at_snoc buf tail n : 0 <= n ->
  queue_at buf tail (n + 1) = queue_at buf tail n ++ [default 0 (arr_get buf ((tail + n) mod 256))].
Proof. intros. unfold queue_at. rewrite seqZ_app by lia. rewrite fmap_app. done. Qed.

Lemma queue_at_cons buf tail n : 0 < n ->
  queue_at buf tail n = default 0 (arr_get buf (tail mod 256)) :: queue_at buf ((tail + 1) mod 256) (n - 1).
Proof.
  intros. unfold queue_at. rewrite seqZ_cons by lia. rewrite fmap_cons, Z.add_0_r. f_equal.
  replace (Z.pred n) with (n - 1) by lia. change (Z.succ 0) with (1 + 0).
  rewrite <- (fmap_add_seqZ 1 0 (n - 1)), <- list_fmap_compose.
  apply list_fmap_ext. intros j i _. cbn. f_equal. f_equal.
  rewrite Z.add_mod_idemp_l by lia. f_equal. lia.
Qed.

(** A key goes to the end of the queue, or is dropped when 255 keys wait. *)
Definition enqueue (v : Z) (q : list Z) : list Z :=
  if Z.of_nat (length q) <? 255 then q ++ [v] else q.

Lemma buffer_put_ok v k : ring_ok k ->
  runs (buffer_put v) k (fun _ k' => ring_ok k' /\ queue k' = enqueue v (queue k) /\
    buf_tail k' = buf_tail k /\ modifiers k' = modifiers k /\ extended k' = extended k).
Proof.
  intros [Hl Hh Ht]. unfold buffer_put, KBD_BUF_SIZE, enqueue. run. rewrite queue_length.
  assert (Hn : u16 ((buf_head k + 1) mod 256) = (buf_head k + 1) mod 256) by (apply wrap_small; dlia).
  rewrite Hn. unfold waiting.
  destruct (Z.eqb_spec ((buf_head k + 1) mod 256) (buf_tail k)) as [He|Hne]; cbn [negb].
  - apply runs_ret. rewrite (proj2 (Z.ltb_ge _ _)) by dlia. split_and!; done.
  - rewrite (proj2 (Z.ltb_lt _ _)) by dlia. run.
    pose proof (arr_set_in (kbd_buffer k) (buf_head k) v ltac:(lia)) as Hset.
    eapply runs_need; [exact Hset|]. run. split_and!; try done.
    + split; cbn; [by rewrite length_insert|dlia|lia].
    + unfold queue, waiting. cbn [set_head set_buffer buf_head buf_tail kbd_buffer].
      replace (((buf_head k + 1) mod 256 - buf_tail k) mod 256)
        with ((buf_head k - buf_tail k) mod 256 + 1) by dlia.
      rewrite queue_at_snoc by dlia. f_equal.
      * apply queue_at_ext. intros i Hi. rewrite (arr_get_set _ _ _ _ _ Hset).
        rewrite (proj2 (Z.eqb_neq _ _)) by dlia. done.
      * rewrite (arr_get_set _ _ _ _ _ Hset). rewrite (proj2 (Z.eqb_eq _ _)) by dlia. done.
Qed.

(** Advancing the read index removes the oldest key. *)
Lemma pop_ok k : ring_ok k -> waiting k <> 0 ->
  exists c, arr_get (kbd_buffer k) (buf_tail k) = Some c /\
    let k' := set_tail (u16 ((buf_tail k + 1) mod KBD_BUF_SIZE)) k in
    ring_ok k' /\ queue k = c :: queue k'.
Proof.
  intros [Hl Hh Ht] Hw. destruct (arr_get_in (kbd_buffer k) (buf_tail k) ltac:(lia)) as [c Hc].
  exists c. split; [done|]. unfold KBD_BUF_SIZE. rewrite wrap_small by dlia. cbv zeta. split.
  - split; cbn; [done|lia|dlia].
  - unfold queue at 1. rewrite queue_at_cons by (unfold waiting in *; dlia).
    rewrite (Z.mod_small (buf_tail k)), Hc by lia. cbn [default]. f_equal.
    unfold queue, waiting in *. cbn [set_tail buf_head buf_tail kbd_buffer]. f_equal. dlia.
Qed.

Lemma keyboard_getchar_ok k : ring_ok k ->
  runs keyboard_getchar k (fun c k' => ring_ok k' /\ modifiers k' = modifiers k /\
    match queue k with
    | [] => c = 0 /\ k' = k
    | x :: q => c = x /\ queue k' = q
    end).
Proof.
  intros Hr. unfold keyboard_getchar. run. rewrite waiting_zero by done.
  destruct (Z.eqb_spec (waiting k) 0) as [Hw|Hw].
  - apply runs_ret. unfold queue. rewrite Hw. done.
  - destruct (pop_ok k Hr Hw) as (c & Hc & Hr' & Hq). run.
    eapply runs_need; [exact Hc|]. run. rewrite Hq. done.
Qed.

Lemma keyboard_has_data_ok k : ring_ok k ->
  runs keyboard_has_data k (fun r k' => k' = k /\ r = match queue k with [] => 0 | _ => 1 end).
Proof.
  intros Hr. apply runs_gets. split; [done|]. rewrite waiting_zero by done.
  rewrite <- queue_length. destruct (queue k); done.
Qed.
(** * What a sequence of scancodes means *)

(** One key event: the key (with its 0xE0 prefix) and whether it went up. *)
Record event := mk_event { ev_ext : bool; ev_code : Z; ev_up : bool }.

(** Cut the bytes into events; [ext] tells that a prefix was just read. *)
Fixpoint events (ext : bool) (scs : list Z) : list event :=
  match scs with
  | [] => []
  | sc :: scs =>
      if sc =? 0xE0 then events true scs
      else mk_event ext (sc mod 128) (128 <=? sc) :: events false scs
  end.

Fixpoint prefixed (ext : bool) (scs : list Z) : bool :=
  match scs with
  | [] => ext
  | sc :: scs => prefixed (sc =? 0xE0) scs
  end.

(** A key is held when its latest event is a press. *)
Definition same_key (ext : bool) (code : Z) (e : event) : Prop := ev_ext e = ext /\ ev_code e = code.

#[global] Instance same_key_dec ext code e : Decision (same_key ext code e).
Proof. unfold same_key. apply _. Defined.

Definition held (ext : bool) (code : Z) (evs : list event) : bool :=
  match last (filter (same_key ext code) evs) with
  | Some e => negb (ev_up e)
  | None => false
  end.

(** The modifier keys and the bit of [modifiers] each of them drives. *)
Definition mod_keys : list (bool * Z * Z) :=
  [(false, 0x1D, 0); (false, 0x2A, 1); (false, 0x38, 2); (true, 0x5B, 3);
   (true, 0x1D, 4); (false, 0x36, 5); (true, 0x38, 6); (true, 0x5C, 7)].

(** The keys behind the prefix, as the rows of [keymap_ext] are labelled. *)
Definition ext_layout : list (Z * Z) :=
  [(0x1C, KEY_ENTER); (0x1D, KEY_RCTRL); (0x35, 47); (0x37, KEY_PRINTSCREEN); (0x38, KEY_RALT); (0x47, KEY_HOME);
   (0x48, KEY_UP); (0x49, KEY_PAGEUP); (0x4B, KEY_LEFT); (0x4D, KEY_RIGHT); (0x4F, KEY_END); (0x50, KEY_DOWN);
   (0x51, KEY_PAGEDOWN); (0x52, KEY_INSERT); (0x53, KEY_DELETE); (0x5B, KEY_LGUI); (0x5C, KEY_RGUI)].

(** The key of a press without prefix after the events [evs]: by the two
    layouts, the shifted one while a shift key is held. *)
Definition plain_key (evs : list event) (code : Z) : option Z :=
  let table := if held false 0x2A evs || held false 0x36 evs then keymap_us_shift else keymap_us in
  match arr_get table code with
  | Some key => if key =? KEY_NONE then None else Some key
  | None => None
  end.

(** The key, if any, that an event means after the events [evs]. *)
Definition meant (evs : list event) (e : event) : option Z :=
  if ev_up e then None
  else if ev_ext e then snd <$> List.find (fun row => row.1 =? ev_code e) ext_layout
  else plain_key evs (ev_code e).

(** The key, if any, that the driver makes of it: [lookup_extended] takes the
    extended table for pairs of a scancode and a key, so that it knows no
    extended key but two that keyboards do not have. *)
Definition produced (evs : list event) (e : event) : option Z :=
  if ev_up e then None
  else if ev_ext e then
    if ev_code e =? 0x0D then Some KEY_RCTRL else
    if ev_code e =? 0x2F then Some KEY_PRINTSCREEN else None
  else plain_key evs (ev_code e).

(** The specification: the bytes received so far and the keys waiting. *)
Record spec := mk_spec { typed : list Z; pending : list Z }.

Definition spec_irq (sc : Z) (a : spec) : spec :=
  let evs := events false (typed a) in
  let key := if sc =? 0xE0 then None
             else produced evs (mk_event (prefixed false (typed a)) (sc mod 128) (128 <=? sc)) in
  mk_spec (typed a ++ [sc])
    (match key with Some v => enqueue v (pending a) | None => pending a end).

(** The driver state stands for the specification's. *)
Record abs_ok (k : kbd) (a : spec) : Prop := {
  abs_ring : ring_ok k;
  abs_queue : queue k = pending a;
  abs_mods : 0 <= modifiers k < 2 ^ 8;
  abs_held ext code b : (ext, code, b) ∈ mod_keys ->
    Z.testbit (modifiers k) b = held ext code (events false (typed a));
  abs_ext : extended k = if prefixed false (typed a) then 1 else 0 }.

Lemma events_snoc scs : forall ext sc,
  events ext (scs ++ [sc]) = events ext scs ++
    (if sc =? 0xE0 then [] else [mk_event (prefixed ext scs) (sc mod 128) (128 <=? sc)]).
Proof.
  induction scs as [|s scs IH]; intros ext sc; cbn; [by destruct (sc =? 0xE0)|].
  destruct (s =? 0xE0); rewrite IH; done.
Qed.

Lemma prefixed_snoc scs : forall ext sc, prefixed ext (scs ++ [sc]) = (sc =? 0xE0).
Proof. induction scs as [|s scs IH]; intros ext sc; cbn; [done|apply IH]. Qed.

Lemma held_snoc ext code evs e :
  held ext code (evs ++ [e]) = if decide (same_key ext code e) then negb (ev_up e) else held ext code evs.
Proof.
  unfold held. rewrite filter_app. destruct (decide (same_key ext code e)) as [Hs|Hs].
  - rewrite filter_cons_True, filter_nil, last_snoc by done. done.
  - rewrite filter_cons_False, filter_nil, app_nil_r by done. done.
Qed.

Lemma forall_mod_keys (P : bool * Z * Z -> Prop) :
  Forall P mod_keys -> forall ext code b, (ext, code, b) ∈ mod_keys -> P (ext, code, b).
Proof. rewrite Forall_forall. auto. Qed.

Lemma mod_keys_range ext code b : (ext, code, b) ∈ mod_keys -> 0 <= b < 8.
Proof. apply (forall_mod_keys (fun m => 0 <= m.2 < 8)). repeat (constructor; [cbn; lia|]). constructor. Qed.

(** [modifier_for_scancode] gives exactly the bit of the key. *)
Lemma modifier_bit c e ext code b : (ext, code, b) ∈ mod_keys ->
  Z.testbit (modifier_for_scancode c e) b = Bool.eqb e ext && (c =? code).
Proof.
  apply (forall_mod_keys (fun m => Z.testbit (modifier_for_scancode c e) m.2 =
    Bool.eqb e m.1.1 && (c =? m.1.2))).
  unfold modifier_for_scancode.
  repeat (constructor; [cbn [fst snd]; destruct e; zcases; subst; done|]). constructor.
Qed.

Lemma modifier_range c e : 0 <= modifier_for_scancode c e < 2 ^ 8.
Proof.
  unfold modifier_for_scancode. destruct e; zcases;
    unfold KBD_MOD_LCTRL, KBD_MOD_LSHIFT, KBD_MOD_LALT, KBD_MOD_LGUI, KBD_MOD_RCTRL, KBD_MOD_RSHIFT, KBD_MOD_RALT, KBD_MOD_RGUI; lia.
Qed.

Lemma testbit_u8 x b : 0 <= b < 8 -> Z.testbit (u8 x) b = Z.testbit x b.
Proof. intros. unfold wrap. apply Z.mod_pow2_bits_low. lia. Qed.

Lemma byte_split sc : 0 <= sc < 2 ^ 8 ->
  Z.land sc 0x7F = sc mod 128 /\ (Z.land sc 0x80 =? 0) = negb (128 <=? sc).
Proof.
  intros. split; [apply (land_low 7); lia|].
  pose proof (land_bit_testbit 8 7 sc ltac:(lia)) as Hb. change (bit 8 7) with 0x80 in Hb.
  apply (f_equal negb) in Hb. rewrite negb_involutive in Hb. rewrite Hb. f_equal.
  rewrite Z.testbit_odd, Z.shiftr_div_pow2 by lia. change (2 ^ 7) with 128.
  destruct (Z.leb_spec 128 sc).
  - replace (sc / 128) with 1 by dlia. done.
  - replace (sc / 128) with 0 by dlia. done.
Qed.

(** The extended table is searched as if it held pairs: only the two
    scancodes that happen to equal an even-placed key code are found. *)
Lemma lookup_extended_ok sc k : 0 <= sc < 128 ->
  runs (lookup_extended sc) k (fun key k' => k' = k /\
    key = if sc =? 0x0D then KEY_RCTRL else if sc =? 0x2F then KEY_PRINTSCREEN else KEY_NONE).
Proof.
  intros Hsc.
  assert (Hall : Forall (fun sc => lookup_extended sc k = Some (if sc =? 0x0D then KEY_RCTRL else
    if sc =? 0x2F then KEY_PRINTSCREEN else KEY_NONE, k)) (seqZ 0 128)) by (vm_compute; repeat constructor).
  rewrite Forall_forall in Hall. eexists _, k. split; [|done]. apply Hall, elem_of_seqZ. lia.
Qed.
Lemma abs_zero : abs_ok kbd_zero (mk_spec [] []).
Proof.
  split; [apply ring_zero|done|cbn; lia| |done]. intros ext code b _. cbn. by rewrite Z.testbit_0_l.
Qed.

(** Setting and clearing modifier bits follows the latest event. *)
Lemma mods_step m ext evs c e up : 0 <= m < 2 ^ 8 ->
  (forall ext code b, (ext, code, b) ∈ mod_keys -> Z.testbit m b = held ext code evs) ->
  e = mk_event ext c up ->
  let mod_ := modifier_for_scancode c ext in
  let m' := if up then u8 (Z.land m (bnot 32 mod_)) else u8 (Z.lor m mod_) in
  0 <= m' < 2 ^ 8 /\
  forall ext code b, (ext, code, b) ∈ mod_keys -> Z.testbit m' b = held ext code (evs ++ [e]).
Proof.
  intros Hm Hh -> mod_ m'. split; [subst m'; destruct up; auto with mach; by apply wrap_range|].
  intros ext' code b Hin. pose proof (mod_keys_range _ _ _ Hin).
  pose proof (modifier_bit c ext ext' code b Hin) as Hb. fold mod_ in Hb.
  rewrite held_snoc, <- (Hh ext' code b Hin). unfold same_key. cbn [ev_ext ev_code ev_up].
  assert (Hm' : Z.testbit m' b = if up then Z.testbit m b && negb (Z.testbit mod_ b)
                                 else Z.testbit m b || Z.testbit mod_ b).
  { subst m'. destruct up; rewrite testbit_u8 by done;
      [rewrite Z.land_spec, testbit_bnot, (proj2 (Z.ltb_lt b 32)) by lia|rewrite Z.lor_spec]; done. }
  rewrite Hm', Hb. destruct (decide (ext = ext' /\ c = code)) as [[-> ->]|Hne].
  - rewrite Bool.eqb_reflx, Z.eqb_refl. destruct up; cbn; [apply andb_false_r|apply orb_true_r].
  - assert (Hf : Bool.eqb ext ext' && (c =? code) = false).
    { apply not_true_iff_false. intros [?%Bool.eqb_prop ?%Z.eqb_eq]%andb_true_iff. by apply Hne. }
    rewrite Hf. destruct up; cbn; [apply andb_true_r|apply orb_false_r].
Qed.

(** An event of a key that is no modifier leaves the bits as they are. *)
Lemma mods_step_other m ext evs c up :
  (forall ext code b, (ext, code, b) ∈ mod_keys -> Z.testbit m b = held ext code evs) ->
  modifier_for_scancode c ext = 0 ->
  forall ext' code b, (ext', code, b) ∈ mod_keys -> Z.testbit m b = held ext' code (evs ++ [mk_event ext c up]).
Proof.
  intros Hh H0 ext' code b Hin. rewrite held_snoc, (Hh ext' code b) by done.
  destruct (decide _) as [[He Hc]|]; [|done]. cbn in He, Hc. subst.
  pose proof (modifier_bit code ext' ext' code b Hin) as Hb.
  rewrite H0, Bool.eqb_reflx, Z.eqb_refl, Z.testbit_0_l in Hb. done.
Qed.

Lemma shifted_held m evs : 0 <= m < 2 ^ 8 ->
  (forall ext code b, (ext, code, b) ∈ mod_keys -> Z.testbit m b = held ext code evs) ->
  negb (Z.land m (Z.lor KBD_MOD_LSHIFT KBD_MOD_RSHIFT) =? 0) = held false 0x2A evs || held false 0x36 evs.
Proof.
  intros Hm Hh. rewrite <- (Hh false 0x2A 1), <- (Hh false 0x36 5) by (cbv; set_solver).
  rewrite <- (land_bit_testbit 8 1), <- (land_bit_testbit 8 5) by lia.
  change (bit 8 1) with KBD_MOD_LSHIFT. change (bit 8 5) with KBD_MOD_RSHIFT.
  rewrite Z.land_lor_distr_r, <- negb_andb. f_equal.
  destruct (Z.eqb_spec (Z.lor (Z.land m KBD_MOD_LSHIFT) (Z.land m KBD_MOD_RSHIFT)) 0) as [E|E];
    rewrite Z.lor_eq_0_iff in E; symmetry.
  - destruct E as [-> ->]. done.
  - apply not_true_iff_false. intros [?%Z.eqb_eq ?%Z.eqb_eq]%andb_true_iff. by apply E.
Qed.

Lemma put_key_ok key k : ring_ok k ->
  runs (put_key key) k (fun _ k' => ring_ok k' /\
    queue k' = (if key =? KEY_NONE then queue k else enqueue key (queue k)) /\
    buf_tail k' = buf_tail k /\ modifiers k' = modifiers k /\ extended k' = extended k).
Proof.
  intros. unfold put_key. destruct (key =? KEY_NONE); cbn [negb]; [by apply runs_ret|by apply buffer_put_ok].
Qed.
(** The four modifiers whose press is also delivered as a key. *)
Definition mod_key (sc : Z) : option Z :=
  if sc =? 0x1D then Some KEY_LCTRL else if sc =? 0x2A then Some KEY_LSHIFT else
  if sc =? 0x36 then Some KEY_RSHIFT else if sc =? 0x38 then Some KEY_LALT else None.

Lemma mod_key_none sc : mod_key sc = None -> modifier_for_scancode sc false = 0.
Proof. unfold mod_key, modifier_for_scancode. by zcases. Qed.
(** The four tests after a modifier's press put at most one key. *)
Lemma press_puts sc k :
  (_ ← (if sc =? 0x1D then buffer_put KEY_LCTRL else mret tt);
   _ ← (if sc =? 0x2A then buffer_put KEY_LSHIFT else mret tt);
   _ ← (if sc =? 0x36 then buffer_put KEY_RSHIFT else mret tt);
   if sc =? 0x38 then buffer_put KEY_LALT else mret tt) k
  = (match mod_key sc with Some v => buffer_put v | None => mret tt end : prog kbd unit) k.
Proof.
  unfold mod_key, mbind, prog_bind, mret, prog_ret. zcases; try done;
    subst; cbn -[buffer_put]; destruct (buffer_put _ k) as [[[] ?]|]; done.
Qed.

Lemma runs_ext {S A} (m m' : prog S A) s (Q : A -> S -> Prop) : m s = m' s -> runs m' s Q -> runs m s Q.
Proof. unfold runs. intros ->. done. Qed.

(** The tables cover every scancode below [MAX_SCAN]. *)
Lemma keymap_get (b : bool) sc : 0 <= sc ->
  if sc <? MAX_SCAN then is_Some (arr_get (if b then keymap_us_shift else keymap_us) sc)
  else arr_get (if b then keymap_us_shift else keymap_us) sc = None.
Proof.
  intros Hsc. assert (Hl : length (if b then keymap_us_shift else keymap_us) = 96%nat) by (by destruct b).
  unfold MAX_SCAN. destruct (Z.ltb_spec sc 0x60).
  - apply arr_get_in. lia.
  - destruct (arr_get _ sc) eqn:E; [|done]. apply arr_get_Some in E. lia.
Qed.

(** The event that the byte [sc] completes after the bytes [scs]. *)
Definition event_of (scs : list Z) (sc : Z) : event :=
  mk_event (prefixed false scs) (sc mod 128) (128 <=? sc).

(** What the handler has to achieve for a byte that completes an event. *)
Lemma abs_irq k a sc : sc <> 0xE0 -> ring_ok k -> 0 <= modifiers k < 2 ^ 8 -> extended k = 0 ->
  (forall ext code b, (ext, code, b) ∈ mod_keys ->
     Z.testbit (modifiers k) b = held ext code (events false (typed a) ++ [event_of (typed a) sc])) ->
  queue k = match produced (events false (typed a)) (event_of (typed a) sc) with
            | Some v => enqueue v (pending a)
            | None => pending a
            end ->
  abs_ok k (spec_irq sc a).
Proof.
  intros Hne Hr Hm He Hh Hq. unfold spec_irq. rewrite (proj2 (Z.eqb_neq _ _) Hne).
  split; cbn [typed pending]; try done.
  - intros ext code b Hin. rewrite events_snoc, (proj2 (Z.eqb_neq _ _) Hne). by apply Hh.
  - by rewrite prefixed_snoc, (proj2 (Z.eqb_neq _ _) Hne).
Qed.

(** A press or release after the prefix. *)
Lemma handle_extended_ok sc k a : abs_ok k a -> 0 <= sc < 2 ^ 8 -> sc <> 0xE0 ->
  prefixed false (typed a) = true ->
  runs (handle_scancode sc) k (fun _ k' => abs_ok k' (spec_irq sc a) /\ buf_tail k' = buf_tail k).
Proof.
  intros [Hr Hq Hm Hh He] Hsc Hne Hp. rewrite Hp in He. destruct (byte_split sc Hsc) as [Hlo Hhi].
  unfold handle_scancode. rewrite (proj2 (Z.eqb_neq _ _) Hne). rewrite Hlo, Hhi, negb_involutive. run.
  rewrite He. cbn [negb Z.eqb]. apply runs_bind.
  assert (Hfin : forall k', ring_ok k' -> 0 <= modifiers k' < 2 ^ 8 -> buf_tail k' = buf_tail k ->
     (forall ext code b, (ext, code, b) ∈ mod_keys ->
        Z.testbit (modifiers k') b = held ext code (events false (typed a) ++ [event_of (typed a) sc])) ->
     queue k' = match produced (events false (typed a)) (event_of (typed a) sc) with
                | Some v => enqueue v (pending a) | None => pending a end ->
     abs_ok (set_extended 0 k') (spec_irq sc a) /\ buf_tail (set_extended 0 k') = buf_tail k).
  { intros k' [? ? ?] Hm' Ht' Hh' Hq'. split; [|done]. by apply abs_irq. }
  unfold event_of in Hfin. rewrite Hp in Hfin.
  destruct (mods_step (modifiers k) true _ (sc mod 128) _ (128 <=? sc) Hm Hh eq_refl) as [Hmr Hmh].
  destruct (Z.leb_spec 128 sc) as [Hb|Hb].
  { unfold mod_clear. run. by apply Hfin; [apply ring_mods|..]. }
  unfold produced in Hfin. cbn [ev_up ev_ext ev_code] in Hfin.
  destruct (Z.eqb_spec (modifier_for_scancode (sc mod 128) true) 0) as [H0|H0]; cbn [negb].
  - apply runs_bind. eapply runs_mono; [apply lookup_extended_ok; lia|]. intros key ? [-> ->].
    eapply runs_mono; [by apply put_key_ok|]. intros [] k' (Hr' & Hq' & Ht' & Hm' & _). run.
    apply Hfin; try done; [by rewrite Hm'|rewrite Hm'; by apply mods_step_other|].
    rewrite Hq', Hq, (Z.mod_small sc) by lia. by zcases.
  - unfold mod_set. run. apply Hfin; [by apply ring_mods|done..|]. rewrite <- Hq.
    destruct (Z.eqb_spec (sc mod 128) 0x0D) as [E|]; [by rewrite E in H0|].
    destruct (Z.eqb_spec (sc mod 128) 0x2F) as [E|]; [by rewrite E in H0|]. done.
Qed.

(** What an unprefixed press decodes to. *)
Lemma produced_plain evs sc :
  produced evs (mk_event false sc false) =
  match mod_key sc with
  | Some v => Some v
  | None =>
      match arr_get (if held false 0x2A evs || held false 0x36 evs then keymap_us_shift else keymap_us) sc with
      | Some key => if key =? KEY_NONE then None else Some key
      | None => None
      end
  end.
Proof.
  unfold produced, plain_key, mod_key. cbn [ev_up ev_ext ev_code].
  assert (Hmod : forall code v, (code, v) ∈ [(0x1D, KEY_LCTRL); (0x2A, KEY_LSHIFT); (0x36, KEY_RSHIFT); (0x38, KEY_LALT)] ->
    plain_key evs code = Some v).
  { intros code v Hin. unfold plain_key. destruct (held false 0x2A evs || held false 0x36 evs);
      repeat (apply elem_of_cons in Hin as [[= -> ->]|Hin]; [done|]); by apply elem_of_nil in Hin. }
  unfold plain_key in Hmod.
  repeat match goal with
  | |- context [if sc =? ?c then Some _ else _] => destruct (Z.eqb_spec sc c) as [->|]; [by apply Hmod; set_solver|]
  end. done.
Qed.

(** The press of a key that is no modifier. *)
Lemma press_key_ok sc k evs : ring_ok k -> 0 <= sc -> 0 <= modifiers k < 2 ^ 8 ->
  (forall ext code b, (ext, code, b) ∈ mod_keys -> Z.testbit (modifiers k) b = held ext code evs) ->
  mod_key sc = None ->
  runs (if sc <? MAX_SCAN then
      mods ← gets modifiers;
      let shifted := negb (Z.land mods (Z.lor KBD_MOD_LSHIFT KBD_MOD_RSHIFT) =? 0) in
      key ← need (arr_get (if (shifted : bool) then keymap_us_shift else keymap_us) sc);
      put_key key
    else mret tt) k
    (fun _ k' => ring_ok k' /\ queue k' = match produced evs (mk_event false sc false) with
                  | Some v => enqueue v (queue k) | None => queue k end /\
       buf_tail k' = buf_tail k /\ modifiers k' = modifiers k /\ extended k' = extended k).
Proof.
  intros Hr Hsc Hm Hh Hmk. rewrite produced_plain, Hmk.
  pose proof (keymap_get (held false 0x2A evs || held false 0x36 evs) sc Hsc) as Hget.
  destruct (sc <? MAX_SCAN); [|rewrite Hget; by apply runs_ret].
  apply runs_bind, runs_gets. cbv zeta. rewrite (shifted_held _ _ Hm Hh). destruct Hget as [key Hkey].
  apply runs_bind. eapply runs_need; [exact Hkey|]. rewrite Hkey.
  eapply runs_mono; [by apply put_key_ok|]. intros [] k' (Hr' & Hq' & Ht' & Hm' & He').
  split_and!; try done. rewrite Hq'. by destruct (key =? KEY_NONE).
Qed.

(** A press or release without the prefix. *)
Lemma handle_plain_ok sc k a : abs_ok k a -> 0 <= sc < 2 ^ 8 -> sc <> 0xE0 ->
  prefixed false (typed a) = false ->
  runs (handle_scancode sc) k (fun _ k' => abs_ok k' (spec_irq sc a) /\ buf_tail k' = buf_tail k).
Proof.
  intros [Hr Hq Hm Hh He] Hsc Hne Hp. rewrite Hp in He. destruct (byte_split sc Hsc) as [Hlo Hhi].
  unfold handle_scancode. rewrite (proj2 (Z.eqb_neq _ _) Hne). rewrite Hlo, Hhi, negb_involutive. run.
  rewrite He. cbn [negb Z.eqb].
  pose proof (fun k' => abs_irq k' a sc Hne) as Hfin. unfold event_of in Hfin. rewrite Hp in Hfin.
  destruct (mods_step (modifiers k) false _ (sc mod 128) _ (128 <=? sc) Hm Hh eq_refl) as [Hmr Hmh].
  destruct (Z.leb_spec 128 sc) as [Hb|Hb].
  { unfold mod_clear. run. split; [|done]. by apply Hfin; [apply ring_mods|..]. }
  rewrite (Z.mod_small sc) in * by lia.
  destruct (mod_key sc) as [v|] eqn:Emk.
  - rewrite produced_plain, Emk in Hfin.
    assert (Hnz : modifier_for_scancode sc false <> 0).
    { unfold mod_key, modifier_for_scancode in *. revert Emk. by zcases. }
    rewrite (proj2 (Z.eqb_neq _ _) Hnz). cbn [negb]. unfold mod_set at 1. apply runs_bind, runs_modify.
    eapply runs_ext; [apply press_puts|]. rewrite Emk.
    eapply runs_mono; [apply buffer_put_ok; by apply ring_mods|].
    intros [] k' (Hr' & Hq' & Ht' & Hm' & He'). split; [|done]. rewrite <- Hq in Hfin.
    apply Hfin; [done|by rewrite Hm'|by rewrite He'|by rewrite Hm'|by rewrite Hq'].
  - rewrite (mod_key_none _ Emk). cbn [negb Z.eqb].
    eapply runs_mono; [apply (press_key_ok sc k (events false (typed a))); done || lia|].
    intros [] k' (Hr' & Hq' & Ht' & Hm' & He'). split; [|done]. rewrite <- Hq in Hfin.
    apply Hfin; rewrite ?Hm', ?He'; try done. by apply mods_step_other; [|apply mod_key_none].
Qed.

Lemma handle_scancode_ok sc k a : abs_ok k a -> 0 <= sc < 2 ^ 8 ->
  runs (handle_scancode sc) k (fun _ k' => abs_ok k' (spec_irq sc a) /\ buf_tail k' = buf_tail k).
Proof.
  intros Hk Hsc. destruct (Z.eq_dec sc 0xE0) as [->|Hne].
  - unfold handle_scancode. cbn [Z.eqb Pos.eqb]. run. split; [|done].
    destruct Hk as [[? ? ?] Hq Hm Hh He]. split; [by split|done..| |].
    + intros ext code b Hin. cbn [spec_irq typed]. rewrite events_snoc, app_nil_r. by apply Hh.
    + cbn [spec_irq typed]. by rewrite prefixed_snoc.
  - destruct (prefixed false (typed a)) eqn:Hp; [by apply handle_extended_ok|by apply handle_plain_ok].
Qed.
(** * Readers interrupted by the handler *)

(** The keys of the events [todo] after the events [past], by the rule [key]. *)
Fixpoint keys_from (key : list event -> event -> option Z) (past todo : list event) : list Z :=
  match todo with
  | [] => []
  | e :: todo => option_list (key past e) ++ keys_from key (past ++ [e]) todo
  end.

(** The keys the bytes [scs] stand for, in order, and those the driver makes of
    them. *)
Definition keys_typed (scs : list Z) : list Z := keys_from meant [] (events false scs).
Definition keys_handled (scs : list Z) : list Z := keys_from produced [] (events false scs).

(** Where a reader is inside [keyboard_getchar]: not reading, with the write
    index loaded, after the test, with the key loaded. *)
Inductive reader := Idle | GotHead (h : Z) | Checked | GotChar (c : Z).

Record sys := mk_sys { kb : kbd; rd : reader; received : list Z; returned : list Z }.

(** An interrupt may come between any two accesses of the reader. *)
Inductive step : sys -> sys -> Prop :=
| step_irq k k' r t o sc :
    0 <= sc < 2 ^ 8 -> handle_scancode sc k = Some (tt, k') ->
    step (mk_sys k r t o) (mk_sys k' r (t ++ [sc]) o)
| step_load_head k t o : step (mk_sys k Idle t o) (mk_sys k (GotHead (buf_head k)) t o)
| step_empty k h t o :
    h = buf_tail k -> step (mk_sys k (GotHead h) t o) (mk_sys k Idle t (o ++ [0]))
| step_nonempty k h t o :
    h <> buf_tail k -> step (mk_sys k (GotHead h) t o) (mk_sys k Checked t o)
| step_load_char k c t o :
    arr_get (kbd_buffer k) (buf_tail k) = Some c ->
    step (mk_sys k Checked t o) (mk_sys k (GotChar c) t o)
| step_store_tail k c t o :
    step (mk_sys k (GotChar c) t o)
         (mk_sys (set_tail (u16 ((buf_tail k + 1) mod KBD_BUF_SIZE)) k) Idle t (o ++ [c])).

Definition start : sys := mk_sys kbd_zero Idle [] [].

(** What the reader knows about the queue. *)
Definition reader_ok (k : kbd) (r : reader) : Prop :=
  match r with
  | Idle => True
  | GotHead h => h <> buf_tail k -> queue k <> []
  | Checked => queue k <> []
  | GotChar c => exists q, queue k = c :: q
  end.

Record sys_ok (s : sys) : Prop := {
  sys_abs : exists a, abs_ok (kb s) a /\ typed a = received s;
  sys_reader : reader_ok (kb s) (rd s);
  sys_sublist : filter (.≠ 0) (returned s) ++ queue (kb s) `sublist_of` keys_handled (received s);
  sys_all : Z.of_nat (length (keys_handled (received s))) <= 255 ->
    filter (.≠ 0) (returned s) ++ queue (kb s) = keys_handled (received s);
  sys_nonzero : Forall (.≠ 0) (queue (kb s)) }.

Lemma keys_from_snoc todo : forall past e,
  keys_from produced past (todo ++ [e]) = keys_from produced past todo ++ option_list (produced (past ++ todo) e).
Proof.
  induction todo as [|e' todo IH]; intros past e; cbn [keys_from app].
  - by rewrite !app_nil_r.
  - rewrite IH, <- !app_assoc. done.
Qed.

(** The keys one more byte adds. *)
Definition new_key (scs : list Z) (sc : Z) : option Z :=
  if sc =? 0xE0 then None else produced (events false scs) (event_of scs sc).

Lemma keys_handled_snoc scs sc : keys_handled (scs ++ [sc]) = keys_handled scs ++ option_list (new_key scs sc).
Proof.
  unfold keys_handled, new_key. rewrite events_snoc. destruct (sc =? 0xE0).
  - by rewrite !app_nil_r.
  - by rewrite keys_from_snoc.
Qed.

Lemma spec_irq_pending sc a : pending (spec_irq sc a) =
  match new_key (typed a) sc with Some v => enqueue v (pending a) | None => pending a end.
Proof. done. Qed.

Lemma new_key_nonzero scs sc v : new_key scs sc = Some v -> v <> 0.
Proof.
  unfold new_key, produced, plain_key. destruct (sc =? 0xE0); [done|].
  destruct (ev_up _); [done|]. destruct (ev_ext _).
  { zcases; intros; simplify_eq; done. }
  destruct (arr_get _ _) as [key|]; [|done]. destruct (Z.eqb_spec key KEY_NONE); [done|].
  intros; by simplify_eq.
Qed.

(** Without extended keys the driver makes of the bytes what they stand for. *)
Lemma plain_keys_handled todo : Forall (fun e => ev_ext e = false) todo -> forall past,
  keys_from produced past todo = keys_from meant past todo.
Proof.
  induction 1 as [|e todo He _ IH]; intros past; cbn [keys_from]; [done|].
  rewrite IH. unfold produced, meant. by rewrite He.
Qed.

(** The whole extended table is lost: pressing one of its keys gives no key. *)
Lemma extended_keys_lost evs code key : (code, key) ∈ ext_layout ->
  meant evs (mk_event true code false) = Some key /\ produced evs (mk_event true code false) = None.
Proof.
  intros Hin. repeat (apply elem_of_cons in Hin as [[= -> ->]|Hin]; [done|]). by apply elem_of_nil in Hin.
Qed.

Lemma enqueue_prefix v q : q `prefix_of` enqueue v q.
Proof. unfold enqueue. destruct (_ <? _); [by apply prefix_app_r|done]. Qed.

(** An interrupt only adds to the queue: what a reader knows stays true. *)
Lemma reader_ok_mono k k' r : buf_tail k' = buf_tail k -> queue k `prefix_of` queue k' ->
  reader_ok k r -> reader_ok k' r.
Proof.
  intros Ht [q Hq]. destruct r as [|h| |c]; cbn; rewrite ?Ht, ?Hq; [done| | |].
  - intros Hr Hne%Hr. by destruct (queue k).
  - by destruct (queue k).
  - intros [q' ->]. by eexists.
Qed.
Lemma sys_ok_irq k k' r t o sc : 0 <= sc < 2 ^ 8 -> handle_scancode sc k = Some (tt, k') ->
  sys_ok (mk_sys k r t o) -> sys_ok (mk_sys k' r (t ++ [sc]) o).
Proof.
  intros Hsc Hk [(a & Ha & Hty) Hrd Hsub Hall Hnz]. cbn [kb rd received returned] in *. subst t.
  pose proof (runs_det _ _ _ _ _ (handle_scancode_ok sc k a Ha Hsc) Hk) as [Ha' Ht].
  pose proof (abs_queue _ _ Ha) as Hq. pose proof (abs_queue _ _ Ha') as Hq'.
  rewrite spec_irq_pending, <- Hq in Hq'.
  split; cbn [kb rd received returned]; [by eexists| |rewrite keys_handled_snoc..|]; rewrite ?Hq'.
  - apply (reader_ok_mono k); [done| |done]. rewrite Hq'.
    destruct (new_key _ sc); [apply enqueue_prefix|done].
  - destruct (new_key (typed a) sc) as [v|]; cbn [option_list]; [|by rewrite app_nil_r].
    unfold enqueue. destruct (_ <? _); [rewrite app_assoc; by apply sublist_app|by apply sublist_inserts_r].
  - rewrite length_app. intros Hl. specialize (Hall ltac:(lia)). rewrite <- Hall.
    destruct (new_key (typed a) sc) as [v|]; cbn [option_list] in *; [|by rewrite app_nil_r].
    change (option_list (Some v)) with [v] in *. cbn [length] in Hl.
    apply (f_equal length) in Hall. rewrite length_app in Hall.
    unfold enqueue. rewrite (proj2 (Z.ltb_lt _ _)) by lia. by rewrite app_assoc.
  - destruct (new_key (typed a) sc) as [v|] eqn:E; [|done]. unfold enqueue. destruct (_ <? _); [|done].
    apply Forall_app. split; [done|]. by apply Forall_singleton, (new_key_nonzero _ _ _ E).
Qed.

Lemma sys_ok_step s s' : step s s' -> sys_ok s -> sys_ok s'.
Proof.
  intros Hst. destruct Hst as [k k' r t o sc Hsc Hk|k t o|k h t o ->|k h t o Hne|k c t o Hc|k c t o];
    [by apply sys_ok_irq|..]; intros [(a & Ha & Hty) Hrd Hsub Hall Hnz];
    cbn [kb rd received returned reader_ok] in *.
  - split; try done; [by eexists|]. cbn. intros Hne Hq. pose proof (abs_ring _ _ Ha) as Hr.
    pose proof (waiting_zero k Hr) as Hw. pose proof (queue_length k) as Hl. rewrite Hq in Hl. cbn in Hl.
    rewrite <- Hl in Hw. by apply Hne, Z.eqb_eq.
  - assert (Hf : filter (.≠ 0) (o ++ [0]) = filter (.≠ 0) o).
    { rewrite filter_app, filter_cons_False, filter_nil, app_nil_r by auto. done. }
    split; cbn [kb rd received returned]; rewrite ?Hf; try done. by eexists.
  - split; try done; [by eexists|]. by apply Hrd.
  - split; try done; [by eexists|]. cbn. pose proof (abs_ring _ _ Ha) as Hr.
    assert (Hw : waiting k <> 0) by (rewrite <- queue_length; by destruct (queue k)).
    destruct (pop_ok k Hr Hw) as (c' & Hc' & _ & Hq). rewrite Hc in Hc'. simplify_eq. by eexists.
  - destruct Hrd as [q Hq]. destruct Ha as [Hr Hp Hm Hh He].
    assert (Hw : waiting k <> 0) by (rewrite <- queue_length, Hq; done).
    destruct (pop_ok k Hr Hw) as (c' & Hc' & Hr' & Hq'). rewrite Hq in Hq'. simplify_eq.
    rewrite Hq in Hnz. apply Forall_cons in Hnz as [Hc0 Hnz].
    assert (Hf : filter (.≠ 0) (o ++ [c']) ++ queue (set_tail (u16 ((buf_tail k + 1) mod KBD_BUF_SIZE)) k) =
                 filter (.≠ 0) o ++ queue k).
    { rewrite filter_app, filter_cons_True, filter_nil, <- app_assoc, Hq by done. done. }
    split; cbn [kb rd received returned]; rewrite ?Hf; try done.
    exists (mk_spec (typed a) (queue (set_tail (u16 ((buf_tail k + 1) mod KBD_BUF_SIZE)) k))). by split.
Qed.

Lemma sys_ok_start : sys_ok start.
Proof.
  split; cbn; try done. exists (mk_spec [] []). split; [apply abs_zero|done].
Qed.

Lemma sys_ok_reachable s : rtc step start s -> sys_ok s.
Proof.
  intros Hs. revert s Hs. apply rtc_ind_r; [apply sys_ok_start|].
  intros s1 s2 _ Hst. by apply sys_ok_step.
Qed.

(** [keyboard_getchar] is its accesses one after the other. *)
Lemma getchar_steps k c k' t o : keyboard_getchar k = Some (c, k') ->
  rtc step (mk_sys k Idle t o) (mk_sys k' Idle t (o ++ [c])).
Proof.
  unfold keyboard_getchar, mbind, prog_bind, gets, modify, mret, prog_ret, need.
  destruct (Z.eqb_spec (buf_head k) (buf_tail k)) as [He|Hne].
  - intros; simplify_eq. eapply rtc_l; [apply step_load_head|]. by apply rtc_once, step_empty.
  - destruct (arr_get (kbd_buffer k) (buf_tail k)) as [x|] eqn:Ex; cbn; [|done]. intros; simplify_eq.
    eapply rtc_l; [apply step_load_head|]. eapply rtc_l; [by apply step_nonempty|].
    eapply rtc_l; [by apply step_load_char|]. apply rtc_once, step_store_tail.
Qed.

(** C14: Interrupts may come between any two accesses of a reader and no key is
    reordered, duplicated or invented: the keys returned so far and those still
    waiting are, in order, keys the driver makes of the received bytes, and all
    of them as long as it made at most 255; a byte's key is dropped exactly
    when 255 keys are waiting.  The keys it makes are those the bytes stand for
    by the two layouts, but an extended key (arrows, Home, Delete, keypad
    Enter, ...) gives none.  Each modifier bit tells whether its key is held;
    every byte is handled without an access out of bounds, and a read without
    interruption is [keyboard_getchar]. *)
Theorem keyboard_delivers_in_order s : rtc step start s ->
  filter (.≠ 0) (returned s) ++ queue (kb s) `sublist_of` keys_handled (received s) /\
  (Z.of_nat (length (keys_handled (received s))) <= 255 ->
    filter (.≠ 0) (returned s) ++ queue (kb s) = keys_handled (received s)) /\
  (Forall (fun e => ev_ext e = false) (events false (received s)) ->
    keys_handled (received s) = keys_typed (received s)) /\
  (forall evs code key, (code, key) ∈ ext_layout ->
    meant evs (mk_event true code false) = Some key /\ produced evs (mk_event true code false) = None) /\
  (forall ext code b, (ext, code, b) ∈ mod_keys ->
    Z.testbit (modifiers (kb s)) b = held ext code (events false (received s))) /\
  (forall sc, 0 <= sc < 2 ^ 8 -> exists k', handle_scancode sc (kb s) = Some (tt, k') /\
    keys_handled (received s ++ [sc]) = keys_handled (received s) ++ option_list (new_key (received s) sc) /\
    queue k' = queue (kb s) ++ if Z.of_nat (length (queue (kb s))) <? 255 then option_list (new_key (received s) sc) else []) /\
  (rd s = Idle -> exists c k', keyboard_getchar (kb s) = Some (c, k') /\
    (c = 0 <-> queue (kb s) = []) /\
    rtc step s (mk_sys k' Idle (received s) (returned s ++ [c]))).
Proof.
  intros [(a & Ha & Hty) Hrd Hsub Hall Hnz]%sys_ok_reachable. split_and!; try done.
  - intros Hpl. by apply plain_keys_handled.
  - apply extended_keys_lost.
  - intros ext code b Hin. rewrite <- Hty. by apply (abs_held _ _ Ha).
  - intros sc Hsc. destruct (handle_scancode_ok sc _ a Ha Hsc) as ([] & k' & ? & Hk' & _). exists k'.
    split; [done|]. split; [apply keys_handled_snoc|].
    rewrite (abs_queue _ _ Hk'), spec_irq_pending, <- (abs_queue _ _ Ha), Hty. unfold enqueue.
    destruct (new_key _ sc); cbn [option_list]; by destruct (_ <? 255); rewrite ?app_nil_r.
  - intros Hidle. destruct (keyboard_getchar_ok _ (abs_ring _ _ Ha)) as (c & k' & Hg & _ & _ & Hc).
    exists c, k'. split_and!; [done| |].
    + destruct (queue (kb s)) as [|x q]; [naive_solver|]. apply Forall_cons in Hnz as [? _].
      destruct Hc as [-> _]. split; [done|discriminate].
    + destruct s as [k r t o]. cbn in *. subst r. by apply getchar_steps.
Qed.

(** The byte 0x1E (key A) arrives between the reader's test of an empty buffer
    and its return. *)
Lemma keyboard_delivers_in_order_witness : exists s, rtc step start s /\ received s = [0x1E; 0x2A; 0x1E] /\
  returned s = [0] /\ keys_typed (received s) = [97; KEY_LSHIFT; 65] /\
  filter (.≠ 0) (returned s) ++ queue (kb s) = keys_typed (received s).
Proof.
  assert (Hreach : exists s, rtc step start s /\ received s = [0x1E; 0x2A; 0x1E] /\ returned s = [0]).
  { eexists. split; [|split; [|]].
    - eapply rtc_l; [apply step_load_head|].
      eapply rtc_l; [eapply (step_irq _ _ _ _ _ 0x1E); [lia|vm_compute; reflexivity]|].
      eapply rtc_l; [by apply step_empty|].
      eapply rtc_l; [eapply (step_irq _ _ _ _ _ 0x2A); [lia|vm_compute; reflexivity]|].
      eapply rtc_l; [eapply (step_irq _ _ _ _ _ 0x1E); [lia|vm_compute; reflexivity]|].
      apply rtc_refl.
    - reflexivity.
    - reflexivity. }
  destruct Hreach as (s & Hs & Hr & Ho). exists s. split_and!; try done.
  - rewrite Hr. reflexivity.
  - destruct (keyboard_delivers_in_order s Hs) as (_ & Hall & Hpl & _). rewrite <- Hpl.
    + apply Hall. rewrite Hr. vm_compute. discriminate.
    + rewrite Hr. by repeat constructor.
Defined.
End Keyboard.
