(* ===== verification/Console.v ===== *)
(** The VGA text console (src/kernel/console.c): the 80 by 25 cell buffer, the
    cursor, scrolling and the small printf.  Other components print through
    [console_call], the list of calls they make. *)
From stdpp Require Import strings.
From S2P Require Import Prelude.
#[local] Open Scope Z_scope.

Module Console.

(** The codes of the characters of a string literal. *)
Definition text (s : string) : list Z := (fun c => Z.of_N (Ascii.N_of_ascii c)) <$> String.list_ascii_of_string s.

Definition VGA_WIDTH := 80.
Definition VGA_HEIGHT := 25.

(** The colours of [vga_color_t]. *)
Inductive vga_color :=
| VGA_BLACK | VGA_BLUE | VGA_GREEN | VGA_CYAN | VGA_RED | VGA_MAGENTA | VGA_BROWN | VGA_LIGHT_GREY
| VGA_DARK_GREY | VGA_LIGHT_BLUE | VGA_LIGHT_GREEN | VGA_LIGHT_CYAN | VGA_LIGHT_RED | VGA_LIGHT_MAGENTA
| VGA_LIGHT_BROWN | VGA_WHITE.

Definition color_code (c : vga_color) : Z :=
  match c with
  | VGA_BLACK => 0 | VGA_BLUE => 1 | VGA_GREEN => 2 | VGA_CYAN => 3 | VGA_RED => 4 | VGA_MAGENTA => 5
  | VGA_BROWN => 6 | VGA_LIGHT_GREY => 7 | VGA_DARK_GREY => 8 | VGA_LIGHT_BLUE => 9 | VGA_LIGHT_GREEN => 10
  | VGA_LIGHT_CYAN => 11 | VGA_LIGHT_RED => 12 | VGA_LIGHT_MAGENTA => 13 | VGA_LIGHT_BROWN => 14
  | VGA_WHITE => 15
  end.

Record console_t := mk_console { buffer : list Z; row : Z; col : Z; color : Z }.

Definition set_buffer b c := mk_console b (row c) (col c) (color c).
Definition set_row r c := mk_console (buffer c) r (col c) (color c).
Definition set_col x c := mk_console (buffer c) (row c) x (color c).
Definition set_color k c := mk_console (buffer c) (row c) (col c) k.

(** [(uint16_t)c] of a [char]: the sign of the byte is extended. *)
Definition vga_entry (c color : Z) : Z :=
  u16 (Z.lor (u16 (if c <? 128 then c else c - 256)) (Z.shiftl color 8)).

Definition store (i v : Z) : prog console_t unit :=
  b ← gets buffer;
  b' ← need (arr_set b i v);
  modify (set_buffer b').

Definition console_clear : prog console_t unit :=
  color ← gets color;
  let blank := vga_entry 32 color in
  _ ← for_ (Z.to_nat (VGA_WIDTH * VGA_HEIGHT)) 0 (fun i => store i blank);
  _ ← modify (set_row 0);
  modify (set_col 0).

Definition console_init : prog console_t unit :=
  _ ← modify (set_row 0);
  _ ← modify (set_col 0);
  _ ← modify (set_color 0x0F);
  console_clear.

Definition console_set_color (fg bg : vga_color) : prog console_t unit :=
  modify (set_color (u8 (Z.lor (color_code fg) (Z.shiftl (color_code bg) 4)))).

Definition console_scroll : prog console_t unit :=
  _ ← for_ (Z.to_nat (VGA_HEIGHT - 1)) 0 (fun r =>
        for_ (Z.to_nat VGA_WIDTH) 0 (fun x =>
          b ← gets buffer;
          v ← need (arr_get b ((r + 1) * VGA_WIDTH + x));
          store (r * VGA_WIDTH + x) v));
  color ← gets color;
  let blank := vga_entry 32 color in
  let last_row := VGA_HEIGHT - 1 in
  _ ← for_ (Z.to_nat VGA_WIDTH) 0 (fun x => store (last_row * VGA_WIDTH + x) blank);
  _ ← modify (set_row (VGA_HEIGHT - 1));
  modify (set_col 0).

Definition console_putchar (c : Z) : prog console_t unit :=
  r ← gets row;
  x ← gets col;
  k ← gets color;
  _ ← (if c =? 10 then
         _ ← modify (set_row (u64 (r + 1))); modify (set_col 0)
       else if c =? 13 then modify (set_col 0)
       else if c =? 9 then modify (set_col (Z.land (u64 (x + 8)) (bnot 64 7)))
       else if c =? 8 then
         if 0 <? x then
           _ ← modify (set_col (x - 1));
           store (u64 (r * VGA_WIDTH + (x - 1))) (vga_entry 32 k)
         else mret tt
       else
         _ ← store (u64 (r * VGA_WIDTH + x)) (vga_entry c k);
         modify (set_col (u64 (x + 1))));
  x ← gets col;
  _ ← (if VGA_WIDTH <=? x then
         _ ← modify (set_col 0);
         modify (fun s => set_row (u64 (row s + 1)) s)
       else mret tt);
  r ← gets row;
  if VGA_HEIGHT <=? r then console_scroll else mret tt.

(** A string argument is its characters before the terminator. *)
Fixpoint console_puts (str : list Z) : prog console_t unit :=
  match str with
  | [] => mret tt
  | c :: str => _ ← console_putchar c; console_puts str
  end.

Definition console_writeline (str : list Z) : prog console_t unit :=
  _ ← console_puts str; console_putchar 10.

(** [do { buf[--i] = '0' + value % 10; value /= 10; } while (value > 0);] *)
Fixpoint dec_loop (fuel : nat) (buf : list Z) (i value : Z) : option (list Z * Z) :=
  match fuel with
  | O => None
  | S fuel =>
      buf' ← arr_set buf (i - 1) (48 + value mod 10);
      if 0 <? value / 10 then dec_loop fuel buf' (i - 1) (value / 10)
      else Some (buf', i - 1)
  end.

Fixpoint pad_loop (fuel : nat) (buf : list Z) (i pad_zeros : Z) : option (list Z * Z) :=
  match fuel with
  | O => None
  | S fuel =>
      if (0 <? pad_zeros) && (20 - i <? pad_zeros) then
        buf' ← arr_set buf (i - 1) 48;
        pad_loop fuel buf' (i - 1) pad_zeros
      else Some (buf, i)
  end.

(** The string that starts at [buf[i]]. *)
Fixpoint c_string (l : list Z) : option (list Z) :=
  match l with
  | [] => None
  | c :: l => if c =? 0 then Some [] else (cons c) <$> c_string l
  end.

(** [junk] is what the local array holds before it is written. *)
Definition print_dec (junk : list Z) (value pad_zeros : Z) : prog console_t unit :=
  buf ← need (arr_set junk 20 0);
  '(buf, i) ← need (dec_loop 21 buf 20 value);
  '(buf, i) ← need (pad_loop 22 buf i pad_zeros);
  str ← need (c_string (drop (Z.to_nat i) buf));
  console_puts str.

(** [for (i = n - 1; i >= 0; i--)] over the nibbles of [val]. *)
Fixpoint hex_loop (n : nat) (val : Z) : prog console_t unit :=
  match n with
  | O => mret tt
  | S i =>
      let nibble := Z.land (Z.shiftr val (Z.of_nat i * 4)) 0x0F in
      c ← need (arr_get (text "0123456789ABCDEF") nibble);
      _ ← console_putchar c;
      hex_loop i val
  end.

(** A variable argument: a pointer to a string, or the 64-bit slot in which an
    integer or another pointer is passed. *)
Inductive arg := AStr (s : option (list Z)) | AVal (v : Z).

Definition arg_val (args : list arg) : option (Z * list arg) :=
  match args with AVal v :: args => Some (v, args) | _ => None end.

Definition arg_str (args : list arg) : option (option (list Z) * list arg) :=
  match args with AStr s :: args => Some (s, args) | _ => None end.

Section printf.
Variable junk : list Z.

(** One directive; the remaining arguments are returned.  [-val] of the
    smallest [int32_t] is undefined. *)
Definition printf_directive (d : Z) (args : list arg) : prog console_t (list arg) :=
  if d =? 115 (* s *) then
    '(s, args) ← need (arg_str args);
    _ ← console_puts (match s with Some s => s | None => text "(null)" end);
    mret args
  else if d =? 100 (* d *) then
    '(v, args) ← need (arg_val args);
    let val := i32 v in
    if val <? 0 then
      _ ← console_putchar 45;
      val ← need (if val =? - 2 ^ 31 then None else Some (- val));
      _ ← print_dec junk (u64 val) 0; mret args
    else _ ← print_dec junk (u64 val) 0; mret args
  else if d =? 117 (* u *) then
    '(v, args) ← need (arg_val args);
    _ ← print_dec junk (u32 v) 0; mret args
  else if (d =? 120) || (d =? 88) (* x X *) then
    '(v, args) ← need (arg_val args);
    _ ← console_puts (text "0x");
    _ ← hex_loop 8 (u32 v); mret args
  else if d =? 112 (* p *) then
    '(v, args) ← need (arg_val args);
    _ ← console_puts (text "0x");
    _ ← hex_loop 16 (u64 v); mret args
  else if d =? 99 (* c *) then
    '(v, args) ← need (arg_val args);
    _ ← console_putchar (u8 v); mret args
  else if d =? 37 (* % *) then _ ← console_putchar 37; mret args
  else _ ← console_putchar 37; _ ← console_putchar d; mret args.

(** A format that ends in a lone percent sign makes the loop step over the
    terminator. *)
Fixpoint console_printf (fmt : list Z) (args : list arg) : prog console_t unit :=
  match fmt with
  | [] => mret tt
  | c :: fmt =>
      if negb (c =? 37) then _ ← console_putchar c; console_printf fmt args
      else
        match fmt with
        | [] => _ ← console_putchar 37; _ ← console_putchar 0; need None
        | d :: fmt => args ← printf_directive d args; console_printf fmt args
        end
  end.
End printf.

Definition console_set_cursor (r x : Z) : prog console_t unit :=
  if (r <? VGA_HEIGHT) && (x <? VGA_WIDTH) then
    _ ← modify (set_row r); modify (set_col x)
  else mret tt.

Definition console_get_row : prog console_t Z := gets row.
Definition console_get_col : prog console_t Z := gets col.

(** The console's interface as data: the calls a client makes, in order. *)
Inductive console_call :=
| Init | Clear | SetColor (fg bg : vga_color) | Putchar (c : Z) | Puts (s : list Z)
| Writeline (s : list Z) | Printf (fmt : list Z) (args : list arg) | SetCursor (r x : Z).

Definition do_call (junk : list Z) (c : console_call) : prog console_t unit :=
  match c with
  | Init => console_init
  | Clear => console_clear
  | SetColor fg bg => console_set_color fg bg
  | Putchar c => console_putchar c
  | Puts s => console_puts s
  | Writeline s => console_writeline s
  | Printf fmt args => console_printf junk fmt args
  | SetCursor r x => console_set_cursor r x
  end.

Fixpoint do_calls (junk : list Z) (cs : list console_call) : prog console_t unit :=
  match cs with
  | [] => mret tt
  | c :: cs => _ ← do_call junk c; do_calls junk cs
  end.
(** * The screen *)

Record console_ok (c : console_t) : Prop := {
  ok_buffer : length (buffer c) = 2000%nat;
  ok_row : 0 <= row c < 25;
  ok_col : 0 <= col c < 80 }.

Lemma store_ok i v c : length (buffer c) = 2000%nat -> 0 <= i < 2000 ->
  runs (store i v) c (fun _ c' => c' = set_buffer (<[Z.to_nat i := v]> (buffer c)) c).
Proof.
  intros Hl Hi. unfold store. run. eapply runs_need; [apply arr_set_in; lia|]. by run.
Qed.

Lemma arr_get_ext {A} (l l' : list A) : length l = length l' ->
  (forall j, 0 <= j < Z.of_nat (length l) -> arr_get l j = arr_get l' j) -> l = l'.
Proof.
  intros Hl He. apply list_eq_same_length with (length l'); [done|done|].
  intros i x y Hi Hx Hy. specialize (He (Z.of_nat i) ltac:(lia)). unfold arr_get in He.
  rewrite (proj2 (Z.leb_le _ _)), Nat2Z.id in He by lia. congruence.
Qed.

Lemma arr_get_insert {A} (l : list A) i j x : 0 <= i < Z.of_nat (length l) ->
  arr_get (<[Z.to_nat i := x]> l) j = if j =? i then Some x else arr_get l j.
Proof. intros Hi. by apply (arr_get_set l), arr_set_in. Qed.

(** A loop of stores fills a range of cells. *)
Lemma fill_ok base n v c : length (buffer c) = 2000%nat -> 0 <= base -> base + Z.of_nat n <= 2000 ->
  runs (for_ n 0 (fun i => store (base + i) v)) c (fun _ c' => exists b,
    c' = set_buffer b c /\ length b = 2000%nat /\
    forall j, arr_get b j = if (base <=? j) && (j <? base + Z.of_nat n) then Some v else arr_get (buffer c) j).
Proof.
  intros Hl Hb Hn. eapply runs_mono.
  - apply (runs_for (fun i c' => exists b, c' = set_buffer b c /\ length b = 2000%nat /\
      forall j, arr_get b j = if (base <=? j) && (j <? base + i) then Some v else arr_get (buffer c) j)).
    + exists (buffer c). split_and!; [by destruct c|done|]. intros j. by zcases.
    + intros i c' Hi (b & -> & Hlb & Hget). eapply runs_mono; [apply store_ok; cbn; lia || done|].
      intros [] ? ->. eexists. split_and!; [done|by rewrite length_insert|]. intros j.
      cbn [buffer set_buffer]. rewrite arr_get_insert, Hget by lia. zcases; subst; done || lia.
  - done.
Qed.

Lemma console_clear_ok c : length (buffer c) = 2000%nat ->
  runs console_clear c (fun _ c' => c' = mk_console (replicate 2000 (vga_entry 32 (color c))) 0 0 (color c)).
Proof.
  intros Hl. unfold console_clear, VGA_WIDTH, VGA_HEIGHT. run.
  eapply runs_mono; [apply (fill_ok 0 (Z.to_nat (80 * 25))); done || lia|].
  intros [] c' (b & -> & Hlb & Hget). run. unfold set_col, set_row, set_buffer. cbn [buffer row col color].
  f_equal. apply arr_get_ext; [by rewrite length_replicate|]. intros j Hj.
  rewrite Hget, arr_get_replicate by lia. by zcases.
Qed.

(** Scrolling drops the top line and appends a blank one. *)
Definition scrolled (b : list Z) (blank : Z) : list Z := drop 80 b ++ replicate 80 blank.

Lemma scrolled_get b blank j : length b = 2000%nat -> 0 <= j < 2000 ->
  arr_get (scrolled b blank) j = if j <? 1920 then arr_get b (j + 80) else Some blank.
Proof.
  intros Hl Hj. unfold arr_get, scrolled. rewrite !(proj2 (Z.leb_le _ _)) by lia.
  destruct (Z.ltb_spec j 1920).
  - rewrite lookup_app_l by (rewrite length_drop; lia). rewrite lookup_drop. f_equal. lia.
  - rewrite lookup_app_r by (rewrite length_drop; lia). apply lookup_replicate_2.
    rewrite length_drop. lia.
Qed.

(** One cell of the moving loop: cell [k] takes the contents of [k + 80]. *)
Definition moved (b0 : list Z) (k : Z) (c0 c : console_t) : Prop :=
  exists b, c = set_buffer b c0 /\ length b = 2000%nat /\
    forall j, 0 <= j < 2000 -> arr_get b j = if j <? k then arr_get b0 (j + 80) else arr_get b0 j.

Lemma move_cell_ok b0 k r x c0 c : length b0 = 2000%nat -> k = r * 80 + x -> 0 <= k < 1920 -> moved b0 k c0 c ->
  runs (b ← gets buffer; v ← need (arr_get b ((r + 1) * VGA_WIDTH + x)); store (r * VGA_WIDTH + x) v) c
    (fun _ c' => moved b0 (k + 1) c0 c').
Proof.
  intros Hl0 -> Hk (b & -> & Hl & Hget). unfold VGA_WIDTH. run. cbn [buffer set_buffer].
  destruct (arr_get_in b0 ((r + 1) * 80 + x) ltac:(lia)) as [v Hv].
  apply (runs_need _ v).
  { rewrite Hget by lia. rewrite (proj2 (Z.ltb_ge _ _)) by lia. done. }
  eapply runs_mono; [apply store_ok; cbn; lia || done|]. intros [] ? ->. eexists.
  split_and!; [done|by rewrite length_insert|]. intros j Hj. cbn [buffer set_buffer].
  rewrite arr_get_insert, Hget by lia.
  destruct (Z.eqb_spec j (r * 80 + x)) as [->|Hne].
  - rewrite (proj2 (Z.ltb_lt _ _)) by lia. rewrite <- Hv. f_equal. lia.
  - zcases; done || lia.
Qed.

Lemma console_scroll_ok c : length (buffer c) = 2000%nat ->
  runs console_scroll c (fun _ c' =>
    c' = mk_console (scrolled (buffer c) (vga_entry 32 (color c))) 24 0 (color c)).
Proof.
  intros Hl. unfold console_scroll. apply runs_bind. eapply runs_mono.
  { apply (runs_for (fun r c' => moved (buffer c) (r * 80) c c')).
    - exists (buffer c). split_and!; [by destruct c|done|]. intros j Hj. by zcases.
    - intros r c' Hr Hc'. eapply runs_mono.
      + apply (runs_for (fun x c'' => moved (buffer c) (r * 80 + x) c c'')).
        * by rewrite Z.add_0_r.
        * intros x c'' Hx Hm. eapply runs_mono; [by apply (move_cell_ok (buffer c) (r * 80 + x)); unfold VGA_WIDTH, VGA_HEIGHT in *; try lia|].
          intros [] c3 ?. by rewrite Z.add_assoc.
      + intros [] c'' Hm. unfold VGA_WIDTH in Hm. replace ((r + 1) * 80) with (r * 80 + (0 + Z.of_nat (Z.to_nat 80))) by lia. done. }
  intros [] c1 (b & -> & Hlb & Hget). run. cbn [color set_buffer].
  eapply runs_mono; [apply fill_ok; unfold VGA_WIDTH, VGA_HEIGHT; cbn; done || lia|].
  intros [] c2 (b2 & -> & Hl2 & Hget2). run. unfold set_col, set_row, set_buffer, VGA_HEIGHT.
  cbn [buffer row col color set_buffer]. f_equal.
  apply arr_get_ext; [unfold scrolled; rewrite length_app, length_drop, length_replicate; lia|].
  intros j Hj. rewrite scrolled_get, Hget2 by lia. cbn [buffer set_buffer]. unfold VGA_WIDTH, VGA_HEIGHT in *.
  rewrite Hget by lia. zcases; done || lia.
Qed.
(** * What a character does *)

(** Where the cursor goes, before scrolling. *)
Definition advance (c r x : Z) : Z * Z :=
  if c =? 10 then (r + 1, 0) else
  if c =? 13 then (r, 0) else
  if c =? 9 then (if x <? 72 then (r, x / 8 * 8 + 8) else (r + 1, 0)) else
  if c =? 8 then (r, Z.max 0 (x - 1)) else
  if x =? 79 then (r + 1, 0) else (r, x + 1).

(** The cell that is written, if any. *)
Definition written (c r x k : Z) (b : list Z) : list Z :=
  if (c =? 10) || (c =? 13) || (c =? 9) then b else
  if c =? 8 then (if x =? 0 then b else <[Z.to_nat (r * 80 + x - 1) := vga_entry 32 k]> b) else
  <[Z.to_nat (r * 80 + x) := vga_entry c k]> b.

Definition type_char (c : Z) (s : console_t) : console_t :=
  let b := written c (row s) (col s) (color s) (buffer s) in
  let '(r, x) := advance c (row s) (col s) in
  if r =? 25 then mk_console (scrolled b (vga_entry 32 (color s))) 24 0 (color s)
  else mk_console b r x (color s).

Definition type_text (str : list Z) (s : console_t) : console_t := fold_left (fun s c => type_char c s) str s.

Lemma written_length c r x k b : length (written c r x k b) = length b.
Proof. unfold written. repeat case_match; rewrite ?length_insert; done. Qed.

Lemma advance_range c r x : 0 <= r < 25 -> 0 <= x < 80 ->
  0 <= (advance c r x).1 <= 25 /\ 0 <= (advance c r x).2 < 80.
Proof. intros. unfold advance. zcases; try dlia. Qed.

Lemma type_char_ok c s : console_ok s -> console_ok (type_char c s).
Proof.
  intros [Hb Hr Hc]. unfold type_char. pose proof (advance_range c _ _ Hr Hc) as Ha.
  destruct (advance c (row s) (col s)) as [r x]. cbn [fst snd] in Ha.
  destruct (Z.eqb_spec r 25); split; cbn; try lia; [|by rewrite written_length].
  unfold scrolled. rewrite length_app, length_drop, written_length, length_replicate. lia.
Qed.

Lemma type_text_ok str : forall s, console_ok s -> console_ok (type_text str s).
Proof. induction str as [|c str IH]; intros s Hs; [done|]. by apply IH, type_char_ok. Qed.

Lemma type_text_app a b s : type_text (a ++ b) s = type_text b (type_text a s).
Proof. apply fold_left_app. Qed.

(** The tab stop: [(col + 8) & ~7]. *)
Lemma tab_stop x : 0 <= x < 80 -> Z.land (u64 (x + 8)) (bnot 64 7) = x / 8 * 8 + 8.
Proof.
  intros. rewrite wrap_small by lia. rewrite (land_bnot_low 64 3) by lia. change (2 ^ 3) with 8. dlia.
Qed.

(** The first half of [console_putchar]: the switch. *)
Lemma switch_ok c s (Q : unit -> console_t -> Prop) : console_ok s ->
  let x' := if c =? 10 then 0 else if c =? 13 then 0 else if c =? 9 then col s / 8 * 8 + 8 else
            if c =? 8 then Z.max 0 (col s - 1) else col s + 1 in
  let r' := if c =? 10 then row s + 1 else row s in
  Q tt (mk_console (written c (row s) (col s) (color s) (buffer s)) r' x' (color s)) ->
  runs (if c =? 10 then
         _ ← modify (set_row (u64 (row s + 1))); modify (set_col 0)
       else if c =? 13 then modify (set_col 0)
       else if c =? 9 then modify (set_col (Z.land (u64 (col s + 8)) (bnot 64 7)))
       else if c =? 8 then
         if 0 <? col s then
           _ ← modify (set_col (col s - 1));
           store (u64 (row s * VGA_WIDTH + (col s - 1))) (vga_entry 32 (color s))
         else mret tt
       else
         _ ← store (u64 (row s * VGA_WIDTH + col s)) (vga_entry c (color s));
         modify (set_col (u64 (col s + 1)))) s Q.
Proof.
  intros [Hb Hr Hc] x' r'. subst x' r'. unfold written, VGA_WIDTH.
  destruct (Z.eqb_spec c 10); cbn [orb]. { intros HQ. run. rewrite wrap_small by lia. apply HQ. }
  destruct (Z.eqb_spec c 13); cbn [orb]. { intros HQ. run. apply HQ. }
  destruct (Z.eqb_spec c 9); cbn [orb]. { intros HQ. run. rewrite tab_stop by lia. apply HQ. }
  destruct (Z.eqb_spec c 8).
  - destruct (Z.ltb_spec 0 (col s)).
    + rewrite (proj2 (Z.eqb_neq _ _)) by lia. intros HQ. run. rewrite wrap_small by lia.
      eapply runs_mono; [apply store_ok; cbn; lia || done|]. intros [] ? ->.
      replace (Z.max 0 (col s - 1)) with (col s - 1) in HQ by lia.
      replace (row s * 80 + (col s - 1)) with (row s * 80 + col s - 1) by lia. apply HQ.
    + rewrite (proj2 (Z.eqb_eq _ _)) by lia. intros HQ. apply runs_ret.
      replace (Z.max 0 (col s - 1)) with (col s) in HQ by lia. by destruct s.
  - intros HQ. apply runs_bind. rewrite (wrap_small 64 (row s * 80 + col s)) by lia.
    eapply runs_mono; [apply store_ok; cbn; lia || done|]. intros [] ? ->. run.
    rewrite wrap_small by lia. apply HQ.
Qed.

(** The second half: wrap at the right edge, scroll at the bottom. *)
Lemma scroll_case b r x k : length b = 2000%nat -> 0 <= r <= 25 ->
  runs (if VGA_HEIGHT <=? r then console_scroll else mret tt) (mk_console b r x k)
    (fun _ s' => s' = if r =? 25 then mk_console (scrolled b (vga_entry 32 k)) 24 0 k else mk_console b r x k).
Proof.
  intros Hb Hr. unfold VGA_HEIGHT. destruct (Z.leb_spec 25 r), (Z.eqb_spec r 25); try lia; [|by apply runs_ret].
  eapply runs_mono; [by apply console_scroll_ok|]. intros [] ? ->. done.
Qed.

Lemma wrap_ok b r x k r' x' : length b = 2000%nat -> 0 <= r <= 25 -> 0 <= x <= 80 -> (r = 25 -> x < 80) ->
  (r', x') = (if x =? 80 then (r + 1, 0) else (r, x)) ->
  runs (_ ← (if VGA_WIDTH <=? x then
           _ ← modify (set_col 0); modify (fun s => set_row (u64 (row s + 1)) s) else mret tt);
         r ← gets row; if VGA_HEIGHT <=? r then console_scroll else mret tt) (mk_console b r x k)
    (fun _ s' => s' = if r' =? 25 then mk_console (scrolled b (vga_entry 32 k)) 24 0 k
                      else mk_console b r' x' k).
Proof.
  intros Hlb Hr' Hx' Hne He. apply runs_bind. unfold VGA_WIDTH.
  destruct (Z.eqb_spec x 80) as [->|]; simplify_eq.
  - cbn [Z.leb Z.compare Pos.compare Pos.compare_cont].
    run. unfold set_row, set_col. cbn [row col color buffer]. rewrite wrap_small by lia.
    apply scroll_case; [done|lia].
  - rewrite (proj2 (Z.leb_gt _ _)) by lia. run. cbn [row]. by apply scroll_case.
Qed.

Lemma console_putchar_ok c s : console_ok s ->
  runs (console_putchar c) s (fun _ s' => s' = type_char c s).
Proof.
  intros Hok. unfold console_putchar. run. apply switch_ok; [done|]. destruct Hok as [Hb Hr Hc].
  pose proof (written_length c (row s) (col s) (color s) (buffer s)) as Hl. rewrite Hb in Hl.
  unfold type_char, advance. apply runs_bind, runs_gets. cbn [col].
  destruct (Z.eqb_spec c 10); [apply wrap_ok; done || lia|].
  destruct (Z.eqb_spec c 13); [apply wrap_ok; done || lia|].
  destruct (Z.eqb_spec c 9).
  { destruct (Z.ltb_spec (col s) 72); apply wrap_ok; try done; try dlia; zcases; try dlia; done. }
  destruct (Z.eqb_spec c 8); [apply wrap_ok; try done; try lia; zcases; try lia; done|].
  destruct (Z.eqb_spec (col s) 79); apply wrap_ok; try done; try lia; zcases; try lia; done.
Qed.

Lemma console_puts_ok str : forall s, console_ok s ->
  runs (console_puts str) s (fun _ s' => s' = type_text str s).
Proof.
  induction str as [|c str IH]; intros s Hs; cbn [console_puts]; [by apply runs_ret|].
  apply runs_bind. eapply runs_mono; [by apply console_putchar_ok|]. intros [] ? ->.
  by apply IH, type_char_ok.
Qed.
(** * Numbers *)

Fixpoint dec_digits (fuel : nat) (v : Z) (acc : list Z) : list Z :=
  match fuel with
  | O => acc
  | S fuel =>
      let acc := (48 + v mod 10) :: acc in
      if 0 <? v / 10 then dec_digits fuel (v / 10) acc else acc
  end.

(** The decimal numeral of a number of at most 20 digits. *)
Definition dec (v : Z) : list Z := dec_digits 20 v [].

(** The number a numeral stands for. *)
Definition numeral_value (ds : list Z) : Z := fold_left (fun n d => 10 * n + (d - 48)) ds 0.

Lemma dec_digits_app fuel : forall v a b, dec_digits fuel v (a ++ b) = dec_digits fuel v a ++ b.
Proof.
  induction fuel as [|fuel IH]; intros v a b; cbn [dec_digits]; [done|].
  destruct (0 <? v / 10); [|done]. by rewrite app_comm_cons, IH.
Qed.

Lemma dec_digits_acc fuel v acc : dec_digits fuel v acc = dec_digits fuel v [] ++ acc.
Proof. by rewrite <- dec_digits_app. Qed.

Lemma dec_digits_spec fuel : forall v, 0 <= v < 10 ^ Z.of_nat fuel -> (0 < fuel)%nat ->
  numeral_value (dec_digits fuel v []) = v /\
  Forall (fun d => 48 <= d <= 57) (dec_digits fuel v []) /\
  (0 < v -> exists d ds, dec_digits fuel v [] = d :: ds /\ d <> 48).
Proof.
  induction fuel as [|fuel IH]; intros v Hv Hf; [lia|]. cbn [dec_digits].
  rewrite Nat2Z.inj_succ, Z.pow_succ_r in Hv by lia.
  destruct (Z.ltb_spec 0 (v / 10)) as [Hd|Hd].
  - destruct (IH (v / 10)) as (Hval & Hdig & Hlead).
    { split; dlia. } { destruct fuel; [|lia]. cbn in Hv. dlia. }
    rewrite dec_digits_acc. unfold numeral_value in *. rewrite fold_left_app, Hval. cbn. split_and!; [dlia| |].
    + apply Forall_app. split; [done|]. apply Forall_singleton. dlia.
    + intros _. destruct (Hlead Hd) as (d & ds & -> & ?). by eexists d, _.
  - unfold numeral_value. cbn. split_and!; [dlia|apply Forall_singleton; dlia|].
    intros. eexists _, []. split; [done|]. dlia.
Qed.

(** What a printed number reads back as, without leading zeros. *)
Lemma dec_spec v : 0 <= v < 2 ^ 64 ->
  numeral_value (dec v) = v /\ Forall (fun d => 48 <= d <= 57) (dec v) /\
  (0 < v -> exists d ds, dec v = d :: ds /\ d <> 48).
Proof. intros. apply dec_digits_spec; [cbn; lia|lia]. Qed.

Lemma drop_arr_set (l l' : list Z) i v : arr_set l i v = Some l' ->
  drop (Z.to_nat i) l' = v :: drop (Z.to_nat i + 1) l.
Proof.
  intros [Hi ->]%arr_set_Some. rewrite drop_insert_ge by lia. rewrite Nat.sub_diag.
  destruct (drop (Z.to_nat i) l) as [|x t] eqn:E.
  - apply (f_equal length) in E. rewrite length_drop in E. cbn in E. lia.
  - cbn. rewrite <- drop_drop, E. done.
Qed.

Lemma dec_loop_S fuel buf i value : dec_loop (S fuel) buf i value =
  (arr_set buf (i - 1) (48 + value mod 10) ≫= fun buf' =>
   if 0 <? value / 10 then dec_loop fuel buf' (i - 1) (value / 10) else Some (buf', i - 1)).
Proof. done. Qed.

Lemma dec_loop_ok n : forall buf i v, (n < length buf)%nat -> i = Z.of_nat n -> 0 <= v < 10 ^ i -> (0 < n)%nat ->
  exists buf' i', dec_loop (S n) buf i v = Some (buf', i') /\ 0 <= i' /\
    drop (Z.to_nat i') buf' = dec_digits n v (drop n buf).
Proof.
  induction n as [|n IH]; intros buf i v Hl -> Hv Hn; [lia|].
  rewrite dec_loop_S. cbn [dec_digits].
  destruct (arr_set buf (Z.of_nat (S n) - 1) (48 + v mod 10)) as [buf1|] eqn:E.
  2: { rewrite arr_set_in in E by lia. done. }
  cbn [mbind option_bind]. pose proof (drop_arr_set _ _ _ _ E) as Hdrop. pose proof (arr_set_length _ _ _ _ E) as Hlen.
  replace (Z.to_nat (Z.of_nat (S n) - 1)) with n in * by lia. replace (n + 1)%nat with (S n) in Hdrop by lia.
  rewrite Nat2Z.inj_succ, Z.pow_succ_r in Hv by lia.
  destruct (Z.ltb_spec 0 (v / 10)) as [Hd|Hd].
  - destruct (IH buf1 (Z.of_nat (S n) - 1) (v / 10)) as (buf' & i' & He & Hi' & Hdr); try lia.
    { replace (Z.of_nat (S n) - 1) with (Z.of_nat n) by lia. split; dlia. }
    { destruct n; [cbn in Hv; dlia|lia]. }
    exists buf', i'. split_and!; [exact He|done|]. by rewrite Hdr, Hdrop.
  - eexists _, _. split_and!; [done|lia|]. replace (Z.to_nat (Z.of_nat (S n) - 1)) with n by lia. done.
Qed.

Lemma c_string_app ds rest : Forall (fun d => d <> 0) ds -> c_string (ds ++ 0 :: rest) = Some ds.
Proof.
  induction 1 as [|d ds Hd _ IH]; [done|]. cbn [app c_string]. rewrite (proj2 (Z.eqb_neq _ _) Hd), IH. done.
Qed.

Lemma print_dec_ok junk v s : length junk = 21%nat -> 0 <= v < 2 ^ 64 -> console_ok s ->
  runs (print_dec junk v 0) s (fun _ s' => s' = type_text (dec v) s).
Proof.
  intros Hj Hv Hs. unfold print_dec. apply runs_bind.
  destruct (arr_set junk 20 0) as [buf|] eqn:E; [|rewrite arr_set_in in E by lia; done].
  apply (runs_need _ buf); [done|]. pose proof (drop_arr_set _ _ _ _ E) as Hd.
  rewrite (drop_ge junk) in Hd by lia. pose proof (arr_set_length _ _ _ _ E) as Hl.
  destruct (dec_loop_ok 20 buf 20 v) as (buf' & i & He & Hi & Hdr); try lia.
  apply runs_bind, (runs_need _ (buf', i)); [exact He|].
  apply runs_bind, (runs_need _ (buf', i)); [done|].
  apply runs_bind, (runs_need _ (dec v)); [|by apply console_puts_ok].
  rewrite Hdr. change (Z.to_nat 20) with 20%nat in Hd. rewrite Hd, dec_digits_acc. apply c_string_app.
  eapply Forall_impl; [apply (dec_spec v Hv)|]. cbn. lia.
Qed.

(** The [n] low nibbles of a number, highest first. *)
Definition hex_digit (d : Z) : Z := if d <? 10 then 48 + d else 55 + d.

Fixpoint hex (n : nat) (v : Z) : list Z :=
  match n with
  | O => []
  | S n => hex_digit (v / 16 ^ Z.of_nat n mod 16) :: hex n v
  end.

Lemma hex_loop_ok n v : 0 <= v -> forall s, console_ok s ->
  runs (hex_loop n v) s (fun _ s' => s' = type_text (hex n v) s).
Proof.
  intros Hv. induction n as [|n IH]; intros s Hs; cbn [hex_loop hex]; [by apply runs_ret|].
  apply runs_bind. rewrite Z.shiftr_div_pow2 by lia.
  replace (2 ^ (Z.of_nat n * 4)) with (16 ^ Z.of_nat n) by (rewrite Z.mul_comm, Z.pow_mul_r by lia; done).
  rewrite (land_low 4) by lia. change (2 ^ 4) with 16. set (d := v / 16 ^ Z.of_nat n mod 16).
  assert (Hd : d ∈ seqZ 0 16) by (apply elem_of_seqZ; subst d; dlia).
  assert (Hall : Forall (fun d => arr_get (text "0123456789ABCDEF") d = Some (hex_digit d)) (seqZ 0 16))
    by (vm_compute; repeat constructor).
  rewrite Forall_forall in Hall. eapply runs_need; [by apply Hall|]. apply runs_bind.
  eapply runs_mono; [by apply console_putchar_ok|]. intros [] ? ->. by apply IH, type_char_ok.
Qed.
(** * printf *)

(** The text of one directive and the arguments it leaves; [None] when the
    arguments do not fit it. *)
Definition render_directive (d : Z) (args : list arg) : option (list Z * list arg) :=
  if d =? 37 then Some ([37], args) else
  if d =? 115 then
    '(s, args) ← arg_str args; Some (default (text "(null)") s, args)
  else if d =? 100 then
    '(v, args) ← arg_val args;
    if i32 v =? - 2 ^ 31 then None
    else Some ((if i32 v <? 0 then [45] else []) ++ dec (Z.abs (i32 v)), args)
  else if d =? 117 then '(v, args) ← arg_val args; Some (dec (u32 v), args)
  else if (d =? 120) || (d =? 88) then '(v, args) ← arg_val args; Some (text "0x" ++ hex 8 (u32 v), args)
  else if d =? 112 then '(v, args) ← arg_val args; Some (text "0x" ++ hex 16 (u64 v), args)
  else if d =? 99 then '(v, args) ← arg_val args; Some ([u8 v], args)
  else Some ([37; d], args).

(** The text a format and its arguments stand for. *)
Fixpoint render (fmt : list Z) (args : list arg) : option (list Z) :=
  match fmt with
  | [] => Some []
  | c :: fmt =>
      if negb (c =? 37) then (cons c) <$> render fmt args
      else
        match fmt with
        | [] => None
        | d :: fmt => '(t, args) ← render_directive d args; (app t) <$> render fmt args
        end
  end.

Lemma i32_range v : - 2 ^ 31 <= i32 v < 2 ^ 31.
Proof. unfold i32. pose proof (Z.mod_pos_bound (v + 2 ^ 31) (2 ^ 32)). lia. Qed.

(** The endings of the directives. *)
Lemma put_then {A} c (a : A) s : console_ok s ->
  runs (_ ← console_putchar c; mret a) s (fun a' s' => a' = a /\ s' = type_text [c] s).
Proof.
  intros. apply runs_bind. eapply runs_mono; [by apply console_putchar_ok|]. intros [] ? ->. by apply runs_ret.
Qed.

Lemma dec_then {A} junk v (a : A) t s : length junk = 21%nat -> console_ok s -> 0 <= v < 2 ^ 64 ->
  runs (_ ← print_dec junk v 0; mret a) (type_text t s)
    (fun a' s' => a' = a /\ s' = type_text (t ++ dec v) s).
Proof.
  intros Hj Hs Hv. apply runs_bind. eapply runs_mono; [apply print_dec_ok; try done; by apply type_text_ok|].
  intros [] ? ->. apply runs_ret. by rewrite type_text_app.
Qed.

Lemma hex_then {A} n v (a : A) s : console_ok s -> 0 <= v ->
  runs (_ ← console_puts (text "0x"); _ ← hex_loop n v; mret a) s
    (fun a' s' => a' = a /\ s' = type_text (text "0x" ++ hex n v) s).
Proof.
  intros Hs Hv. apply runs_bind. eapply runs_mono; [by apply console_puts_ok|]. intros [] ? ->.
  apply runs_bind. eapply runs_mono; [apply hex_loop_ok; [done|by apply type_text_ok]|]. intros [] ? ->.
  apply runs_ret. by rewrite type_text_app.
Qed.

(** Take the integer argument of a directive. *)
Ltac take_val args v :=
  destruct args as [|[|v] args]; [done..|]; cbn [arg_val mbind option_bind]; intros; simplify_eq;
  apply runs_bind; eapply runs_need; [done|]; cbv beta iota zeta.

(** Printing a directive types its text. *)
Lemma printf_directive_ok junk d args t args' s :
  length junk = 21%nat -> console_ok s -> render_directive d args = Some (t, args') ->
  runs (printf_directive junk d args) s (fun a s' => a = args' /\ s' = type_text t s).
Proof.
  intros Hj Hs. unfold render_directive, printf_directive.
  destruct (Z.eqb_spec d 37) as [->|].
  { cbn [Z.eqb Pos.eqb orb]. intros; simplify_eq. by apply put_then. }
  destruct (Z.eqb_spec d 115).
  { destruct args as [|[u|]]; try done. cbn. intros; simplify_eq. run.
    eapply runs_need; [done|]. apply runs_bind. eapply runs_mono; [by apply console_puts_ok|].
    intros [] ? ->. apply runs_ret. split; [done|]. by destruct u. }
  destruct (Z.eqb_spec d 100).
  { destruct args as [|[|v]]; try done. cbn [arg_val mbind option_bind].
    pose proof (i32_range v) as Hv. destruct (Z.eqb_spec (i32 v) (- 2 ^ 31)); [done|]. intros; simplify_eq.
    apply runs_bind. eapply runs_need; [done|]. cbv beta iota zeta. destruct (Z.ltb_spec (i32 v) 0).
    - apply runs_bind. eapply runs_mono; [by apply console_putchar_ok|]. intros [] ? ->.
      apply runs_bind. rewrite (proj2 (Z.eqb_neq _ _)) by done. eapply runs_need; [done|].
      rewrite wrap_small, Z.abs_neq by lia. apply (dec_then _ _ _ [45]); done || lia.
    - rewrite wrap_small, Z.abs_eq by lia. apply (dec_then _ _ _ []); done || lia. }
  destruct (Z.eqb_spec d 117).
  { take_val args v. apply (dec_then _ _ _ []); [done..|]. pose proof (wrap_range 32 v). lia. }
  destruct ((d =? 120) || (d =? 88)); [take_val args v; apply hex_then; [done|by apply wrap_range]|].
  destruct (Z.eqb_spec d 112); [take_val args v; apply hex_then; [done|by apply wrap_range]|].
  destruct (Z.eqb_spec d 99); [take_val args v; by apply put_then|].
  intros; simplify_eq. apply runs_bind. eapply runs_mono; [by apply console_putchar_ok|]. intros [] ? ->.
  apply runs_bind. eapply runs_mono; [by apply console_putchar_ok, type_char_ok|]. intros [] ? ->.
  by apply runs_ret.
Qed.

Lemma console_printf_ok junk : length junk = 21%nat -> forall n fmt args t s, (length fmt <= n)%nat ->
  console_ok s -> render fmt args = Some t ->
  runs (console_printf junk fmt args) s (fun _ s' => s' = type_text t s).
Proof.
  intros Hj. induction n as [|n IH]; intros [|c fmt] args t s Hn Hs; cbn [length render console_printf] in *;
    [intros; simplify_eq; by apply runs_ret|lia|intros; simplify_eq; by apply runs_ret|].
  destruct (negb (c =? 37)).
  - destruct (render fmt args) as [t'|] eqn:E; [|done]. cbn. intros; simplify_eq.
    apply runs_bind. eapply runs_mono; [by apply console_putchar_ok|]. intros [] ? ->.
    change (type_text (c :: t') s) with (type_text t' (type_char c s)).
    eapply IH; [lia|by apply type_char_ok|done].
  - destruct fmt as [|d fmt]; [done|]. destruct (render_directive d args) as [[t1 args1]|] eqn:Ed; [|done].
    cbn. destruct (render fmt args1) as [t2|] eqn:E2; [|done]. cbn. intros; simplify_eq.
    apply runs_bind. eapply runs_mono; [by apply printf_directive_ok|]. intros ? ? [-> ->].
    rewrite type_text_app. cbn in Hn. eapply IH; [lia|by apply type_text_ok|done].
Qed.
(** * Any sequence of calls *)

(** What a call does to the screen. *)
Definition call_spec (c : console_call) (s : console_t) : console_t :=
  match c with
  | Init => mk_console (replicate 2000 (vga_entry 32 0x0F)) 0 0 0x0F
  | Clear => mk_console (replicate 2000 (vga_entry 32 (color s))) 0 0 (color s)
  | SetColor fg bg => set_color (color_code fg + 16 * color_code bg) s
  | Putchar c => type_char c s
  | Puts t => type_text t s
  | Writeline t => type_text (t ++ [10]) s
  | Printf fmt args => type_text (default [] (render fmt args)) s
  | SetCursor r x => if (r <? 25) && (x <? 80) then mk_console (buffer s) r x (color s) else s
  end.

(** Calls with defined behaviour: a format that fits its arguments, a cursor
    position of unsigned type. *)
Definition call_ok (c : console_call) : Prop :=
  match c with
  | Printf fmt args => is_Some (render fmt args)
  | SetCursor r x => 0 <= r /\ 0 <= x
  | _ => True
  end.

Lemma color_byte fg bg :
  u8 (Z.lor (color_code fg) (Z.shiftl (color_code bg) 4)) = color_code fg + 16 * color_code bg.
Proof. destruct fg, bg; reflexivity. Qed.

Lemma do_call_ok junk c s : length junk = 21%nat -> console_ok s -> call_ok c ->
  runs (do_call junk c) s (fun _ s' => s' = call_spec c s /\ console_ok s').
Proof.
  intros Hj Hs Hc.
  assert (Hblank : forall k, console_ok (mk_console (replicate 2000 (vga_entry 32 k)) 0 0 k)).
  { intros k. split; cbn [buffer row col]; [by rewrite length_replicate|lia..]. }
  assert (Htext : forall t s', s' = type_text t s -> s' = type_text t s /\ console_ok s').
  { intros t ? ->. split; [done|]. by apply type_text_ok. }
  destruct c as [| |fg bg|c|t|t|fmt args|r x]; cbn [do_call call_spec].
  - unfold console_init. run. eapply runs_mono; [apply console_clear_ok; apply Hs|]. intros [] ? ->. auto.
  - eapply runs_mono; [apply console_clear_ok; apply Hs|]. intros [] ? ->. auto.
  - unfold console_set_color. run. rewrite color_byte. split; [done|]. destruct Hs. by split.
  - eapply runs_mono; [by apply console_putchar_ok|]. intros [] ?. apply (Htext [c]).
  - eapply runs_mono; [by apply console_puts_ok|]. intros [] ?. apply Htext.
  - unfold console_writeline. apply runs_bind. eapply runs_mono; [by apply console_puts_ok|]. intros [] ? ->.
    eapply runs_mono; [by apply console_putchar_ok, type_text_ok|]. intros [] ? ->. apply Htext.
    by rewrite type_text_app.
  - destruct Hc as [t Ht]. rewrite Ht. eapply runs_mono; [by eapply console_printf_ok|]. intros [] ?. apply Htext.
  - destruct Hc as [Hr Hx]. unfold console_set_cursor, VGA_HEIGHT, VGA_WIDTH.
    destruct (Z.ltb_spec r 25), (Z.ltb_spec x 80); cbn [andb]; try by apply runs_ret.
    run. split; [done|]. destruct Hs. split; cbn; done || lia.
Qed.

(** C16: Whatever calls other components make, the console never writes outside
    the 80 by 25 cells and the cursor stays on the screen; the screen is the one
    the calls describe: characters go to the cursor cell, lines wrap at column
    80, a line past the bottom drops the top line, and printf types the text of
    its format (decimal without leading zeros, 8 or 16 hexadecimal digits). *)
Theorem console_refines_screen junk cs s :
  length junk = 21%nat -> length (buffer s) = 2000%nat -> Forall call_ok cs ->
  runs (_ ← console_init; do_calls junk cs) s (fun _ s' =>
    s' = fold_left (fun s c => call_spec c s) cs (call_spec Init s) /\
    length (buffer s') = 2000%nat /\ 0 <= row s' < 25 /\ 0 <= col s' < 80).
Proof.
  intros Hj Hb Hcs. apply runs_bind. unfold console_init. run.
  eapply runs_mono; [by apply console_clear_ok|]. intros [] s0 ->.
  change (mk_console _ 0 0 _) with (call_spec Init s).
  assert (Hs : console_ok (call_spec Init s)) by (split; cbn [buffer row col call_spec]; [by rewrite length_replicate|lia..]).
  revert Hs. generalize (call_spec Init s). clear s Hb.
  induction Hcs as [|c cs Hc _ IH]; intros s Hs; cbn [do_calls fold_left].
  - apply runs_ret. destruct Hs. done.
  - apply runs_bind. eapply runs_mono; [by apply do_call_ok|]. intros [] ? [-> Hs']. by apply IH.
Qed.

(** A colour, two lines, a table row and a scroll. *)
Lemma console_refines_screen_witness :
  runs (_ ← console_init;
        do_calls (replicate 21 7)
          [SetColor VGA_LIGHT_GREEN VGA_BLACK; Printf (text "pid %u %s: %d") [AVal 42; AStr None; AVal (-7)];
           SetCursor 24 79; Putchar 65])
    (mk_console (replicate 2000 0) 3 4 0)
    (fun _ s' => row s' = 24 /\ col s' = 0 /\ arr_get (buffer s') 0 = Some (vga_entry 32 0x0F) /\
       arr_get (buffer s') (23 * 80 + 79) = Some (0x0A41)).
Proof.
  eapply runs_mono.
  - apply console_refines_screen; [done|done|]. repeat constructor; cbn; try lia; by eexists.
  - intros [] s' (-> & _). vm_compute. repeat split.
Defined.

(** The formatter knows neither widths nor the [l] modifier: such a directive
    is typed as it stands and takes no argument. *)
Lemma long_directive_typed args : render (text "%lu") args = Some (text "%lu").
Proof. done. Qed.

Lemma width_directive_typed args : render (text "%-4u") args = Some (text "%-4u").
Proof. done. Qed.

(** A character of the upper half overwrites the colour of its cell. *)
Lemma upper_half_color c k : 128 <= c < 256 -> 0 <= k < 256 -> vga_entry c k = 0xFF00 + c.
Proof.
  intros Hc Hk.
  assert (Hall : forallb (fun c => forallb (fun k => vga_entry c k =? 0xFF00 + c) (seqZ 0 256)) (seqZ 128 128) = true)
    by (vm_compute; reflexivity).
  rewrite forallb_forall in Hall. specialize (Hall c (proj1 (list_elem_of_In _ _) (proj2 (elem_of_seqZ 128 128 c) ltac:(lia)))).
  rewrite forallb_forall in Hall.
  by apply Z.eqb_eq, Hall, list_elem_of_In, elem_of_seqZ.
Qed.


End Console.
