(* ===== verification/Cstr.v ===== *)
(** The string functions that the programs of the kernel define each for
    themselves, on C strings: a string argument is its characters before the
    terminator, a destination its array. *)
From S2P Require Import Prelude Console.

Module Cstr.
Import Console.

Fixpoint c_strcmp (a b : list Z) : Z :=
  match a, b with
  | [], [] => 0
  | [], y :: _ => 0 - y
  | x :: _, [] => x - 0
  | x :: a, y :: b => if x =? y then c_strcmp a b else x - y
  end.

(** The loop of [c_strcpy_n] from index [i]. *)
Fixpoint strcpy_loop (dst src : list Z) (i cap : Z) : option (list Z) :=
  match src with
  | c :: src =>
      if i + 1 <? cap then dst ← arr_set dst i c; strcpy_loop dst src (i + 1) cap
      else arr_set dst i 0
  | [] => arr_set dst i 0
  end.

Definition c_strcpy_n (dst src : list Z) (cap : Z) : option (list Z) :=
  if cap =? 0 then Some dst else strcpy_loop dst src 0 cap.

(** The characters of a C string. *)
Definition cname_ok (s : list Z) : Prop := Forall (fun c => 0 < c < 256) s.

Lemma strcmp_eq a : forall b, cname_ok a -> cname_ok b -> (c_strcmp a b =? 0) = bool_decide (a = b).
Proof.
  induction a as [|x a IH]; intros [|y b] Ha Hb; cbn [c_strcmp]; try done.
  - apply Forall_cons in Hb as [? _]. rewrite bool_decide_eq_false_2 by done. apply Z.eqb_neq. lia.
  - apply Forall_cons in Ha as [? _]. rewrite bool_decide_eq_false_2 by done. apply Z.eqb_neq. lia.
  - apply Forall_cons in Ha as [? Ha]. apply Forall_cons in Hb as [? Hb].
    destruct (Z.eqb_spec x y) as [->|Hne].
    + rewrite IH by done. apply bool_decide_ext. split; [by intros ->|by intros [= ->]].
    + rewrite bool_decide_eq_false_2 by congruence. apply Z.eqb_neq. lia.
Qed.

Lemma strcpy_loop_ok src : forall pre mid dst i cap,
  dst = pre ++ mid -> i = Z.of_nat (length pre) -> (length src < length mid)%nat -> cap = Z.of_nat (length dst) ->
  exists rest, strcpy_loop dst src i cap = Some (pre ++ src ++ 0 :: rest) /\
    length (pre ++ src ++ 0 :: rest) = length dst.
Proof.
  induction src as [|c src IH]; intros pre mid dst i cap -> -> Hl ->; cbn [strcpy_loop length] in *;
    (destruct mid as [|m mid]; cbn [length] in Hl; [lia|]).
  - exists mid. rewrite arr_set_in by (rewrite length_app; cbn; lia). rewrite Nat2Z.id.
    rewrite insert_app_r_alt, Nat.sub_diag by lia. cbn. split; [done|]. by rewrite !length_app.
  - rewrite (proj2 (Z.ltb_lt _ _)) by (rewrite length_app; cbn; lia).
    rewrite arr_set_in by (rewrite length_app; cbn; lia). rewrite Nat2Z.id.
    rewrite insert_app_r_alt, Nat.sub_diag by lia. cbn [mbind option_bind insert list_insert].
    destruct (IH (pre ++ [c]) mid (pre ++ c :: mid) (Z.of_nat (length pre) + 1) (Z.of_nat (length (pre ++ m :: mid))))
      as (rest & He & Hlen).
    { by rewrite <- app_assoc. } { rewrite length_app. cbn. lia. } { lia. } { by rewrite !length_app. }
    exists rest. rewrite <- app_assoc in He, Hlen. split; [exact He|].
    etrans; [exact Hlen|]. by rewrite !length_app.
Qed.

(** A string that fits is copied whole. *)
Lemma strcpy_exact dst src : cname_ok src -> (length src < length dst)%nat ->
  exists dst', c_strcpy_n dst src (Z.of_nat (length dst)) = Some dst' /\ length dst' = length dst /\ c_string dst' = Some src.
Proof.
  intros Hc Hl. destruct (strcpy_loop_ok src [] dst dst 0 (Z.of_nat (length dst))) as (rest & He & Hlen); try done.
  exists (src ++ 0 :: rest). unfold c_strcpy_n. rewrite (proj2 (Z.eqb_neq _ _)) by lia. split_and!; [done|done|].
  apply c_string_app. eapply Forall_impl; [exact Hc|]. cbn. lia.
Qed.

Lemma c_string_zero (l : list Z) i : 0 <= i < Z.of_nat (length l) -> is_Some (c_string (<[Z.to_nat i := 0]> l)).
Proof.
  intros Hi. assert (Z.to_nat i < length l)%nat as Hn by lia. revert Hn. generalize (Z.to_nat i) as n. clear Hi.
  induction l as [|c l IH]; intros [|n] Hn; cbn in Hn; try lia; [by eexists|].
  change (<[S n := 0]> (c :: l)) with (c :: <[n := 0]> l). cbn [c_string].
  destruct (c =? 0); [by eexists|]. destruct (IH n) as [str ->]; [lia|]. by eexists.
Qed.

Lemma strcpy_loop_in src : forall dst i cap, 0 <= i < cap -> cap <= Z.of_nat (length dst) ->
  exists dst', strcpy_loop dst src i cap = Some dst' /\ length dst' = length dst /\ is_Some (c_string dst').
Proof.
  induction src as [|c src IH]; intros dst i cap Hi Hc; cbn [strcpy_loop].
  { rewrite arr_set_in by lia. eexists. split_and!; [done|apply length_insert|apply c_string_zero; lia]. }
  destruct (Z.ltb_spec (i + 1) cap); rewrite arr_set_in by lia.
  - cbn [mbind option_bind]. destruct (IH (<[Z.to_nat i := c]> dst) (i + 1) cap) as (d & -> & Hl & Hs);
      [lia|rewrite length_insert; lia|]. exists d. by rewrite length_insert in Hl.
  - eexists. split_and!; [done|apply length_insert|apply c_string_zero; lia].
Qed.

Lemma strcpy_in dst src cap : 0 < cap -> cap = Z.of_nat (length dst) ->
  exists dst', c_strcpy_n dst src cap = Some dst' /\ length dst' = length dst /\ is_Some (c_string dst').
Proof. intros Hp Hc. unfold c_strcpy_n. rewrite (proj2 (Z.eqb_neq _ _)) by lia. apply strcpy_loop_in; lia. Qed.

Lemma c_string_elem l : 0 ∈ l -> is_Some (c_string l).
Proof.
  induction l as [|c l IH]; intros Hl; [by apply elem_of_nil in Hl|]. cbn [c_string].
  destruct (Z.eqb_spec c 0); [done|]. apply elem_of_cons in Hl as [<-|Hl]; [done|]. destruct (IH Hl) as [s ->]. by eexists.
Qed.

End Cstr.
