(* ===== verification/Interrupt.v ===== *)
(** Interrupts (src/kernel/interrupt.c, irq.c): the descriptor table, the
    table of registered handlers and the dispatch of a vector, the panic report
    of an unhandled exception, the timer and keyboard handlers, and the
    programming of the interrupt controllers. *)
From stdpp Require Import strings.
From S2P Require Import Prelude Interfaces Ports Pcb Queue Sched Keyboard Console.
#[local] Open Scope Z_scope.

Module Interrupt.
Import Ports Sched Keyboard Console.

Definition IDT_ENTRIES := 256.
Definition IDT_FLAG_PRESENT := 0x80.
Definition IDT_FLAG_DPL_3 := 0x60.
Definition IDT_FLAG_INTERRUPT := 0x0E.
Definition INT_PAGE_FAULT := 14.
Definition PIC_MASTER_CMD := 0x20.
Definition PIC_MASTER_DATA := 0x21.
Definition PIC_SLAVE_CMD := 0xA0.
Definition PIC_SLAVE_DATA := 0xA1.
Definition IRQ0_TIMER := 0x20.
Definition IRQ1_KEYBOARD := 0x21.

Record idt_entry := mk_entry {
  offset_low : Z; selector : Z; ist : Z; flags : Z; offset_mid : Z; offset_high : Z; reserved : Z }.

(** The registers an interrupt saves. *)
Record interrupt_frame := mk_frame {
  r15 : Z; r14 : Z; r13 : Z; r12 : Z; r11 : Z; r10 : Z; r9 : Z; r8 : Z;
  rbp : Z; rdi : Z; rsi : Z; rdx : Z; rcx : Z; rbx : Z; rax : Z;
  int_no : Z; err_code : Z; rip : Z; cs : Z; rflags : Z; rsp : Z; ss : Z }.

(** The functions that are registered as handlers. *)
Inductive isr := Isr_timer | Isr_keyboard | Isr_syscall.

(** The state handlers work on.  [out] is the list of console calls made. *)
Record machine := mk_machine {
  idt : list idt_entry;
  isr_handlers : list (option isr);
  timer_ticks : Z;
  m_sched : sched;
  m_kbd : kbd;
  out : list console_call }.

Definition set_idt x m := mk_machine x (isr_handlers m) (timer_ticks m) (m_sched m) (m_kbd m) (out m).
Definition set_handlers x m := mk_machine (idt m) x (timer_ticks m) (m_sched m) (m_kbd m) (out m).
Definition set_ticks x m := mk_machine (idt m) (isr_handlers m) x (m_sched m) (m_kbd m) (out m).
Definition set_sched x m := mk_machine (idt m) (isr_handlers m) (timer_ticks m) x (m_kbd m) (out m).
Definition set_kbd x m := mk_machine (idt m) (isr_handlers m) (timer_ticks m) (m_sched m) x (out m).
Definition set_out x m := mk_machine (idt m) (isr_handlers m) (timer_ticks m) (m_sched m) (m_kbd m) x.

Definition exception_names : list string :=
  ["Division By Zero"; "Debug"; "Non-Maskable Interrupt"; "Breakpoint"; "Overflow"; "Bound Range Exceeded";
   "Invalid Opcode"; "Device Not Available"; "Double Fault"; "Coprocessor Segment Overrun"; "Invalid TSS";
   "Segment Not Present"; "Stack-Segment Fault"; "General Protection Fault"; "Page Fault"; "Reserved";
   "x87 FPU Floating-Point Error"; "Alignment Check"; "Machine Check"; "SIMD Floating-Point Exception";
   "Virtualization Exception"]%string.

Definition interrupt_get_exception_name (vector : Z) : string :=
  if vector <? Z.of_nat (length exception_names) then default ""%string (arr_get exception_names vector)
  else "Unknown Exception"%string.

Definition print (c : console_call) : prog machine unit := modify (fun m => set_out (out m ++ [c]) m).

Definition idt_set_descriptor (vector handler_addr fl : Z) : prog machine unit :=
  t ← gets idt;
  let e := mk_entry (u16 (Z.land handler_addr 0xFFFF)) 0x08 0 fl
                    (u16 (Z.land (Z.shiftr handler_addr 16) 0xFFFF))
                    (u32 (Z.land (Z.shiftr handler_addr 32) 0xFFFFFFFF)) 0 in
  t' ← need (arr_set t vector e);
  modify (set_idt t').

Definition interrupt_register_handler (vector : Z) (handler : isr) : prog machine unit :=
  t ← gets isr_handlers;
  t' ← need (arr_set t vector (Some handler));
  modify (set_handlers t').

Definition interrupt_set_dpl (vector dpl : Z) : prog machine unit :=
  t ← gets idt;
  e ← need (arr_get t vector);
  let fl := u8 (Z.lor (Z.lor IDT_FLAG_PRESENT dpl) IDT_FLAG_INTERRUPT) in
  t' ← need (arr_set t vector (mk_entry (offset_low e) (selector e) (ist e) fl (offset_mid e) (offset_high e)
                                 (reserved e)));
  modify (set_idt t').

(** [isr_stub_table] is defined in assembly: the addresses of the 256 entry
    points.  Loading the IDT register has no effect the model can see. *)
Definition interrupt_init (isr_stub_table : list Z) : prog machine unit :=
  _ ← for_ (Z.to_nat IDT_ENTRIES) 0 (fun i =>
        a ← need (arr_get isr_stub_table i);
        idt_set_descriptor (u8 i) a (Z.lor IDT_FLAG_PRESENT IDT_FLAG_INTERRUPT));
  print (Writeline (text "[int] IDT loaded — 256 entries configured")).

(** The report of an unhandled exception; the machine then halts. *)
Definition exception_report (cr2 : Z) (f : interrupt_frame) : list console_call :=
  let vector := u8 (int_no f) in
  let pr fmt vals := Printf (text fmt ++ [10]) (AVal <$> vals) in
  let bit_set b := negb (Z.land (err_code f) b =? 0) in
  [SetColor VGA_LIGHT_RED VGA_BLACK;
   Printf ([10] ++ text "!!! KERNEL PANIC: %s (%d) !!!" ++ [10])
     [AStr (Some (text (interrupt_get_exception_name vector))); AVal vector];
   pr "    Error code: 0x%x" [err_code f];
   pr "    RIP: 0x%p    CS: 0x%x" [rip f; cs f];
   pr "    RFLAGS: 0x%x    RSP: 0x%p" [rflags f; rsp f];
   pr "    RAX: 0x%p    RBX: 0x%p    RCX: 0x%p" [rax f; rbx f; rcx f];
   pr "    RDX: 0x%p    RSI: 0x%p    RDI: 0x%p" [rdx f; rsi f; rdi f];
   pr "    RBP: 0x%p    R8:  0x%p    R9:  0x%p" [rbp f; r8 f; r9 f];
   pr "    R10: 0x%p    R11: 0x%p    R12: 0x%p" [r10 f; r11 f; r12 f];
   pr "    R13: 0x%p    R14: 0x%p    R15: 0x%p" [r13 f; r14 f; r15 f]] ++
  (if vector =? INT_PAGE_FAULT then
     [pr "    CR2 (fault address): 0x%p" [cr2];
      Printf (text "    Page fault %s: %s" ++ [10])
        [AStr (Some (text (if bit_set 0x01 then "(present)" else "(non-present)")));
         AStr (Some (text (if bit_set 0x02 then "write" else "read")))]] ++
     (if bit_set 0x04 then [Printf (text "    Fault in user mode (CPL=3)" ++ [10]) []] else []) ++
     (if bit_set 0x08 then [Printf (text "    Reserved bit violation" ++ [10]) []] else []) ++
     (if bit_set 0x10 then [Printf (text "    Instruction fetch" ++ [10]) []] else [])
   else []) ++
  [Printf (text "!!! System halted !!!" ++ [10]) []].

(** How a handler ends: it returns a frame, or the machine is halted. *)
Inductive outcome := Returned (f : interrupt_frame) | Halted.

Section handlers.
Context {H : Type} {HP : PortIO H}.

(** The handler of system calls, and the register that holds the address of a
    page fault. *)
Variable syscall_handler : interrupt_frame -> prog (H * machine) interrupt_frame.
Variable cr2 : Z.

Definition exception_default_handler (f : interrupt_frame) : prog (H * machine) outcome :=
  _ ← dev (modify (fun m => set_out (out m ++ exception_report cr2 f) m));
  mret Halted.

Definition on_sched (m : prog sched unit) : prog machine unit := fun s =>
  match m (m_sched s) with
  | Some (_, x) => Some (tt, set_sched x s)
  | None => None
  end.

Definition on_kbd (m : prog (H * kbd) unit) : prog (H * machine) unit := fun s =>
  match m (s.1, m_kbd s.2) with
  | Some (_, (h, k)) => Some (tt, (h, set_kbd k s.2))
  | None => None
  end.

Definition timer_handler (f : interrupt_frame) : prog (H * machine) interrupt_frame :=
  _ ← dev (modify (fun m => set_ticks (u64 (timer_ticks m + 1)) m));
  _ ← dev (on_sched scheduler_tick);
  _ ← outb 0x20 0x20;
  mret f.

Definition keyboard_handler (f : interrupt_frame) : prog (H * machine) interrupt_frame :=
  _ ← on_kbd keyboard_irq_handler; mret f.

Definition call_isr (h : isr) (f : interrupt_frame) : prog (H * machine) interrupt_frame :=
  match h with
  | Isr_timer => timer_handler f
  | Isr_keyboard => keyboard_handler f
  | Isr_syscall => syscall_handler f
  end.

Definition isr_handler (f : interrupt_frame) : prog (H * machine) outcome :=
  let vector := u8 (int_no f) in
  h ← dev (t ← gets isr_handlers; need (arr_get t vector));
  match h with
  | Some h => f ← call_isr h f; mret (Returned f)
  | None =>
      if vector <? 32 then exception_default_handler f
      else
        _ ← (if (0x20 <=? vector) && (vector <=? 0x2F) then
               _ ← (if 0x28 <=? vector then outb 0xA0 0x20 else mret tt);
               outb 0x20 0x20
             else mret tt);
        mret (Returned f)
  end.

Definition irq_init : prog (H * machine) unit :=
  _ ← outb PIC_MASTER_CMD 0x11;
  _ ← outb PIC_SLAVE_CMD 0x11;
  _ ← outb PIC_MASTER_DATA 0x20;
  _ ← outb PIC_SLAVE_DATA 0x28;
  _ ← outb PIC_MASTER_DATA 0x04;
  _ ← outb PIC_SLAVE_DATA 0x02;
  _ ← outb PIC_MASTER_DATA 0x01;
  _ ← outb PIC_SLAVE_DATA 0x01;
  _ ← outb PIC_MASTER_DATA 0x00;
  _ ← outb PIC_SLAVE_DATA 0x00;
  _ ← dev (interrupt_register_handler IRQ0_TIMER Isr_timer);
  _ ← dev (interrupt_register_handler IRQ1_KEYBOARD Isr_keyboard);
  dev (print (Writeline (text "[irq] PIC remapped — IRQ handlers installed"))).
End handlers.
(** * Handlers do not fault *)

(** What the tick functions need of the scheduler's state. *)
Definition tick_safe (s : sched) : Prop :=
  (forall i, current_process s = Some i -> is_Some (arr_get (Pcb.pcb_table (s_pcbs s)) i)) /\
  length (mlq_level_ticks (s_mlq s)) = 4%nat.

Lemma current_counts_ok s (Q : bool -> sched -> Prop) : tick_safe s ->
  (forall (b : bool), (b = true -> exists i p, current_process s = Some i /\
     arr_get (Pcb.pcb_table (s_pcbs s)) i = Some p) -> Q b s) ->
  runs current_counts s Q.
Proof.
  intros [Hc _] HQ. unfold current_counts. run. destruct (current_process s) as [i|] eqn:Ei.
  - destruct (Hc i eq_refl) as [p Hp]. apply runs_bind. exists p, s. split.
    { unfold on_pcbs, Pcb.get_pcb. rewrite Hp. cbn. by destruct s. }
    run. apply HQ. eauto.
  - run. by apply HQ.
Qed.

Lemma tick_safe_mlq_tick s : tick_safe s -> runs mlq_tick s (fun _ s' => tick_safe s').
Proof.
  intros Hs. unfold mlq_tick. run. apply current_counts_ok; [done|]. intros [] Hb.
  2: { run. by destruct Hs. }
  destruct (Hb eq_refl) as (i & p & Hi & Hp). run. rewrite Hi. apply (runs_need _ i); [done|].
  apply runs_bind. exists p, s. split. { unfold on_pcbs, Pcb.get_pcb. rewrite Hp. cbn. by destruct s. }
  pose proof (mlq_level_of_range (Pcb.priority p)) as Hlv. destruct Hs as [Hc Hl].
  destruct (arr_get_in (mlq_level_ticks (s_mlq s)) (mlq_level_of (Pcb.priority p)) ltac:(lia)) as [t Ht].
  destruct (arr_get_in mlq_quanta (mlq_level_of (Pcb.priority p)) ltac:(cbn; lia)) as [q Hq].
  run. apply (runs_need _ t); [done|]. run. eapply runs_need; [apply arr_set_in; lia|]. run.
  apply (runs_need _ q); [done|]. run.
  assert (Hafter : tick_safe (set_mlq (mk_mlq (mlq_queues (s_mlq s)) (count_tick (mlq_stats (s_mlq s)))
    (<[Z.to_nat (mlq_level_of (Pcb.priority p)) := u32 (t + 1)]> (mlq_level_ticks (s_mlq s)))) s)).
  { split; [done|]. cbn. by rewrite length_insert. }
  destruct (q <=? u32 (t + 1)); run; by destruct Hafter.
Qed.

Lemma tick_safe_tick s : tick_safe s -> runs scheduler_tick s (fun _ s' => tick_safe s').
Proof.
  intros Hs. unfold scheduler_tick, g_ops. run.
  destruct (g_scheduler s ≫= ops_of) as [ops|] eqn:Eo; [|by apply runs_ret].
  destruct (g_scheduler s) as [id|]; [|done]. cbn in Eo. unfold ops_of in Eo.
  destruct (id =? SCHED_FCFS); [simplify_eq; by apply runs_ret|].
  destruct (id =? SCHED_RR); [|destruct (id =? SCHED_PRIORITY); [|destruct (id =? SCHED_MLQ)]]; simplify_eq;
    cbn [op_tick rr_ops priority_ops mlq_ops]; [| |by apply tick_safe_mlq_tick].
  all: unfold rr_tick, prio_tick; run; apply current_counts_ok; [done|]; intros [] _; run; try (by destruct Hs).
  all: destruct (QUANTUM_DEFAULT <=? _); run; by destruct Hs.
Qed.

(** The registered vectors and states in which the handlers run. *)
Record irq_ready (m : machine) : Prop := {
  rdy_timer : arr_get (isr_handlers m) 0x20 = Some (Some Isr_timer);
  rdy_keyboard : arr_get (isr_handlers m) 0x21 = Some (Some Isr_keyboard);
  rdy_others i : 2 <= i < 8 -> arr_get (isr_handlers m) (0x20 + i) = Some None;
  rdy_sched : tick_safe (m_sched m);
  rdy_kbd : exists a, abs_ok (m_kbd m) a }.

Section handler_lemmas.
Context {H : Type} {HP : PortIO H}.
Variable syscall_handler : interrupt_frame -> prog (H * machine) interrupt_frame.
Variable cr2 : Z.

(** Which program serves a vector. *)
Lemma isr_dispatch f h m o (Q : outcome -> H * machine -> Prop) :
  arr_get (isr_handlers m) (u8 (int_no f)) = Some (Some o) ->
  runs (call_isr syscall_handler o f) (h, m) (fun f' => Q (Returned f')) ->
  runs (isr_handler syscall_handler cr2 f) (h, m) Q.
Proof.
  intros Ho HQ. unfold isr_handler. apply runs_bind, runs_dev. run.
  eapply runs_need; [exact Ho|]. apply runs_bind. eapply runs_mono; [exact HQ|].
  intros f' s' Hs'. by apply runs_ret.
Qed.

(** The timer handler counts, ticks the scheduler and acknowledges. *)
Lemma timer_isr_ok f h m : irq_ready m -> u8 (int_no f) = 0x20 ->
  runs (isr_handler syscall_handler cr2 f) (h, m) (fun r s' =>
    r = Returned f /\ s'.1 = port_outb 0x20 0x20 h /\ irq_ready s'.2 /\
    timer_ticks s'.2 = u64 (timer_ticks m + 1)).
Proof.
  intros Hm Hv. eapply isr_dispatch; [rewrite Hv; apply (rdy_timer _ Hm)|]. cbn [call_isr]. unfold timer_handler.
  apply runs_bind, runs_dev. run. apply runs_dev.
  destruct (tick_safe_tick _ (rdy_sched _ Hm)) as ([] & sc & Hsc & Hsafe).
  eexists tt, (set_sched sc (set_ticks _ m)). split.
  { unfold on_sched. cbn [m_sched set_ticks]. rewrite Hsc. reflexivity. }
  apply runs_bind, runs_outb. run. cbn [fst snd]. change (u16 0x20) with 0x20. change (u8 0x20) with 0x20.
  split_and!; try done. destruct Hm. by split.
Qed.

Lemma keyboard_irq_ok h k a : abs_ok k a ->
  runs keyboard_irq_handler (h, k) (fun _ s' => s'.1 = (port_inb 0x60 h).2 /\ exists a', abs_ok s'.2 a').
Proof.
  intros Ha. unfold keyboard_irq_handler. apply runs_bind, runs_inb. intros v h' He. apply runs_dev.
  eapply runs_mono; [apply (handle_scancode_ok (u8 v) _ a Ha); apply wrap_range; lia|].
  intros [] k' [? _]. change (u16 0x60) with 0x60 in He. rewrite He. cbn. eauto.
Qed.

(** The keyboard handler reads the byte and acknowledges nothing. *)
Lemma keyboard_isr_ok f h m : irq_ready m -> u8 (int_no f) = 0x21 ->
  runs (isr_handler syscall_handler cr2 f) (h, m) (fun r s' =>
    r = Returned f /\ s'.1 = (port_inb 0x60 h).2 /\ irq_ready s'.2 /\ timer_ticks s'.2 = timer_ticks m).
Proof.
  intros Hm Hv. eapply isr_dispatch; [rewrite Hv; apply (rdy_keyboard _ Hm)|]. cbn [call_isr]. unfold keyboard_handler.
  destruct (rdy_kbd _ Hm) as [a Ha]. apply runs_bind.
  destruct (keyboard_irq_ok h _ a Ha) as ([] & [h' k'] & Hk & Hh & Ha').
  exists tt, (h', set_kbd k' m). split; [unfold on_kbd; cbn [fst snd]; by rewrite Hk|].
  run. cbn [fst snd] in *. split_and!; try done. destruct Hm. by split.
Qed.

(** A line without a handler is acknowledged at the master. *)
Lemma other_isr_ok f h m i : irq_ready m -> 2 <= i < 8 -> u8 (int_no f) = 0x20 + i ->
  runs (isr_handler syscall_handler cr2 f) (h, m) (fun r s' =>
    r = Returned f /\ s' = (port_outb 0x20 0x20 h, m)).
Proof.
  intros Hm Hi Hv. unfold isr_handler. rewrite Hv. apply runs_bind, runs_dev. run.
  eapply runs_need; [by apply (rdy_others _ Hm)|]. rewrite (proj2 (Z.ltb_ge _ _)) by lia. apply runs_bind.
  rewrite (proj2 (Z.leb_le _ _)), (proj2 (Z.leb_le _ 0x2F)) by lia. cbn [andb].
  rewrite (proj2 (Z.leb_gt _ _)) by lia. run. apply runs_outb. by run.
Qed.
End handler_lemmas.
(** * The interrupt lines over time *)

Section lines.
Context {H : Type} {HP : PortIO H} {HC : InterruptController H}.
Variable syscall_handler : interrupt_frame -> prog (H * machine) interrupt_frame.
Variable cr2 : Z.

(** The controller delivers a line only while no line of the same or a higher
    priority is in service. *)
Definition deliverable (h : H) (i : Z) : Prop := forall j, 0 <= j <= i -> in_service h j = false.

(** A line of the master interrupts, or other code runs that leaves the
    controller's lines alone. *)
Inductive irq_step : H * machine -> H * machine -> Prop :=
| irq_line i f h m r s' :
    0 <= i < 8 -> deliverable h i -> u8 (int_no f) = 0x20 + i ->
    isr_handler syscall_handler cr2 f (deliver i h, m) = Some (r, s') ->
    irq_step (h, m) s'
| irq_other h m h' m' :
    (forall j, in_service h' j = in_service h j) -> irq_ready m' -> irq_step (h, m) (h', m').

(** Between interrupts only the keyboard's line may be in service. *)
Definition lines_ok (s : H * machine) : Prop :=
  irq_ready s.2 /\ forall j, 0 <= j < 8 -> j <> 1 -> in_service s.1 j = false.

Lemma eoi_after_deliver h i : 0 <= i < 8 -> deliverable h i ->
  forall j, in_service (port_outb 0x20 0x20 (deliver i h)) j = in_service h j.
Proof.
  intros Hi Hd j. rewrite (eoi_in_service _ i); [|done|..].
  - destruct (Z.eqb_spec j i) as [->|Hne]; [symmetry; apply Hd; lia|].
    rewrite deliver_in_service by done. by rewrite (proj2 (Z.eqb_neq _ _) Hne).
  - rewrite deliver_in_service, Z.eqb_refl by done. done.
  - intros k Hk. rewrite deliver_in_service, (proj2 (Z.eqb_neq _ _)) by lia. apply Hd. lia.
Qed.

Lemma timer_line_ok f h m : irq_ready m -> u8 (int_no f) = 0x20 -> deliverable h 0 ->
  runs (isr_handler syscall_handler cr2 f) (deliver 0 h, m) (fun r s' =>
    r = Returned f /\ irq_ready s'.2 /\ timer_ticks s'.2 = u64 (timer_ticks m + 1) /\
    forall j, in_service s'.1 j = in_service h j).
Proof.
  intros Hm Hv Hd. eapply runs_mono; [by apply timer_isr_ok|]. intros r s' (-> & Hh & Hm' & Ht).
  split_and!; try done. rewrite Hh. by apply eoi_after_deliver.
Qed.

Lemma keyboard_line_ok f h m : irq_ready m -> u8 (int_no f) = 0x21 ->
  runs (isr_handler syscall_handler cr2 f) (deliver 1 h, m) (fun r s' =>
    r = Returned f /\ irq_ready s'.2 /\ forall j, in_service s'.1 j = (j =? 1) || in_service h j).
Proof.
  intros Hm Hv. eapply runs_mono; [by apply keyboard_isr_ok|]. intros r s' (-> & Hh & Hm' & _).
  split_and!; try done. intros j. rewrite Hh, read_in_service. by apply deliver_in_service.
Qed.

(** A step keeps the invariant, and the keyboard's line in service. *)
Lemma irq_step_ok s s' : irq_step s s' -> lines_ok s ->
  lines_ok s' /\ (in_service s.1 1 = true -> in_service s'.1 1 = true).
Proof.
  intros Hst [Hm Hl]. destruct Hst as [i f h m r s' Hi Hd Hv Hrun|h m h' m' Hh Hm']; cbn [fst snd] in *.
  - destruct (Z.eq_dec i 0) as [->|]; [|destruct (Z.eq_dec i 1) as [->|]].
    + destruct (runs_det _ _ _ _ _ (timer_line_ok f h m Hm Hv Hd) Hrun) as (_ & Hm' & _ & Hs).
      split; [split; [done|]; intros; rewrite Hs; by apply Hl|by rewrite Hs].
    + destruct (runs_det _ _ _ _ _ (keyboard_line_ok f h m Hm Hv) Hrun) as (_ & Hm' & Hs).
      split; [split; [done|]; intros j ? Hj; rewrite Hs, (proj2 (Z.eqb_neq _ _) Hj); by apply Hl|by rewrite Hs].
    + destruct (runs_det _ _ _ _ _ (other_isr_ok _ _ f (deliver i h) m i Hm ltac:(lia) Hv) Hrun) as (_ & ->).
      cbn [fst snd]. split; [split; [done|]; intros; cbn [fst]; rewrite eoi_after_deliver by done; by apply Hl|].
      by rewrite eoi_after_deliver.
  - split; [split; [done|]; intros; cbn [fst]; rewrite Hh; by apply Hl|]. by rewrite Hh.
Qed.

Lemma irq_steps_ok s s' : rtc irq_step s s' -> lines_ok s ->
  lines_ok s' /\ (in_service s.1 1 = true -> in_service s'.1 1 = true).
Proof.
  induction 1 as [s|s1 s2 s3 Hst _ IH]; intros Hs; [done|].
  destruct (irq_step_ok _ _ Hst Hs) as [Hs2 H2]. destruct (IH Hs2) as [Hs3 H3]. auto.
Qed.

(** C34: Whatever interrupts and other code come, the timer's line stays
    deliverable, and delivering it counts the tick and leaves it deliverable
    again; but the keyboard's line is never acknowledged: after one keyboard
    interrupt it stays in service for good, so neither it nor any line of lower
    priority on the master is delivered again. *)
Theorem timer_lives_keyboard_stalls s0 s f0 f1 :
  lines_ok s0 -> rtc irq_step s0 s -> u8 (int_no f0) = 0x20 -> u8 (int_no f1) = 0x21 ->
  (deliverable s.1 0 /\
   runs (isr_handler syscall_handler cr2 f0) (deliver 0 s.1, s.2) (fun r s' =>
     r = Returned f0 /\ timer_ticks s'.2 = u64 (timer_ticks s.2 + 1) /\ deliverable s'.1 0)) /\
  runs (isr_handler syscall_handler cr2 f1) (deliver 1 s.1, s.2) (fun r s' =>
    r = Returned f1 /\ forall s'' i, rtc irq_step s' s'' -> 1 <= i -> ~ deliverable s''.1 i).
Proof.
  intros Hs0 Hst Hf0 Hf1. destruct (irq_steps_ok _ _ Hst Hs0) as [[Hm Hl] _].
  assert (Hd : deliverable s.1 0) by (intros j Hj; apply Hl; lia).
  destruct s as [h m]; cbn [fst snd] in *. split; [split; [done|]|].
  - eapply runs_mono; [by apply timer_line_ok|]. intros r s' (-> & _ & Ht & Hs'). split_and!; try done.
    intros j Hj. rewrite Hs'. by apply Hd.
  - eapply runs_mono; [by apply keyboard_line_ok|]. intros r s' (-> & Hm' & Hs'). split; [done|].
    intros s'' i Hst' Hi Hdel. apply irq_steps_ok in Hst' as [_ Hk].
    + specialize (Hdel 1 ltac:(lia)). rewrite Hk in Hdel; [done|]. by rewrite Hs'.
    + split; [done|]. intros j Hj Hne. rewrite Hs', (proj2 (Z.eqb_neq _ _) Hne). by apply Hl.
Qed.
End lines.

(** A controller of eight lines whose keyboard port always reads 0x1E. *)
Module DemoPic.

Definition lowest (h : Z -> bool) : option Z := list_find (fun j => Is_true (h j)) (seqZ 0 8) ≫= fun r => Some r.2.

#[export] Instance demo_ports : PortIO (Z -> bool) := {
  port_inb := fun p h => (0x1E, h);
  port_outb := fun p v h =>
    if (p =? 0x20) && (v =? 0x20) then
      match lowest h with Some i => fun j => if j =? i then false else h j | None => h end
    else h;
  port_inw := fun p h => (0, h);
  port_outw := fun p v h => h }.

Lemma lowest_first h i : 0 <= i < 8 -> h i = true -> (forall j, 0 <= j < i -> h j = false) -> lowest h = Some i.
Proof.
  intros Hi Ht Hlow. unfold lowest.
  assert (Hf : list_find (fun j => Is_true (h j)) (seqZ 0 8) = Some (Z.to_nat i, i)).
  { apply list_find_Some. split_and!.
    - apply lookup_seqZ. lia.
    - by rewrite Ht.
    - intros k x Hk Hlt. apply lookup_seqZ in Hk as [-> ?]. rewrite Hlow by lia. by intros []. }
  by rewrite Hf.
Qed.

#[export] Program Instance demo_pic : InterruptController (Z -> bool) := {
  in_service := fun h j => h j;
  deliver := fun i h j => (j =? i) || h j }.
Next Obligation. done. Qed.
Next Obligation. done. Qed.
Next Obligation. intros h i Hi Ht Hlow j. cbn. by rewrite (lowest_first h i). Qed.

End DemoPic.
Import DemoPic.
(** * Initialisation *)

(** The address a descriptor leads to. *)
Definition entry_address (e : idt_entry) : Z := offset_low e + 2 ^ 16 * offset_mid e + 2 ^ 32 * offset_high e.

Lemma descriptor_address a : 0 <= a < 2 ^ 64 ->
  u16 (Z.land a 0xFFFF) + 2 ^ 16 * u16 (Z.land (Z.shiftr a 16) 0xFFFF)
  + 2 ^ 32 * u32 (Z.land (Z.shiftr a 32) 0xFFFFFFFF) = a.
Proof.
  intros Ha. rewrite !(land_low 16), (land_low 32), !Z.shiftr_div_pow2 by lia. unfold wrap.
  rewrite !Z.mod_mod by lia. rewrite (Z.mod_small (a / 2 ^ 32)) by dlia. dlia.
Qed.

(** Every vector leads to its stub, through a present kernel interrupt gate. *)
Lemma interrupt_init_entries stubs m : length stubs = 256%nat -> Forall (fun a => 0 <= a < 2 ^ 64) stubs ->
  length (idt m) = 256%nat ->
  runs (interrupt_init stubs) m (fun _ m' => isr_handlers m' = isr_handlers m /\
    forall i a, arr_get stubs i = Some a -> exists e, arr_get (idt m') i = Some e /\
      entry_address e = a /\ flags e = 0x8E /\ selector e = 0x08).
Proof.
  intros Hs Ha Hl. unfold interrupt_init, IDT_ENTRIES. apply runs_bind. eapply runs_mono.
  { apply (runs_for (fun i m' => length (idt m') = 256%nat /\ isr_handlers m' = isr_handlers m /\
      forall j a, j < i -> arr_get stubs j = Some a -> exists e, arr_get (idt m') j = Some e /\
        entry_address e = a /\ flags e = 0x8E /\ selector e = 0x08)).
    - split_and!; [done|done|]. intros j a Hj [? _]%arr_get_Some. lia.
    - intros i m' Hi (Hl' & Hh & He). destruct (arr_get_in stubs i ltac:(lia)) as [a Ha'].
      apply runs_bind, (runs_need _ a); [done|]. unfold idt_set_descriptor. run. rewrite wrap_small by lia.
      set (e := mk_entry _ _ _ _ _ _ _). pose proof (arr_set_in (idt m') i e ltac:(lia)) as Hset.
      eapply runs_need; [exact Hset|]. run.
      split_and!; [cbn; by rewrite length_insert|done|]. intros j b Hj Hb. cbn [idt set_idt].
      rewrite (arr_get_set _ _ _ _ _ Hset). destruct (Z.eqb_spec j i) as [->|]; [|apply He; [lia|done]].
      rewrite Ha' in Hb. simplify_eq. exists e. split_and!; try done. apply descriptor_address.
      rewrite Forall_forall in Ha. by eapply Ha, arr_get_elem. }
  intros [] m' (_ & Hh & He). unfold print. run. split; [done|]. intros i a Hi. apply (He i a); [|done].
  apply arr_get_Some in Hi. lia.
Qed.

(** The words the controllers get: initialisation, vectors 0x20 and 0x28, the
    cascade on line 2, 8086 mode, and every line enabled. *)
Definition pic_words : list (Z * Z) :=
  [(0x20, 0x11); (0xA0, 0x11); (0x21, 0x20); (0xA1, 0x28); (0x21, 0x04); (0xA1, 0x02); (0x21, 0x01); (0xA1, 0x01);
   (0x21, 0x00); (0xA1, 0x00)].

(** [irq_init] registers exactly the timer's and the keyboard's handlers. *)
Lemma irq_init_ready {H} {HP : PortIO H} h m : isr_handlers m = replicate 256 None ->
  tick_safe (m_sched m) -> (exists a, abs_ok (m_kbd m) a) ->
  runs irq_init (h, m) (fun _ s' => irq_ready s'.2 /\ s'.1 = foldl (fun h w => port_outb w.1 w.2 h) h pic_words).
Proof.
  intros Hh Hs Hk. unfold irq_init. do 10 (apply runs_bind, runs_outb).
  apply runs_bind, runs_dev. unfold interrupt_register_handler. run. rewrite Hh.
  eapply runs_need; [apply arr_set_in; rewrite length_replicate; unfold IRQ0_TIMER; lia|]. run.
  apply runs_dev. run. cbn [isr_handlers set_handlers].
  eapply runs_need; [apply arr_set_in; rewrite length_insert, length_replicate; unfold IRQ1_KEYBOARD; lia|]. run.
  apply runs_dev. unfold print. run.
  split; [|done]. split; try done.
  intros i Hi. assert (Hin : i ∈ seqZ 2 6) by (apply elem_of_seqZ; lia).
  vm_compute in Hin. repeat (apply elem_of_cons in Hin as [->|Hin]; [done|]). by apply elem_of_nil in Hin.
Qed.

Definition no_frame (n : Z) : interrupt_frame := mk_frame 0 0 0 0 0 0 0 0 0 0 0 0 0 0 0 n 0 0 0 0 0 0.

Definition boot_machine : machine :=
  mk_machine (replicate 256 (mk_entry 0 0 0 0 0 0 0)) (replicate 256 None) 0 (demo_sched SCHED_MLQ) kbd_zero [].

Definition idle_pic : Z -> bool := fun _ => false.
Definition no_syscall (f : interrupt_frame) : prog ((Z -> bool) * machine) interrupt_frame := mret f.

(** After [irq_init] on an idle controller one key is served and no second. *)
Lemma timer_lives_keyboard_stalls_witness :
  runs irq_init (idle_pic, boot_machine) (fun _ s =>
    runs (isr_handler no_syscall 0 (no_frame 0x21)) (deliver 1 s.1, s.2) (fun r s' =>
      r = Returned (no_frame 0x21) /\ forall s'' i, rtc (irq_step no_syscall 0) s' s'' -> 1 <= i -> ~ deliverable s''.1 i)).
Proof.
  eapply runs_mono.
  - apply irq_init_ready; [reflexivity| |exists (mk_spec [] []); apply abs_zero].
    split; [discriminate|reflexivity].
  - intros [] s [Hr Hh].
    apply (timer_lives_keyboard_stalls no_syscall 0 s s (no_frame 0x20) (no_frame 0x21)); [|apply rtc_refl|reflexivity..].
    split; [exact Hr|]. intros j _ _. rewrite Hh. reflexivity.
Defined.

End Interrupt.
