(* ===== verification/Ata.v ===== *)
(** The ATA PIO driver (src/drivers/ata.c, ata.h): polling, LBA programming,
    IDENTIFY, sector transfers with retries.  The drive is a parameter that
    follows the ATA command protocol (class [AtaDrive]); over such a drive the
    driver is a block device, which is what the file system is proved on. *)
From S2P Require Import Prelude Interfaces Bytes Ports.

Module Ata.
Import Ports.

Definition ATA_SECTOR_SIZE := 512.
Definition ATA_MAX_LBA28 := 0x0FFFFFFF.
Definition ATA_PRIMARY_DATA := 0x1F0.
Definition ATA_PRIMARY_FEATURES := 0x1F1.
Definition ATA_PRIMARY_SECCOUNT := 0x1F2.
Definition ATA_PRIMARY_LBA_LO := 0x1F3.
Definition ATA_PRIMARY_LBA_MID := 0x1F4.
Definition ATA_PRIMARY_LBA_HI := 0x1F5.
Definition ATA_PRIMARY_DRIVE := 0x1F6.
Definition ATA_PRIMARY_STATUS := 0x1F7.
Definition ATA_PRIMARY_COMMAND := 0x1F7.
Definition ATA_PRIMARY_CTRL := 0x3F6.
Definition ATA_SR_BSY := 0x80.
Definition ATA_SR_DF := 0x20.
Definition ATA_SR_DRQ := 0x08.
Definition ATA_SR_ERR := 0x01.
Definition ATA_CMD_READ_PIO := 0x20.
Definition ATA_CMD_WRITE_PIO := 0x30.
Definition ATA_CMD_CACHE_FLUSH := 0xE7.
Definition ATA_CMD_IDENTIFY := 0xEC.
Definition ATA_DRIVE_LBA_MASTER := 0xE0.
Definition ATA_POLL_LIMIT := 1000000.
Definition ATA_RETRY_COUNT := 3.

(** The driver's own variable. *)
Record ata := mk_ata { g_ata_present : bool }.

Section driver.
Context {H : Type} {HP : PortIO H}.

Definition ata_io_delay : prog (H * ata) unit :=
  _ ← inb ATA_PRIMARY_CTRL; _ ← inb ATA_PRIMARY_CTRL; _ ← inb ATA_PRIMARY_CTRL; _ ← inb ATA_PRIMARY_CTRL;
  mret tt.

Definition ata_wait_not_busy : prog (H * ata) Z :=
  r ← for_ret (Z.to_nat ATA_POLL_LIMIT) 0 (fun _ =>
        s ← inb ATA_PRIMARY_STATUS;
        mret (if Z.land s ATA_SR_BSY =? 0 then Some 0 else None));
  mret (default (-1) r).

Definition ata_wait_drq : prog (H * ata) Z :=
  r ← for_ret (Z.to_nat ATA_POLL_LIMIT) 0 (fun _ =>
        s ← inb ATA_PRIMARY_STATUS;
        mret (if negb (Z.land s ATA_SR_BSY =? 0) then None
              else if negb (Z.land s (Z.lor ATA_SR_ERR ATA_SR_DF) =? 0) then Some (-1)
              else if negb (Z.land s ATA_SR_DRQ =? 0) then Some 0 else None));
  mret (default (-1) r).

Definition ata_program_lba (lba count : Z) : prog (H * ata) unit :=
  let drive_byte := u8 (Z.lor ATA_DRIVE_LBA_MASTER (u8 (Z.land (Z.shiftr lba 24) 0x0F))) in
  _ ← outb ATA_PRIMARY_DRIVE drive_byte;
  _ ← ata_io_delay;
  _ ← outb ATA_PRIMARY_FEATURES 0x00;
  _ ← outb ATA_PRIMARY_SECCOUNT count;
  _ ← outb ATA_PRIMARY_LBA_LO (u8 (Z.land lba 0xFF));
  _ ← outb ATA_PRIMARY_LBA_MID (u8 (Z.land (Z.shiftr lba 8) 0xFF));
  outb ATA_PRIMARY_LBA_HI (u8 (Z.land (Z.shiftr lba 16) 0xFF)).

Definition ata_soft_reset : prog (H * ata) unit :=
  _ ← outb ATA_PRIMARY_CTRL 0x04;
  _ ← ata_io_delay;
  _ ← outb ATA_PRIMARY_CTRL 0x00;
  _ ← ata_io_delay;
  _ ← ata_wait_not_busy;
  mret tt.

Definition ata_identify_master : prog (H * ata) bool :=
  _ ← outb ATA_PRIMARY_DRIVE 0xA0;
  _ ← ata_io_delay;
  _ ← outb ATA_PRIMARY_SECCOUNT 0x00;
  _ ← outb ATA_PRIMARY_LBA_LO 0x00;
  _ ← outb ATA_PRIMARY_LBA_MID 0x00;
  _ ← outb ATA_PRIMARY_LBA_HI 0x00;
  _ ← outb ATA_PRIMARY_COMMAND ATA_CMD_IDENTIFY;
  _ ← ata_io_delay;
  status ← inb ATA_PRIMARY_STATUS;
  if (status =? 0x00) || (status =? 0xFF) then mret false else
  r ← ata_wait_not_busy;
  if negb (r =? 0) then mret false else
  lba_mid ← inb ATA_PRIMARY_LBA_MID;
  lba_hi ← inb ATA_PRIMARY_LBA_HI;
  if negb (lba_mid =? 0) || negb (lba_hi =? 0) then mret false else
  r ← ata_wait_drq;
  if negb (r =? 0) then mret false else
  _ ← for_ 256 0 (fun _ => _ ← inw ATA_PRIMARY_DATA; mret tt);
  mret true.

(** The words [i], [i + 1], ... of the sector at [dst] in the buffer. *)
Fixpoint pio_read_words (n : nat) (i dst : Z) (buf : list Z) : prog (H * ata) (list Z) :=
  match n with
  | O => mret buf
  | S n =>
      w ← inw ATA_PRIMARY_DATA;
      buf ← need (arr_set buf (dst + i * 2) (u8 (Z.land w 0xFF)));
      buf ← need (arr_set buf (dst + i * 2 + 1) (u8 (Z.land (Z.shiftr w 8) 0xFF)));
      pio_read_words n (i + 1) dst buf
  end.

Definition ata_pio_read_sector (dst : Z) (buf : list Z) : prog (H * ata) (list Z) :=
  pio_read_words 256 0 dst buf.

Definition ata_pio_write_sector (src : Z) (buf : list Z) : prog (H * ata) unit :=
  for_ 256 0 (fun i =>
    lo ← need (arr_get buf (src + i * 2));
    hi ← need (arr_get buf (src + i * 2 + 1));
    outw ATA_PRIMARY_DATA (u16 (Z.lor lo (Z.shiftl hi 8)))).

(** The loop over the sectors [s], [s + 1], ... of a read: status and buffer. *)
Fixpoint read_sectors_loop (n : nat) (s : Z) (buf : list Z) : prog (H * ata) (Z * list Z) :=
  match n with
  | O => mret (0, buf)
  | S n =>
      r ← ata_wait_drq;
      if negb (r =? 0) then mret (-1, buf) else
      buf ← ata_pio_read_sector (s * ATA_SECTOR_SIZE) buf;
      read_sectors_loop n (s + 1) buf
  end.

Definition ata_read_once (lba count : Z) (dst : list Z) : prog (H * ata) (Z * list Z) :=
  r ← ata_wait_not_busy;
  if negb (r =? 0) then mret (-1, dst) else
  _ ← ata_program_lba lba count;
  _ ← outb ATA_PRIMARY_COMMAND ATA_CMD_READ_PIO;
  _ ← ata_io_delay;
  read_sectors_loop (Z.to_nat count) 0 dst.

Definition ata_write_once (lba count : Z) (src : list Z) : prog (H * ata) Z :=
  r ← ata_wait_not_busy;
  if negb (r =? 0) then mret (-1) else
  _ ← ata_program_lba lba count;
  _ ← outb ATA_PRIMARY_COMMAND ATA_CMD_WRITE_PIO;
  _ ← ata_io_delay;
  e ← for_ret (Z.to_nat count) 0 (fun s =>
        r ← ata_wait_drq;
        if negb (r =? 0) then mret (Some (-1)) else
        _ ← ata_pio_write_sector (s * ATA_SECTOR_SIZE) src; mret None);
  match e with
  | Some r => mret r
  | None =>
      _ ← outb ATA_PRIMARY_COMMAND ATA_CMD_CACHE_FLUSH;
      _ ← ata_io_delay;
      ata_wait_not_busy
  end.

Definition ata_init : prog (H * ata) unit :=
  _ ← dev (modify (fun _ => mk_ata false));
  _ ← outb ATA_PRIMARY_CTRL 0x02;
  _ ← ata_io_delay;
  _ ← ata_soft_reset;
  present ← ata_identify_master;
  dev (modify (fun _ => mk_ata present)).

Definition ata_is_present : prog (H * ata) bool := dev (gets g_ata_present).

(** The attempts of a read; the buffer keeps what a failed one stored. *)
Fixpoint read_attempts (n : nat) (lba count : Z) (buf : list Z) : prog (H * ata) (Z * list Z) :=
  match n with
  | O => mret (-1, buf)
  | S n =>
      '(r, buf) ← ata_read_once lba count buf;
      if r =? 0 then mret (0, buf) else
      _ ← ata_soft_reset;
      read_attempts n lba count buf
  end.

(** A null buffer is [None]. *)
Definition ata_read_sectors (lba count : Z) (buffer : option (list Z)) : prog (H * ata) (Z * option (list Z)) :=
  match buffer with
  | None => mret (-1, None)
  | Some buf =>
      if count =? 0 then mret (-1, buffer) else
      if ATA_MAX_LBA28 <? lba then mret (-1, buffer) else
      present ← dev (gets g_ata_present);
      if negb present then mret (-1, buffer) else
      '(r, buf) ← read_attempts (Z.to_nat ATA_RETRY_COUNT) lba count buf;
      mret (r, Some buf)
  end.

Definition ata_write_sectors (lba count : Z) (buffer : option (list Z)) : prog (H * ata) Z :=
  match buffer with
  | None => mret (-1)
  | Some src =>
      if count =? 0 then mret (-1) else
      if ATA_MAX_LBA28 <? lba then mret (-1) else
      present ← dev (gets g_ata_present);
      if negb present then mret (-1) else
      r ← for_ret (Z.to_nat ATA_RETRY_COUNT) 0 (fun _ =>
            r ← ata_write_once lba count src;
            if r =? 0 then mret (Some 0) else
            _ ← ata_soft_reset; mret None);
      mret (default (-1) r)
  end.
End driver.
(** * The drive *)

(** What the drive is doing: nothing, sending bytes, or collecting the bytes of
    the sector [lba] with [more] sectors to come, this one included. *)
Inductive transfer := NoTransfer | DataIn (bytes : list Z) | DataOut (lba more : Z) (acc : list Z).

(** What is on the media, the task file registers, the last command and the
    transfer. *)
Record drive := mk_drive {
  media : Z -> list Z;
  r_count : Z; r_lo : Z; r_mid : Z; r_hi : Z; r_drive : Z;
  last_command : Z;
  xfer : transfer }.

Definition set_media x d := mk_drive x (r_count d) (r_lo d) (r_mid d) (r_hi d) (r_drive d) (last_command d) (xfer d).
Definition set_command c x d := mk_drive (media d) (r_count d) (r_lo d) (r_mid d) (r_hi d) (r_drive d) c x.
Definition set_xfer x d := set_command (last_command d) x d.

Definition write_register (p v : Z) (d : drive) : drive :=
  if p =? 0x1F2 then mk_drive (media d) v (r_lo d) (r_mid d) (r_hi d) (r_drive d) (last_command d) (xfer d) else
  if p =? 0x1F3 then mk_drive (media d) (r_count d) v (r_mid d) (r_hi d) (r_drive d) (last_command d) (xfer d) else
  if p =? 0x1F4 then mk_drive (media d) (r_count d) (r_lo d) v (r_hi d) (r_drive d) (last_command d) (xfer d) else
  if p =? 0x1F5 then mk_drive (media d) (r_count d) (r_lo d) (r_mid d) v (r_drive d) (last_command d) (xfer d) else
  if p =? 0x1F6 then mk_drive (media d) (r_count d) (r_lo d) (r_mid d) (r_hi d) v (last_command d) (xfer d) else d.

(** Drives that agree on everything but the registers: a command, a reset or
    the passing of a sector may leave anything in those. *)
Definition same_data (a b : drive) : Prop := media a = media b /\ xfer a = xfer b.

#[export] Instance same_data_equiv : Equivalence same_data.
Proof. split; unfold same_data; [done|by intros ?? [-> ->]|by intros ??? [-> ->] [-> ->]]. Qed.

#[export] Instance media_same : Proper (same_data ==> (=)) media.
Proof. by intros a b [? _]. Qed.

#[export] Instance xfer_same : Proper (same_data ==> (=)) xfer.
Proof. by intros a b [_ ?]. Qed.

#[export] Instance set_xfer_same : Proper ((=) ==> same_data ==> same_data) set_xfer.
Proof. intros ? x -> a b [Hm _]. by split. Qed.

#[export] Instance set_media_same : Proper ((=) ==> same_data ==> same_data) set_media.
Proof. intros ? x -> a b [_ Hx]. by split. Qed.

(** The sector a command addresses: 28 bits over four registers. *)
Definition address (d : drive) : Z := r_lo d + 2 ^ 8 * r_mid d + 2 ^ 16 * r_hi d + 2 ^ 24 * (r_drive d mod 16).

Definition sending (l : list Z) : transfer := match l with [] => NoTransfer | _ => DataIn l end.

Definition range_bytes (d : drive) (lba n : Z) : list Z := concat (media d <$> seqZ lba n).

Definition collecting (lba more : Z) : transfer := if more =? 0 then NoTransfer else DataOut lba more [].

Definition upd (f : Z -> list Z) (k : Z) (v : list Z) : Z -> list Z := fun l => if l =? k then v else f l.

(** A word arrives while a sector is collected. *)
Definition word_out (w : Z) (d : drive) : drive :=
  match xfer d with
  | DataOut lba more acc =>
      let acc := acc ++ [w mod 256; w / 256] in
      if (length acc =? 512)%nat then set_xfer (collecting (lba + 1) (more - 1)) (set_media (upd (media d) lba acc) d)
      else set_xfer (DataOut lba more acc) d
  | _ => d
  end.

#[export] Instance word_out_same : Proper ((=) ==> same_data ==> same_data) word_out.
Proof.
  intros ? w -> a b [Hm Hx]. unfold word_out. rewrite Hx. destruct (xfer b) as [| |lba more acc] eqn:E; try (split; congruence).
  rewrite <- Hm. cbn zeta. case_match; split; cbn; congruence.
Qed.

(** A drive behind the primary ports, by what the ATA command protocol says of
    it.  [busy] is the number of reads of the status register that still show
    BSY.  The status is known by its bits only: while BSY is set nothing else of
    it counts (but the drive is not taken for an empty bus, which reads as all
    ones); while a transfer waits DRQ is set and ERR and DF are clear.  Registers
    may be written and commands given when the drive is neither busy nor
    transferring; what the registers hold after a reset, after a command other
    than IDENTIFY or after data was transferred is left open.  That the drive
    works is in three laws: [ad_busy], it becomes ready within the driver's
    limit of status reads, [ad_status], it reports no error, and [ad_identity],
    it identifies itself.  The contract says nothing of commands past the
    capacity, nor of commands given to a busy drive. *)
Class AtaDrive (H : Type) {HP : PortIO H} := {
  view : H -> drive;
  busy : H -> nat;
  capacity : Z;
  identity : list Z;
  ad_capacity : 6144 <= capacity <= 2 ^ 28;
  ad_identity : length identity = 512%nat /\ Forall byte_ok identity;
  ad_busy h : Z.of_nat (busy h) < 1000000;
  ad_status h : same_data (view (port_inb 0x1F7 h).2) (view h) /\
    (last_command (view h) = 0xEC -> view (port_inb 0x1F7 h).2 = view h) /\
    match busy h with
    | S n => busy (port_inb 0x1F7 h).2 = n /\ Z.testbit (port_inb 0x1F7 h).1 7 = true /\
             u8 (port_inb 0x1F7 h).1 <> 0xFF
    | O => busy (port_inb 0x1F7 h).2 = 0%nat /\ Z.testbit (port_inb 0x1F7 h).1 7 = false /\
           (xfer (view h) <> NoTransfer -> Z.testbit (port_inb 0x1F7 h).1 3 = true /\
              Z.testbit (port_inb 0x1F7 h).1 0 = false /\ Z.testbit (port_inb 0x1F7 h).1 5 = false)
    end;
  ad_alternate h : same_data (view (port_inb 0x3F6 h).2) (view h) /\
    (last_command (view h) = 0xEC \/ busy h = 0%nat /\ xfer (view h) = NoTransfer ->
     view (port_inb 0x3F6 h).2 = view h) /\
    (busy (port_inb 0x3F6 h).2 <= busy h)%nat;
  ad_control v h : same_data (view (port_outb 0x3F6 v h))
    (if Z.testbit v 2 then set_xfer NoTransfer (view h) else view h);
  ad_register p v h : 0x1F1 <= p <= 0x1F6 -> 0 <= v < 2 ^ 8 -> busy h = 0%nat -> xfer (view h) = NoTransfer ->
    view (port_outb p v h) = write_register p v (view h) /\ busy (port_outb p v h) = 0%nat;
  ad_read_mid h : busy h = 0%nat ->
    (port_inb 0x1F4 h).1 = r_mid (view h) /\ view (port_inb 0x1F4 h).2 = view h /\ busy (port_inb 0x1F4 h).2 = 0%nat;
  ad_read_hi h : busy h = 0%nat ->
    (port_inb 0x1F5 h).1 = r_hi (view h) /\ view (port_inb 0x1F5 h).2 = view h /\ busy (port_inb 0x1F5 h).2 = 0%nat;
  ad_identify h : busy h = 0%nat -> xfer (view h) = NoTransfer ->
    view (port_outb 0x1F7 0xEC h) = set_command 0xEC (DataIn identity) (view h);
  ad_read h : busy h = 0%nat -> xfer (view h) = NoTransfer -> 0xE0 <= r_drive (view h) < 0xF0 ->
    0 < r_count (view h) < 256 -> address (view h) + r_count (view h) <= capacity ->
    same_data (view (port_outb 0x1F7 0x20 h))
      (set_xfer (sending (range_bytes (view h) (address (view h)) (r_count (view h)))) (view h));
  ad_write h : busy h = 0%nat -> xfer (view h) = NoTransfer -> 0xE0 <= r_drive (view h) < 0xF0 ->
    0 < r_count (view h) < 256 -> address (view h) + r_count (view h) <= capacity ->
    same_data (view (port_outb 0x1F7 0x30 h)) (set_xfer (collecting (address (view h)) (r_count (view h))) (view h));
  ad_flush h : busy h = 0%nat -> xfer (view h) = NoTransfer ->
    same_data (view (port_outb 0x1F7 0xE7 h)) (view h);
  ad_word_in h a b l : byte_ok a -> byte_ok b -> busy h = 0%nat -> xfer (view h) = DataIn (a :: b :: l) ->
    u16 (port_inw 0x1F0 h).1 = a + 256 * b /\ same_data (view (port_inw 0x1F0 h).2) (set_xfer (sending l) (view h)) /\
    (Z.of_nat (length l) mod 512 <> 0 -> busy (port_inw 0x1F0 h).2 = 0%nat);
  ad_word_out h w lba more acc : 0 <= w < 2 ^ 16 -> busy h = 0%nat -> xfer (view h) = DataOut lba more acc ->
    same_data (view (port_outw 0x1F0 w h)) (word_out w (view h)) /\
    ((length acc + 2 < 512)%nat -> busy (port_outw 0x1F0 w h) = 0%nat) }.

(** What the driver needs beyond the protocol: [ata_write_once] gives CACHE
    FLUSH right after the last word of the last sector, when the drive may still
    be busy storing it, and the protocol leaves a command to a busy drive
    undefined.  Such a drive must not lose data over it: it may ignore the
    command, as emulated drives do, or carry it out later. *)
Class EarlyFlush (H : Type) {HP : PortIO H} {HD : AtaDrive H} :=
  early_flush h : busy h <> 0%nat -> xfer (view h) = NoTransfer -> same_data (view (port_outb 0x1F7 0xE7 h)) (view h).

Section transfers.
Context {H : Type} {HP : PortIO H} {HD : AtaDrive H}.
Implicit Types (h : H) (d : ata) (v : drive).

(** The drive is in state [v] up to its registers; [ready]: and not busy;
    [exactly]: and with the registers of [v]. *)
Definition shows (v : drive) (d : ata) (s : H * ata) : Prop := same_data (view s.1) v /\ s.2 = d.
Definition ready (v : drive) (d : ata) (s : H * ata) : Prop := same_data (view s.1) v /\ busy s.1 = 0%nat /\ s.2 = d.
Definition exactly (v : drive) (d : ata) (s : H * ata) : Prop := view s.1 = v /\ busy s.1 = 0%nat /\ s.2 = d.

Lemma ready_shows v d s : ready v d s -> shows v d s.
Proof. intros (? & _ & ?). by split. Qed.

Lemma ready_exactly v d s : ready v d s -> exactly (view s.1) d s.
Proof. by intros (_ & ? & ?). Qed.

Lemma status_bit x k : 0 <= k < 8 -> (Z.land (u8 x) (bit 8 k) =? 0) = negb (Z.testbit x k).
Proof.
  intros Hk. rewrite <- (negb_involutive (_ =? 0)), land_bit_testbit by lia. f_equal. apply Z.mod_pow2_bits_low. lia.
Qed.

Lemma busy_bit x : (Z.land (u8 x) ATA_SR_BSY =? 0) = negb (Z.testbit x 7).
Proof. apply (status_bit x 7). lia. Qed.

Lemma drq_bit x : (Z.land (u8 x) ATA_SR_DRQ =? 0) = negb (Z.testbit x 3).
Proof. apply (status_bit x 3). lia. Qed.

Lemma error_bits x : Z.testbit x 0 = false -> Z.testbit x 5 = false ->
  (Z.land (u8 x) (Z.lor ATA_SR_ERR ATA_SR_DF) =? 0) = true.
Proof.
  intros H0 H5. pose proof (status_bit x 0 ltac:(lia)) as E0. pose proof (status_bit x 5 ltac:(lia)) as E5.
  change (bit 8 0) with ATA_SR_ERR in E0. change (bit 8 5) with ATA_SR_DF in E5.
  rewrite H0 in E0. rewrite H5 in E5. apply Z.eqb_eq in E0, E5. apply Z.eqb_eq.
  by rewrite Z.land_lor_distr_r, E0, E5.
Qed.

(** Polling: while the drive is busy the test yields nothing; once it is not,
    the test of the status decides. *)
Lemma poll_ok (test : Z -> option Z) r v d : (forall x, Z.testbit x 7 = true -> test (u8 x) = None) ->
  (forall x, Z.testbit x 7 = false -> (xfer v <> NoTransfer -> Z.testbit x 3 = true /\
     Z.testbit x 0 = false /\ Z.testbit x 5 = false) -> test (u8 x) = Some r) ->
  forall k h n i, busy h = k -> (k < n)%nat -> same_data (view h) v ->
  runs (for_ret n i (fun _ => s ← inb ATA_PRIMARY_STATUS; mret (test s))) (h, d)
    (fun o s' => o = Some r /\ ready v d s' /\ (last_command (view h) = 0xEC -> view s'.1 = view h)).
Proof.
  intros Hbusy Hr. induction k as [|k IH]; intros h n i Hk Hn Hv; destruct n as [|n]; try lia; cbn [for_ret].
  all: apply runs_bind, runs_bind, runs_inb; intros x h' Hx; change (u16 ATA_PRIMARY_STATUS) with 0x1F7 in Hx.
  all: pose proof (ad_status h) as (Hview & Hex & Hst); rewrite Hx, Hk in *; cbn [fst snd] in *.
  - destruct Hst as (Hb & H7 & Hd). rewrite (proj2 Hv) in Hd. run. rewrite Hr by done. run.
    rewrite Hv in Hview. by repeat split; try apply Hview.
  - destruct Hst as (Hb & Hbit & _). run. rewrite Hbusy by done.
    eapply runs_mono; [apply IH; [done|lia|by rewrite Hview]|]. intros o s' (-> & Hs' & Hex').
    split; [done|]. split; [done|]. intros Hc. rewrite <- (Hex Hc). apply Hex'. by rewrite (Hex Hc).
Qed.

Lemma wait_identifying v d s : shows v d s -> runs ata_wait_not_busy s (fun r s' =>
  r = 0 /\ ready v d s' /\ (last_command (view s.1) = 0xEC -> view s'.1 = view s.1)).
Proof.
  destruct s as [h d']. intros [Hv Hd]. cbn [fst snd] in *. subst d'. unfold ata_wait_not_busy. apply runs_bind.
  eapply runs_mono.
  - apply (poll_ok (fun s => if Z.land s ATA_SR_BSY =? 0 then Some 0 else None) 0 v d) with (k := busy h); [| |done| |done].
    + intros x Hx. by rewrite busy_bit, Hx.
    + intros x Hx _. by rewrite busy_bit, Hx.
    + pose proof (ad_busy h). unfold ATA_POLL_LIMIT. lia.
  - intros o s' [-> Hs']. by run.
Qed.

Lemma wait_not_busy_ok v d s : shows v d s -> runs ata_wait_not_busy s (fun r s' => r = 0 /\ ready v d s').
Proof. intros Hs. eapply runs_mono; [by apply (wait_identifying v d)|]. by intros r s' (-> & Hs' & _). Qed.

Lemma wait_drq_ok v d s : shows v d s -> xfer v <> NoTransfer ->
  runs ata_wait_drq s (fun r s' => r = 0 /\ ready v d s').
Proof.
  destruct s as [h d']. intros [Hv Hd] Hx. cbn [fst snd] in *. subst d'. unfold ata_wait_drq. apply runs_bind.
  eapply runs_mono.
  - apply (poll_ok (fun s => if negb (Z.land s ATA_SR_BSY =? 0) then None
              else if negb (Z.land s (Z.lor ATA_SR_ERR ATA_SR_DF) =? 0) then Some (-1)
              else if negb (Z.land s ATA_SR_DRQ =? 0) then Some 0 else None) 0 v d) with (k := busy h); [| |done| |done].
    + intros x Hb. by rewrite busy_bit, Hb.
    + intros x Hb Hd. destruct (Hd Hx) as (H3 & H0 & H5). by rewrite busy_bit, drq_bit, error_bits, Hb, H3.
    + pose proof (ad_busy h). unfold ATA_POLL_LIMIT. lia.
  - intros o s' (-> & Hs' & _). by run.
Qed.

(** Reading the alternate status changes nothing but the time. *)
Lemma alternate_ok s (Q : Z -> H * ata -> Prop) :
  (forall x h', same_data (view h') (view s.1) -> (busy h' <= busy s.1)%nat ->
     (last_command (view s.1) = 0xEC \/ busy s.1 = 0%nat /\ xfer (view s.1) = NoTransfer -> view h' = view s.1) ->
     Q x (h', s.2)) ->
  runs (inb ATA_PRIMARY_CTRL) s Q.
Proof.
  destruct s as [h d]. intros HQ. apply runs_inb. intros x h' Hx. change (u16 ATA_PRIMARY_CTRL) with 0x3F6 in Hx.
  destruct (ad_alternate h) as (Hv & He & Hb). rewrite Hx in *. by apply HQ.
Qed.

Lemma io_delay_ok s : runs ata_io_delay s (fun _ s' => same_data (view s'.1) (view s.1) /\ (busy s'.1 <= busy s.1)%nat /\
  (last_command (view s.1) = 0xEC \/ busy s.1 = 0%nat /\ xfer (view s.1) = NoTransfer -> view s'.1 = view s.1) /\ s'.2 = s.2).
Proof.
  unfold ata_io_delay. do 4 (apply runs_bind, alternate_ok; intros ? ? ? ? ?; cbn [fst snd] in * ). run. cbn [fst snd].
  split_and!; [by etrans; [eassumption|]; etrans; [eassumption|]; etrans; [eassumption|]|lia| |done].
  intros Hc. assert (Hstep : forall b, view b = view s.1 -> (busy b <= busy s.1)%nat ->
    last_command (view b) = 0xEC \/ busy b = 0%nat /\ xfer (view b) = NoTransfer).
  { intros b Hv Hb. rewrite Hv. destruct Hc as [|[? ?]]; [by left|right]. split; [lia|done]. }
  repeat match goal with
  | IH : (_ -> view _ = view s.1) |- _ => specialize (IH Hc)
  | IH : (_ -> view _ = view ?b), E : view ?b = view s.1 |- _ => specialize (IH (Hstep b E ltac:(lia))); rewrite E in IH
  end. done.
Qed.

Lemma delay_shows v d s : shows v d s -> runs ata_io_delay s (fun _ s' => shows v d s').
Proof. intros [Hv ?]. eapply runs_mono; [apply io_delay_ok|]. intros [] s' (Hs & _ & _ & ?). split; [by rewrite Hs|congruence]. Qed.

Lemma delay_exactly v d s : exactly v d s -> xfer v = NoTransfer -> runs ata_io_delay s (fun _ s' => exactly v d s').
Proof.
  intros (<- & Hb & ?) Hx. eapply runs_mono; [apply io_delay_ok|]. intros [] s' (_ & ? & He & ?).
  split_and!; [by apply He; right|lia|congruence].
Qed.

Lemma register_ok p x v d s : exactly v d s -> xfer v = NoTransfer -> 0x1F1 <= p <= 0x1F6 -> 0 <= x < 2 ^ 8 ->
  runs (outb p x) s (fun _ s' => exactly (write_register p x v) d s').
Proof.
  destruct s as [h d']. intros (Hv & Hb & Hd) Hx Hp Hr. cbn in *. subst. apply runs_outb.
  rewrite !wrap_small by lia. destruct (ad_register p x h) as [? ?]; try done; lia || split_and!; done.
Qed.

Lemma soft_reset_ok v d s : shows v d s -> runs ata_soft_reset s (fun _ s' => ready (set_xfer NoTransfer v) d s').
Proof.
  destruct s as [h d']. intros [Hv Hd]. cbn [fst snd] in *. subst. unfold ata_soft_reset. apply runs_bind, runs_outb.
  apply runs_bind. eapply runs_mono; [apply (delay_shows (set_xfer NoTransfer v) d); split; [|done]|].
  { cbn [fst]. rewrite <- Hv. apply (ad_control 0x04). }
  intros [] [h1 d1] [Hv1 Hd1]. cbn [fst snd] in *. apply runs_bind, runs_outb. apply runs_bind.
  eapply runs_mono; [apply (delay_shows (set_xfer NoTransfer v) d); split; [|done]|].
  { cbn [fst]. rewrite <- Hv1. apply (ad_control 0x00). }
  intros [] s2 Hs2. apply runs_bind. eapply runs_mono; [by apply wait_not_busy_ok|]. intros r s3 [_ Hs3]. by run.
Qed.

(** The registers after [ata_program_lba] address [lba]. *)
Definition programmed (lba count : Z) (v : drive) : drive :=
  mk_drive (media v) count (lba mod 256) (lba / 2 ^ 8 mod 256) (lba / 2 ^ 16 mod 256)
    (0xE0 + lba / 2 ^ 24) (last_command v) (xfer v).

Lemma programmed_address lba count v : 0 <= lba < 2 ^ 28 ->
  address (programmed lba count v) = lba /\ 0xE0 <= r_drive (programmed lba count v) < 0xF0.
Proof.
  intros Hl. unfold address, programmed. cbn [r_lo r_mid r_hi r_drive]. split; [|dlia].
  rewrite (Z.add_mod 0xE0), (Z.mod_small (lba / 2 ^ 24) 16) by dlia. change (0xE0 mod 16) with 0.
  rewrite Z.add_0_l, (Z.mod_small (lba / 2 ^ 24) 16) by dlia. dlia.
Qed.

Lemma program_lba_ok lba count v d s : exactly v d s -> xfer v = NoTransfer -> 0 <= lba < 2 ^ 28 -> 0 < count < 256 ->
  runs (ata_program_lba lba count) s (fun _ s' => exactly (programmed lba count v) d s').
Proof.
  intros Hs Hx Hl Hc. unfold ata_program_lba, ATA_DRIVE_LBA_MASTER.
  rewrite !(land_low 8), (land_low 4), !Z.shiftr_div_pow2 by lia. change (2 ^ 4) with 16. change (2 ^ 8) with 256.
  rewrite (Z.mod_small (lba / 2 ^ 24)), (wrap_small 8 (lba / 2 ^ 24)) by dlia.
  rewrite (lor_low_add 4) by (done || dlia). rewrite !wrap_small by dlia.
  apply runs_bind. eapply runs_mono; [apply (register_ok _ _ v d); done || (unfold ATA_PRIMARY_DRIVE; dlia)|].
  intros [] s1 Hs1. apply runs_bind. eapply runs_mono; [by apply delay_exactly|]. intros [] s2 Hs2.
  apply runs_bind. eapply runs_mono; [eapply register_ok; done || (unfold ATA_PRIMARY_FEATURES; dlia)|]. intros [] s3 Hs3.
  apply runs_bind. eapply runs_mono; [eapply register_ok; done || (unfold ATA_PRIMARY_SECCOUNT; dlia)|]. intros [] s4 Hs4.
  apply runs_bind. eapply runs_mono; [eapply register_ok; done || (unfold ATA_PRIMARY_LBA_LO; dlia)|]. intros [] s5 Hs5.
  apply runs_bind. eapply runs_mono; [eapply register_ok; done || (unfold ATA_PRIMARY_LBA_MID; dlia)|]. intros [] s6 Hs6.
  eapply runs_mono; [eapply register_ok; done || (unfold ATA_PRIMARY_LBA_HI; dlia)|]. intros [] s7 Hs7. exact Hs7.
Qed.

(** * Reading *)

Lemma splice_cons off x new (l : list Z) : 0 <= off -> off < Z.of_nat (length l) ->
  splice off (x :: new) l = splice (off + 1) new (<[Z.to_nat off := x]> l).
Proof.
  intros H0 Hl. unfold splice. rewrite insert_take_drop by lia.
  replace (Z.to_nat (off + 1)) with (S (Z.to_nat off)) by lia.
  assert (Ht : length (take (Z.to_nat off) l) = Z.to_nat off) by (rewrite length_take; lia).
  rewrite take_app_ge by lia. rewrite Ht. replace (S (Z.to_nat off) - Z.to_nat off)%nat with 1%nat by lia.
  rewrite drop_app_ge by lia. rewrite Ht.
  replace (S (Z.to_nat off) + length new - Z.to_nat off)%nat with (S (length new)) by lia.
  cbn [take drop length]. rewrite <- app_assoc. cbn [app]. rewrite drop_drop. rewrite take_0. cbn [app].
  by replace (S (Z.to_nat off) + length new)%nat with (Z.to_nat off + S (length new))%nat by lia.
Qed.

Lemma splice_nil off (l : list Z) : 0 <= off <= Z.of_nat (length l) -> splice off [] l = l.
Proof. intros. unfold splice. cbn [length app]. rewrite Nat.add_0_r. apply take_drop. Qed.

Lemma splice_app a : forall off b (l : list Z), 0 <= off ->
  off + Z.of_nat (length a) + Z.of_nat (length b) <= Z.of_nat (length l) ->
  splice off (a ++ b) l = splice (off + Z.of_nat (length a)) b (splice off a l).
Proof.
  induction a as [|x a IH]; intros off b l H0 Hl; cbn [app length] in *.
  - rewrite splice_nil by lia. f_equal. lia.
  - rewrite !splice_cons by lia. rewrite IH by (rewrite ?length_insert; lia). f_equal. lia.
Qed.

(** The words of a sector are stored one after the other. *)
Lemma read_words_ok n : forall i dst buf bytes rest v d s,
  match n with
  | O => shows (set_xfer (sending rest) v) d s
  | S _ => ready (set_xfer (DataIn (bytes ++ rest)) v) d s
  end ->
  length bytes = (2 * n)%nat -> Z.of_nat (length rest) mod 512 = 0 -> (n <= 256)%nat -> Forall byte_ok bytes ->
  0 <= dst + i * 2 -> dst + i * 2 + 2 * Z.of_nat n <= Z.of_nat (length buf) ->
  runs (pio_read_words n i dst buf) s (fun b s' =>
    b = splice (dst + i * 2) bytes buf /\ shows (set_xfer (sending rest) v) d s').
Proof.
  induction n as [|n IH]; intros i dst buf bytes rest v d s Hs Hlen Hrest Hn Hb H0 Hbuf; cbn [pio_read_words].
  { apply runs_ret. destruct bytes; [|done]. by rewrite splice_nil by lia. }
  destruct bytes as [|x [|y bytes]]; cbn [length] in Hlen; try lia.
  apply Forall_cons in Hb as [Hx Hb]. apply Forall_cons in Hb as [Hy Hb].
  destruct s as [h d']. destruct Hs as (Hv & Hbz & Hd). cbn in Hv, Hbz, Hd. subst d'.
  apply runs_bind, runs_inw. intros w h' Hw. change (u16 ATA_PRIMARY_DATA) with 0x1F0 in Hw.
  destruct (ad_word_in h x y (bytes ++ rest) Hx Hy Hbz) as (Hval & Hview & Hbusy); [by rewrite Hv|].
  unfold byte_ok in Hx, Hy. rewrite Hw in Hval, Hview, Hbusy. cbn [fst snd] in *. rewrite Hval.
  rewrite !(land_low 8), Z.shiftr_div_pow2 by lia. change (2 ^ 8) with 256 in *.
  replace ((x + 256 * y) mod 256) with x by dlia. replace ((x + 256 * y) / 256 mod 256) with y by dlia.
  rewrite !wrap_small by lia.
  apply runs_bind. eapply runs_need; [apply arr_set_in; lia|].
  apply runs_bind. eapply runs_need; [apply arr_set_in; rewrite length_insert; lia|].
  assert (Hnext : shows (set_xfer (sending (bytes ++ rest)) v) d (h', d)) by (split; [|done]; cbn [fst]; by rewrite Hview, Hv).
  eapply runs_mono.
  - eapply (IH (i + 1) dst _ bytes rest v d (h', d)); rewrite ?length_insert; try done; try lia.
    destruct n as [|n], bytes as [|z bytes]; cbn [length] in Hlen; try lia; [exact Hnext|].
    destruct Hnext as [Hn1 Hn2]. split; [exact Hn1|split; [|done]].
    apply Hbusy. rewrite length_app. cbn [length] in *. dlia.
  - intros b s' [-> Hs']. split; [|done]. rewrite !splice_cons by (rewrite ?length_insert; lia).
    replace (dst + (i + 1) * 2) with (dst + i * 2 + 1 + 1) by lia. done.
Qed.

(** Every sector of the drive holds 512 bytes. *)
Definition media_ok (v : drive) : Prop :=
  forall lba, 0 <= lba < capacity -> length (media v lba) = 512%nat /\ Forall byte_ok (media v lba).

#[local] Instance media_ok_same : Proper (same_data ==> iff) media_ok.
Proof. intros a b [Hm _]. unfold media_ok. by rewrite Hm. Qed.

Lemma range_bytes_length n : forall v lba, media_ok v -> 0 <= lba -> lba + Z.of_nat n <= capacity ->
  length (range_bytes v lba (Z.of_nat n)) = (512 * n)%nat.
Proof.
  induction n as [|n IH]; intros v lba Hv H0 Hc; [done|]. unfold range_bytes in *.
  rewrite seqZ_cons by lia. cbn [fmap list_fmap concat]. rewrite length_app.
  destruct (Hv lba ltac:(lia)) as [-> _]. replace (Z.pred (Z.of_nat (S n))) with (Z.of_nat n) by lia.
  fold (fmap (M := list) (media v)). rewrite IH by (done || lia). lia.
Qed.

Lemma range_bytes_S v lba n : 0 <= n -> range_bytes v lba (n + 1) = media v lba ++ range_bytes v (lba + 1) n.
Proof.
  intros. unfold range_bytes. rewrite seqZ_cons by lia. rewrite fmap_cons. cbn [concat].
  by replace (Z.pred (n + 1)) with n by lia.
Qed.

Lemma sector_loop_ok n : forall k lba buf v d s, media_ok v -> 0 <= k -> 0 <= lba -> lba + Z.of_nat n <= capacity ->
  shows (set_xfer (sending (range_bytes v lba (Z.of_nat n))) v) d s ->
  k * 512 + 512 * Z.of_nat n <= Z.of_nat (length buf) ->
  runs (read_sectors_loop n k buf) s (fun r s' =>
    r = (0, splice (k * 512) (range_bytes v lba (Z.of_nat n)) buf) /\ shows (set_xfer NoTransfer v) d s').
Proof.
  induction n as [|n IH]; intros k lba buf v d s Hv Hk Hlba Hc Hs Hbuf; cbn [read_sectors_loop].
  { apply runs_ret. rewrite splice_nil by lia. done. }
  destruct (Hv lba ltac:(lia)) as [Hl Hb]. rewrite Nat2Z.inj_succ in *. unfold Z.succ in *.
  rewrite range_bytes_S in * by lia.
  assert (Hne : sending (media v lba ++ range_bytes v (lba + 1) (Z.of_nat n)) =
                DataIn (media v lba ++ range_bytes v (lba + 1) (Z.of_nat n))) by (by destruct (media v lba)).
  rewrite Hne in Hs. apply runs_bind. eapply runs_mono; [by apply wait_drq_ok|]. intros r s1 [-> Hs1].
  cbn [negb Z.eqb]. apply runs_bind. unfold ata_pio_read_sector, ATA_SECTOR_SIZE.
  pose proof (range_bytes_length n v (lba + 1) Hv ltac:(lia) ltac:(lia)) as Hrest.
  eapply runs_mono.
  - apply (read_words_ok 256 0 (k * 512) buf (media v lba) (range_bytes v (lba + 1) (Z.of_nat n)) v d);
      try done; rewrite ?Hrest; try lia. rewrite Nat2Z.inj_mul, Z.mul_comm. apply Z.mod_mul. lia.
  - intros b s2 [-> Hs2]. replace (k * 512 + 0 * 2) with (k * 512) by lia.
    eapply runs_mono; [apply (IH (k + 1) (lba + 1) _ v d); try done; try lia|].
    { rewrite splice_length; lia. }
    intros r s3 [-> Hs3]. split; [|done]. f_equal.
    rewrite splice_app by lia. rewrite Hl. f_equal. lia.
Qed.

Lemma command_ok c v v' d s : exactly v d s -> (forall h, view h = v -> busy h = 0%nat ->
  same_data (view (port_outb 0x1F7 c h)) v') -> 0 <= c < 2 ^ 8 ->
  runs (outb ATA_PRIMARY_COMMAND c) s (fun _ s' => shows v' d s').
Proof.
  destruct s as [h d']. intros (Hv & Hb & Hd) Hc Hr. cbn [fst snd] in *. subst d'. apply runs_outb.
  rewrite (wrap_small 8) by lia. change (u16 ATA_PRIMARY_COMMAND) with 0x1F7. split; [|done]. cbn [fst]. by apply Hc.
Qed.

(** An idle drive is addressed: its data is as before. *)
Lemma address_ok lba count v d s : shows v d s -> xfer v = NoTransfer -> 0 <= lba < 2 ^ 28 -> 0 < count < 256 ->
  runs ata_wait_not_busy s (fun r s' => r = 0 /\
    runs (ata_program_lba lba count) s' (fun _ s2 => exists v2, exactly v2 d s2 /\ same_data v2 v /\
      address v2 = lba /\ r_count v2 = count /\ 0xE0 <= r_drive v2 < 0xF0)).
Proof.
  intros Hs Hx Hl Hc. eapply runs_mono; [by apply wait_not_busy_ok|]. intros r s1 [-> Hs1]. split; [done|].
  pose proof Hs1 as [Hv1 _]. eapply runs_mono; [apply program_lba_ok; [by apply (ready_exactly v)|by rewrite Hv1|done|done]|].
  intros [] s2 Hs2. exists (programmed lba count (view s1.1)). destruct (programmed_address lba count (view s1.1) Hl) as [Ha Hd].
  split; [exact Hs2|]. split; [by destruct Hv1|]. by split; [|split].
Qed.

Lemma read_once_ok lba count buf v d s : media_ok v -> shows v d s -> xfer v = NoTransfer ->
  0 <= lba < 2 ^ 28 -> 0 < count < 256 -> lba + count <= capacity -> 512 * count <= Z.of_nat (length buf) ->
  runs (ata_read_once lba count buf) s (fun r s' =>
    r = (0, splice 0 (range_bytes v lba count) buf) /\ shows v d s').
Proof.
  intros Hm Hs Hx Hl Hc Hcap Hbuf. unfold ata_read_once. apply runs_bind.
  eapply runs_mono; [by apply (address_ok lba count v d)|]. intros r s1 [-> Hs1]. cbn [negb Z.eqb].
  apply runs_bind. eapply runs_mono; [exact Hs1|]. intros [] s2 (v2 & Hs2 & Hv2 & Ha & Hr & Hd).
  apply runs_bind. eapply runs_mono.
  - apply (command_ok _ _ (set_xfer (sending (range_bytes v lba count)) v) d _ Hs2);
      [|unfold ATA_CMD_READ_PIO; lia]. intros h Hv Hb. unfold ATA_CMD_READ_PIO.
    rewrite ad_read; rewrite ?Hv, ?Ha, ?Hr; try done; try lia; [|by rewrite Hv2].
    unfold range_bytes. by rewrite Hv2.
  - intros [] s3 Hs3. apply runs_bind. eapply runs_mono; [by apply delay_shows|]. intros [] s4 Hs4.
    eapply runs_mono; [apply (sector_loop_ok (Z.to_nat count) 0 lba buf v d); try done; try lia|].
    { by rewrite Z2Nat.id by lia. }
    intros r s5 [-> [Hv5 Hd5]]. rewrite Z2Nat.id by lia. split; [done|]. split; [|done]. rewrite Hv5. by split.
Qed.

(** * Writing *)

Lemma slice_snoc off n (l : list Z) x : 0 <= off -> 0 <= n -> arr_get l (off + n) = Some x ->
  slice off (n + 1) l = slice off n l ++ [x].
Proof.
  intros H0 Hn. unfold arr_get, slice. rewrite (proj2 (Z.leb_le _ _)) by lia. intros Hx.
  replace (Z.to_nat (n + 1)) with (S (Z.to_nat n)) by lia. apply take_S_r.
  rewrite lookup_drop. by replace (Z.to_nat off + Z.to_nat n)%nat with (Z.to_nat (off + n)) by lia.
Qed.

Lemma word_of_bytes lo hi : byte_ok lo -> byte_ok hi -> u16 (u16 (Z.lor lo (Z.shiftl hi 8))) = lo + 256 * hi.
Proof.
  unfold byte_ok. intros. rewrite Z.shiftl_mul_pow2, Z.lor_comm, (lor_low_add 8) by (lia || apply Z.mod_mul; lia).
  rewrite (wrap_small 16 (hi * 2 ^ 8 + lo)) by lia. rewrite wrap_small; lia.
Qed.

(** The words of a sector reach the drive, and the last one stores it. *)
Lemma write_sector_ok src buf lba more v d s : Forall byte_ok buf -> 0 <= src -> src + 512 <= Z.of_nat (length buf) ->
  ready (set_xfer (DataOut lba more []) v) d s ->
  runs (ata_pio_write_sector src buf) s (fun _ s' =>
    shows (set_xfer (collecting (lba + 1) (more - 1)) (set_media (upd (media v) lba (slice src 512 buf)) v)) d s').
Proof.
  intros Hb Hsrc Hlen Hs. unfold ata_pio_write_sector. eapply runs_mono.
  - apply (runs_for (fun i s' => if i <? 256 then ready (set_xfer (DataOut lba more (slice src (2 * i) buf)) v) d s'
      else shows (set_xfer (collecting (lba + 1) (more - 1)) (set_media (upd (media v) lba (slice src 512 buf)) v)) d s')).
    { done. }
    intros i [h d'] Hi Hinv. change (Z.of_nat 256) with 256 in Hi. rewrite (proj2 (Z.ltb_lt _ _)) in Hinv by lia.
    destruct Hinv as (Hv & Hbz & Hd). cbn in Hv, Hbz, Hd. subst d'.
    destruct (arr_get_in buf (src + i * 2) ltac:(lia)) as [lo Hlo].
    destruct (arr_get_in buf (src + i * 2 + 1) ltac:(lia)) as [hi Hhi].
    rewrite Forall_forall in Hb. pose proof (Hb lo (arr_get_elem _ _ _ Hlo)) as Bl.
    pose proof (Hb hi (arr_get_elem _ _ _ Hhi)) as Bh. apply runs_bind, (runs_need _ lo); [done|].
    apply runs_bind, (runs_need _ hi); [done|]. apply runs_outw. rewrite word_of_bytes by done.
    change (u16 ATA_PRIMARY_DATA) with 0x1F0. unfold byte_ok in Bl, Bh.
    destruct (ad_word_out h (lo + 256 * hi) lba more (slice src (2 * i) buf)) as [Hview Hbusy]; [lia|done|by rewrite Hv|].
    rewrite Hv in Hview. unfold word_out in Hview. cbn [xfer set_xfer set_command] in Hview.
    replace ((lo + 256 * hi) mod 256) with lo in Hview by dlia.
    replace ((lo + 256 * hi) / 256) with hi in Hview by dlia.
    assert (Hsl : slice src (2 * i) buf ++ [lo; hi] = slice src (2 * (i + 1)) buf).
    { replace (2 * (i + 1)) with (2 * i + 1 + 1) by lia.
      rewrite (slice_snoc src (2 * i + 1) buf hi), (slice_snoc src (2 * i) buf lo) by (lia || rewrite <- ?Hlo, <- ?Hhi; f_equal; lia).
      by rewrite <- app_assoc. }
    rewrite Hsl in Hview. rewrite slice_length in Hview, Hbusy by lia.
    destruct (Z.ltb_spec (i + 1) 256).
    + rewrite (proj2 (Nat.eqb_neq _ _)) in Hview by lia. split; [exact Hview|split; [|done]]. apply Hbusy. lia.
    + replace (2 * (i + 1)) with 512 in * by lia. split; [|done]. exact Hview.
  - intros [] s'. done.
Qed.

(** The media after [k] sectors of [src] were written from [lba] on. *)
Definition stored (f : Z -> list Z) (lba k : Z) (src : list Z) (g : Z -> list Z) : Prop :=
  forall l, g l = if (lba <=? l) && (l <? lba + k) then slice (512 * (l - lba)) 512 src else f l.

Lemma store_loop_ok lba count src v d s : Forall byte_ok src -> 0 < count ->
  Z.of_nat (length src) = 512 * count -> shows (set_xfer (collecting lba count) v) d s ->
  runs (for_ret (Z.to_nat count) 0 (fun s =>
        r ← ata_wait_drq;
        if negb (r =? 0) then mret (Some (-1)) else
        _ ← ata_pio_write_sector (s * ATA_SECTOR_SIZE) src; mret None)) s
    (fun o s' => o = None /\ exists g, stored (media v) lba count src g /\
       shows (set_xfer NoTransfer (set_media g v)) d s').
Proof.
  intros Hb Hc Hlen Hs. apply (runs_for_ret (fun k s' => exists g, stored (media v) lba k src g /\
    shows (set_xfer (collecting (lba + k) (count - k)) (set_media g v)) d s')).
  - exists (media v). rewrite Z.add_0_r, Z.sub_0_r. split; [|by destruct v]. intros l. by zcases.
  - intros k s1 Hk (g & Hg & Hs1). rewrite Z2Nat.id in Hk by lia.
    assert (Hcol : collecting (lba + k) (count - k) = DataOut (lba + k) (count - k) []).
    { unfold collecting. by rewrite (proj2 (Z.eqb_neq _ _)) by lia. }
    rewrite Hcol in Hs1. apply runs_bind. eapply runs_mono; [by apply wait_drq_ok|]. intros r s2 [-> Hs2].
    cbn [negb Z.eqb]. apply runs_bind. unfold ATA_SECTOR_SIZE.
    eapply runs_mono; [apply (write_sector_ok _ _ (lba + k) (count - k) (set_media g v) d); done || lia|].
    intros [] s3 Hs3. apply runs_ret. exists (upd g (lba + k) (slice (k * 512) 512 src)). split.
    + intros l. unfold upd. rewrite Hg. destruct (Z.eqb_spec l (lba + k)) as [->|]; [|by zcases].
      rewrite (proj2 (Z.leb_le _ _)), (proj2 (Z.ltb_lt _ _)) by lia. cbn [andb]. f_equal. lia.
    + replace (lba + (k + 1)) with (lba + k + 1) by lia. replace (count - (k + 1)) with (count - k - 1) by lia. exact Hs3.
  - intros s1 (g & Hg & Hs1). rewrite Z2Nat.id, Z.add_0_l in * by lia. split; [done|]. exists g. split; [done|].
    unfold collecting in Hs1. rewrite (proj2 (Z.eqb_eq (count - count) 0)) in Hs1 by lia. exact Hs1.
Qed.

(** The flush reaches a drive that may be busy with the last sector. *)
Lemma flush_ok {HF : EarlyFlush H} v d s : shows v d s -> xfer v = NoTransfer ->
  runs (outb ATA_PRIMARY_COMMAND ATA_CMD_CACHE_FLUSH) s (fun _ s' => shows v d s').
Proof.
  destruct s as [h d']. intros [Hv Hd] Hx. cbn [fst snd] in *. subst d'. apply runs_outb. split; [|done]. cbn [fst].
  change (u16 ATA_PRIMARY_COMMAND) with 0x1F7. change (u8 ATA_CMD_CACHE_FLUSH) with 0xE7.
  assert (Hn : xfer (view h) = NoTransfer) by (by rewrite Hv). rewrite <- Hv.
  destruct (busy h) eqn:E; [by apply ad_flush|by apply early_flush; [rewrite E|]].
Qed.

Lemma write_once_ok {HF : EarlyFlush H} lba count src v d s : shows v d s -> xfer v = NoTransfer -> Forall byte_ok src ->
  0 <= lba < 2 ^ 28 -> 0 < count < 256 -> lba + count <= capacity -> Z.of_nat (length src) = 512 * count ->
  runs (ata_write_once lba count src) s (fun r s' => r = 0 /\ exists g, stored (media v) lba count src g /\
    shows (set_media g v) d s').
Proof.
  intros Hs Hx Hb Hl Hc Hcap Hlen. unfold ata_write_once. apply runs_bind.
  eapply runs_mono; [by apply (address_ok lba count v d)|]. intros r s1 [-> Hs1]. cbn [negb Z.eqb].
  apply runs_bind. eapply runs_mono; [exact Hs1|]. intros [] s2 (v2 & Hs2 & Hv2 & Ha & Hr & Hd).
  apply runs_bind. eapply runs_mono.
  - apply (command_ok _ _ (set_xfer (collecting lba count) v) d _ Hs2); [|unfold ATA_CMD_WRITE_PIO; lia].
    intros h Hv Hbz. unfold ATA_CMD_WRITE_PIO. rewrite ad_write; rewrite ?Hv, ?Ha, ?Hr; try done; try lia; by rewrite Hv2.
  - intros [] s3 Hs3. apply runs_bind. eapply runs_mono; [by apply delay_shows|]. intros [] s4 Hs4.
    apply runs_bind. eapply runs_mono; [apply (store_loop_ok lba count src v d); done || lia|].
    intros o s5 [-> (g & Hg & Hs5)]. apply runs_bind. eapply runs_mono; [by apply flush_ok|]. intros [] s6 Hs6.
    apply runs_bind. eapply runs_mono; [by apply delay_shows|]. intros [] s7 Hs7.
    eapply runs_mono; [by apply wait_not_busy_ok|]. intros r s8 [-> Hs8%ready_shows].
    split; [done|]. exists g. split; [exact Hg|]. destruct Hs8 as [Hv8 ?]. split; [|done]. rewrite Hv8. by split.
Qed.

(** * The public calls on a working drive *)

(** A probed drive between two calls. *)
Record healthy (s : H * ata) : Prop := {
  hl_media : media_ok (view s.1);
  hl_idle : xfer (view s.1) = NoTransfer;
  hl_present : g_ata_present s.2 = true }.

Lemma stored_media_ok f lba count src g v : media_ok v -> media v = f -> stored f lba count src g ->
  Forall byte_ok src -> 0 <= lba -> 0 <= count -> Z.of_nat (length src) = 512 * count -> media_ok (set_media g v).
Proof.
  intros Hm <- Hg Hb H0 Hc Hl l Hl'. cbn [media set_media]. rewrite Hg.
  destruct (Z.leb_spec lba l), (Z.ltb_spec l (lba + count)); cbn [andb]; try by apply Hm.
  split; [apply slice_length; lia|by apply byte_ok_slice].
Qed.

Lemma read_sectors_ok lba count buf s : healthy s -> 0 <= lba -> 0 < count < 256 -> lba + count <= capacity ->
  Z.of_nat (length buf) = 512 * count ->
  runs (ata_read_sectors lba count (Some buf)) s (fun r s' =>
    r = (0, Some (range_bytes (view s.1) lba count)) /\ healthy s' /\ media (view s'.1) = media (view s.1)).
Proof.
  intros [Hm Hx Hp] Hl Hc Hcap Hbuf. pose proof ad_capacity as [_ Hcm]. unfold ata_read_sectors, ATA_MAX_LBA28.
  rewrite (proj2 (Z.eqb_neq _ _)), (proj2 (Z.ltb_ge _ _)) by lia. destruct s as [h d]. cbn [fst snd] in *.
  apply runs_bind, runs_dev, runs_gets. rewrite Hp. cbn [negb]. apply runs_bind.
  change (Z.to_nat ATA_RETRY_COUNT) with 3%nat. cbn [read_attempts]. apply runs_bind.
  eapply runs_mono; [apply (read_once_ok lba count buf (view h) d); done || lia|]. intros r s' [-> [Hv Hd]].
  cbn [Z.eqb]. run.
  assert (Hlen : length (range_bytes (view h) lba count) = length buf).
  { rewrite <- (Z2Nat.id count) by lia. rewrite range_bytes_length by (done || lia). lia. }
  rewrite splice_all by done. split; [done|]. split; [|by rewrite Hv]. split; by rewrite ?Hv, ?Hd.
Qed.

Lemma write_sectors_ok {HF : EarlyFlush H} lba count src s : healthy s -> 0 <= lba -> 0 < count < 256 -> lba + count <= capacity ->
  Z.of_nat (length src) = 512 * count -> Forall byte_ok src ->
  runs (ata_write_sectors lba count (Some src)) s (fun r s' =>
    r = 0 /\ healthy s' /\ stored (media (view s.1)) lba count src (media (view s'.1))).
Proof.
  intros [Hm Hx Hp] Hl Hc Hcap Hlen Hb. pose proof ad_capacity as [_ Hcm]. unfold ata_write_sectors, ATA_MAX_LBA28.
  rewrite (proj2 (Z.eqb_neq _ _)), (proj2 (Z.ltb_ge _ _)) by lia. destruct s as [h d]. cbn [fst snd] in *.
  apply runs_bind, runs_dev, runs_gets. rewrite Hp. cbn [negb]. apply runs_bind.
  change (Z.to_nat ATA_RETRY_COUNT) with 3%nat. cbn [for_ret]. apply runs_bind, runs_bind.
  eapply runs_mono; [apply (write_once_ok lba count src (view h) d); done || lia|].
  intros r s' [-> (g & Hg & Hv & Hd)]. cbn [Z.eqb]. run. cbn [default]. split; [done|].
  split; [|by rewrite Hv]. split; rewrite ?Hv, ?Hd; try done. eapply stored_media_ok; try done; lia.
Qed.

(** The words of the identification block are read and dropped. *)
Lemma drain_ok n : forall bytes v d s, length bytes = (2 * n)%nat -> (n <= 256)%nat -> Forall byte_ok bytes ->
  match n with O => shows (set_xfer NoTransfer v) d s | S _ => ready (set_xfer (DataIn bytes) v) d s end ->
  forall i, runs (for_ n i (fun _ => _ ← inw ATA_PRIMARY_DATA; mret tt)) s (fun _ s' => shows (set_xfer NoTransfer v) d s').
Proof.
  induction n as [|n IH]; intros bytes v d s Hlen Hn Hok Hs i; cbn [for_]; [by apply runs_ret|].
  destruct bytes as [|x [|y bytes]]; cbn [length] in Hlen; try lia.
  apply Forall_cons in Hok as [Hx Hok]. apply Forall_cons in Hok as [Hy Hok].
  destruct s as [h d'], Hs as (Hv & Hb & Hd). cbn in Hv, Hb, Hd. subst d'.
  apply runs_bind, runs_bind, runs_inw. intros w h' Hw. change (u16 ATA_PRIMARY_DATA) with 0x1F0 in Hw.
  destruct (ad_word_in h x y bytes Hx Hy Hb) as (_ & Hview & Hbusy); [by rewrite Hv|].
  rewrite Hw in Hview, Hbusy. cbn [fst snd] in *. rewrite Hv in Hview. run. apply (IH bytes); [lia|lia|done|].
  destruct n as [|n], bytes as [|z bytes]; cbn [length] in Hlen; try lia; [by split|].
  split; [exact Hview|split; [|done]]. apply Hbusy. cbn [length]. dlia.
Qed.

(** Selecting the drive and clearing the registers for IDENTIFY. *)
Lemma identify_registers_ok v d s {A} (Q : A -> H * ata -> Prop) m : exactly v d s -> xfer v = NoTransfer ->
  (forall s', exactly (mk_drive (media v) 0 0 0 0 0xA0 (last_command v) NoTransfer) d s' -> runs m s' Q) ->
  runs (_ ← outb ATA_PRIMARY_DRIVE 0xA0; _ ← ata_io_delay; _ ← outb ATA_PRIMARY_SECCOUNT 0x00;
        _ ← outb ATA_PRIMARY_LBA_LO 0x00; _ ← outb ATA_PRIMARY_LBA_MID 0x00; _ ← outb ATA_PRIMARY_LBA_HI 0x00; m) s Q.
Proof.
  intros Hs Hx HQ.
  apply runs_bind. eapply runs_mono; [eapply register_ok; done || (unfold ATA_PRIMARY_DRIVE; lia)|]. intros [] s1 Hs1.
  apply runs_bind. eapply runs_mono; [by apply delay_exactly; [exact Hs1|]|]. intros [] s2 Hs2.
  apply runs_bind. eapply runs_mono; [eapply register_ok; done || (unfold ATA_PRIMARY_SECCOUNT; lia)|]. intros [] s3 Hs3.
  apply runs_bind. eapply runs_mono; [eapply register_ok; done || (unfold ATA_PRIMARY_LBA_LO; lia)|]. intros [] s4 Hs4.
  apply runs_bind. eapply runs_mono; [eapply register_ok; done || (unfold ATA_PRIMARY_LBA_MID; lia)|]. intros [] s5 Hs5.
  apply runs_bind. eapply runs_mono; [eapply register_ok; done || (unfold ATA_PRIMARY_LBA_HI; lia)|]. intros [] s6 Hs6.
  apply HQ. destruct v; cbn in Hx; subst. exact Hs6.
Qed.

(** After IDENTIFY the status is that of a drive, and polling it keeps the
    registers. *)
Lemma identify_status_ok v1 d s : view s.1 = v1 -> s.2 = d -> last_command v1 = 0xEC -> xfer v1 <> NoTransfer ->
  runs (inb ATA_PRIMARY_STATUS) s (fun x s' => (x =? 0x00) || (x =? 0xFF) = false /\ view s'.1 = v1 /\ s'.2 = d).
Proof.
  destruct s as [h d']. cbn [fst snd]. intros Hv -> Hc Hx. apply runs_inb. intros x h' Hin.
  change (u16 ATA_PRIMARY_STATUS) with 0x1F7 in Hin. destruct (ad_status h) as (_ & Hsame & Hst).
  rewrite Hin, Hv in *. cbn [fst snd] in *. split; [|by rewrite Hsame]. apply orb_false_iff.
  split; apply Z.eqb_neq; intros E; destruct (busy h).
  - destruct Hst as (_ & _ & Hd). destruct (Hd Hx) as (H3 & _). pose proof (drq_bit x) as Hb. by rewrite E, H3 in Hb.
  - destruct Hst as (_ & H7 & _). pose proof (busy_bit x) as Hb. by rewrite E, H7 in Hb.
  - destruct Hst as (_ & H7 & _). pose proof (busy_bit x) as Hb. by rewrite E, H7 in Hb.
  - by destruct Hst as (_ & _ & Hff).
Qed.

Lemma identify_ok v d s : ready v d s -> xfer v = NoTransfer ->
  runs ata_identify_master s (fun r s' => r = true /\ shows v d s').
Proof.
  intros Hs Hx. unfold ata_identify_master. pose proof Hs as [Hsv _].
  apply (identify_registers_ok (view s.1) d); [by apply (ready_exactly v)|by rewrite Hsv|]. intros [h0 d0] (Hv0 & Hb0 & Hd0).
  cbn [fst snd] in Hv0, Hb0, Hd0. subst d0. set (v1 := set_command 0xEC (DataIn identity) (view h0)).
  apply runs_bind, runs_outb. change (u16 ATA_PRIMARY_COMMAND) with 0x1F7. change (u8 ATA_CMD_IDENTIFY) with 0xEC.
  assert (Hv1 : view (port_outb 0x1F7 0xEC h0) = v1) by (apply ad_identify; by rewrite ?Hv0).
  apply runs_bind. eapply runs_mono; [apply io_delay_ok|]. intros [] s2 (_ & _ & He & Hd2). cbn [fst snd] in He, Hd2.
  rewrite Hv1 in He. specialize (He (or_introl eq_refl)).
  apply runs_bind. eapply runs_mono; [by apply (identify_status_ok v1 d)|]. intros x s3 (-> & Hv3 & Hd3).
  apply runs_bind. eapply runs_mono; [apply (wait_identifying v1 d); by split; [rewrite Hv3|]|].
  intros r [h4 d4] (-> & (_ & Hb4 & Hd4) & He4). cbn [fst snd negb Z.eqb] in *. rewrite Hv3 in He4. specialize (He4 eq_refl).
  apply runs_bind, runs_inb. intros y h5 Hy. change (u16 ATA_PRIMARY_LBA_MID) with 0x1F4 in Hy.
  destruct (ad_read_mid h4 Hb4) as (Hmid & Hv5 & Hb5). rewrite Hy, He4 in *. cbn [fst snd] in *. rewrite Hmid.
  apply runs_bind, runs_inb. intros z h6 Hz. change (u16 ATA_PRIMARY_LBA_HI) with 0x1F5 in Hz.
  destruct (ad_read_hi h5 Hb5) as (Hhi & Hv6 & Hb6). rewrite Hz, Hv5 in *. cbn [fst snd] in *. rewrite Hhi.
  replace (r_mid v1) with 0 by (unfold v1; by rewrite Hv0). replace (r_hi v1) with 0 by (unfold v1; by rewrite Hv0).
  change (u8 0 =? 0) with true. cbn [negb orb]. apply runs_bind.
  eapply runs_mono; [apply (wait_drq_ok v1 d); [split; [cbn [fst]; by rewrite Hv6|done]|done]|].
  intros r s7 [-> Hs7]. cbn [negb Z.eqb]. apply runs_bind. pose proof ad_identity as [Hid Hidb].
  assert (Hm1 : media v1 = media v) by (unfold v1; cbn [media set_command]; rewrite Hv0; apply Hsv).
  eapply runs_mono; [apply (drain_ok 256 identity v d); [lia|lia|done|]|].
  { destruct Hs7 as ([Hm7 Hx7] & Hb7 & Hd7). split; [|done]. split; [by rewrite Hm7|exact Hx7]. }
  intros [] s8 [Hv8 Hd8]. run. split; [done|]. split; [|done]. rewrite Hv8. by split.
Qed.

Lemma init_ok s : media_ok (view s.1) ->
  runs ata_init s (fun _ s' => healthy s' /\ media (view s'.1) = media (view s.1)).
Proof.
  destruct s as [h d]. intros Hm. cbn [fst] in Hm. unfold ata_init. apply runs_bind, runs_dev, runs_modify.
  apply runs_bind, runs_outb, runs_bind.
  eapply runs_mono; [apply (delay_shows (view h) (mk_ata false)); split; [|done]; apply (ad_control 0x02)|].
  intros [] s1 Hs1. apply runs_bind. eapply runs_mono; [by apply soft_reset_ok|]. intros [] s2 Hs2.
  apply runs_bind. eapply runs_mono; [by apply identify_ok|]. intros r [h3 d3] (-> & Hv3 & Hd3). apply runs_dev, runs_modify.
  cbn [fst snd] in *. split; [|by rewrite Hv3]. split; cbn [fst snd]; rewrite ?Hv3; done.
Qed.

(** C17: On a drive that follows the ATA protocol and works (the class
    [AtaDrive]) [ata_init] finds it whatever it was doing, and then, for any
    range inside its capacity, [ata_read_sectors] fills the buffer with exactly
    the addressed sectors; if the drive also does no harm on a CACHE FLUSH that
    reaches it before it has finished the last sector ([EarlyFlush]),
    [ata_write_sectors] stores the buffer in exactly those sectors and no
    other; both report success and leave the drive ready for the next call. *)
Theorem ata_transfers_exact s : media_ok (view s.1) ->
  runs ata_init s (fun _ s0 => media (view s0.1) = media (view s.1) /\ g_ata_present s0.2 = true /\
    forall s1 lba count buf, healthy s1 -> 0 <= lba -> 0 < count < 256 -> lba + count <= capacity ->
      Z.of_nat (length buf) = 512 * count ->
      runs (ata_read_sectors lba count (Some buf)) s1 (fun r s2 =>
        r = (0, Some (range_bytes (view s1.1) lba count)) /\ healthy s2 /\ media (view s2.1) = media (view s1.1)) /\
      (EarlyFlush H -> Forall byte_ok buf ->
       runs (ata_write_sectors lba count (Some buf)) s1 (fun r s2 =>
         r = 0 /\ healthy s2 /\ stored (media (view s1.1)) lba count buf (media (view s2.1))))) /\
  runs ata_init s (fun _ s0 => healthy s0).
Proof.
  intros Hm. split; (eapply runs_mono; [by apply init_ok|]); intros [] s0 [Hh Hmed]; [|done].
  split_and!; [done|apply Hh|]. intros s1 lba count buf Hs1 Hl Hc Hcap Hlen.
  split; [by apply read_sectors_ok|]. intros. by apply write_sectors_ok.
Qed.

End transfers.
(** * A block device for the file system *)

#[export] Instance ata_device {H} {HP : PortIO H} : BlockDevice (H * ata) := {
  bd_init := ata_init;
  bd_present := fun s => g_ata_present s.2;
  bd_read := fun lba buf => '(r, b) ← ata_read_sectors lba 1 (Some buf); mret (r, default buf b);
  bd_write := fun lba buf => ata_write_sectors lba 1 (Some buf) }.

#[export] Program Instance ata_block_laws {H} {HP : PortIO H} {HD : AtaDrive H} {HF : EarlyFlush H} : BlockDeviceLaws (H * ata) := {
  bd_inv := healthy;
  bd_sector := fun s => media (view s.1);
  bd_limit := capacity }.
Next Obligation. intros. apply ad_capacity. Qed.
Next Obligation. intros H HP HD HF s lba Hs Hl. by apply (hl_media _ Hs). Qed.
Next Obligation. intros H HP HD HF s Hs. apply (hl_present _ Hs). Qed.
Next Obligation.
  intros H HP HD HF s lba buf Hs Hl Hlen. cbn. apply runs_bind.
  eapply runs_mono; [apply (read_sectors_ok lba 1 buf); done || lia|]. intros r s' (-> & Hs' & Hm).
  apply runs_ret. split_and!; [|done|by rewrite Hm]. cbn [default].
  change 1 with (0 + 1). rewrite range_bytes_S by lia. by rewrite app_nil_r.
Qed.
Next Obligation.
  intros H HP HD HF s lba buf Hs Hl Hlen Hb. cbn.
  eapply runs_mono; [apply (write_sectors_ok lba 1 buf); done || lia|]. intros r s' (-> & Hs' & Hm).
  split_and!; try done. intros l _. rewrite Hm. destruct (Z.eqb_spec l lba) as [->|].
  - rewrite (proj2 (Z.leb_le _ _)), (proj2 (Z.ltb_lt _ _)) by lia. cbn [andb].
    replace (512 * (lba - lba)) with 0 by lia. by apply slice_all; lia.
  - by zcases.
Qed.

(** * Drives that do not answer *)

Section dead.
Context {H : Type} {HP : PortIO H}.
Hypothesis stuck : forall h : H, Z.testbit (port_inb 0x1F7 h).1 7 = true.

Lemma dead_poll n : forall i (s : H * ata),
  runs (for_ret n i (fun _ => s ← inb ATA_PRIMARY_STATUS;
     mret (if Z.land s ATA_SR_BSY =? 0 then Some 0 else None))) s (fun r s' => r = None /\ s'.2 = s.2).
Proof.
  induction n as [|n IH]; intros i s; cbn [for_ret]; [by run|]. destruct s as [h d].
  apply runs_bind, runs_bind, runs_inb. intros x h' Hx. change (u16 ATA_PRIMARY_STATUS) with 0x1F7 in Hx.
  pose proof (stuck h) as Hb. rewrite Hx in Hb. cbn [fst] in Hb. apply runs_ret. rewrite busy_bit, Hb.
  apply (IH (i + 1) (h', d)).
Qed.

Lemma dead_wait (s : H * ata) : runs ata_wait_not_busy s (fun r s' => r = -1 /\ s'.2 = s.2).
Proof.
  unfold ata_wait_not_busy. apply runs_bind. eapply runs_mono; [apply dead_poll|]. intros r s' [-> Hd]. by run.
Qed.

Lemma dead_delay (s : H * ata) : runs ata_io_delay s (fun _ s' => s'.2 = s.2).
Proof. destruct s as [h d]. unfold ata_io_delay. do 4 (apply runs_bind, runs_inb; intros ? ? _). by run. Qed.

Lemma dead_reset (s : H * ata) : runs ata_soft_reset s (fun _ s' => s'.2 = s.2).
Proof.
  destruct s as [h d]. unfold ata_soft_reset. apply runs_bind, runs_outb. apply runs_bind.
  eapply runs_mono; [apply dead_delay|]. intros [] [h1 d1] Hd1. cbn [snd] in *. subst. apply runs_bind, runs_outb. apply runs_bind.
  eapply runs_mono; [apply dead_delay|]. intros [] [h2 d2] Hd2. cbn [snd] in *. subst. apply runs_bind.
  eapply runs_mono; [apply dead_wait|]. intros r s3 [_ Hd]. by run.
Qed.

Lemma dead_identify (s : H * ata) : runs ata_identify_master s (fun r _ => r = false).
Proof.
  destruct s as [h d]. unfold ata_identify_master. apply runs_bind, runs_outb. apply runs_bind.
  eapply runs_mono; [apply dead_delay|]. intros [] [h1 d1] _. do 5 (apply runs_bind, runs_outb). apply runs_bind.
  eapply runs_mono; [apply dead_delay|]. intros [] [h2 d2] _. apply runs_bind, runs_inb. intros x h3 _.
  destruct ((u8 x =? 0x00) || (u8 x =? 0xFF)); [by run|]. apply runs_bind.
  eapply runs_mono; [apply dead_wait|]. intros r s4 [-> _]. by apply runs_ret.
Qed.

Lemma dead_read n : forall lba count buf (s : H * ata), runs (read_attempts n lba count buf) s (fun r _ => r = (-1, buf)).
Proof.
  induction n as [|n IH]; intros lba count buf s; cbn [read_attempts]; [by run|]. apply runs_bind.
  unfold ata_read_once. apply runs_bind. eapply runs_mono; [apply dead_wait|]. intros r s1 [-> _]. apply runs_ret.
  cbn [Z.eqb]. apply runs_bind. eapply runs_mono; [apply dead_reset|]. intros [] s2 _. apply IH.
Qed.

Lemma dead_write n : forall i lba count src (s : H * ata),
  runs (for_ret n i (fun _ => r ← ata_write_once lba count src;
            if r =? 0 then mret (Some 0) else _ ← ata_soft_reset; mret None)) s (fun r _ => r = None).
Proof.
  induction n as [|n IH]; intros i lba count src s; cbn [for_ret]; [by run|]. apply runs_bind, runs_bind.
  unfold ata_write_once at 1. apply runs_bind. eapply runs_mono; [apply dead_wait|]. intros r s1 [-> _]. apply runs_ret.
  cbn [Z.eqb]. apply runs_bind. eapply runs_mono; [apply dead_reset|]. intros [] s2 _. run. apply IH.
Qed.

(** When the status register always shows BSY (no drive on the bus, or a
    hung one) every call still ends: [ata_init] records that there is no drive,
    after which reads and writes are refused without any port access, and a
    transfer on a drive that hangs later gives up after its three attempts with
    an error and the buffer untouched. *)
Theorem ata_dead_drive_fails (s : H * ata) lba count buf :
  runs ata_init s (fun _ s' => g_ata_present s'.2 = false /\
    ata_read_sectors lba count buf s' = Some ((-1, buf), s') /\ ata_write_sectors lba count buf s' = Some (-1, s')) /\
  runs (ata_read_sectors lba count buf) s (fun r _ => r = (-1, buf)) /\
  runs (ata_write_sectors lba count buf) s (fun r _ => r = -1).
Proof.
  split_and!.
  - destruct s as [h d]. unfold ata_init. apply runs_bind, runs_dev, runs_modify. apply runs_bind, runs_outb, runs_bind.
    eapply runs_mono; [apply dead_delay|]. intros [] s1 _. apply runs_bind. eapply runs_mono; [apply dead_reset|].
    intros [] s2 _. apply runs_bind. eapply runs_mono; [apply dead_identify|]. intros r [h3 d3] ->.
    apply runs_dev, runs_modify. split; [done|]. unfold ata_read_sectors, ata_write_sectors.
    destruct buf; [|done]. by destruct (count =? 0), (ATA_MAX_LBA28 <? lba).
  - unfold ata_read_sectors. destruct buf as [buf|]; [|by run]. destruct (count =? 0); [by run|].
    destruct (ATA_MAX_LBA28 <? lba); [by run|]. destruct s as [h d]. apply runs_bind, runs_dev, runs_gets.
    destruct (g_ata_present d); cbn [negb]; [|by run]. apply runs_bind. eapply runs_mono; [apply dead_read|].
    intros r s' ->. by run.
  - unfold ata_write_sectors. destruct buf as [buf|]; [|by run]. destruct (count =? 0); [by run|].
    destruct (ATA_MAX_LBA28 <? lba); [by run|]. destruct s as [h d]. apply runs_bind, runs_dev, runs_gets.
    destruct (g_ata_present d); cbn [negb]; [|by run]. apply runs_bind. eapply runs_mono; [apply dead_write|].
    intros r s' ->. by run.
Qed.
End dead.

(** * A concrete drive and an empty bus *)

Module DemoDrive.
Section demo.

(** What the drive makes of a CACHE FLUSH that arrives while it is busy. *)
Variable early : drive -> drive.

(** A drive and whether its status will show BSY once more, as it does after
    a command, a reset and a sector.  A reset leaves the signature of the drive
    in its registers and a transfer counts the address registers on. *)
Definition demo := (drive * bool)%type.

Definition reset (d : drive) : drive := mk_drive (media d) 1 1 0 0 0xA0 0 NoTransfer.

Definition next_address (d : drive) : drive :=
  mk_drive (media d) (r_count d - 1) (r_lo d + 1) (r_mid d) (r_hi d) (r_drive d) (last_command d) (xfer d).

Definition demo_command (v : Z) (h : demo) : demo :=
  if h.2 then (if v =? 0xE7 then early h.1 else h.1, true) else
  (if v =? 0xEC then set_command v (DataIn (replicate 512 0)) h.1
   else if v =? 0x20 then set_command v (sending (range_bytes h.1 (address h.1) (r_count h.1))) h.1
   else if v =? 0x30 then set_command v (collecting (address h.1) (r_count h.1)) h.1
   else h.1, true).

#[local] Instance demo_ports : PortIO demo := {
  port_inb := fun p h =>
    if p =? 0x1F7 then (if h.2 then 0x80 else match xfer h.1 with NoTransfer => 0x50 | _ => 0x58 end, (h.1, false))
    else (if p =? 0x1F4 then r_mid h.1 else if p =? 0x1F5 then r_hi h.1 else 0, h);
  port_outb := fun p v h =>
    if p =? 0x3F6 then (if Z.testbit v 2 then (reset h.1, true) else h)
    else if p =? 0x1F7 then demo_command v h
    else (write_register p v h.1, h.2);
  port_inw := fun _ h =>
    match xfer h.1 with
    | DataIn (a :: b :: l) =>
        (a + 256 * b, if (Z.of_nat (length l) mod 512 =? 0) then (next_address (set_xfer (sending l) h.1), true)
                      else (set_xfer (sending l) h.1, h.2))
    | _ => (0, h)
    end;
  port_outw := fun _ w h =>
    match xfer h.1 with
    | DataOut _ _ acc => if (length acc + 2 <? 512)%nat then (word_out w h.1, h.2) else (next_address (word_out w h.1), true)
    | _ => h
    end }.

#[local] Instance demo_drive : AtaDrive demo.
Proof.
  refine {| view := fun h : demo => h.1; busy := fun h : demo => if h.2 then 1%nat else 0%nat; capacity := 8192; identity := replicate 512 0 |};
    try (intros [d [|]]; done).
  - done.
  - split; [done|]. apply Forall_replicate. unfold byte_ok. lia.
  - intros [d [|]]; (split; [done|]); (split; [done|]); (split; [done|]); [by vm_compute|]. cbn. by destruct (xfer d).
  - intros v [d b]. cbn -[Z.testbit]. by destruct (Z.testbit v 2).
  - intros p v [d b] Hp Hv Hb _. cbn in *. rewrite (proj2 (Z.eqb_neq p 0x3F6)), (proj2 (Z.eqb_neq p 0x1F7)) by lia. done.
  - unfold byte_ok. intros [d b] x y l Hx Hy Hb Ht. cbn in *. rewrite Ht. cbn [fst snd].
    destruct (Z.eqb_spec (Z.of_nat (length l) mod 512) 0); (split; [apply wrap_small; lia|]); by split.
  - intros [d b] w lba more acc _ Hb Ht. cbn [fst snd port_outw demo_ports] in *. rewrite Ht.
    destruct (Nat.ltb_spec (length acc + 2) 512); [by split|]. split; [done|lia].
Defined.

Lemma demo_early : (forall d : drive, same_data (early d) d) -> EarlyFlush demo.
Proof. intros He [d [|]] Hb Hx; [apply He|done]. Qed.
End demo.

(** A drive of zeros, caught in the middle of a transfer. *)
Definition blank : demo := (mk_drive (fun _ => replicate 512 0) 0 0 0 0 0 0 (DataIn [1; 2; 3]), true).

Lemma blank_media : media_ok (HD := demo_drive (fun d => d)) blank.1.
Proof. intros lba _. split; [done|]. apply Forall_replicate. unfold byte_ok. lia. Qed.

(** A drive that loses the sector 2048 over a command it cannot take yet. *)
Definition careless (d : drive) : drive := set_media (upd (media d) 2048 (replicate 512 0xFF)) d.

(** A bus without a drive reads as all ones. *)
#[export] Instance empty_bus : PortIO unit := {
  port_inb := fun _ h => (0xFF, h);
  port_outb := fun _ _ h => h;
  port_inw := fun _ h => (0xFFFF, h);
  port_outw := fun _ _ h => h }.

End DemoDrive.
Import DemoDrive.

(** The drive [careless] follows the protocol, but the flush that
    [ata_write_once] gives without polling costs it the sector just written:
    the write is reported as done and the sector holds other bytes. *)
Lemma unpolled_flush_loses_sector :
  match ata_write_sectors (HP := demo_ports careless) 2048 1 (Some (replicate 512 7))
          ((mk_drive (fun _ => replicate 512 0) 0 0 0 0 0 0 NoTransfer, false), mk_ata true) with
  | Some (r, s) => r = 0 /\ media s.1.1 2048 = replicate 512 0xFF
  | None => False
  end.
Proof. vm_compute. done. Qed.

(** Two sectors written across the sector 2049 of the demonstration drive. *)
Lemma ata_transfers_exact_witness :
  runs (ata_init (HP := demo_ports (fun d => d))) (DemoDrive.blank, mk_ata false) (fun _ s0 => g_ata_present s0.2 = true) /\
  forall s1, healthy (HD := demo_drive (fun d => d)) s1 ->
    runs (ata_write_sectors (HP := demo_ports (fun d => d)) 2049 2 (Some (replicate 1024 7))) s1 (fun r s2 =>
      r = 0 /\ media s2.1.1 2050 = replicate 512 7).
Proof.
  destruct (ata_transfers_exact (HD := demo_drive (fun d => d)) (DemoDrive.blank, mk_ata false) DemoDrive.blank_media) as [Hi _].
  destruct Hi as ([] & s0 & Hrun & _ & Hp & Hall). split; [exists tt, s0; split; [exact Hrun|exact Hp]|].
  intros s1 Hs1. clear Hrun.
  destruct (Hall s1 2049 2 (replicate 1024 7) Hs1 ltac:(lia) ltac:(lia) ltac:(vm_compute; discriminate)
    ltac:(reflexivity)) as [_ Hw].
  eapply runs_mono; [apply Hw; [apply demo_early; reflexivity|apply Forall_replicate; unfold byte_ok; lia]|].
  intros r s2 (-> & _ & Hst). split; [reflexivity|]. exact (Hst 2050).
Defined.

Lemma ata_dead_drive_fails_witness :
  runs ata_init (tt, mk_ata true) (fun _ s' => g_ata_present s'.2 = false).
Proof.
  destruct (ata_dead_drive_fails (H := unit) (HP := empty_bus) (fun _ => eq_refl) (tt, mk_ata true) 0 1 (Some [])) as [Hi _].
  eapply runs_mono; [exact Hi|]. intros [] s' [Hp _]. exact Hp.
Defined.

End Ata.
