(* ===== verification/Auth.v ===== *)
(** User accounts (src/security/auth.c, auth.h): the account table, the hash,
    login, creation and deletion of users, the permission check and the
    interactive login.  A string argument is its characters before the
    terminator; a null pointer is [None]. *)
From stdpp Require Import strings.
From S2P Require Import Prelude Bytes Keyboard Console Cstr.
#[local] Open Scope Z_scope.

Module Auth.
Import Console Cstr.

Definition MAX_USERS := 16.
Definition USERNAME_MAX := 24.
Definition PASS_HASH_LEN := 32.

Record user_account := mk_user {
  username : list Z;
  password_hash : list Z;
  uid : Z;
  gid : Z;
  is_root : bool;
  active : bool }.

Record auth := mk_auth { g_users : list user_account; g_user_count : Z; g_current_uid : Z }.

Definition set_users x a := mk_auth x (g_user_count a) (g_current_uid a).
Definition set_count x a := mk_auth (g_users a) x (g_current_uid a).
Definition set_current x a := mk_auth (g_users a) (g_user_count a) x.

(** The bytes of a structure set to zero. *)
Definition zero_user : user_account := mk_user (replicate 24 0) (replicate 32 0) 0 0 false false.

Definition auth_strlen (s : list Z) : Z := Z.of_nat (length s).

Definition auth_strcmp : list Z -> list Z -> Z := c_strcmp.

Definition auth_strcpy_n : list Z -> list Z -> Z -> option (list Z) := c_strcpy_n.

(** The characters from index [i] on are mixed into the hash. *)
Fixpoint hash_loop (password : list Z) (i : Z) (hash : list Z) : option (list Z) :=
  match password with
  | [] => Some hash
  | c :: password =>
      let idx := i mod PASS_HASH_LEN in
      let mix := u8 (u8 c + u8 i) in
      h ← arr_get hash idx;
      hash ← arr_set hash idx (u8 (Z.lxor h mix));
      hash_loop password (i + 1) hash
  end.

Definition auth_hash_password (password : list Z) : option (list Z) := hash_loop password 0 (replicate 32 0).

(** The account in slot [i], and the store of one. *)
Definition get_user (i : Z) : prog auth user_account := us ← gets g_users; need (arr_get us i).
Definition put_user (i : Z) (u : user_account) : prog auth unit :=
  us ← gets g_users; us' ← need (arr_set us i u); modify (set_users us').

(** One of the three accounts of [auth_init]. *)
Definition default_account (slot : Z) (name password : list Z) (id g : Z) (root : bool) : prog auth unit :=
  u ← get_user slot;
  n ← need (auth_strcpy_n (username u) name USERNAME_MAX);
  h ← need (auth_hash_password password);
  put_user slot (mk_user n h id g root true).

Definition auth_init : prog auth unit :=
  _ ← modify (fun _ => mk_auth (replicate 16 zero_user) 0 (-1));
  _ ← default_account 0 (text "root") (text "root123") 0 0 true;
  _ ← default_account 1 (text "admin") (text "admin123") 1 1 true;
  _ ← default_account 2 (text "user") (text "user123") 2 100 false;
  modify (set_count 3).

(** [strcmp(u->username, name) == 0]. *)
Definition name_is (u : user_account) (name : list Z) : prog auth bool :=
  s ← need (c_string (username u)); mret (auth_strcmp s name =? 0).

(** The comparison loop over the hash bytes. *)
Definition hash_matches (stored hash : list Z) : prog auth bool :=
  r ← for_ret (Z.to_nat PASS_HASH_LEN) 0 (fun j =>
        x ← need (arr_get stored j);
        y ← need (arr_get hash j);
        mret (if negb (x =? y) then Some false else None));
  mret (default true r).

Definition auth_login (name password : option (list Z)) : prog auth Z :=
  match name, password with
  | Some name, Some password =>
      hash ← need (auth_hash_password password);
      r ← for_ret (Z.to_nat MAX_USERS) 0 (fun i =>
            u ← get_user i;
            if negb (active u) then mret None else
            same ← name_is u name;
            if negb same then mret None else
            m ← hash_matches (password_hash u) hash;
            mret (if (m : bool) then Some (i32 (uid u)) else None));
      mret (default (-1) r)
  | _, _ => mret (-1)
  end.

(** The search for the first free slot and the next uid. *)
Fixpoint pick_slot (n : nat) (i slot next_uid : Z) : prog auth (Z * Z) :=
  match n with
  | O => mret (slot, next_uid)
  | S n =>
      u ← get_user i;
      if negb (active u) then pick_slot n (i + 1) (if slot <? 0 then i else slot) next_uid
      else if next_uid <=? uid u then pick_slot n (i + 1) slot (u32 (uid u + 1))
      else pick_slot n (i + 1) slot next_uid
  end.

Definition auth_create_user (name password : option (list Z)) (root : bool) : prog auth Z :=
  match name, password with
  | Some name, Some password =>
      match name with
      | [] => mret (-1)
      | _ =>
          if USERNAME_MAX <=? auth_strlen name then mret (-1) else
          dup ← for_ret (Z.to_nat MAX_USERS) 0 (fun i =>
                  u ← get_user i;
                  if active u then same ← name_is u name; mret (if (same : bool) then Some tt else None)
                  else mret None);
          match dup with
          | Some _ => mret (-1)
          | None =>
              '(slot, next_uid) ← pick_slot (Z.to_nat MAX_USERS) 0 (-1) 0;
              if slot <? 0 then mret (-1) else
              u ← get_user slot;
              n ← need (auth_strcpy_n (username u) name USERNAME_MAX);
              h ← need (auth_hash_password password);
              _ ← put_user slot (mk_user n h next_uid (if root then next_uid else 100) root true);
              _ ← modify (fun a => set_count (g_user_count a + 1) a);
              mret (i32 next_uid)
          end
      end
  | _, _ => mret (-1)
  end.

Definition auth_delete_user (id : Z) : prog auth Z :=
  if id =? 0 then mret (-1) else
  r ← for_ret (Z.to_nat MAX_USERS) 0 (fun i =>
        u ← get_user i;
        if active u && (uid u =? id) then
          _ ← put_user i zero_user;
          _ ← modify (fun a => if 0 <? g_user_count a then set_count (g_user_count a - 1) a else a);
          mret (Some 0)
        else mret None);
  mret (default (-1) r).

Definition auth_change_password (id : Z) (new_password : option (list Z)) : prog auth Z :=
  match new_password with
  | None => mret (-1)
  | Some pw =>
      r ← for_ret (Z.to_nat MAX_USERS) 0 (fun i =>
            u ← get_user i;
            if active u && (uid u =? id) then
              h ← need (auth_hash_password pw);
              _ ← put_user i (mk_user (username u) h (uid u) (gid u) (is_root u) (active u));
              mret (Some 0)
            else mret None);
      mret (default (-1) r)
  end.

Definition auth_check_permission (file_uid file_gid file_mode : Z) (is_write : bool) : prog auth bool :=
  cur ← gets g_current_uid;
  if cur <? 0 then mret false else
  let cur_uid := u32 cur in
  if cur_uid =? 0 then mret true else
  found ← for_ret (Z.to_nat MAX_USERS) 0 (fun i =>
            u ← get_user i;
            mret (if active u && (uid u =? cur_uid) then Some (gid u) else None));
  match found with
  | None => mret false
  | Some cur_gid =>
      let mask := if cur_uid =? file_uid then (if is_write then 0x0080 else 0x0100)
                  else if cur_gid =? file_gid then (if is_write then 0x0010 else 0x0020)
                  else (if is_write then 0x0002 else 0x0004) in
      mret (negb (u16 (Z.land file_mode mask) =? 0))
  end.

Definition auth_username (id : Z) : prog auth (option (list Z)) :=
  for_ret (Z.to_nat MAX_USERS) 0 (fun i =>
    u ← get_user i;
    if active u && (uid u =? id) then s ← need (c_string (username u)); mret (Some s) else mret None).

(** * The interactive login *)

(** Reading a line ends with the Enter key, or waits for more keys. *)
Inductive line_result :=
| Line (buf : list Z) (keys : list Z) (calls : list console_call)
| Waiting.

(** [keys] are the values [keyboard_getchar] returns, in order; the call ends
    with the buffer, the keys left and the console calls made. *)
Fixpoint read_line_loop (keys : list Z) (buf : list Z) (pos cap : Z) (mask : bool) (calls : list console_call)
    : option line_result :=
  match keys with
  | [] => Some Waiting
  | c :: keys =>
      if c =? 0 then read_line_loop keys buf pos cap mask calls
      else if c =? Keyboard.KEY_ENTER then
        buf ← arr_set buf pos 0;
        Some (Line buf keys (calls ++ [Putchar 10]))
      else if c =? Keyboard.KEY_BACKSPACE then
        if 0 <? pos then
          buf ← arr_set buf (pos - 1) 0;
          read_line_loop keys buf (pos - 1) cap mask (calls ++ [Putchar 8; Putchar 32; Putchar 8])
        else read_line_loop keys buf pos cap mask calls
      else if (0x20 <=? c) && (c <? 0x7F) && (pos + 1 <? cap) then
        buf ← arr_set buf pos c;
        read_line_loop keys buf (pos + 1) cap mask (calls ++ [Putchar (if mask then 42 else c)])
      else read_line_loop keys buf pos cap mask calls
  end.

(** An empty buffer returns at once, untouched. *)
Definition auth_read_line (keys buf : list Z) (cap : Z) (mask : bool) : option line_result :=
  if cap =? 0 then Some (Line buf keys []) else read_line_loop keys buf 0 cap mask [].

(** How the login ends: with a user, with the machine locked (interrupts off,
    halted), or it still waits for keys. *)
Inductive login_result := LoggedIn (keys : list Z) | Locked | WaitingKeys.

(** The attempts, from the two local buffers. *)
Fixpoint login_attempts (n : nat) (keys ubuf pbuf : list Z) (calls : list console_call)
    : prog auth (login_result * list console_call) :=
  match n with
  | O => mret (Locked, calls ++ [Printf ([10] ++ text "Too many failed attempts. System locked." ++ [10]) []])
  | S n =>
      r ← need (auth_read_line keys ubuf 24 false);
      match r with
      | Waiting => mret (WaitingKeys, calls ++ [Printf (text "ARES OS login: ") []])
      | Line ubuf keys c1 =>
          p ← need (auth_read_line keys pbuf 64 true);
          let calls := calls ++ [Printf (text "ARES OS login: ") []] ++ c1 ++ [Printf (text "Password: ") []] in
          match p with
          | Waiting => mret (WaitingKeys, calls)
          | Line pbuf keys c2 =>
              name ← need (c_string ubuf);
              password ← need (c_string pbuf);
              id ← auth_login (Some name) (Some password);
              if 0 <=? id then
                _ ← modify (set_current id);
                known ← auth_username (u32 id);
                mret (LoggedIn keys,
                      calls ++ c2 ++ [Printf (text "Welcome, %s!" ++ [10]) [AStr (Some (default name known))]])
              else
                login_attempts n keys ubuf (replicate 64 0)
                  (calls ++ c2 ++ [Printf (text "Login incorrect" ++ [10; 10]) []])
          end
      end
  end.

Definition auth_run_login (keys ubuf pbuf : list Z) : prog auth (login_result * list console_call) :=
  login_attempts 3 keys ubuf pbuf [Printf [10] []].
(** * Strings and hashes *)

Lemma strcpy_ok dst src : length dst = 24%nat -> (length src < 24)%nat -> cname_ok src ->
  exists dst', auth_strcpy_n dst src USERNAME_MAX = Some dst' /\ length dst' = 24%nat /\ c_string dst' = Some src.
Proof.
  intros Hd Hs Hc. destruct (strcpy_exact dst src Hc ltac:(lia)) as (dst' & He & Hl & Hstr).
  exists dst'. rewrite Hd in He, Hl. done.
Qed.

Lemma hash_loop_ok pw : forall i hash, length hash = 32%nat -> 0 <= i ->
  exists h, hash_loop pw i hash = Some h /\ length h = 32%nat.
Proof.
  induction pw as [|c pw IH]; intros i hash Hl Hi; cbn [hash_loop]; [by eexists|]. unfold PASS_HASH_LEN.
  destruct (arr_get_in hash (i mod 32) ltac:(dlia)) as [h ->]. cbn [mbind option_bind].
  rewrite arr_set_in by dlia. cbn [mbind option_bind]. apply IH; [by rewrite length_insert|lia].
Qed.

(** The hash of a password; it is always defined. *)
Definition hash_of (pw : list Z) : list Z := default [] (auth_hash_password pw).

Lemma hash_of_ok pw : auth_hash_password pw = Some (hash_of pw) /\ length (hash_of pw) = 32%nat.
Proof.
  unfold hash_of, auth_hash_password. destruct (hash_loop_ok pw 0 (replicate 32 0)) as (h & -> & Hl); done.
Qed.

Lemma hash_matches_ok x y a : length x = 32%nat -> length y = 32%nat ->
  hash_matches x y a = Some (bool_decide (x = y), a).
Proof.
  intros Hx Hy. unfold hash_matches. change (Z.to_nat PASS_HASH_LEN) with 32%nat.
  enough (Hr : runs (for_ret 32 0 (fun j => x ← need (arr_get x j); y ← need (arr_get y j);
        mret (if negb (x =? y) then Some false else None))) a
      (fun r a' => a' = a /\ default true r = bool_decide (x = y))).
  { destruct Hr as (r & a' & Hrun & -> & Hd). unfold mbind, prog_bind in *. rewrite Hrun. unfold mret, prog_ret. by rewrite Hd. }
  apply (runs_for_ret (fun j a' => a' = a /\ forall k, 0 <= k < j -> arr_get x k = arr_get y k)).
  - split; [done|]. lia.
  - intros j a' Hj [-> Heq]. destruct (arr_get_in x j ltac:(lia)) as [p Hp]. destruct (arr_get_in y j ltac:(lia)) as [q Hq].
    apply runs_bind, (runs_need _ p); [done|]. apply runs_bind, (runs_need _ q); [done|]. apply runs_ret.
    destruct (Z.eqb_spec p q) as [->|Hne]; cbn [negb].
    + split; [done|]. intros k Hk. destruct (Z.eq_dec k j) as [->|]; [congruence|]. apply Heq. lia.
    + split; [done|]. rewrite bool_decide_eq_false_2; [done|]. intros ->. congruence.
  - intros a' [-> Heq]. split; [done|]. rewrite bool_decide_eq_true_2; [done|].
    apply arr_get_ext; [lia|]. intros k Hk. apply Heq. lia.
Qed.

(** * Searching the table *)

(** A loop over the slots whose body does nothing on accounts that fail
    [test]: it finds the first account that passes, or none. *)
Lemma for_first {R} (test : user_account -> bool) (body : Z -> prog auth (option R)) a :
  length (g_users a) = 16%nat ->
  (forall i u, arr_get (g_users a) i = Some u -> test u = false -> body i a = Some (None, a)) ->
  ((forall u, u ∈ g_users a -> test u = false) /\ for_ret (Z.to_nat MAX_USERS) 0 body a = Some (None, a)) \/
  (exists i u, arr_get (g_users a) i = Some u /\ test u = true /\
    forall r a', body i a = Some (Some r, a') -> for_ret (Z.to_nat MAX_USERS) 0 body a = Some (Some r, a')).
Proof.
  intros Hl Hbody. change (Z.to_nat MAX_USERS) with 16%nat.
  assert (Hgen : forall n i, 0 <= i -> i + Z.of_nat n = 16 ->
    ((forall k u, i <= k -> arr_get (g_users a) k = Some u -> test u = false) /\ for_ret n i body a = Some (None, a)) \/
    (exists k u, arr_get (g_users a) k = Some u /\ test u = true /\
      forall r a', body k a = Some (Some r, a') -> for_ret n i body a = Some (Some r, a'))).
  { induction n as [|n IH]; intros i Hi Hn; cbn [for_ret].
    - left. split; [|done]. intros k u Hk Hu%arr_get_Some. lia.
    - destruct (arr_get_in (g_users a) i ltac:(lia)) as [u Hu]. unfold mbind, prog_bind. destruct (test u) eqn:Et.
      + right. exists i, u. split_and!; try done. intros r a' ->. done.
      + rewrite (Hbody i u Hu Et). destruct (IH (i + 1)) as [[Hnone Hr]|(k & v & Hk & Hv & Hr)]; try lia.
        * left. split; [|done]. intros k v Hk Hv. destruct (Z.eq_dec k i) as [->|]; [congruence|]. apply (Hnone k); [lia|done].
        * right. eauto. }
  destruct (Hgen 16%nat 0) as [[Hnone Hr]|Hsome]; try lia; [left|right; done]. split; [|done].
  intros u [k Hk]%list_elem_of_lookup. apply (Hnone (Z.of_nat k)); [lia|]. rewrite arr_get_lookup, Nat2Z.id by lia. done.
Qed.

Lemma get_user_at i u a : arr_get (g_users a) i = Some u -> get_user i a = Some (u, a).
Proof. intros Hu. unfold get_user, mbind, prog_bind, gets, need. cbn. by rewrite Hu. Qed.
(** * The accounts as a map *)

Record account := mk_account { acc_name : list Z; acc_hash : list Z; acc_gid : Z; acc_root : bool }.

Definition name_of (u : user_account) : list Z := default [] (c_string (username u)).
Definition info (u : user_account) : account := mk_account (name_of u) (password_hash u) (gid u) (is_root u).

Abbreviation is_active := (fun u : user_account => active u = true).

Definition entries (us : list user_account) : list (Z * account) := (fun u => (uid u, info u)) <$> filter is_active us.

(** The account of each uid in use. *)
Definition accounts (a : auth) : gmap Z account := list_to_map (entries (g_users a)).

Record user_ok (u : user_account) : Prop := {
  uk_name_len : length (username u) = 24%nat;
  uk_name : exists s, c_string (username u) = Some s /\ cname_ok s;
  uk_hash : length (password_hash u) = 32%nat }.

(** The table's invariant; every uid in use is below [n]. *)
Record auth_ok (n : Z) (a : auth) : Prop := {
  ak_len : length (g_users a) = 16%nat;
  ak_users : Forall user_ok (g_users a);
  ak_uids : NoDup (uid <$> filter is_active (g_users a));
  ak_names : NoDup (name_of <$> filter is_active (g_users a));
  ak_range : Forall (fun u => 0 <= uid u < n) (filter is_active (g_users a));
  ak_count : g_user_count a = Z.of_nat (length (filter is_active (g_users a))) }.

Lemma name_of_ok u : user_ok u -> c_string (username u) = Some (name_of u) /\ cname_ok (name_of u).
Proof. intros [_ (s & Hs & Hc) _]. unfold name_of. by rewrite Hs. Qed.

Lemma keys_entries us : (entries us).*1 = uid <$> filter is_active us.
Proof. unfold entries. rewrite <- list_fmap_compose. done. Qed.

Lemma accounts_lookup n a id acc : auth_ok n a ->
  accounts a !! id = Some acc <-> exists u, u ∈ g_users a /\ active u = true /\ uid u = id /\ info u = acc.
Proof.
  intros Ha. unfold accounts. rewrite <- elem_of_list_to_map by (rewrite keys_entries; apply (ak_uids _ _ Ha)).
  unfold entries. rewrite list_elem_of_fmap. setoid_rewrite list_elem_of_filter. split.
  - intros (u & [= -> ->] & ? & ?). eauto 10.
  - intros (u & ? & ? & <- & <-). eauto 10.
Qed.

(** Replacing one slot of the table. *)
Lemma filter_slot us k u v : us !! k = Some u ->
  filter is_active us ≡ₚ (if active u then [u] else []) ++ filter is_active (delete k us) /\
  filter is_active (<[k := v]> us) ≡ₚ (if active v then [v] else []) ++ filter is_active (delete k us).
Proof.
  intros Hk. pose proof (lookup_lt_Some _ _ _ Hk) as Hlt.
  rewrite delete_take_drop, insert_take_drop by done. rewrite <- (take_drop_middle us k u Hk) at 1.
  rewrite !filter_app.
  assert (Hf : forall w l, filter is_active (w :: l) = (if active w then [w] else []) ++ filter is_active l).
  { intros w l. destruct (active w) eqn:E; [by rewrite filter_cons_True|]. rewrite filter_cons_False; [done|]. by rewrite E. }
  rewrite !Hf. split; apply Permutation_app_swap_app.
Qed.

Lemma entries_perm us us' : filter is_active us ≡ₚ us' -> entries us ≡ₚ (fun u => (uid u, info u)) <$> us'.
Proof. intros Hp. unfold entries. by rewrite Hp. Qed.

(** The three ways an operation changes a slot. *)
Lemma accounts_add a k u v c : NoDup (uid <$> filter is_active (g_users a)) -> g_users a !! k = Some u ->
  active u = false -> active v = true -> uid v ∉ uid <$> filter is_active (g_users a) ->
  accounts (mk_auth (<[k := v]> (g_users a)) c (g_current_uid a)) = <[uid v := info v]> (accounts a).
Proof.
  intros Hnd Hk Hu Hv Hfresh. destruct (filter_slot _ _ _ v Hk) as [Hold Hnew]. rewrite Hu in Hold. rewrite Hv in Hnew.
  unfold accounts. cbn [g_users].
  rewrite (list_to_map_proper (entries (<[k := v]> (g_users a))) ((uid v, info v) :: entries (g_users a))).
  - done.
  - rewrite keys_entries, Hnew. cbn. rewrite Hold in Hnd, Hfresh. by apply NoDup_cons.
  - rewrite (entries_perm _ _ Hnew). cbn. constructor. rewrite (entries_perm _ _ Hold). done.
Qed.

Lemma accounts_remove a k u v c : NoDup (uid <$> filter is_active (g_users a)) -> g_users a !! k = Some u ->
  active u = true -> active v = false ->
  accounts (mk_auth (<[k := v]> (g_users a)) c (g_current_uid a)) = delete (uid u) (accounts a).
Proof.
  intros Hnd Hk Hu Hv. destruct (filter_slot _ _ _ v Hk) as [Hold Hnew]. rewrite Hu in Hold. rewrite Hv in Hnew.
  cbn in Hold, Hnew. rewrite Hold in Hnd. cbn in Hnd. apply NoDup_cons in Hnd as [Hni Hnd].
  unfold accounts. cbn [g_users].
  rewrite (list_to_map_proper (entries (g_users a)) ((uid u, info u) :: ((fun u => (uid u, info u)) <$> filter is_active (delete k (g_users a))))).
  - cbn. rewrite delete_insert_id.
    + apply list_to_map_proper; [by rewrite keys_entries, Hnew|]. by rewrite (entries_perm _ _ Hnew).
    + apply not_elem_of_list_to_map_1. rewrite <- list_fmap_compose. done.
  - rewrite keys_entries, Hold. cbn. by apply NoDup_cons.
  - by rewrite (entries_perm _ _ Hold).
Qed.

Lemma accounts_update a k u v c : NoDup (uid <$> filter is_active (g_users a)) -> g_users a !! k = Some u ->
  active u = true -> active v = true -> uid v = uid u ->
  accounts (mk_auth (<[k := v]> (g_users a)) c (g_current_uid a)) = <[uid u := info v]> (accounts a).
Proof.
  intros Hnd Hk Hu Hv He. destruct (filter_slot _ _ _ v Hk) as [Hold Hnew]. rewrite Hu in Hold. rewrite Hv in Hnew.
  cbn in Hold, Hnew. unfold accounts. cbn [g_users].
  rewrite (list_to_map_proper (entries (g_users a)) ((uid u, info u) :: ((fun u => (uid u, info u)) <$> filter is_active (delete k (g_users a))))).
  - cbn. rewrite insert_insert_eq. rewrite <- He.
    change (<[uid v := info v]> (list_to_map ((fun u => (uid u, info u)) <$> filter is_active (delete k (g_users a)))))
      with (list_to_map (M := gmap Z account) ((uid v, info v) :: ((fun u => (uid u, info u)) <$> filter is_active (delete k (g_users a))))).
    apply list_to_map_proper; [|by rewrite (entries_perm _ _ Hnew)].
    rewrite keys_entries, Hnew. rewrite Hold in Hnd. cbn in *. by rewrite He.
  - rewrite keys_entries, Hold. rewrite Hold in Hnd. exact Hnd.
  - by rewrite (entries_perm _ _ Hold).
Qed.
(** The invariant after one slot was replaced. *)
Lemma auth_ok_slot n m a k u v c : auth_ok n a -> g_users a !! k = Some u -> user_ok v -> n <= m ->
  (active v = true -> 0 <= uid v < m /\ uid v ∉ uid <$> filter is_active (delete k (g_users a)) /\
     name_of v ∉ name_of <$> filter is_active (delete k (g_users a))) ->
  c = g_user_count a + (if active v then 1 else 0) - (if active u then 1 else 0) ->
  auth_ok m (mk_auth (<[k := v]> (g_users a)) c (g_current_uid a)).
Proof.
  intros [Hl Hus Huids Hnames Hr Hc] Hk Hv Hnm Hact ->. destruct (filter_slot _ _ _ v Hk) as [Hold Hnew].
  rewrite Hold in Huids, Hnames, Hr, Hc. rewrite fmap_app in Huids. rewrite (fmap_app name_of) in Hnames.
  apply NoDup_app in Huids as (_ & _ & Huids). apply NoDup_app in Hnames as (_ & _ & Hnames).
  apply Forall_app in Hr as [_ Hr]. rewrite length_app in Hc.
  assert (Hr' : Forall (fun w => 0 <= uid w < m) (filter is_active (delete k (g_users a)))).
  { eapply Forall_impl; [exact Hr|]. cbn. lia. }
  split; cbn [g_users g_user_count]; try rewrite Hnew.
  - by rewrite length_insert.
  - by apply Forall_insert.
  - destruct (active v); [|done]. cbn. apply NoDup_cons. split; [apply Hact; done|done].
  - destruct (active v); [|done]. cbn. apply NoDup_cons. split; [apply Hact; done|done].
  - destruct (active v); [|done]. constructor; [apply Hact; done|done].
  - rewrite Hc, length_app. destruct (active v), (active u); cbn [length]; lia.
Qed.

Definition credentials (a : auth) (name pw : list Z) (id : Z) : Prop :=
  exists acc, accounts a !! id = Some acc /\ acc_name acc = name /\ acc_hash acc = hash_of pw.

(** Names identify accounts. *)
Lemma user_name_unique n a u v : auth_ok n a -> u ∈ g_users a -> v ∈ g_users a -> active u = true -> active v = true ->
  name_of u = name_of v -> uid u = uid v.
Proof.
  intros Ha Hu Hv Hau Hav Hn. pose proof (ak_names _ _ Ha) as Hnd.
  assert (Hu' : u ∈ filter is_active (g_users a)) by (by apply list_elem_of_filter).
  assert (Hv' : v ∈ filter is_active (g_users a)) by (by apply list_elem_of_filter).
  apply list_elem_of_lookup in Hu' as [i Hi]. apply list_elem_of_lookup in Hv' as [j Hj].
  assert (i = j) as ->; [|congruence].
  eapply (NoDup_lookup _ i j (name_of u)); [exact Hnd| |]; rewrite list_lookup_fmap, ?Hi, ?Hj; cbn; congruence.
Qed.

Lemma credentials_unique n a name pw pw' id id' : auth_ok n a ->
  credentials a name pw id -> credentials a name pw' id' -> id = id'.
Proof.
  intros Ha (x & Hx & Hn & _) (y & Hy & Hn' & _).
  apply (accounts_lookup _ _ _ _ Ha) in Hx as (u & ? & ? & <- & <-).
  apply (accounts_lookup _ _ _ _ Ha) in Hy as (v & ? & ? & <- & <-).
  eapply user_name_unique; try done. cbn in *. congruence.
Qed.

Lemma name_is_ok u name a : user_ok u -> cname_ok name -> name_is u name a = Some (bool_decide (name_of u = name), a).
Proof.
  intros Hu Hn. destruct (name_of_ok u Hu) as [Hs Hc]. unfold name_is, mbind, prog_bind, need. cbn. rewrite Hs. cbn.
  unfold mret, prog_ret. by rewrite strcmp_eq.
Qed.

Lemma user_at n a i u : auth_ok n a -> arr_get (g_users a) i = Some u -> user_ok u /\ u ∈ g_users a.
Proof.
  intros Ha Hi. pose proof (arr_get_elem _ _ _ Hi) as Hin. split; [|done].
  pose proof (ak_users _ _ Ha) as Hf. rewrite Forall_forall in Hf. auto.
Qed.

Lemma uid_at n a u : auth_ok n a -> u ∈ g_users a -> active u = true -> 0 <= uid u < n.
Proof.
  intros Ha Hu Hact. pose proof (ak_range _ _ Ha) as Hr. rewrite Forall_forall in Hr.
  apply Hr. by apply list_elem_of_filter.
Qed.

Lemma login_ok n a name pw : auth_ok n a -> n <= 2 ^ 31 -> cname_ok name ->
  runs (auth_login (Some name) (Some pw)) a (fun r a' => a' = a /\
    ((r = -1 /\ forall id, ~ credentials a name pw id) \/ (0 <= r < n /\ credentials a name pw r))).
Proof.
  intros Ha Hn Hname. unfold auth_login. destruct (hash_of_ok pw) as [Hh Hhl].
  apply runs_bind. eapply runs_need; [exact Hh|]. apply runs_bind.
  set (body := fun i : Z => _).
  set (test := fun u => active u && bool_decide (name_of u = name) && bool_decide (password_hash u = hash_of pw)).
  assert (Hbody : forall i u, arr_get (g_users a) i = Some u ->
    body i a = Some (if test u then Some (i32 (uid u)) else None, a)).
  { intros i u Hu. destruct (user_at _ _ _ _ Ha Hu) as [Hok _]. unfold body, test. unfold mbind, prog_bind.
    rewrite (get_user_at _ _ _ Hu). destruct (active u); [|done]. cbn [negb andb].
    rewrite (name_is_ok _ _ _ Hok Hname). destruct (bool_decide (name_of u = name)); [|done]. cbn [negb andb].
    rewrite (hash_matches_ok _ _ _ (uk_hash _ Hok) Hhl). done. }
  destruct (for_first test body a (ak_len _ _ Ha)) as [[Hnone Hrun]|(i & u & Hi & Ht & Hrun)].
  { intros i u Hu Ht. by rewrite (Hbody i u Hu), Ht. }
  - exists None, a. split; [exact Hrun|]. apply runs_ret. split; [done|]. left. split; [done|].
    intros id (acc & Hacc & <- & Hhash). apply (accounts_lookup _ _ _ _ Ha) in Hacc as (u & Hu & Hact & _ & <-).
    specialize (Hnone u Hu). unfold test in Hnone. cbn in Hhash, Hnone. rewrite Hact in Hnone.
    rewrite !bool_decide_eq_true_2 in Hnone by done. done.
  - destruct (user_at _ _ _ _ Ha Hi) as [_ Hin]. unfold test in Ht.
    apply andb_true_iff in Ht as [Ht Hhash%bool_decide_eq_true]. apply andb_true_iff in Ht as [Hact Hnm%bool_decide_eq_true].
    pose proof (uid_at _ _ _ Ha Hin Hact) as Hid.
    exists (Some (i32 (uid u))), a. split.
    { apply Hrun. rewrite (Hbody i u Hi). unfold test. rewrite Hact, !bool_decide_eq_true_2 by done. done. }
    apply runs_ret. split; [done|]. right. cbn [default]. rewrite i32_small by lia. split; [done|].
    exists (info u). split; [|done]. apply (accounts_lookup _ _ _ _ Ha). eauto 10.
Qed.
Lemma lookup_of_get {A} (l : list A) i x : arr_get l i = Some x -> l !! Z.to_nat i = Some x.
Proof. intros Hx. pose proof (arr_get_Some _ _ _ Hx). by rewrite <- arr_get_lookup by lia. Qed.

(** A store of a slot that exists. *)
Lemma put_user_at i u v a : arr_get (g_users a) i = Some u ->
  put_user i v a = Some (tt, mk_auth (<[Z.to_nat i := v]> (g_users a)) (g_user_count a) (g_current_uid a)).
Proof.
  intros Hu. unfold put_user, mbind, prog_bind, gets, need, modify. cbn.
  rewrite arr_set_in by (by eapply arr_get_Some). done.
Qed.

(** The other accounts of the table have other uids and names. *)
Lemma others_fresh n a k u : auth_ok n a -> g_users a !! k = Some u -> active u = true ->
  uid u ∉ uid <$> filter is_active (delete k (g_users a)) /\
  name_of u ∉ name_of <$> filter is_active (delete k (g_users a)).
Proof.
  intros Ha Hk Hu. destruct (filter_slot _ _ _ u Hk) as [Hold _]. rewrite Hu in Hold. cbn in Hold.
  pose proof (ak_uids _ _ Ha) as H1. pose proof (ak_names _ _ Ha) as H2. rewrite Hold in H1, H2.
  apply NoDup_cons in H1 as [? _]. apply NoDup_cons in H2 as [? _]. done.
Qed.

Lemma no_account n a id : auth_ok n a -> (forall u, u ∈ g_users a -> active u && (uid u =? id) = false) ->
  accounts a !! id = None.
Proof.
  intros Ha Hnone. destruct (accounts a !! id) as [acc|] eqn:E; [|done].
  apply (accounts_lookup _ _ _ _ Ha) in E as (u & Hu & Hact & <- & _).
  specialize (Hnone u Hu). by rewrite Hact, Z.eqb_refl in Hnone.
Qed.

Lemma account_at n a u : auth_ok n a -> u ∈ g_users a -> active u = true -> accounts a !! uid u = Some (info u).
Proof. intros Ha Hu Hact. apply (accounts_lookup _ _ _ _ Ha). eauto 10. Qed.

Lemma count_pos n a u : auth_ok n a -> u ∈ g_users a -> active u = true -> 0 < g_user_count a.
Proof.
  intros Ha Hu Hact. rewrite (ak_count _ _ Ha).
  assert (Hf : u ∈ filter is_active (g_users a)) by (by apply list_elem_of_filter).
  destruct (filter is_active (g_users a)); [by apply elem_of_nil in Hf|cbn; lia].
Qed.

Lemma zero_user_ok : user_ok zero_user.
Proof. split; [done| |done]. exists []. split; [done|constructor]. Qed.

Lemma delete_ok n a id : auth_ok n a ->
  runs (auth_delete_user id) a (fun r a' => auth_ok n a' /\ g_current_uid a' = g_current_uid a /\
    if (id =? 0) || bool_decide (accounts a !! id = None) then r = -1 /\ a' = a
    else r = 0 /\ accounts a' = delete id (accounts a)).
Proof.
  intros Ha. unfold auth_delete_user. destruct (Z.eqb_spec id 0); cbn [orb]; [by apply runs_ret|]. apply runs_bind.
  set (body := fun i : Z => _).
  destruct (for_first (fun u => active u && (uid u =? id)) body a (ak_len _ _ Ha)) as [[Hnone Hrun]|(i & u & Hi & Ht & Hrun)].
  { intros i u Hu Ht. unfold body, mbind, prog_bind. by rewrite (get_user_at _ _ _ Hu), Ht. }
  - exists None, a. split; [exact Hrun|]. apply runs_ret.
    rewrite bool_decide_eq_true_2 by (by eapply no_account). done.
  - destruct (user_at _ _ _ _ Ha Hi) as [Hok Hin]. pose proof Ht as [Hact <-%Z.eqb_eq]%andb_true_iff.
    pose proof (lookup_of_get _ _ _ Hi) as Hk. pose proof (count_pos _ _ _ Ha Hin Hact) as Hc.
    set (a' := mk_auth (<[Z.to_nat i := zero_user]> (g_users a)) (g_user_count a - 1) (g_current_uid a)).
    exists (Some 0), a'. split.
    { apply Hrun. unfold body, mbind, prog_bind. rewrite (get_user_at _ _ _ Hi), Ht, (put_user_at _ u) by done.
      unfold modify, mret, prog_ret. cbn [g_user_count]. rewrite (proj2 (Z.ltb_lt _ _) Hc). done. }
    apply runs_ret. rewrite bool_decide_eq_false_2 by (by rewrite (account_at n) by done). split_and!; try done.
    + eapply (auth_ok_slot n n); try done; [apply zero_user_ok|]. rewrite Hact. cbn. lia.
    + by apply (accounts_remove _ _ _ _ _ (ak_uids _ _ Ha)).
Qed.

Lemma change_password_ok n a id pw : auth_ok n a ->
  runs (auth_change_password id (Some pw)) a (fun r a' => auth_ok n a' /\ g_current_uid a' = g_current_uid a /\
    match accounts a !! id with
    | None => r = -1 /\ a' = a
    | Some acc => r = 0 /\
        accounts a' = <[id := mk_account (acc_name acc) (hash_of pw) (acc_gid acc) (acc_root acc)]> (accounts a)
    end).
Proof.
  intros Ha. unfold auth_change_password. apply runs_bind. set (body := fun i : Z => _).
  destruct (hash_of_ok pw) as [Hh Hhl].
  destruct (for_first (fun u => active u && (uid u =? id)) body a (ak_len _ _ Ha)) as [[Hnone Hrun]|(i & u & Hi & Ht & Hrun)].
  { intros i u Hu Ht. unfold body, mbind, prog_bind. by rewrite (get_user_at _ _ _ Hu), Ht. }
  - exists None, a. split; [exact Hrun|]. apply runs_ret. by rewrite (no_account n a id).
  - destruct (user_at _ _ _ _ Ha Hi) as [Hok Hin]. pose proof Ht as [Hact <-%Z.eqb_eq]%andb_true_iff.
    pose proof (lookup_of_get _ _ _ Hi) as Hk.
    set (v := mk_user (username u) (hash_of pw) (uid u) (gid u) (is_root u) (active u)).
    set (a' := mk_auth (<[Z.to_nat i := v]> (g_users a)) (g_user_count a) (g_current_uid a)).
    exists (Some 0), a'. split.
    { apply Hrun. unfold body, mbind, prog_bind. rewrite (get_user_at _ _ _ Hi), Ht.
      unfold need. rewrite Hh. cbn -[put_user hash_of]. by rewrite (put_user_at _ u). }
    apply runs_ret. rewrite (account_at n) by done. split_and!; try done.
    + eapply (auth_ok_slot n n); try done.
      * destruct Hok. by split.
      * intros _. split; [exact (uid_at n a u Ha Hin Hact)|exact (others_fresh n a _ u Ha Hk Hact)].
      * cbn [active v]. rewrite Hact. lia.
    + exact (accounts_update a _ u v _ (ak_uids _ _ Ha) Hk Hact Hact eq_refl).
Qed.
(** The slots before [i] have been looked at. *)
Definition picked (n : Z) (a : auth) (i slot next : Z) : Prop :=
  0 <= next <= n /\
  (forall k u, 0 <= k < i -> arr_get (g_users a) k = Some u -> active u = true -> uid u < next) /\
  ((slot = -1 /\ forall k u, 0 <= k < i -> arr_get (g_users a) k = Some u -> active u = true) \/
   (0 <= slot < 16 /\ exists u, arr_get (g_users a) slot = Some u /\ active u = false)).

Lemma pick_slot_ok n a : auth_ok n a -> n < 2 ^ 31 -> forall m i slot next, 0 <= i -> i + Z.of_nat m = 16 ->
  picked n a i slot next ->
  runs (pick_slot m i slot next) a (fun r a' => a' = a /\ picked n a 16 r.1 r.2).
Proof.
  intros Ha Hn. induction m as [|m IH]; intros i slot next Hi Hm Hp; cbn [pick_slot].
  { apply runs_ret. by replace i with 16 in Hp by lia. }
  pose proof (ak_len _ _ Ha) as Hl. destruct (arr_get_in (g_users a) i ltac:(lia)) as [u Hu].
  apply runs_bind. exists u, a. split; [by apply get_user_at|]. destruct Hp as (Hnx & Hmax & Hslot).
  destruct (user_at _ _ _ _ Ha Hu) as [_ Hin].
  assert (Hlast : forall k v, 0 <= k < i + 1 -> arr_get (g_users a) k = Some v -> k = i /\ v = u \/ 0 <= k < i).
  { intros k v Hk Hv. destruct (Z.eq_dec k i) as [->|]; [left|right; lia]. split; congruence. }
  destruct (active u) eqn:Eu; cbn [negb].
  - pose proof (uid_at _ _ _ Ha Hin Eu) as Hid.
    assert (Hslot' : (slot = -1 /\ forall k v, 0 <= k < i + 1 -> arr_get (g_users a) k = Some v -> active v = true) \/
      (0 <= slot < 16 /\ exists u, arr_get (g_users a) slot = Some u /\ active u = false)).
    { destruct Hslot as [[-> Hall]|?]; [left|by right]. split; [done|]. intros k v Hk Hv.
      destruct (Hlast k v Hk Hv) as [[_ ->]|?]; [done|by apply (Hall k)]. }
    destruct (Z.leb_spec next (uid u)).
    + rewrite wrap_small by lia. apply IH; [lia..|]. split_and!; [lia..| |done]. intros k v Hk Hv Hact.
      destruct (Hlast k v Hk Hv) as [[_ ->]|Hk']; [lia|]. specialize (Hmax k v Hk' Hv Hact). lia.
    + apply IH; [lia..|]. split_and!; [lia..| |done]. intros k v Hk Hv Hact.
      destruct (Hlast k v Hk Hv) as [[_ ->]|Hk']; [lia|]. by apply (Hmax k v).
  - apply IH; [lia..|]. split_and!; [lia..| |].
    + intros k v Hk Hv Hact. destruct (Hlast k v Hk Hv) as [[_ ->]|Hk']; [congruence|]. by apply (Hmax k v).
    + right. destruct Hslot as [[-> _]|[? ?]]; [cbn; split; [lia|by exists u]|].
      rewrite (proj2 (Z.ltb_ge _ _)) by lia. done.
Qed.

Lemma filter_all us : Forall is_active us -> filter is_active us = us.
Proof. induction 1 as [|u us Hu _ IH]; [done|]. by rewrite filter_cons_True, IH. Qed.

(** A free slot means fewer than 16 accounts. *)
Lemma free_slot n a k u : auth_ok n a -> g_users a !! k = Some u -> active u = false ->
  (length (filter is_active (g_users a)) < 16)%nat.
Proof.
  intros Ha Hk Hu. destruct (filter_slot _ _ _ u Hk) as [Hold _]. rewrite Hu in Hold. cbn in Hold. rewrite Hold.
  pose proof (lookup_lt_Some _ _ _ Hk). pose proof (length_filter is_active (delete k (g_users a))) as Hf.
  rewrite length_delete in Hf by (by eexists). pose proof (ak_len _ _ Ha). lia.
Qed.

Lemma accounts_size n a : auth_ok n a -> size (accounts a) = length (filter is_active (g_users a)).
Proof.
  intros Ha. unfold accounts. rewrite map_size_list_to_map by (rewrite keys_entries; apply (ak_uids _ _ Ha)).
  unfold entries. by rewrite length_fmap.
Qed.

(** Why an account is refused. *)
Definition refused (a : auth) (name : list Z) : Prop :=
  name = [] \/ (24 <= length name)%nat \/ (exists id acc, accounts a !! id = Some acc /\ acc_name acc = name) \/
  size (accounts a) = 16%nat.

Lemma dup_ok n a name : auth_ok n a -> cname_ok name ->
  runs (for_ret (Z.to_nat MAX_USERS) 0 (fun i =>
          u ← get_user i;
          if active u then same ← name_is u name; mret (if (same : bool) then Some tt else None)
          else mret None)) a
    (fun r a' => a' = a /\ match r with
       | Some _ => exists id acc, accounts a !! id = Some acc /\ acc_name acc = name
       | None => forall u, u ∈ g_users a -> active u = true -> name_of u <> name end).
Proof.
  intros Ha Hname. set (body := fun i : Z => _).
  set (test := fun u => active u && bool_decide (name_of u = name)).
  assert (Hbody : forall i u, arr_get (g_users a) i = Some u -> body i a = Some (if test u then Some tt else None, a)).
  { intros i u Hu. destruct (user_at _ _ _ _ Ha Hu) as [Hok _]. unfold body, test, mbind, prog_bind.
    rewrite (get_user_at _ _ _ Hu). destruct (active u); [|done]. by rewrite (name_is_ok _ _ _ Hok Hname). }
  destruct (for_first test body a (ak_len _ _ Ha)) as [[Hnone Hrun]|(i & u & Hi & Ht & Hrun)].
  { intros i u Hu Ht. by rewrite (Hbody i u Hu), Ht. }
  - exists None, a. split_and!; [exact Hrun|done|]. intros u Hu Hact Hn. specialize (Hnone u Hu). unfold test in Hnone.
    by rewrite Hact, bool_decide_eq_true_2 in Hnone.
  - destruct (user_at _ _ _ _ Ha Hi) as [_ Hin]. exists (Some tt), a. split; [apply Hrun; by rewrite (Hbody i u Hi), Ht|].
    split; [done|]. unfold test in Ht. apply andb_true_iff in Ht as [Hact Hn%bool_decide_eq_true].
    exists (uid u), (info u). split; [by apply (account_at n)|done].
Qed.

Lemma create_ok n a name pw root : auth_ok n a -> 0 <= n < 2 ^ 31 -> cname_ok name ->
  runs (auth_create_user (Some name) (Some pw) root) a (fun r a' => g_current_uid a' = g_current_uid a /\
    ((r = -1 /\ a' = a /\ refused a name) \/
     (0 <= r <= n /\ auth_ok (n + 1) a' /\ ~ refused a name /\ (forall id, is_Some (accounts a !! id) -> id < r) /\
      accounts a' = <[r := mk_account name (hash_of pw) (if root then r else 100) root]> (accounts a)))).
Proof.
  intros Ha Hn Hname. unfold auth_create_user, auth_strlen, USERNAME_MAX.
  destruct name as [|c0 name0] eqn:Ename; [apply runs_ret; split; [done|left; unfold refused; auto]|]. rewrite <- Ename in *.
  destruct (Z.leb_spec 24 (Z.of_nat (length name))) as [Hlong|Hlen].
  { apply runs_ret. split; [done|left]. split_and!; try done. right; left. lia. }
  apply runs_bind. eapply runs_mono; [by eapply dup_ok|]. intros r a0 [-> Hdup]. destruct r as [?|].
  { apply runs_ret. split; [done|left]. split_and!; [done|done|by right; right; left]. }
  apply runs_bind. eapply runs_mono.
  { apply (pick_slot_ok n a Ha (proj2 Hn)); [lia|done|].
    split_and!; [lia|lia|intros; lia|left; split; [done|intros; lia]]. }
  intros [slot next] a0 (-> & Hnx & Hmax & Hslot). cbn [fst snd] in *.
  assert (Hbelow : forall u, u ∈ g_users a -> active u = true -> uid u < next).
  { intros u [k Hk]%list_elem_of_lookup Hact. apply (Hmax (Z.of_nat k) u); [|rewrite arr_get_lookup, Nat2Z.id by lia; done|done].
    pose proof (lookup_lt_Some _ _ _ Hk). pose proof (ak_len _ _ Ha). lia. }
  destruct Hslot as [[-> Hfull]|[Hsl (u & Hu & Hact)]].
  { apply runs_ret. split; [done|left]. split_and!; try done. right; right; right. rewrite (accounts_size n) by done.
    rewrite filter_all; [apply (ak_len _ _ Ha)|]. apply Forall_forall. intros u [k Hk]%list_elem_of_lookup.
    apply (Hfull (Z.of_nat k)); [|rewrite arr_get_lookup, Nat2Z.id by lia; done].
    pose proof (lookup_lt_Some _ _ _ Hk). pose proof (ak_len _ _ Ha). lia. }
  rewrite (proj2 (Z.ltb_ge _ _)) by lia. pose proof (lookup_of_get _ _ _ Hu) as Hk.
  destruct (user_at _ _ _ _ Ha Hu) as [Hok _]. apply runs_bind. exists u, a. split; [by apply get_user_at|].
  destruct (strcpy_ok (username u) name (uk_name_len _ Hok) ltac:(lia) Hname) as (nm & Hcpy & Hnl & Hcs).
  apply runs_bind, (runs_need _ nm); [exact Hcpy|]. destruct (hash_of_ok pw) as [Hh Hhl].
  apply runs_bind, (runs_need _ (hash_of pw)); [exact Hh|]. apply runs_bind.
  set (v := mk_user nm (hash_of pw) next (if root then next else 100) root true).
  eexists tt, _. split; [by apply (put_user_at _ u)|]. apply runs_bind, runs_modify, runs_ret.
  set (a' := mk_auth (<[Z.to_nat slot := v]> (g_users a)) (g_user_count a + 1) (g_current_uid a)).
  change (set_count _ _) with a'. split; [done|right]. rewrite i32_small by lia.
  assert (Hname_v : name_of v = name) by (unfold name_of; cbn; by rewrite Hcs).
  assert (Hfresh : next ∉ uid <$> filter is_active (g_users a)).
  { intros (w & Hw & [Hact' Hin]%list_elem_of_filter)%list_elem_of_fmap. specialize (Hbelow w Hin Hact'). lia. }
  split_and!; [lia|lia| | | |].
  - eapply (auth_ok_slot n (n + 1)); try done; [split; [done|by exists name|done]|lia| |cbn; rewrite Hact; lia].
    intros _. destruct (filter_slot _ _ _ v Hk) as [Hold _]. rewrite Hact in Hold. cbn in Hold.
    rewrite <- Hold, Hname_v. split_and!; [cbn; lia|cbn; lia|done|].
    intros (w & Hw & [Hact' Hin]%list_elem_of_filter)%list_elem_of_fmap. by apply (Hdup w).
  - pose proof (free_slot n a _ _ Ha Hk Hact). unfold refused. rewrite (accounts_size n) by done.
    intros [?|[?|[(id & acc & Hacc & Hacn)|?]]]; [congruence|lia| |lia].
    apply (accounts_lookup _ _ _ _ Ha) in Hacc as (w & Hin & Hact' & _ & <-). by apply (Hdup w).
  - intros id [acc Hacc]. apply (accounts_lookup _ _ _ _ Ha) in Hacc as (w & Hin & Hact' & <- & _). by apply Hbelow.
  - rewrite <- Hname_v. exact (accounts_add a _ u v _ (ak_uids _ _ Ha) Hk Hact eq_refl Hfresh).
Qed.
(** * Initialisation *)

Definition boot_auth : auth := default (mk_auth [] 0 0) (snd <$> auth_init (mk_auth [] 0 0)).

Lemma init_runs a : auth_init a = Some (tt, boot_auth).
Proof. vm_compute. reflexivity. Qed.

Lemma boot_ok : auth_ok 3 boot_auth.
Proof.
  split.
  - reflexivity.
  - assert (Hin : forall u, u ∈ g_users boot_auth -> exists s, c_string (username u) = Some s /\ cname_ok s /\
      length (username u) = 24%nat /\ length (password_hash u) = 32%nat).
    { intros u Hu. vm_compute in Hu.
      repeat (apply elem_of_cons in Hu as [->|Hu];
        [eexists; split_and!; [vm_compute; reflexivity|unfold cname_ok; repeat constructor; lia|reflexivity|reflexivity]|]).
      by apply elem_of_nil in Hu. }
    apply Forall_forall. intros u Hu. destruct (Hin u Hu) as (s & ? & ? & ? & ?). split; eauto.
  - apply (bool_decide_unpack _). vm_compute. exact I.
  - apply (bool_decide_unpack _). vm_compute. exact I.
  - vm_compute. repeat constructor; discriminate.
  - reflexivity.
Qed.

(** The three accounts every system starts with. *)
Lemma boot_accounts : accounts boot_auth = {[
  0 := mk_account (text "root") (hash_of (text "root123")) 0 true;
  1 := mk_account (text "admin") (hash_of (text "admin123")) 1 true;
  2 := mk_account (text "user") (hash_of (text "user123")) 100 false ]}.
Proof. apply (map_eq (M := gmap Z)). intros i. vm_compute. reflexivity. Qed.
(** C10: The account table behaves as a map from uids to accounts.  [auth_init]
    leaves root, admin and user; a new account is refused exactly for an empty,
    too long or taken name or a full table, and otherwise gets a uid above all
    others; deletion removes exactly the account (never uid 0), a new password
    changes exactly its hash; login succeeds exactly with the name and the
    password hash of an account and returns its uid.  Uids and names stay
    distinct and the user count exact. *)
Theorem auth_refines_accounts n a a0 name pw root id : auth_ok n a -> 0 <= n < 2 ^ 31 -> cname_ok name ->
  runs auth_init a0 (fun _ a => auth_ok 3 a /\ dom (accounts a) = {[0; 1; 2]} /\ g_current_uid a = -1) /\
  runs (auth_create_user (Some name) (Some pw) root) a (fun r a' => g_current_uid a' = g_current_uid a /\
    ((r = -1 /\ a' = a /\ refused a name) \/
     (0 <= r <= n /\ auth_ok (n + 1) a' /\ ~ refused a name /\ (forall id, is_Some (accounts a !! id) -> id < r) /\
      accounts a' = <[r := mk_account name (hash_of pw) (if root then r else 100) root]> (accounts a)))) /\
  runs (auth_delete_user id) a (fun r a' => auth_ok n a' /\ g_current_uid a' = g_current_uid a /\
    if (id =? 0) || bool_decide (accounts a !! id = None) then r = -1 /\ a' = a
    else r = 0 /\ accounts a' = delete id (accounts a)) /\
  runs (auth_change_password id (Some pw)) a (fun r a' => auth_ok n a' /\ g_current_uid a' = g_current_uid a /\
    match accounts a !! id with
    | None => r = -1 /\ a' = a
    | Some acc => r = 0 /\
        accounts a' = <[id := mk_account (acc_name acc) (hash_of pw) (acc_gid acc) (acc_root acc)]> (accounts a)
    end) /\
  runs (auth_login (Some name) (Some pw)) a (fun r a' => a' = a /\
    ((r = -1 /\ forall id, ~ credentials a name pw id) \/ (0 <= r < n /\ credentials a name pw r))).
Proof.
  intros Ha Hn Hname. split_and!.
  - exists tt, boot_auth. split; [apply init_runs|]. split_and!; [apply boot_ok| |done].
    rewrite boot_accounts. set_solver.
  - by apply create_ok.
  - by apply delete_ok.
  - by apply change_password_ok.
  - apply login_ok; done || lia.
Qed.

Lemma auth_refines_accounts_witness :
  runs (auth_login (Some (text "root")) (Some (text "root123"))) boot_auth (fun r a' => r = 0) /\
  runs (auth_delete_user 2) boot_auth (fun r a' => r = 0).
Proof.
  destruct (auth_refines_accounts 3 boot_auth boot_auth (text "root") (text "root123") false 2 boot_ok
    ltac:(lia) ltac:(unfold cname_ok; repeat constructor; lia)) as (_ & _ & Hdel & _ & Hlog).
  split.
  - eapply runs_mono; [exact Hlog|]. intros r a' [_ [[_ Hno]|[_ Hc]]].
    + exfalso. apply (Hno 0). eexists. rewrite boot_accounts. split; [reflexivity|]. split; reflexivity.
    + apply (credentials_unique 3 boot_auth (text "root") (text "root123") (text "root123")); [apply boot_ok|exact Hc|].
      eexists. rewrite boot_accounts. split; [reflexivity|]. split; reflexivity.
  - eapply runs_mono; [exact Hdel|]. intros r a' (_ & _ & Hr).
    rewrite bool_decide_eq_false_2 in Hr by (rewrite boot_accounts; discriminate). apply Hr.
Defined.

(** * The login prompt *)

(** Line editing without a buffer: a key changes the line typed so far. *)
Definition edit (cap : Z) (line : list Z) (c : Z) : list Z :=
  if c =? 8 then take (length line - 1) line
  else if (0x20 <=? c) && (c <? 0x7F) && (Z.of_nat (length line) + 1 <? cap) then line ++ [c] else line.

(** The line that the keys type up to Enter, and the keys after it. *)
Fixpoint take_line (cap : Z) (keys line : list Z) : option (list Z * list Z) :=
  match keys with
  | [] => None
  | c :: keys => if c =? 13 then Some (line, keys) else take_line cap keys (edit cap line c)
  end.

Lemma read_line_loop_ok keys : forall line rest cap mask calls, cap = Z.of_nat (length (line ++ rest)) ->
  rest <> [] -> cname_ok line ->
  match take_line cap keys line with
  | None => read_line_loop keys (line ++ rest) (Z.of_nat (length line)) cap mask calls = Some Waiting
  | Some (l, keys') => exists buf calls',
      read_line_loop keys (line ++ rest) (Z.of_nat (length line)) cap mask calls = Some (Line buf keys' calls') /\
      c_string buf = Some l /\ length buf = length (line ++ rest) /\ cname_ok l
  end.
Proof.
  induction keys as [|c keys IH]; intros line rest cap mask calls Hcap Hrest Hline; cbn [take_line read_line_loop]; [done|].
  destruct rest as [|x rest]; [done|]. unfold edit. change Keyboard.KEY_ENTER with 13. change Keyboard.KEY_BACKSPACE with 8.
  destruct (Z.eqb_spec c 13) as [->|H13].
  { cbn [Z.eqb]. rewrite arr_set_app. eexists _, _. split_and!; [done| | |done].
    - apply c_string_app. eapply Forall_impl; [exact Hline|]. cbn. lia.
    - by rewrite !length_app. }
  destruct (Z.eqb_spec c 0) as [->|H0]; [by apply IH|].
  destruct (Z.eqb_spec c 8) as [->|H8].
  { destruct (Z.ltb_spec 0 (Z.of_nat (length line))) as [Hp|Hp].
    - destruct (exists_last (l := line)) as (line' & y & ->); [by intros ->|].
      apply Forall_app in Hline as [Hline' _]. rewrite length_app in *. cbn [length] in *.
      replace (Z.of_nat (length line' + 1) - 1) with (Z.of_nat (length line')) by lia.
      rewrite <- app_assoc in *. cbn [app] in *. rewrite arr_set_app. cbn [mbind option_bind].
      replace (length line' + 1 - 1)%nat with (length line') by lia. rewrite take_app_length.
      specialize (IH line' (0 :: x :: rest) cap mask (calls ++ [Putchar 8; Putchar 32; Putchar 8])).
      rewrite !length_app in *. cbn [length] in *. apply IH; [lia|done|done].
    - destruct line; [|cbn in Hp; lia]. by apply IH. }
  destruct (Z.leb_spec 0x20 c), (Z.ltb_spec c 0x7F); cbn [andb]; try by apply IH.
  destruct (Z.ltb_spec (Z.of_nat (length line) + 1) cap); [|by apply IH].
  rewrite arr_set_app. cbn [mbind option_bind].
  specialize (IH (line ++ [c]) rest cap mask (calls ++ [Putchar (if mask then 42 else c)])).
  rewrite <- app_assoc in IH. cbn [app] in IH. rewrite (length_app line [c]) in IH. cbn [length] in IH.
  rewrite Nat2Z.inj_add in IH. rewrite !length_app in *. cbn [length] in *. apply IH.
  - lia.
  - intros ->. cbn in *. lia.
  - apply Forall_app. split; [done|]. apply Forall_singleton. lia.
Qed.

Lemma read_line_ok keys buf cap mask : length buf = Z.to_nat cap -> 0 < cap ->
  match take_line cap keys [] with
  | None => auth_read_line keys buf cap mask = Some Waiting
  | Some (l, keys') => exists buf' calls, auth_read_line keys buf cap mask = Some (Line buf' keys' calls) /\
      c_string buf' = Some l /\ length buf' = length buf /\ cname_ok l
  end.
Proof.
  intros Hb Hc. unfold auth_read_line. rewrite (proj2 (Z.eqb_neq _ _)) by lia.
  apply (read_line_loop_ok keys [] buf); [cbn; lia|destruct buf; [cbn in Hb; lia|done]|constructor].
Qed.
Lemma username_ok n a id : auth_ok n a ->
  runs (auth_username id) a (fun r a' => a' = a /\ r = acc_name <$> accounts a !! id).
Proof.
  intros Ha. unfold auth_username. set (body := fun i : Z => _).
  destruct (for_first (fun u => active u && (uid u =? id)) body a (ak_len _ _ Ha)) as [[Hnone Hrun]|(i & u & Hi & Ht & Hrun)].
  { intros i u Hu Ht. unfold body, mbind, prog_bind. by rewrite (get_user_at _ _ _ Hu), Ht. }
  - exists None, a. split_and!; [exact Hrun|done|]. by rewrite (no_account n a id).
  - destruct (user_at _ _ _ _ Ha Hi) as [Hok Hin]. pose proof Ht as [Hact <-%Z.eqb_eq]%andb_true_iff.
    exists (Some (name_of u)), a. split_and!; [|done|by rewrite (account_at n)]. apply Hrun.
    unfold body, mbind, prog_bind, need. rewrite (get_user_at _ _ _ Hi), Ht.
    destruct (name_of_ok u Hok) as [-> _]. done.
Qed.

(** What the prompt may do with the keys typed: each attempt takes a name and a
    password line; only credentials of an account end it with a user. *)
Inductive login_spec (a : auth) : nat -> list Z -> login_result -> option Z -> Prop :=
| spec_locked keys : login_spec a 0 keys Locked None
| spec_wait_name n keys : take_line 24 keys [] = None -> login_spec a (S n) keys WaitingKeys None
| spec_wait_password n keys name k1 :
    take_line 24 keys [] = Some (name, k1) -> take_line 64 k1 [] = None ->
    login_spec a (S n) keys WaitingKeys None
| spec_user n keys name k1 pw k2 id :
    take_line 24 keys [] = Some (name, k1) -> take_line 64 k1 [] = Some (pw, k2) ->
    credentials a name pw id -> login_spec a (S n) keys (LoggedIn k2) (Some id)
| spec_failed n keys name k1 pw k2 r o :
    take_line 24 keys [] = Some (name, k1) -> take_line 64 k1 [] = Some (pw, k2) ->
    (forall id, ~ credentials a name pw id) -> login_spec a n k2 r o -> login_spec a (S n) keys r o.

Lemma login_attempts_ok m a k : auth_ok m a -> m <= 2 ^ 31 -> forall keys ubuf pbuf calls,
  length ubuf = 24%nat -> length pbuf = 64%nat ->
  runs (login_attempts k keys ubuf pbuf calls) a (fun r a' => exists o,
    login_spec a k keys r.1 o /\ a' = match o with Some id => set_current id a | None => a end).
Proof.
  intros Ha Hm. induction k as [|k IH]; intros keys ubuf pbuf calls Hu Hp; cbn [login_attempts].
  { apply runs_ret. exists None. split; [constructor|done]. }
  pose proof (read_line_ok keys ubuf 24 false Hu ltac:(lia)) as Hl. apply runs_bind.
  destruct (take_line 24 keys []) as [[name k1]|] eqn:E1.
  2: { eapply runs_need; [exact Hl|]. apply runs_ret. exists None. split; [by apply spec_wait_name|done]. }
  destruct Hl as (ubuf' & c1 & Hl & Hname & Hu' & Hok). eapply runs_need; [exact Hl|]. apply runs_bind.
  pose proof (read_line_ok k1 pbuf 64 true Hp ltac:(lia)) as Hl2.
  destruct (take_line 64 k1 []) as [[pw k2]|] eqn:E2.
  2: { eapply runs_need; [exact Hl2|]. apply runs_ret. exists None. split; [by eapply spec_wait_password|done]. }
  destruct Hl2 as (pbuf' & c2 & Hl2 & Hpw & Hp' & _). eapply runs_need; [exact Hl2|].
  apply runs_bind. eapply runs_need; [exact Hname|]. apply runs_bind. eapply runs_need; [exact Hpw|].
  apply runs_bind. eapply runs_mono; [by apply (login_ok m)|]. intros r a' [-> [[-> Hno]|[Hr Hcred]]].
  - cbn [Z.leb Z.compare]. eapply runs_mono; [apply IH; [congruence|done]|].
    intros r a' (o & Hspec & ->). exists o. split; [by eapply spec_failed|done].
  - rewrite (proj2 (Z.leb_le _ _)) by lia. apply runs_bind, runs_modify. apply runs_bind.
    assert (Ha' : auth_ok m (set_current r a)) by (destruct Ha; by split).
    eapply runs_mono; [by apply (username_ok m)|]. intros known a' [-> _]. apply runs_ret.
    exists (Some r). split; [by eapply spec_user|done].
Qed.

(** C19: The login prompt never faults, whatever is typed, and gives a session
    only to somebody who types, within three attempts, the name of an account
    and a password with that account's hash; the session is that account's.
    After three failed attempts the machine is locked, and the current uid and
    the accounts are as before. *)
Theorem login_needs_credentials m a keys ubuf pbuf : auth_ok m a -> m <= 2 ^ 31 ->
  length ubuf = 24%nat -> length pbuf = 64%nat ->
  runs (auth_run_login keys ubuf pbuf) a (fun r a' => exists o,
    login_spec a 3 keys r.1 o /\ a' = match o with Some id => set_current id a | None => a end).
Proof. intros Ha Hm Hu Hp. by apply (login_attempts_ok m). Qed.

(** A wrong first attempt, then a corrected name and the right password. *)
Definition demo_keys : list Z :=
  text "x" ++ [13; 13] ++ text "uset" ++ [8] ++ text "r" ++ [13] ++ text "user123" ++ [13; 65].

Lemma login_needs_credentials_witness : login_spec boot_auth 3 demo_keys (LoggedIn [65]) (Some 2).
Proof.
  destruct (login_needs_credentials 3 boot_auth demo_keys (replicate 24 9) (replicate 64 9) boot_ok
    ltac:(lia) eq_refl eq_refl) as (r & a' & Hrun & o & Hspec & Ha').
  assert (Hres : (fun x => (fst (fst x), g_current_uid (snd x))) <$>
    auth_run_login demo_keys (replicate 24 9) (replicate 64 9) boot_auth = Some (LoggedIn [65], 2))
    by (vm_compute; reflexivity).
  rewrite Hrun in Hres. cbn in Hres. injection Hres as Hr Hc. rewrite Hr in Hspec. rewrite Ha' in Hc.
  destruct o as [id|]; [|discriminate]. cbn in Hc. rewrite Hc in Hspec. exact Hspec.
Defined.

(** * Permissions *)

(** Which class of the mode bits applies to a user: owner 0x100 and 0x080,
    group 0x020 and 0x010, others 0x004 and 0x002. *)
Lemma check_permission_ok n a fu fg mode w : auth_ok n a -> n <= 2 ^ 31 -> g_current_uid a < 2 ^ 31 ->
  runs (auth_check_permission fu fg mode w) a (fun r a' => a' = a /\
    r = if g_current_uid a <? 0 then false else if g_current_uid a =? 0 then true else
        match accounts a !! g_current_uid a with
        | None => false
        | Some acc =>
            Z.testbit mode (if g_current_uid a =? fu then (if w then 7 else 8)
              else if acc_gid acc =? fg then (if w then 4 else 5) else (if w then 1 else 2))
        end).
Proof.
  intros Ha Hn Hc. unfold auth_check_permission. apply runs_bind, runs_gets.
  destruct (Z.ltb_spec (g_current_uid a) 0); [by apply runs_ret|]. cbv zeta. rewrite wrap_small by lia.
  destruct (Z.eqb_spec (g_current_uid a) 0); [by apply runs_ret|]. apply runs_bind. set (body := fun i : Z => _).
  assert (Hmask : forall k, 0 <= k < 16 -> negb (u16 (Z.land mode (bit 16 k)) =? 0) = Z.testbit mode k).
  { intros k Hk. rewrite <- (land_bit_testbit 16) by lia. rewrite (Z.land_comm mode), wrap_small; [done|].
    apply land_range; [lia|]. rewrite bit_pow by lia. split; [lia|]. apply Z.pow_lt_mono_r; lia. }
  destruct (for_first (fun u => active u && (uid u =? g_current_uid a)) body a (ak_len _ _ Ha))
    as [[Hnone Hrun]|(i & u & Hi & Ht & Hrun)].
  { intros i u Hu Ht. unfold body, mbind, prog_bind. by rewrite (get_user_at _ _ _ Hu), Ht. }
  - exists None, a. split; [exact Hrun|]. apply runs_ret. by rewrite (no_account n a).
  - destruct (user_at _ _ _ _ Ha Hi) as [Hok Hin]. pose proof Ht as [Hact Hid%Z.eqb_eq]%andb_true_iff.
    exists (Some (gid u)), a. split.
    { apply Hrun. unfold body, mbind, prog_bind. by rewrite (get_user_at _ _ _ Hi), Ht. }
    apply runs_ret. split; [done|]. rewrite <- Hid, (account_at n) by done. cbn [acc_gid info].
    destruct (uid u =? fu), (gid u =? fg), w; rewrite <- Hmask by lia; done.
Qed.

(** The superuser mark of an account plays no part: admin may not read a file
    of root that others may not read. *)
Lemma admin_is_not_root :
  runs (auth_check_permission 0 0 0x1F0 false) (set_current 1 boot_auth) (fun r _ => r = false) /\
  (acc_root <$> accounts boot_auth !! 1) = Some true.
Proof. split; [by eexists _, _; split; [vm_compute; reflexivity|]|by rewrite boot_accounts]. Qed.

End Auth.
