(* ===== verification/Calc.v ===== *)
(** The calculator (src/calc/calc.c, calc.h): mathematical helpers, tokenizer,
    precedence-climbing parser, output format and the prompt.

    The [double] arithmetic is a class with the instance [binary64], IEEE 754
    double precision rounded to nearest even, which is what the SSE2 code of
    this directory computes.  The program's line is
    its 128-byte array; a conversion of a [double] outside the range of the
    integer type and a division by zero of integers are undefined, and
    evaluation then ends in [None]. *)
From stdpp Require Import strings.
From Stdlib Require Import SpecFloat.
From S2P Require Import Prelude Bytes Keyboard Console Cstr.
#[local] Open Scope Z_scope.

(** The operations of the C type [double]: [d_lit m k] is the constant
    [m * 10^-k], [d_of_int] the conversion from an integer, [d_trunc] the
    integer part (none for NaN and infinities). *)
Class Double (F : Type) := {
  d_lit : Z -> Z -> F;
  d_add : F -> F -> F;
  d_sub : F -> F -> F;
  d_mul : F -> F -> F;
  d_div : F -> F -> F;
  d_opp : F -> F;
  d_lt : F -> F -> bool;
  d_le : F -> F -> bool;
  d_eq : F -> F -> bool;
  d_of_int : Z -> F;
  d_trunc : F -> option Z }.

Module Calc.
Import Console Cstr.

Definition CALC_INPUT_MAX := 128.

Inductive token_type :=
  TOK_NUM | TOK_PLUS | TOK_MINUS | TOK_MUL | TOK_DIV |
  TOK_MOD | TOK_POW | TOK_LPAREN | TOK_RPAREN |
  TOK_SIN | TOK_COS | TOK_TAN | TOK_SQRT | TOK_LOG | TOK_LN |
  TOK_ABS | TOK_FLOOR | TOK_CEIL | TOK_ANS |
  TOK_END | TOK_ERROR.

#[export] Instance token_type_eq_dec : EqDecision token_type.
Proof. solve_decision. Defined.

(** [func >= TOK_SIN && func <= TOK_CEIL] in the order of the enumeration. *)
Definition is_func (t : token_type) : bool :=
  match t with
  | TOK_SIN | TOK_COS | TOK_TAN | TOK_SQRT | TOK_LOG | TOK_LN | TOK_ABS | TOK_FLOOR | TOK_CEIL => true
  | _ => false
  end.

Definition is_digit (c : Z) : bool := (48 <=? c) && (c <=? 57).

Definition is_func_char (c : Z) : bool :=
  (97 <=? c) && (c <=? 122) || (65 <=? c) && (c <=? 90) || (c =? 95).

Definition calc_strcmp : list Z -> list Z -> Z := c_strcmp.

Definition get_prec (t : token_type) : Z :=
  match t with
  | TOK_PLUS | TOK_MINUS => 1
  | TOK_MUL | TOK_DIV | TOK_MOD => 2
  | TOK_POW => 3
  | _ => -1
  end.

Section calc.
Context {F : Type} {HF : Double F}.

Definition d0 : F := d_lit 0 0.
Definition d1 : F := d_lit 1 0.
Definition d2 : F := d_lit 2 0.

(** * Mathematics *)

Definition NaN : F := d_div d0 d0.

Definition calc_fabs (x : F) : F := if d_lt x d0 then d_opp x else x.

Fixpoint sin_loop (k : nat) (n : Z) (x sum term : F) : F :=
  match k with
  | O => sum
  | S k =>
      sin_loop k (n + 2) x (d_add sum term)
        (d_div (d_mul (d_mul (d_opp term) x) x) (d_mul (d_of_int (n + 1)) (d_of_int (n + 2))))
  end.

(** [n] takes the seven values 1, 3, ..., 13. *)
Definition calc_sin (x : F) : F := sin_loop 7 1 x d0 x.

Definition calc_cos (x : F) : F := calc_sin (d_sub (d_div (d_lit 3141592653589793 15) d2) x).

Definition calc_tan (x : F) : F := d_div (calc_sin x) (calc_cos x).

Fixpoint sqrt_loop (k : nat) (x r : F) : F :=
  match k with
  | O => r
  | S k => sqrt_loop k x (d_div (d_add r (d_div x r)) d2)
  end.

Definition calc_sqrt (x : F) : F :=
  if d_lt x d0 then NaN
  else if d_lt x (d_lit 1 15) then d0
  else sqrt_loop 20 x x.

Fixpoint ln_loop (k : nat) (n : Z) (y sum term : F) : F :=
  match k with
  | O => sum
  | S k =>
      let sum := d_add sum (d_div term (d_of_int n)) in
      let term := d_mul term (d_mul y y) in
      if d_lt (calc_fabs (d_div term (d_of_int n))) (d_lit 1 12) then sum
      else ln_loop k (n + 2) y sum term
  end.

(** [n] takes at most the fifty values 1, 3, ..., 99. *)
Definition calc_ln (x : F) : F :=
  if d_le x d0 then NaN
  else
    let y := d_div (d_sub x d1) (d_add x d1) in
    d_mul d2 (ln_loop 50 1 y d0 y).

(** The conversion [(int64_t)x]: undefined outside the range of the type. *)
Definition to_int64 (x : F) : option Z :=
  z ← d_trunc x; if (- 2 ^ 63 <=? z) && (z <? 2 ^ 63) then Some z else None.

Fixpoint exp_loop (k : nat) (n : Z) (exp_arg r term_e : F) : F :=
  match k with
  | O => r
  | S k => exp_loop k (n + 1) exp_arg (d_add r term_e) (d_mul term_e (d_div exp_arg (d_of_int n)))
  end.

(** The part of [calc_pow_real] after the test of a negative base. *)
Definition pow_value (x y : F) : F :=
  if d_eq x d0 then d0
  else
    let r := exp_loop 19 1 (d_mul y (calc_ln (calc_fabs x))) d0 d1 in
    if d_lt x d0 then d_opp r else r.

Definition calc_pow_real (x y : F) : option F :=
  if d_lt x d0 then
    yi ← to_int64 y;
    Some (if negb (d_eq y (d_of_int yi)) then NaN else pow_value x y)
  else Some (pow_value x y).

Definition apply_binop (op : token_type) (a b : F) : option F :=
  match op with
  | TOK_PLUS => Some (d_add a b)
  | TOK_MINUS => Some (d_sub a b)
  | TOK_MUL => Some (d_mul a b)
  | TOK_DIV => Some (if negb (d_eq b d0) then d_div a b else NaN)
  | TOK_MOD =>
      x ← to_int64 a;
      y ← to_int64 b;
      if (y =? 0) || (x =? - 2 ^ 63) && (y =? -1) then None else Some (d_of_int (Z.rem x y))
  | TOK_POW => calc_pow_real a b
  | _ => Some d0
  end.

(** The [switch] over the functions in [parse_primary]. *)
Definition apply_func (func : token_type) (arg : F) : option F :=
  match func with
  | TOK_SIN => Some (calc_sin arg)
  | TOK_COS => Some (calc_cos arg)
  | TOK_TAN => Some (calc_tan arg)
  | TOK_SQRT => Some (calc_sqrt arg)
  | TOK_LOG => Some (d_mul (d_lit 2302585092994046 15) (calc_ln arg))
  | TOK_LN => Some (calc_ln arg)
  | TOK_ABS => Some (calc_fabs arg)
  | TOK_FLOOR => i ← to_int64 arg; let f := d_of_int i in Some (if d_le f arg then f else d_sub f d1)
  | TOK_CEIL => i ← to_int64 arg; let f := d_of_int i in Some (if d_le arg f then f else d_add f d1)
  | _ => Some d0
  end.

(** * Tokenizer *)

(** The static variables; [g_src] is the array the pointer refers to. *)
Record calc := mk_calc { tok_type : token_type; tok_value : F; g_ans : F; g_src : list Z; g_pos : Z }.

Definition set_type t c := mk_calc t (tok_value c) (g_ans c) (g_src c) (g_pos c).
Definition set_num v c := mk_calc TOK_NUM v (g_ans c) (g_src c) (g_pos c).
Definition set_ans v c := mk_calc (tok_type c) (tok_value c) v (g_src c) (g_pos c).
Definition set_src l c := mk_calc (tok_type c) (tok_value c) (g_ans c) l 0.
Definition set_pos p c := mk_calc (tok_type c) (tok_value c) (g_ans c) (g_src c) p.

(** [g_src[g_pos]] and [g_pos++]. *)
Definition peek : prog calc Z := s ← gets g_src; p ← gets g_pos; need (arr_get s p).
Definition advance : prog calc unit := modify (fun c => set_pos (u64 (g_pos c + 1)) c).

(** The loops have the array's length as fuel. *)
Fixpoint skip_spaces (fuel : nat) : prog calc unit :=
  match fuel with
  | O => need None
  | S fuel => c ← peek; if c =? 32 then _ ← advance; skip_spaces fuel else mret tt
  end.

Fixpoint int_digits (fuel : nat) (n : F) : prog calc F :=
  match fuel with
  | O => need None
  | S fuel =>
      c ← peek;
      if is_digit c then
        _ ← advance; int_digits fuel (d_add (d_mul n (d_lit 10 0)) (d_of_int (c - 48)))
      else mret n
  end.

Fixpoint frac_digits (fuel : nat) (n frac : F) : prog calc F :=
  match fuel with
  | O => need None
  | S fuel =>
      c ← peek;
      if is_digit c then
        let frac := d_div frac (d_lit 10 0) in
        _ ← advance; frac_digits fuel (d_add n (d_mul frac (d_of_int (c - 48)))) frac
      else mret n
  end.

(** At most [k] more characters of a name. *)
Fixpoint read_name (k : nat) : prog calc (list Z) :=
  match k with
  | O => mret []
  | S k =>
      c ← peek;
      if is_func_char c then _ ← advance; rest ← read_name k; mret (c :: rest) else mret []
  end.

(** The comparisons of a name, in their order: a token and, for a constant,
    its value. *)
Definition names : list (list Z * (token_type * option F)) :=
  [(text "ans", (TOK_ANS, None)); (text "sin", (TOK_SIN, None)); (text "cos", (TOK_COS, None));
   (text "tan", (TOK_TAN, None)); (text "sqrt", (TOK_SQRT, None)); (text "log", (TOK_LOG, None));
   (text "ln", (TOK_LN, None)); (text "abs", (TOK_ABS, None)); (text "floor", (TOK_FLOOR, None));
   (text "ceil", (TOK_CEIL, None));
   (text "pi", (TOK_NUM, Some (d_lit 3141592653589793 15)));
   (text "e", (TOK_NUM, Some (d_lit 2718281828459045 15)))].

Fixpoint find_name (tbl : list (list Z * (token_type * option F))) (name : list Z) : token_type * option F :=
  match tbl with
  | [] => (TOK_ERROR, None)
  | (n, r) :: tbl => if calc_strcmp name n =? 0 then r else find_name tbl name
  end.

Definition op_token (c : Z) : token_type :=
  if c =? 43 then TOK_PLUS else
  if c =? 45 then TOK_MINUS else
  if c =? 42 then TOK_MUL else
  if c =? 47 then TOK_DIV else
  if c =? 37 then TOK_MOD else
  if c =? 94 then TOK_POW else
  if c =? 40 then TOK_LPAREN else
  if c =? 41 then TOK_RPAREN else TOK_ERROR.

Definition next_token : prog calc unit :=
  src ← gets g_src;
  let fuel := length src in
  _ ← skip_spaces fuel;
  c ← peek;
  if c =? 0 then modify (set_type TOK_END)
  else if is_digit c || (c =? 46) then
    n ← int_digits fuel d0;
    c ← peek;
    n ← (if c =? 46 then _ ← advance; frac_digits fuel n d1 else mret n);
    modify (set_num n)
  else if is_func_char c then
    name ← read_name 15;
    match find_name names name with
    | (t, Some v) => modify (set_num v)
    | (t, None) => modify (set_type t)
    end
  else
    _ ← advance;
    modify (set_type (op_token c)).

(** * Parser *)

(** Continue with a value unless it is undefined. *)
Definition vbind {A} (m : prog calc (option A)) (k : A -> prog calc (option F)) : prog calc (option F) :=
  r ← m; match r with Some v => k v | None => mret None end.

(** [if (tok_type == t) next_token();] *)
Definition accept (t : token_type) : prog calc unit :=
  t' ← gets tok_type; if decide (t' = t) then next_token else mret tt.

(** The recursive descent.  The two functions and the [while] loop of
    [parse_expr] call each other; each body is a function of the three. *)
Record parsers := mk_parsers {
  p_primary : prog calc (option F);
  p_expr : Z -> prog calc (option F);
  p_loop : Z -> F -> prog calc (option F) }.

Definition primary_body (rec : parsers) : prog calc (option F) :=
  t ← gets tok_type;
  if decide (t = TOK_NUM) then
    v ← gets tok_value; _ ← next_token; mret (Some v)
  else if decide (t = TOK_ANS) then
    _ ← next_token; v ← gets g_ans; mret (Some v)
  else if decide (t = TOK_LPAREN) then
    _ ← next_token;
    vbind (p_expr rec 0) (fun v => _ ← accept TOK_RPAREN; mret (Some v))
  else if is_func t then
    _ ← next_token;
    _ ← accept TOK_LPAREN;
    vbind (p_expr rec 0) (fun arg => _ ← accept TOK_RPAREN; mret (apply_func t arg))
  else if decide (t = TOK_MINUS) then
    _ ← next_token; vbind (p_primary rec) (fun v => mret (Some (d_opp v)))
  else if decide (t = TOK_PLUS) then
    _ ← next_token; p_primary rec
  else mret (Some d0).

Definition expr_body (rec : parsers) (min_prec : Z) : prog calc (option F) :=
  vbind (p_primary rec) (fun lhs => p_loop rec min_prec lhs).

Definition loop_body (rec : parsers) (min_prec : Z) (lhs : F) : prog calc (option F) :=
  op ← gets tok_type;
  let prec := get_prec op in
  if min_prec <=? prec then
    _ ← next_token;
    vbind (p_expr rec (prec + 1)) (fun rhs =>
    vbind (mret (apply_binop op lhs rhs)) (fun lhs => p_loop rec min_prec lhs))
  else mret (Some lhs).

(** The recursion, with a fuel that bounds its depth. *)
Fixpoint parse (fuel : nat) : parsers :=
  match fuel with
  | O => mk_parsers (need None) (fun _ => need None) (fun _ _ => need None)
  | S fuel => let rec := parse fuel in mk_parsers (primary_body rec) (expr_body rec) (loop_body rec)
  end.

Definition parse_primary (fuel : nat) : prog calc (option F) := p_primary (parse fuel).
Definition parse_expr (fuel : nat) (min_prec : Z) : prog calc (option F) := p_expr (parse fuel) min_prec.
Definition parse_loop (fuel : nat) (min_prec : Z) (lhs : F) : prog calc (option F) := p_loop (parse fuel) min_prec lhs.

(** The fuel of a line: twice the array's length and a margin. *)
Definition calc_fuel : nat := 260.

(** * Output *)

(** The conversion [(uint64_t)x], and [(int)x]. *)
Definition to_uint64 (x : F) : option Z :=
  z ← d_trunc x; if (0 <=? z) && (z <? 2 ^ 64) then Some z else None.
Definition to_int (x : F) : option Z :=
  z ← d_trunc x; if (- 2 ^ 31 <=? z) && (z <? 2 ^ 31) then Some z else None.

(** The digits of the integer part, lowest first. *)
Fixpoint fill_digits (k : nat) (digits : list Z) (nd int_part : Z) : option (list Z * Z) :=
  match k with
  | O => Some (digits, nd)
  | S k =>
      if (0 <? int_part) && (nd <? 32) then
        digits ← arr_set digits nd (48 + int_part mod 10);
        fill_digits k digits (nd + 1) (int_part / 10)
      else Some (digits, nd)
  end.

(** [base] is how far the pointer [buf] was moved. *)
Fixpoint copy_digits (n : nat) (buf digits : list Z) (base pos cap : Z) : option (list Z * Z) :=
  match n with
  | O => Some (buf, pos)
  | S n =>
      if pos <? cap - 1 then
        d ← arr_get digits (Z.of_nat n);
        buf ← arr_set buf (base + pos) d;
        copy_digits n buf digits base (pos + 1) cap
      else Some (buf, pos)
  end.

(** The digits after the point.  The outer option is an access outside an
    array, the inner one an undefined conversion. *)
Fixpoint frac_out (n : nat) (buf : list Z) (base pos cap : Z) (frac_part : F) : option (option (list Z * Z)) :=
  match n with
  | O => Some (Some (buf, pos))
  | S n =>
      if pos <? cap - 2 then
        let frac_part := d_mul frac_part (d_lit 10 0) in
        match to_int frac_part with
        | None => Some None
        | Some d =>
            buf ← arr_set buf (base + pos) (u8 (48 + d));
            frac_out n buf base (pos + 1) cap (d_sub frac_part (d_of_int d))
        end
      else Some (Some (buf, pos))
  end.

(** The part of [format_double] after the sign. *)
Definition format_magnitude (buf : list Z) (base cap : Z) (val : F) : option (option (list Z)) :=
  match to_uint64 val with
  | None => Some None
  | Some int_part =>
      let frac_part := d_sub val (d_of_int int_part) in
      '(digits, nd) ← (if int_part =? 0
                       then digits ← arr_set (replicate 32 0) 0 48; Some (digits, 1)
                       else fill_digits 32 (replicate 32 0) 0 int_part);
      '(buf, pos) ← copy_digits (Z.to_nat nd) buf digits base 0 cap;
      r ← (if (pos <? cap - 1) && d_lt (d_lit 1 10) frac_part then
             buf ← arr_set buf (base + pos) 46;
             frac_out 6 buf base (pos + 1) cap frac_part
           else Some (Some (buf, pos)));
      match r with
      | None => Some None
      | Some (buf, pos) => buf ← arr_set buf (base + pos) 0; Some (Some buf)
      end
  end.

Definition format_double (buf : list Z) (cap : Z) (val : F) : option (option (list Z)) :=
  if cap <? 2 then Some (Some buf)
  else if negb (d_eq val val) then
    buf ← arr_set buf 0 78; buf ← arr_set buf 1 97; buf ← arr_set buf 2 78;
    buf ← arr_set buf 3 0; Some (Some buf)
  else if d_lt val d0 then
    buf ← arr_set buf 0 45; format_magnitude buf 1 (cap - 1) (d_opp val)
  else format_magnitude buf 0 cap val.

(** * The prompt *)

(** The keys [keyboard_getchar] returns, in order, up to the end of a line. *)
Inductive input :=
| Entered (line : list Z) (pos : Z) (keys : list Z) (calls : list console_call)
| Waiting (calls : list console_call).

Fixpoint read_line (keys line : list Z) (pos : Z) (calls : list console_call) : option input :=
  match keys with
  | [] => Some (Waiting calls)
  | c :: keys =>
      if c =? 0 then read_line keys line pos calls
      else if c =? Keyboard.KEY_ENTER then Some (Entered line pos keys (calls ++ [Putchar 10]))
      else if c =? Keyboard.KEY_BACKSPACE then
        if 0 <? pos then read_line keys line (pos - 1) (calls ++ [Putchar 8; Putchar 32; Putchar 8])
        else read_line keys line pos calls
      else if (0x20 <=? c) && (c <? 0x7F) && (pos <? CALC_INPUT_MAX - 1) then
        line ← arr_set line pos c;
        read_line keys line (pos + 1) (calls ++ [Putchar c])
      else read_line keys line pos calls
  end.

(** The loop that removes trailing spaces, over the [n] characters typed. *)
Fixpoint trim (n : nat) (line : list Z) : option (list Z * Z) :=
  match n with
  | O => Some (line, 0)
  | S m =>
      c ← arr_get line (Z.of_nat m);
      if c =? 32 then line ← arr_set line (Z.of_nat m) 0; trim m line else Some (line, Z.of_nat n)
  end.

(** Evaluation of a line and what is printed; [None] is undefined behaviour. *)
Definition calc_line (line result : list Z) : prog calc (option (list Z * list console_call)) :=
  _ ← modify (set_src line);
  _ ← next_token;
  r ← parse_expr calc_fuel 0;
  match r with
  | None => mret None
  | Some val =>
      t ← gets tok_type;
      if decide (t = TOK_ERROR) then mret (Some (result, [Printf (text "Error" ++ [10]) []]))
      else
        _ ← modify (set_ans val);
        r ← need (format_double result 64 val);
        match r with
        | None => mret None
        | Some result =>
            s ← need (c_string result);
            mret (Some (result, [Printf (text " = %s" ++ [10]) [AStr (Some s)]]))
        end
  end.

(** What one round of the prompt leads to. *)
Inductive round :=
| Quit (keys : list Z) | Undefined | NeedKeys | Again (line result keys : list Z).

Definition is_word (line : list Z) (w : string) : option bool :=
  s ← c_string line; Some (calc_strcmp s (text w) =? 0).

Definition calc_round (keys line result : list Z) : prog calc (round * list console_call) :=
  r ← need (read_line keys line 0 [Printf (text "> ") []]);
  match r with
  | Waiting calls => mret (NeedKeys, calls)
  | Entered line pos keys calls =>
      line ← need (arr_set line pos 0);
      '(line, pos) ← need (trim (Z.to_nat pos) line);
      if pos =? 0 then mret (Again line result keys, calls)
      else
        quit ← need (is_word line "quit");
        exit ← need (is_word line "exit");
        if (quit : bool) || exit then mret (Quit keys, calls)
        else
          r ← calc_line line result;
          match r with
          | None => mret (Undefined, calls)
          | Some (result, out) => mret (Again line result keys, calls ++ out)
          end
  end.

(** [calc_run] as far as the given keys take it; every round but the last
    consumes a key. *)
Fixpoint calc_rounds (fuel : nat) (keys line result : list Z) (calls : list console_call)
    : prog calc (round * list console_call) :=
  match fuel with
  | O => need None
  | S fuel =>
      '(r, out) ← calc_round keys line result;
      match r with
      | Again line result keys => calc_rounds fuel keys line result (calls ++ out)
      | Quit _ => mret (r, calls ++ out ++ [Clear])
      | _ => mret (r, calls ++ out)
      end
  end.

Definition calc_run (keys line result : list Z) : prog calc (round * list console_call) :=
  calc_rounds (S (length keys)) keys line result
    [Clear; Printf (text "ARES Scientific Calculator" ++ [10]) [];
     Printf (text "Type expressions or 'quit' to exit." ++ [10; 10]) []].

End calc.

#[global] Arguments calc F : clear implicits.

(** IEEE 754 double precision. *)
Definition b64_of_int (z : Z) : spec_float := binary_normalize 53 1024 z 0 false.

Definition b64_trunc (x : spec_float) : option Z :=
  match x with
  | S754_zero _ => Some 0
  | S754_finite s m e =>
      let a := if 0 <=? e then Z.pos m * 2 ^ e else Z.pos m / 2 ^ (- e) in
      Some (if s then - a else a)
  | _ => None
  end.

(** A constant [m * 10^-k] whose parts are below [2^53] is one correctly
    rounded division of exact numbers. *)
Definition binary64 : Double spec_float := {|
  d_lit m k := SFdiv 53 1024 (b64_of_int m) (b64_of_int (10 ^ k));
  d_add := SFadd 53 1024;
  d_sub := SFsub 53 1024;
  d_mul := SFmul 53 1024;
  d_div := SFdiv 53 1024;
  d_opp := SFopp;
  d_lt := SFltb;
  d_le := SFleb;
  d_eq := SFeqb;
  d_of_int := b64_of_int;
  d_trunc := b64_trunc |}.

(** A fresh calculator, and the text printed for a typed line. *)
Definition calc_zero : calc spec_float := mk_calc TOK_NUM (S754_zero false) (S754_zero false) [] 0.
Definition printed (s : string) : option (list console_call) :=
  '(_, calls, _) ← calc_run (HF := binary64) (text s ++ [Keyboard.KEY_ENTER]) (replicate 128 0) (replicate 64 0) calc_zero;
  Some (drop (5 + length (text s)) calls).
(** * The tokenizer as a function on text *)

Section lex.
Context {F : Type} {HF : Double F}.
Implicit Types (s : calc F) (l : list Z).

(** The longest prefix whose characters satisfy [p], and the rest. *)
Fixpoint span (p : Z -> bool) (l : list Z) : list Z * list Z :=
  match l with
  | [] => ([], [])
  | c :: l' => if p c then let r := span p l' in (c :: r.1, r.2) else ([], l)
  end.

Definition int_value (n : F) (ds : list Z) : F :=
  fold_left (fun n c => d_add (d_mul n (d_lit 10 0)) (d_of_int (c - 48))) ds n.

Fixpoint frac_value (n frac : F) (ds : list Z) : F :=
  match ds with
  | [] => n
  | c :: ds => let frac := d_div frac (d_lit 10 0) in frac_value (d_add n (d_mul frac (d_of_int (c - 48)))) frac ds
  end.

(** The value of a numeral with digits [ip] and, after a point, [fp]. *)
Definition num_value (ip : list Z) (fp : option (list Z)) : F :=
  match fp with
  | None => int_value d0 ip
  | Some fp => frac_value (int_value d0 ip) d1 fp
  end.

Fixpoint name_prefix (k : nat) (l : list Z) : list Z :=
  match k, l with
  | S k, c :: l => if is_func_char c then c :: name_prefix k l else []
  | _, _ => []
  end.

(** The next token of a text: its type, its value and the text after it. *)
Definition lex_word (l : list Z) : token_type * option F * list Z :=
  match l with
  | [] => (TOK_END, None, [])
  | c :: r =>
      if is_digit c || (c =? 46) then
        let d := span is_digit l in
        match d.2 with
        | c' :: l2 =>
            if c' =? 46 then let f := span is_digit l2 in (TOK_NUM, Some (num_value d.1 (Some f.1)), f.2)
            else (TOK_NUM, Some (num_value d.1 None), d.2)
        | [] => (TOK_NUM, Some (num_value d.1 None), [])
        end
      else if is_func_char c then
        let nm := name_prefix 15 l in
        let r := find_name names nm in
        (match r.2 with Some _ => TOK_NUM | None => r.1 end, r.2, drop (length nm) l)
      else (op_token c, None, r)
  end.

Definition lex (l : list Z) : token_type * option F * list Z := lex_word (span (fun c => c =? 32) l).2.

(** The text [l] is what is left to read before the terminator. *)
Definition reading (l : list Z) (s : calc F) : Prop :=
  exists pre junk, g_src s = pre ++ l ++ 0 :: junk /\ g_pos s = Z.of_nat (length pre) /\
    Z.of_nat (length (g_src s)) < 2 ^ 64 /\ Forall (fun c => c <> 0) l.

(** Only the position changed. *)
Definition moved_to (s s' : calc F) : Prop := exists p, s' = set_pos p s.

Lemma moved_trans s1 s2 s3 : moved_to s1 s2 -> moved_to s2 s3 -> moved_to s1 s3.
Proof. intros [p ->] [q ->]. by exists q. Qed.

Lemma moved_refl s : moved_to s s.
Proof. exists (g_pos s). by destruct s. Qed.

Lemma reading_length l s : reading l s -> (length l < length (g_src s))%nat.
Proof. intros (pre & junk & -> & _). rewrite !length_app. cbn. lia. Qed.

Lemma runs_peek l s (Q : Z -> calc F -> Prop) : reading l s -> Q (List.hd 0 l) s -> runs peek s Q.
Proof.
  intros (pre & junk & Hsrc & Hpos & _) HQ. unfold peek. run. rewrite Hsrc, Hpos.
  eapply runs_need; [|exact HQ]. destruct l as [|c l]; apply arr_get_app.
Qed.

Lemma runs_advance c l s (Q : unit -> calc F -> Prop) : reading (c :: l) s ->
  (forall s', reading l s' -> moved_to s s' -> Q tt s') -> runs advance s Q.
Proof.
  intros (pre & junk & Hsrc & Hpos & Hlen & Hnz) HQ. unfold advance. run. apply HQ; [|by eexists].
  apply Forall_cons in Hnz as [_ Hnz]. exists (pre ++ [c]), junk. cbn. rewrite Hsrc, <- app_assoc. split_and!; [done| | |done].
  - rewrite Hsrc, !length_app in Hlen. cbn [length app] in Hlen. rewrite Hpos, wrap_small, length_app; cbn [length]; lia.
  - by rewrite <- Hsrc.
Qed.

Lemma skip_spaces_ok l : forall fuel s, reading l s -> (length l < fuel)%nat ->
  runs (skip_spaces fuel) s (fun _ s' => reading (span (fun c => c =? 32) l).2 s' /\ moved_to s s').
Proof.
  induction l as [|c l IH]; intros [|fuel] s Hs Hf; cbn in Hf; try lia; cbn [skip_spaces span].
  - run. eapply runs_peek; [exact Hs|]. apply runs_ret. split; [done|apply moved_refl].
  - run. eapply runs_peek; [exact Hs|]. cbn [List.hd]. destruct (c =? 32); cbn [snd].
    + run. eapply runs_advance; [exact Hs|]. intros s1 Hs1 Hm. eapply runs_mono; [apply IH; [done|lia]|].
      intros [] s2 [? ?]. eauto using moved_trans.
    + run. split; [done|apply moved_refl].
Qed.

Lemma int_digits_ok l : forall fuel n s, reading l s -> (length l < fuel)%nat ->
  runs (int_digits fuel n) s (fun v s' => v = int_value n (span is_digit l).1 /\
    reading (span is_digit l).2 s' /\ moved_to s s').
Proof.
  induction l as [|c l IH]; intros [|fuel] n s Hs Hf; cbn in Hf; try lia; cbn [int_digits span].
  - run. eapply runs_peek; [exact Hs|]. apply runs_ret. split_and!; [done|done|apply moved_refl].
  - run. eapply runs_peek; [exact Hs|]. cbn [List.hd]. destruct (is_digit c); cbn [fst snd].
    + run. eapply runs_advance; [exact Hs|]. intros s1 Hs1 Hm. eapply runs_mono; [apply IH; [done|lia]|].
      intros v s2 (-> & ? & ?). eauto using moved_trans.
    + run. split_and!; [done|done|apply moved_refl].
Qed.

Lemma frac_digits_ok l : forall fuel n frac s, reading l s -> (length l < fuel)%nat ->
  runs (frac_digits fuel n frac) s (fun v s' => v = frac_value n frac (span is_digit l).1 /\
    reading (span is_digit l).2 s' /\ moved_to s s').
Proof.
  induction l as [|c l IH]; intros [|fuel] n frac s Hs Hf; cbn in Hf; try lia; cbn [frac_digits span].
  - run. eapply runs_peek; [exact Hs|]. apply runs_ret. split_and!; [done|done|apply moved_refl].
  - run. eapply runs_peek; [exact Hs|]. cbn [List.hd]. destruct (is_digit c); cbn [fst snd].
    + run. eapply runs_advance; [exact Hs|]. intros s1 Hs1 Hm. eapply runs_mono; [apply IH; [done|lia]|].
      intros v s2 (-> & ? & ?). eauto using moved_trans.
    + run. split_and!; [done|done|apply moved_refl].
Qed.

Lemma read_name_ok k : forall l s, reading l s ->
  runs (read_name k) s (fun v s' => v = name_prefix k l /\ reading (drop (length v) l) s' /\ moved_to s s').
Proof.
  induction k as [|k IH]; intros l s Hs; cbn [read_name].
  { run. split_and!; [by destruct l|done|apply moved_refl]. }
  run. eapply runs_peek; [exact Hs|]. destruct l as [|c l]; cbn [List.hd name_prefix].
  { apply runs_ret. split_and!; [done|done|apply moved_refl]. }
  destruct (is_func_char c); run; [|by split_and!; [| |apply moved_refl]].
  eapply runs_advance; [exact Hs|]. intros s1 Hs1 Hm. run. eapply runs_mono; [by apply IH|].
  intros v s2 (-> & Hr & Hm2). run. cbn [length drop]. eauto using moved_trans.
Qed.

(** The current token is [t] with value [v] and the text [l] follows. *)
Record current (t : token_type) (v : option F) (l : list Z) (s : calc F) : Prop := {
  cu_type : tok_type s = t;
  cu_value : forall x, v = Some x -> tok_value s = x;
  cu_text : reading l s }.

Lemma reading_set_type t l s : reading l s -> reading l (set_type t s).
Proof. done. Qed.

Lemma reading_set_num v l s : reading l s -> reading l (set_num v s).
Proof. done. Qed.

Lemma lex_ok l s : reading l s ->
  runs next_token s (fun _ s' => current (lex l).1.1 (lex l).1.2 (lex l).2 s' /\ g_ans s' = g_ans s).
Proof.
  intros Hs. pose proof (reading_length _ _ Hs) as Hlen. unfold next_token, lex. run.
  eapply runs_mono; [by apply skip_spaces_ok|]. intros [] s1 [H1 [p1 ->]].
  set (w := (span _ l).2) in *. pose proof (reading_length _ _ H1) as Hw. cbn in Hw.
  run. eapply runs_peek; [exact H1|]. unfold lex_word. destruct w as [|c r] eqn:Ew; cbn [List.hd].
  { apply runs_modify. split; [by constructor|done]. }
  assert (c <> 0) as Hc by (destruct H1 as (? & ? & _ & _ & _ & Hnz); by apply Forall_cons in Hnz as [? _]).
  destruct (Z.eqb_spec c 0); [done|].
  destruct (is_digit c || (c =? 46)) eqn:Ed.
  - run. eapply runs_mono; [apply int_digits_ok; [exact H1|done]|]. intros num s2 (-> & H2 & [p2 ->]).
    run. eapply runs_peek; [exact H2|]. pose proof (reading_length _ _ H2) as Hw2.
    destruct (span is_digit (c :: r)).2 as [|c' l2] eqn:E2; cbn [List.hd].
    { apply runs_bind, runs_ret. run. split; [by constructor; [|intros x [= <-]|]|done]. }
    destruct (c' =? 46) eqn:Edot; run; cbn [fst snd].
    + eapply runs_advance; [exact H2|]. intros s3 H3 [p3 ->]. eapply runs_mono; [apply frac_digits_ok; [exact H3|exact (Nat.lt_succ_l _ _ Hw2)]|].
      intros v s4 (-> & H4 & [p4 ->]). run. split; [by constructor; [|intros x [= <-]|]|done].
    + split; [by constructor; [|intros x [= <-]|]|done].
  - destruct (is_func_char c) eqn:Ef.
    + run. eapply runs_mono; [by apply read_name_ok|]. intros v s2 (-> & H2 & [p2 ->]).
      destruct (find_name names _) as [t [x|]]; run; cbn [fst snd]; (split; [constructor|]); try done; by intros ? [= <-].
    + run. eapply runs_advance; [exact H1|]. intros s2 H2 [p2 ->]. run. split; [by constructor|done].
Qed.

(** A token is read from at least one character, the end from none. *)
Lemma span_length p l : (length (span p l).1 + length (span p l).2 = length l)%nat.
Proof. induction l as [|c l IH]; cbn; [done|]. destruct (p c); cbn; lia. Qed.

Lemma lex_length l : (length (lex l).2 <= length l)%nat /\
  ((lex l).1.1 <> TOK_END -> (length (lex l).2 < length l)%nat).
Proof.
  unfold lex. pose proof (span_length (fun c => c =? 32) l) as Hs. set (w := (span _ l).2) in *.
  enough ((length (lex_word w).2 <= length w)%nat /\ ((lex_word w).1.1 <> TOK_END -> (length (lex_word w).2 < length w)%nat)) as [? H].
  { split; [lia|]. intros Ht. specialize (H Ht). lia. }
  unfold lex_word. destruct w as [|c r]; [done|].
  pose proof (span_length is_digit (c :: r)) as Hd.
  destruct (is_digit c || (c =? 46)) eqn:Ed.
  - destruct (is_digit c) eqn:Ec.
    + cbn [span] in *. rewrite Ec in *. cbn [fst snd length] in *.
      destruct (span is_digit r).2 as [|c' l2]; cbn [length snd fst] in *; [lia|].
      pose proof (span_length is_digit l2). destruct (c' =? 46); cbn [length snd]; lia.
    + cbn [span] in *. rewrite Ec in *. cbn [fst snd length] in *. rewrite orb_false_l in Ed. rewrite Ed.
      pose proof (span_length is_digit r). cbn [snd]. lia.
  - destruct (is_func_char c) eqn:Ef; cbn [snd length]; [|lia].
    rewrite length_drop. cbn [name_prefix]. rewrite Ef. cbn [length]. lia.
Qed.

End lex.
(** * Expressions *)

Section expressions.
Context {F : Type} {HF : Double F}.
Implicit Types (s : calc F) (l : list Z).

(** The trees the calculator's notation describes: numerals with digits [ip]
    and, after a point, [fp]; constants; the last result; parentheses;
    function calls; signs; binary operations. *)
Inductive expr :=
| Num (ip : list Z) (fp : option (list Z)) | Pi | Euler | Ans | Paren (e : expr)
| Call (f : token_type) (e : expr) | Neg (e : expr) | Pos (e : expr)
| Bin (op : token_type) (x y : expr).

(** Mathematical reading: a value or undefined. *)
Fixpoint eval (ans : F) (e : expr) : option F :=
  match e with
  | Num ip fp => Some (num_value ip fp)
  | Pi => Some (d_lit 3141592653589793 15)
  | Euler => Some (d_lit 2718281828459045 15)
  | Ans => Some ans
  | Paren e => eval ans e
  | Call f e => v ← eval ans e; apply_func f v
  | Neg e => d_opp <$> eval ans e
  | Pos e => eval ans e
  | Bin op x y => a ← eval ans x; b ← eval ans y; apply_binop op a b
  end.

(** How tightly an operator binds; 0 for what is no operator. *)
Definition binding (op : token_type) : Z :=
  match op with
  | TOK_PLUS | TOK_MINUS => 1
  | TOK_MUL | TOK_DIV | TOK_MOD => 2
  | TOK_POW => 3
  | _ => 0
  end.

Lemma get_prec_binding op : 0 < binding op -> get_prec op = binding op.
Proof. by destruct op. Qed.

(** How tightly the tree holds together: 4 without an operator outside
    parentheses, otherwise the precedence of its root. *)
Definition level (e : expr) : Z := match e with Bin op _ _ => binding op | _ => 4 end.

(** The notation needs no more parentheses: the left operand binds at least as
    tightly as the operator, the right operand more tightly, and a sign
    applies to an operand without operators. *)
Fixpoint well_formed (e : expr) : bool :=
  match e with
  | Num ip fp =>
      forallb is_digit ip && forallb is_digit (default [] fp) && (negb (bool_decide (ip = [])) || bool_decide (is_Some fp))
  | Pi | Euler | Ans => true
  | Paren e => well_formed e
  | Call f e => is_func f && well_formed e
  | Neg e | Pos e => (level e =? 4) && well_formed e
  | Bin op x y =>
      (0 <? binding op) && (binding op <=? level x) && (binding op <? level y) && well_formed x && well_formed y
  end.

(** A token: its spelling, type and value. *)
Definition word : Type := list Z * (token_type * option F).

Definition func_name (f : token_type) : list Z :=
  match f with
  | TOK_SIN => text "sin" | TOK_COS => text "cos" | TOK_TAN => text "tan" | TOK_SQRT => text "sqrt"
  | TOK_LOG => text "log" | TOK_LN => text "ln" | TOK_ABS => text "abs" | TOK_FLOOR => text "floor"
  | TOK_CEIL => text "ceil" | _ => []
  end.

Definition op_char (op : token_type) : Z :=
  match op with
  | TOK_PLUS => 43 | TOK_MINUS => 45 | TOK_MUL => 42 | TOK_DIV => 47 | TOK_MOD => 37 | TOK_POW => 94
  | TOK_LPAREN => 40 | TOK_RPAREN => 41 | _ => 0
  end.

Definition sign_word (t : token_type) : word := ([op_char t], (t, None)).

Fixpoint words (e : expr) : list word :=
  match e with
  | Num ip fp => [(ip ++ match fp with Some fp => 46 :: fp | None => [] end, (TOK_NUM, Some (num_value ip fp)))]
  | Pi => [(text "pi", (TOK_NUM, Some (d_lit 3141592653589793 15)))]
  | Euler => [(text "e", (TOK_NUM, Some (d_lit 2718281828459045 15)))]
  | Ans => [(text "ans", (TOK_ANS, None))]
  | Paren e => sign_word TOK_LPAREN :: words e ++ [sign_word TOK_RPAREN]
  | Call f e => (func_name f, (f, None)) :: sign_word TOK_LPAREN :: words e ++ [sign_word TOK_RPAREN]
  | Neg e => sign_word TOK_MINUS :: words e
  | Pos e => sign_word TOK_PLUS :: words e
  | Bin op x y => words x ++ sign_word op :: words y
  end.

(** A line: the words with any number of spaces before each and at the end. *)
Definition layout (gaps : list nat) (ws : list word) (trail : nat) : list Z :=
  concat (zip_with (fun n w => replicate n 32 ++ w.1) gaps ws) ++ replicate trail 32.

(** The text [l] consists of the tokens [ts]. *)
Fixpoint lexes (l : list Z) (ts : list (token_type * option F)) : Prop :=
  match ts with
  | [] => (lex l).1.1 = TOK_END
  | tv :: ts => (lex l).1 = tv /\ lexes (lex l).2 ts
  end.

(** The tokens still to be parsed, the current one first. *)
Definition stream (ts : list (token_type * option F)) s : Prop :=
  match ts with
  | [] => tok_type s = TOK_END
  | (t, v) :: ts => exists l, current t v l s /\ lexes l ts
  end.

Definition first_type (ts : list (token_type * option F)) : token_type :=
  match ts with [] => TOK_END | tv :: _ => tv.1 end.

Lemma stream_type ts s : stream ts s -> tok_type s = first_type ts.
Proof. destruct ts as [|[t v] ts]; [done|]. by intros (l & [] & _). Qed.

Lemma stream_next tv ts s (Q : unit -> calc F -> Prop) : stream (tv :: ts) s ->
  (forall s', stream ts s' -> g_ans s' = g_ans s -> Q tt s') -> runs next_token s Q.
Proof.
  destruct tv as [t v]. intros (l & Hc & Hl) HQ. eapply runs_mono; [apply lex_ok, Hc|].
  intros [] s' [Hc' Ha]. apply HQ; [|done]. destruct ts as [|[t' v'] ts]; cbn [lexes stream] in *.
  - rewrite <- Hl. apply Hc'.
  - destruct Hl as [Hl Hr]. exists (lex l).2. by rewrite Hl in Hc'.
Qed.

(** * More fuel changes nothing *)

Definition below {A} (m m' : prog (calc F) A) : Prop := forall s r, m s = Some r -> m' s = Some r.

Lemma below_refl {A} (m : prog (calc F) A) : below m m.
Proof. by intros s r. Qed.

Lemma below_bind {A B} (m m' : prog (calc F) A) (k k' : A -> prog (calc F) B) :
  below m m' -> (forall a, below (k a) (k' a)) -> below (m ≫= k) (m' ≫= k').
Proof.
  intros Hm Hk s r. unfold mbind, prog_bind. destruct (m s) as [[a s']|] eqn:E; [|done].
  rewrite (Hm _ _ E). apply Hk.
Qed.

Lemma below_vbind {A} (m m' : prog (calc F) (option A)) k k' :
  below m m' -> (forall a, below (k a) (k' a)) -> below (vbind m k) (vbind m' k').
Proof. intros Hm Hk. apply below_bind; [done|]. intros [a|]; [apply Hk|apply below_refl]. Qed.

Lemma parse_primary_S fuel : parse_primary (S fuel) =
  (t ← gets tok_type;
   if decide (t = TOK_NUM) then v ← gets tok_value; _ ← next_token; mret (Some v)
   else if decide (t = TOK_ANS) then _ ← next_token; v ← gets g_ans; mret (Some v)
   else if decide (t = TOK_LPAREN) then
     _ ← next_token; vbind (parse_expr fuel 0) (fun v => _ ← accept TOK_RPAREN; mret (Some v))
   else if is_func t then
     _ ← next_token; _ ← accept TOK_LPAREN;
     vbind (parse_expr fuel 0) (fun arg => _ ← accept TOK_RPAREN; mret (apply_func t arg))
   else if decide (t = TOK_MINUS) then _ ← next_token; vbind (parse_primary fuel) (fun v => mret (Some (d_opp v)))
   else if decide (t = TOK_PLUS) then _ ← next_token; parse_primary fuel
   else mret (Some d0)) :> prog (calc F) (option F).
Proof. done. Qed.

Lemma parse_expr_S fuel p : parse_expr (S fuel) p = vbind (parse_primary fuel) (parse_loop fuel p).
Proof. done. Qed.

Lemma parse_loop_S fuel p lhs : parse_loop (S fuel) p lhs =
  (op ← gets tok_type;
   if p <=? get_prec op then
     _ ← next_token;
     vbind (parse_expr fuel (get_prec op + 1)) (fun rhs =>
     vbind (mret (apply_binop op lhs rhs)) (parse_loop fuel p))
   else mret (Some lhs)).
Proof. done. Qed.

Lemma parse_more fuel :
  below (parse_primary fuel) (parse_primary (S fuel)) /\
  (forall p, below (parse_expr fuel p) (parse_expr (S fuel) p)) /\
  (forall p v, below (parse_loop fuel p v) (parse_loop (S fuel) p v)).
Proof.
  induction fuel as [|fuel (IHp & IHe & IHl)]; [by split_and!|]. split_and!.
  - rewrite (parse_primary_S (S fuel)), (parse_primary_S fuel). apply below_bind; [apply below_refl|]. intros t.
    repeat first [apply below_refl | apply IHp | apply IHe | case_decide
                 | match goal with |- below (if is_func ?t then _ else _) _ => destruct (is_func t) end
                 | apply below_vbind | apply below_bind
                 | match goal with |- forall _, below _ _ => intros ? end].
  - intros p. rewrite (parse_expr_S (S fuel)), (parse_expr_S fuel). apply below_vbind; [apply IHp|]. intros. apply IHl.
  - intros p v. rewrite (parse_loop_S (S fuel)), (parse_loop_S fuel). apply below_bind; [apply below_refl|]. intros op.
    destruct (p <=? get_prec op); [|apply below_refl]. apply below_bind; [apply below_refl|]. intros [].
    apply below_vbind; [apply IHe|]. intros rhs. apply below_vbind; [apply below_refl|]. intros. apply IHl.
Qed.

Lemma below_le {A} (P : nat -> prog (calc F) A) :
  (forall n, below (P n) (P (S n))) -> forall n m, (n <= m)%nat -> below (P n) (P m).
Proof. intros HP n m Hle. induction Hle as [|m Hle IH]; [apply below_refl|]. intros s r H. by apply HP, IH. Qed.

Lemma primary_le n m : (n <= m)%nat -> below (parse_primary n) (parse_primary m).
Proof. apply (below_le parse_primary). intros k. apply (parse_more k). Qed.
Lemma expr_le p n m : (n <= m)%nat -> below (parse_expr n p) (parse_expr m p).
Proof. apply (below_le (fun n => parse_expr n p)). intros k. apply (parse_more k). Qed.
Lemma loop_le p v n m : (n <= m)%nat -> below (parse_loop n p v) (parse_loop m p v).
Proof. apply (below_le (fun n => parse_loop n p v)). intros k. apply (parse_more k). Qed.

End expressions.
Section parser.
Context {F : Type} {HF : Double F}.
Implicit Types (s : calc F).

Definition tokens (e : expr) : list (token_type * option F) := (words e).*2.

(** Some amount of fuel makes [P] return [v] in [s']. *)
Definition yields (P : nat -> prog (calc F) (option F)) s (v : F) s' : Prop := exists n, P n s = Some (Some v, s').

Lemma accept_ok t v ts s : stream ((t, v) :: ts) s ->
  runs (accept t) s (fun _ s' => stream ts s' /\ g_ans s' = g_ans s).
Proof.
  intros Hs. unfold accept. run. rewrite (stream_type _ _ Hs). cbn [first_type fst].
  rewrite decide_True by done. eapply stream_next; [exact Hs|]. done.
Qed.

(** The loop stops at a token of lower precedence. *)
Lemma loop_stops p v s : get_prec (tok_type s) < p -> yields (fun n => parse_loop n p v) s v s.
Proof.
  intros Hp. exists 1%nat. rewrite parse_loop_S. unfold mbind, prog_bind, gets.
  by rewrite (proj2 (Z.leb_gt _ _) Hp).
Qed.

Lemma primary_then_loop p v w s s1 s2 : yields parse_primary s v s1 ->
  yields (fun n => parse_loop n p v) s1 w s2 -> yields (fun n => parse_expr n p) s w s2.
Proof.
  intros [n Hn] [m Hm]. exists (S (n + m)). rewrite parse_expr_S. unfold vbind, mbind, prog_bind.
  rewrite (primary_le n (n + m) ltac:(lia) _ _ Hn). by rewrite (loop_le _ _ m (n + m) ltac:(lia) _ _ Hm).
Qed.

(** One round of the loop. *)
Lemma loop_round p op lhs rhs v w s s1 s2 s3 : tok_type s = op -> p <= get_prec op ->
  next_token s = Some (tt, s1) -> yields (fun n => parse_expr n (get_prec op + 1)) s1 rhs s2 ->
  apply_binop op lhs rhs = Some v -> yields (fun n => parse_loop n p v) s2 w s3 ->
  yields (fun n => parse_loop n p lhs) s w s3.
Proof.
  intros Ht Hp Hn [n Hr] Hv [m Hm]. exists (S (n + m)). rewrite parse_loop_S. unfold vbind, mbind, prog_bind, gets.
  rewrite Ht, (proj2 (Z.leb_le _ _) Hp), Hn, (expr_le _ n (n + m) ltac:(lia) _ _ Hr), Hv.
  unfold mret, prog_ret. by rewrite (loop_le _ _ m (n + m) ltac:(lia) _ _ Hm).
Qed.

(** Parsing an operand, and parsing an expression up to the operator that
    follows it. *)
Definition parses_operand (e : expr) : Prop := forall v rest s, eval (g_ans s) e = Some v ->
  stream (tokens e ++ rest) s ->
  exists s1, yields parse_primary s v s1 /\ stream rest s1 /\ g_ans s1 = g_ans s.

Definition parses_expression (e : expr) : Prop := forall p v rest s, eval (g_ans s) e = Some v ->
  stream (tokens e ++ rest) s -> get_prec (first_type rest) <= level e -> 0 <= p <= level e ->
  exists s1, stream rest s1 /\ g_ans s1 = g_ans s /\
    forall w s2, yields (fun n => parse_loop n p v) s1 w s2 -> yields (fun n => parse_expr n p) s w s2.

Lemma operand_expression e : parses_operand e -> parses_expression e.
Proof.
  intros He p v rest s Hv Hs _ _. destruct (He v rest s Hv Hs) as (s1 & Hy & Hr & Ha).
  exists s1. split_and!; [done|done|]. intros w s2. by apply primary_then_loop.
Qed.

(** An expression in parentheses, up to the closing one. *)
Lemma parenthesised e v rest s : parses_expression e -> 0 <= level e -> eval (g_ans s) e = Some v ->
  stream (tokens e ++ (TOK_RPAREN, None) :: rest) s ->
  exists s1 s2, yields (fun n => parse_expr n 0) s v s1 /\ accept TOK_RPAREN s1 = Some (tt, s2) /\
    stream rest s2 /\ g_ans s2 = g_ans s.
Proof.
  intros He Hlev Hv Hs. destruct (He 0 v _ s Hv Hs) as (s1 & H1 & Ha & Hy); [cbn; lia|lia|].
  destruct (accept_ok _ _ _ _ H1) as ([] & s2 & Hacc & H2 & Ha2). exists s1, s2. split_and!; [|done|done|congruence].
  apply Hy, loop_stops. rewrite (stream_type _ _ H1). cbn. lia.
Qed.

Lemma stream_step tv ts s : stream (tv :: ts) s ->
  exists s', next_token s = Some (tt, s') /\ stream ts s' /\ g_ans s' = g_ans s.
Proof.
  intros Hs. destruct (stream_next tv ts s (fun _ s' => stream ts s' /\ g_ans s' = g_ans s) Hs) as ([] & s' & H1 & H2 & H3); [done|].
  eauto.
Qed.

(** Entering [parse_primary] on a given token. *)
Ltac enter Hs := rewrite parse_primary_S; unfold vbind, mbind, prog_bind, gets; rewrite (stream_type _ _ Hs);
  cbn [first_type fst snd].

Lemma level_nonneg e : well_formed e = true -> 0 <= level e.
Proof. destruct e; cbn [level well_formed]; lia. Qed.

Lemma number_operand e v0 : tokens e = [(TOK_NUM, Some v0)] -> (forall a, eval a e = Some v0) -> parses_operand e.
Proof.
  intros Ht He v rest s Hv Hs. rewrite Ht in Hs. rewrite He in Hv. simplify_eq. cbn [app] in Hs.
  destruct (stream_step _ _ _ Hs) as (s1 & Hn & H1 & Ha). exists s1. split_and!; [|done|done].
  exists 1%nat. enter Hs. rewrite decide_True, Hn by done. destruct Hs as (l & [_ Hval _] & _). by rewrite (Hval v).
Qed.

Lemma ans_operand : parses_operand Ans.
Proof.
  intros v rest s [= <-] Hs. cbn [tokens words fmap list_fmap app] in Hs.
  destruct (stream_step _ _ _ Hs) as (s1 & Hn & H1 & Ha). exists s1. split_and!; [|done|done].
  exists 1%nat. enter Hs. rewrite decide_False, decide_True, Hn by done. by rewrite Ha.
Qed.

Lemma paren_operand e : parses_expression e -> 0 <= level e -> parses_operand (Paren e).
Proof.
  intros He Hlev v rest s Hv Hs. unfold tokens in Hs. cbn [words] in Hs.
  rewrite fmap_cons, fmap_app in Hs. cbn [app fmap list_fmap] in Hs. rewrite <- app_assoc in Hs.
  destruct (stream_step _ _ _ Hs) as (s1 & Hn & H1 & Ha).
  destruct (parenthesised e v rest s1 He Hlev) as (s2 & s3 & [n Hy] & Hacc & H3 & Ha3); [by rewrite Ha|done|].
  exists s3. split_and!; [|done|congruence]. exists (S n). enter Hs.
  rewrite !decide_False, decide_True, Hn, Hy, Hacc by done. done.
Qed.

Lemma call_operand f e : is_func f = true -> parses_expression e -> 0 <= level e -> parses_operand (Call f e).
Proof.
  intros Hf He Hlev v rest s Hv Hs. unfold tokens in Hs. cbn [words] in Hs.
  rewrite !fmap_cons, fmap_app in Hs. cbn [app fmap list_fmap] in Hs. rewrite <- app_assoc in Hs.
  cbn [eval] in Hv. apply bind_Some in Hv as (a & Hev & Hfv).
  destruct (stream_step _ _ _ Hs) as (s1 & Hn & H1 & Ha).
  destruct (accept_ok _ _ _ _ H1) as ([] & s2 & Hlp & H2 & Ha2).
  destruct (parenthesised e a rest s2 He Hlev) as (s3 & s4 & [n Hy] & Hacc & H4 & Ha4); [by rewrite Ha2, Ha|done|].
  exists s4. split_and!; [|done|congruence]. exists (S n). enter Hs.
  rewrite !decide_False by (by intros ->). rewrite Hf, Hn, Hlp, Hy, Hacc. unfold mret, prog_ret. by rewrite Hfv.
Qed.

Lemma neg_operand e : parses_operand e -> parses_operand (Neg e).
Proof.
  intros He v rest s Hv Hs. unfold tokens in Hs. cbn [words] in Hs. rewrite fmap_cons in Hs. cbn [app] in Hs.
  cbn [eval] in Hv. apply fmap_Some in Hv as (a & Hev & ->).
  destruct (stream_step _ _ _ Hs) as (s1 & Hn & H1 & Ha).
  destruct (He a rest s1) as (s2 & [n Hy] & H2 & Ha2); [by rewrite Ha|done|].
  exists s2. split_and!; [|done|congruence]. exists (S n). enter Hs. cbn [sign_word snd fst is_func].
  rewrite !decide_False, decide_True, Hn, Hy by done. done.
Qed.

Lemma pos_operand e : parses_operand e -> parses_operand (Pos e).
Proof.
  intros He v rest s Hv Hs. unfold tokens in Hs. cbn [words] in Hs. rewrite fmap_cons in Hs. cbn [app] in Hs.
  cbn [eval] in Hv. destruct (stream_step _ _ _ Hs) as (s1 & Hn & H1 & Ha).
  destruct (He v rest s1) as (s2 & [n Hy] & H2 & Ha2); [by rewrite Ha|done|].
  exists s2. split_and!; [|done|congruence]. exists (S n). enter Hs. cbn [sign_word snd fst is_func].
  rewrite !decide_False, decide_True, Hn by done. exact Hy.
Qed.

Lemma bin_expression op x y : 0 < binding op <= level x -> binding op < level y ->
  parses_expression x -> parses_expression y -> parses_expression (Bin op x y).
Proof.
  intros Hx Hy IHx IHy p v rest s Hv Hs Hrest Hp. cbn [level] in *. pose proof (get_prec_binding op ltac:(lia)) as Hprec.
  rewrite <- Hprec in *. unfold tokens in Hs. cbn [words] in Hs.
  rewrite fmap_app, fmap_cons, <- app_assoc in Hs. cbn [app sign_word snd] in Hs.
  cbn [eval] in Hv. apply bind_Some in Hv as (a & Hea & Hv). apply bind_Some in Hv as (b & Heb & Hv).
  destruct (IHx p a _ s Hea Hs) as (s1 & H1 & Ha1 & K1); [cbn; lia|lia|].
  destruct (stream_step _ _ _ H1) as (s2 & Hn & H2 & Ha2).
  destruct (IHy (get_prec op + 1) b rest s2) as (s3 & H3 & Ha3 & K3); [by rewrite Ha2, Ha1|done|lia|lia|].
  exists s3. split_and!; [done|congruence|]. intros w s4 Hw. apply K1.
  eapply (loop_round p op a b v w s1 s2 s3 s4); [apply (stream_type _ _ H1)|lia|done| |done|done].
  apply K3, loop_stops. rewrite (stream_type _ _ H3). lia.
Qed.

Lemma parser_ok e : well_formed e = true -> parses_expression e /\ (level e = 4 -> parses_operand e).
Proof.
  assert (forall e, parses_operand e -> parses_expression e /\ (level e = 4 -> parses_operand e)) as Hop.
  { intros e0 He. split; [by apply operand_expression|done]. }
  induction e as [ip fp| | | |e IH|f e IH|e IH|e IH|op x IHx y IHy]; cbn [well_formed]; intros Hwf.
  - eapply Hop, number_operand; done.
  - eapply Hop, number_operand; done.
  - eapply Hop, number_operand; done.
  - apply Hop, ans_operand.
  - apply Hop, paren_operand; [by apply IH|by apply level_nonneg].
  - zbool. apply Hop, call_operand; [done|by apply IH|by apply level_nonneg].
  - zbool. by apply Hop, neg_operand, IH.
  - zbool. by apply Hop, pos_operand, IH.
  - zbool. split; [|by destruct op]. apply bin_expression; [lia|lia|by apply IHx|by apply IHy].
Qed.
End parser.
(** * Lines *)

Section lines.
Context {F : Type} {HF : Double F}.
Implicit Types (s : calc F) (w : word (F := F)).

(** A word that the tokenizer reads as the token it stands for. *)
Inductive spelled : word (F := F) -> Prop :=
| spelled_num ip fp : forallb is_digit ip = true -> forallb is_digit (default [] fp) = true ->
    ip <> [] \/ is_Some fp ->
    spelled (ip ++ match fp with Some fp => 46 :: fp | None => [] end, (TOK_NUM, Some (num_value ip fp)))
| spelled_name r : r ∈ names -> spelled r
| spelled_sign t : op_char t <> 0 -> spelled (sign_word t).

(** Numbers and names have to be kept apart. *)
Definition wordy (t : token_type) : bool := match t with TOK_NUM | TOK_ANS => true | t => is_func t end.

(** A character that can continue neither a number nor a name. *)
Definition breaks (l : list Z) : Prop :=
  match l with [] => True | c :: _ => is_digit c = false /\ c <> 46 /\ is_func_char c = false end.

Lemma span_app p l r : forallb p l = true -> match r with [] => True | c :: _ => p c = false end -> span p (l ++ r) = (l, r).
Proof.
  intros Hl Hr. induction l as [|c l IH]; cbn [app span].
  - destruct r as [|c r]; [done|]. cbn [span]. by rewrite Hr.
  - cbn in Hl. apply andb_true_iff in Hl as [-> Hl]. by rewrite IH.
Qed.

Lemma lex_spaces n l : lex (replicate n 32 ++ l) = lex (F := F) l.
Proof. induction n as [|n IH]; [done|]. unfold lex in *. cbn [replicate app span Z.eqb]. exact IH. Qed.

(** [lex] of a text that does not start with a space. *)
Lemma lex_start c l : c <> 32 -> lex (F := F) (c :: l) = lex_word (c :: l).
Proof. intros Hc. unfold lex. cbn [span]. by rewrite (proj2 (Z.eqb_neq _ _) Hc). Qed.

Lemma digit_class c : is_digit c = true -> c <> 32 /\ c <> 46 /\ c <> 0.
Proof. unfold is_digit. intros. lia. Qed.

Lemma lex_number ip fp rest : forallb is_digit ip = true -> forallb is_digit (default [] fp) = true ->
  ip <> [] \/ is_Some fp -> breaks rest ->
  lex ((ip ++ match fp with Some fp => 46 :: fp | None => [] end) ++ rest) = (TOK_NUM, Some (num_value ip fp), rest) :> _ * option F * _.
Proof.
  intros Hip Hfp Hne Hrest. rewrite <- app_assoc. set (tl := match fp with Some fp => 46 :: fp | None => [] end ++ rest).
  assert (Hsp : span is_digit (ip ++ tl) = (ip, tl)).
  { apply span_app; [done|]. unfold tl. destruct fp as [fp|]; [done|]. destruct rest; [done|apply Hrest]. }
  assert (exists c l, ip ++ tl = c :: l /\ c <> 32 /\ is_digit c || (c =? 46) = true) as (c & l & Hcl & Hc & Hd).
  { destruct ip as [|c ip].
    - destruct fp as [fp|]; [by eexists 46, _|]. by destruct Hne as [|[? ?]].
    - cbn in Hip. apply andb_true_iff in Hip as [Hc _]. eexists c, _. split_and!; [done|by apply digit_class|by rewrite Hc]. }
  rewrite Hcl in *. rewrite lex_start by done. unfold lex_word. rewrite Hd, Hsp. cbn [fst snd]. unfold tl.
  destruct fp as [fp|]; cbn [app].
  - rewrite Z.eqb_refl, span_app; [done|done|]. destruct rest; [done|apply Hrest].
  - destruct rest as [|c' rest]; [done|]. destruct Hrest as (_ & H46 & _). by rewrite (proj2 (Z.eqb_neq _ _) H46).
Qed.

Lemma name_prefix_app k nm rest : (length nm < k)%nat -> forallb is_func_char nm = true -> breaks rest ->
  name_prefix k (nm ++ rest) = nm.
Proof.
  revert nm. induction k as [|k IH]; intros nm Hk Hnm Hr; [lia|]. destruct nm as [|c nm]; cbn [app name_prefix].
  - destruct rest as [|c rest]; [done|]. by destruct Hr as (_ & _ & ->).
  - cbn in Hnm, Hk. apply andb_true_iff in Hnm as [-> Hnm]. rewrite IH; [done|lia|done|done].
Qed.

(** The names consist of letters, and looking one up finds it. *)
Lemma names_ok r : r ∈ names (F := F) ->
  (0 < length r.1 < 15)%nat /\ forallb is_func_char r.1 = true /\ find_name names r.1 = r.2 /\
  r.2.1 = match r.2.2 with Some _ => TOK_NUM | None => r.2.1 end /\ wordy r.2.1 = true.
Proof. unfold names. rewrite !elem_of_cons, elem_of_nil. intros Hr. destruct_or!; subst; try done; split_and!; try reflexivity; cbn; lia. Qed.

Lemma func_char_class c : is_func_char c = true -> c <> 32 /\ is_digit c || (c =? 46) = false.
Proof. unfold is_func_char, is_digit. intros. lia. Qed.

Lemma lex_name r rest : r ∈ names -> breaks rest -> lex (r.1 ++ rest) = (r.2, rest) :> _ * option F * _.
Proof.
  intros Hr Hrest. destruct (names_ok r Hr) as ([Hp Hk] & Hch & Hf & Ht & _). destruct r as [nm [t v]]. cbn [fst snd] in *.
  destruct nm as [|c nm]; [cbn in Hp; lia|]. cbn [app]. pose proof Hch as [Hc _]%andb_true_iff.
  destruct (func_char_class c Hc) as [Hsp Hnd]. rewrite lex_start by done. unfold lex_word. rewrite Hnd, Hc.
  change (c :: nm ++ rest) with ((c :: nm) ++ rest). rewrite name_prefix_app by (done || lia). rewrite Hf. cbn [fst snd].
  rewrite drop_app_length. by rewrite <- Ht.
Qed.

Lemma lex_sign t rest : op_char t <> 0 -> lex (op_char t :: rest) = (t, None, rest) :> _ * option F * _.
Proof. by destruct t. Qed.

Lemma lex_spelled w rest : spelled w -> (wordy w.2.1 = true -> breaks rest) -> lex (w.1 ++ rest) = (w.2, rest).
Proof.
  intros Hw Hb. destruct Hw as [ip fp Hip Hfp Hne|r Hr|t Ht]; cbn [fst snd] in *.
  - apply lex_number; auto.
  - apply lex_name; [done|]. apply Hb. by apply names_ok.
  - by apply lex_sign.
Qed.

(** No two numbers or names next to each other. *)
Fixpoint apart (ws : list (word (F := F))) : Prop :=
  match ws with
  | w :: (w' :: _) as ws => (wordy w.2.1 = true -> wordy w'.2.1 = false) /\ apart ws
  | _ => True
  end.

Lemma sign_breaks w rest : spelled w -> wordy w.2.1 = false -> breaks (w.1 ++ rest).
Proof. intros [| r Hr|t Ht] Hw; [done| |by destruct t]. by rewrite (proj2 (proj2 (proj2 (proj2 (names_ok r Hr))))) in Hw. Qed.

Lemma layout_lexes ws : forall gaps trail, length gaps = length ws -> Forall spelled ws -> apart ws ->
  lexes (layout gaps ws trail) ws.*2.
Proof.
  induction ws as [|w ws IH]; intros gaps trail Hlen Hsp Hap.
  { destruct gaps; [|done]. unfold layout. cbn [zip_with concat app lexes fmap list_fmap].
    rewrite <- (app_nil_r (replicate trail 32)), lex_spaces. done. }
  destruct gaps as [|n gaps]; [done|]. apply Forall_cons in Hsp as [Hw Hsp].
  assert (layout (n :: gaps) (w :: ws) trail = replicate n 32 ++ w.1 ++ layout gaps ws trail) as ->.
  { unfold layout. cbn [zip_with concat]. by rewrite <- !app_assoc. }
  rewrite fmap_cons. cbn [lexes]. rewrite lex_spaces, lex_spelled; [split; [done|]| |].
  - cbn [snd]. apply IH; [by injection Hlen|done|]. destruct ws; [done|apply Hap].
  - done.
  - intros Hwd. destruct ws as [|w' ws]; [by destruct gaps, trail|]. destruct gaps as [|[|n'] gaps]; [done| |done].
    apply Forall_cons in Hsp as [Hw' _]. unfold layout. cbn [zip_with concat replicate app]. rewrite <- app_assoc.
    apply sign_breaks; [done|]. by apply Hap.
Qed.

Lemma apart_app a w b : wordy w.2.1 = false -> apart a -> apart b -> apart (a ++ w :: b).
Proof.
  intros Hw Ha Hb. induction a as [|x a IH]; cbn [app].
  - destruct b as [|y b]; [done|]. split; [congruence|done].
  - destruct a as [|y a]; cbn [app] in *.
    + split; [done|]. by apply IH.
    + destruct Ha as [Hxy Ha]. split; [done|]. by apply IH.
Qed.

Lemma words_ok e : well_formed e = true -> Forall spelled (words e) /\ apart (words e).
Proof.
  assert (Hsign : forall t, op_char t <> 0 -> wordy t = false /\ spelled (sign_word t)).
  { intros t Ht. split; [by destruct t|by apply spelled_sign]. }
  assert (Hname : forall r, r ∈ names -> Forall spelled [r] /\ apart [r]).
  { intros r Hr. split; [|done]. by apply Forall_singleton, spelled_name. }
  induction e as [ip fp| | | |e IH|f e IH|e IH|e IH|op x IHx y IHy]; cbn [well_formed words]; intros Hwf.
  - apply andb_true_iff in Hwf as [[Hip Hfp]%andb_true_iff Hne]. split; [|done]. constructor; [|done]. apply spelled_num; [done|done|].
    apply orb_true_iff in Hne as [Hne|Hne]; [left|right; by apply bool_decide_eq_true in Hne].
    by apply negb_true_iff, bool_decide_eq_false in Hne.
  - apply Hname. unfold names. rewrite !elem_of_cons. tauto.
  - apply Hname. unfold names. rewrite !elem_of_cons. tauto.
  - apply Hname. unfold names. rewrite !elem_of_cons. tauto.
  - destruct (IH Hwf) as [Hs Ha]. split; [|apply (apart_app []); [done|done|]; by apply apart_app].
    apply Forall_cons. split; [by apply Hsign|]. apply Forall_app. split; [done|]. apply Forall_singleton. by apply Hsign.
  - apply andb_true_iff in Hwf as [Hf Hwf]. destruct (IH Hwf) as [Hs Ha]. split.
    + apply Forall_cons. split.
      { apply spelled_name. unfold names. rewrite !elem_of_cons. destruct f; try done; cbn [func_name]; tauto. }
      apply Forall_cons. split; [by apply Hsign|]. apply Forall_app. split; [done|]. apply Forall_singleton. by apply Hsign.
    + apply (apart_app [_]); [done|done|]. by apply apart_app.
  - apply andb_true_iff in Hwf as [_ Hwf]. destruct (IH Hwf) as [Hs Ha]. split; [|by apply (apart_app [])].
    apply Forall_cons. split; [by apply Hsign|done].
  - apply andb_true_iff in Hwf as [_ Hwf]. destruct (IH Hwf) as [Hs Ha]. split; [|by apply (apart_app [])].
    apply Forall_cons. split; [by apply Hsign|done].
  - zbool. destruct IHx as [Hsx Hax]; [done|]. destruct IHy as [Hsy Hay]; [done|].
    assert (op_char op <> 0) as Hop by (by destruct op). destruct (Hsign op Hop). split; [|by apply apart_app].
    apply Forall_app. split; [done|]. by apply Forall_cons.
Qed.
End lines.
(** * Every line is evaluated *)

Section total.
Context {F : Type} {HF : Double F}.
Implicit Types (s : calc F).

(** At most [m] tokens are left, the current one included. *)
Definition left_at_most (m : nat) s : Prop :=
  exists t v l, current t v l s /\ (length l + (if decide (t = TOK_END) then 0 else 1) <= m)%nat.

Lemma left_mono m n s : left_at_most m s -> (m <= n)%nat -> left_at_most n s.
Proof. intros (t & v & l & Hc & Hm) Hn. exists t, v, l. split; [done|lia]. Qed.

Lemma left_next m s (Q : unit -> calc F -> Prop) : left_at_most m s -> tok_type s <> TOK_END ->
  (forall m' s', m = S m' -> left_at_most m' s' -> Q tt s') -> runs next_token s Q.
Proof.
  intros (t & v & l & Hc & Hm) Ht HQ. eapply runs_mono; [apply lex_ok, Hc|]. intros [] s' [Hc' _].
  rewrite (cu_type _ _ _ _ Hc) in Ht. rewrite decide_False in Hm by done. destruct m as [|m]; [lia|].
  apply (HQ m); [done|]. eexists _, _, _. split; [exact Hc'|]. destruct (lex_length (F := F) l) as [H1 H2].
  case_decide; [lia|]. specialize (H2 ltac:(done)). lia.
Qed.

Lemma left_accept m t s : left_at_most m s -> t <> TOK_END -> runs (accept t) s (fun _ => left_at_most m).
Proof.
  intros Hs Ht. unfold accept. run. case_decide as Hd; [|by apply runs_ret].
  eapply left_next; [exact Hs|congruence|]. intros m' s' -> Hs'. eapply left_mono; [done|lia].
Qed.

Lemma runs_vbind {A} (m : prog (calc F) (option A)) k s (I : calc F -> Prop) :
  runs m s (fun _ => I) -> (forall a s', I s' -> runs (k a) s' (fun _ => I)) -> runs (vbind m k) s (fun _ => I).
Proof.
  intros Hm Hk. unfold vbind. run. eapply runs_mono; [exact Hm|]. intros [a|] s' Hs'; [by apply Hk|by apply runs_ret].
Qed.

(** The three functions return with this much fuel. *)
Definition total_at (fuel : nat) : Prop :=
  (forall m s, left_at_most m s -> (2 * m + 1 <= fuel)%nat -> runs (parse_primary fuel) s (fun _ => left_at_most m)) /\
  (forall m p s, 0 <= p -> left_at_most m s -> (2 * m + 2 <= fuel)%nat -> runs (parse_expr fuel p) s (fun _ => left_at_most m)) /\
  (forall m p v s, 0 <= p -> left_at_most m s -> (2 * m + 1 <= fuel)%nat -> runs (parse_loop fuel p v) s (fun _ => left_at_most m)).

Lemma primary_total fuel m s : total_at fuel -> left_at_most m s -> (2 * m + 1 <= S fuel)%nat ->
  runs (parse_primary (S fuel)) s (fun _ => left_at_most m).
Proof.
  intros (IHp & IHe & _) Hs Hf. rewrite parse_primary_S. run.
  assert (Hnext : forall k : prog (calc F) (option F), tok_type s <> TOK_END ->
    (forall m' s', m = S m' -> left_at_most m' s' -> runs k s' (fun _ => left_at_most m')) ->
    runs (_ ← next_token; k) s (fun _ => left_at_most m)).
  { intros k Ht Hk. run. eapply left_next; [exact Hs|done|]. intros m' s' -> Hs'.
    eapply runs_mono; [by apply Hk|]. intros ? ? H. eapply left_mono; [exact H|lia]. }
  assert (Hparen : forall m' s' (k : F -> option F), m = S m' -> left_at_most m' s' ->
    runs (vbind (parse_expr fuel 0) (fun v => _ ← accept TOK_RPAREN; mret (k v))) s' (fun _ => left_at_most m')).
  { intros m' s' k -> Hs'. apply runs_vbind; [apply IHe; [lia|done|lia]|]. intros a s2 H2. run.
    eapply runs_mono; [by apply left_accept|]. intros [] s3 H3. by apply runs_ret. }
  destruct (decide (tok_type s = TOK_NUM)) as [E|_]; [apply runs_bind, runs_gets, Hnext; [by rewrite E|]; intros; by apply runs_ret|].
  destruct (decide (tok_type s = TOK_ANS)) as [E|_]; [apply Hnext; [by rewrite E|]; intros; by run|].
  destruct (decide (tok_type s = TOK_LPAREN)) as [E|_]; [apply Hnext; [by rewrite E|]; intros; by apply Hparen|].
  destruct (is_func (tok_type s)) eqn:Ef.
  { apply Hnext; [by intros E; rewrite E in Ef|]. intros m' s' Hm Hs'. run. eapply runs_mono; [by apply left_accept|].
    intros [] s2 H2. by apply Hparen. }
  destruct (decide (tok_type s = TOK_MINUS)) as [E|_].
  { apply Hnext; [by rewrite E|]. intros m' s' -> Hs'. apply runs_vbind; [apply IHp; [done|lia]|]. intros. by apply runs_ret. }
  destruct (decide (tok_type s = TOK_PLUS)) as [E|_]; [|by apply runs_ret].
  apply Hnext; [by rewrite E|]. intros m' s' -> Hs'. apply IHp; [done|lia].
Qed.

Lemma loop_total fuel m p v s : total_at fuel -> 0 <= p -> left_at_most m s -> (2 * m + 1 <= S fuel)%nat ->
  runs (parse_loop (S fuel) p v) s (fun _ => left_at_most m).
Proof.
  intros (_ & IHe & IHl) Hp Hs Hf. rewrite parse_loop_S. run.
  destruct (Z.leb_spec p (get_prec (tok_type s))) as [Hle|]; [|by apply runs_ret].
  run. eapply left_next; [exact Hs|intros E; rewrite E in Hle; cbn in Hle; lia|]. intros m' s1 -> H1.
  eapply runs_mono; [|intros ? ? H; eapply left_mono; [exact H|apply Nat.le_succ_diag_r]].
  apply runs_vbind; [apply IHe; [lia|done|lia]|]. intros rhs s2 H2.
  apply runs_vbind; [by apply runs_ret|]. intros a s3 H3. apply IHl; [done|done|lia].
Qed.

Lemma parse_total fuel : total_at fuel.
Proof.
  induction fuel as [|fuel IH]; [split_and!; intros; lia|]. split_and!.
  - intros. by apply primary_total.
  - intros m p s Hp Hs Hf. rewrite parse_expr_S. destruct IH as (IHp & _ & IHl).
    apply runs_vbind; [apply IHp; [done|lia]|]. intros a s' Hs'. apply IHl; [done|done|lia].
  - intros. by apply loop_total.
Qed.

(** * Numbers printed *)

Lemma set_length {A} (l l' : list A) i x n : arr_set l i x = Some l' -> length l = n -> length l' = n.
Proof. intros H <-. by apply arr_set_length in H. Qed.

Lemma fill_digits_ok k : forall digits nd v, length digits = 32%nat -> 0 <= nd <= 32 ->
  exists digits' nd', fill_digits k digits nd v = Some (digits', nd') /\ length digits' = 32%nat /\ nd <= nd' <= 32.
Proof.
  induction k as [|k IH]; intros digits nd v Hl Hn; cbn [fill_digits]; [eexists _, _; split_and!; [done|done|lia|lia]|].
  destruct (Z.ltb_spec 0 v), (Z.ltb_spec nd 32); cbn [andb]; try (eexists _, _; split_and!; [done|done|lia|lia]).
  rewrite arr_set_in by lia. cbn [mbind option_bind].
  edestruct (IH (<[Z.to_nat nd := 48 + v mod 10]> digits) (nd + 1) (v / 10)) as (d' & n' & -> & ? & ?);
    [by rewrite length_insert|lia|]. eexists _, _. split_and!; [done|done|lia|lia].
Qed.

Lemma copy_digits_ok n : forall buf digits base pos cap, length digits = 32%nat -> (n <= 32)%nat ->
  0 <= base -> base + cap <= Z.of_nat (length buf) -> 0 <= pos < cap ->
  exists buf' pos', copy_digits n buf digits base pos cap = Some (buf', pos') /\ length buf' = length buf /\ pos <= pos' < cap.
Proof.
  induction n as [|n IH]; intros buf digits base pos cap Hd Hn Hb Hc Hp; cbn [copy_digits];
    [eexists _, _; split_and!; [done|done|lia|lia]|].
  destruct (Z.ltb_spec pos (cap - 1)); [|eexists _, _; split_and!; [done|done|lia|lia]].
  destruct (arr_get_in digits (Z.of_nat n)) as [d ->]; [lia|]. cbn [mbind option_bind]. rewrite arr_set_in by lia. cbn [mbind option_bind].
  edestruct (IH (<[Z.to_nat (base + pos) := d]> buf) digits base (pos + 1) cap) as (b' & p' & -> & Hl & ?);
    [done|lia|lia|rewrite length_insert; lia|lia|]. rewrite length_insert in Hl. eexists _, _. split_and!; [done|done|lia|lia].
Qed.

Lemma frac_out_ok n : forall buf base pos cap (x : F), 0 <= base -> base + cap <= Z.of_nat (length buf) -> 0 <= pos < cap ->
  exists r, frac_out n buf base pos cap x = Some r /\
    forall buf' pos', r = Some (buf', pos') -> length buf' = length buf /\ 0 <= pos' < cap.
Proof.
  induction n as [|n IH]; intros buf base pos cap x Hb Hc Hp; cbn [frac_out];
    [eexists; split; [done|]; intros ? ? [= <- <-]; split; [done|lia]|].
  destruct (Z.ltb_spec pos (cap - 2)); [|eexists; split; [done|]; intros ? ? [= <- <-]; split; [done|lia]].
  destruct (to_int _) as [d|]; [|by eexists]. rewrite arr_set_in by lia. cbn [mbind option_bind].
  edestruct (IH (<[Z.to_nat (base + pos) := u8 (48 + d)]> buf) base (pos + 1) cap) as (r & -> & Hr);
    [lia|rewrite length_insert; lia|lia|]. exists r. split; [done|]. intros b' p' E. specialize (Hr b' p' E).
  rewrite length_insert in Hr. done.
Qed.

Lemma c_string_insert (buf : list Z) i : 0 <= i < Z.of_nat (length buf) -> is_Some (c_string (<[Z.to_nat i := 0]> buf)).
Proof.
  intros Hi. assert (Z.to_nat i < length buf)%nat as Hn by lia. revert Hn. generalize (Z.to_nat i) as n. clear Hi.
  induction buf as [|c buf IH]; intros [|n] Hn; cbn in Hn; try lia; [by eexists|].
  change (<[S n := 0]> (c :: buf)) with (c :: <[n := 0]> buf). cbn [c_string].
  destruct (c =? 0); [by eexists|]. destruct (IH n) as [str ->]; [lia|]. by eexists.
Qed.

(** The output buffer is never overrun and holds a string afterwards. *)
Lemma format_magnitude_ok buf base cap (x : F) : 0 <= base -> 2 <= cap -> base + cap <= Z.of_nat (length buf) ->
  exists r, format_magnitude buf base cap x = Some r /\
    forall buf', r = Some buf' -> length buf' = length buf /\ is_Some (c_string buf').
Proof.
  intros Hb Hc Hl. unfold format_magnitude. destruct (to_uint64 x) as [v|]; [|by eexists].
  assert (exists digits nd, (if v =? 0 then digits ← arr_set (replicate 32 0) 0 48; Some (digits, 1)
    else fill_digits 32 (replicate 32 0) 0 v) = Some (digits, nd) /\ length digits = 32%nat /\ 0 <= nd <= 32)
    as (digits & nd & -> & Hd & Hn).
  { destruct (v =? 0); [by eexists _, _|]. apply fill_digits_ok; [done|lia]. }
  cbn [mbind option_bind].
  destruct (copy_digits_ok (Z.to_nat nd) buf digits base 0 cap) as (b1 & p1 & -> & Hl1 & Hp1); [done|lia|lia|lia|lia|].
  cbn [mbind option_bind].
  assert (exists r, (if (p1 <? cap - 1) && d_lt (d_lit 1 10) (d_sub x (d_of_int v)) then
             buf ← arr_set b1 (base + p1) 46; frac_out 6 buf base (p1 + 1) cap (d_sub x (d_of_int v))
           else Some (Some (b1, p1))) = Some r /\
    forall b' p', r = Some (b', p') -> length b' = length buf /\ 0 <= p' < cap) as (r & -> & Hr).
  { destruct (Z.ltb_spec p1 (cap - 1)); [|by eexists; split; [done|]; intros ? ? [= <- <-]; split; [|lia]].
    destruct (d_lt _ _); cbn [andb]; [|by eexists; split; [done|]; intros ? ? [= <- <-]; split; [|lia]].
    rewrite arr_set_in by lia. cbn [mbind option_bind].
    destruct (frac_out_ok 6 (<[Z.to_nat (base + p1) := 46]> b1) base (p1 + 1) cap (d_sub x (d_of_int v)))
      as (r & -> & Hr); [lia|rewrite length_insert; lia|lia|]. exists r. split; [done|]. intros b' p' E.
    specialize (Hr b' p' E). rewrite length_insert, Hl1 in Hr. done. }
  cbn [mbind option_bind]. destruct r as [[b2 p2]|]; [|by eexists]. destruct (Hr b2 p2 eq_refl) as [Hl2 Hp2].
  rewrite arr_set_in by lia. cbn [mbind option_bind]. eexists. split; [done|]. intros ? [= <-]. rewrite length_insert.
  split; [done|]. apply c_string_insert. lia.
Qed.

Lemma format_double_ok buf (x : F) : length buf = 64%nat ->
  exists r, format_double buf 64 x = Some r /\
    forall buf', r = Some buf' -> length buf' = 64%nat /\ is_Some (c_string buf').
Proof.
  intros Hl. unfold format_double. cbn [Z.ltb Z.compare]. destruct (negb (d_eq x x)).
  { rewrite arr_set_in by lia. cbn [mbind option_bind]. do 3 (rewrite arr_set_in by (rewrite ?length_insert; lia); cbn [mbind option_bind]).
    eexists. split; [done|]. intros ? [= <-]. rewrite !length_insert. split; [done|]. apply c_string_insert. rewrite !length_insert. lia. }
  destruct (d_lt x d0).
  - rewrite arr_set_in by lia. cbn [mbind option_bind].
    destruct (format_magnitude_ok (<[Z.to_nat 0 := 45]> buf) 1 63 (d_opp x)) as (r & Hr & Hok); [lia|lia|rewrite length_insert; lia|].
    exists r. rewrite length_insert, Hl in Hok. done.
  - destruct (format_magnitude_ok buf 0 64 x) as (r & Hr & Hok); [lia|lia|lia|]. exists r. by rewrite Hl in Hok.
Qed.
End total.
(** * The prompt *)

Section session.
Context {F : Type} {HF : Double F}.
Implicit Types (s : calc F).

Lemma c_string_split (line l : list Z) : c_string line = Some l ->
  exists junk, line = l ++ 0 :: junk /\ Forall (fun c => c <> 0) l.
Proof.
  revert l. induction line as [|c line IH]; intros l Hl; cbn [c_string] in Hl; [done|].
  destruct (Z.eqb_spec c 0) as [->|Hc]; [injection Hl as <-; by exists line|].
  apply fmap_Some in Hl as (l' & Hl' & ->). destruct (IH l' Hl') as (junk & -> & Hnz). exists junk. by split; [|constructor].
Qed.

Lemma reading_line line l s : c_string line = Some l -> length line = 128%nat -> reading l (set_src line s).
Proof.
  intros Hl Hlen. destruct (c_string_split _ _ Hl) as (junk & -> & Hnz). exists [], junk. split_and!; [done|done| |done].
  cbn [set_src g_src]. rewrite Hlen. lia.
Qed.

Lemma c_string_length (line l : list Z) : c_string line = Some l -> (length l < length line)%nat.
Proof. intros Hl. destruct (c_string_split _ _ Hl) as (junk & -> & _). rewrite length_app. cbn. lia. Qed.

(** A line evaluates without a fault; only an undefined conversion or a
    division by zero ends it early. *)
Lemma calc_line_total line result s : length line = 128%nat -> is_Some (c_string line) -> length result = 64%nat ->
  runs (calc_line line result) s (fun r _ => forall res calls, r = Some (res, calls) -> length res = 64%nat).
Proof.
  intros Hlen [l Hl] Hres. unfold calc_line. run. eapply runs_mono; [by apply lex_ok, reading_line|].
  intros [] s1 [Hc _]. run. pose proof (c_string_length _ _ Hl) as Hll.
  eapply runs_mono; [apply (parse_total calc_fuel) with (m := S (length l)); [lia| |unfold calc_fuel; lia]|].
  { eexists _, _, _. split; [exact Hc|]. destruct (lex_length (F := F) l) as [? _]. case_decide; lia. }
  intros [v|] s2 _; [|by apply runs_ret]. run. case_decide; [run; by intros ? ? [= <- <-]|]. run.
  destruct (format_double_ok result v Hres) as (r & Hf & Hr). eapply runs_need; [exact Hf|].
  destruct r as [res|]; [|by apply runs_ret]. destruct (Hr res eq_refl) as [Hl2 [str Hstr]].
  run. eapply runs_need; [exact Hstr|]. run. by intros ? ? [= <- <-].
Qed.

Lemma calc_read_line_ok keys : forall line pos calls, length line = 128%nat -> 0 <= pos <= 127 ->
  exists r, read_line keys line pos calls = Some r /\
    forall line' pos' keys' calls', r = Entered line' pos' keys' calls' ->
      length line' = 128%nat /\ 0 <= pos' <= 127 /\ (length keys' < length keys)%nat.
Proof.
  induction keys as [|c keys IH]; intros line pos calls Hl Hp; cbn [read_line length]; [by eexists|].
  assert (Hnext : forall line' pos' calls', length line' = 128%nat -> 0 <= pos' <= 127 ->
    exists r, read_line keys line' pos' calls' = Some r /\
      forall line'' pos'' keys' calls'', r = Entered line'' pos'' keys' calls'' ->
        length line'' = 128%nat /\ 0 <= pos'' <= 127 /\ (length keys' < S (length keys))%nat).
  { intros line' pos' calls' Hl' Hp'. destruct (IH line' pos' calls' Hl' Hp') as (r & Hr & Hok). exists r. split; [done|].
    intros ? ? ? ? E. destruct (Hok _ _ _ _ E) as (? & ? & ?). split_and!; [done|lia|lia|lia]. }
  destruct (c =? 0); [by apply Hnext|].
  destruct (c =? Keyboard.KEY_ENTER).
  { eexists. split; [done|]. intros ? ? ? ? [= <- <- <- <-]. split_and!; [done|lia|lia|lia]. }
  destruct (c =? Keyboard.KEY_BACKSPACE); [destruct (Z.ltb_spec 0 pos); apply Hnext; (done || lia)|].
  unfold CALC_INPUT_MAX. destruct (Z.leb_spec 0x20 c), (Z.ltb_spec c 0x7F), (Z.ltb_spec pos (128 - 1)); cbn [andb];
    try (apply Hnext; (done || lia)).
  rewrite arr_set_in by lia. cbn [mbind option_bind]. apply Hnext; [by rewrite length_insert|lia].
Qed.

Lemma trim_ok n : forall line, length line = 128%nat -> (n <= 127)%nat -> is_Some (c_string line) ->
  exists line' pos, trim n line = Some (line', pos) /\ length line' = 128%nat /\ is_Some (c_string line').
Proof.
  induction n as [|n IH]; intros line Hl Hn Hs; cbn [trim]; [by eexists _, _|].
  destruct (arr_get_in line (Z.of_nat n)) as [c ->]; [lia|]. cbn [mbind option_bind]. destruct (c =? 32); [|by eexists _, _].
  rewrite arr_set_in by lia. cbn [mbind option_bind]. apply IH; [by rewrite length_insert|lia|apply c_string_insert; lia].
Qed.

Definition ready (r : round) (n : nat) : Prop :=
  match r with
  | Again line result keys => length line = 128%nat /\ length result = 64%nat /\ (length keys < n)%nat
  | _ => True
  end.

Lemma calc_round_total keys line result s : length line = 128%nat -> length result = 64%nat ->
  runs (calc_round keys line result) s (fun r _ => ready r.1 (length keys)).
Proof.
  intros Hl Hr. unfold calc_round. run.
  destruct (calc_read_line_ok keys line 0 [Printf (text "> ") []] Hl ltac:(lia)) as (r & Hread & Hok).
  eapply runs_need; [exact Hread|]. destruct r as [line1 pos keys1 calls|calls]; [|by apply runs_ret].
  destruct (Hok _ _ _ _ eq_refl) as (Hl1 & Hp & Hk). run. eapply runs_need; [apply arr_set_in; lia|]. run.
  destruct (trim_ok (Z.to_nat pos) (<[Z.to_nat pos := 0]> line1)) as (line2 & pos2 & Ht & Hl2 & Hs2);
    [by rewrite length_insert|lia|apply c_string_insert; lia|].
  eapply runs_need; [exact Ht|]. cbv beta iota. destruct (pos2 =? 0); [run; cbn [fst ready]; by split_and!|].
  destruct Hs2 as [str Hstr]. run. eapply runs_need; [unfold is_word; by rewrite Hstr|].
  run. eapply runs_need; [unfold is_word; by rewrite Hstr|]. destruct (_ || _); [by run|].
  run. eapply runs_mono; [apply calc_line_total; [done|by rewrite Hstr|done]|].
  intros [[res out]|] s1 Hres; run; [|done]. split_and!; [done|by eapply Hres|done].
Qed.

Lemma calc_rounds_total fuel : forall keys line result calls s, (length keys < fuel)%nat ->
  length line = 128%nat -> length result = 64%nat ->
  runs (calc_rounds fuel keys line result calls) s (fun r _ => forall l res k, r.1 <> Again l res k).
Proof.
  induction fuel as [|fuel IH]; intros keys line result calls s Hf Hl Hr; [lia|]. cbn [calc_rounds]. run.
  eapply runs_mono; [by apply calc_round_total|]. intros [r out] s1 Hok. cbn [fst] in Hok.
  destruct r as [k| | |line1 result1 keys1]; try (apply runs_ret; done).
  destruct Hok as (? & ? & ?). apply IH; (done || lia).
Qed.

End session.

(** * Properties *)

(** C13: the calculator evaluates expressions with the usual precedences.
    Take any expression tree whose notation has parentheses where the
    precedences of [+ -], [* / %] and [^] (all grouping to the left, signs
    binding tightest) need them, written with any spaces between its words on a
    line of at most 127 characters.  If the tree has the value [v] for the
    current [ans], then evaluating the line stores [v] in [ans] and prints
    [v] as [format_double] writes it; the parser's recursion stays within its
    fuel. *)
Theorem calc_evaluates {F : Type} {HF : Double F} (e : expr) (gaps : list nat) (trail : nat) (line result : list Z)
    (s : calc F) (v : F)
    (Hwf : well_formed e = true)
    (Hgaps : length gaps = length (words (F := F) e))
    (Hline : c_string line = Some (layout gaps (words (F := F) e) trail))
    (Hlen : length line = 128%nat)
    (Hres : length result = 64%nat)
    (Hval : eval (g_ans s) e = Some v) :
  exists shown, format_double result 64 v = Some shown /\
    runs (calc_line line result) s (fun r s' => g_ans s' = v /\
      r = match shown with
          | None => None
          | Some buf => str ← c_string buf; Some (buf, [Printf (text " = %s" ++ [10]) [AStr (Some str)]])
          end).
Proof.
  destruct (format_double_ok result v Hres) as (shown & Hf & Hshown). exists shown. split; [done|].
  pose proof (words_ok (F := F) e Hwf) as [Hsp Hap]. pose proof (layout_lexes _ gaps trail Hgaps Hsp Hap) as Hlex.
  unfold calc_line. run. eapply runs_mono; [by apply lex_ok, reading_line|]. intros [] s1 [Hc Ha]. run.
  assert (Hst : stream (tokens e ++ []) s1).
  { rewrite app_nil_r. unfold tokens. destruct (words (F := F) e).*2 as [|[t x] ts]; cbn [lexes stream] in *.
    - rewrite <- Hlex. apply Hc.
    - destruct Hlex as [Hl Hr]. rewrite Hl in Hc. by eexists. }
  destruct (parser_ok e Hwf) as [Hpe _]. pose proof (level_nonneg e Hwf) as Hlev.
  destruct (Hpe 0 v [] s1) as (s2 & Hs2 & Ha2 & Hy); [by rewrite Ha|done|cbn; lia|lia|].
  destruct (Hy v s2) as [n Hn]; [apply loop_stops; rewrite (stream_type _ _ Hs2); cbn; lia|].
  pose proof (c_string_length _ _ Hline) as Hll.
  destruct (proj1 (proj2 (parse_total calc_fuel)) (S (length (layout gaps (words (F := F) e) trail))) 0 s1) as (r & s' & Hrun & _);
    [lia| |unfold calc_fuel; lia|].
  { eexists _, _, _. split; [exact Hc|]. destruct (lex_length (F := F) (layout gaps (words e) trail)) as [? _]. case_decide; lia. }
  pose proof (expr_le 0 n (n + calc_fuel) ltac:(lia) _ _ Hn) as H1.
  rewrite (expr_le 0 calc_fuel (n + calc_fuel) ltac:(lia) _ _ Hrun) in H1. simplify_eq.
  exists (Some v), s2. split; [exact Hrun|]. run. rewrite (stream_type _ _ Hs2), decide_False by done. run.
  eapply runs_need; [exact Hf|]. destruct shown as [buf|]; [|by apply runs_ret].
  destruct (Hshown buf eq_refl) as [_ [str Hstr]]. run. eapply runs_need; [exact Hstr|]. run. by rewrite Hstr.
Qed.

Lemma calc_evaluates_witness : exists shown, format_double (HF := binary64) (replicate 64 0) 64 (b64_of_int 7) = Some shown /\
  runs (calc_line (HF := binary64) (text "1 +2* 3" ++ replicate 121 0) (replicate 64 0)) calc_zero (fun r s' =>
    g_ans s' = b64_of_int 7 /\
    r = match shown with
        | None => None
        | Some buf => str ← c_string buf; Some (buf, [Printf (text " = %s" ++ [10]) [AStr (Some str)]])
        end).
Proof.
  apply (calc_evaluates (HF := binary64) (Bin TOK_PLUS (Num [49] None) (Bin TOK_MUL (Num [50] None) (Num [51] None)))
    [0; 1; 0; 0; 1]%nat 0 _ _ calc_zero (b64_of_int 7)); vm_compute; reflexivity.
Defined.

(** C25: whatever keys are typed, the calculator's session never reads or
    writes outside its arrays and every line is processed: the session is
    waiting for more keys, has been left, or has stopped at an undefined
    integer conversion or remainder. *)
Theorem calc_session_total {F : Type} {HF : Double F} (keys line result : list Z) (s : calc F)
    (Hline : length line = 128%nat)
    (Hres : length result = 64%nat) :
  runs (calc_run keys line result) s (fun r _ => r.1 = NeedKeys \/ (exists rest, r.1 = Quit rest) \/ r.1 = Undefined).
Proof.
  unfold calc_run. eapply runs_mono; [by apply calc_rounds_total; [lia| |]|].
  intros [[k| | |l res k] calls] s' Hr; cbn [fst] in *; [by right; left; eexists|by right; right|by left|]. by destruct (Hr l res k).
Qed.

Lemma calc_session_total_witness :
  runs (calc_run (HF := binary64) (text "5 % 0" ++ [13]) (replicate 128 0) (replicate 64 0)) calc_zero
    (fun r _ => r.1 = NeedKeys \/ (exists rest, r.1 = Quit rest) \/ r.1 = Undefined).
Proof. apply (calc_session_total (HF := binary64)); reflexivity. Defined.
(** [log] multiplies the natural logarithm by [ln 10] instead of dividing. *)
Lemma log_multiplies : printed "log(10)" =
  Some [Printf (text " = %s" ++ [10]) [AStr (Some (text "5.301898"))]; Printf (text "> ") []].
Proof. vm_compute. reflexivity. Qed.

(** The power of a negative base is negative, also for an even exponent. *)
Lemma negative_base_power : printed "(-2)^2" =
  Some [Printf (text " = %s" ++ [10]) [AStr (Some (text "-3.999999"))]; Printf (text "> ") []].
Proof. vm_compute. reflexivity. Qed.

(** Twenty Newton steps do not reach the root of a large number. *)
Lemma sqrt_large : printed "sqrt(100000000000000)" =
  Some [Printf (text " = %s" ++ [10]) [AStr (Some (text "95716701.037170"))]; Printf (text "> ") []].
Proof. vm_compute. reflexivity. Qed.


End Calc.
