(* ===== verification/Editor.v ===== *)
(** The text editor (src/editor/editor.c, editor.h): the flat text buffer with
    its cursor and view, drawing on the VGA cells, the command line, loading
    and saving.  Files are reached through the class [FileCalls]; the keyboard
    is the sequence of values [keyboard_getchar] returns, each with the
    modifier byte read after it. *)
From stdpp Require Import strings.
From S2P Require Import Prelude Interfaces Bytes Keyboard Console Cstr.
#[local] Open Scope Z_scope.

Module Editor.
Import Console Cstr.

Definition EDITOR_BUFFER_SIZE := 8192.
Definition EDITOR_FILENAME_MAX := 64.
Definition EDITOR_CMD_MAX := 64.
Definition EDITOR_SCREEN_COLS := 80.
Definition EDITOR_SCREEN_ROWS := 25.
Definition EDITOR_TEXT_ROWS := 24.
Definition EDITOR_STATUS_ROW := 24.
Definition ARESFS_O_RDONLY := 0.
Definition ARESFS_O_WRONLY := 1.
Definition ARESFS_O_CREAT := 0x40.
Definition ARESFS_O_TRUNC := 0x200.

(** The newline character. *)
Definition NL := 10.

(** * String helpers *)

Definition ed_strlen (s : list Z) : Z := Z.of_nat (length s).

Definition ed_strcmp : list Z -> list Z -> Z := c_strcmp.

Definition ed_strcpy_n : list Z -> list Z -> Z -> option (list Z) := c_strcpy_n.

(** [ed_memmove] inside one array: [n] bytes from index [src] to [dst]. *)
Fixpoint move_up (n : nat) (i dst src : Z) (buf : list Z) : option (list Z) :=
  match n with
  | O => Some buf
  | S n => c ← arr_get buf (src + i); buf ← arr_set buf (dst + i) c; move_up n (i + 1) dst src buf
  end.

Fixpoint move_down (i : nat) (dst src : Z) (buf : list Z) : option (list Z) :=
  match i with
  | O => Some buf
  | S n =>
      c ← arr_get buf (src + Z.of_nat n); buf ← arr_set buf (dst + Z.of_nat n) c; move_down n dst src buf
  end.

Definition ed_memmove (dst src count : Z) (buf : list Z) : option (list Z) :=
  if (dst =? src) || (count =? 0) then Some buf
  else if dst <? src then move_up (Z.to_nat count) 0 dst src buf
  else move_down (Z.to_nat count) dst src buf.

Section editor.
Context {W : Type} {HW : FileCalls W}.

Record editor := mk_editor {
  g_buf : list Z;
  g_len : Z;
  g_cursor : Z;
  g_view_off : Z;
  g_path : list Z;
  g_dirty : bool;
  g_status_msg : list Z;
  screen : console_t;
  files : W }.

Definition set_text b l c e := mk_editor b l c (g_view_off e) (g_path e) (g_dirty e) (g_status_msg e) (screen e) (files e).
Definition set_cursor c e := mk_editor (g_buf e) (g_len e) c (g_view_off e) (g_path e) (g_dirty e) (g_status_msg e) (screen e) (files e).
Definition set_view v e := mk_editor (g_buf e) (g_len e) (g_cursor e) v (g_path e) (g_dirty e) (g_status_msg e) (screen e) (files e).
Definition set_path p e := mk_editor (g_buf e) (g_len e) (g_cursor e) (g_view_off e) p (g_dirty e) (g_status_msg e) (screen e) (files e).
Definition set_dirty d e := mk_editor (g_buf e) (g_len e) (g_cursor e) (g_view_off e) (g_path e) d (g_status_msg e) (screen e) (files e).
Definition set_msg m e := mk_editor (g_buf e) (g_len e) (g_cursor e) (g_view_off e) (g_path e) (g_dirty e) m (screen e) (files e).
Definition set_screen s e := mk_editor (g_buf e) (g_len e) (g_cursor e) (g_view_off e) (g_path e) (g_dirty e) (g_status_msg e) s (files e).
Definition set_files w e := mk_editor (g_buf e) (g_len e) (g_cursor e) (g_view_off e) (g_path e) (g_dirty e) (g_status_msg e) (screen e) w.

(** Code of the console driver. *)
Definition on_screen {A} (m : prog console_t A) : prog editor A := fun e =>
  match m (screen e) with
  | Some (a, s) => Some (a, set_screen s e)
  | None => None
  end.

(** [g_buf[i]]. *)
Definition char_at (i : Z) : prog editor Z := b ← gets g_buf; need (arr_get b i).

(** * Drawing *)

Definition ed_vga_put (row col c attr : Z) : prog editor unit :=
  if (EDITOR_SCREEN_ROWS <=? row) || (EDITOR_SCREEN_COLS <=? col) then mret tt
  else on_screen (store (row * EDITOR_SCREEN_COLS + col) (u16 (Z.lor (u8 c) (Z.shiftl attr 8)))).

Definition ed_clear_row (row attr : Z) : prog editor unit :=
  for_ (Z.to_nat EDITOR_SCREEN_COLS) 0 (fun col => ed_vga_put row col 32 attr).

Definition text_attr : Z := Z.lor (color_code VGA_WHITE) (Z.shiftl (color_code VGA_BLACK) 4).

Definition ed_clear_text_area : prog editor unit :=
  for_ (Z.to_nat EDITOR_TEXT_ROWS) 0 (fun r => ed_clear_row r text_attr).

(** * Geometry *)

(** The loops take the distance they can run as fuel. *)
Fixpoint line_start_loop (fuel : nat) (off : Z) : prog editor Z :=
  match fuel with
  | O => need None
  | S fuel =>
      if 0 <? off then
        c ← char_at (off - 1);
        if negb (c =? NL) then line_start_loop fuel (off - 1) else mret off
      else mret off
  end.

Definition ed_line_start (off : Z) : prog editor Z := line_start_loop (S (Z.to_nat off)) off.

Fixpoint line_end_loop (fuel : nat) (off : Z) : prog editor Z :=
  match fuel with
  | O => need None
  | S fuel =>
      len ← gets g_len;
      if off <? len then
        c ← char_at off;
        if negb (c =? NL) then line_end_loop fuel (off + 1) else mret off
      else mret off
  end.

Definition ed_line_end (off : Z) : prog editor Z :=
  len ← gets g_len; line_end_loop (S (Z.to_nat (len - off))) off.

Definition ed_prev_line (off : Z) : prog editor Z :=
  start ← ed_line_start off;
  if start =? 0 then mret 0 else ed_line_start (start - 1).

Definition ed_next_line (off : Z) : prog editor Z :=
  end_ ← ed_line_end off;
  len ← gets g_len;
  if len <=? end_ then mret len else mret (end_ + 1).

Definition ed_col_at (off : Z) : prog editor Z := start ← ed_line_start off; mret (off - start).

Fixpoint screen_row_loop (fuel : nat) (i off row : Z) : prog editor Z :=
  match fuel with
  | O => need None
  | S fuel =>
      if i <? off then
        c ← char_at i;
        let row := if c =? NL then row + 1 else row in
        if EDITOR_TEXT_ROWS <=? row then mret EDITOR_TEXT_ROWS
        else screen_row_loop fuel (i + 1) off row
      else mret row
  end.

Definition ed_screen_row (off : Z) : prog editor Z :=
  view ← gets g_view_off;
  if off <? view then mret (-1)
  else screen_row_loop (S (Z.to_nat (off - view))) view off 0.

(** * Status bar *)

Definition ed_set_status (msg : list Z) : prog editor unit :=
  m ← gets g_status_msg;
  m ← need (ed_strcpy_n m msg 80);
  modify (set_msg m).

(** Characters of [s] on the status row from column [col] while it is on the
    screen; the column after them. *)
Fixpoint put_name (s : list Z) (col attr : Z) : prog editor Z :=
  match s with
  | [] => mret col
  | c :: s =>
      if col <? EDITOR_SCREEN_COLS then
        _ ← ed_vga_put EDITOR_STATUS_ROW col c attr; put_name s (col + 1) attr
      else mret col
  end.

Fixpoint put_text (s : list Z) (col attr : Z) : prog editor unit :=
  match s with
  | [] => mret tt
  | c :: s => _ ← ed_vga_put EDITOR_STATUS_ROW col c attr; put_text s (col + 1) attr
  end.

Definition hint : list Z := text "^S save ^X exit ESC cmd".

(** The column at which a text of [n] characters ends before the margin. *)
Definition right_column (n : Z) : Z :=
  if n + 1 <? EDITOR_SCREEN_COLS then EDITOR_SCREEN_COLS - n - 1 else 0.

Definition ed_draw_status_bar : prog editor unit :=
  let attr := Z.lor (color_code VGA_BLACK) (Z.shiftl (color_code VGA_LIGHT_GREY) 4) in
  _ ← ed_clear_row EDITOR_STATUS_ROW attr;
  path ← gets g_path;
  name ← need (c_string path);
  col ← put_name (match name with [] => text "[no-name]" | _ => name end) 1 attr;
  dirty ← gets g_dirty;
  _ ← (if (dirty : bool) && (col + 4 <? EDITOR_SCREEN_COLS) then put_text (text " [+]") col attr else mret tt);
  _ ← put_text hint (right_column (ed_strlen hint)) attr;
  m ← gets g_status_msg;
  msg ← need (c_string m);
  match msg with
  | [] => mret tt
  | _ =>
      let mcol := right_column (ed_strlen msg) in
      _ ← for_ (Z.to_nat (EDITOR_SCREEN_COLS - mcol - 1)) 0 (fun i => ed_vga_put EDITOR_STATUS_ROW (mcol + i) 32 attr);
      put_text msg mcol attr
  end.

(** The text from offset [i], drawn from cell ([row], [col]). *)
Fixpoint render_loop (fuel : nat) (i row col : Z) : prog editor unit :=
  match fuel with
  | O => need None
  | S fuel =>
      len ← gets g_len;
      if (i <? len) && (row <? EDITOR_TEXT_ROWS) then
        c ← char_at i;
        if c =? NL then render_loop fuel (i + 1) (row + 1) 0
        else if col <? EDITOR_SCREEN_COLS then
          _ ← ed_vga_put row col c text_attr; render_loop fuel (i + 1) row (col + 1)
        else render_loop fuel (i + 1) row col
      else mret tt
  end.

Definition ed_render : prog editor unit :=
  _ ← ed_clear_text_area;
  view ← gets g_view_off;
  len ← gets g_len;
  _ ← render_loop (S (Z.to_nat (len - view))) view 0 0;
  _ ← ed_draw_status_bar;
  cursor ← gets g_cursor;
  srow ← ed_screen_row cursor;
  scol ← ed_col_at cursor;
  let scol := if EDITOR_SCREEN_COLS <=? scol then EDITOR_SCREEN_COLS - 1 else scol in
  let srow := if srow <? 0 then 0 else srow in
  let srow := if EDITOR_TEXT_ROWS <=? srow then EDITOR_TEXT_ROWS - 1 else srow in
  on_screen (console_set_cursor srow scol).

(** * Scrolling *)

Fixpoint scroll_up_loop (fuel : nat) : prog editor unit :=
  match fuel with
  | O => need None
  | S fuel =>
      cursor ← gets g_cursor;
      view ← gets g_view_off;
      if cursor <? view then
        v ← ed_prev_line view; _ ← modify (set_view v); scroll_up_loop fuel
      else mret tt
  end.

Fixpoint scroll_down_loop (fuel : nat) : prog editor unit :=
  match fuel with
  | O => need None
  | S fuel =>
      cursor ← gets g_cursor;
      row ← ed_screen_row cursor;
      if EDITOR_TEXT_ROWS <=? row then
        view ← gets g_view_off;
        v ← ed_next_line view;
        _ ← modify (set_view v);
        len ← gets g_len;
        if len <=? v then mret tt else scroll_down_loop fuel
      else mret tt
  end.

(** The view moves by at least one byte each time. *)
Definition ed_scroll_into_view : prog editor unit :=
  view ← gets g_view_off;
  _ ← scroll_up_loop (S (Z.to_nat view));
  len ← gets g_len;
  scroll_down_loop (S (Z.to_nat len)).

(** * Editing *)

Definition ed_insert_char (c : Z) : prog editor unit :=
  len ← gets g_len;
  cursor ← gets g_cursor;
  if EDITOR_BUFFER_SIZE <=? len + 1 then ed_set_status (text "buffer full")
  else
    buf ← gets g_buf;
    buf ← need (ed_memmove (cursor + 1) cursor (len - cursor) buf);
    buf ← need (arr_set buf cursor c);
    _ ← modify (set_text buf (len + 1) (cursor + 1));
    modify (set_dirty true).

Definition ed_delete_before : prog editor unit :=
  cursor ← gets g_cursor;
  if cursor =? 0 then mret tt
  else
    len ← gets g_len;
    buf ← gets g_buf;
    buf ← need (ed_memmove (cursor - 1) cursor (len - cursor) buf);
    _ ← modify (set_text buf (len - 1) (cursor - 1));
    modify (set_dirty true).

Definition ed_move_left : prog editor unit :=
  cursor ← gets g_cursor;
  if 0 <? cursor then modify (set_cursor (cursor - 1)) else mret tt.

Definition ed_move_right : prog editor unit :=
  cursor ← gets g_cursor;
  len ← gets g_len;
  if cursor <? len then modify (set_cursor (cursor + 1)) else mret tt.

Definition ed_move_up : prog editor unit :=
  cursor ← gets g_cursor;
  col ← ed_col_at cursor;
  prev ← ed_prev_line cursor;
  start ← ed_line_start cursor;
  if prev =? start then mret tt
  else
    prev_end ← ed_line_end prev;
    let prev_len := prev_end - prev in
    modify (set_cursor (prev + (if col <? prev_len then col else prev_len))).

Definition ed_move_down : prog editor unit :=
  cursor ← gets g_cursor;
  col ← ed_col_at cursor;
  next ← ed_next_line cursor;
  len ← gets g_len;
  if len <=? next then
    last_end ← ed_line_end cursor;
    start ← ed_line_start cursor;
    let last_len := last_end - start in
    modify (set_cursor (if col <? last_len then start + col else last_end))
  else
    next_end ← ed_line_end next;
    let next_len := next_end - next in
    modify (set_cursor (next + (if col <? next_len then col else next_len))).

(** * Files *)

(** A call to the kernel: its [int] result. *)
Definition sys {A} (m : prog W A) : prog editor A := fun e =>
  match m (files e) with
  | Some (a, w) => Some (a, set_files w e)
  | None => None
  end.

Definition ed_sys_open (path : list Z) (flags : Z) : prog editor Z := sys (fc_open path flags).
Definition ed_sys_write (fd : Z) (bytes : list Z) : prog editor Z := sys (fc_write fd bytes).
Definition ed_sys_close (fd : Z) : prog editor unit := sys (fc_close fd).

(** Reading into [g_buf]. *)
Definition ed_sys_read (fd count : Z) : prog editor Z :=
  '(n, bytes) ← sys (fc_read fd count);
  buf ← gets g_buf;
  buf ← need (if Z.of_nat (length bytes) <=? Z.of_nat (length buf) then Some (splice 0 bytes buf) else None);
  len ← gets g_len;
  cursor ← gets g_cursor;
  _ ← modify (set_text buf len cursor);
  mret n.

Definition ed_load_file (filename : list Z) : prog editor unit :=
  buf ← gets g_buf;
  _ ← modify (set_text buf 0 0);
  _ ← modify (set_view 0);
  _ ← modify (set_dirty false);
  match filename with
  | [] => ed_set_status (text "new file")
  | _ =>
      fd ← ed_sys_open filename ARESFS_O_RDONLY;
      if fd <? 0 then ed_set_status (text "new file")
      else
        n ← ed_sys_read fd (EDITOR_BUFFER_SIZE - 1);
        _ ← ed_sys_close fd;
        buf ← gets g_buf;
        _ ← (if 0 <? n then modify (set_text buf n 0) else mret tt);
        ed_set_status (text "loaded")
  end.

(** The dash in the messages is three bytes of UTF-8. *)
Definition dash : list Z := [226; 128; 148].

Definition ed_save_file : prog editor unit :=
  path ← gets g_path;
  name ← need (c_string path);
  match name with
  | [] => ed_set_status (text "no filename " ++ dash ++ text " use :w <name>")
  | _ =>
      fd ← ed_sys_open name (Z.lor (Z.lor ARESFS_O_WRONLY ARESFS_O_CREAT) ARESFS_O_TRUNC);
      if fd <? 0 then ed_set_status (text "save failed (open)")
      else
        buf ← gets g_buf;
        len ← gets g_len;
        bytes ← need (if len <=? Z.of_nat (length buf) then Some (take (Z.to_nat len) buf) else None);
        n ← ed_sys_write fd bytes;
        _ ← ed_sys_close fd;
        if (n <? 0) || negb (n =? len) then ed_set_status (text "save failed (write)")
        else
          _ ← modify (set_dirty false);
          ed_set_status (text "saved")
  end.

(** * Command line *)

(** A key and the modifiers that are read with it. *)
Definition key : Type := Z * Z.

(** [Command out keys]: the array and the keys left after [ENTER], [Escaped]
    after [ESC]; [NoKeys] when the keys end first. *)
Inductive command_input :=
| Command (out : list Z) (pos : Z) (keys : list key) | Escaped (out : list Z) (keys : list key) | NoKeys.

Fixpoint read_command_loop (keys : list key) (out : list Z) (pos cap attr : Z) : prog editor command_input :=
  match keys with
  | [] => mret NoKeys
  | (c, _) :: keys =>
      if c =? 0 then read_command_loop keys out pos cap attr
      else if c =? Keyboard.KEY_ENTER then out ← need (arr_set out pos 0); mret (Command out pos keys)
      else if c =? Keyboard.KEY_ESC then out ← need (arr_set out 0 0); mret (Escaped out keys)
      else if c =? Keyboard.KEY_BACKSPACE then
        if 0 <? pos then
          _ ← ed_vga_put EDITOR_STATUS_ROW (pos - 1 + 1) 32 attr;
          _ ← on_screen (console_set_cursor EDITOR_STATUS_ROW (pos - 1 + 1));
          read_command_loop keys out (pos - 1) cap attr
        else read_command_loop keys out pos cap attr
      else if (0x20 <=? c) && (c <? 0x7F) && (pos + 1 <? cap) then
        out ← need (arr_set out pos c);
        _ ← ed_vga_put EDITOR_STATUS_ROW (pos + 1) c attr;
        _ ← on_screen (console_set_cursor EDITOR_STATUS_ROW (pos + 1 + 1));
        read_command_loop keys out (pos + 1) cap attr
      else read_command_loop keys out pos cap attr
  end.

Definition ed_read_command (keys : list key) (out : list Z) (cap : Z) : prog editor command_input :=
  let attr := Z.lor (color_code VGA_WHITE) (Z.shiftl (color_code VGA_BLUE) 4) in
  _ ← ed_clear_row EDITOR_STATUS_ROW attr;
  _ ← ed_vga_put EDITOR_STATUS_ROW 0 58 attr;
  _ ← on_screen (console_set_cursor EDITOR_STATUS_ROW 1);
  read_command_loop keys out 0 cap attr.

(** The command in [cmd]: whether it asks to leave the editor. *)
Definition run_command (cmd : list Z) : prog editor bool :=
  s ← need (c_string cmd);
  if ed_strcmp s (text "q") =? 0 then
    dirty ← gets g_dirty;
    if (dirty : bool) then _ ← ed_set_status (text "unsaved changes " ++ dash ++ text " use :q! or :wq"); mret false
    else mret true
  else if ed_strcmp s (text "q!") =? 0 then mret true
  else if ed_strcmp s (text "w") =? 0 then _ ← ed_save_file; mret false
  else if ed_strcmp s (text "wq") =? 0 then
    _ ← ed_save_file; dirty ← gets g_dirty; mret (negb dirty)
  else
    c0 ← need (arr_get cmd 0);
    c1 ← need (arr_get cmd 1);
    if (c0 =? 119) && (c1 =? 32) then
      path ← gets g_path;
      name ← need (c_string (drop 2 cmd));
      path ← need (ed_strcpy_n path name EDITOR_FILENAME_MAX);
      _ ← modify (set_path path);
      _ ← ed_save_file;
      mret false
    else _ ← ed_set_status (text "unknown command"); mret false.

(** [None] when the keys end before the command does.  [cmd] is what the local
    array holds on entry. *)
Definition ed_run_command (keys : list key) (cmd : list Z) : prog editor (option (bool * list key)) :=
  r ← ed_read_command keys cmd EDITOR_CMD_MAX;
  match r with
  | NoKeys => mret None
  | Escaped _ keys => mret (Some (false, keys))
  | Command cmd pos keys =>
      if pos <=? 0 then mret (Some (false, keys))
      else stop ← run_command cmd; mret (Some (stop, keys))
  end.

(** * The main loop *)

Definition clear_msg : prog editor unit :=
  m ← gets g_status_msg; m ← need (arr_set m 0 0); modify (set_msg m).

(** A key other than Ctrl-S, Ctrl-X and ESC. *)
Definition edit_key (c : Z) : prog editor unit :=
  if c =? Keyboard.KEY_UP then _ ← ed_move_up; clear_msg
  else if c =? Keyboard.KEY_DOWN then _ ← ed_move_down; clear_msg
  else if c =? Keyboard.KEY_LEFT then _ ← ed_move_left; clear_msg
  else if c =? Keyboard.KEY_RIGHT then _ ← ed_move_right; clear_msg
  else if c =? Keyboard.KEY_BACKSPACE then ed_delete_before
  else if c =? Keyboard.KEY_ENTER then ed_insert_char NL
  else if c =? Keyboard.KEY_TAB then _ ← ed_insert_char 32; ed_insert_char 32
  else if (0x20 <=? c) && (c <? 0x7F) then ed_insert_char c
  else mret tt.

Definition is_modifier_key (c : Z) : bool :=
  (c =? Keyboard.KEY_LCTRL) || (c =? Keyboard.KEY_RCTRL) || (c =? Keyboard.KEY_LSHIFT) || (c =? Keyboard.KEY_RSHIFT)
  || (c =? Keyboard.KEY_LALT) || (c =? Keyboard.KEY_RALT).

Definition with_ctrl (mods : Z) : bool := negb (Z.land mods (Z.lor Keyboard.KBD_MOD_LCTRL Keyboard.KBD_MOD_RCTRL) =? 0).

(** What a key leads to: the editor goes on with the remaining keys, is left,
    or waits inside the command line. *)
Inductive after_key := Go (keys : list key) | Left (keys : list key) | InCommand.

Definition handle_key (k : key) (keys : list key) (cmd : list Z) : prog editor after_key :=
  let '(c, mods) := k in
  if (c =? 0) || is_modifier_key c then mret (Go keys)
  else
    let redraw r := _ ← ed_scroll_into_view; _ ← ed_render; mret r in
    if with_ctrl mods && ((c =? 115) || (c =? 83)) then _ ← ed_save_file; redraw (Go keys)
    else if with_ctrl mods && ((c =? 120) || (c =? 88)) then _ ← on_screen console_clear; mret (Left keys)
    else if c =? Keyboard.KEY_ESC then
      r ← ed_run_command keys cmd;
      match r with
      | None => mret InCommand
      | Some (true, keys) => _ ← on_screen console_clear; mret (Left keys)
      | Some (false, keys) => redraw (Go keys)
      end
    else _ ← edit_key c; redraw (Go keys).

(** The loop over the keys; each round takes at least one. *)
Fixpoint editor_loop (fuel : nat) (keys : list key) (cmd : list Z) : prog editor after_key :=
  match fuel with
  | O => need None
  | S fuel =>
      match keys with
      | [] => mret (Go [])
      | k :: keys =>
          r ← handle_key k keys cmd;
          match r with
          | Go keys => editor_loop fuel keys cmd
          | _ => mret r
          end
      end
  end.

Definition editor_open (filename : list Z) (keys : list key) (cmd : list Z) : prog editor after_key :=
  path ← gets g_path;
  path ← need (ed_strcpy_n path filename EDITOR_FILENAME_MAX);
  _ ← modify (set_path path);
  _ ← clear_msg;
  name ← need (c_string path);
  _ ← ed_load_file name;
  _ ← on_screen console_clear;
  _ ← ed_render;
  editor_loop (S (length keys)) keys cmd.

End editor.
#[global] Arguments editor W : clear implicits.
(** * The text and the invariant *)

Section text.
Context {W : Type} {HW : FileCalls W} {HL : FileCallsLaws W}.
Implicit Types (e : editor W).

(** The text being edited. *)
Definition contents e : list Z := take (Z.to_nat (g_len e)) (g_buf e).

Record ed_ok e : Prop := {
  ed_buf : Z.of_nat (length (g_buf e)) = 8192;
  ed_len : 0 <= g_len e <= 8191;
  ed_cur : 0 <= g_cursor e <= g_len e;
  ed_view : 0 <= g_view_off e <= 8192;
  ed_path : length (g_path e) = 64%nat /\ is_Some (c_string (g_path e));
  ed_msg : length (g_status_msg e) = 80%nat /\ is_Some (c_string (g_status_msg e));
  ed_scr : console_ok (screen e);
  ed_files : fc_inv (files e) }.

Lemma contents_length e : ed_ok e -> Z.of_nat (length (contents e)) = g_len e.
Proof. intros He. unfold contents. rewrite length_take. pose proof (ed_len e He). pose proof (ed_buf e He). lia. Qed.

Lemma arr_get_take {A} (l : list A) n i : 0 <= i < n -> arr_get (take (Z.to_nat n) l) i = arr_get l i.
Proof. intros Hi. unfold arr_get. rewrite (proj2 (Z.leb_le _ _)) by lia. apply lookup_take_lt. lia. Qed.

Lemma runs_on_screen {A} (m : prog console_t A) e (Q : A -> editor W -> Prop) :
  runs m (screen e) (fun a s => Q a (set_screen s e)) -> runs (on_screen m) e Q.
Proof. intros (a & s & Hm & HQ). exists a, (set_screen s e). split; [|done]. unfold on_screen. by rewrite Hm. Qed.

Lemma runs_char_at i e (Q : Z -> editor W -> Prop) : 0 <= i < Z.of_nat (length (g_buf e)) ->
  (forall c, arr_get (g_buf e) i = Some c -> Q c e) -> runs (char_at i) e Q.
Proof.
  intros Hi HQ. destruct (arr_get_in (g_buf e) i Hi) as [c Hc]. unfold char_at. run.
  eapply runs_need; [exact Hc|]. by apply HQ.
Qed.

(** * Moving bytes *)

(** Moving [b] one place up overwrites the byte after it. *)
Lemma move_down_shift b : forall (a : list Z) x r,
  move_down (length b) (Z.of_nat (length a) + 1) (Z.of_nat (length a)) (a ++ b ++ x :: r) = Some (a ++ List.hd x b :: b ++ r).
Proof.
  induction b as [|y b IH] using rev_ind; intros a x r; [done|].
  rewrite length_app, Nat.add_1_r. cbn [move_down].
  rewrite <- (app_assoc b [y]). cbn [app].
  replace (arr_get (a ++ b ++ y :: x :: r) (Z.of_nat (length a) + Z.of_nat (length b))) with (Some y).
  2:{ rewrite app_assoc, <- Nat2Z.inj_add, <- length_app. symmetry. apply arr_get_app. }
  cbn [mbind option_bind].
  replace (arr_set (a ++ b ++ y :: x :: r) (Z.of_nat (length a) + 1 + Z.of_nat (length b)) y) with (Some (a ++ b ++ y :: y :: r)).
  2:{ replace (a ++ b ++ y :: x :: r) with ((a ++ b ++ [y]) ++ x :: r) by (by rewrite <- !app_assoc).
      replace (a ++ b ++ y :: y :: r) with ((a ++ b ++ [y]) ++ y :: r) by (by rewrite <- !app_assoc).
      replace (Z.of_nat (length a) + 1 + Z.of_nat (length b)) with (Z.of_nat (length (a ++ b ++ [y])))
        by (rewrite !length_app; cbn; lia). symmetry. apply arr_set_app. }
  cbn [mbind option_bind]. rewrite IH, <- app_assoc. by destruct b.
Qed.

(** Moving [b] one place down overwrites the byte before it. *)
Lemma move_up_shift b : forall (a : list Z) y r i dst, dst + i = Z.of_nat (length a) ->
  exists z, move_up (length b) i dst (dst + 1) (a ++ y :: b ++ r) = Some (a ++ b ++ z :: r).
Proof.
  induction b as [|z b IH]; intros a y r i dst Hi; cbn [length move_up]; [by eexists|].
  replace (arr_get (a ++ y :: (z :: b) ++ r) (dst + 1 + i)) with (Some z).
  2:{ replace (dst + 1 + i) with (Z.of_nat (length (a ++ [y]))) by (rewrite length_app; cbn; lia).
      replace (a ++ y :: (z :: b) ++ r) with ((a ++ [y]) ++ z :: b ++ r) by (by rewrite <- app_assoc). symmetry. apply arr_get_app. }
  cbn [mbind option_bind]. rewrite Hi, arr_set_app. cbn [mbind option_bind app].
  destruct (IH (a ++ [z]) z r (i + 1) dst) as [w Hw]; [rewrite length_app; cbn; lia|].
  exists w. rewrite <- !app_assoc in Hw. exact Hw.
Qed.

(** The buffer around the cursor. *)
Lemma split_buffer e : ed_ok e -> exists before after junk,
  g_buf e = before ++ after ++ junk /\ g_cursor e = Z.of_nat (length before) /\
  g_len e = Z.of_nat (length before) + Z.of_nat (length after) /\ contents e = before ++ after /\
  Z.of_nat (length before + length after + length junk) = 8192.
Proof.
  intros He. pose proof (ed_buf e He) as Hb. pose proof (ed_len e He). pose proof (ed_cur e He).
  exists (take (Z.to_nat (g_cursor e)) (g_buf e)), (drop (Z.to_nat (g_cursor e)) (contents e)), (drop (Z.to_nat (g_len e)) (g_buf e)).
  pose proof (contents_length e He). split_and!.
  - rewrite <- (take_drop (Z.to_nat (g_len e)) (g_buf e)) at 1. fold (contents e).
    rewrite <- (take_drop (Z.to_nat (g_cursor e)) (contents e)) at 1. rewrite <- app_assoc. f_equal.
    unfold contents. rewrite take_take. f_equal. lia.
  - rewrite length_take. lia.
  - rewrite length_take, length_drop. lia.
  - rewrite <- (take_drop (Z.to_nat (g_cursor e)) (contents e)) at 1. f_equal. unfold contents. rewrite take_take. f_equal. lia.
  - rewrite length_take, !length_drop. lia.
Qed.

Lemma contents_app e before after junk : g_buf e = before ++ after ++ junk ->
  g_len e = Z.of_nat (length before) + Z.of_nat (length after) -> contents e = before ++ after.
Proof.
  intros Hb Hl. unfold contents. rewrite Hb, Hl, app_assoc, <- Nat2Z.inj_add, Nat2Z.id, <- length_app. apply take_app_length.
Qed.

(** * Messages *)

(** A step that changes neither the text, the cursor nor the view. *)
Definition same_text e e' : Prop :=
  g_buf e' = g_buf e /\ g_len e' = g_len e /\ g_cursor e' = g_cursor e /\ g_view_off e' = g_view_off e.

Lemma same_refl e : same_text e e.
Proof. done. Qed.

Lemma same_trans e1 e2 e3 : same_text e1 e2 -> same_text e2 e3 -> same_text e1 e3.
Proof. unfold same_text. intuition congruence. Qed.

Lemma same_contents e e' : same_text e e' -> contents e' = contents e.
Proof. intros (Hb & Hl & _). unfold contents. by rewrite Hb, Hl. Qed.

Lemma ed_set_status_ok msg e : ed_ok e ->
  runs (ed_set_status msg) e (fun _ e' => ed_ok e' /\ same_text e e' /\ g_dirty e' = g_dirty e /\ screen e' = screen e).
Proof.
  intros He. destruct (ed_msg e He) as [Hm _]. unfold ed_set_status. run.
  destruct (strcpy_in (g_status_msg e) msg 80) as (m & Hs & Hl & Hc); [lia|lia|].
  eapply runs_need; [exact Hs|]. run. split_and!; [|done..]. destruct He. constructor; cbn; try done. by rewrite Hl.
Qed.

Lemma clear_msg_ok e : ed_ok e ->
  runs clear_msg e (fun _ e' => ed_ok e' /\ same_text e e' /\ g_dirty e' = g_dirty e /\ screen e' = screen e).
Proof.
  intros He. destruct (ed_msg e He) as [Hm _]. unfold clear_msg. run. eapply runs_need; [apply arr_set_in; lia|].
  run. split_and!; [|done..]. destruct He. constructor; cbn; try done. rewrite length_insert. split; [done|apply c_string_zero; lia].
Qed.

(** * Inserting and deleting *)

Lemma ed_insert_char_ok c e : ed_ok e ->
  runs (ed_insert_char c) e (fun _ e' => ed_ok e' /\ g_view_off e' = g_view_off e /\
    if g_len e <? 8191 then
      contents e' = take (Z.to_nat (g_cursor e)) (contents e) ++ c :: drop (Z.to_nat (g_cursor e)) (contents e) /\
      g_cursor e' = g_cursor e + 1 /\ take (Z.to_nat (g_cursor e)) (g_buf e') = take (Z.to_nat (g_cursor e)) (g_buf e)
    else same_text e e').
Proof.
  intros He. destruct (split_buffer e He) as (b & a & junk & Hb & Hc & Hl & Ht & Hn).
  pose proof (ed_len e He). unfold ed_insert_char, EDITOR_BUFFER_SIZE. run.
  destruct (Z.leb_spec 8192 (g_len e + 1)), (Z.ltb_spec (g_len e) 8191); try lia.
  { eapply runs_mono; [by apply ed_set_status_ok|]. intros [] e' (? & Hs & _ & _). split_and!; [done|by apply Hs|done]. }
  destruct junk as [|x junk]; [cbn in Hn; lia|].
  assert (exists buf, ed_memmove (g_cursor e + 1) (g_cursor e) (g_len e - g_cursor e) (g_buf e) = Some buf /\
    arr_set buf (g_cursor e) c = Some (b ++ c :: a ++ junk)) as (buf & Hm & Hset).
  { unfold ed_memmove. rewrite (proj2 (Z.eqb_neq (g_cursor e + 1) _)) by lia. cbn [orb].
    destruct (Z.eqb_spec (g_len e - g_cursor e) 0) as [E|E].
    - destruct a as [|y a]; [|cbn in *; lia]. exists (g_buf e). rewrite Hb, Hc. split; [done|]. apply arr_set_app.
    - rewrite (proj2 (Z.ltb_ge _ _)) by lia. replace (Z.to_nat (g_len e - g_cursor e)) with (length a) by lia.
      rewrite Hb, Hc, move_down_shift. eexists. split; [done|]. apply arr_set_app. }
  run. eapply runs_need; [exact Hm|]. run. eapply runs_need; [exact Hset|]. run.
  assert (ed_ok (set_dirty true (set_text (b ++ c :: a ++ junk) (g_len e + 1) (g_cursor e + 1) e))) as Hok.
  { destruct He. constructor; cbn; try done; try lia. rewrite length_app. cbn. rewrite length_app. cbn in Hn. lia. }
  split_and!; [done|done| |done|].
  - rewrite (contents_app _ (b ++ [c]) a junk); cbn [set_dirty set_text g_buf g_len].
    + rewrite Ht, Hc, Nat2Z.id, take_app_length, drop_app_length, <- app_assoc. done.
    + by rewrite <- app_assoc.
    + rewrite length_app. cbn. lia.
  - cbn [set_dirty set_text g_buf]. rewrite Hb, Hc, Nat2Z.id, !take_app_length. done.
Qed.

Lemma ed_delete_before_ok e : ed_ok e ->
  runs ed_delete_before e (fun _ e' => ed_ok e' /\ g_view_off e' = g_view_off e /\
    if 0 <? g_cursor e then
      contents e' = take (Z.to_nat (g_cursor e - 1)) (contents e) ++ drop (Z.to_nat (g_cursor e)) (contents e) /\
      g_cursor e' = g_cursor e - 1 /\ take (Z.to_nat (g_cursor e - 1)) (g_buf e') = take (Z.to_nat (g_cursor e - 1)) (g_buf e)
    else same_text e e').
Proof.
  intros He. destruct (split_buffer e He) as (b & a & junk & Hb & Hc & Hl & Ht & Hn).
  pose proof (ed_len e He). unfold ed_delete_before. run.
  destruct (Z.eqb_spec (g_cursor e) 0), (Z.ltb_spec 0 (g_cursor e)); try lia.
  { run. done. }
  destruct (exists_last (l := b)) as (b' & y & ->); [intros ->; cbn in Hc; lia|].
  rewrite length_app in *. cbn [length] in *. rewrite <- !app_assoc in *. cbn [app] in *.
  assert (exists z, ed_memmove (g_cursor e - 1) (g_cursor e) (g_len e - g_cursor e) (g_buf e) = Some (b' ++ a ++ z :: junk)) as [z Hm].
  { unfold ed_memmove. rewrite (proj2 (Z.eqb_neq (g_cursor e - 1) _)) by lia. cbn [orb].
    destruct (Z.eqb_spec (g_len e - g_cursor e) 0) as [E|E].
    - destruct a as [|z a]; [|cbn in *; lia]. exists y. by rewrite Hb.
    - rewrite (proj2 (Z.ltb_lt _ _)) by lia. replace (Z.to_nat (g_len e - g_cursor e)) with (length a) by lia.
      rewrite Hb. destruct (move_up_shift a b' y junk 0 (g_cursor e - 1)) as [z Hz]; [lia|].
      exists z. by replace (g_cursor e - 1 + 1) with (g_cursor e) in Hz by lia. }
  run. eapply runs_need; [exact Hm|]. run.
  assert (ed_ok (set_dirty true (set_text (b' ++ a ++ z :: junk) (g_len e - 1) (g_cursor e - 1) e))) as Hok.
  { destruct He. constructor; cbn; try done; try lia. rewrite !length_app. cbn. lia. }
  split_and!; [done|done| |done|].
  - rewrite (contents_app _ b' a (z :: junk)); cbn [set_dirty set_text g_buf g_len]; [|done|lia].
    rewrite Ht. replace (Z.to_nat (g_cursor e - 1)) with (length b') by lia. rewrite take_app_length. f_equal.
    rewrite cons_middle, app_assoc, drop_app_length'; [done|]. rewrite length_app. cbn. lia.
  - cbn [set_dirty set_text g_buf]. rewrite Hb. replace (Z.to_nat (g_cursor e - 1)) with (length b') by lia.
    rewrite !take_app_length. done.
Qed.
End text.
(** * Lines *)

Section geometry.
Context {W : Type} {HW : FileCalls W} {HL : FileCallsLaws W}.
Implicit Types (e : editor W) (l : list Z).

Definition nl_free l (i j : Z) : Prop := forall p, i <= p < j -> arr_get l p <> Some NL.
Definition starts l (s : Z) : Prop := s = 0 \/ arr_get l (s - 1) = Some NL.

Lemma runs_of {S A} (m : prog S A) s a s' (Q : A -> S -> Prop) : m s = Some (a, s') -> Q a s' -> runs m s Q.
Proof. intros H1 H2. by exists a, s'. Qed.

Lemma nl_free_snoc l i j : nl_free l (i + 1) j -> arr_get l i <> Some NL -> nl_free l i j.
Proof. intros H Hi p Hp. destruct (Z.eq_dec p i) as [->|]; [done|]. apply H. lia. Qed.

Lemma line_start_loop_ok fuel : forall off e, 0 <= off <= Z.of_nat (length (g_buf e)) -> (Z.to_nat off < fuel)%nat ->
  exists s, line_start_loop fuel off e = Some (s, e) /\ 0 <= s <= off /\ starts (g_buf e) s /\ nl_free (g_buf e) s off.
Proof.
  induction fuel as [|fuel IH]; intros off e Hoff Hf; [lia|]. cbn [line_start_loop].
  destruct (Z.ltb_spec 0 off).
  2:{ exists off. split_and!; [done|lia|lia|left; lia|]. intros p Hp. lia. }
  destruct (arr_get_in (g_buf e) (off - 1)) as [c Hc]; [lia|].
  unfold mbind at 1, prog_bind at 1, char_at, mbind, prog_bind, gets, need. rewrite Hc. cbn [fmap option_fmap option_map].
  destruct (Z.eqb_spec c NL) as [->|Hne]; cbn [negb].
  - exists off. split_and!; [done|lia|lia|by right|]. intros p Hp. lia.
  - destruct (IH (off - 1) e) as (s & Hs & Hr & Hst & Hfree); [lia|lia|]. exists s. split_and!; [done|lia|lia|done|].
    intros p Hp. destruct (Z.eq_dec p (off - 1)) as [->|]; [congruence|]. apply Hfree. lia.
Qed.

Lemma line_start_ok off e : ed_ok e -> 0 <= off <= 8192 ->
  exists s, ed_line_start off e = Some (s, e) /\ 0 <= s <= off /\ starts (g_buf e) s /\ nl_free (g_buf e) s off.
Proof. intros He Hoff. pose proof (ed_buf e He). apply line_start_loop_ok; lia. Qed.

Lemma line_end_loop_ok fuel : forall off e, 0 <= off <= g_len e -> g_len e <= Z.of_nat (length (g_buf e)) ->
  (Z.to_nat (g_len e - off) < fuel)%nat ->
  exists x, line_end_loop fuel off e = Some (x, e) /\ off <= x <= g_len e /\
    (x = g_len e \/ arr_get (g_buf e) x = Some NL) /\ nl_free (g_buf e) off x.
Proof.
  induction fuel as [|fuel IH]; intros off e Hoff Hl Hf; [lia|]. cbn [line_end_loop].
  unfold mbind at 1, prog_bind at 1, gets at 1. destruct (Z.ltb_spec off (g_len e)).
  2:{ exists off. split_and!; [done|lia|lia|left; lia|]. intros p Hp. lia. }
  destruct (arr_get_in (g_buf e) off) as [c Hc]; [lia|].
  unfold mbind at 1, prog_bind at 1, char_at, mbind, prog_bind, gets, need. rewrite Hc. cbn [fmap option_fmap option_map].
  destruct (Z.eqb_spec c NL) as [->|Hne]; cbn [negb].
  - exists off. split_and!; [done|lia|lia|by right|]. intros p Hp. lia.
  - destruct (IH (off + 1) e) as (x & Hx & Hr & Hend & Hfree); [lia|lia|lia|]. exists x. split_and!; [done|lia|lia|done|].
    apply nl_free_snoc; [done|congruence].
Qed.

Lemma line_end_ok off e : ed_ok e -> 0 <= off <= g_len e ->
  exists x, ed_line_end off e = Some (x, e) /\ off <= x <= g_len e /\
    (x = g_len e \/ arr_get (g_buf e) x = Some NL) /\ nl_free (g_buf e) off x.
Proof.
  intros He Hoff. pose proof (ed_buf e He). pose proof (ed_len e He).
  unfold ed_line_end, mbind, prog_bind, gets. apply line_end_loop_ok; lia.
Qed.

(** The start of the line before the one at [off] is further left. *)
Lemma prev_line_ok off e : ed_ok e -> 0 < off <= 8192 ->
  exists v, ed_prev_line off e = Some (v, e) /\ 0 <= v < off /\ starts (g_buf e) v.
Proof.
  intros He Hoff. destruct (line_start_ok off e He ltac:(lia)) as (s & Hs & Hr & Hst & _).
  unfold ed_prev_line, mbind, prog_bind. rewrite Hs. destruct (Z.eqb_spec s 0).
  - exists 0. split_and!; [done|lia|lia|by left].
  - destruct (line_start_ok (s - 1) e He ltac:(lia)) as (s' & -> & Hr' & Hst' & _). exists s'. split_and!; [done|lia|lia|done].
Qed.

(** * Rows *)

(** Newlines of the buffer between two offsets. *)
Definition newlines l (i j : Z) : Z := countb (fun c => c =? NL) (slice i (j - i) l).

Lemma countb_app {A} (f : A -> bool) (a b : list A) : countb f (a ++ b) = countb f a + countb f b.
Proof. induction a as [|x a IH]; cbn [countb app]; lia. Qed.

Lemma newlines_step l i j c : 0 <= i < j -> arr_get l i = Some c ->
  newlines l i j = (if c =? NL then 1 else 0) + newlines l (i + 1) j.
Proof.
  intros Hi Hc. unfold newlines, slice. unfold arr_get in Hc. rewrite (proj2 (Z.leb_le _ _)) in Hc by lia.
  rewrite (drop_S l c (Z.to_nat i) Hc). replace (Z.to_nat (j - i)) with (S (Z.to_nat (j - (i + 1)))) by lia.
  cbn [take countb]. by replace (Z.to_nat (i + 1)) with (S (Z.to_nat i)) by lia.
Qed.

Lemma newlines_range l i j : 0 <= i <= j -> 0 <= newlines l i j <= j - i.
Proof.
  intros Hi. unfold newlines. pose proof (countb_range (fun c => c =? NL) (slice i (j - i) l)) as Hr.
  unfold slice in *. rewrite length_take in Hr. lia.
Qed.

Lemma newlines_free l j : forall n i, Z.to_nat (j - i) = n -> 0 <= i <= j -> j <= Z.of_nat (length l) -> nl_free l i j -> newlines l i j = 0.
Proof.
  induction n as [|n IH]; intros i Hn Hi Hj Hf.
  - unfold newlines, slice. by rewrite Hn.
  - destruct (arr_get_in l i) as [c Hc]; [lia|]. rewrite (newlines_step l i j c) by (done || lia).
    destruct (Z.eqb_spec c NL) as [->|]; [by destruct (Hf i); [lia|]|]. rewrite IH; [done|lia|lia|done|]. intros p Hp. apply Hf. lia.
Qed.

Lemma newlines_split l i m j : 0 <= i <= m -> m <= j -> newlines l i j = newlines l i m + newlines l m j.
Proof.
  intros Hi Hm. unfold newlines. rewrite <- countb_app. f_equal. unfold slice.
  replace (Z.to_nat (j - i)) with (Z.to_nat (m - i) + Z.to_nat (j - m))%nat by lia.
  rewrite <- take_take_drop, drop_drop. do 3 f_equal. lia.
Qed.

Lemma screen_row_loop_ok fuel : forall i off row e, 0 <= i <= off -> off <= Z.of_nat (length (g_buf e)) -> row < 24 ->
  (Z.to_nat (off - i) < fuel)%nat ->
  screen_row_loop fuel i off row e = Some (Z.min 24 (row + newlines (g_buf e) i off), e).
Proof.
  induction fuel as [|fuel IH]; intros i off row e Hi Hoff Hrow Hf; [lia|]. cbn [screen_row_loop].
  pose proof (newlines_range (g_buf e) i off ltac:(lia)).
  destruct (Z.ltb_spec i off); [|unfold mret, prog_ret; do 2 f_equal; lia].
  destruct (arr_get_in (g_buf e) i) as [c Hc]; [lia|]. rewrite (newlines_step (g_buf e) i off c) in * by (done || lia).
  unfold mbind at 1, prog_bind at 1, char_at, mbind, prog_bind, gets, need. rewrite Hc. cbn [fmap option_fmap option_map].
  pose proof (newlines_range (g_buf e) (i + 1) off ltac:(lia)).
  destruct (c =? NL); unfold EDITOR_TEXT_ROWS.
  - destruct (Z.leb_spec 24 (row + 1)); [unfold mret, prog_ret; do 2 f_equal; lia|].
    rewrite IH by lia. do 2 f_equal; lia.
  - destruct (Z.leb_spec 24 row); [lia|]. rewrite IH by lia. do 2 f_equal; lia.
Qed.

Lemma screen_row_ok off e : ed_ok e -> g_view_off e <= off <= 8192 ->
  ed_screen_row off e = Some (Z.min 24 (newlines (g_buf e) (g_view_off e) off), e).
Proof.
  intros He Hoff. pose proof (ed_buf e He). pose proof (ed_view e He). unfold ed_screen_row, mbind, prog_bind, gets.
  destruct (Z.ltb_spec off (g_view_off e)); [lia|]. by rewrite screen_row_loop_ok by lia.
Qed.

(** * The view *)

(** The cursor's line is one of the 24 on the screen, and the view starts at
    the start of a line. *)
Record visible e : Prop := {
  vi_below : g_view_off e <= g_cursor e;
  vi_starts : starts (g_buf e) (g_view_off e);
  vi_rows : newlines (g_buf e) (g_view_off e) (g_cursor e) <= 23 }.

Lemma set_view_ok v e : ed_ok e -> 0 <= v <= 8192 -> ed_ok (set_view v e).
Proof. by intros [] Hv. Qed.

Lemma scroll_up_ok fuel : forall e, ed_ok e -> (Z.to_nat (g_view_off e) < fuel)%nat ->
  runs (scroll_up_loop fuel) e (fun _ e' => exists v, e' = set_view v e /\ 0 <= v <= g_cursor e /\
    (v = g_view_off e \/ starts (g_buf e) v)).
Proof.
  induction fuel as [|fuel IH]; intros e He Hf; [lia|]. cbn [scroll_up_loop]. pose proof (ed_view e He). pose proof (ed_cur e He).
  run. destruct (Z.ltb_spec (g_cursor e) (g_view_off e)).
  - destruct (prev_line_ok (g_view_off e) e He) as (v & Hv & Hr & Hst); [lia|]. apply runs_bind.
    apply (runs_of _ _ _ _ _ Hv). run. eapply runs_mono; [apply IH; [apply set_view_ok; [done|lia]|cbn; lia]|].
    intros [] e' (w & -> & Hw & Hor). exists w. split_and!; [done|lia|apply Hw|]. right. by destruct Hor as [->|].
  - run. exists (g_view_off e). split_and!; [by destruct e|lia|lia|by left].
Qed.

Lemma scroll_down_ok fuel : forall e, ed_ok e -> g_view_off e <= g_cursor e -> starts (g_buf e) (g_view_off e) ->
  (Z.to_nat (g_cursor e - g_view_off e) < fuel)%nat ->
  runs (scroll_down_loop fuel) e (fun _ e' => exists v, e' = set_view v e /\ 0 <= v <= 8192 /\ visible e').
Proof.
  induction fuel as [|fuel IH]; intros e He Hv Hst Hf; [lia|]. cbn [scroll_down_loop].
  pose proof (ed_view e He). pose proof (ed_cur e He). pose proof (ed_len e He). pose proof (ed_buf e He).
  run. apply (runs_of _ _ _ _ _ (screen_row_ok (g_cursor e) e He ltac:(lia))). unfold EDITOR_TEXT_ROWS.
  destruct (Z.leb_spec 24 (Z.min 24 (newlines (g_buf e) (g_view_off e) (g_cursor e)))) as [Hrow|Hrow].
  2:{ run. exists (g_view_off e). split_and!; [by destruct e|lia|lia|]. constructor; [done|done|lia]. }
  run. destruct (line_end_ok (g_view_off e) e He ltac:(lia)) as (x & Hx & Hr & Hend & Hfree).
  assert (x < g_cursor e) as Hxc.
  { destruct (Z.lt_ge_cases x (g_cursor e)); [done|exfalso].
    rewrite (newlines_free _ _ _ _ eq_refl) in Hrow; [lia|lia|lia|]. intros p Hp. apply Hfree. lia. }
  destruct Hend as [->|Hnl]; [lia|].
  assert (Hn : newlines (g_buf e) (g_view_off e) (g_cursor e) = 1 + newlines (g_buf e) (x + 1) (g_cursor e)).
  { rewrite (newlines_split _ _ x) by lia. rewrite (newlines_free _ x _ _ eq_refl), (newlines_step _ x _ NL) by (done || lia).
    rewrite Z.eqb_refl. lia. }
  unfold ed_next_line. apply runs_bind, (runs_of _ _ _ _ _ Hx). run.
  rewrite (proj2 (Z.leb_gt _ _)) by lia. run.
  assert (starts (g_buf e) (x + 1)) as Hst' by (right; by rewrite Z.add_simpl_r).
  destruct (Z.leb_spec (g_len (set_view (x + 1) e)) (x + 1)) as [Hle|Hle]; cbn in Hle.
  - run. exists (x + 1). split_and!; [done|lia|lia|]. constructor; cbn; [lia|done|].
    pose proof (newlines_range (g_buf e) (x + 1) (g_cursor e) ltac:(lia)). lia.
  - eapply runs_mono; [apply IH; [apply set_view_ok; [done|lia]|cbn; lia|done|cbn; lia]|].
    intros [] e' (v & -> & Hv' & Hvis). by exists v.
Qed.

(** After scrolling the cursor is visible. *)
Lemma scroll_ok e : ed_ok e -> (g_view_off e <= g_cursor e -> starts (g_buf e) (g_view_off e)) ->
  runs ed_scroll_into_view e (fun _ e' => exists v, e' = set_view v e /\ ed_ok e' /\ visible e').
Proof.
  intros He Hst. unfold ed_scroll_into_view. run. eapply runs_mono; [apply scroll_up_ok; [done|lia]|].
  intros [] e' (v & -> & Hv & Hor). pose proof (ed_len e He). pose proof (ed_cur e He). run.
  eapply runs_mono; [apply scroll_down_ok|].
  - apply set_view_ok; [done|lia].
  - cbn. lia.
  - cbn. destruct Hor as [->|]; [apply Hst; lia|done].
  - cbn. lia.
  - intros [] e' (w & -> & Hw & Hvis). exists w. split_and!; [done|exact (set_view_ok w e He Hw)|done].
Qed.

End geometry.
(** * Moving the cursor *)

(** The line of the text [l] that holds offset [k] is [l[s..x)]. *)
Record line_of (l : list Z) (k s x : Z) : Prop := {
  lo_in : 0 <= s <= k /\ k <= x <= Z.of_nat (length l);
  lo_start : starts l s;
  lo_end : x = Z.of_nat (length l) \/ arr_get l x = Some NL;
  lo_free : nl_free l s x }.

(** One line up, to the same column or the end of a shorter line; in the first
    line the cursor stays. *)
Definition up_to (l : list Z) (k k' : Z) : Prop :=
  exists s x, line_of l k s x /\
    if s =? 0 then k' = k
    else exists s', line_of l (s - 1) s' (s - 1) /\ k' = s' + Z.min (k - s) (s - 1 - s').

(** One line down, to the same column or the end of a shorter line; in the last
    line the cursor stays. *)
Definition down_to (l : list Z) (k k' : Z) : Prop :=
  exists s x, line_of l k s x /\
    if x =? Z.of_nat (length l) then k' = k
    else exists x', line_of l (x + 1) (x + 1) x' /\ k' = x + 1 + Z.min (k - s) (x' - (x + 1)).

(** The text ends with a newline and the cursor is in the line it ends: the
    next line is the empty last one. *)
Definition above_empty_last (l : list Z) (k : Z) : Prop := exists s, line_of l k s (Z.of_nat (length l) - 1).

Lemma line_of_end l k s x s' x' : line_of l k s x -> line_of l k s' x' -> x = x'.
Proof.
  intros [Hi Hs He Hf] [Hi' Hs' He' Hf']. destruct (Z.lt_trichotomy x x') as [Hlt|[->|Hlt]]; [|done|].
  - destruct He as [->|He]; [lia|]. by destruct (Hf' x ltac:(lia)).
  - destruct He' as [->|He']; [lia|]. by destruct (Hf x' ltac:(lia)).
Qed.

Section moves.
Context {W : Type} {HW : FileCalls W} {HL : FileCallsLaws W}.
Implicit Types (e : editor W) (l : list Z).

Lemma contents_get e i : 0 <= i < g_len e -> arr_get (contents e) i = arr_get (g_buf e) i.
Proof. apply arr_get_take. Qed.

(** Facts found in the buffer hold of the text. *)
Lemma line_of_contents e k s x : ed_ok e -> 0 <= s <= k -> k <= x <= g_len e -> starts (g_buf e) s ->
  (x = g_len e \/ arr_get (g_buf e) x = Some NL) -> nl_free (g_buf e) s x -> line_of (contents e) k s x.
Proof.
  intros He Hs Hx Hst Hend Hf. pose proof (contents_length e He) as Hl. constructor.
  - lia.
  - destruct Hst as [->|Hst]; [by left|]. destruct (Z.eq_dec s 0) as [->|]; [by left|]. right. rewrite contents_get by lia. done.
  - destruct (Z.eq_dec x (g_len e)) as [->|]; [left; lia|]. destruct Hend as [|Hend]; [done|]. right. by rewrite contents_get by lia.
  - intros p Hp. rewrite contents_get by lia. by apply Hf.
Qed.

Lemma nl_free_join l i m j : nl_free l i m -> nl_free l m j -> nl_free l i j.
Proof. intros H1 H2 p Hp. destruct (Z.lt_ge_cases p m); [apply H1|apply H2]; lia. Qed.

Lemma set_cursor_ok k e : ed_ok e -> 0 <= k <= g_len e -> ed_ok (set_cursor k e).
Proof. by intros [] Hk. Qed.

Lemma ed_move_up_ok e : ed_ok e ->
  runs ed_move_up e (fun _ e' => exists k, e' = set_cursor k e /\ 0 <= k <= g_len e /\ up_to (contents e) (g_cursor e) k).
Proof.
  intros He. pose proof (ed_len e He). pose proof (ed_cur e He). pose proof (contents_length e He).
  destruct (line_start_ok (g_cursor e) e He ltac:(lia)) as (s & Hs & Hr & Hst & Hf).
  destruct (line_end_ok (g_cursor e) e He ltac:(lia)) as (x & Hx & Hrx & Hend & Hfx).
  pose proof (line_of_contents e (g_cursor e) s x He Hr Hrx Hst Hend (nl_free_join _ _ _ _ Hf Hfx)) as Hline.
  unfold ed_move_up, ed_col_at, ed_prev_line. run. apply (runs_of _ _ _ _ _ Hs). run. apply (runs_of _ _ _ _ _ Hs).
  destruct (Z.eqb_spec s 0) as [Hs0|Hs0].
  - run. apply (runs_of _ _ _ _ _ Hs). rewrite Hs0. cbn [Z.eqb]. run. exists (g_cursor e). split_and!; [by destruct e|lia|lia|].
    exists s, x. split; [done|]. by rewrite Hs0.
  - destruct (line_start_ok (s - 1) e He ltac:(lia)) as (p & Hp & Hrp & Hstp & Hfp). apply (runs_of _ _ _ _ _ Hp).
    run. apply (runs_of _ _ _ _ _ Hs). rewrite (proj2 (Z.eqb_neq _ _)) by lia.
    destruct (line_end_ok p e He ltac:(lia)) as (px & Hpx & Hrpx & Hendp & Hfpx).
    assert (Hnl : arr_get (g_buf e) (s - 1) = Some NL) by (by destruct Hst).
    assert (px = s - 1) as ->.
    { destruct (Z.lt_trichotomy px (s - 1)) as [Hlt|[->|Hgt]]; [|done|].
      - destruct Hendp as [->|Hendp]; [lia|]. by destruct (Hfp px); [lia|].
      - by destruct (Hfpx (s - 1)); [lia|]. }
    run. apply (runs_of _ _ _ _ _ Hpx). run. eexists. split; [done|]. split; [destruct (Z.ltb_spec (g_cursor e - s) (s - 1 - p)); lia|].
    exists s, x. split; [done|]. rewrite (proj2 (Z.eqb_neq s 0)) by done. exists p. split.
    + apply line_of_contents; [done|lia|lia|done|by right|done].
    + destruct (Z.ltb_spec (g_cursor e - s) (s - 1 - p)); lia.
Qed.

Lemma ed_move_down_ok e : ed_ok e ->
  runs ed_move_down e (fun _ e' => exists k, e' = set_cursor k e /\ 0 <= k <= g_len e /\
    (above_empty_last (contents e) (g_cursor e) /\ k = g_cursor e \/
     ~ above_empty_last (contents e) (g_cursor e) /\ down_to (contents e) (g_cursor e) k)).
Proof.
  intros He. pose proof (ed_len e He). pose proof (ed_cur e He). pose proof (contents_length e He) as Hcl.
  destruct (line_start_ok (g_cursor e) e He ltac:(lia)) as (s & Hs & Hr & Hst & Hf).
  destruct (line_end_ok (g_cursor e) e He ltac:(lia)) as (x & Hx & Hrx & Hend & Hfx).
  pose proof (line_of_contents e (g_cursor e) s x He Hr Hrx Hst Hend (nl_free_join _ _ _ _ Hf Hfx)) as Hline.
  unfold ed_move_down, ed_col_at, ed_next_line. apply runs_bind, runs_gets. apply runs_bind, runs_bind, (runs_of _ _ _ _ _ Hs), runs_ret.
  apply runs_bind, runs_bind, (runs_of _ _ _ _ _ Hx), runs_bind, runs_gets.
  destruct (Z.leb_spec (g_len e) (x + 1)) as [Hlast|Hlast].
  - apply (runs_mono _ _ (fun n t => t = e /\ g_len e <= n)); [destruct (Z.leb_spec (g_len e) x); run; split; (done || lia)|].
    intros n ? [-> Hn]. apply runs_bind, runs_gets. rewrite (proj2 (Z.leb_le _ _) Hn).
    apply runs_bind, (runs_of _ _ _ _ _ Hx), runs_bind, (runs_of _ _ _ _ _ Hs), runs_modify.
    assert ((if g_cursor e - s <? x - s then s + (g_cursor e - s) else x) = g_cursor e) as ->.
    { destruct (Z.ltb_spec (g_cursor e - s) (x - s)); lia. }
    exists (g_cursor e). split_and!; [done|lia|lia|]. destruct (Z.eq_dec x (g_len e)) as [Hxl|Hxl].
    + right. split; [intros [s' Hs']; pose proof (line_of_end _ _ _ _ _ _ Hline Hs'); lia|].
      exists s, x. split; [done|]. by rewrite Hcl, (proj2 (Z.eqb_eq _ _)) by lia.
    + left. split; [|done]. exists s. by replace (Z.of_nat (length (contents e)) - 1) with x by lia.
  - rewrite (proj2 (Z.leb_gt _ _)) by lia. apply runs_ret, runs_bind, runs_gets. rewrite (proj2 (Z.leb_gt _ _)) by lia.
    destruct Hend as [->|Hnl]; [lia|].
    destruct (line_end_ok (x + 1) e He ltac:(lia)) as (y & Hy & Hry & Hendy & Hfy).
    apply runs_bind, (runs_of _ _ _ _ _ Hy), runs_modify.
    eexists. split; [done|]. split; [destruct (Z.ltb_spec (g_cursor e - s) (y - (x + 1))); lia|].
    right. split; [intros [s' Hs']; pose proof (line_of_end _ _ _ _ _ _ Hline Hs'); lia|].
    exists s, x. split; [done|]. rewrite Hcl, (proj2 (Z.eqb_neq _ _)) by lia. exists y. split.
    + apply line_of_contents; [done|lia|lia| |done|done]. right. by rewrite Z.add_simpl_r.
    + destruct (Z.ltb_spec (g_cursor e - s) (y - (x + 1))); lia.
Qed.

End moves.
(** * The screen *)

(** The lines of a text. *)
Fixpoint lines (l : list Z) : list (list Z) :=
  match l with
  | [] => [[]]
  | c :: l =>
      if c =? NL then [] :: lines l
      else match lines l with h :: t => (c :: h) :: t | [] => [[c]] end
  end.

(** The character drawn at cell ([r], [x]) by a text that starts at cell
    ([row], [col]). *)
Fixpoint picture (l : list Z) (row col r x : Z) : option Z :=
  match l with
  | [] => None
  | c :: l =>
      if c =? NL then picture l (row + 1) 0 r x
      else if (r =? row) && (x =? col) then Some c
      else picture l row (col + 1) r x
  end.

Lemma lines_cons l : exists h t, lines l = h :: t.
Proof. induction l as [|c l (h & t & IH)]; cbn [lines]; [by eexists _, _|]. rewrite IH. destruct (c =? NL); by eexists _, _. Qed.

Lemma picture_above l : forall row col r x, r < row -> picture l row col r x = None.
Proof.
  induction l as [|c l IH]; intros row col r x Hr; cbn [picture]; [done|]. rewrite (proj2 (Z.eqb_neq r row)) by lia.
  destruct (c =? NL); apply IH; lia.
Qed.

Lemma picture_before l : forall row col x, x < col -> picture l row col row x = None.
Proof.
  induction l as [|c l IH]; intros row col x Hx; cbn [picture]; [done|]. rewrite (proj2 (Z.eqb_neq x col)), andb_false_r by lia.
  destruct (c =? NL); [apply picture_above; lia|apply IH; lia].
Qed.

(** What is drawn is the text's lines. *)
Lemma picture_lines l : forall row col r x, row <= r -> 0 <= col -> 0 <= x -> (r = row -> col <= x) ->
  picture l row col r x =
    lines l !! Z.to_nat (r - row) ≫= fun ln => ln !! Z.to_nat (if r =? row then x - col else x).
Proof.
  induction l as [|c l IH]; intros row col r x Hr Hc Hx Hcol; cbn [picture lines].
  { destruct (Z.to_nat (r - row)) as [|n]; [|done]. done. }
  destruct (c =? NL).
  - destruct (Z.eqb_spec r row) as [->|Hne].
    + rewrite picture_above by lia. by rewrite Z.sub_diag.
    + rewrite IH by lia. replace (Z.to_nat (r - row)) with (S (Z.to_nat (r - (row + 1)))) by lia. cbn [lookup list_lookup].
      destruct (r =? row + 1); [by rewrite Z.sub_0_r|done].
  - destruct (lines_cons l) as (h & t & Hl). destruct (Z.eqb_spec r row) as [->|Hne]; cbn [andb].
    + rewrite Hl, Z.sub_diag. cbn [Z.to_nat lookup list_lookup mbind option_bind]. destruct (Z.eqb_spec x col) as [->|Hxc].
      * by rewrite Z.sub_diag.
      * rewrite IH by lia. rewrite Z.eqb_refl, Z.sub_diag, Hl. cbn [Z.to_nat lookup list_lookup mbind option_bind].
        replace (Z.to_nat (x - col)) with (S (Z.to_nat (x - (col + 1)))) by lia. done.
    + rewrite IH by lia. rewrite (proj2 (Z.eqb_neq _ _) Hne), Hl. replace (Z.to_nat (r - row)) with (S (Z.to_nat (r - row - 1))) by lia. done.
Qed.

(** A character in its colours, as [ed_vga_put] stores it. *)
Definition glyph (c attr : Z) : Z := u16 (Z.lor (u8 c) (Z.shiftl attr 8)).

Section drawing.
Context {W : Type} {HW : FileCalls W} {HL : FileCallsLaws W}.
Implicit Types (e : editor W) (f g : Z -> Z -> option Z).

(** From [e] to [e'] only cells changed: those where [f] has a value, to that
    value. *)
Definition drawn e e' f : Prop := exists b,
  e' = set_screen (set_buffer b (screen e)) e /\ length b = 2000%nat /\
  forall r x, 0 <= r < 25 -> 0 <= x < 80 ->
    arr_get b (r * 80 + x) = match f r x with Some v => Some v | None => arr_get (buffer (screen e)) (r * 80 + x) end.

Lemma drawn_trans e e1 e2 f g : drawn e e1 f -> drawn e1 e2 g ->
  drawn e e2 (fun r x => match g r x with Some v => Some v | None => f r x end).
Proof.
  intros (b & -> & Hl & Hb) (b2 & -> & Hl2 & Hb2). exists b2. split_and!; [done|done|]. intros r x Hr Hx.
  rewrite Hb2 by done. cbn. rewrite Hb by done. by destruct (g r x).
Qed.

Lemma drawn_ext e e' f g : drawn e e' f -> (forall r x, 0 <= r < 25 -> 0 <= x < 80 -> f r x = g r x) -> drawn e e' g.
Proof. intros (b & -> & Hl & Hb) Hfg. exists b. split_and!; [done|done|]. intros. by rewrite <- Hfg, Hb. Qed.

Lemma drawn_none e : length (buffer (screen e)) = 2000%nat -> drawn e e (fun _ _ => None).
Proof. intros Hl. exists (buffer (screen e)). split_and!; [|done|done]. by destruct e as [? ? ? ? ? ? ? [] ?]. Qed.

Lemma drawn_length e e' f : drawn e e' f -> length (buffer (screen e')) = 2000%nat.
Proof. by intros (b & -> & Hl & _). Qed.

Lemma vga_put_ok row col c attr e : length (buffer (screen e)) = 2000%nat -> 0 <= row -> 0 <= col ->
  runs (ed_vga_put row col c attr) e (fun _ e' =>
    drawn e e' (fun r x => if (r =? row) && (x =? col) then Some (glyph c attr) else None)).
Proof.
  intros Hl Hr Hc. unfold ed_vga_put, EDITOR_SCREEN_ROWS, EDITOR_SCREEN_COLS.
  destruct (Z.leb_spec 25 row); [|destruct (Z.leb_spec 80 col)]; cbn [orb];
    try (run; eapply drawn_ext; [by apply drawn_none|]; intros; cbn; zcases; done).
  apply runs_on_screen. eapply runs_mono; [apply store_ok; [done|lia]|]. intros [] s ->.
  eexists. split_and!; [done|by rewrite length_insert|]. intros r x Hr' Hx'. rewrite arr_get_insert by lia.
  destruct (Z.eqb_spec r row) as [->|], (Z.eqb_spec x col) as [->|]; cbn [andb]; zcases; try done; nia.
Qed.

(** A loop of drawing steps. *)
Lemma draw_loop n : forall i (body : Z -> prog (editor W) unit) (f : Z -> Z -> Z -> option Z) e,
  length (buffer (screen e)) = 2000%nat ->
  (forall j t, i <= j < i + Z.of_nat n -> length (buffer (screen t)) = 2000%nat -> runs (body j) t (fun _ t' => drawn t t' (f j))) ->
  runs (for_ n i body) e (fun _ e' => exists g, drawn e e' g /\
    forall r x, match g r x with
                | None => forall j, i <= j < i + Z.of_nat n -> f j r x = None
                | Some v => exists j, i <= j < i + Z.of_nat n /\ f j r x = Some v
                end).
Proof.
  induction n as [|n IH]; intros i body f e Hl Hbody; cbn [for_].
  { run. eexists. split; [by apply drawn_none|]. intros r x j Hj. lia. }
  run. eapply runs_mono; [apply Hbody; [lia|done]|]. intros [] e1 H1.
  eapply runs_mono; [apply (IH (i + 1) body f e1); [by eapply drawn_length|intros; apply Hbody; [lia|done]]|].
  intros [] e2 (g & H2 & Hg). eexists. split; [by eapply drawn_trans|]. intros r x. cbv beta. specialize (Hg r x).
  destruct (g r x) as [v|]; [destruct Hg as (j & Hj & Hv); exists j; split; [lia|done]|].
  destruct (f i r x) as [v|] eqn:E; [exists i; split; [lia|done]|].
  intros j Hj. destruct (Z.eq_dec j i) as [->|]; [done|]. apply Hg. lia.
Qed.

Lemma clear_row_ok row attr e : length (buffer (screen e)) = 2000%nat -> 0 <= row ->
  runs (ed_clear_row row attr) e (fun _ e' => drawn e e' (fun r x => if r =? row then Some (glyph 32 attr) else None)).
Proof.
  intros Hl Hr. unfold ed_clear_row, EDITOR_SCREEN_COLS.
  eapply runs_mono; [apply (draw_loop _ 0 _ (fun col r x => if (r =? row) && (x =? col) then Some (glyph 32 attr) else None) e Hl)|].
  { intros j t Hj Ht. apply vga_put_ok; [done|lia|lia]. }
  intros [] e' (g & Hd & Hg). eapply drawn_ext; [exact Hd|]. intros r x Hr' Hx. specialize (Hg r x).
  destruct (g r x) as [v|].
  - destruct Hg as (j & _ & Hv). by destruct (r =? row), (x =? j).
  - specialize (Hg x ltac:(lia)). rewrite Z.eqb_refl, andb_true_r in Hg. by destruct (r =? row).
Qed.

Lemma clear_text_ok e : length (buffer (screen e)) = 2000%nat ->
  runs ed_clear_text_area e (fun _ e' => drawn e e' (fun r x => if r <? 24 then Some (glyph 32 text_attr) else None)).
Proof.
  intros Hl. unfold ed_clear_text_area, EDITOR_TEXT_ROWS.
  eapply runs_mono; [apply (draw_loop _ 0 _ (fun row r x => if r =? row then Some (glyph 32 text_attr) else None) e Hl)|].
  { intros j t Hj Ht. apply clear_row_ok; [done|lia]. }
  intros [] e' (g & Hd & Hg). eapply drawn_ext; [exact Hd|]. intros r x Hr' Hx. specialize (Hg r x).
  destruct (g r x) as [v|].
  - destruct Hg as (j & Hj & Hv). destruct (Z.eqb_spec r j); [|done]. simplify_eq. by rewrite (proj2 (Z.ltb_lt _ _)) by lia.
  - destruct (Z.ltb_spec r 24); [|done]. specialize (Hg r ltac:(lia)). by rewrite Z.eqb_refl in Hg.
Qed.

(** Only the status row was drawn. *)
Definition bar_drawn e e' : Prop := exists f, drawn e e' f /\ forall r x, r <> 24 -> f r x = None.

Lemma bar_trans e e1 e2 : bar_drawn e e1 -> bar_drawn e1 e2 -> bar_drawn e e2.
Proof.
  intros (f & Hf & Hf24) (g & Hg & Hg24). eexists. split; [by eapply drawn_trans|]. intros r x Hr. cbv beta. by rewrite Hg24, Hf24.
Qed.

Lemma bar_length e e' : bar_drawn e e' -> length (buffer (screen e')) = 2000%nat.
Proof. intros (f & Hf & _). by eapply drawn_length. Qed.

Lemma bar_none e : length (buffer (screen e)) = 2000%nat -> bar_drawn e e.
Proof. intros Hl. eexists. split; [by apply drawn_none|done]. Qed.

Lemma bar_put col c attr e : length (buffer (screen e)) = 2000%nat -> 0 <= col ->
  runs (ed_vga_put EDITOR_STATUS_ROW col c attr) e (fun _ e' => bar_drawn e e').
Proof.
  intros Hl Hc. eapply runs_mono; [apply vga_put_ok; [done|done|done]|]. intros [] e' Hd. eexists. split; [exact Hd|].
  intros r x Hr. cbv beta. by rewrite (proj2 (Z.eqb_neq r EDITOR_STATUS_ROW) Hr).
Qed.

Lemma bar_clear attr e : length (buffer (screen e)) = 2000%nat -> runs (ed_clear_row EDITOR_STATUS_ROW attr) e (fun _ e' => bar_drawn e e').
Proof.
  intros Hl. eapply runs_mono; [apply clear_row_ok; [done|done]|]. intros [] e' Hd. eexists. split; [exact Hd|].
  intros r x Hr. cbv beta. by rewrite (proj2 (Z.eqb_neq r EDITOR_STATUS_ROW) Hr).
Qed.

Lemma put_text_ok str : forall col attr e, length (buffer (screen e)) = 2000%nat -> 0 <= col ->
  runs (put_text str col attr) e (fun _ e' => bar_drawn e e').
Proof.
  induction str as [|c str IH]; intros col attr e Hl Hc; cbn [put_text]; [run; by apply bar_none|].
  run. eapply runs_mono; [by apply bar_put|]. intros [] e1 H1.
  eapply runs_mono; [apply IH; [by eapply bar_length|lia]|]. intros [] e2 H2. by eapply bar_trans.
Qed.

Lemma put_name_ok str : forall col attr e, length (buffer (screen e)) = 2000%nat -> 0 <= col ->
  runs (put_name str col attr) e (fun col' e' => bar_drawn e e' /\ 0 <= col').
Proof.
  induction str as [|c str IH]; intros col attr e Hl Hc; cbn [put_name]; [run; split; [by apply bar_none|done]|].
  destruct (col <? EDITOR_SCREEN_COLS); [|run; split; [by apply bar_none|done]].
  run. eapply runs_mono; [by apply bar_put|]. intros [] e1 H1.
  eapply runs_mono; [apply IH; [by eapply bar_length|lia]|]. intros col' e2 [H2 ?]. split; [by eapply bar_trans|done].
Qed.

Lemma right_column_range n : 0 <= n -> 0 <= right_column n <= 80.
Proof. intros Hn. unfold right_column, EDITOR_SCREEN_COLS. destruct (Z.ltb_spec (n + 1) 80); lia. Qed.

(** Drawing leaves everything else as it was. *)
Lemma bar_fields e e' : bar_drawn e e' -> g_path e' = g_path e /\ g_dirty e' = g_dirty e /\ g_status_msg e' = g_status_msg e.
Proof. by intros (f & (b & -> & _) & _). Qed.

Lemma status_bar_ok e : ed_ok e -> runs ed_draw_status_bar e (fun _ e' => bar_drawn e e').
Proof.
  intros He. pose proof (ok_buffer _ (ed_scr e He)) as Hl. destruct (ed_path e He) as [_ [nm Hnm]]. destruct (ed_msg e He) as [_ [msg Hmsg]].
  unfold ed_draw_status_bar. run. eapply runs_mono; [by apply bar_clear|]. intros [] e1 H1.
  destruct (bar_fields _ _ H1) as (Hp1 & _ & Hm1). run. rewrite Hp1. eapply runs_need; [exact Hnm|]. run.
  eapply runs_mono; [apply put_name_ok; [by eapply bar_length|lia]|]. intros col e2 [H2 Hcol].
  pose proof (bar_trans _ _ _ H1 H2) as H12. run.
  apply (runs_mono _ _ (fun _ t => bar_drawn e t)).
  { case_match; [|run; done]. eapply runs_mono; [apply put_text_ok; [by eapply bar_length|done]|]. intros [] e3 H3. by eapply bar_trans. }
  intros [] e3 H3. run. eapply runs_mono; [apply put_text_ok; [by eapply bar_length|apply right_column_range; unfold ed_strlen; lia]|].
  intros [] e4 H4. pose proof (bar_trans _ _ _ H3 H4) as H14. run. destruct (bar_fields _ _ H14) as (_ & _ & Hm4). rewrite Hm4.
  eapply runs_need; [exact Hmsg|]. destruct msg as [|c msg]; [by run|]. run.
  pose proof (right_column_range (ed_strlen (c :: msg)) ltac:(unfold ed_strlen; lia)) as Hrc.
  eapply (runs_mono _ _ (fun _ t => bar_drawn e t)).
  - eapply runs_mono; [apply (runs_for (fun _ t => bar_drawn e t) _ 0 _ e4 H14)|by intros [] t Ht].
    intros j t Hj Ht. eapply runs_mono; [apply bar_put; [by eapply bar_length|lia]|]. intros [] t' Ht'. by eapply bar_trans.
  - intros [] e5 H5. eapply runs_mono; [apply put_text_ok; [by eapply bar_length|lia]|]. intros [] e6 H6. by eapply bar_trans.
Qed.

Lemma picture_off l : forall row c1 c2 r x, x < 80 -> 80 <= c1 -> 80 <= c2 -> picture l row c1 r x = picture l row c2 r x.
Proof.
  induction l as [|c l IH]; intros row c1 c2 r x Hx H1 H2; cbn [picture]; [done|].
  rewrite (proj2 (Z.eqb_neq x c1)), (proj2 (Z.eqb_neq x c2)), andb_false_r by lia. destruct (c =? NL); [done|]. apply IH; lia.
Qed.

Lemma render_loop_ok fuel : forall l i row col e, length (buffer (screen e)) = 2000%nat -> 0 <= i ->
  g_len e <= Z.of_nat (length (g_buf e)) -> l = drop (Z.to_nat i) (contents e) ->
  (Z.to_nat (g_len e - i) < fuel)%nat -> 0 <= row -> 0 <= col ->
  runs (render_loop fuel i row col) e (fun _ e' => drawn e e' (fun r x =>
    if r <? 24 then (fun c => glyph c text_attr) <$> picture l row col r x else None)).
Proof.
  induction fuel as [|fuel IH]; intros l i row col e Hb Hi Hlen -> Hf Hr Hc; [lia|]. cbn [render_loop]. run.
  assert (Z.of_nat (length (contents e)) = Z.max 0 (g_len e)) as Hcl by (unfold contents; rewrite length_take; lia).
  destruct (Z.ltb_spec i (g_len e)) as [Hil|Hil]; cbn [andb].
  2:{ run. eapply drawn_ext; [by apply drawn_none|]. intros. rewrite drop_ge by lia. cbn [picture fmap option_fmap option_map]. by destruct (r <? 24). }
  unfold EDITOR_TEXT_ROWS. destruct (Z.ltb_spec row 24) as [Hrow|Hrow].
  2:{ run. eapply drawn_ext; [by apply drawn_none|]. intros. destruct (Z.ltb_spec r 24); [|done]. by rewrite picture_above by lia. }
  run. apply runs_char_at; [lia|]. intros c Hch.
  assert (drop (Z.to_nat i) (contents e) = c :: drop (Z.to_nat (i + 1)) (contents e)) as Hd.
  { replace (Z.to_nat (i + 1)) with (S (Z.to_nat i)) by lia. apply drop_S. rewrite <- (contents_get e i) in Hch by lia.
    unfold arr_get in Hch. by rewrite (proj2 (Z.leb_le _ _)) in Hch by lia. }
  rewrite Hd. cbn [picture]. destruct (c =? NL).
  - eapply (IH _ (i + 1) (row + 1) 0 e); [done|lia|done|done|lia|lia|lia].
  - unfold EDITOR_SCREEN_COLS. destruct (Z.ltb_spec col 80).
    + run. eapply runs_mono; [by apply vga_put_ok|]. intros [] e1 H1.
      assert (contents e1 = contents e /\ g_len e1 = g_len e /\ g_buf e1 = g_buf e) as (Hc1 & Hl1 & Hb1).
      { by destruct H1 as (b & -> & _). }
      eapply runs_mono; [eapply (IH _ (i + 1) row (col + 1) e1);
        [by eapply drawn_length|lia|by rewrite Hl1, Hb1|done|rewrite Hl1; lia|lia|lia]|].
      intros [] e2 H2. eapply drawn_ext; [by eapply drawn_trans|]. intros r x Hr' Hx'. cbv beta. rewrite Hc1.
      destruct (Z.ltb_spec r 24); [|by rewrite (proj2 (Z.eqb_neq r row)) by lia].
      destruct (Z.eqb_spec r row) as [->|], (Z.eqb_spec x col) as [->|]; cbn [andb];
        try (by rewrite (picture_before _ row (col + 1) col) by lia); by destruct (picture _ _ _ _ _).
    + eapply runs_mono; [eapply (IH _ (i + 1) row col e); [done|lia|done|done|lia|lia|lia]|].
      intros [] e2 H2. eapply drawn_ext; [exact H2|]. intros r x Hr' Hx'. cbv beta.
      rewrite (proj2 (Z.eqb_neq x col)), andb_false_r by lia. by rewrite (picture_off _ row (col + 1) col) by lia.
Qed.
End drawing.
(** * Keys *)

(** Typing a character at offset [k] of a text; a full buffer takes none. *)
Definition typed (c : Z) (lk : list Z * Z) : list Z * Z :=
  if Z.of_nat (length lk.1) <? 8191 then (take (Z.to_nat lk.2) lk.1 ++ c :: drop (Z.to_nat lk.2) lk.1, lk.2 + 1) else lk.

(** What an editing key does to the text [l] and the cursor [k]. *)
Definition key_effect (c : Z) (l : list Z) (k : Z) (l' : list Z) (k' : Z) : Prop :=
  if c =? Keyboard.KEY_UP then l' = l /\ up_to l k k'
  else if c =? Keyboard.KEY_DOWN then l' = l /\ down_to l k k'
  else if c =? Keyboard.KEY_LEFT then l' = l /\ k' = Z.max 0 (k - 1)
  else if c =? Keyboard.KEY_RIGHT then l' = l /\ k' = Z.min (Z.of_nat (length l)) (k + 1)
  else if c =? Keyboard.KEY_BACKSPACE then
    if 0 <? k then l' = take (Z.to_nat (k - 1)) l ++ drop (Z.to_nat k) l /\ k' = k - 1 else l' = l /\ k' = k
  else if c =? Keyboard.KEY_ENTER then (l', k') = typed NL (l, k)
  else if c =? Keyboard.KEY_TAB then (l', k') = typed 32 (typed 32 (l, k))
  else if (0x20 <=? c) && (c <? 0x7F) then (l', k') = typed c (l, k)
  else l' = l /\ k' = k.

(** What the editor makes of it: the down arrow does not enter an empty last
    line. *)
Definition key_done (c : Z) (l : list Z) (k : Z) (l' : list Z) (k' : Z) : Prop :=
  (c = Keyboard.KEY_DOWN /\ above_empty_last l k /\ l' = l /\ k' = k) \/
  (~ (c = Keyboard.KEY_DOWN /\ above_empty_last l k) /\ key_effect c l k l' k').

(** What the keys typed at the prompt amount to: [None] when they end first,
    otherwise the line ([None] after ESC) and the keys left. *)
Fixpoint command_line (keys : list key) (line : list Z) : option (option (list Z) * list key) :=
  match keys with
  | [] => None
  | (c, _) :: keys =>
      if c =? Keyboard.KEY_ENTER then Some (Some line, keys)
      else if c =? Keyboard.KEY_ESC then Some (None, keys)
      else if c =? Keyboard.KEY_BACKSPACE then command_line keys (take (length line - 1) line)
      else if (0x20 <=? c) && (c <? 0x7F) && (Z.of_nat (length line) <? 63) then command_line keys (line ++ [c])
      else command_line keys line
  end.

(** A message that fits into the status line. *)
Definition message (msg : list Z) : Prop := cname_ok msg /\ (length msg < 80)%nat.

Ltac is_message := split; [repeat constructor; cbn; lia|cbn; lia].

Section keys.
Context {W : Type} {HW : FileCalls W} {HL : FileCallsLaws W}.
Implicit Types (e : editor W).

(** The screen shows the lines of the text from the view on, cut at 80
    columns, and the hardware cursor is at the cursor's place. *)
Record shows e : Prop := {
  sh_cells : forall r x, 0 <= r < 24 -> 0 <= x < 80 ->
    arr_get (buffer (screen e)) (r * 80 + x) =
      Some (glyph (default 32 (lines (drop (Z.to_nat (g_view_off e)) (contents e)) !! Z.to_nat r ≫= fun ln => ln !! Z.to_nat x)) text_attr);
  sh_row : row (screen e) = newlines (g_buf e) (g_view_off e) (g_cursor e);
  sh_col : exists s x, line_of (contents e) (g_cursor e) s x /\ col (screen e) = Z.min 79 (g_cursor e - s) }.

Lemma drawn_ok e e' f : drawn e e' f -> ed_ok e -> ed_ok e'.
Proof. intros (b & -> & Hl & _) []. constructor; cbn; try done. by destruct ed_scr0. Qed.

Lemma drawn_same e e' f : drawn e e' f -> same_text e e'.
Proof. by intros (b & -> & _). Qed.

(** What neither drawing nor moving the hardware cursor touches. *)
Definition same_file e e' : Prop :=
  g_path e' = g_path e /\ g_dirty e' = g_dirty e /\ files e' = files e /\ g_status_msg e' = g_status_msg e.

Lemma ed_render_ok e : ed_ok e -> visible e ->
  runs ed_render e (fun _ e' => ed_ok e' /\ same_text e e' /\ same_file e e' /\ shows e').
Proof.
  intros He Hv. pose proof (ok_buffer _ (ed_scr e He)) as Hl. pose proof (ed_view e He) as Rv. pose proof (ed_cur e He) as Rc. pose proof (ed_len e He) as Rl.
  unfold ed_render. run. eapply runs_mono; [by apply clear_text_ok|]. intros [] e1 H1.
  pose proof (drawn_same _ _ _ H1) as S1. pose proof (drawn_ok _ _ _ H1 He) as He1. run.
  eapply runs_mono; [eapply (render_loop_ok _ _ _ 0 0 e1); [by eapply drawn_length|apply (ed_view e1 He1)| |done|lia|lia|lia]|].
  { pose proof (ed_buf e1 He1). pose proof (ed_len e1 He1). lia. }
  intros [] e2 H2. pose proof (drawn_trans _ _ _ _ _ H1 H2) as H12. pose proof (drawn_ok _ _ _ H12 He) as He2.
  run. eapply runs_mono; [by apply status_bar_ok|]. intros [] e3 (f & H3 & Hf).
  pose proof (drawn_trans _ _ _ _ _ H12 H3) as H13. 
  assert (drop (Z.to_nat (g_view_off e1)) (contents e1) = drop (Z.to_nat (g_view_off e)) (contents e)) as Hd1
    by (by rewrite (same_contents _ _ S1); destruct S1 as (_ & _ & _ & ->)).
  clear H1 H2 H12 H3 He1 He2 S1.
  pose proof (drawn_ok _ _ _ H13 He) as He3. pose proof (drawn_same _ _ _ H13) as (Hb3 & Hl3 & Hc3 & Hv3).
  destruct Hv as [Hbelow Hst Hrows]. run.
  apply (runs_of _ _ _ _ _ (screen_row_ok (g_cursor e3) e3 He3 ltac:(lia))).
  destruct (line_start_ok (g_cursor e3) e3 He3 ltac:(lia)) as (s & Hs & Hr & Hss & Hfree).
  destruct (line_end_ok (g_cursor e3) e3 He3 ltac:(lia)) as (x & _ & Hrx & Hend & Hfx).
  unfold ed_col_at. run. apply (runs_of _ _ _ _ _ Hs). run.
  rewrite Hb3, Hv3, Hc3 in *. pose proof (newlines_range (g_buf e) (g_view_off e) (g_cursor e) ltac:(lia)).
  rewrite Z.min_r by lia. unfold EDITOR_SCREEN_COLS, EDITOR_TEXT_ROWS.
  rewrite (proj2 (Z.ltb_ge _ 0)) by lia. rewrite (proj2 (Z.leb_gt 24 _)) by lia.
  assert ((if 80 <=? g_cursor e - s then 80 - 1 else g_cursor e - s) = Z.min 79 (g_cursor e - s)) as ->
    by (destruct (Z.leb_spec 80 (g_cursor e - s)); lia).
  apply runs_on_screen. unfold console_set_cursor, VGA_HEIGHT, VGA_WIDTH.
  rewrite (proj2 (Z.ltb_lt _ 25)), (proj2 (Z.ltb_lt _ 80)) by lia. cbn [andb]. run. destruct H13 as (b & -> & Hlb & Hcells).
  assert (forall n, drop n (contents (set_screen (set_buffer b (screen e)) e)) = drop n (contents e)) as Hdrop by done.
  split_and!.
  - destruct He. constructor; cbn; try done. constructor; cbn; [done|lia|lia].
  - done.
  - done.
  - constructor; cbn.
    + intros r y Hr' Hy. rewrite Hcells by lia. rewrite Hf, (proj2 (Z.ltb_lt _ _)) by lia.
      rewrite picture_lines by lia. rewrite !Z.sub_0_r. assert ((if r =? 0 then y else y) = y) as -> by (by destruct (r =? 0)).
      rewrite Hd1. match goal with |- context [contents (set_screen ?s ?e')] => change (contents (set_screen s e')) with (contents e) end.
      by destruct (_ ≫= _).
    + done.
    + exists s, x. split; [|done]. change (contents (set_screen _ e)) with (contents e).
      pose proof (line_of_contents e (g_cursor e) s x He ltac:(lia) ltac:(cbn in *; lia) Hss Hend (nl_free_join _ _ _ _ Hfree Hfx)). done.
Qed.

(** * Editing keys *)

(** The view is at the start of a line at or before the cursor. *)
Definition anchored e : Prop := g_view_off e <= g_cursor e /\ starts (g_buf e) (g_view_off e).

Lemma starts_take (l l' : list Z) n v : take (Z.to_nat n) l' = take (Z.to_nat n) l -> 0 <= v <= n -> starts l v -> starts l' v.
Proof.
  intros Ht Hv [->|Hs]; [by left|]. destruct (Z.eq_dec v 0) as [->|]; [by left|]. right.
  rewrite <- (arr_get_take l' n), Ht, arr_get_take by lia. done.
Qed.

Lemma insert_ok c e : ed_ok e -> anchored e ->
  runs (ed_insert_char c) e (fun _ e' => ed_ok e' /\ anchored e' /\
    (contents e', g_cursor e') = typed c (contents e, g_cursor e)).
Proof.
  intros He [Ha Hst]. eapply runs_mono; [by apply ed_insert_char_ok|]. intros [] e' (He' & Hview & Hcase).
  unfold typed. cbn [fst snd]. rewrite (contents_length e He). destruct (g_len e <? 8191).
  - destruct Hcase as (Hc & Hk & Htk). split_and!; [done| |by rewrite Hc, Hk]. split; [lia|]. rewrite Hview.
    pose proof (ed_view e He). eapply starts_take; [exact Htk|lia|done].
  - pose proof (same_contents _ _ Hcase) as Hc. destruct Hcase as (Hb & _ & Hk & _). split_and!; [done| |by rewrite Hc, Hk].
    split; [lia|]. by rewrite Hb, Hview.
Qed.

Lemma clear_after (m : prog (editor W) unit) e (P : editor W -> Prop) :
  runs m e (fun _ e' => ed_ok e' /\ P e') -> (forall e1 e2, same_text e1 e2 -> P e1 -> P e2) ->
  runs (_ ← m; clear_msg) e (fun _ e' => ed_ok e' /\ P e').
Proof.
  intros Hm HP. run. eapply runs_mono; [exact Hm|]. intros [] e1 [H1 HP1].
  eapply runs_mono; [by apply clear_msg_ok|]. intros [] e2 (H2 & Hs & _). split; [done|]. by eapply HP.
Qed.

(** The effect of a key and what scrolling needs afterwards. *)
Definition edited c e e' : Prop :=
  key_done c (contents e) (g_cursor e) (contents e') (g_cursor e') /\
  (g_view_off e' <= g_cursor e' -> starts (g_buf e') (g_view_off e')).

Lemma edited_same c e e1 e2 : same_text e1 e2 -> edited c e e1 -> edited c e e2.
Proof. intros Hs. unfold edited. rewrite (same_contents _ _ Hs). by destruct Hs as (-> & _ & -> & ->). Qed.

Lemma edit_key_ok c e : ed_ok e -> anchored e -> runs (edit_key c) e (fun _ e' => ed_ok e' /\ edited c e e').
Proof.
  intros He Han. pose proof Han as [Ha Hst]. pose proof (ed_cur e He). pose proof (contents_length e He) as Hcl.
  unfold edit_key, edited. cbv zeta.
  destruct (Z.eqb_spec c Keyboard.KEY_DOWN) as [->|Hnd].
  { apply (clear_after _ _ (fun e' => _)); [|intros e1 e2 Hs; rewrite (same_contents _ _ Hs); by destruct Hs as (-> & _ & -> & ->)].
    eapply runs_mono; [by apply ed_move_down_ok|]. intros [] e' (k & -> & Hk & Hdown). split; [by apply set_cursor_ok|].
    split; [|done]. destruct Hdown as [[Hab ->]|[Hab Hdn]]; [by left|right]. by split; [intros [_ ?]|]. }
  assert (Hkd : forall l' k', key_effect c (contents e) (g_cursor e) l' k' -> key_done c (contents e) (g_cursor e) l' k')
    by (intros; right; split; [by intros [? _]|done]).
  eapply (runs_mono _ _ (fun _ e' => ed_ok e' /\ key_effect c (contents e) (g_cursor e) (contents e') (g_cursor e') /\
    (g_view_off e' <= g_cursor e' -> starts (g_buf e') (g_view_off e'))));
    [|intros [] e' (? & ? & ?); split; [done|]; split; [by apply Hkd|done]].
  unfold key_effect. rewrite (proj2 (Z.eqb_neq _ _) Hnd). clear Hkd.
  destruct (c =? Keyboard.KEY_UP).
  { apply (clear_after _ _ (fun e' => _)); [|intros e1 e2 Hs; rewrite (same_contents _ _ Hs); by destruct Hs as (-> & _ & -> & ->)].
    eapply runs_mono; [by apply ed_move_up_ok|]. intros [] e' (k & -> & Hk & Hup). by split_and!; [apply set_cursor_ok| | |]. }
  destruct (c =? Keyboard.KEY_LEFT).
  { apply (clear_after _ _ (fun e' => _)); [|intros e1 e2 Hs; rewrite (same_contents _ _ Hs); by destruct Hs as (-> & _ & -> & ->)].
    unfold ed_move_left. run. destruct (Z.ltb_spec 0 (g_cursor e)); run; split_and!; try done; try (cbn; lia). by apply set_cursor_ok; [|lia]. }
  destruct (c =? Keyboard.KEY_RIGHT).
  { apply (clear_after _ _ (fun e' => _)); [|intros e1 e2 Hs; rewrite (same_contents _ _ Hs); by destruct Hs as (-> & _ & -> & ->)].
    unfold ed_move_right. run. destruct (Z.ltb_spec (g_cursor e) (g_len e)); run; split_and!; try done; try (cbn; lia). by apply set_cursor_ok; [|lia]. }
  destruct (c =? Keyboard.KEY_BACKSPACE).
  { eapply runs_mono; [by apply ed_delete_before_ok|]. intros [] e' (He' & Hview & Hcase). split; [done|].
    destruct (Z.ltb_spec 0 (g_cursor e)).
    - destruct Hcase as (Hc & Hk & Htk). split; [done|]. rewrite Hview, Hk. intros Hle. pose proof (ed_view e He).
      eapply starts_take; [exact Htk|lia|done].
    - pose proof (same_contents _ _ Hcase) as Hc. destruct Hcase as (Hb & _ & Hk & _). split; [done|]. by rewrite Hb, Hview. }
  destruct (c =? Keyboard.KEY_ENTER).
  { eapply runs_mono; [by apply insert_ok|]. intros [] e' (He' & [_ ?] & Ht). done. }
  destruct (c =? Keyboard.KEY_TAB).
  { run. eapply runs_mono; [by apply insert_ok|]. intros [] e1 (He1 & Han1 & Ht1).
    eapply runs_mono; [by apply insert_ok|]. intros [] e2 (He2 & [_ ?] & Ht2). by rewrite <- Ht1. }
  destruct (_ && _); [|by run].
  eapply runs_mono; [by apply insert_ok|]. intros [] e' (He' & [_ ?] & Ht). done.
Qed.

(** * Files *)

(** The message of the status bar. *)
Definition says (msg : list Z) e : Prop := c_string (g_status_msg e) = Some msg.

(** What saving does: the calls made, the dirty flag and the report. *)
Definition saved e e' : Prop :=
  g_path e' = g_path e /\
  match c_string (g_path e) with
  | Some (c :: p) => exists fd w1, fc_open (c :: p) 0x241 (files e) = Some (fd, w1) /\
      if fd <? 0 then files e' = w1 /\ g_dirty e' = g_dirty e /\ says (text "save failed (open)") e'
      else exists n w2, fc_write fd (contents e) w1 = Some (n, w2) /\ fc_close fd w2 = Some (tt, files e') /\
        if n =? Z.of_nat (length (contents e)) then g_dirty e' = false /\ says (text "saved") e'
        else g_dirty e' = g_dirty e /\ says (text "save failed (write)") e'
  | _ => files e' = files e /\ g_dirty e' = g_dirty e /\ says (text "no filename " ++ dash ++ text " use :w <name>") e'
  end.

Lemma runs_sys {A} (m : prog W A) e (P : A -> W -> Prop) (Q : A -> editor W -> Prop) :
  runs m (files e) (fun a w => P a w) ->
  (forall a w, m (files e) = Some (a, w) -> P a w -> Q a (set_files w e)) -> runs (sys m) e Q.
Proof. intros (a & w & Hm & HP) HQ. exists a, (set_files w e). split; [|by apply HQ]. unfold sys. by rewrite Hm. Qed.

Lemma status_after msg e0 e (P : editor W -> Prop) : message msg -> ed_ok e -> same_text e0 e -> screen e = screen e0 ->
  (forall e', files e' = files e -> g_dirty e' = g_dirty e -> g_path e' = g_path e -> says msg e' -> P e') ->
  runs (ed_set_status msg) e (fun _ e' => ed_ok e' /\ same_text e0 e' /\ screen e' = screen e0 /\ P e').
Proof.
  intros [Hmsg Hshort] He Hs Hscr HP. destruct (ed_msg e He) as [Hm _]. unfold ed_set_status. run.
  destruct (strcpy_exact (g_status_msg e) msg Hmsg ltac:(lia)) as (m & Hc & Hl & Hstr). rewrite Hm in Hc, Hl.
  eapply runs_need; [exact Hc|]. run. split_and!; [|done|done|by apply HP].
  destruct He. constructor; cbn; done.
Qed.

Lemma set_files_ok w e : ed_ok e -> fc_inv w -> ed_ok (set_files w e).
Proof. by intros []. Qed.

Lemma ed_save_file_ok e : ed_ok e ->
  runs ed_save_file e (fun _ e' => ed_ok e' /\ same_text e e' /\ screen e' = screen e /\ saved e e').
Proof.
  intros He. destruct (ed_path e He) as [_ [nm Hnm]]. pose proof (ed_buf e He). pose proof (ed_len e He).
  unfold ed_save_file, saved. run. rewrite Hnm. eapply runs_need; [done|].
  destruct nm as [|c p]; [by apply status_after; [is_message|..]|].
  change (Z.lor (Z.lor ARESFS_O_WRONLY ARESFS_O_CREAT) ARESFS_O_TRUNC) with 0x241. unfold ed_sys_open. run.
  eapply runs_sys; [apply fc_open_ok, (ed_files e He)|]. intros fd w1 Hopen Hw1. destruct (fd <? 0) eqn:Efd.
  { apply status_after; [is_message|by apply set_files_ok|done|done|]. intros e' Hf Hd Hp Hsay. split; [done|]. exists fd, w1. by rewrite Efd. }
  run. cbn [g_len g_buf set_files]. rewrite (proj2 (Z.leb_le _ _)) by lia. eapply runs_need; [done|]. fold (contents e).
  unfold ed_sys_write, ed_sys_close. run. eapply runs_sys; [apply fc_write_ok; exact Hw1|]. intros n w2 Hwrite Hw2.
  run. eapply runs_sys; [apply fc_close_ok; exact Hw2|]. intros [] w3 Hclose Hw3. cbn [files set_files] in *.
  destruct (Z.eqb_spec n (g_len e)) as [Heq|Hne]; cbn [negb].
  - rewrite (proj2 (Z.ltb_ge _ _)) by lia. cbn [orb]. run.
    apply status_after; [is_message|by destruct He|done|done|]. intros e' Hf Hd Hp Hsay. split; [done|]. exists fd, w1. rewrite Efd.
    split; [done|]. exists n, w2. by rewrite Hf, (contents_length e He), (proj2 (Z.eqb_eq _ _) Heq).
  - rewrite orb_true_r. apply status_after; [is_message|exact (set_files_ok w3 e He Hw3)|done|done|]. intros e' Hf Hd Hp Hsay.
    split; [done|]. exists fd, w1. rewrite Efd.
    split; [done|]. exists n, w2. by rewrite Hf, (contents_length e He), (proj2 (Z.eqb_neq _ _) Hne).
Qed.

(** Loading: an empty text unless a file could be opened and read.  A file that
    was opened is reported as loaded whatever the read returned. *)
Definition loaded (nm : list Z) e e' : Prop :=
  g_cursor e' = 0 /\ g_view_off e' = 0 /\ g_dirty e' = false /\ screen e' = screen e /\
  match nm with
  | [] => contents e' = [] /\ files e' = files e /\ says (text "new file") e'
  | _ => exists fd w1, fc_open nm 0 (files e) = Some (fd, w1) /\
      if fd <? 0 then contents e' = [] /\ files e' = w1 /\ says (text "new file") e'
      else exists n w2, fc_read fd 8191 w1 = Some (n, contents e', w2) /\ fc_close fd w2 = Some (tt, files e') /\
        says (text "loaded") e'
  end.

Lemma load_status msg e0 e : message msg ->
  ed_ok e -> g_cursor e = 0 -> g_view_off e = 0 -> g_dirty e = false -> screen e = screen e0 ->
  runs (ed_set_status msg) e (fun _ e' => ed_ok e' /\ g_cursor e' = 0 /\ g_view_off e' = 0 /\ g_dirty e' = false /\
    screen e' = screen e0 /\ contents e' = contents e /\ files e' = files e /\ says msg e').
Proof.
  intros Hmsg He Hc Hv Hd Hs.
  eapply runs_mono; [apply (status_after msg e e (fun e' => files e' = files e /\ g_dirty e' = g_dirty e /\ says msg e')); done|].
  intros [] e' (H' & Hsame & Hs' & Hf & Hd' & Hsay). rewrite (same_contents _ _ Hsame). destruct Hsame as (_ & _ & -> & ->).
  by rewrite Hd', Hs', Hf.
Qed.

Lemma ed_load_file_ok nm e : ed_ok e -> runs (ed_load_file nm) e (fun _ e' => ed_ok e' /\ loaded nm e e').
Proof.
  intros He. unfold ed_load_file, loaded. pose proof (ed_buf e He) as Hb. run.
  set (e0 := set_dirty false (set_view 0 (set_text (g_buf e) 0 0 e))).
  assert (ed_ok e0) as He0 by (destruct He; constructor; cbn; (done || lia)).
  destruct nm as [|c nm].
  { eapply runs_mono; [by apply (load_status _ e); [is_message|..]|]. intros [] e' (? & ? & ? & ? & ? & Hc & Hf & ?). by rewrite Hc, Hf. }
  unfold ed_sys_open. run. eapply runs_sys; [apply fc_open_ok, (ed_files e0 He0)|]. intros fd w1 Hopen Hw1.
  change (files e0) with (files e) in Hopen. destruct (fd <? 0) eqn:Efd.
  { eapply runs_mono; [apply (load_status _ e); try done; [is_message|by apply set_files_ok]|]. intros [] e' (? & ? & ? & ? & ? & Hc & Hf & ?).
    split_and!; try done. exists fd, w1. rewrite Efd, Hc, Hf. done. }
  unfold ed_sys_read, EDITOR_BUFFER_SIZE. change (8192 - 1) with 8191. run.
  eapply runs_sys; [by apply fc_read_ok|]. intros [n bytes] w2 Hread (Hw2 & Hlen & Hmax). cbn [fst snd] in *. run.
  cbn [g_buf set_files e0 set_dirty set_view set_text]. rewrite (proj2 (Z.leb_le _ _)) by lia. eapply runs_need; [done|]. run.
  unfold ed_sys_close. eapply runs_sys; [by apply fc_close_ok|]. intros [] w3 Hclose Hw3. cbn [files set_files set_text] in *. run.
  set (e1 := set_files w3 _).
  assert (length (splice 0 bytes (g_buf e)) = length (g_buf e)) as Hsl by (apply splice_length; lia).
  assert (ed_ok e1) as He1.
  { subst e1 e0. destruct He0. constructor; cbn in *; try done; try lia. }
  assert (Hfin : forall e', contents e' = bytes -> files e' = w3 -> says (text "loaded") e' ->
    exists fd w1, fc_open (c :: nm) 0 (files e) = Some (fd, w1) /\
      if fd <? 0 then contents e' = [] /\ files e' = w1 /\ says (text "new file") e'
      else exists n w2, fc_read fd 8191 w1 = Some (n, contents e', w2) /\ fc_close fd w2 = Some (tt, files e') /\
        says (text "loaded") e').
  { intros e' Hc Hf Hsay. exists fd, w1. rewrite Efd. split; [done|]. exists n, w2. by rewrite Hc, Hf. }
  destruct (Z.ltb_spec 0 n) as [Hn|Hn]; run.
  - eapply runs_mono; [apply (load_status _ e); try done; [is_message|]; destruct He1; constructor; cbn in *; try done; lia|].
    intros [] e' (? & ? & ? & ? & ? & Hc & Hf & ?). split_and!; try done. apply Hfin; [|done|done]. rewrite Hc. unfold contents. cbn.
    unfold splice. replace (Z.to_nat n) with (length bytes) by lia. exact (take_app_length bytes _).
  - eapply runs_mono; [by apply (load_status _ e); [is_message|..]|]. intros [] e' (? & ? & ? & ? & ? & Hc & Hf & ?). split_and!; try done.
    apply Hfin; [|done|done]. rewrite Hc. destruct bytes; [done|cbn in Hlen; lia].
Qed.

End keys.

(** * Sessions *)

Section sessions.
Context {W : Type} {HW : FileCalls W} {HL : FileCallsLaws W}.
Implicit Types (e : editor W).

(** Only the screen changed. *)
Definition kept e e' : Prop := ed_ok e' /\ same_text e e' /\ same_file e e'.

Lemma kept_refl e : ed_ok e -> kept e e.
Proof. done. Qed.

Lemma kept_trans e e1 e2 : kept e e1 -> kept e1 e2 -> kept e e2.
Proof.
  intros (? & S1 & F1) (? & S2 & F2). split_and!; [done|by eapply same_trans|].
  unfold same_file in *. intuition congruence.
Qed.

Lemma bar_kept e e' : ed_ok e -> bar_drawn e e' -> kept e e'.
Proof. intros He (f & Hd & _). split_and!; [by eapply drawn_ok|by eapply drawn_same|]. by destruct Hd as (b & -> & _). Qed.

Lemma screen_kept s e : ed_ok e -> console_ok s -> kept e (set_screen s e).
Proof. intros [] Hs. by split_and!; [constructor| |]. Qed.

Lemma cursor_kept r x e : ed_ok e -> 0 <= r -> 0 <= x -> runs (on_screen (console_set_cursor r x)) e (fun _ e' => kept e e').
Proof.
  intros He Hr Hx. apply runs_on_screen. pose proof (ed_scr e He) as [? ? ?]. unfold console_set_cursor, VGA_HEIGHT, VGA_WIDTH.
  destruct (Z.ltb_spec r 25), (Z.ltb_spec x 80); cbn [andb]; run; apply screen_kept; try done; constructor; cbn; (done || lia).
Qed.

Lemma clear_kept e : ed_ok e -> runs (on_screen console_clear) e (fun _ e' => kept e e').
Proof.
  intros He. apply runs_on_screen. eapply runs_mono; [apply console_clear_ok, (ok_buffer _ (ed_scr e He))|].
  intros [] s ->. apply screen_kept; [done|]. constructor; cbn [buffer row col]; [apply length_replicate|lia|lia].
Qed.

(** What is returned is what was typed. *)
Definition entered (keys : list key) (line : list Z) (r : command_input) : Prop :=
  match r with
  | Command out pos ks => exists str, command_line keys line = Some (Some str, ks) /\ pos = Z.of_nat (length str) /\
      length out = 64%nat /\ c_string out = Some str /\ cname_ok str
  | Escaped _ ks => command_line keys line = Some (None, ks)
  | NoKeys => command_line keys line = None
  end.

Lemma command_line_length keys : forall line r ks, command_line keys line = Some (r, ks) -> (length ks <= length keys)%nat.
Proof.
  induction keys as [|[c m] keys IH]; intros line r ks; cbn [command_line length]; [done|].
  repeat case_match; try (intros [= <- <-]; lia); intros Hk%IH; lia.
Qed.

Lemma read_command_loop_ok keys : forall line rest attr e, ed_ok e -> length (line ++ rest) = 64%nat -> (length line <= 63)%nat ->
  cname_ok line ->
  runs (read_command_loop keys (line ++ rest) (Z.of_nat (length line)) 64 attr) e (fun r e' => kept e e' /\ entered keys line r).
Proof.
  induction keys as [|[c m] keys IH]; intros line rest attr e He Hl Hp Hok; cbn [read_command_loop]; [by run|].
  assert (Hnext : forall line' rest' pos' e1, kept e e1 -> length (line' ++ rest') = 64%nat -> (length line' <= 63)%nat -> cname_ok line' ->
    pos' = Z.of_nat (length line') -> command_line ((c, m) :: keys) line = command_line keys line' ->
    runs (read_command_loop keys (line' ++ rest') pos' 64 attr) e1 (fun r e' => kept e e' /\ entered ((c, m) :: keys) line r)).
  { intros line' rest' pos' e1 H1 Hl' Hp' Hok' -> Heq. eapply runs_mono; [apply IH; [apply H1|done..]|]. intros r e2 [H2 Hr].
    split; [by eapply kept_trans|]. unfold entered in *. by rewrite Heq. }
  unfold entered in *. cbn [command_line] in *.
  destruct (Z.eqb_spec c 0) as [->|Hc0]; [by apply Hnext|].
  destruct (c =? Keyboard.KEY_ENTER).
  { destruct rest as [|z rest]; [rewrite app_nil_r in Hl; lia|]. run. eapply runs_need; [apply arr_set_app|]. run. split; [done|].
    exists line. split_and!; try done; [rewrite length_app in *; done|]. apply c_string_app.
    eapply Forall_impl; [exact Hok|]. cbn. lia. }
  destruct (c =? Keyboard.KEY_ESC).
  { run. eapply runs_need; [apply arr_set_in; lia|]. by run. }
  destruct (c =? Keyboard.KEY_BACKSPACE).
  { destruct (Z.ltb_spec 0 (Z.of_nat (length line))) as [Hpos|Hpos].
    2:{ destruct line; [|cbn in Hpos; lia]. by apply Hnext. }
    destruct (exists_last (l := line)) as (line' & y & ->); [intros ->; cbn in Hpos; lia|].
    rewrite <- app_assoc in Hl |- *. cbn [app] in *. rewrite length_app in *. cbn [length] in *. apply Forall_app in Hok as [Hok _].
    run. eapply runs_mono; [apply bar_put; [apply (ok_buffer _ (ed_scr e He))|lia]|]. intros [] e1 H1.
    pose proof (bar_kept _ _ He H1) as K1. run.
    eapply runs_mono; [apply cursor_kept; [apply K1|done|lia]|]. intros [] e2 K2.
    apply Hnext; [by eapply kept_trans|rewrite length_app; done|lia|done|lia|]. by rewrite Nat.add_sub, take_app_length. }
  destruct (Z.leb_spec 0x20 c), (Z.ltb_spec c 0x7F), (Z.ltb_spec (Z.of_nat (length line) + 1) 64),
    (Z.ltb_spec (Z.of_nat (length line)) 63); cbn [andb] in *; try lia; try (by apply Hnext).
  destruct rest as [|z rest]; [rewrite app_nil_r in Hl; lia|].
  run. eapply runs_need; [apply arr_set_app|]. run.
  eapply runs_mono; [apply bar_put; [apply (ok_buffer _ (ed_scr e He))|lia]|]. intros [] e1 D1.
  pose proof (bar_kept _ _ He D1) as K1. run.
  eapply runs_mono; [apply cursor_kept; [apply K1|done|lia]|]. intros [] e2 K2. rewrite cons_middle, app_assoc.
  rewrite length_app in Hl. cbn [length] in Hl.
  apply Hnext; [by eapply kept_trans|rewrite !length_app; cbn; lia|rewrite length_app; cbn; lia| |rewrite length_app; cbn; lia|done].
  apply Forall_app. split; [done|]. apply Forall_singleton. lia.
Qed.

Lemma ed_read_command_ok keys out e : ed_ok e -> length out = 64%nat ->
  runs (ed_read_command keys out EDITOR_CMD_MAX) e (fun r e' => kept e e' /\ entered keys [] r).
Proof.
  intros He Hl. unfold ed_read_command. run.
  eapply runs_mono; [apply bar_clear, (ok_buffer _ (ed_scr e He))|]. intros [] e1 H1. pose proof (bar_kept _ _ He H1) as K1. run.
  eapply runs_mono; [apply bar_put; [by eapply bar_length|lia]|]. intros [] e2 H2.
  pose proof (kept_trans _ _ _ K1 (bar_kept _ _ (proj1 K1) H2)) as K2. run.
  eapply runs_mono; [apply cursor_kept; [apply K2|done|lia]|]. intros [] e3 H3. pose proof (kept_trans _ _ _ K2 H3) as K3.
  eapply runs_mono; [apply (read_command_loop_ok keys [] out); [apply K3|done|cbn; lia|by constructor]|]. intros r e4 [H4 Hr]. split; [by eapply kept_trans|done].
Qed.

(** The text stays; file, message and dirty flag may change. *)
Definition text_kept e e' : Prop := ed_ok e' /\ same_text e e'.

Lemma c_string_inv l : forall str, c_string l = Some str -> exists rest, l = str ++ 0 :: rest.
Proof.
  induction l as [|c l IH]; intros str; cbn [c_string]; [done|]. destruct (Z.eqb_spec c 0) as [->|].
  - intros [= <-]. by exists l.
  - intros (s & Hs & ->)%fmap_Some. destruct (IH s Hs) as [rest ->]. by exists rest.
Qed.

(** Neither the file nor what is recorded of it changed. *)
Definition untouched e e' : Prop := files e' = files e /\ g_dirty e' = g_dirty e /\ g_path e' = g_path e.

(** What a command does besides keeping the text; [stop]: the editor is left. *)
Definition command_effect (str : list Z) e (stop : bool) e' : Prop :=
  if bool_decide (str = text "q") then
    stop = negb (g_dirty e) /\ untouched e e' /\
    (g_dirty e = true -> says (text "unsaved changes " ++ dash ++ text " use :q! or :wq") e')
  else if bool_decide (str = text "q!") then stop = true /\ untouched e e'
  else if bool_decide (str = text "w") then stop = false /\ saved e e'
  else if bool_decide (str = text "wq") then stop = negb (g_dirty e') /\ saved e e'
  else if bool_decide (take 2 str = text "w ") then
    stop = false /\ exists p, length p = 64%nat /\ c_string p = Some (drop 2 str) /\ saved (set_path p e) e'
  else stop = false /\ untouched e e' /\ says (text "unknown command") e'.

Lemma save_kept e : ed_ok e -> runs ed_save_file e (fun _ e' => text_kept e e' /\ saved e e').
Proof. intros He. eapply runs_mono; [by apply ed_save_file_ok|]. by intros [] e' (? & ? & _ & ?). Qed.

Lemma status_kept msg e : message msg -> ed_ok e ->
  runs (ed_set_status msg) e (fun _ e' => text_kept e e' /\ untouched e e' /\ says msg e').
Proof.
  intros Hm He. eapply runs_mono; [apply (status_after msg e e (fun e' => untouched e e' /\ says msg e')); try done|].
  by intros [] e' (? & ? & _ & ?).
Qed.

Lemma run_command_ok cmd str e : ed_ok e -> length cmd = 64%nat -> c_string cmd = Some str -> cname_ok str ->
  runs (run_command cmd) e (fun stop e' => text_kept e e' /\ command_effect str e stop e').
Proof.
  intros He Hl Hstr Hok. unfold run_command, command_effect, ed_strcmp. run. eapply runs_need; [exact Hstr|].
  rewrite !strcmp_eq by (done || (repeat constructor; cbn; lia)).
  destruct (bool_decide (str = text "q")).
  { run. destruct (g_dirty e) eqn:Ed; run; [|done]. eapply runs_mono; [by apply status_kept; [is_message|]|]. intros [] e' (? & ? & ?). by run. }
  destruct (bool_decide (str = text "q!")); [by run|].
  destruct (bool_decide (str = text "w")). { run. eapply runs_mono; [by apply save_kept|]. intros [] e' [? ?]. by run. }
  destruct (bool_decide (str = text "wq")). { run. eapply runs_mono; [by apply save_kept|]. intros [] e' [? ?]. by run. }
  destruct (c_string_inv _ _ Hstr) as [rest ->].
  destruct (bool_decide_reflect (take 2 str = text "w ")) as [Hw|Hw].
  - destruct str as [|a [|b str]]; [done|done|]. change (text "w ") with [119; 32] in Hw. injection Hw as -> ->. cbn [app] in *. run. eapply runs_need; [done|].
    run. eapply runs_need; [done|]. cbn [Z.eqb Pos.eqb andb]. run. cbn [drop].
    apply Forall_cons in Hok as [_ [_ Hok]%Forall_cons]. eapply runs_need; [apply c_string_app; eapply Forall_impl; [exact Hok|cbn; lia]|].
    run. destruct (ed_path e He) as [Hpl _]. cbn [length] in Hl. rewrite length_app in Hl. cbn [length] in Hl.
    destruct (strcpy_exact (g_path e) str Hok ltac:(lia)) as (p & Hp & Hplen & Hps). rewrite Hpl in Hp.
    eapply runs_need; [exact Hp|]. run.
    assert (ed_ok (set_path p e)) as He1 by (destruct He; constructor; try done; cbn; rewrite Hplen, Hps; eauto).
    eapply runs_mono; [by apply save_kept|]. intros [] e' [? ?]. run. split; [done|]. split; [done|]. exists p.
    split; [by rewrite Hplen|done].
  - assert (exists c0 c1 cmd', str ++ 0 :: rest = c0 :: c1 :: cmd' /\ (c0 =? 119) && (c1 =? 32) = false) as (c0 & c1 & cmd' & -> & Hc).
    { destruct str as [|a [|b str]]; cbn [app].
      - destruct rest as [|r rest]; [cbn in Hl; lia|]. by exists 0, r, rest.
      - exists a, 0, rest. split; [done|]. by rewrite andb_false_r.
      - exists a, b, (str ++ 0 :: rest). split; [done|]. destruct (Z.eqb_spec a 119) as [->|], (Z.eqb_spec b 32) as [->|]; done. }
    run. eapply runs_need; [done|]. run. eapply runs_need; [done|]. rewrite Hc. run.
    eapply runs_mono; [by apply status_kept; [is_message|]|]. intros [] e' (? & ? & ?). by run.
Qed.

(** After a key that redraws: the invariants hold and the screen is right. *)
Record settled e : Prop := { se_ok : ed_ok e; se_visible : visible e; se_shows : shows e }.

Lemma redraw_ok {A} (r : A) e : ed_ok e -> (g_view_off e <= g_cursor e -> starts (g_buf e) (g_view_off e)) ->
  runs (_ ← ed_scroll_into_view; _ ← ed_render; mret r) e (fun a e' =>
    a = r /\ settled e' /\ contents e' = contents e /\ g_cursor e' = g_cursor e /\ same_file e e').
Proof.
  intros He Hst. run. eapply runs_mono; [by apply scroll_ok|]. intros [] e1 (v & E1 & H1 & V1). run.
  eapply runs_mono; [by apply ed_render_ok|]. intros [] e2 (H2 & S2 & F2 & Sh). run.
  pose proof (same_contents _ _ S2) as Hc. destruct S2 as (Hb & _ & Hk & Hv). subst e1. split_and!; [done| |by rewrite Hc|by rewrite Hk|apply F2..].
  constructor; [done| |done]. destruct V1 as [? ? ?]. constructor; by rewrite ?Hb, ?Hv, ?Hk.
Qed.

Lemma visible_anchored e : visible e -> anchored e.
Proof. by intros []. Qed.

Lemma text_anchor e e' : visible e -> same_text e e' -> g_view_off e' <= g_cursor e' -> starts (g_buf e') (g_view_off e').
Proof. intros [_ Hs _] (-> & _ & -> & ->) _. done. Qed.

(** Going on means that the screen is up to date; at most the given keys are
    left. *)
Definition after_ok (n : nat) (r : after_key) e : Prop :=
  ed_ok e /\ match r with Go keys => settled e /\ (length keys <= n)%nat | _ => True end.

(** The effect on the file does not depend on the screen. *)
Lemma saved_screen e e1 e2 e' : kept e e1 -> same_file e2 e' -> saved e1 e2 -> saved e e'.
Proof.
  intros (_ & S1 & Hp1 & Hd1 & Hf1 & _) (Hp & Hd & Hf & Hm). unfold saved, says.
  by rewrite (same_contents _ _ S1), Hp1, Hd1, Hf1, Hp, Hd, Hf, Hm.
Qed.

Lemma effect_screen str e e1 stop e2 e' : kept e e1 -> same_file e2 e' -> command_effect str e1 stop e2 -> command_effect str e stop e'.
Proof.
  intros K1 F2. pose proof K1 as (H1 & S1 & Hp1 & Hd1 & Hf1 & _). pose proof F2 as (Hp & Hd & Hf & Hm).
  unfold command_effect, untouched, says. rewrite Hp, Hd, Hf, Hm, Hp1, Hd1, Hf1.
  repeat case_bool_decide; try done; try (intros [? Hs]; split; [done|]; by eapply saved_screen).
  intros [? (p & Hl & Hc & Hs)]. split; [done|]. exists p. split; [done|]. split; [done|].
  eapply (saved_screen _ (set_path p e1)); [|exact F2|exact Hs]. split; [|split; [exact S1|by destruct K1 as (_ & _ & _ & K1)]].
  destruct H1. by constructor.
Qed.

(** What a key does: nothing for a bare modifier; Ctrl+S saves, Ctrl+X leaves,
    ESC reads a command and carries it out, any other key edits. *)
Definition key_row (k : key) (keys : list key) e (r : after_key) e' : Prop :=
  let '(c, mods) := k in
  if (c =? 0) || is_modifier_key c then r = Go keys /\ e' = e
  else if with_ctrl mods && ((c =? 115) || (c =? 83)) then
    r = Go keys /\ settled e' /\ contents e' = contents e /\ g_cursor e' = g_cursor e /\ saved e e'
  else if with_ctrl mods && ((c =? 120) || (c =? 88)) then r = Left keys /\ kept e e'
  else if c =? Keyboard.KEY_ESC then
    contents e' = contents e /\ g_cursor e' = g_cursor e /\
    match command_line keys [] with
    | None => r = InCommand /\ untouched e e'
    | Some (Some (x :: str), ks) => exists stop, r = (if (stop : bool) then Left ks else Go ks) /\
        command_effect (x :: str) e stop e' /\ (stop = false -> settled e')
    | Some (_, ks) => r = Go ks /\ settled e' /\ untouched e e'
    end
  else r = Go keys /\ settled e' /\ key_done c (contents e) (g_cursor e) (contents e') (g_cursor e').

Lemma escape_ok keys cmd e : settled e -> length cmd = 64%nat ->
  runs (r ← ed_run_command keys cmd;
        match r with
        | None => mret InCommand
        | Some (true, keys) => _ ← on_screen console_clear; mret (Left keys)
        | Some (false, keys) => _ ← ed_scroll_into_view; _ ← ed_render; mret (Go keys)
        end) e (fun r e' => ed_ok e' /\ contents e' = contents e /\ g_cursor e' = g_cursor e /\
    match command_line keys [] with
    | None => r = InCommand /\ untouched e e'
    | Some (Some (x :: str), ks) => exists stop, r = (if (stop : bool) then Left ks else Go ks) /\
        command_effect (x :: str) e stop e' /\ (stop = false -> settled e')
    | Some (_, ks) => r = Go ks /\ settled e' /\ untouched e e'
    end).
Proof.
  intros [He Hv Hsh] Hl. apply runs_bind. unfold ed_run_command. run. eapply runs_mono; [by apply ed_read_command_ok|].
  intros r e1 [K1 Hr]. pose proof K1 as (H1 & S1 & Hp1 & Hd1 & Hf1 & _). pose proof (same_contents _ _ S1) as C1.
  assert (Hidle : forall ks, runs (_ ← ed_scroll_into_view; _ ← ed_render; mret (Go ks)) e1 (fun r e' => ed_ok e' /\
    contents e' = contents e /\ g_cursor e' = g_cursor e /\ r = Go ks /\ settled e' /\ untouched e e')).
  { intros ks. eapply runs_mono; [apply redraw_ok; [done|by eapply text_anchor]|]. intros r' e2 (-> & Hs & Hc & Hk & Hp & Hd & Hf & _).
    split; [apply Hs|]. split; [congruence|]. split; [rewrite Hk; apply S1|]. split; [done|]. split; [done|].
    unfold untouched. intuition congruence. }
  destruct r as [out pos ks|out ks|]; cbn [entered] in Hr.
  - destruct Hr as (str & -> & -> & Hlo & Hcs & Hok). destruct str as [|x str].
    { cbn [length Z.of_nat Z.leb Z.compare]. apply runs_ret, Hidle. }
    rewrite (proj2 (Z.leb_gt _ 0)) by (cbn; lia). run. eapply runs_mono; [by apply run_command_ok|].
    intros stop e2 [[H2 S2] Heff]. run. pose proof (same_contents _ _ S2) as C2. destruct stop.
    + run. eapply runs_mono; [by apply clear_kept|]. intros [] e3 (H3 & S3 & F3). run.
      split; [done|]. split; [rewrite (same_contents _ _ S3); congruence|]. split; [destruct S1, S2, S3; intuition congruence|].
      exists true. split; [done|]. split; [by eapply effect_screen|done].
    + eapply runs_mono; [apply redraw_ok; [done|eapply text_anchor; [exact Hv|by eapply same_trans]]|].
      intros r' e3 (-> & Hs & Hc & Hk & F3). split; [apply Hs|]. split; [congruence|]. split; [destruct S1, S2; intuition congruence|].
      exists false. split; [done|]. split; [by eapply effect_screen|done].
  - rewrite Hr. apply runs_ret, Hidle.
  - rewrite Hr. run. split; [done|]. split; [done|]. split; [apply S1|]. by split.
Qed.

Lemma key_row_ok k keys cmd e : settled e -> length cmd = 64%nat ->
  runs (handle_key k keys cmd) e (fun r e' => ed_ok e' /\ key_row k keys e r e').
Proof.
  intros He Hl. pose proof He as [Hok Hv Hsh]. destruct k as [c mods]. unfold handle_key, key_row.
  destruct (_ || _); [by run|].
  destruct (_ && _).
  { apply runs_bind. eapply runs_mono; [by apply save_kept|]. intros [] e1 [[H1 S1] Hsv].
    eapply runs_mono; [apply redraw_ok; [done|by eapply text_anchor]|]. intros r e2 (-> & H2 & Hc & Hk & F2).
    split; [apply H2|]. split; [done|]. split; [done|]. split; [by rewrite Hc, (same_contents _ _ S1)|].
    split; [rewrite Hk; apply S1|]. by eapply saved_screen; [apply kept_refl| |]. }
  destruct (_ && _).
  { run. eapply runs_mono; [by apply clear_kept|]. intros [] e1 K1. run. split; [apply K1|done]. }
  destruct (c =? Keyboard.KEY_ESC); [by apply escape_ok|].
  apply runs_bind. eapply runs_mono; [by apply edit_key_ok, visible_anchored|]. intros [] e1 [H1 [Hdone Hst]].
  eapply runs_mono; [by apply redraw_ok|]. intros r e2 (-> & H2 & Hc & Hk & _). split; [apply H2|]. by rewrite Hc, Hk.
Qed.

Lemma handle_key_ok k keys cmd e : settled e -> length cmd = 64%nat ->
  runs (handle_key k keys cmd) e (fun r e' => after_ok (length keys) r e').
Proof.
  intros He Hl. eapply runs_mono; [by apply key_row_ok|]. intros r e' [Hok Hrow]. split; [done|].
  destruct k as [c mods], r as [ks| |]; try done. unfold key_row in Hrow. repeat case_match; try naive_solver.
  all: try (destruct Hrow as [[= ->] ->]; by split).
  all: try (destruct Hrow as ([= ->] & ? & _); by split).
  all: destruct Hrow as (_ & _ & Hrow).
  all: try (destruct Hrow as ([= ->] & ? & _); split; [done|by eapply command_line_length]).
  destruct Hrow as ([|] & [=] & _ & Hs). subst. split; [by apply Hs|by eapply command_line_length].
Qed.

Lemma editor_loop_ok fuel : forall keys cmd e, settled e -> length cmd = 64%nat -> (length keys < fuel)%nat ->
  runs (editor_loop fuel keys cmd) e (fun r e' => ed_ok e' /\ match r with Go ks => ks = [] /\ settled e' | _ => True end).
Proof.
  induction fuel as [|fuel IH]; intros keys cmd e He Hl Hf; [lia|]. cbn [editor_loop].
  destruct keys as [|k keys]; [run; split; [apply He|done]|]. cbn [length] in Hf. run.
  eapply runs_mono; [by apply handle_key_ok|]. intros r e1 [H1 Hr].
  destruct r as [keys'|keys'|]; [|by run|by run]. destruct Hr as [Hs Hk]. apply IH; [done|done|lia].
Qed.

End sessions.

(** * Properties *)

(** A file system that holds one file, for the examples. *)
Module OneFile.

#[export] Instance calls : FileCalls (list Z) := {
  fc_open _ flags w := Some (0, if Z.testbit flags 9 then [] else w);
  fc_read _ count w := Some (Z.of_nat (length (take (Z.to_nat count) w)), take (Z.to_nat count) w, w);
  fc_write _ bytes w := Some (Z.of_nat (length bytes), w ++ bytes);
  fc_close _ w := Some (tt, w) }.

#[export] Instance laws : FileCallsLaws (list Z).
Proof.
  exists (fun _ => True).
  - intros. by eexists _, _.
  - intros fd count w _ Hc. eexists _, _. split; [done|]. cbn. rewrite length_take. lia.
  - intros. by eexists _, _.
  - intros. by eexists _, _.
Defined.

Definition start (w : list Z) : editor (list Z) :=
  mk_editor (replicate (Z.to_nat 8192) 0) 0 0 0 (replicate 64 0) false (replicate 80 0) (mk_console (replicate 2000 0) 0 0 15) w.

Lemma start_ok w : ed_ok (start w).
Proof.
  constructor; cbn [g_buf g_len g_cursor g_view_off g_path g_status_msg screen start]; try lia.
  - rewrite length_replicate. lia.
  - split; [done|by eexists].
  - split; [done|by eexists].
  - by constructor.
  - exact I.
Qed.

(** The text "hi" and an empty line, of the file "/a". *)
Definition two_lines : editor (list Z) :=
  set_path (text "/a" ++ replicate 62 0) (set_text (text "hi" ++ [NL] ++ replicate (Z.to_nat 8189) 0) 3 1 (start [])).

Lemma two_lines_ok : ed_ok two_lines.
Proof.
  constructor; cbn [g_buf g_len g_cursor g_view_off g_path g_status_msg screen files two_lines set_path set_text start]; try lia.
  - rewrite !length_app, length_replicate. cbn. lia.
  - split; [done|by eexists].
  - split; [done|by eexists].
  - by constructor.
  - exact I.
Qed.

End OneFile.
Import OneFile.

(** C12: every key has the effect that the key table gives it.  A bare modifier
    does nothing; Ctrl+S saves; Ctrl+X leaves the editor and changes nothing
    but the screen; ESC reads a command line (with backspace, up to 63
    characters, until ENTER or ESC) and carries out q, q!, w, wq and w name;
    any other key edits: letters, newline and tab are inserted at the cursor
    unless the buffer is full, backspace removes the character before it, the
    arrows move it, up and down to the same column or the end of a shorter
    line, with one exception, that the down arrow does not enter an empty last
    line.  Unless the editor was left or still waits for the rest of a command,
    the cursor's line is afterwards among the 24 visible ones, the cells hold
    exactly the visible part of the text and the hardware cursor is on the
    cursor. *)
Theorem editor_key_effect {W : Type} {HW : FileCalls W} {HL : FileCallsLaws W} (k : key) (keys : list key) (cmd : list Z) (e : editor W)
    (Hset : settled e)
    (Hcmd : length cmd = 64%nat) :
  runs (handle_key k keys cmd) e (fun r e' => ed_ok e' /\ key_row k keys e r e').
Proof. by apply key_row_ok. Qed.

(** The down arrow in a text that ends with a newline. *)
Lemma editor_key_effect_witness :
  exists e, settled e /\ above_empty_last (contents e) (g_cursor e) /\
  runs (handle_key (Keyboard.KEY_DOWN, 0) [] (replicate 64 0)) e (fun r e' => ed_ok e' /\
    r = Go [] /\ settled e' /\ contents e' = text "hi" ++ [NL] /\ g_cursor e' = 1).
Proof.
  assert (Hv : visible two_lines) by (constructor; cbn; [lia|by left|by vm_compute]).
  destruct (ed_render_ok two_lines two_lines_ok Hv) as ([] & e & Hrun & He & Hs & _ & Hsh).
  clear Hrun. assert (Hset : settled e).
  { constructor; [done| |done]. destruct Hs as (Hb & _ & Hk & Hw), Hv. constructor; by rewrite ?Hb, ?Hw, ?Hk. }
  pose proof (same_contents _ _ Hs) as Hc. change (contents two_lines) with (text "hi" ++ [NL]) in Hc.
  destruct Hs as (_ & _ & Hk & _). change (g_cursor two_lines) with 1 in Hk.
  assert (Hab : above_empty_last (contents e) (g_cursor e)).
  { exists 0. rewrite Hc, Hk. constructor; [cbn; lia|by left|by right|]. intros p Hp.
    assert (p = 0 \/ p = 1) as [->| ->] by (cbn in Hp; lia); discriminate. }
  exists e. split; [done|]. split; [done|].
  eapply runs_mono; [exact (editor_key_effect (Keyboard.KEY_DOWN, 0) [] (replicate 64 0) e Hset eq_refl)|].
  intros r e' (He' & Hr & Hset' & Hd). split; [done|]. split; [done|]. split; [done|].
  unfold key_done in Hd. destruct Hd as [(_ & _ & Hc' & Hk')|[Hn _]]; [|by destruct Hn].
  rewrite Hc', Hk', Hc, Hk. by split.
Defined.

(** C24: an editing session is safe and ends: whatever file is opened and
    whatever keys are typed, loading, editing, scrolling, drawing, the command
    line and saving never access anything outside their arrays, every loop
    stops, and whenever the editor waits for the next key the cursor is
    visible and the screen shows the text. *)
Theorem editor_session_safe {W : Type} {HW : FileCalls W} {HL : FileCallsLaws W} (filename : list Z) (keys : list key)
    (cmd : list Z) (e : editor W)
    (Hok : ed_ok e)
    (Hcmd : length cmd = 64%nat) :
  runs (editor_open filename keys cmd) e (fun r e' => ed_ok e' /\
    match r with Go ks => ks = [] /\ visible e' /\ shows e' | _ => True end).
Proof.
  unfold editor_open. run. destruct (ed_path e Hok) as [Hpl _].
  destruct (strcpy_in (g_path e) filename EDITOR_FILENAME_MAX) as (p & Hp & Hplen & Hps); [done|unfold EDITOR_FILENAME_MAX; lia|].
  eapply runs_need; [exact Hp|]. run.
  assert (ed_ok (set_path p e)) as He1 by (destruct Hok; constructor; try done; cbn; by rewrite Hplen).
  eapply runs_mono; [by apply clear_msg_ok|]. intros [] e2 (He2 & _ & _ & _). run. destruct Hps as [nm Hnm].
  eapply runs_need; [exact Hnm|]. run. eapply runs_mono; [by apply ed_load_file_ok|]. intros [] e3 (He3 & Hc3 & Hv3 & _).
  run. eapply runs_mono; [by apply clear_kept|]. intros [] e4 (He4 & (Hb4 & _ & Hc4 & Hv4) & _).
  assert (visible e4) as Hvis4.
  { constructor; rewrite ?Hc4, ?Hv4, ?Hc3, ?Hv3; [lia|by left|]. by vm_compute. }
  run. eapply runs_mono; [by apply ed_render_ok|]. intros [] e5 (He5 & (Hb5 & _ & Hc5 & Hv5) & _ & Hsh5).
  assert (settled e5) as Hs5.
  { constructor; [done| |done]. destruct Hvis4. constructor; by rewrite ?Hb5, ?Hv5, ?Hc5. }
  eapply runs_mono; [apply editor_loop_ok; [done|done|lia]|]. intros r e6 [He6 Hr]. split; [done|].
  destruct r; [|done|done]. destruct Hr as [-> []]. done.
Qed.

Lemma editor_session_safe_witness :
  runs (editor_open (text "/a") [(104, 0); (13, 0); (128, 0)] (replicate 64 0)) (OneFile.start (text "one")) (fun r e' => ed_ok e' /\
    match r with Go ks => ks = [] /\ visible e' /\ shows e' | _ => True end).
Proof.
  apply (editor_session_safe (text "/a") [(104, 0); (13, 0); (128, 0)] (replicate 64 0) (OneFile.start (text "one"))).
  - apply OneFile.start_ok.
  - reflexivity.
Defined.

(** C30: saving writes exactly the text: without a file name nothing is called;
    otherwise the file is opened for writing with creation and truncation, the
    whole text is written in one call and the descriptor is closed, and the
    text counts as saved, and is reported so, only if every byte was accepted.
    Loading a file empties the text and gives it the bytes that were read; it
    is reported as loaded whenever it could be opened, also when the read
    failed or did not reach the end of the file.  Neither moves anything else:
    saving keeps text, cursor and path, loading resets cursor, view and dirty
    flag. *)
Theorem editor_save_load {W : Type} {HW : FileCalls W} {HL : FileCallsLaws W} (e : editor W)
    (Hok : ed_ok e) :
  runs ed_save_file e (fun _ e' => ed_ok e' /\ contents e' = contents e /\ g_cursor e' = g_cursor e /\ saved e e') /\
  (forall nm, runs (ed_load_file nm) e (fun _ e' => ed_ok e' /\ loaded nm e e')).
Proof.
  split.
  - eapply runs_mono; [by apply ed_save_file_ok|]. intros [] e' (? & Hs & _ & ?). split_and!; [done|by apply same_contents|apply Hs|done].
  - intros nm. by apply ed_load_file_ok.
Qed.

Lemma editor_save_load_witness :
  runs ed_save_file two_lines (fun _ e' => ed_ok e' /\ contents e' = contents two_lines /\ g_cursor e' = 1 /\ saved two_lines e') /\
  (forall nm, runs (ed_load_file nm) two_lines (fun _ e' => ed_ok e' /\ loaded nm two_lines e')).
Proof. exact (editor_save_load two_lines two_lines_ok). Defined.

(** The down arrow does not reach an empty last line. *)
Lemma down_arrow_stuck : (fun r => g_cursor r.2) <$> ed_move_down two_lines = Some 1.
Proof. vm_compute. reflexivity. Qed.

End Editor.
