(* ===== verification/Syscall.v ===== *)
(** System calls (src/syscall/syscall.c, syscall.h): the descriptor table over
    the file system, the handlers and the dispatcher of INT 0x80, and the calls
    as a service for programs ([FileCalls]).

    Kernel and program share one address space, so a pointer argument is an
    address of the memory [k_mem] of the process component.  A string argument
    is read up to its terminator within [string_max] bytes. *)
From stdpp Require Import strings.
From S2P Require Import Prelude Interfaces Mem Bytes Pcb Queue Sched Process RamDisk FsDisk FsFile FsDir FsApi Ports Keyboard Console Interrupt.
#[local] Open Scope Z_scope.

Module Syscall.
Import Console.

Definition SYS_getpid := 0.
Definition SYS_exit := 1.
Definition SYS_write := 2.
Definition SYS_open := 3.
Definition SYS_close := 4.
Definition SYS_read := 5.
Definition SYS_sleep := 6.
Definition SYS_ps := 7.
Definition SYS_gettime := 8.
Definition SYS_mkdir := 9.
Definition SYS_listdir := 10.
Definition SYS_stat := 11.
Definition SYSCALL_FD_STDOUT := 1.
Definition SYSCALL_FD_STDERR := 2.
Definition SYSCALL_MAX_FDS := 16.
Definition FD_FLAG_USED := 0x01.

Record syscall_fd := mk_slot { fd : Z; flags : Z; aresfs_fd : Z; pos : Z }.

(** What [fd_release] and [syscall_init] leave. *)
Definition free_slot (i : Z) : syscall_fd := mk_slot i 0 (-1) 0.

Definition status_code (st : FsDisk.ares_status) : Z :=
  match st with
  | FsDisk.ARES_OK => 0 | FsDisk.ARES_ERROR => -1 | FsDisk.ARES_ENOMEM => -2
  | FsDisk.ARES_EINVAL => -3 | FsDisk.ARES_ENODEV => -4 | FsDisk.ARES_EBUSY => -5
  end.

(** [(uint64_t)(int64_t)v]. *)
Definition ret_from_int (v : Z) : Z := u64 v.

Definition set_rax (v : Z) (f : Interrupt.interrupt_frame) : Interrupt.interrupt_frame :=
  match f with
  | Interrupt.mk_frame r15 r14 r13 r12 r11 r10 r9 r8 rbp rdi rsi rdx rcx rbx _ int_no err_code rip cs rflags rsp ss =>
      Interrupt.mk_frame r15 r14 r13 r12 r11 r10 r9 r8 rbp rdi rsi rdx rcx rbx v int_no err_code rip cs rflags rsp ss
  end.

Definition process_state_str (s : Pcb.process_state) : string :=
  match s with
  | Pcb.PROCESS_EMBRYO => "EMBRYO"
  | Pcb.PROCESS_READY => "READY"
  | Pcb.PROCESS_RUNNING => "RUNNING"
  | Pcb.PROCESS_BLOCKED => "BLOCKED"
  | Pcb.PROCESS_TERMINATED => "TERM"
  end.

Definition process_priority_str (p : Z) : string :=
  if p =? Pcb.PRIORITY_LOW then "LOW" else if p =? Pcb.PRIORITY_NORMAL then "NORMAL"
  else if p =? Pcb.PRIORITY_HIGH then "HIGH" else if p =? Pcb.PRIORITY_REALTIME then "RT" else "?".

(** The longest string a pointer may refer to. *)
Definition string_max : nat := Z.to_nat 65536.

(** The bytes of the string at address [a], with its terminator. *)
Fixpoint string_at (fuel : nat) (m : gmap Z Z) (a : Z) : option (list Z) :=
  match fuel with
  | O => None
  | S fuel =>
      let c := mem_byte m a in
      if c =? 0 then Some [0] else cons c <$> string_at fuel m (a + 1)
  end.

Section syscall.
Context {D : Type} {HD : BlockDevice D}.

(** The descriptor table and the components the handlers call.  [out] is the
    list of console calls. *)
Record sys := mk_sys {
  fd_table : list syscall_fd;
  s_fs : FsDisk.fs D;
  s_kern : Process.kern;
  timer_ticks : Z;
  out : list console_call }.

Definition set_table x s := mk_sys x (s_fs s) (s_kern s) (timer_ticks s) (out s).
Definition set_fs x s := mk_sys (fd_table s) x (s_kern s) (timer_ticks s) (out s).
Definition set_kern x s := mk_sys (fd_table s) (s_fs s) x (timer_ticks s) (out s).
Definition set_ticks x s := mk_sys (fd_table s) (s_fs s) (s_kern s) x (out s).
Definition set_out x s := mk_sys (fd_table s) (s_fs s) (s_kern s) (timer_ticks s) x.

Definition on_fs {A} (m : prog (FsDisk.fs D) A) : prog sys A := fun s =>
  match m (s_fs s) with Some (a, x) => Some (a, set_fs x s) | None => None end.
Definition on_kern {A} (m : prog Process.kern A) : prog sys A := fun s =>
  match m (s_kern s) with Some (a, x) => Some (a, set_kern x s) | None => None end.
Definition print (c : console_call) : prog sys unit := modify (fun s => set_out (out s ++ [c]) s).

Definition memory (s : sys) : gmap Z Z := Process.k_mem (s_kern s).
Definition put_bytes (a : Z) (bs : list Z) : prog sys unit :=
  modify (fun s => set_kern (Process.set_mem (store_bytes a bs (memory s)) (s_kern s)) s).

(** A null pointer, or the string it points to. *)
Definition path_from_user (a : Z) : prog sys (option (list Z)) :=
  if a =? 0 then mret None else m ← gets memory; p ← need (string_at string_max m a); mret (Some p).

(** * The descriptor table *)

Definition get_slot (i : Z) : prog sys syscall_fd := t ← gets fd_table; need (arr_get t i).
Definition put_slot (i : Z) (x : syscall_fd) : prog sys unit :=
  t ← gets fd_table; t ← need (arr_set t i x); modify (set_table t).

Definition in_use (x : syscall_fd) : bool := negb (Z.land (flags x) FD_FLAG_USED =? 0).

(** The index of the slot that was taken. *)
Definition fd_alloc : prog sys (option Z) :=
  for_ret (Z.to_nat SYSCALL_MAX_FDS) 0 (fun i =>
    x ← get_slot i;
    if negb (in_use x) then _ ← put_slot i (mk_slot i FD_FLAG_USED (-1) 0); mret (Some i)
    else mret None).

Definition fd_release (i : Z) : prog sys unit := x ← get_slot i; put_slot i (mk_slot (fd x) 0 (-1) 0).

Definition syscall_fd_from_fd (n : Z) : prog sys (option Z) :=
  if (n <? 0) || (SYSCALL_MAX_FDS <=? n) then mret None
  else x ← get_slot n; mret (if negb (in_use x) then None else Some n).

(** [slot->pos += n] after a transfer. *)
Definition add_pos (i n : Z) : prog sys unit :=
  if 0 <? n then x ← get_slot i; put_slot i (mk_slot (fd x) (flags x) (aresfs_fd x) (u32 (pos x + u32 n)))
  else mret tt.

(** * Handlers *)

(** The program resumes with the frame, or its process is gone and another
    one runs. *)
Inductive outcome := Resume (f : Interrupt.interrupt_frame) | Switched (ret : Z).

Definition return_ (f : Interrupt.interrupt_frame) (v : Z) : prog sys outcome := mret (Resume (set_rax v f)).
Definition return_int (f : Interrupt.interrupt_frame) (v : Z) : prog sys outcome := return_ f (ret_from_int v).

Definition sys_getpid (f : Interrupt.interrupt_frame) : prog sys outcome :=
  c ← on_kern Process.get_current;
  match c with
  | Some i => p ← on_kern (Process.on_table (Pcb.get_pcb i)); return_ f (Pcb.pid p)
  | None => return_int f (-1)
  end.

(** [ret] is where the caller of the context switch would return to. *)
Definition sys_exit (ret : Z) (f : Interrupt.interrupt_frame) : prog sys outcome :=
  r ← on_kern (Process.process_exit ret);
  match r with
  | Some a => mret (Switched a)
  | None => return_ f 0
  end.

Definition sys_write (f : Interrupt.interrupt_frame) : prog sys outcome :=
  let n := Interrupt.rdi f in
  let buf := Interrupt.rsi f in
  let count := Interrupt.rdx f in
  if (n =? SYSCALL_FD_STDOUT) || (n =? SYSCALL_FD_STDERR) then
    m ← gets memory;
    str ← need (string_at string_max m buf ≫= c_string);
    _ ← print (Puts str);
    return_ f count
  else
    slot ← syscall_fd_from_fd (i32 n);
    match slot with
    | None => return_int f (-1)
    | Some i =>
        x ← get_slot i;
        m ← gets memory;
        k ← on_fs (FsApi.aresfs_write (aresfs_fd x) (if buf =? 0 then None else Some (mem_bytes m buf count)));
        _ ← add_pos i k;
        return_int f k
    end.

Definition sys_open (f : Interrupt.interrupt_frame) : prog sys outcome :=
  path ← path_from_user (Interrupt.rdi f);
  a ← on_fs (FsApi.aresfs_open path (i32 (Interrupt.rsi f)));
  if a <? 0 then return_int f (-1)
  else
    slot ← fd_alloc;
    match slot with
    | None => _ ← on_fs (FsApi.aresfs_close a); return_int f (-1)
    | Some i =>
        x ← get_slot i;
        _ ← put_slot i (mk_slot (fd x) (flags x) a (pos x));
        return_int f (fd x)
    end.

Definition sys_close (f : Interrupt.interrupt_frame) : prog sys outcome :=
  slot ← syscall_fd_from_fd (i32 (Interrupt.rdi f));
  match slot with
  | None => return_int f (-1)
  | Some i =>
      x ← get_slot i;
      _ ← on_fs (FsApi.aresfs_close (aresfs_fd x));
      _ ← fd_release i;
      return_ f 0
  end.

Definition sys_read (f : Interrupt.interrupt_frame) : prog sys outcome :=
  slot ← syscall_fd_from_fd (i32 (Interrupt.rdi f));
  match slot with
  | None => return_int f (-1)
  | Some i =>
      x ← get_slot i;
      '(k, bytes) ← on_fs (FsApi.aresfs_read (aresfs_fd x) (Interrupt.rsi f =? 0) (Interrupt.rdx f));
      _ ← put_bytes (Interrupt.rsi f) bytes;
      _ ← add_pos i k;
      return_int f k
  end.

(** Waiting for an interrupt: what happens before [hlt] returns. *)
Variable hlt : prog sys unit.

Fixpoint sleep_loop (fuel : nat) (target : Z) : prog sys unit :=
  match fuel with
  | O => need None
  | S fuel =>
      t ← gets timer_ticks;
      if t <? target then _ ← hlt; sleep_loop fuel target else mret tt
  end.

(** Every wait is ended by at least one tick. *)
Definition sys_sleep (f : Interrupt.interrupt_frame) : prog sys outcome :=
  t ← gets timer_ticks;
  let target := u64 (t + Interrupt.rdi f) in
  _ ← sleep_loop (S (Z.to_nat (target - t))) target;
  return_ f 0.

(** One line of the process list. *)
Definition ps_line (fmt : string) (extra : list arg) (i : Z) : prog Process.kern console_call :=
  p ← Process.on_table (Pcb.get_pcb i);
  str ← need (c_string (Pcb.name p));
  mret (Printf (text fmt ++ [10]) ([AVal (Pcb.pid p); AStr (Some str); AStr (Some (text (process_state_str (Pcb.state p))));
    AStr (Some (text (process_priority_str (Pcb.priority p))))] ++ extra ++ [AVal (Pcb.total_ticks p)])).

Fixpoint ps_lines (ids : list Z) : prog Process.kern (list console_call) :=
  match ids with
  | [] => mret []
  | i :: ids => c ← ps_line "%-4u %-24s %-10s %-8s %-8u" [] i; cs ← ps_lines ids; mret (c :: cs)
  end.

(** What [process_ps] prints. *)
Definition ps_report : prog Process.kern (list console_call) :=
  c ← Process.get_current;
  here ← (match c with
          | Some i => l ← ps_line "%-4u %-24s %-10s %-8s %-8u (current)" [AVal 0] i; mret [l]
          | None => mret []
          end);
  ids ← Process.on_table (Pcb.pcb_enum_active 64);
  rest ← ps_lines (match c with Some i => filter (.≠ i) ids | None => ids end);
  let head a b c d e x := Printf (text "%-4s %-24s %-10s %-8s %-8s %s" ++ [10])
        [AStr (Some (text a)); AStr (Some (text b)); AStr (Some (text c)); AStr (Some (text d)); AStr (Some (text e)); AStr (Some (text x))] in
  mret ([head "PID" "NAME" "STATE" "PRIO" "TICKS" "TOTAL"; head "---" "----" "-----" "----" "-----" "-----"] ++ here ++ rest).

Definition sys_ps (f : Interrupt.interrupt_frame) : prog sys outcome :=
  cs ← on_kern ps_report;
  _ ← modify (fun s => set_out (out s ++ cs) s);
  return_ f 0.

Definition sys_gettime (f : Interrupt.interrupt_frame) : prog sys outcome :=
  t ← gets timer_ticks; return_ f t.

Definition sys_mkdir (f : Interrupt.interrupt_frame) : prog sys outcome :=
  path ← path_from_user (Interrupt.rdi f);
  st ← on_fs (FsApi.aresfs_mkdir path);
  return_int f (status_code st).

(** The buffer is written unless the directory could not be read. *)
Definition sys_listdir (f : Interrupt.interrupt_frame) : prog sys outcome :=
  path ← path_from_user (Interrupt.rdi f);
  '(st, txt) ← on_fs (FsApi.aresfs_listdir path (Interrupt.rsi f =? 0) (Interrupt.rdx f));
  _ ← (match st with
       | FsDisk.ARES_OK | FsDisk.ARES_ENOMEM => put_bytes (Interrupt.rsi f) (txt ++ [0])
       | _ => mret tt
       end);
  return_int f (status_code st).

Definition sys_stat (f : Interrupt.interrupt_frame) : prog sys outcome :=
  path ← path_from_user (Interrupt.rdi f);
  '(st, r) ← on_fs (FsApi.aresfs_stat path);
  _ ← (match r with
       | Some (size, mode) =>
           _ ← (if negb (Interrupt.rsi f =? 0) then put_bytes (Interrupt.rsi f) (le 8 size) else mret tt);
           if negb (Interrupt.rdx f =? 0) then put_bytes (Interrupt.rdx f) (le 4 mode) else mret tt
       | None => mret tt
       end);
  return_int f (status_code st).

Definition syscall_handler (ret : Z) (f : Interrupt.interrupt_frame) : prog sys outcome :=
  let n := Interrupt.rax f in
  if n =? SYS_getpid then sys_getpid f
  else if n =? SYS_exit then sys_exit ret f
  else if n =? SYS_write then sys_write f
  else if n =? SYS_open then sys_open f
  else if n =? SYS_close then sys_close f
  else if n =? SYS_read then sys_read f
  else if n =? SYS_sleep then sys_sleep f
  else if n =? SYS_ps then sys_ps f
  else if n =? SYS_gettime then sys_gettime f
  else if n =? SYS_mkdir then sys_mkdir f
  else if n =? SYS_listdir then sys_listdir f
  else if n =? SYS_stat then sys_stat f
  else return_int f (-1).

(** The table part of [syscall_init]; the other calls register the handler
    ([init_vector]) and print a line. *)
Definition syscall_init : prog sys unit :=
  _ ← for_ (Z.to_nat SYSCALL_MAX_FDS) 0 (fun i => put_slot i (free_slot i));
  print (Writeline (text "[syscall] Syscall interface initialized (INT 0x80)")).

Definition init_vector : prog Interrupt.machine unit :=
  _ ← Interrupt.interrupt_register_handler 0x80 Interrupt.Isr_syscall;
  Interrupt.interrupt_set_dpl 0x80 Interrupt.IDT_FLAG_DPL_3.

End syscall.
#[global] Arguments sys D : clear implicits.
(** * The descriptor table *)

Section table.
Context {D : Type} {HD : BlockDevice D}.
Implicit Types (s : sys D) (f : Interrupt.interrupt_frame).

Record table_ok (t : list syscall_fd) : Prop := {
  tb_len : length t = 16%nat;
  tb_fd i x : arr_get t i = Some x -> fd x = i }.

(** The open descriptors: each with the descriptor of the file system behind
    it. *)
Definition open_files s (n : Z) : option Z :=
  x ← arr_get (fd_table s) n; if in_use x then Some (aresfs_fd x) else None.

Lemma runs_on_fs {A} (m : prog (FsDisk.fs D) A) s a x (Q : A -> sys D -> Prop) :
  m (s_fs s) = Some (a, x) -> Q a (set_fs x s) -> runs (on_fs m) s Q.
Proof. intros Hm HQ. exists a, (set_fs x s). split; [|done]. unfold on_fs. by rewrite Hm. Qed.

Lemma slot_in s i : table_ok (fd_table s) -> 0 <= i < 16 -> exists x, arr_get (fd_table s) i = Some x /\ fd x = i.
Proof. intros [Hl Hfd] Hi. destruct (arr_get_in (fd_table s) i) as [x Hx]; [lia|]. eauto. Qed.

Lemma runs_get_slot i x s (Q : syscall_fd -> sys D -> Prop) : arr_get (fd_table s) i = Some x -> Q x s -> runs (get_slot i) s Q.
Proof. intros Hx HQ. unfold get_slot. run. by eapply runs_need. Qed.

(** The table with one slot replaced. *)
Definition with_slot (i : Z) (x : syscall_fd) s : sys D := set_table (<[Z.to_nat i := x]> (fd_table s)) s.

Lemma runs_put_slot i x s (Q : unit -> sys D -> Prop) : table_ok (fd_table s) -> 0 <= i < 16 ->
  Q tt (with_slot i x s) -> runs (put_slot i x) s Q.
Proof. intros [Hl _] Hi HQ. unfold put_slot. run. eapply runs_need; [apply arr_set_in; lia|]. by run. Qed.

Lemma with_slot_get i x s j : table_ok (fd_table s) -> 0 <= i < 16 ->
  arr_get (fd_table (with_slot i x s)) j = if j =? i then Some x else arr_get (fd_table s) j.
Proof. intros [Hl _] Hi. apply arr_get_insert. lia. Qed.

Lemma with_slot_ok i x s : table_ok (fd_table s) -> 0 <= i < 16 -> fd x = i -> table_ok (fd_table (with_slot i x s)).
Proof.
  intros Ht Hi Hx. constructor; [cbn; rewrite length_insert; apply Ht|]. intros j y. rewrite with_slot_get by done.
  destruct (Z.eqb_spec j i) as [->|]; [by intros [= <-]|apply Ht].
Qed.

Lemma with_slot_open i x s j : table_ok (fd_table s) -> 0 <= i < 16 ->
  open_files (with_slot i x s) j = if j =? i then (if in_use x then Some (aresfs_fd x) else None) else open_files s j.
Proof. intros Ht Hi. unfold open_files. rewrite with_slot_get by done. by destruct (j =? i). Qed.

Lemma from_fd_ok n s : table_ok (fd_table s) ->
  syscall_fd_from_fd n s = Some (match open_files s n with Some _ => Some n | None => None end, s).
Proof.
  intros Ht. unfold syscall_fd_from_fd, open_files, SYSCALL_MAX_FDS. destruct (Z.ltb_spec n 0), (Z.leb_spec 16 n); cbn [orb].
  1-3: unfold arr_get; pose proof (tb_len _ Ht); destruct (Z.leb_spec 0 n); try done; rewrite lookup_ge_None_2 by lia; done.
  destruct (slot_in s n Ht ltac:(lia)) as (x & Hx & _). unfold get_slot, mbind, prog_bind, gets, need. rewrite Hx.
  cbn. by destruct (in_use x).
Qed.

Lemma fd_alloc_ok s : table_ok (fd_table s) ->
  runs fd_alloc s (fun r s' =>
    match r with
    | None => s' = s /\ forall n, 0 <= n < 16 -> is_Some (open_files s n)
    | Some n => s' = with_slot n (mk_slot n FD_FLAG_USED (-1) 0) s /\ 0 <= n < 16 /\ open_files s n = None /\
        forall k, 0 <= k < n -> is_Some (open_files s k)
    end).
Proof.
  intros Ht. unfold fd_alloc. change (Z.to_nat SYSCALL_MAX_FDS) with 16%nat.
  apply (runs_for_ret (fun j s' => s' = s /\ forall k, 0 <= k < j -> is_Some (open_files s k))).
  - split; [done|]. intros. lia.
  - intros j s' Hj [-> Hk]. destruct (slot_in s j Ht ltac:(lia)) as (x & Hx & _). run. eapply runs_get_slot; [exact Hx|].
    destruct (in_use x) eqn:Eu; cbn [negb]; run.
    + split; [done|]. intros k Hkj. destruct (Z.eq_dec k j) as [->|]; [|apply Hk; lia]. unfold open_files. rewrite Hx. cbn. rewrite Eu. by eexists.
    + apply runs_put_slot; [done|lia|]. run. split_and!; [done|lia|lia| |done]. unfold open_files. rewrite Hx. cbn. by rewrite Eu.
  - intros s' [-> Hk]. split; [done|]. intros n Hn. apply Hk. lia.
Qed.

Lemma set_fs_table x s : fd_table (set_fs x s) = fd_table s.
Proof. done. Qed.

(** After opening: a descriptor of the file system [a] was obtained with the
    file system in state [x]. *)
Definition opened f s (a : Z) (x : FsDisk.fs D) (r : outcome) (s' : sys D) : Prop :=
  (a < 0 /\ r = Resume (set_rax (2 ^ 64 - 1) f) /\ s' = set_fs x s) \/
  (0 <= a /\ (forall n, 0 <= n < 16 -> is_Some (open_files s n)) /\ r = Resume (set_rax (2 ^ 64 - 1) f) /\
    exists st y, FsApi.aresfs_close a x = Some (st, y) /\ s' = set_fs y s) \/
  (exists n, 0 <= a /\ 0 <= n < 16 /\ open_files s n = None /\ (forall k, 0 <= k < n -> is_Some (open_files s k)) /\
    r = Resume (set_rax n f) /\ table_ok (fd_table s') /\ s_fs s' = x /\ out s' = out s /\
    forall j, open_files s' j = if j =? n then Some a else open_files s j).

(** Closing a descriptor never faults. *)
Lemma close_returns (a : Z) (x : FsDisk.fs D) : length (FsDisk.g_fds x) = 16%nat ->
  exists st y, FsApi.aresfs_close a x = Some (st, y) /\ length (FsDisk.g_fds y) = 16%nat.
Proof.
  intros Hl. unfold FsApi.aresfs_close, FsApi.fd_valid. unfold mbind at 1, prog_bind at 1.
  destruct (Z.ltb_spec a 0); cbn [orb]; [by eexists _, _|]. unfold FsDisk.ARESFS_MAX_OPEN_FILES.
  destruct (Z.leb_spec 16 a); cbn [orb]; [by eexists _, _|].
  destruct (arr_get_in (FsDisk.g_fds x) a) as [e He]; [lia|].
  unfold FsApi.get_fd, mbind, prog_bind, gets, need. rewrite He. cbn [fmap option_fmap option_map mret prog_ret].
  unfold mret, prog_ret. destruct (FsDisk.fd_used e); cbn [negb]; [|by eexists _, _].
  unfold FsApi.put_fd, mbind, prog_bind, gets, need, modify. rewrite arr_set_in by lia. cbn.
  eexists _, _. split; [done|]. cbn. by rewrite length_insert.
Qed.

Lemma sys_open_ok f s p a x : table_ok (fd_table s) -> path_from_user (Interrupt.rdi f) s = Some (p, s) ->
  FsApi.aresfs_open p (i32 (Interrupt.rsi f)) (s_fs s) = Some (a, x) -> length (FsDisk.g_fds x) = 16%nat ->
  runs (sys_open f) s (opened f s a x).
Proof.
  intros Ht Hp Ho Hl. unfold sys_open. run. exists p, s. split; [done|]. run. eapply runs_on_fs; [exact Ho|].
  destruct (Z.ltb_spec a 0); [unfold return_int, return_; run; left; by split_and!|].
  run. eapply runs_mono; [by apply fd_alloc_ok|]. intros [n|] s1 Hr.
  - destruct Hr as (-> & Hn & Hfree & Hlow). set (s1 := set_fs x s) in *.
    pose proof (with_slot_ok n (mk_slot n FD_FLAG_USED (-1) 0) s1 Ht Hn eq_refl) as Ht1.
    run. eapply runs_get_slot; [rewrite with_slot_get by done; by rewrite Z.eqb_refl|]. cbn [fd flags pos].
    run. apply runs_put_slot; [done|done|]. unfold return_int, return_. run. right. right. exists n.
    split_and!; try done; try lia.
    + unfold ret_from_int. by rewrite wrap_small by lia.
    + by apply with_slot_ok.
    + intros j. rewrite with_slot_open by done. destruct (Z.eqb_spec j n); [done|]. rewrite with_slot_open by done.
      by rewrite (proj2 (Z.eqb_neq _ _)) by done.
  - destruct Hr as [-> Hall]. destruct (close_returns a x Hl) as (st & y & Hc & _). run. eapply runs_on_fs; [exact Hc|].
    unfold return_int, return_. run. right. left. split_and!; [done|done|done|]. by exists st, y.
Qed.

Lemma sys_close_ok f s : table_ok (fd_table s) -> length (FsDisk.g_fds (s_fs s)) = 16%nat ->
  let n := i32 (Interrupt.rdi f) in
  runs (sys_close f) s (fun r s' =>
    match open_files s n with
    | None => r = Resume (set_rax (2 ^ 64 - 1) f) /\ s' = s
    | Some a => r = Resume (set_rax 0 f) /\ table_ok (fd_table s') /\ out s' = out s /\
        (exists st, FsApi.aresfs_close a (s_fs s) = Some (st, s_fs s')) /\
        forall j, open_files s' j = if j =? n then None else open_files s j
    end).
Proof.
  intros Ht Hl n. unfold sys_close. run. fold n. exists (match open_files s n with Some _ => Some n | None => None end), s.
  split; [by apply from_fd_ok|]. destruct (open_files s n) as [a|] eqn:Eo.
  2:{ unfold return_int, return_. by run. }
  assert (0 <= n < 16) as Hn.
  { unfold open_files in Eo. destruct (arr_get (fd_table s) n) eqn:E; [|done]. apply arr_get_Some in E. rewrite (tb_len _ Ht) in E. lia. }
  destruct (slot_in s n Ht Hn) as (x & Hx & Hfd). run. eapply runs_get_slot; [exact Hx|].
  unfold open_files in Eo. rewrite Hx in Eo. cbn in Eo. destruct (in_use x) eqn:Eu; [|done]. injection Eo as Ea. rewrite Ea.
  destruct (close_returns a (s_fs s) Hl) as (st & y & Hc & _). run. eapply runs_on_fs; [exact Hc|].
  unfold fd_release. run. eapply runs_get_slot; [exact Hx|]. apply runs_put_slot; [done|done|]. unfold return_. run.
  split_and!; [done| |done|by exists st|].
  - by apply (with_slot_ok n _ (set_fs y s)).
  - intros j. by rewrite (with_slot_open n _ (set_fs y s)) by done.
Qed.

End table.
Section transfers.
Context {D : Type} {HD : BlockDevice D}.
Implicit Types (s : sys D) (f : Interrupt.interrupt_frame).

(** Same descriptors; [pos] of a slot may have moved. *)
Definition same_files s s' : Prop := table_ok (fd_table s') /\ out s' = out s /\ forall j, open_files s' j = open_files s j.

Lemma open_slot s n a : table_ok (fd_table s) -> open_files s n = Some a ->
  0 <= n < 16 /\ exists x, arr_get (fd_table s) n = Some x /\ fd x = n /\ in_use x = true /\ aresfs_fd x = a.
Proof.
  intros Ht Ho. unfold open_files in Ho. destruct (arr_get (fd_table s) n) as [x|] eqn:E; [|done]. cbn in Ho.
  destruct (in_use x) eqn:Eu; [|done]. injection Ho as Ha. pose proof (arr_get_Some _ _ _ E) as Hn. rewrite (tb_len _ Ht) in Hn.
  split; [lia|]. exists x. split_and!; [done|by apply (tb_fd _ Ht)|done|done].
Qed.

Lemma add_pos_ok n k s : table_ok (fd_table s) -> is_Some (open_files s n) ->
  runs (add_pos n k) s (fun _ s' => same_files s s' /\ s_fs s' = s_fs s /\ s_kern s' = s_kern s).
Proof.
  intros Ht [a Ho]. destruct (open_slot s n a Ht Ho) as (Hn & x & Hx & Hfd & Hu & _). unfold add_pos.
  destruct (0 <? k); [|by run]. run. eapply runs_get_slot; [exact Hx|]. apply runs_put_slot; [done|done|].
  split_and!; [|done|done]. split_and!; [by apply with_slot_ok|done|]. intros j. rewrite with_slot_open by done.
  destruct (Z.eqb_spec j n) as [->|]; [|done]. unfold open_files. rewrite Hx. cbn. unfold in_use in *. cbn [flags aresfs_fd]. by rewrite Hu.
Qed.

Lemma sys_read_ok f s : table_ok (fd_table s) ->
  let n := i32 (Interrupt.rdi f) in
  match open_files s n with
  | None => sys_read f s = Some (Resume (set_rax (2 ^ 64 - 1) f), s)
  | Some a => forall k bytes x,
      FsApi.aresfs_read a (Interrupt.rsi f =? 0) (Interrupt.rdx f) (s_fs s) = Some (k, bytes, x) ->
      runs (sys_read f) s (fun r s' => r = Resume (set_rax (u64 k) f) /\ same_files s s' /\ s_fs s' = x /\
        memory s' = store_bytes (Interrupt.rsi f) bytes (memory s))
  end.
Proof.
  intros Ht n. pose proof (from_fd_ok n s Ht) as Hf. destruct (open_files s n) as [a|] eqn:Eo.
  2:{ unfold sys_read, mbind, prog_bind. fold n. by rewrite Hf. }
  intros k bytes x Hr. destruct (open_slot s n a Ht Eo) as (Hn & slot & Hx & Hfd & Hu & Ha).
  unfold sys_read. run. fold n. exists (Some n), s. split; [done|]. run. eapply runs_get_slot; [exact Hx|]. rewrite Ha.
  run. eapply runs_on_fs; [exact Hr|]. unfold put_bytes. run.
  set (s1 := set_kern _ _). eapply runs_mono; [apply (add_pos_ok n k s1); [done|by exists a]|].
  intros [] s2 (Hs2 & Hfs2 & Hk2). unfold return_int, return_. run. split_and!; [done|done|by rewrite Hfs2|].
  unfold memory. by rewrite Hk2.
Qed.

Lemma sys_write_ok f s : table_ok (fd_table s) -> Interrupt.rdi f <> 1 -> Interrupt.rdi f <> 2 ->
  let n := i32 (Interrupt.rdi f) in
  match open_files s n with
  | None => sys_write f s = Some (Resume (set_rax (2 ^ 64 - 1) f), s)
  | Some a => forall k x,
      FsApi.aresfs_write a (if Interrupt.rsi f =? 0 then None else Some (mem_bytes (memory s) (Interrupt.rsi f) (Interrupt.rdx f)))
        (s_fs s) = Some (k, x) ->
      runs (sys_write f) s (fun r s' => r = Resume (set_rax (u64 k) f) /\ same_files s s' /\ s_fs s' = x /\ memory s' = memory s)
  end.
Proof.
  intros Ht H1 H2 n. pose proof (from_fd_ok n s Ht) as Hf.
  assert (E12 : (Interrupt.rdi f =? SYSCALL_FD_STDOUT) || (Interrupt.rdi f =? SYSCALL_FD_STDERR) = false).
  { unfold SYSCALL_FD_STDOUT, SYSCALL_FD_STDERR. zcases. }
  destruct (open_files s n) as [a|] eqn:Eo.
  2:{ unfold sys_write. rewrite E12. unfold mbind, prog_bind. fold n. by rewrite Hf. }
  intros k x Hw. destruct (open_slot s n a Ht Eo) as (Hn & slot & Hx & Hfd & Hu & Ha).
  unfold sys_write. rewrite E12. run. fold n. exists (Some n), s. split; [done|]. run. eapply runs_get_slot; [exact Hx|]. rewrite Ha.
  run. eapply runs_on_fs; [exact Hw|]. set (s1 := set_fs _ _). run.
  eapply runs_mono; [apply (add_pos_ok n k s1); [done|by exists a]|]. intros [] s2 (Hs2 & Hfs2 & Hk2).
  unfold return_int, return_. run. split_and!; [done|done|by rewrite Hfs2|]. unfold memory. by rewrite Hk2.
Qed.

(** Writing to descriptor 1 or 2 prints the string at the buffer. *)
Lemma sys_write_std f s str : Interrupt.rdi f = 1 \/ Interrupt.rdi f = 2 ->
  string_at string_max (memory s) (Interrupt.rsi f) ≫= c_string = Some str ->
  runs (sys_write f) s (fun r s' => r = Resume (set_rax (Interrupt.rdx f) f) /\ s' = set_out (out s ++ [Puts str]) s).
Proof.
  intros Hn Hstr. unfold sys_write.
  assert ((Interrupt.rdi f =? SYSCALL_FD_STDOUT) || (Interrupt.rdi f =? SYSCALL_FD_STDERR) = true) as ->
    by (by destruct Hn as [-> | ->]).
  run. eapply runs_need; [exact Hstr|]. unfold print, return_. by run.
Qed.

Section sleep.
Context (hlt : prog (sys D) unit).
Hypothesis hlt_ticks : forall s, timer_ticks s < 2 ^ 64 - 1 ->
  runs hlt s (fun _ s' => timer_ticks s < timer_ticks s' < 2 ^ 64).

Lemma sleep_loop_ok fuel : forall target s, target < 2 ^ 64 -> timer_ticks s < 2 ^ 64 -> (Z.to_nat (target - timer_ticks s) < fuel)%nat ->
  runs (sleep_loop hlt fuel target) s (fun _ s' => target <= timer_ticks s' < 2 ^ 64).
Proof.
  induction fuel as [|fuel IH]; intros target s Ht Hs Hf; [lia|]. cbn [sleep_loop]. run.
  destruct (Z.ltb_spec (timer_ticks s) target); [|run; lia].
  run. eapply runs_mono; [apply hlt_ticks; lia|]. intros [] s' Hs'. apply IH; lia.
Qed.
End sleep.

End transfers.

(** * The calls as a service *)

Section service.
Context {D : Type} {HD : BlockDevice D}.

(** The addresses of the program's path and data buffers. *)
Context (path_addr buf_addr : Z).

Definition frame (n a1 a2 a3 : Z) : Interrupt.interrupt_frame :=
  Interrupt.mk_frame 0 0 0 0 0 0 0 0 0 a1 a2 a3 0 0 n 0x80 0 0 0 0 0 0.

(** [int $0x80] and the conversion of the result to [int]. *)
Definition int80 (n a1 a2 a3 : Z) : prog (sys D) Z :=
  r ← syscall_handler (need None) 0 (frame n (u64 a1) (u64 a2) (u64 a3));
  match r with
  | Resume f => mret (i32 (Interrupt.rax f))
  | Switched _ => need None
  end.

#[export] Instance syscall_files : FileCalls (sys D) := {
  fc_open path flags := _ ← put_bytes path_addr (path ++ [0]); int80 SYS_open path_addr flags 0;
  fc_read n count := k ← int80 SYS_read n buf_addr count; m ← gets memory; mret (k, mem_bytes m buf_addr k);
  fc_write n bytes := _ ← put_bytes buf_addr bytes; int80 SYS_write n buf_addr (Z.of_nat (length bytes));
  fc_close n := _ ← int80 SYS_close n 0 0; mret tt }.

End service.

(** * Properties *)

(** C11: the descriptor table is a map from the program's descriptors to those
    of the file system.  Opening enters the lowest free descriptor for the file
    that was opened; when the file cannot be opened, or no descriptor is free
    (then the file is closed again), the result is -1 and the map is as before.
    Closing removes exactly the descriptor and closes its file.  Reading, and
    writing to any descriptor but 1 and 2, act on the file of the descriptor
    with the program's buffer and pass its result on; a write to 1 or 2 prints
    the string at the buffer and claims the count was written, whatever file
    these descriptors stand for.  A descriptor that is not open gives -1 and
    changes nothing, as does an unknown call number. *)
Theorem syscall_descriptors {D : Type} {HD : BlockDevice D} (hlt : prog (sys D) unit) (ret : Z)
    (f : Interrupt.interrupt_frame) (s : sys D)
    (Htable : table_ok (fd_table s))
    (Hfds : length (FsDisk.g_fds (s_fs s)) = 16%nat) :
  let n := i32 (Interrupt.rdi f) in
  let call := syscall_handler hlt ret f in
  (Interrupt.rax f = SYS_open -> forall p a x, path_from_user (Interrupt.rdi f) s = Some (p, s) ->
    FsApi.aresfs_open p (i32 (Interrupt.rsi f)) (s_fs s) = Some (a, x) -> length (FsDisk.g_fds x) = 16%nat ->
    runs call s (opened f s a x)) /\
  (Interrupt.rax f = SYS_close -> runs call s (fun r s' =>
    match open_files s n with
    | None => r = Resume (set_rax (2 ^ 64 - 1) f) /\ s' = s
    | Some a => r = Resume (set_rax 0 f) /\ table_ok (fd_table s') /\ out s' = out s /\
        (exists st, FsApi.aresfs_close a (s_fs s) = Some (st, s_fs s')) /\
        forall j, open_files s' j = if j =? n then None else open_files s j
    end)) /\
  (Interrupt.rax f = SYS_read ->
    match open_files s n with
    | None => call s = Some (Resume (set_rax (2 ^ 64 - 1) f), s)
    | Some a => forall k bytes x,
        FsApi.aresfs_read a (Interrupt.rsi f =? 0) (Interrupt.rdx f) (s_fs s) = Some (k, bytes, x) ->
        runs call s (fun r s' => r = Resume (set_rax (u64 k) f) /\ same_files s s' /\ s_fs s' = x /\
          memory s' = store_bytes (Interrupt.rsi f) bytes (memory s))
    end) /\
  (Interrupt.rax f = SYS_write -> Interrupt.rdi f <> 1 -> Interrupt.rdi f <> 2 ->
    match open_files s n with
    | None => call s = Some (Resume (set_rax (2 ^ 64 - 1) f), s)
    | Some a => forall k x,
        FsApi.aresfs_write a
          (if Interrupt.rsi f =? 0 then None else Some (mem_bytes (memory s) (Interrupt.rsi f) (Interrupt.rdx f))) (s_fs s) = Some (k, x) ->
        runs call s (fun r s' => r = Resume (set_rax (u64 k) f) /\ same_files s s' /\ s_fs s' = x /\ memory s' = memory s)
    end) /\
  (Interrupt.rax f = SYS_write -> Interrupt.rdi f = 1 \/ Interrupt.rdi f = 2 ->
    forall str, string_at string_max (memory s) (Interrupt.rsi f) ≫= c_string = Some str ->
    runs call s (fun r s' => r = Resume (set_rax (Interrupt.rdx f) f) /\ s' = set_out (out s ++ [Puts str]) s)) /\
  (~ 0 <= Interrupt.rax f <= 11 -> call s = Some (Resume (set_rax (2 ^ 64 - 1) f), s)).
Proof.
  cbv zeta. unfold syscall_handler. split_and!.
  - intros -> p a x Hp Ho Hl. by eapply sys_open_ok.
  - intros ->. by apply sys_close_ok.
  - intros ->. by apply sys_read_ok.
  - intros -> H1 H2. by apply sys_write_ok.
  - intros -> Hstd str Hstr. by apply sys_write_std.
  - intros Hn. unfold SYS_getpid, SYS_exit, SYS_write, SYS_open, SYS_close, SYS_read, SYS_sleep, SYS_ps, SYS_gettime, SYS_mkdir,
      SYS_listdir, SYS_stat. rewrite !(proj2 (Z.eqb_neq (Interrupt.rax f) _)) by lia. done.
Qed.

Import RamDisk.

(** A machine after boot with a RAM disk. *)
Definition boot_table : list syscall_fd := free_slot <$> seqZ 0 16.
Definition boot_sys (x : FsDisk.fs RamDisk.ram_disk) : sys RamDisk.ram_disk :=
  mk_sys boot_table x (Process.boot_kern false 0) 0 [].

Lemma boot_table_ok : table_ok boot_table.
Proof.
  constructor; [done|]. intros i x Hx. pose proof (arr_get_Some _ _ _ Hx) as Hi. change (Z.of_nat (length boot_table)) with 16 in Hi. unfold arr_get in Hx.
  rewrite (proj2 (Z.leb_le _ _)) in Hx by lia. unfold boot_table in Hx. rewrite list_lookup_fmap, lookup_seqZ_lt in Hx by lia.
  injection Hx as <-. cbn. lia.
Qed.

(** A file behind descriptor 1 or 2 cannot be written.  With one file open
    (descriptor 0), the next file that is opened gets descriptor 1; a write to
    it is reported as complete, but the string at the buffer is printed up to
    its terminator, whatever the count, and neither the file system nor the
    table changes. *)
Theorem second_file_unwritable {D : Type} {HD : BlockDevice D} (hlt : prog (sys D) unit) (ret : Z)
    (f : Interrupt.interrupt_frame) (s : sys D) (p : option (list Z)) (a : Z) (x : FsDisk.fs D)
    (Htable : table_ok (fd_table s))
    (Hzero : is_Some (open_files s 0))
    (Hone : open_files s 1 = None)
    (Hcall : Interrupt.rax f = SYS_open)
    (Hpath : path_from_user (Interrupt.rdi f) s = Some (p, s))
    (Hopen : FsApi.aresfs_open p (i32 (Interrupt.rsi f)) (s_fs s) = Some (a, x))
    (Ha : 0 <= a)
    (Hfds : length (FsDisk.g_fds x) = 16%nat) :
  runs (syscall_handler hlt ret f) s (fun r s' => r = Resume (set_rax 1 f) /\ open_files s' 1 = Some a /\
    forall buf count str, string_at string_max (memory s') buf ≫= c_string = Some str ->
      runs (syscall_handler hlt ret (frame SYS_write 1 buf count)) s' (fun r2 s2 =>
        r2 = Resume (set_rax count (frame SYS_write 1 buf count)) /\ s2 = set_out (out s' ++ [Puts str]) s')).
Proof.
  assert (runs (syscall_handler hlt ret f) s (opened f s a x)) as Hrun.
  { unfold syscall_handler. rewrite Hcall. by eapply sys_open_ok. }
  eapply runs_mono; [exact Hrun|]. intros r s' [(? & _)|[(_ & Hall & _)|(n & _ & Hn & Hfree & Hlow & -> & _ & _ & _ & Hopen')]]; [lia| |].
  { destruct (Hall 1) as [b Hb]; [lia|]. congruence. }
  assert (n = 1) as ->.
  { destruct (Z.lt_trichotomy n 1) as [Hlt|[->|Hgt]]; [|done|].
    - assert (n = 0) as -> by lia. rewrite Hfree in Hzero. by destruct Hzero.
    - destruct (Hlow 1) as [b Hb]; [lia|]. congruence. }
  split_and!; [done|by rewrite Hopen'|]. intros buf count str Hstr. by apply sys_write_std; [left|].
Qed.

(** The file system after a format, with "/a" open as the file behind
    descriptor 0, and a path "/b" and the text "xyz" in memory. *)
Definition one_open : sys RamDisk.ram_disk :=
  let fs1 := match (_ ← FsApi.fs_init; FsApi.aresfs_open (Some (text "/a" ++ [0])) 0x41) FsApi.ram_boot with
             | Some (_, x) => x
             | None => FsApi.ram_boot
             end in
  let k := Process.boot_kern false 0 in
  let m := store_bytes 0x1000 (text "/b" ++ [0]) (store_bytes 0x2000 (text "xyz" ++ [0]) (Process.k_mem k)) in
  mk_sys (<[0%nat := mk_slot 0 1 0 0]> boot_table) fs1 (Process.set_mem m k) 0 [].

Lemma one_open_ok : table_ok (fd_table one_open).
Proof. exact (with_slot_ok 0 (mk_slot 0 1 0 0) (boot_sys FsApi.ram_boot) boot_table_ok ltac:(lia) eq_refl). Qed.

Definition open_b : option (Z * FsDisk.fs RamDisk.ram_disk) := FsApi.aresfs_open (Some (text "/b" ++ [0])) 0x41 (s_fs one_open).
Definition after_b : FsDisk.fs RamDisk.ram_disk := match open_b with Some (_, x) => x | None => FsApi.ram_boot end.

Lemma open_b_ok : open_b = Some (1, after_b) /\ length (FsDisk.g_fds after_b) = 16%nat.
Proof.
  assert (match open_b with Some (a, x) => a = 1 /\ length (FsDisk.g_fds x) = 16%nat | None => False end) as H
    by (vm_compute; split; reflexivity).
  unfold after_b. destruct open_b as [[a x]|]; [|done]. by destruct H as [-> ?].
Qed.

Definition write_a : option (Z * FsDisk.fs RamDisk.ram_disk) :=
  FsApi.aresfs_write 0 (Some (mem_bytes (memory one_open) 0x2000 3)) (s_fs one_open).
Definition after_write : FsDisk.fs RamDisk.ram_disk := match write_a with Some (_, x) => x | None => FsApi.ram_boot end.

Lemma write_a_ok : write_a = Some (3, after_write).
Proof.
  assert (match write_a with Some (k, _) => k = 3 | None => False end) as H by (vm_compute; reflexivity).
  unfold after_write. destruct write_a as [[k x]|]; [by subst|done].
Qed.

(** With "/a" open as descriptor 0: "/b" is opened as descriptor 1, three bytes
    are written to "/a", "/a" is closed, a write to descriptor 2 prints, a read
    of a descriptor that is not open and an unknown call are refused. *)
Lemma syscall_descriptors_witness :
  (exists s', syscall_handler (mret tt) 0 (frame SYS_open 0x1000 0x41 0) one_open =
     Some (Resume (set_rax 1 (frame SYS_open 0x1000 0x41 0)), s') /\ open_files s' 1 = Some 1 /\ s_fs s' = after_b) /\
  runs (syscall_handler (mret tt) 0 (frame SYS_write 0 0x2000 3)) one_open (fun r s' =>
    r = Resume (set_rax 3 (frame SYS_write 0 0x2000 3)) /\ s_fs s' = after_write /\ open_files s' 0 = Some 0) /\
  runs (syscall_handler (mret tt) 0 (frame SYS_close 0 0 0)) one_open (fun r s' =>
    r = Resume (set_rax 0 (frame SYS_close 0 0 0)) /\ open_files s' 0 = None) /\
  runs (syscall_handler (mret tt) 0 (frame SYS_write 2 0x2000 3)) one_open (fun _ s' => out s' = [Puts (text "xyz")]) /\
  syscall_handler (mret tt) 0 (frame SYS_read 5 0x2000 3) one_open = Some (Resume (set_rax (2 ^ 64 - 1) (frame SYS_read 5 0x2000 3)), one_open) /\
  syscall_handler (mret tt) 0 (frame 99 3 0 0) one_open = Some (Resume (set_rax (2 ^ 64 - 1) (frame 99 3 0 0)), one_open).
Proof.
  pose proof (fun f => syscall_descriptors (mret tt) 0 f one_open one_open_ok eq_refl) as Hall. cbv zeta in Hall. split_and!.
  - destruct (Hall (frame SYS_open 0x1000 0x41 0)) as (Ho & _).
    destruct (Ho eq_refl (Some (text "/b" ++ [0])) 1 after_b eq_refl (proj1 open_b_ok) (proj2 open_b_ok)) as (r & s' & Hrun & Hs).
    destruct Hs as [(Hneg & _)|[(_ & Hfull & _)|(n & _ & Hn & Hfree & Hlow & -> & _ & Hx & _ & Hj)]].
    + lia.
    + destruct (Hfull 1) as [y Hy]; [lia|]. discriminate Hy.
    + assert (n = 1) as ->.
      { destruct (Z.lt_trichotomy n 1) as [Hlt|[->|Hgt]]; [|reflexivity|].
        - assert (n = 0) as -> by lia. discriminate Hfree.
        - destruct (Hlow 1) as [y Hy]; [lia|]. discriminate Hy. }
      exists s'. split; [exact Hrun|]. split; [exact (Hj 1)|exact Hx].
  - destruct (Hall (frame SYS_write 0 0x2000 3)) as (_ & _ & _ & Hw & _).
    eapply runs_mono; [exact (Hw eq_refl ltac:(done) ltac:(done) 3 after_write write_a_ok)|].
    intros r s' (-> & (_ & _ & Hf) & Hx & _). split; [reflexivity|]. split; [exact Hx|]. rewrite Hf. reflexivity.
  - destruct (Hall (frame SYS_close 0 0 0)) as (_ & Hc & _). eapply runs_mono; [exact (Hc eq_refl)|].
    intros r s' (-> & _ & _ & _ & Hf). split; [reflexivity|]. exact (Hf 0).
  - destruct (Hall (frame SYS_write 2 0x2000 3)) as (_ & _ & _ & _ & Hw & _).
    eapply runs_mono; [exact (Hw eq_refl (or_intror eq_refl) (text "xyz") eq_refl)|]. intros r s' (_ & ->). reflexivity.
  - destruct (Hall (frame SYS_read 5 0x2000 3)) as (_ & _ & Hr & _). exact (Hr eq_refl).
  - apply (Hall (frame 99 3 0 0)). cbn. lia.
Defined.

Lemma second_file_unwritable_witness :
  runs (syscall_handler (mret tt) 0 (frame SYS_open 0x1000 0x41 0)) one_open (fun r s' =>
    r = Resume (set_rax 1 (frame SYS_open 0x1000 0x41 0)) /\ open_files s' 1 = Some 1 /\
    forall buf count str, string_at string_max (memory s') buf ≫= c_string = Some str ->
      runs (syscall_handler (mret tt) 0 (frame SYS_write 1 buf count)) s' (fun r2 s2 =>
        r2 = Resume (set_rax count (frame SYS_write 1 buf count)) /\ s2 = set_out (out s' ++ [Puts str]) s')).
Proof.
  apply (second_file_unwritable (mret tt) 0 (frame SYS_open 0x1000 0x41 0) one_open (Some (text "/b" ++ [0])) 1 after_b).
  - exact one_open_ok.
  - exists 0. reflexivity.
  - reflexivity.
  - reflexivity.
  - reflexivity.
  - exact (proj1 open_b_ok).
  - lia.
  - exact (proj2 open_b_ok).
Defined.

(** C35: when every wait of the processor is ended by a timer tick, a sleep of
    [n] ticks returns, not before the tick counter has advanced by [n]; a sleep
    whose end lies beyond the range of the 64-bit counter returns at once. *)
Theorem sys_sleep_waits {D : Type} {HD : BlockDevice D} (hlt : prog (sys D) unit) (ret : Z)
    (f : Interrupt.interrupt_frame) (s : sys D)
    (Hhlt : forall t, timer_ticks t < 2 ^ 64 - 1 -> runs hlt t (fun _ t' => timer_ticks t < timer_ticks t' < 2 ^ 64))
    (Hticks : 0 <= timer_ticks s < 2 ^ 64)
    (Hcall : Interrupt.rax f = SYS_sleep)
    (Hrdi : 0 <= Interrupt.rdi f < 2 ^ 64) :
  runs (syscall_handler hlt ret f) s (fun r s' => r = Resume (set_rax 0 f) /\
    if timer_ticks s + Interrupt.rdi f <? 2 ^ 64 then timer_ticks s + Interrupt.rdi f <= timer_ticks s' else s' = s).
Proof.
  unfold syscall_handler. rewrite Hcall. change (runs (sys_sleep hlt f) s (fun r s' => r = Resume (set_rax 0 f) /\
    if timer_ticks s + Interrupt.rdi f <? 2 ^ 64 then timer_ticks s + Interrupt.rdi f <= timer_ticks s' else s' = s)).
  unfold sys_sleep. run. set (target := u64 (timer_ticks s + Interrupt.rdi f)).
  assert (0 <= target < 2 ^ 64) as Htarget by (apply wrap_range; lia).
  destruct (Z.ltb_spec (timer_ticks s + Interrupt.rdi f) (2 ^ 64)).
  - eapply runs_mono; [apply sleep_loop_ok; [done|lia|lia|lia]|]. intros [] s' Hs'. unfold return_. run. split; [done|].
    unfold target in Hs'. rewrite wrap_small in Hs' by lia. lia.
  - assert (target < timer_ticks s) as Hlt.
    { unfold target, wrap. replace (timer_ticks s + Interrupt.rdi f) with (timer_ticks s + Interrupt.rdi f - 2 ^ 64 + 1 * 2 ^ 64) by lia.
      rewrite Z.mod_add, Z.mod_small; lia. }
    cbn [sleep_loop]. run. rewrite (proj2 (Z.ltb_ge _ _)) by lia. unfold return_. by run.
Qed.

Lemma sys_sleep_waits_witness :
  let f := frame SYS_sleep 5 0 0 in
  let s := boot_sys FsApi.ram_boot in
  runs (syscall_handler (modify (fun t => set_ticks (timer_ticks t + 1) t)) 0 f) s (fun r s' => r = Resume (set_rax 0 f) /\
    if timer_ticks s + Interrupt.rdi f <? 2 ^ 64 then timer_ticks s + Interrupt.rdi f <= timer_ticks s' else s' = s).
Proof.
  apply (sys_sleep_waits (modify (fun t => set_ticks (timer_ticks t + 1) t))).
  - intros t Ht. eexists tt, _. split; [reflexivity|]. cbn. lia.
  - cbn. lia.
  - reflexivity.
  - cbn. lia.
Defined.


End Syscall.
