(* ===== verification/Rtc.v ===== *)
(** The real-time clock (src/drivers/rtc.c, rtc.h) behind the CMOS ports 0x70
    and 0x71. *)
From stdpp Require Import strings.
From S2P Require Import Prelude Interfaces Ports Console.
#[local] Open Scope Z_scope.

(** The clock chip: [cmos_reg] is the contents of a register.  Writing an index
    to port 0x70 selects it for the next read of port 0x71; port 0x80 is the
    delay port; none of these accesses changes a register while the clock does
    not tick. *)
Class CmosClock (H : Type) `{PortIO H} := {
  cmos_reg : H -> Z -> Z;
  cmos_index : H -> Z;
  cmos_select h v : 0 <= v < 128 -> cmos_index (port_outb 0x70 v h) = v;
  cmos_select_keeps h v r : 0 <= v < 128 -> cmos_reg (port_outb 0x70 v h) r = cmos_reg h r;
  cmos_delay h r : cmos_index (port_inb 0x80 h).2 = cmos_index h /\ cmos_reg (port_inb 0x80 h).2 r = cmos_reg h r;
  cmos_data h r : u8 (port_inb 0x71 h).1 = cmos_reg h (cmos_index h) /\ cmos_reg (port_inb 0x71 h).2 r = cmos_reg h r }.

Module Rtc.
Import Console Ports.

Definition CMOS_SECONDS := 0x00.
Definition CMOS_MINUTES := 0x02.
Definition CMOS_HOURS := 0x04.
Definition CMOS_DAY := 0x07.
Definition CMOS_MONTH := 0x08.
Definition CMOS_YEAR := 0x09.
Definition CMOS_STATUS_B := 0x0B.
Definition CMOS_NMI_ENABLE := 0x00.

Definition bcd_to_bin (bcd : Z) : Z := u8 (Z.land (Z.shiftr bcd 4) 0x0F * 10 + Z.land bcd 0x0F).

(** The template [rtc_format_time] copies first. *)
Definition template : list Z := text "20  /  /     : : ".

(** The copy loop from [buf[i]]. *)
Fixpoint copy_template (src buf : list Z) (i remain : Z) : option (list Z) :=
  match src with
  | c :: src =>
      if 1 <? remain then buf ← arr_set buf i c; copy_template src buf (i + 1) (remain - 1) else Some buf
  | [] => Some buf
  end.

(** [buf[i..] = cs]. *)
Fixpoint put_chars (cs buf : list Z) (i : Z) : option (list Z) :=
  match cs with
  | c :: cs => buf ← arr_set buf i c; put_chars cs buf (i + 1)
  | [] => Some buf
  end.

(** The two digits of a byte. *)
Definition digits2 (v : Z) : list Z := [u8 (48 + v / 10); u8 (48 + v mod 10)].

Lemma digits2_small v : 0 <= v < 100 -> digits2 v = [48 + v / 10; 48 + v mod 10].
Proof.
  intros Hv. unfold digits2. do 2 f_equal; [|f_equal]; apply wrap_small; Z.div_mod_to_equations; lia.
Qed.

Section rtc.
Context {H : Type} {HP : PortIO H}.

Abbreviation io := (prog (H * unit)).

Definition cmos_read (reg : Z) : io Z :=
  _ ← outb 0x70 reg;
  _ ← inb 0x80;
  inb 0x71.

Definition rtc_init : io unit :=
  _ ← cmos_read CMOS_STATUS_B;
  outb 0x70 CMOS_NMI_ENABLE.

(** The functions that read one register. *)
Definition read_bcd (reg : Z) : io Z :=
  val ← cmos_read reg;
  _ ← outb 0x70 CMOS_NMI_ENABLE;
  mret (bcd_to_bin val).

Definition rtc_read_second : io Z := read_bcd CMOS_SECONDS.
Definition rtc_read_minute : io Z := read_bcd CMOS_MINUTES.
Definition rtc_read_day : io Z := read_bcd CMOS_DAY.
Definition rtc_read_month : io Z := read_bcd CMOS_MONTH.
Definition rtc_read_year : io Z := read_bcd CMOS_YEAR.

Definition rtc_read_hour : io Z :=
  val ← cmos_read CMOS_HOURS;
  _ ← outb 0x70 CMOS_NMI_ENABLE;
  status_b ← cmos_read CMOS_STATUS_B;
  _ ← outb 0x70 CMOS_NMI_ENABLE;
  let hour := bcd_to_bin val in
  mret (if Z.land status_b 0x02 =? 0 then
          if negb (Z.land val 0x80 =? 0) then u8 (Z.land hour 0x7F + 12) else hour
        else hour).

Definition rtc_format_time (buf : list Z) (max_len : Z) : io (list Z) :=
  hh ← rtc_read_hour;
  mm ← rtc_read_minute;
  ss ← rtc_read_second;
  dd ← rtc_read_day;
  mo ← rtc_read_month;
  yy ← rtc_read_year;
  buf ← need (copy_template template buf 0 (if 0 <? max_len then max_len else 1));
  if 24 <=? max_len then
    need (put_chars (text "20" ++ digits2 yy ++ text "-" ++ digits2 mo ++ text "-" ++ digits2 dd ++ text " " ++
                     digits2 hh ++ text ":" ++ digits2 mm ++ text ":" ++ digits2 ss ++ [0]) buf 0)
  else if 0 <? max_len then need (arr_set buf 0 0)
  else mret buf.

End rtc.

(** * The clock read *)

(** The packed decimal form of a number below 100. *)
Definition bcd (v : Z) : Z := v / 10 * 16 + v mod 10.

Lemma bcd_roundtrip v : 0 <= v < 100 -> bcd_to_bin (bcd v) = v.
Proof.
  intros Hv. assert (Forall (fun v => bcd_to_bin (bcd v) = v) (seqZ 0 100)) as Hall.
  { apply (bool_decide_unpack _). vm_compute. exact I. }
  rewrite Forall_forall in Hall. apply Hall, elem_of_seqZ. lia.
Qed.

(** In twelve-hour mode the afternoon flag is bit 7 of the register. *)
Lemma bcd_afternoon v : 1 <= v <= 12 -> bcd_to_bin (bcd v + 128) = v + 80.
Proof.
  intros Hv. assert (Forall (fun v => bcd_to_bin (bcd v + 128) = v + 80) (seqZ 1 12)) as Hall.
  { apply (bool_decide_unpack _). vm_compute. exact I. }
  rewrite Forall_forall in Hall. apply Hall, elem_of_seqZ. lia.
Qed.

Section reading.
Context {H : Type} {HP : PortIO H} {HC : CmosClock H}.
Implicit Types (h : H).

(** The registers did not change. *)
Definition same_clock h h' : Prop := forall r, cmos_reg h' r = cmos_reg h r.

Lemma same_clock_trans h1 h2 h3 : same_clock h1 h2 -> same_clock h2 h3 -> same_clock h1 h3.
Proof. intros H1 H2 r. by rewrite H2, H1. Qed.

Lemma cmos_read_ok reg h u (Q : Z -> H * unit -> Prop) : 0 <= reg < 128 ->
  (forall h', same_clock h h' -> Q (cmos_reg h reg) (h', u)) -> runs (cmos_read reg) (h, u) Q.
Proof.
  intros Hr HQ. unfold cmos_read. apply runs_bind, runs_outb.
  change (u16 0x70) with 0x70. replace (u8 reg) with reg by (symmetry; apply wrap_small; lia).
  set (h1 := port_outb 0x70 reg h). apply runs_bind, runs_inb. intros v h2 E2. change (u16 0x80) with 0x80 in E2.
  apply runs_inb. intros w h3 E3. change (u16 0x71) with 0x71 in E3.
  pose proof (cmos_data h2) as Hd. rewrite E3 in Hd. cbn [fst snd] in Hd.
  pose proof (cmos_delay h1) as Hdl. rewrite E2 in Hdl. cbn [fst snd] in Hdl.
  rewrite (proj1 (Hd 0)), (proj1 (Hdl 0)), (proj2 (Hdl _)). unfold h1 at 1 2. rewrite cmos_select, cmos_select_keeps by done.
  apply HQ. intros r. rewrite (proj2 (Hd r)), (proj2 (Hdl r)). unfold h1. by apply cmos_select_keeps.
Qed.

Lemma nmi_ok h u (Q : unit -> H * unit -> Prop) :
  (forall h', same_clock h h' -> Q tt (h', u)) -> runs (outb 0x70 CMOS_NMI_ENABLE) (h, u) Q.
Proof. intros HQ. apply runs_outb, HQ. intros r. by apply cmos_select_keeps. Qed.

Lemma read_bcd_ok reg h u (Q : Z -> H * unit -> Prop) : 0 <= reg < 128 ->
  (forall h', same_clock h h' -> Q (bcd_to_bin (cmos_reg h reg)) (h', u)) -> runs (read_bcd reg) (h, u) Q.
Proof.
  intros Hr HQ. unfold read_bcd. apply runs_bind, cmos_read_ok; [done|]. intros h1 H1. apply runs_bind, nmi_ok. intros h2 H2.
  apply runs_ret, HQ. by eapply same_clock_trans.
Qed.

(** The hour that [rtc_read_hour] computes from the registers. *)
Definition hour_of (val status_b : Z) : Z :=
  let hour := bcd_to_bin val in
  if Z.land status_b 0x02 =? 0 then if negb (Z.land val 0x80 =? 0) then u8 (Z.land hour 0x7F + 12) else hour else hour.

Lemma rtc_read_hour_ok h u (Q : Z -> H * unit -> Prop) :
  (forall h', same_clock h h' -> Q (hour_of (cmos_reg h CMOS_HOURS) (cmos_reg h CMOS_STATUS_B)) (h', u)) ->
  runs rtc_read_hour (h, u) Q.
Proof.
  intros HQ. unfold rtc_read_hour. apply runs_bind, cmos_read_ok; [done|]. intros h1 H1. apply runs_bind, nmi_ok. intros h2 H2.
  apply runs_bind, cmos_read_ok; [done|]. intros h3 H3. apply runs_bind, nmi_ok. intros h4 H4.
  pose proof (same_clock_trans _ _ _ H1 H2) as H12. rewrite H12. apply runs_ret, HQ.
  eapply same_clock_trans; [exact H12|]. by eapply same_clock_trans.
Qed.

Lemma copy_template_ok src : forall buf i remain, 0 <= i -> 1 <= remain -> i + remain <= Z.of_nat (length buf) + 1 ->
  exists buf', copy_template src buf i remain = Some buf' /\ length buf' = length buf.
Proof.
  induction src as [|c src IH]; intros buf i remain Hi Hr Hl; cbn [copy_template]; [by eexists|].
  destruct (Z.ltb_spec 1 remain); [|by eexists]. rewrite arr_set_in by lia. cbn [mbind option_bind].
  destruct (IH (<[Z.to_nat i := c]> buf) (i + 1) (remain - 1)) as (b & -> & Hb); [lia|lia|rewrite length_insert; lia|].
  rewrite length_insert in Hb. eauto.
Qed.

Lemma put_chars_ok cs : forall pre rest, (length cs <= length rest)%nat ->
  put_chars cs (pre ++ rest) (Z.of_nat (length pre)) = Some (pre ++ cs ++ drop (length cs) rest).
Proof.
  induction cs as [|c cs IH]; intros pre rest Hl; cbn [put_chars length]; [by rewrite drop_0|].
  destruct rest as [|x rest]; [cbn in Hl; lia|]. rewrite arr_set_app. cbn [mbind option_bind].
  specialize (IH (pre ++ [c]) rest ltac:(cbn in Hl; lia)). rewrite length_app, <- !app_assoc in IH. cbn [app length] in IH.
  rewrite Nat2Z.inj_add in IH. exact IH.
Qed.

(** The twenty characters of a date and time. *)
Definition stamp (yy mo dd hh mm ss : Z) : list Z :=
  text "20" ++ digits2 yy ++ text "-" ++ digits2 mo ++ text "-" ++ digits2 dd ++ text " " ++
  digits2 hh ++ text ":" ++ digits2 mm ++ text ":" ++ digits2 ss ++ [0].

Lemma rtc_format_ok buf max_len h u : 0 <= max_len <= Z.of_nat (length buf) ->
  let reg r := bcd_to_bin (cmos_reg h r) in
  let hh := hour_of (cmos_reg h CMOS_HOURS) (cmos_reg h CMOS_STATUS_B) in
  runs (rtc_format_time buf max_len) (h, u) (fun b s => length b = length buf /\ same_clock h s.1 /\
    (24 <= max_len -> exists rest,
      b = stamp (reg CMOS_YEAR) (reg CMOS_MONTH) (reg CMOS_DAY) hh (reg CMOS_MINUTES) (reg CMOS_SECONDS) ++ rest) /\
    (0 < max_len < 24 -> arr_get b 0 = Some 0) /\ (max_len = 0 -> b = buf)).
Proof.
  intros Hl reg hh. unfold rtc_format_time.
  apply runs_bind, rtc_read_hour_ok. intros h1 H1. apply runs_bind, read_bcd_ok; [done|]. intros h2 H2.
  apply runs_bind, read_bcd_ok; [done|]. intros h3 H3. apply runs_bind, read_bcd_ok; [done|]. intros h4 H4.
  apply runs_bind, read_bcd_ok; [done|]. intros h5 H5. apply runs_bind, read_bcd_ok; [done|]. intros h6 H6.
  pose proof (same_clock_trans _ _ _ H1 H2) as E2. pose proof (same_clock_trans _ _ _ E2 H3) as E3.
  pose proof (same_clock_trans _ _ _ E3 H4) as E4. pose proof (same_clock_trans _ _ _ E4 H5) as E5.
  pose proof (same_clock_trans _ _ _ E5 H6) as E6. rewrite H1, E2, E3, E4, E5. fold (reg CMOS_MINUTES) (reg CMOS_SECONDS) (reg CMOS_DAY) (reg CMOS_MONTH) (reg CMOS_YEAR). fold hh.
  destruct (copy_template_ok template buf 0 (if 0 <? max_len then max_len else 1)) as (b & Hb & Hlb);
    [lia|destruct (Z.ltb_spec 0 max_len); lia|destruct (Z.ltb_spec 0 max_len); lia|].
  apply runs_bind. eapply runs_need; [exact Hb|].
  destruct (Z.leb_spec 24 max_len).
  - eapply runs_need; [apply (put_chars_ok (stamp _ _ _ _ _ _) [] b); unfold stamp; cbn; lia|]. cbn [app].
    split_and!; [|done| |lia|lia].
    + rewrite length_app, length_drop. unfold stamp. cbn [length app text]. rewrite !length_app. cbn. lia.
    + intros _. by eexists.
  - destruct (Z.ltb_spec 0 max_len).
    + eapply runs_need; [apply arr_set_in; lia|]. split_and!; [by rewrite length_insert|done|lia| |lia].
      intros _. rewrite arr_get_insert by lia. done.
    + assert (max_len = 0) as -> by lia. cbn in Hb. injection Hb as <-. run. split_and!; [done|done|lia|lia|done].
Qed.
End reading.

(** A clock in 24-hour BCD mode showing a date and time. *)
Record clock_shows {H} {HP : PortIO H} {HC : CmosClock H} (h : H) (yy mo dd hh mm ss : Z) : Prop := {
  shows_year : 0 <= yy < 100 /\ cmos_reg h CMOS_YEAR = bcd yy;
  shows_month : 1 <= mo <= 12 /\ cmos_reg h CMOS_MONTH = bcd mo;
  shows_day : 1 <= dd <= 31 /\ cmos_reg h CMOS_DAY = bcd dd;
  shows_hour : 0 <= hh < 24 /\ cmos_reg h CMOS_HOURS = bcd hh;
  shows_minute : 0 <= mm < 60 /\ cmos_reg h CMOS_MINUTES = bcd mm;
  shows_second : 0 <= ss < 60 /\ cmos_reg h CMOS_SECONDS = bcd ss;
  shows_24h : Z.testbit (cmos_reg h CMOS_STATUS_B) 1 = true }.

Lemma land_2_testbit v : (Z.land v 2 =? 0) = negb (Z.testbit v 1).
Proof.
  change 2 with (2 ^ 1). destruct (Z.testbit v 1) eqn:E; cbn [negb]; [apply Z.eqb_neq|apply Z.eqb_eq].
  - intros Hz. apply (f_equal (fun x => Z.testbit x 1)) in Hz. rewrite Z.land_spec, E in Hz. by vm_compute in Hz.
  - apply Z.bits_inj'. intros n Hn. rewrite Z.land_spec, Z.bits_0, Z.pow2_bits_eqb by lia.
    destruct (Z.eqb_spec 1 n) as [<-|]; [by rewrite E|]. by rewrite andb_false_r.
Qed.

Lemma hour_24h val b : Z.testbit b 1 = true -> hour_of val b = bcd_to_bin val.
Proof. intros E. unfold hour_of. by rewrite land_2_testbit, E. Qed.

(** In twelve-hour mode an afternoon hour is decoded with its flag: one o'clock
    in the afternoon reads as 93. *)
Lemma hour_afternoon h12 b : Z.testbit b 1 = false -> 1 <= h12 <= 12 -> hour_of (bcd h12 + 128) b = h12 + 92.
Proof.
  intros E Hh. unfold hour_of. rewrite land_2_testbit, E, bcd_afternoon by done. cbn [negb].
  assert (Forall (fun v => negb (Z.land (bcd v + 128) 128 =? 0) = true /\ u8 (Z.land (v + 80) 127 + 12) = v + 92) (seqZ 1 12)) as Hall.
  { apply (bool_decide_unpack _). vm_compute. exact I. }
  rewrite Forall_forall in Hall. destruct (Hall h12) as [-> ->]; [|done]. apply elem_of_seqZ. lia.
Qed.

(** Whatever the hardware answers, the buffer is not left and holds a string. *)
Lemma rtc_format_total {H} {HP : PortIO H} (h : H) buf : length buf = 32%nat ->
  runs (rtc_format_time buf 32) (h, tt) (fun b _ => 0 ∈ b).
Proof.
  intros Hl. assert (forall reg s (Q : Z -> H * unit -> Prop), (forall v s', Q v s') -> runs (read_bcd reg) s Q) as Hr.
  { intros reg s Q HQ. eexists _, _. split; [reflexivity|apply HQ]. }
  assert (forall reg s (Q : Z -> H * unit -> Prop), (forall v s', Q v s') -> runs (cmos_read reg) s Q) as Hc.
  { intros reg s Q HQ. eexists _, _. split; [reflexivity|apply HQ]. }
  unfold rtc_format_time, rtc_read_hour. apply runs_bind. do 2 (apply runs_bind, Hc; intros ? [? ?]; apply runs_bind, runs_outb).
  apply runs_ret. do 5 (apply runs_bind, Hr; intros ? ?). apply runs_bind.
  destruct (copy_template_ok template buf 0 32) as (b & Hb & Hlb); [lia|lia|lia|].
  eapply runs_need; [exact Hb|]. change (24 <=? 32) with true. cbv iota.
  eapply runs_need; [apply (put_chars_ok (stamp _ _ _ _ _ _) [] b); unfold stamp; cbn; lia|].
  cbn [app]. unfold stamp. rewrite !elem_of_app, list_elem_of_singleton. tauto.
Qed.

(** * Properties *)

(** With a clock in 24-hour BCD mode [rtc_format_time] never leaves a buffer of
    at least [max_len] bytes and changes no clock register; given 24 bytes or
    more the buffer starts with the date and time the clock shows as
    20YY-MM-DD HH:MM:SS and a NUL, given fewer it holds an empty string, given
    none it is untouched. *)
Theorem rtc_shows_time {H} {HP : PortIO H} {HC : CmosClock H} (h : H) yy mo dd hh mm ss buf max_len :
  clock_shows h yy mo dd hh mm ss -> 0 <= max_len <= Z.of_nat (length buf) ->
  runs (rtc_format_time buf max_len) (h, tt) (fun b s =>
    length b = length buf /\ same_clock h s.1 /\
    (24 <= max_len -> take 20 b =
      text "20" ++ [48 + yy / 10; 48 + yy mod 10] ++ text "-" ++ [48 + mo / 10; 48 + mo mod 10] ++ text "-" ++
      [48 + dd / 10; 48 + dd mod 10] ++ text " " ++ [48 + hh / 10; 48 + hh mod 10] ++ text ":" ++
      [48 + mm / 10; 48 + mm mod 10] ++ text ":" ++ [48 + ss / 10; 48 + ss mod 10] ++ [0]) /\
    (0 < max_len < 24 -> arr_get b 0 = Some 0) /\ (max_len = 0 -> b = buf)).
Proof.
  intros [[Ry Ey] [Rmo Emo] [Rd Ed] [Rh Eh] [Rm Em] [Rs Es] Hb] Hl.
  eapply runs_mono; [by apply (rtc_format_ok buf max_len h tt)|]. intros b s (Hlb & Hc & Hlong & Hshort & Hnone).
  split_and!; [done|done| |done|done]. intros Hm. destruct (Hlong Hm) as [rest ->].
  rewrite hour_24h, Ey, Emo, Ed, Eh, Em, Es, !bcd_roundtrip by (done || lia). unfold stamp. rewrite !digits2_small by lia. done.
Qed.

(** A clock that stands still: its registers and the selected index. *)
Module DemoClock.
Definition regs (r : Z) : Z :=
  default 0 ((list_to_map [(CMOS_SECONDS, 0x59); (CMOS_MINUTES, 0x07); (CMOS_HOURS, 0x23); (CMOS_DAY, 0x31);
    (CMOS_MONTH, 0x12); (CMOS_YEAR, 0x25); (CMOS_STATUS_B, 0x02)] : gmap Z Z) !! r).

#[export] Instance demo_cmos : PortIO Z := {
  port_inb p h := (if p =? 0x71 then regs h else 0, h);
  port_outb p v h := if p =? 0x70 then v else h;
  port_inw p h := (0, h);
  port_outw p v h := h }.

Lemma regs_u8 r : u8 (regs r) = regs r.
Proof.
  unfold regs. destruct (list_to_map _ !! r) as [v|] eqn:E; [|done]. cbn [default].
  apply elem_of_list_to_map_2 in E. repeat (apply elem_of_cons in E as [[= -> ->]|E]; [done|]). by apply elem_of_nil in E.
Qed.

#[export] Program Instance demo_clock : CmosClock Z := { cmos_reg _ r := regs r; cmos_index h := h }.
Next Obligation. done. Qed.
Next Obligation. done. Qed.
Next Obligation. done. Qed.
Next Obligation. split; [apply regs_u8|done]. Qed.
End DemoClock.
Import DemoClock.

Lemma rtc_shows_time_witness :
  runs (rtc_format_time (replicate 32 170) 32) (0, tt) (fun b s => take 20 b = text "2025-12-31 23:07:59" ++ [0]).
Proof.
  eapply runs_mono; [apply (rtc_shows_time (HC := demo_clock) 0 25 12 31 23 7 59)|].
  - split; try (split; [lia|]); reflexivity.
  - cbn. lia.
  - intros b s (_ & _ & Hs & _). apply Hs. lia.
Defined.

End Rtc.
