(* ===== verification/Observe.v ===== *)
(** Kernel log, system metrics and the process monitor
    (src/observability/observability.c, observability.h). *)
From stdpp Require Import strings.
From S2P Require Import Prelude Interfaces Mem Bytes Pmm Heap Pcb Queue Sched Process RamDisk FsDisk FsFile FsDir FsApi Ports Keyboard Console Interrupt Syscall.
#[local] Open Scope Z_scope.

Module Observe.
Import Console.

Definition LOG_BUF_SIZE := 4096.

(** The log and the components the metrics are read from. *)
Record kstate := mk_kstate {
  o_kern : Process.kern;
  o_pmm : Pmm.pmm;
  o_heap : Heap.heap;
  timer_ticks : Z;
  log_buf : list Z;
  log_pos : Z }.

Definition set_log b p x := mk_kstate (o_kern x) (o_pmm x) (o_heap x) (timer_ticks x) b p.

Definition in_kern {A} (m : prog Process.kern A) : prog kstate A := fun x =>
  match m (o_kern x) with
  | Some (a, k) => Some (a, mk_kstate k (o_pmm x) (o_heap x) (timer_ticks x) (log_buf x) (log_pos x))
  | None => None
  end.
Definition in_heap {A} (m : prog Heap.heap A) : prog kstate A := fun x =>
  match m (o_heap x) with
  | Some (a, h) => Some (a, mk_kstate (o_kern x) (o_pmm x) h (timer_ticks x) (log_buf x) (log_pos x))
  | None => None
  end.

(** * The log *)

Definition put_log (i c : Z) : prog kstate unit :=
  b ← gets log_buf; b ← need (arr_set b i c); modify (fun x => set_log b (log_pos x) x).

Fixpoint log_loop (msg : list Z) : prog kstate unit :=
  match msg with
  | [] => mret tt
  | c :: msg =>
      p ← gets log_pos;
      if p <? LOG_BUF_SIZE - 1 then
        _ ← put_log p c;
        _ ← modify (fun x => set_log (log_buf x) (u64 (p + 1)) x);
        log_loop msg
      else mret tt
  end.

Definition log_write (msg : option (list Z)) : prog kstate unit :=
  match msg with
  | None => mret tt
  | Some msg => _ ← log_loop msg; p ← gets log_pos; put_log p 0
  end.

(** The length and the array. *)
Definition log_read : prog kstate (Z * list Z) := p ← gets log_pos; b ← gets log_buf; mret (p, b).

(** * Metrics *)

Record system_metrics := mk_metrics {
  uptime_ticks : Z;
  ctx_switches : Z;
  interrupts_served : Z;
  heap_used : Z;
  heap_free : Z;
  mem_used_pages : Z;
  mem_free_pages : Z;
  m_process_count : Z;
  active_fds : Z }.

(** [heap_stats] gets the address of [heap_free] twice and stores the largest
    block there last.  Without a scheduler the statistics are indeterminate. *)
Definition metrics_collect : prog kstate system_metrics :=
  ticks ← gets timer_ticks;
  s ← in_kern (Process.on_sched Sched.scheduler_get_stats);
  s ← need s;
  '(used, _, largest) ← in_heap Heap.heap_stats;
  free_pages ← gets (fun x => Pmm.pmm_get_free_count (o_pmm x));
  used_pages ← gets (fun x => Pmm.pmm_get_used_count (o_pmm x));
  n ← gets (fun x => Process.process_count (o_kern x));
  _ ← in_kern (Process.on_table (Pcb.pcb_enum_active 32));
  mret (mk_metrics ticks (Sched.context_switches s) (Sched.processes_completed s) used largest used_pages free_pages n 0).

(** * The monitor *)

Definition nl (s : string) : list Z := text s ++ [10].

Definition top_line (i : Z) : prog Process.kern console_call :=
  p ← Process.on_table (Pcb.get_pcb i);
  name ← need (c_string (Pcb.name p));
  mret (Printf (nl "%-4u %-16s %-8s %-8u")
    [AVal (Pcb.pid p); AStr (Some name); AStr (Some (text (Syscall.process_state_str (Pcb.state p)))); AVal (Pcb.total_ticks p)]).

Fixpoint top_lines (ids : list Z) : prog Process.kern (list console_call) :=
  match ids with
  | [] => mret []
  | i :: ids => c ← top_line i; cs ← top_lines ids; mret (c :: cs)
  end.

(** The lines above the process list. *)
Definition top_head (m : system_metrics) : list console_call :=
  [Clear; SetColor VGA_LIGHT_GREEN VGA_BLACK; Writeline (text "ARES OS System Monitor (top)");
   SetColor VGA_WHITE VGA_BLACK; Writeline (text "==============================");
   Printf (nl "Uptime        : %lu ticks") [AVal (uptime_ticks m)];
   Printf (nl "Context-switches: %lu") [AVal (ctx_switches m)];
   Printf (nl "Memory used   : %lu pages (%lu KiB)") [AVal (mem_used_pages m); AVal (u64 (mem_used_pages m * 4))];
   Printf (nl "Memory free   : %lu pages (%lu KiB)") [AVal (mem_free_pages m); AVal (u64 (mem_free_pages m * 4))];
   Printf (nl "Heap used     : %lu bytes") [AVal (heap_used m)];
   Printf (nl "Processes     : %u") [AVal (m_process_count m)]; Writeline [];
   SetColor VGA_LIGHT_CYAN VGA_BLACK; Writeline (text "Active processes:"); SetColor VGA_WHITE VGA_BLACK;
   Printf (nl "%-4s %-16s %-8s %-8s") (AStr ∘ Some ∘ text <$> ["PID"; "NAME"; "STATE"; "TICKS"])]%string.

(** The display waits for one key of [keys]: the calls made, and the keys left
    over unless it still waits. *)
Definition top_display (keys : list Z) : prog kstate (list console_call * option (list Z)) :=
  m ← metrics_collect;
  ids ← in_kern (Process.on_table (Pcb.pcb_enum_active Pcb.MAX_PROCESSES));
  rows ← in_kern (top_lines ids);
  let shown := top_head m ++ rows ++ [Writeline []; Printf (text "Press any key to return...") []] in
  match keys with
  | [] => mret (shown, None)
  | _ :: keys => mret (shown ++ [Clear], Some keys)
  end.

(** * What the log holds *)

(** The log holds the text [txt]. *)
Record log_holds (x : kstate) (txt : list Z) : Prop := {
  lh_len : length (log_buf x) = Z.to_nat LOG_BUF_SIZE;
  lh_pos : log_pos x = Z.of_nat (length txt);
  lh_text : exists rest, log_buf x = txt ++ 0 :: rest }.

Lemma log_loop_ok msg : forall x pre mid, log_pos x = Z.of_nat (length pre) -> log_buf x = pre ++ mid ->
  length (log_buf x) = Z.to_nat LOG_BUF_SIZE -> (1 <= length mid)%nat ->
  let kept := take (Z.to_nat (LOG_BUF_SIZE - 1) - length pre) msg in
  runs (log_loop msg) x (fun _ x' => exists mid', x' = set_log ((pre ++ kept) ++ mid') (Z.of_nat (length (pre ++ kept))) x /\
    length mid = (length kept + length mid')%nat /\ (1 <= length mid')%nat).
Proof.
  induction msg as [|c msg IH]; intros x pre mid Hp Hb Hl Hm kept; cbn [log_loop].
  { run. exists mid. subst kept. rewrite take_nil, app_nil_r. rewrite <- Hp, <- Hb. split_and!; [by destruct x|done|done]. }
  run. rewrite Hp. assert (length mid = Z.to_nat LOG_BUF_SIZE - length pre)%nat as Hmid.
  { rewrite <- Hl, Hb, length_app. lia. }
  unfold LOG_BUF_SIZE in *. destruct (Z.ltb_spec (Z.of_nat (length pre)) (4096 - 1)) as [Hlt|Hge].
  - destruct mid as [|m0 mid]; [cbn in Hm; lia|]. unfold put_log. run. rewrite Hb. run.
    eapply runs_need; [apply arr_set_app|]. run.
    assert (u64 (Z.of_nat (length pre) + 1) = Z.of_nat (length (pre ++ [c]))) as ->.
    { rewrite length_app, wrap_small by lia. cbn [length]. lia. }
    cbn [set_log log_buf o_kern o_pmm o_heap timer_ticks log_pos].
    eapply runs_mono; [eapply (IH _ (pre ++ [c]) mid)|].
    + done.
    + cbn. by rewrite <- app_assoc.
    + cbn. rewrite Hb, !length_app in *. cbn in *. lia.
    + rewrite Hb, length_app in Hl. cbn in *. lia.
    + intros [] x' (mid' & -> & Hlen & Hone). exists mid'. subst kept.
      replace (Z.to_nat (4096 - 1) - length pre)%nat with (S (Z.to_nat (4096 - 1) - length (pre ++ [c])))
        by (rewrite length_app; cbn; lia).
      cbn [take length] in *. rewrite <- (app_assoc pre [c]). split_and!; [done|lia|done].
  - run. exists mid. subst kept. replace (Z.to_nat (4096 - 1) - length pre)%nat with 0%nat by lia.
    rewrite take_0, app_nil_r. rewrite <- Hp, <- Hb. split_and!; [by destruct x|done|done].
Qed.

Lemma log_write_ok txt msg x : log_holds x txt ->
  runs (log_write (Some msg)) x (fun _ x' => x' = set_log (log_buf x') (log_pos x') x /\
    log_holds x' (take (Z.to_nat (LOG_BUF_SIZE - 1)) (txt ++ msg))).
Proof.
  intros [Hl Hp (rest & Hb)]. unfold log_write. run.
  eapply runs_mono; [apply (log_loop_ok msg x txt (0 :: rest)); [done|done|done|cbn; lia]|].
  intros [] x' (mid' & -> & Hlen & Hone). run. unfold put_log. run. cbn [set_log log_pos log_buf].
  destruct mid' as [|m0 mid']; [cbn in Hone; lia|]. run. eapply runs_need; [apply arr_set_app|]. run.
  split; [done|]. rewrite Hb, length_app in Hl. cbn in Hl. 
  rewrite take_app, (take_ge txt) by (unfold LOG_BUF_SIZE in *; lia).
  constructor; cbn [set_log log_buf log_pos].
  - rewrite !length_app in *. cbn in *. lia.
  - done.
  - by eexists.
Qed.

(** What a sequence of messages leaves in the log. *)
Fixpoint log_all (msgs : list (list Z)) : prog kstate unit :=
  match msgs with
  | [] => mret tt
  | m :: msgs => _ ← log_write (Some m); log_all msgs
  end.

Lemma take_over_app {A} n (l k : list A) : take n (take n l ++ k) = take n (l ++ k).
Proof.
  destruct (le_lt_dec (length l) n); [by rewrite (take_ge l)|].
  rewrite !take_app_le by (rewrite ?length_take; lia). by rewrite take_take, Nat.min_id.
Qed.

Lemma log_all_ok msgs : forall txt x, log_holds x txt ->
  runs (log_all msgs) x (fun _ x' => log_holds x' (take (Z.to_nat (LOG_BUF_SIZE - 1)) (txt ++ concat msgs))).
Proof.
  induction msgs as [|m msgs IH]; intros txt x Hx; cbn [log_all concat].
  - run. rewrite app_nil_r, take_ge; [done|]. destruct Hx as [Hl _ (rest & Hb)].
    rewrite Hb, length_app in Hl. cbn in Hl. unfold LOG_BUF_SIZE in *. lia.
  - apply runs_bind. eapply runs_mono; [by apply log_write_ok|]. intros [] x1 [_ H1].
    eapply runs_mono; [by apply IH|]. intros [] x2 H2. by rewrite take_over_app, <- app_assoc in H2.
Qed.

(** The free heap bytes of the metrics are the size of the largest free block. *)
Lemma metrics_free_is_largest x bs : Heap.heap_rep (o_heap x) bs ->
  match metrics_collect x with
  | Some (m, _) => heap_used m = Heap.bytes_where (fun b => negb (Heap.b_free b)) bs /\ heap_free m = Heap.largest_free bs
  | None => True
  end.
Proof.
  intros Hb. unfold metrics_collect, mbind, prog_bind, gets, need, mret, prog_ret.
  destruct (in_kern (Process.on_sched Sched.scheduler_get_stats) x) as [[o x1]|] eqn:E1; [|done].
  destruct o as [s|]; cbn [fmap option_fmap option_map]; [|done].
  assert (o_heap x1 = o_heap x) as Hh.
  { unfold in_kern in E1. destruct (Process.on_sched _ _) as [[? ?]|]; [|done]. by simplify_eq. }
  unfold in_heap. rewrite Hh, (proj1 (Heap.heap_stats_exact _ _ Hb)).
  cbv beta iota. destruct (in_kern (Process.on_table (Pcb.pcb_enum_active 32)) _) as [[? ?]|]; done.
Qed.

(** * Properties *)

(** From an empty log any sequence of [log_write] calls stays inside the
    4096-byte buffer, and [log_read] returns the first 4095 characters ever
    written, in order, and their number: the log is not a ring, later messages
    are dropped. *)
Theorem log_keeps_first x msgs : log_holds x [] -> Forall (Forall (fun c => c <> 0)) msgs ->
  runs (_ ← log_all msgs; log_read) x (fun r _ =>
    let kept := take (Z.to_nat (LOG_BUF_SIZE - 1)) (concat msgs) in
    c_string r.2 = Some kept /\ r.1 = Z.of_nat (length kept)).
Proof.
  intros Hx Hm. apply runs_bind. eapply runs_mono; [by apply log_all_ok|]. intros [] x' [Hl Hp (rest & Hb)].
  unfold log_read. run. cbn [fst snd app] in *. rewrite Hb, Hp. split; [|done].
  apply c_string_app, Forall_take, Forall_concat. done.
Qed.

(** A machine whose log is as the loader leaves it. *)
Definition boot_state : kstate :=
  mk_kstate (Process.boot_kern true Sched.SCHED_FCFS) (Pmm.mk_pmm [] 0 0 0) (Heap.mk_heap 0 ∅) 0 (replicate (Z.to_nat LOG_BUF_SIZE) 0) 0.

Lemma log_keeps_first_witness :
  runs (_ ← log_all [text "one "; text "two"]; log_read) boot_state (fun r _ => c_string r.2 = Some (text "one two") /\ r.1 = 7).
Proof.
  eapply runs_mono; [apply (log_keeps_first boot_state [text "one "; text "two"])|].
  - split; [apply length_replicate|done|]. exists (replicate 4095 0). vm_compute. reflexivity.
  - repeat constructor; done.
  - intros r x [H1 H2]. split; [rewrite H1|rewrite H2]; vm_compute; reflexivity.
Defined.


End Observe.
