(* ===== verification/Shell.v ===== *)
(** The shell (src/shell/shell.c, shell.h): history ring, line editing,
    tokenizer, command table and the read loop.

    The keyboard is the sequence of values [keyboard_getchar] returns.  A
    command that takes over keyboard and screen (editor, calculator, tests,
    monitor, benchmarks, login) ends the shell's run in [Launched]; the shell
    goes on with its next prompt when the program returns. *)
From stdpp Require Import strings.
From S2P Require Import Prelude Interfaces Mem Bytes Pmm Heap Pcb Queue Sched Process RamDisk FsDisk FsFile FsDir FsApi Ports Keyboard Console Cstr Interrupt Auth Syscall Rtc Observe.
#[local] Open Scope Z_scope.

Module Shell.
Create HintDb shell.
Import Console Cstr Observe.

Definition SHELL_MAX_LINE := 256.
Definition SHELL_MAX_ARGS := 16.
Definition SHELL_HISTORY_SIZE := 16.

Definition sh_strlen (s : list Z) : Z := Z.of_nat (length s).
Definition sh_strcmp : list Z -> list Z -> Z := c_strcmp.
Definition sh_strcpy_n : list Z -> list Z -> Z -> option (list Z) := c_strcpy_n.

(** * The tokenizer *)

Definition blank (c : Z) : bool := (c =? 32) || (c =? 9).

Fixpoint skip_blanks (fuel : nat) (line : list Z) (i : Z) : option Z :=
  match fuel with
  | O => None
  | S fuel => c ← arr_get line i; if blank c then skip_blanks fuel line (i + 1) else Some i
  end.

Fixpoint skip_word (fuel : nat) (line : list Z) (i : Z) : option Z :=
  match fuel with
  | O => None
  | S fuel =>
      c ← arr_get line i;
      if negb (c =? 0) && negb (blank c) then skip_word fuel line (i + 1) else Some i
  end.

(** The array after tokens were terminated, and the indices of the tokens. *)
Fixpoint parse_words (fuel : nat) (line : list Z) (i : Z) (argv : list Z) (max_args : Z) : option (list Z * list Z) :=
  match fuel with
  | O => None
  | S fuel =>
      c ← arr_get line i;
      if negb (c =? 0) && (Z.of_nat (length argv) <? max_args) then
        i ← skip_blanks (S (length line)) line i;
        c ← arr_get line i;
        if c =? 0 then Some (line, argv)
        else
          let argv := argv ++ [i] in
          i ← skip_word (S (length line)) line i;
          c ← arr_get line i;
          if negb (c =? 0) then line ← arr_set line i 0; parse_words fuel line (i + 1) argv max_args
          else parse_words fuel line i argv max_args
      else Some (line, argv)
  end.

Definition shell_parse (line : list Z) (max_args : Z) : option (list Z * list Z) :=
  parse_words (S (length line)) line 0 [] max_args.

(** The strings that [argv] points to. *)
Fixpoint args_of (line : list Z) (argv : list Z) : option (list (list Z)) :=
  match argv with
  | [] => Some []
  | i :: argv => w ← c_string (drop (Z.to_nat i) line); ws ← args_of line argv; Some (w :: ws)
  end.

(** * State *)

(** The programs a command starts. *)
Inductive program := Run_editor (path : list Z) | Run_calc | Run_tests | Run_top | Run_benchmarks | Run_login.

Section shell.
Context {H : Type} {HP : PortIO H}.

(** The history, the line buffer of [shell_main], the components the commands
    read, and the console calls made. *)
Record shell := mk_shell {
  history : list (list Z);
  history_count : Z;
  history_head : Z;
  history_nav : Z;
  line : list Z;
  kernel : kstate;
  accounts : Auth.auth;
  clock : H;
  out : list console_call }.

Definition set_history h c n x := mk_shell h c n (history_nav x) (line x) (kernel x) (accounts x) (clock x) (out x).
Definition set_nav n x := mk_shell (history x) (history_count x) (history_head x) n (line x) (kernel x) (accounts x) (clock x) (out x).
Definition set_line l x := mk_shell (history x) (history_count x) (history_head x) (history_nav x) l (kernel x) (accounts x) (clock x) (out x).
Definition set_kernel k x := mk_shell (history x) (history_count x) (history_head x) (history_nav x) (line x) k (accounts x) (clock x) (out x).
Definition set_accounts a x := mk_shell (history x) (history_count x) (history_head x) (history_nav x) (line x) (kernel x) a (clock x) (out x).
Definition set_clock h x := mk_shell (history x) (history_count x) (history_head x) (history_nav x) (line x) (kernel x) (accounts x) h (out x).
Definition set_out o x := mk_shell (history x) (history_count x) (history_head x) (history_nav x) (line x) (kernel x) (accounts x) (clock x) o.

Definition print (cs : list console_call) : prog shell unit := modify (fun x => set_out (out x ++ cs) x).
Definition on_kernel {A} (m : prog kstate A) : prog shell A := fun x =>
  match m (kernel x) with Some (a, k) => Some (a, set_kernel k x) | None => None end.
Definition on_accounts {A} (m : prog Auth.auth A) : prog shell A := fun x =>
  match m (accounts x) with Some (a, k) => Some (a, set_accounts k x) | None => None end.
Definition on_clock {A} (m : prog (H * unit) A) : prog shell A := fun x =>
  match m (clock x, tt) with Some (a, (h, _)) => Some (a, set_clock h x) | None => None end.

Definition put_line (i c : Z) : prog shell unit := l ← gets line; l ← need (arr_set l i c); modify (set_line l).

(** * History *)

(** The remainders are those of C. *)
Definition history_index_at (nav : Z) : prog shell Z :=
  head ← gets history_head;
  let idx := head - 1 - nav in
  mret (Z.rem (Z.rem idx SHELL_HISTORY_SIZE + SHELL_HISTORY_SIZE) SHELL_HISTORY_SIZE).

Definition entry (idx : Z) : prog shell (list Z) :=
  h ← gets history; e ← need (arr_get h idx); need (c_string e).

Definition history_push (str : list Z) : prog shell unit :=
  if bool_decide (str = []) then mret tt
  else
    count ← gets history_count;
    same ← (if 0 <? count then
              newest ← history_index_at 0;
              e ← entry newest;
              mret (sh_strcmp e str =? 0)
            else mret false);
    if (same : bool) then mret tt
    else
      head ← gets history_head;
      h ← gets history;
      old ← need (arr_get h head);
      new ← need (sh_strcpy_n old str SHELL_MAX_LINE);
      h ← need (arr_set h head new);
      modify (set_history h (if count <? SHELL_HISTORY_SIZE then count + 1 else count)
                            (Z.rem (head + 1) SHELL_HISTORY_SIZE)).

(** * Line editing *)

Definition line_replace (pos : Z) (src : list Z) : prog shell Z :=
  let n := Z.to_nat pos in
  _ ← print (replicate n (Putchar 8) ++ replicate n (Putchar 32) ++ replicate n (Putchar 8));
  l ← gets line;
  l ← need (sh_strcpy_n l src SHELL_MAX_LINE);
  _ ← modify (set_line l);
  str ← need (c_string l);
  _ ← print (Putchar <$> str);
  mret (sh_strlen str).

(** The loop of TAB: up to [n] spaces. *)
Fixpoint tab_loop (n : nat) (pos : Z) : prog shell Z :=
  match n with
  | O => mret pos
  | S n =>
      if pos <? SHELL_MAX_LINE - 1 then
        _ ← put_line pos 32; _ ← print [Putchar 32]; tab_loop n (pos + 1)
      else mret pos
  end.

(** A key other than Enter: the new length of the line. *)
Definition line_key (c pos : Z) : prog shell Z :=
  if c =? Keyboard.KEY_BACKSPACE then
    if 0 <? pos then
      _ ← put_line (pos - 1) 0;
      _ ← print [Putchar 8; Putchar 32; Putchar 8];
      mret (pos - 1)
    else mret pos
  else if c =? Keyboard.KEY_UP then
    count ← gets history_count;
    nav ← gets history_nav;
    if (0 <? count) && (nav <? count - 1) then
      _ ← modify (set_nav (nav + 1));
      idx ← history_index_at (nav + 1);
      e ← entry idx;
      line_replace pos e
    else mret pos
  else if c =? Keyboard.KEY_DOWN then
    nav ← gets history_nav;
    if 0 <? nav then
      _ ← modify (set_nav (nav - 1));
      idx ← history_index_at (nav - 1);
      e ← entry idx;
      line_replace pos e
    else if nav =? 0 then
      _ ← modify (set_nav (-1));
      line_replace pos []
    else mret pos
  else if c =? Keyboard.KEY_TAB then tab_loop 4 pos
  else if (0x20 <=? c) && (c <? 0x7F) && (pos <? SHELL_MAX_LINE - 1) then
    _ ← put_line pos c;
    _ ← print [Putchar c];
    mret (pos + 1)
  else mret pos.

(** The keys of one line: its length and the keys after Enter, or no key is
    left. *)
Fixpoint read_line (keys : list Z) (pos : Z) : prog shell (option (Z * list Z)) :=
  match keys with
  | [] => mret None
  | c :: keys =>
      if c =? 0 then read_line keys pos
      else if c =? Keyboard.KEY_ENTER then _ ← print [Putchar 10]; mret (Some (pos, keys))
      else pos ← line_key c pos; read_line keys pos
  end.

(** * Commands *)

Definition str (s : list Z) : arg := AStr (Some s).
Definition strs (l : list string) : list arg := str ∘ text <$> l.

(** A handler gets the strings of [argv]; it may start a program. *)
Definition handler : Type := list (list Z) -> prog shell (option program).

Definition say (cs : list console_call) : prog shell (option program) := _ ← print cs; mret None.

Definition cmd_help : handler := fun _ => say ((fun s => Printf (nl s) []) <$>
  ["Built-in commands:";
   "  help            Show this list";
   "  echo [args...]  Print arguments";
   "  clear           Clear the screen";
   "  ps              List active processes";
   "  date            Show current date/time (RTC)";
   "  meminfo         Show memory statistics";
   "  uptime          Show ticks since boot";
   "  reboot          Reboot the machine (stub)";
   "  shutdown        Power off the machine (stub)"]%string).

(** The arguments from [argv[1]] on, separated by spaces. *)
Fixpoint echo_calls (args : list (list Z)) : list console_call :=
  match args with
  | [] => []
  | [a] => [Printf (text "%s") [str a]]
  | a :: args => [Printf (text "%s") [str a]; Putchar 32] ++ echo_calls args
  end.

Definition cmd_echo : handler := fun argv => say (echo_calls (tail argv) ++ [Putchar 10]).

Definition cmd_clear : handler := fun _ => say [Clear].

Definition cmd_ps : handler := fun _ =>
  let head l := Printf (nl "%-4s %-24s %-10s %-8s %-8s") (strs l) in
  c ← on_kernel (in_kern Process.get_current);
  here ← (match c with
          | Some i => l ← on_kernel (in_kern (Syscall.ps_line "%-4u %-24s %-10s %-8s %-8u (current)" [] i)); mret [l]
          | None => mret []
          end);
  ids ← on_kernel (in_kern (Process.on_table (Pcb.pcb_enum_active Pcb.MAX_PROCESSES)));
  rest ← on_kernel (in_kern (Syscall.ps_lines (match c with Some i => filter (.≠ i) ids | None => ids end)));
  n ← gets (fun x => Process.process_count (o_kern (kernel x)));
  say ([head ["PID"; "NAME"; "STATE"; "PRIO"; "TICKS"]; head ["---"; "----"; "-----"; "----"; "-----"]]%string ++
       here ++ rest ++ [Printf (nl "(%u active)") [AVal n]]).

(** [buf] has indeterminate contents at first. *)
Definition cmd_date : handler := fun _ =>
  buf ← on_clock (Rtc.rtc_format_time (replicate 32 0) 32);
  s ← need (c_string buf);
  say [Printf (nl "Time: %s") [str s]].

Definition cmd_meminfo : handler := fun _ =>
  free_pages ← gets (fun x => Pmm.pmm_get_free_count (o_pmm (kernel x)));
  used_pages ← gets (fun x => Pmm.pmm_get_used_count (o_pmm (kernel x)));
  let total_pages := u64 (free_pages + used_pages) in
  let kib p := u64 (p * 4) in
  '(heap_used, heap_free, heap_largest) ← on_kernel (in_heap Heap.heap_stats);
  say [Printf (nl "Physical memory (4 KiB pages):") [];
       Printf (nl "  total : %lu pages (%lu KiB)") [AVal total_pages; AVal (kib total_pages)];
       Printf (nl "  used  : %lu pages (%lu KiB)") [AVal used_pages; AVal (kib used_pages)];
       Printf (nl "  free  : %lu pages (%lu KiB)") [AVal free_pages; AVal (kib free_pages)];
       Printf (nl "Kernel heap:") [];
       Printf (nl "  used    : %lu bytes") [AVal heap_used];
       Printf (nl "  free    : %lu bytes") [AVal heap_free];
       Printf (nl "  largest : %lu bytes") [AVal heap_largest]].

Definition cmd_uptime : handler := fun _ =>
  t ← gets (fun x => timer_ticks (kernel x)); say [Printf (nl "Uptime: %lu ticks") [AVal t]].

Definition cmd_reboot : handler := fun _ => say [Printf (nl "reboot: Not implemented yet") []].
Definition cmd_shutdown : handler := fun _ => say [Printf (nl "shutdown: Not implemented yet") []].

Definition cmd_editor : handler := fun argv =>
  match argv with
  | _ :: path :: _ => mret (Some (Run_editor path))
  | _ => say [Printf (nl "usage: editor <filename>") []]
  end.

Definition cmd_calc : handler := fun _ => mret (Some Run_calc).
Definition cmd_test : handler := fun _ => mret (Some Run_tests).
Definition cmd_top : handler := fun _ => mret (Some Run_top).
Definition cmd_bench : handler := fun _ => mret (Some Run_benchmarks).
Definition cmd_login : handler := fun _ => mret (Some Run_login).

(** The rows of the active accounts among the [n] from [i] on. *)
Fixpoint user_rows (n : nat) (i : Z) : prog Auth.auth (list console_call) :=
  match n with
  | O => mret []
  | S n =>
      u ← Auth.get_user i;
      row ← (if Auth.active u then
               name ← need (c_string (Auth.username u));
               mret [Printf (nl "%-24s %-6u %-6u %-5s")
                 [str name; AVal (Auth.uid u); AVal (Auth.gid u); str (if Auth.is_root u then text "yes" else text "no")]]
             else mret []);
      rows ← user_rows n (i + 1);
      mret (row ++ rows)
  end.

Definition cmd_users : handler := fun _ =>
  rows ← on_accounts (user_rows (Z.to_nat Auth.MAX_USERS) 0);
  n ← gets (fun x => Auth.g_user_count (accounts x));
  cur ← gets (fun x => Auth.g_current_uid (accounts x));
  who ← (if cur <? 0 then mret (Printf (nl "No user currently logged in.") [])
         else
           name ← on_accounts (Auth.auth_username (u32 cur));
           mret (Printf (nl "Logged in as: %s (UID %d)") [str (default (text "?") name); AVal cur]));
  say ([Printf (nl "Registered users:") []; Printf (nl "%-24s %-6s %-6s %-5s") (strs ["USERNAME"; "UID"; "GID"; "ROOT"]%string)] ++
       rows ++ [Printf (nl "Total: %d user(s)" ++ [10]) [AVal n]; who]).

Definition cmd_log : handler := fun _ =>
  '(len, buf) ← on_kernel log_read;
  s ← need (c_string buf);
  say [Printf (nl "--- Kernel Log (%lu bytes) ---") [AVal len]; Printf (nl "%s") [str s]].

Definition g_commands : list (list Z * handler) :=
  [(text "help", cmd_help); (text "echo", cmd_echo); (text "clear", cmd_clear); (text "ps", cmd_ps);
   (text "date", cmd_date); (text "meminfo", cmd_meminfo); (text "uptime", cmd_uptime); (text "reboot", cmd_reboot);
   (text "shutdown", cmd_shutdown); (text "editor", cmd_editor); (text "edit", cmd_editor); (text "calc", cmd_calc);
   (text "test", cmd_test); (text "top", cmd_top); (text "bench", cmd_bench); (text "users", cmd_users);
   (text "login", cmd_login); (text "log", cmd_log)].

(** The loop over the table from entry [i] on. *)
Fixpoint dispatch (tbl : list (list Z * handler)) (argv : list (list Z)) (name : list Z) : prog shell (option program) :=
  match tbl with
  | (n, fn) :: tbl => if sh_strcmp name n =? 0 then fn argv else dispatch tbl argv name
  | [] => say [Printf (nl "sh: %s: command not found") [str name]]
  end.

Definition shell_execute : prog shell (option program) :=
  l ← gets line;
  '(l, idx) ← need (shell_parse l SHELL_MAX_ARGS);
  _ ← modify (set_line l);
  argv ← need (args_of l idx);
  match argv with
  | [] => mret None
  | name :: _ => dispatch g_commands argv name
  end.

(** * The main loop *)

Inductive stopped := At_prompt | Launched (p : program) (keys : list Z).

(** One line per step; [fuel] exceeds the number of keys. *)
Fixpoint shell_loop (fuel : nat) (keys : list Z) : prog shell stopped :=
  match fuel with
  | O => need None
  | S fuel =>
      _ ← print [SetColor VGA_LIGHT_GREEN VGA_BLACK; Printf (text "ares@aresos:~$ ") []; SetColor VGA_WHITE VGA_BLACK];
      _ ← put_line 0 0;
      _ ← modify (set_nav (-1));
      r ← read_line keys 0;
      match r with
      | None => mret At_prompt
      | Some (pos, keys) =>
          _ ← put_line pos 0;
          if pos =? 0 then shell_loop fuel keys
          else
            l ← gets line;
            s ← need (c_string l);
            _ ← history_push s;
            r ← shell_execute;
            match r with
            | Some p => mret (Launched p keys)
            | None => shell_loop fuel keys
            end
      end
  end.

(** The loop after a program returned, or at the start. *)
Definition shell_resume (keys : list Z) : prog shell stopped := shell_loop (S (length keys)) keys.

Definition shell_main (keys : list Z) : prog shell stopped :=
  _ ← print [SetColor VGA_WHITE VGA_BLACK; Printf ([10] ++ text "ARES OS v0.1.0 - Type 'help' for commands" ++ [10; 10]) []];
  shell_resume keys.

End shell.
#[global] Arguments shell H : clear implicits.
(** * Words *)

(** The reference tokenizer: the line cut at every blank, without the empty
    pieces. *)
Fixpoint pieces (l : list Z) : list (list Z) :=
  match l with
  | [] => [[]]
  | c :: l =>
      if blank c then [] :: pieces l
      else match pieces l with
           | w :: ws => (c :: w) :: ws
           | [] => [[c]]
           end
  end.

Definition words (l : list Z) : list (list Z) := filter (.≠ []) (pieces l).

Lemma pieces_app w l : Forall (fun c => blank c = false) w ->
  pieces (w ++ l) = match pieces l with x :: xs => (w ++ x) :: xs | [] => [] end.
Proof.
  induction 1 as [|c w Hc _ IH]; cbn [app pieces]; [by destruct l as [|b l]; [|cbn; destruct (blank b); [|destruct (pieces l)]]|].
  rewrite Hc, IH. assert (pieces l <> []) by (destruct l as [|b l]; cbn; [done|destruct (blank b); [done|by destruct (pieces l)]]).
  by destruct (pieces l).
Qed.

Lemma words_blanks bs l : Forall (fun c => blank c = true) bs -> words (bs ++ l) = words l.
Proof.
  induction 1 as [|c bs Hc _ IH]; [done|]. unfold words in *. cbn [app pieces]. rewrite Hc.
  rewrite filter_cons_False by (by intros []). done.
Qed.

Lemma words_word w l : Forall (fun c => blank c = false) w -> w <> [] ->
  match l with [] => True | c :: _ => blank c = true end -> words (w ++ l) = w :: words l.
Proof.
  intros Hw Hne Hl. unfold words. rewrite pieces_app by done. destruct l as [|c l]; cbn [pieces].
  - rewrite app_nil_r, filter_cons_True by done. done.
  - rewrite Hl, app_nil_r, filter_cons_True by done. by rewrite (filter_cons_False _ []) by (by intros []).
Qed.

(** The longest prefix that satisfies a test. *)
Lemma span (f : Z -> bool) l : exists a b, l = a ++ b /\ Forall (fun c => f c = true) a /\
  match b with [] => True | c :: _ => f c = false end.
Proof.
  induction l as [|c l (a & b & -> & Ha & Hb)]; [by exists [], []|].
  destruct (f c) eqn:E; [exists (c :: a), b|exists [], (c :: a ++ b)]; auto.
Qed.

Lemma skip_blanks_ok bs : forall pre c rest fuel, Forall (fun c => blank c = true) bs -> blank c = false ->
  (length bs < fuel)%nat ->
  skip_blanks fuel (pre ++ bs ++ c :: rest) (Z.of_nat (length pre)) = Some (Z.of_nat (length (pre ++ bs))).
Proof.
  induction bs as [|b bs IH]; intros pre c rest [|fuel] Hb Hc Hf; cbn [length] in Hf; try lia; cbn [skip_blanks app].
  - rewrite arr_get_app. cbn [mbind option_bind]. by rewrite Hc, app_nil_r.
  - apply Forall_cons in Hb as [Hb0 Hb]. rewrite arr_get_app. cbn [mbind option_bind]. rewrite Hb0.
    specialize (IH (pre ++ [b]) c rest fuel Hb Hc ltac:(lia)). rewrite <- !app_assoc in IH. cbn [app] in IH.
    rewrite <- IH. f_equal. rewrite length_app. cbn. lia.
Qed.

Lemma skip_word_ok w : forall pre c rest fuel, Forall (fun c => negb (c =? 0) && negb (blank c) = true) w ->
  negb (c =? 0) && negb (blank c) = false -> (length w < fuel)%nat ->
  skip_word fuel (pre ++ w ++ c :: rest) (Z.of_nat (length pre)) = Some (Z.of_nat (length (pre ++ w))).
Proof.
  induction w as [|b w IH]; intros pre c rest [|fuel] Hb Hc Hf; cbn [length] in Hf; try lia; cbn [skip_word app].
  - rewrite arr_get_app. cbn [mbind option_bind]. by rewrite Hc, app_nil_r.
  - apply Forall_cons in Hb as [Hb0 Hb]. rewrite arr_get_app. cbn [mbind option_bind]. rewrite Hb0.
    specialize (IH (pre ++ [b]) c rest fuel Hb Hc ltac:(lia)). rewrite <- !app_assoc in IH. cbn [app] in IH.
    rewrite <- IH. f_equal. rewrite length_app. cbn. lia.
Qed.

(** Index [i] of [buf] starts the string [w]. *)
Definition string_in (buf : list Z) (i : Z) (w : list Z) : Prop :=
  exists a b, buf = a ++ w ++ 0 :: b /\ i = Z.of_nat (length a) /\ Forall (fun c => c <> 0) w.

Lemma string_in_app buf rest i w : string_in buf i w -> string_in (buf ++ rest) i w.
Proof. intros (a & b & -> & -> & Hw). exists a, (b ++ rest). by rewrite <- !app_assoc. Qed.

Lemma strings_in_app buf rest argv ws : Forall2 (string_in buf) argv ws -> Forall2 (string_in (buf ++ rest)) argv ws.
Proof. intros Hs. eapply Forall2_impl; [exact Hs|]. intros ? ?. apply string_in_app. Qed.

Lemma args_of_ok buf argv ws : Forall2 (string_in buf) argv ws -> args_of buf argv = Some ws.
Proof.
  induction 1 as [|i w argv ws (a & b & -> & -> & Hw) _ IH]; cbn [args_of]; [done|].
  rewrite Nat2Z.id, drop_app_length, c_string_app by done. cbn [mbind option_bind]. by rewrite IH.
Qed.
(** A word of a line: what the inner loop of the tokenizer steps over. *)
Lemma next_word cs : Forall (fun c => c <> 0) cs -> cs <> [] ->
  exists bs w rest, cs = bs ++ w ++ rest /\ Forall (fun c => blank c = true) bs /\
    Forall (fun c => negb (c =? 0) && negb (blank c) = true) w /\
    (w = [] -> rest = []) /\ match rest with [] => True | c :: _ => blank c = true end /\ words cs = (if decide (w = []) then [] else w :: words rest).
Proof.
  intros Hz Hne. destruct (span blank cs) as (bs & r & -> & Hbs & Hr).
  destruct (span (fun c => negb (c =? 0) && negb (blank c)) r) as (w & rest & -> & Hw & Hrest).
  exists bs, w, rest. apply Forall_app in Hz as [_ Hz]. apply Forall_app in Hz as [_ Hz].
  assert (match rest with [] => True | c :: _ => blank c = true end) as Hb.
  { destruct rest as [|c rest]; [done|]. apply Forall_cons in Hz as [Hc _]. rewrite (proj2 (Z.eqb_neq _ _) Hc) in Hrest.
    by destruct (blank c). }
  assert (w = [] -> rest = []) as He.
  { intros ->. destruct rest as [|c rest]; [done|]. cbn [app] in Hr. congruence. }
  split_and!; try done. rewrite words_blanks by done. case_decide as Hd; [subst w; by rewrite He|].
  apply words_word; try done. eapply Forall_impl; [exact Hw|]. intros c [_ Hc]%andb_true_iff. by apply negb_true_iff in Hc.
Qed.

Lemma parse_words_ok fuel : forall pre cs junk argv done max,
  Forall (fun c => c <> 0) cs -> (length cs < fuel)%nat -> Forall2 (string_in pre) argv done ->
  exists line' argv', parse_words fuel (pre ++ cs ++ 0 :: junk) (Z.of_nat (length pre)) argv max = Some (line', argv') /\
    length line' = length (pre ++ cs ++ 0 :: junk) /\
    Forall2 (string_in line') argv' (done ++ take (Z.to_nat max - length argv) (words cs)).
Proof.
  induction fuel as [|fuel IH]; intros pre cs junk argv done max Hz Hf Hd; [lia|]. cbn [parse_words].
  destruct cs as [|c0 cs0] eqn:Ecs.
  { cbn [app]. rewrite arr_get_app. cbn [mbind option_bind andb negb Z.eqb]. eexists _, _. split_and!; [done|done|].
    change (words []) with (@nil (list Z)). rewrite take_nil, app_nil_r. by apply strings_in_app. }
  rewrite <- Ecs in *. assert (arr_get (pre ++ cs ++ 0 :: junk) (Z.of_nat (length pre)) = Some c0) as ->.
  { rewrite Ecs. apply arr_get_app. }
  assert (c0 <> 0) as Hc0 by (rewrite Ecs in Hz; by apply Forall_cons in Hz as [? _]).
  cbn [mbind option_bind]. rewrite (proj2 (Z.eqb_neq _ _) Hc0). cbn [negb andb].
  destruct (Z.ltb_spec (Z.of_nat (length argv)) max) as [Hlt|Hge].
  2: { eexists _, _. split_and!; [done|done|]. replace (Z.to_nat max - length argv)%nat with 0%nat by lia.
       rewrite take_0, app_nil_r. by apply strings_in_app. }
  destruct (next_word cs Hz) as (bs & w & rest & Hcs & Hbs & Hw & Hwe & Hr & Hws); [by rewrite Ecs|].
  rewrite Hws. clear Ecs Hws. subst cs.
  assert (exists c k, w ++ rest ++ 0 :: junk = c :: k /\ blank c = false /\ (c = 0 <-> w = [])) as (c & k & Hk & Hbc & Hc).
  { destruct w as [|c w]; [rewrite (Hwe eq_refl); by exists 0, junk|]. exists c, (w ++ rest ++ 0 :: junk).
    apply Forall_cons in Hw as [[Hc Hb]%andb_true_iff _]. zbool. split_and!; [done|done|by split]. }
  rewrite <- !app_assoc, Hk, skip_blanks_ok by (done || (rewrite !length_app; cbn; lia)). cbn [mbind option_bind].
  rewrite app_assoc, arr_get_app. cbn [mbind option_bind]. case_decide as Hdec.
  { rewrite (proj2 Hc Hdec), Z.eqb_refl. eexists _, _. split_and!; [done|done|]. rewrite take_nil, app_nil_r, <- app_assoc.
    by apply strings_in_app. }
  rewrite (proj2 (Z.eqb_neq c 0)) by (by rewrite Hc). rewrite <- Hk.
  assert (Forall (fun c => c <> 0) w) as Hwz.
  { eapply Forall_impl; [exact Hw|]. intros x [Hx _]%andb_true_iff. by zbool. }
  replace (Z.to_nat max - length argv)%nat with (S (Z.to_nat max - length (argv ++ [Z.of_nat (length (pre ++ bs))])))
    by (rewrite length_app; cbn; lia).
  destruct rest as [|b rest]; cbn [app].
  - rewrite skip_word_ok by (done || (rewrite !length_app; cbn; lia)). cbn [mbind option_bind].
    rewrite (app_assoc (pre ++ bs)), arr_get_app. cbn [mbind option_bind negb Z.eqb].
    destruct fuel as [|fuel]; [exfalso; destruct w as [|x w]; rewrite !length_app in Hf; cbn in Hf; [done|lia]|]. cbn [parse_words].
    rewrite arr_get_app. cbn [mbind option_bind andb negb Z.eqb]. eexists _, _. split_and!; [done|by rewrite <- !app_assoc|].
    change (words []) with (@nil (list Z)). rewrite firstn_cons, take_nil.
    apply Forall2_app; [rewrite <- !app_assoc; by apply strings_in_app|]. constructor; [|done].
    exists (pre ++ bs), junk. by rewrite <- !app_assoc.
  - rewrite skip_word_ok by (done || (rewrite Hr; by rewrite andb_false_r) || (rewrite !length_app; cbn; lia)). cbn [mbind option_bind].
    rewrite (app_assoc (pre ++ bs)), arr_get_app. cbn [mbind option_bind]. 
    assert (b <> 0) as Hb0 by (intros ->; done). rewrite (proj2 (Z.eqb_neq _ _) Hb0). cbn [negb].
    rewrite arr_set_app. cbn [mbind option_bind].
    destruct (IH (((pre ++ bs) ++ w) ++ [0]) rest junk (argv ++ [Z.of_nat (length (pre ++ bs))]) (done ++ [w]) max)
      as (line' & argv' & Hp & Hlen & Hs).
    { apply Forall_app in Hz as [_ Hz]. apply Forall_app in Hz as [_ Hz]. by apply Forall_cons in Hz as [_ Hz]. }
    { rewrite !length_app in Hf. cbn in Hf. lia. }
    { apply Forall2_app; [rewrite <- !app_assoc; by apply strings_in_app|]. constructor; [|done].
      exists (pre ++ bs), []. by rewrite <- !app_assoc. }
    exists line', argv'. rewrite <- !app_assoc in Hp, Hlen |- *. cbn [app] in Hp, Hlen |- *. split_and!.
    + rewrite <- Hp. f_equal. rewrite !length_app. cbn. lia.
    + rewrite Hlen, !length_app. cbn. rewrite !length_app. cbn. lia.
    + pose proof (words_blanks [b] rest ltac:(auto)) as Hwb. cbn [app] in Hwb. rewrite firstn_cons, Hwb. rewrite <- app_assoc in Hs. exact Hs.
Qed.

Lemma shell_parse_ok cs junk max : Forall (fun c => c <> 0) cs ->
  exists line' argv', shell_parse (cs ++ 0 :: junk) max = Some (line', argv') /\ length line' = length (cs ++ 0 :: junk) /\
    args_of line' argv' = Some (take (Z.to_nat max) (words cs)).
Proof.
  intros Hz. destruct (parse_words_ok (S (length (cs ++ 0 :: junk))) [] cs junk [] [] max Hz) as (l & a & Hp & Hl & Hs).
  { rewrite length_app. cbn. lia. } { constructor. }
  exists l, a. split_and!; [done|done|]. cbn [length app] in Hs. rewrite Nat.sub_0_r in Hs. by apply args_of_ok.
Qed.
(** * The line editor as a function on lists *)

Lemma exists_last' {A} (l : list A) : l = [] \/ exists l' x, l = l' ++ [x].
Proof. induction l as [|x l _] using rev_ind; eauto. Qed.

(** What is echoed, on one row: the cells typed and the cursor. *)
Definition echo (d : list Z * nat) (c : console_call) : list Z * nat :=
  match c with
  | Putchar ch => if ch =? 8 then (d.1, pred d.2) else (take d.2 d.1 ++ [ch] ++ drop (S d.2) d.1, S d.2)
  | _ => d
  end.

(** The row shows the text, possibly with blanks after it, and the cursor
    stands behind the text. *)
Definition row_shows (cs : list Z) (d : list Z * nat) : Prop := exists n, d = (cs ++ replicate n 32, length cs).

(** Calls after which a row that showed [cs] shows [cs']. *)
Definition redraws (cs cs' : list Z) (calls : list console_call) : Prop :=
  forall d, row_shows cs d -> row_shows cs' (foldl echo d calls).

Lemma redraws_app a b c k1 k2 : redraws a b k1 -> redraws b c k2 -> redraws a c (k1 ++ k2).
Proof. intros H1 H2 d Hd. rewrite foldl_app. auto. Qed.

Lemma redraws_type cs c : c <> 8 -> redraws cs (cs ++ [c]) [Putchar c].
Proof.
  intros Hc d (n & ->). cbn [foldl echo fst snd]. rewrite (proj2 (Z.eqb_neq _ _) Hc).
  exists (pred n). rewrite take_app_length, length_app. cbn [length]. rewrite Nat.add_1_r. f_equal.
  rewrite drop_app_ge by lia. replace (S (length cs) - length cs)%nat with 1%nat by lia. rewrite drop_replicate, <- app_assoc.
  by rewrite Nat.sub_1_r.
Qed.

Lemma echo_backs n : forall cells k, foldl echo (cells, k) (replicate n (Putchar 8)) = (cells, (k - n)%nat).
Proof.
  induction n as [|n IH]; intros cells k; cbn [replicate foldl]; [by rewrite Nat.sub_0_r|].
  cbn [echo fst snd]. change (8 =? 8) with true. cbv iota. rewrite IH. f_equal. lia.
Qed.

Lemma echo_chars l : forall pre rest, Forall (fun c => c <> 8) l ->
  foldl echo (pre ++ rest, length pre) (Putchar <$> l) = (pre ++ l ++ drop (length l) rest, length (pre ++ l)).
Proof.
  induction l as [|c l IH]; intros pre rest Hl; cbn [fmap list_fmap foldl app length]; [by rewrite drop_0, app_nil_r|].
  apply Forall_cons in Hl as [Hc Hl]. cbn [echo fst snd]. rewrite (proj2 (Z.eqb_neq _ _) Hc), take_app_length.
  rewrite drop_app_ge by lia. replace (S (length pre) - length pre)%nat with 1%nat by lia.
  specialize (IH (pre ++ [c]) (drop 1 rest) Hl). rewrite <- !app_assoc in IH. cbn [app] in IH.
  rewrite length_app in IH. cbn [length] in IH. rewrite Nat.add_1_r in IH. etrans; [exact IH|]. by rewrite drop_drop.
Qed.

Lemma redraws_replace cs cs' : Forall (fun c => c <> 8) cs' ->
  redraws cs cs' ((replicate (length cs) (Putchar 8) ++ replicate (length cs) (Putchar 32) ++ replicate (length cs) (Putchar 8)) ++
                  (Putchar <$> cs')).
Proof.
  intros Hc d (n & ->). rewrite !foldl_app, echo_backs, Nat.sub_diag.
  pose proof (echo_chars (replicate (length cs) 32) [] (cs ++ replicate n 32)) as E1. cbn [app length] in E1.
  rewrite fmap_replicate, length_replicate, drop_app_length in E1. rewrite E1 by (by apply Forall_replicate).
  rewrite echo_backs, Nat.sub_diag, <- replicate_add.
  pose proof (echo_chars cs' [] (replicate (length cs + n) 32) Hc) as E2. cbn [app length] in E2. rewrite E2. exists (length cs + n - length cs')%nat.
  by rewrite drop_replicate.
Qed.

Lemma redraws_erase cs c : redraws (cs ++ [c]) cs [Putchar 8; Putchar 32; Putchar 8].
Proof.
  intros d (n & ->). cbn [foldl echo fst snd]. change (8 =? 8) with true. change (32 =? 8) with false. cbv iota.
  rewrite length_app. cbn [length fst snd]. rewrite Nat.add_1_r. cbn [pred]. exists (S n).
  rewrite <- app_assoc, take_app_length, drop_app_ge by lia. replace (S (length cs) - length cs)%nat with 1%nat by lia. done.
Qed.
(** The text of the line and the position in the history (-1: none). *)
Record edit := mk_edit { e_text : list Z; e_nav : Z }.

(** Entry [n] of a history, newest first. *)
Definition recall (hs : list (list Z)) (n : Z) : list Z := default [] (hs !! Z.to_nat n).

(** What a key other than Enter does. *)
Definition key_step (hs : list (list Z)) (c : Z) (e : edit) : edit :=
  let len := Z.of_nat (length (e_text e)) in
  if c =? Keyboard.KEY_BACKSPACE then mk_edit (removelast (e_text e)) (e_nav e)
  else if c =? Keyboard.KEY_UP then
    if e_nav e + 1 <? Z.of_nat (length hs) then mk_edit (recall hs (e_nav e + 1)) (e_nav e + 1) else e
  else if c =? Keyboard.KEY_DOWN then
    if 0 <? e_nav e then mk_edit (recall hs (e_nav e - 1)) (e_nav e - 1)
    else if e_nav e =? 0 then mk_edit [] (-1) else e
  else if c =? Keyboard.KEY_TAB then mk_edit (e_text e ++ replicate (Z.to_nat (Z.min 4 (255 - len))) 32) (e_nav e)
  else if (0x20 <=? c) && (c <? 0x7F) && (len <? 255) then mk_edit (e_text e ++ [c]) (e_nav e)
  else e.

(** The keys up to Enter: the line, and the keys left unless Enter is missing. *)
Fixpoint type_line (hs : list (list Z)) (keys : list Z) (e : edit) : edit * option (list Z) :=
  match keys with
  | [] => (e, None)
  | c :: keys =>
      if c =? 0 then type_line hs keys e
      else if c =? Keyboard.KEY_ENTER then (e, Some keys)
      else type_line hs keys (key_step hs c e)
  end.

(** The history after a line: not repeated, at most sixteen entries. *)
Definition remember (cs : list Z) (hs : list (list Z)) : list (list Z) :=
  if bool_decide (cs = [] \/ head hs = Some cs) then hs else take 16 (cs :: hs).

(** * The shell's arrays represent it *)

Definition text_ok (cs : list Z) : Prop := Forall (fun c => 0x20 <= c < 0x7F) cs /\ (length cs <= 255)%nat.

Section editing.
Context {H : Type} {HP : PortIO H}.
Implicit Types (x : shell H) (hs : list (list Z)).

Record hist_rep x hs : Prop := {
  hr_len : length (history x) = 16%nat;
  hr_rows : Forall (fun r => length r = 256%nat) (history x);
  hr_count : history_count x = Z.of_nat (length hs);
  hr_head : 0 <= history_head x < 16;
  hr_size : (length hs <= 16)%nat;
  hr_entry k cs : hs !! k = Some cs -> text_ok cs /\ exists row,
    arr_get (history x) ((history_head x - 1 - Z.of_nat k) mod 16) = Some row /\ c_string row = Some cs }.

Record line_rep x hs (e : edit) : Prop := {
  lr_nav : history_nav x = e_nav e;
  lr_range : -1 <= e_nav e < Z.of_nat (length hs);
  lr_len : length (line x) = 256%nat;
  lr_text : text_ok (e_text e);
  lr_line : exists rest, line x = e_text e ++ rest }.

(** Only the line, the position in the history and the output may differ. *)
Definition same_rest x x' : Prop :=
  history x' = history x /\ history_count x' = history_count x /\ history_head x' = history_head x /\
  kernel x' = kernel x /\ accounts x' = accounts x /\ clock x' = clock x.

Lemma same_rest_trans x1 x2 x3 : same_rest x1 x2 -> same_rest x2 x3 -> same_rest x1 x3.
Proof. unfold same_rest. intuition congruence. Qed.

Lemma hist_rep_same x x' hs : same_rest x x' -> hist_rep x hs -> hist_rep x' hs.
Proof. intros (E1 & E2 & E3 & _) []. constructor; rewrite ?E1, ?E2, ?E3; done. Qed.

Lemma index_rem head nav : 0 <= head < 16 -> 0 <= nav < 16 ->
  Z.rem (Z.rem (head - 1 - nav) 16 + 16) 16 = (head - 1 - nav) mod 16.
Proof.
  intros Hh Hn. destruct (Z.lt_ge_cases (head - 1 - nav) 0).
  - replace (head - 1 - nav) with (- (1 + nav - head)) at 1 by lia. rewrite Z.rem_opp_l, (Z.rem_mod_nonneg (1 + nav - head)) by lia.
    rewrite Z.rem_mod_nonneg by dlia. dlia.
  - rewrite (Z.rem_mod_nonneg (head - 1 - nav)), Z.rem_mod_nonneg by (lia || dlia). dlia.
Qed.

(** The row that navigation reads. *)
Lemma entry_ok x hs nav (Q : list Z -> shell H -> Prop) : hist_rep x hs -> 0 <= nav < Z.of_nat (length hs) ->
  (text_ok (recall hs nav) -> Q (recall hs nav) x) -> runs (idx ← history_index_at nav; entry idx) x Q.
Proof.
  intros Hr Hn HQ. pose proof (hr_size _ _ Hr). pose proof (hr_head _ _ Hr). unfold history_index_at, SHELL_HISTORY_SIZE. run.
  rewrite index_rem by lia. unfold entry. run.
  destruct (lookup_lt_is_Some_2 hs (Z.to_nat nav)) as [cs Hcs]; [lia|].
  destruct (hr_entry _ _ Hr _ _ Hcs) as (Hok & row & Hrow & Hstr). rewrite Z2Nat.id in Hrow by lia.
  eapply runs_need; [exact Hrow|]. eapply runs_need; [exact Hstr|].
  unfold recall in HQ. rewrite Hcs in HQ. cbn [default] in HQ. auto.
Qed.

(** What a key does to a represented line. *)
Definition edited x hs (e e' : edit) (p : Z) x' : Prop :=
  p = Z.of_nat (length (e_text e')) /\ line_rep x' hs e' /\ same_rest x x' /\
  exists calls, out x' = out x ++ calls /\ redraws (e_text e) (e_text e') calls.

Lemma edited_refl x hs e : line_rep x hs e -> edited x hs e e (Z.of_nat (length (e_text e))) x.
Proof. intros Hl. split_and!; try done. exists []. rewrite app_nil_r. split; [done|]. by intros d Hd. Qed.

Lemma edited_trans x1 x2 x3 hs e1 e2 e3 p q : edited x1 hs e1 e2 p x2 -> edited x2 hs e2 e3 q x3 -> edited x1 hs e1 e3 q x3.
Proof.
  intros (-> & _ & S1 & k1 & O1 & R1) (-> & L2 & S2 & k2 & O2 & R2). split_and!; try done; [by eapply same_rest_trans|].
  exists (k1 ++ k2). split; [by rewrite O2, O1, app_assoc|]. by eapply redraws_app.
Qed.

Lemma text_ok_no_backspace cs : text_ok cs -> Forall (fun c => c <> 8) cs.
Proof. intros [Hc _]. eapply Forall_impl; [exact Hc|]. cbn. lia. Qed.

Lemma text_ok_nonzero cs : text_ok cs -> Forall (fun c => c <> 0) cs.
Proof. intros [Hc _]. eapply Forall_impl; [exact Hc|]. cbn. lia. Qed.

Lemma put_line_ok x i c (Q : unit -> shell H -> Prop) : length (line x) = 256%nat -> 0 <= i < 256 ->
  Q tt (set_line (<[Z.to_nat i := c]> (line x)) x) -> runs (put_line i c) x Q.
Proof. intros Hl Hi HQ. unfold put_line. run. eapply runs_need; [apply arr_set_in; lia|]. by run. Qed.

(** A character stored behind the text and echoed. *)
Lemma store_char_ok x hs e c : line_rep x hs e -> (length (e_text e) < 255)%nat -> 0x20 <= c < 0x7F ->
  runs (_ ← put_line (Z.of_nat (length (e_text e))) c; print [Putchar c]) x (fun _ x' =>
    edited x hs e (mk_edit (e_text e ++ [c]) (e_nav e)) (Z.of_nat (length (e_text e)) + 1) x').
Proof.
  intros [Hn Hg Hl [Ht Ht'] (rest & Hr)] Hlen Hc. apply runs_bind, put_line_ok; [done|lia|]. unfold print. run.
  split_and!; [cbn; rewrite length_app; cbn; lia| |done|].
  - constructor; cbn; [done|done|by rewrite length_insert| |].
    + split; [apply Forall_app; auto|]. rewrite length_app. cbn. lia.
    + rewrite Hr, length_app in Hl. destruct rest as [|r0 rest]; [cbn in Hl; lia|]. exists rest.
      rewrite Hr, Nat2Z.id, insert_app_r_alt, Nat.sub_diag, <- app_assoc by lia. done.
  - exists [Putchar c]. split; [done|]. apply redraws_type. lia.
Qed.

Lemma tab_ok n : forall x hs e, line_rep x hs e ->
  runs (tab_loop n (Z.of_nat (length (e_text e)))) x (edited x hs e
    (mk_edit (e_text e ++ replicate (Z.to_nat (Z.min (Z.of_nat n) (255 - Z.of_nat (length (e_text e))))) 32) (e_nav e))).
Proof.
  induction n as [|n IH]; intros x hs e He; cbn [tab_loop].
  { run. replace (Z.to_nat _) with 0%nat by lia. cbn [replicate]. rewrite app_nil_r. destruct e. by apply edited_refl. }
  unfold SHELL_MAX_LINE. destruct (Z.ltb_spec (Z.of_nat (length (e_text e))) (256 - 1)).
  - pose proof (store_char_ok x hs e 32 He ltac:(lia) ltac:(lia)) as Hc. destruct Hc as ([] & x1 & Hrun & He1).
    unfold mbind, prog_bind in Hrun. destruct (put_line _ 32 x) as [[[] x0]|] eqn:E0; [|done].
    apply runs_bind. exists tt, x0. split; [done|]. apply runs_bind. exists tt, x1. split; [done|].
    destruct (IH x1 hs _ (proj1 (proj2 He1))) as (p & x2 & Hp & He2). cbn [e_text e_nav] in *.
    rewrite length_app in Hp. cbn [length] in Hp. rewrite Nat2Z.inj_add in Hp. exists p, x2. split; [exact Hp|].
    pose proof (edited_trans _ _ _ _ _ _ _ _ _ He1 He2) as He3. cbn [e_text e_nav] in He3.
    rewrite <- app_assoc in He3. cbn [app] in He3. rewrite length_app in He3. cbn [length] in He3.
    replace (Z.to_nat (Z.min (Z.of_nat (S n)) (255 - Z.of_nat (length (e_text e)))))
      with (S (Z.to_nat (Z.min (Z.of_nat n) (255 - Z.of_nat (length (e_text e) + 1))))) by lia. exact He3.
  - run. replace (Z.to_nat _) with 0%nat by lia. cbn [replicate]. rewrite app_nil_r. destruct e. by apply edited_refl.
Qed.

Lemma line_replace_ok x hs e cs nav : line_rep x hs e -> text_ok cs -> history_nav x = nav ->
  -1 <= nav < Z.of_nat (length hs) ->
  runs (line_replace (Z.of_nat (length (e_text e))) cs) x (edited x hs e (mk_edit cs nav)).
Proof.
  intros He Hcs Hn Hg. pose proof (lr_len _ _ _ He) as Hl. unfold line_replace, print. run. cbn [set_out line].
  destruct (strcpy_loop_ok cs [] (line x) (line x) 0 256) as (rest & Hc & Hlen); [done|done| |by rewrite Hl|].
  { rewrite Hl. destruct Hcs. lia. }
  cbn [app] in Hc, Hlen. eapply runs_need; [exact Hc|]. run. cbn [set_line line].
  eapply runs_need; [apply c_string_app, text_ok_nonzero, Hcs|]. run. rewrite Nat2Z.id.
  split_and!; [done| |done|].
  - constructor; cbn; [done|done|congruence|done|by eexists].
  - eexists. split; [cbn; by rewrite <- app_assoc|]. by apply redraws_replace, text_ok_no_backspace.
Qed.

(** Navigation moves to entry [nav] and shows it. *)
Lemma navigate_ok x hs e nav : hist_rep x hs -> line_rep x hs e -> 0 <= nav < Z.of_nat (length hs) ->
  runs (_ ← modify (set_nav nav); idx ← history_index_at nav; r ← entry idx; line_replace (Z.of_nat (length (e_text e))) r) x
    (edited x hs e (mk_edit (recall hs nav) nav)).
Proof.
  intros Hh He Hn. apply runs_bind, runs_modify. set (x1 := set_nav nav x).
  assert (hist_rep x1 hs) as Hh1 by (by apply (hist_rep_same x)).
  destruct (entry_ok x1 hs nav (fun r x' => r = recall hs nav /\ x' = x1 /\ text_ok r) Hh1 Hn) as (r & x2 & Hr & -> & -> & Hok); [auto|].
  assert (runs (line_replace (Z.of_nat (length (e_text e))) (recall hs nav)) x1 (edited x hs e (mk_edit (recall hs nav) nav))) as Hrep.
  { eapply runs_mono; [apply (line_replace_ok x1 hs (mk_edit (e_text e) nav) (recall hs nav) nav)|]; cbn [e_text e_nav]; try done.
    - destruct He. constructor; cbn; done || lia.
    - lia. }
  unfold runs, mbind, prog_bind in *. destruct (history_index_at nav x1) as [[idx x3]|]; [|done].
  rewrite Hr. exact Hrep.
Qed.

Lemma line_key_ok x hs e c : hist_rep x hs -> line_rep x hs e ->
  runs (line_key c (Z.of_nat (length (e_text e)))) x (edited x hs e (key_step hs c e)).
Proof.
  intros Hh He. unfold line_key, key_step. destruct (c =? Keyboard.KEY_BACKSPACE).
  { destruct e as [cs nav]. destruct (exists_last' cs) as [->|(cs' & d & ->)]; cbn [e_text e_nav].
    { change (0 <? Z.of_nat (length (@nil Z))) with false. cbv iota. run. by apply (edited_refl x hs (mk_edit [] nav)). }
    rewrite removelast_last, length_app. cbn [length]. rewrite (proj2 (Z.ltb_lt _ _)) by lia.
    destruct He as [Hn Hg Hl [Ht Ht'] (rest & Hr)]. cbn [e_text e_nav] in *. rewrite length_app in Ht'. cbn in Ht'.
    apply runs_bind, put_line_ok; [done|lia|]. unfold print. run.
    split_and!; [cbn; lia| |done|exists [Putchar 8; Putchar 32; Putchar 8]; split; [done|apply redraws_erase]].
    constructor; cbn; [done|done|by rewrite length_insert| |].
    - apply Forall_app in Ht as [Ht _]. split; [done|lia].
    - exists (0 :: rest). rewrite Hr, <- app_assoc. replace (Z.to_nat _) with (length cs' + 0)%nat by lia.
      by rewrite insert_app_r. }
  destruct (c =? Keyboard.KEY_UP).
  { run. rewrite (hr_count _ _ Hh), (lr_nav _ _ _ He). pose proof (lr_range _ _ _ He).
    destruct (Z.ltb_spec (e_nav e + 1) (Z.of_nat (length hs))).
    - rewrite (proj2 (Z.ltb_lt 0 _)), (proj2 (Z.ltb_lt (e_nav e) _)) by lia. cbn [andb]. apply navigate_ok; [done|done|lia].
    - rewrite (proj2 (Z.ltb_ge (e_nav e) _)), andb_false_r by lia. run. by apply edited_refl. }
  destruct (c =? Keyboard.KEY_DOWN).
  { run. rewrite (lr_nav _ _ _ He). pose proof (lr_range _ _ _ He). destruct (Z.ltb_spec 0 (e_nav e)).
    - apply navigate_ok; [done|done|lia].
    - destruct (Z.eqb_spec (e_nav e) 0) as [E|E]; [|run; by apply edited_refl]. run. cbn [set_nav].
      eapply runs_mono; [apply (line_replace_ok _ hs (mk_edit (e_text e) (-1)) [] (-1)); cbn [e_text e_nav]; try done|].
      + destruct He. constructor; cbn; done || lia.
      + split; [constructor|cbn; lia].
      + lia.
      + by intros p x1 (-> & ? & ? & ?). }
  destruct (c =? Keyboard.KEY_TAB); [by apply (tab_ok 4)|]. unfold SHELL_MAX_LINE.
  change (256 - 1) with 255. destruct ((0x20 <=? c) && (c <? 0x7F) && (Z.of_nat (length (e_text e)) <? 255)) eqn:E.
  - zbool. pose proof (store_char_ok x hs e c He ltac:(lia) ltac:(lia)) as ([] & x1 & Hrun & He1).
    unfold mbind, prog_bind in Hrun. destruct (put_line _ c x) as [[[] x0]|] eqn:E0; [|done].
    apply runs_bind. exists tt, x0. split; [done|]. apply runs_bind. exists tt, x1. split; [done|]. by run.
  - run. by apply edited_refl.
Qed.

(** Reading a line follows [type_line]; Enter adds the line break. *)
Lemma shell_read_line_ok keys : forall x hs e, hist_rep x hs -> line_rep x hs e ->
  runs (read_line keys (Z.of_nat (length (e_text e)))) x (fun r x' =>
    let '(e', ks') := type_line hs keys e in
    r = (fun ks => (Z.of_nat (length (e_text e')), ks)) <$> ks' /\ line_rep x' hs e' /\ same_rest x x' /\
    exists calls, out x' = out x ++ calls ++ (if ks' then [Putchar 10] else []) /\ redraws (e_text e) (e_text e') calls).
Proof.
  induction keys as [|c keys IH]; intros x hs e Hh He; cbn [read_line type_line].
  { run. split_and!; try done. exists []. cbn [app]. rewrite app_nil_r. split; [done|]. by intros d Hd. }
  destruct (c =? 0); [by apply IH|]. destruct (c =? Keyboard.KEY_ENTER).
  { unfold print. run. split_and!; try done. { by destruct He. } exists []. split; [done|]. by intros d Hd. }
  apply runs_bind. eapply runs_mono; [by apply line_key_ok|]. intros p x1 (-> & He1 & Hs & k & Ho & Hk).
  eapply runs_mono; [apply IH; [by apply (hist_rep_same x)|done]|]. intros r x2. cbv beta.
  destruct (type_line hs keys (key_step hs c e)) as [e' ks']. intros (-> & He2 & Hs2 & k2 & Ho2 & Hk2).
  split_and!; try done; [by eapply same_rest_trans|]. exists (k ++ k2). split; [|by eapply redraws_app].
  by rewrite Ho2, Ho, <- !app_assoc.
Qed.

(** Storing a line in the ring. *)
Definition pushed x x' : Prop :=
  line x' = line x /\ history_nav x' = history_nav x /\ kernel x' = kernel x /\ accounts x' = accounts x /\
  clock x' = clock x /\ out x' = out x.

Lemma ring_index head k : 0 <= head < 16 -> 0 <= k < 16 ->
  ((head + 1) mod 16 - 1 - k) mod 16 = if k =? 0 then head else (head - 1 - (k - 1)) mod 16.
Proof. intros Hh Hk. destruct (Z.eqb_spec k 0) as [->|]; dlia. Qed.

Lemma push_new x hs cs row new : hist_rep x hs -> text_ok cs ->
  arr_get (history x) (history_head x) = Some row -> length new = 256%nat -> c_string new = Some cs ->
  hist_rep (set_history (<[Z.to_nat (history_head x) := new]> (history x))
              (if history_count x <? 16 then history_count x + 1 else history_count x)
              ((history_head x + 1) mod 16) x) (take 16 (cs :: hs)).
Proof.
  intros [Hl Hrows Hc Hh Hs He] Hok Hrow Hnew Hstr. constructor; cbn [set_history history history_count history_head].
  - by rewrite length_insert.
  - by apply Forall_insert.
  - rewrite length_take, Hc. cbn [length]. destruct (Z.ltb_spec (Z.of_nat (length hs)) 16); lia.
  - dlia.
  - rewrite length_take. lia.
  - intros k c Hk. apply lookup_take_Some in Hk as [Hk Hk16]. rewrite ring_index by lia.
    destruct k as [|k]; cbn in Hk.
    + injection Hk as <-. split; [done|]. exists new. change (Z.of_nat 0 =? 0) with true. cbv iota. rewrite arr_get_lookup, list_lookup_insert_eq by lia. done.
    + destruct (He k c Hk) as (Hc' & r & Hr & Hrs). split; [done|]. exists r. split; [|done].
      destruct (Z.eqb_spec (Z.of_nat (S k)) 0); [lia|].
      replace (Z.of_nat (S k) - 1) with (Z.of_nat k) by lia. rewrite arr_get_lookup in Hr |- * by dlia.
      rewrite list_lookup_insert_ne; [done|]. dlia.
Qed.

Lemma history_push_ok x hs cs : hist_rep x hs -> text_ok cs ->
  runs (history_push cs) x (fun _ x' => hist_rep x' (remember cs hs) /\ pushed x x').
Proof.
  intros Hh Hok. unfold history_push, remember. destruct (bool_decide (cs = [])) eqn:Ecs.
  { run. apply bool_decide_eq_true in Ecs. rewrite bool_decide_eq_true_2 by auto. done. }
  apply bool_decide_eq_false in Ecs. run. rewrite (hr_count _ _ Hh).
  assert (runs (if 0 <? Z.of_nat (length hs) then newest ← history_index_at 0; e ← entry newest; mret (sh_strcmp e cs =? 0)
                else mret false) x (fun b x' => b = bool_decide (head hs = Some cs) /\ x' = x)) as (b & x' & Hb & -> & ->).
  { destruct hs as [|h0 hs']; [cbn; apply runs_ret; split; [symmetry; by apply bool_decide_eq_false_2|done]|]. cbn [length head].
    rewrite (proj2 (Z.ltb_lt _ _)) by lia.
    destruct (entry_ok x (h0 :: hs') 0 (fun r x' => r = h0 /\ x' = x /\ text_ok r) Hh) as (r & x' & Hr & -> & -> & Hr0);
      [cbn; lia|auto|].
    unfold runs, mbind, prog_bind in *. destruct (history_index_at 0 x) as [[idx x2]|]; [|done]. rewrite Hr.
    eexists _, _. split; [done|]. split; [|done]. unfold sh_strcmp. rewrite strcmp_eq.
    - apply bool_decide_ext. split; [by intros ->|by intros [= ->]].
    - eapply Forall_impl; [exact (proj1 Hr0)|]. cbn. lia.
    - eapply Forall_impl; [exact (proj1 Hok)|]. cbn. lia. }
  eexists _, _. split; [exact Hb|]. destruct (bool_decide (head hs = Some cs)) eqn:Eh.
  { run. apply bool_decide_eq_true in Eh. rewrite bool_decide_eq_true_2 by auto. done. }
  apply bool_decide_eq_false in Eh. rewrite (bool_decide_eq_false_2 (_ \/ _)) by naive_solver. run.
  pose proof (hr_head _ _ Hh). pose proof (hr_len _ _ Hh).
  destruct (arr_get_in (history x) (history_head x)) as [row Hrow]; [lia|]. eapply runs_need; [exact Hrow|].
  assert (length row = 256%nat) as Hrl.
  { pose proof (hr_rows _ _ Hh) as Hf. rewrite Forall_forall in Hf. by apply Hf, (arr_get_elem _ _ _ Hrow). }
  destruct (strcpy_loop_ok cs [] row row 0 256) as (rest & Hcp & Hlen); [done|done|destruct Hok; lia|by rewrite Hrl|].
  apply runs_bind. eapply runs_need; [exact Hcp|]. apply runs_bind. eapply runs_need; [apply arr_set_in; lia|]. run.
  cbn [app] in *. rewrite Z.rem_mod_nonneg by (unfold SHELL_HISTORY_SIZE; lia). split; [|done].
  rewrite <- (hr_count _ _ Hh). eapply push_new; try done; [congruence|]. by apply c_string_app, text_ok_nonzero.
Qed.

End editing.
(** * Commands never fault *)

(** A program that leaves the state as it was. *)
Definition reads {S A} (m : prog S A) (s : S) (Q : A -> Prop) : Prop := runs m s (fun a s' => s' = s /\ Q a).

Lemma reads_ret {S A} (a : A) (s : S) (Q : A -> Prop) : Q a -> reads (mret a) s Q.
Proof. intros. by apply runs_ret. Qed.

Lemma reads_bind {S A B} (m : prog S A) (k : A -> prog S B) (s : S) (P : A -> Prop) (Q : B -> Prop) :
  reads m s P -> (forall a, P a -> reads (k a) s Q) -> reads (m ≫= k) s Q.
Proof. intros Hm Hk. apply runs_bind. eapply runs_mono; [exact Hm|]. intros a s' [-> Ha]. by apply Hk. Qed.

(** The table is whole, every name is terminated, the running process is one
    of the table. *)
Record procs_ok (k : Process.kern) : Prop := {
  po_table : Pcb.table_wf (Sched.s_pcbs (Process.k_sched k));
  po_names : Forall (fun p => is_Some (c_string (Pcb.name p))) (Pcb.pcb_table (Sched.s_pcbs (Process.k_sched k)));
  po_current : forall i, Sched.current_process (Process.k_sched k) = Some i -> Pcb.slot_ok i }.

Lemma reads_table {A} (m : prog Pcb.pcbs A) k (Q : A -> Prop) :
  reads m (Sched.s_pcbs (Process.k_sched k)) Q -> reads (Process.on_table m) k Q.
Proof.
  intros Hm. apply Process.runs_on_table. eapply runs_mono; [exact Hm|]. intros a t [-> Ha].
  split; [by destruct k as [[] ? ? ? ? ?]|done].
Qed.

Lemma enum_loop_ok n : forall i max buf t, Pcb.table_wf t -> 0 <= i -> i + Z.of_nat n <= Pcb.MAX_PROCESSES ->
  Forall Pcb.slot_ok buf -> reads (Pcb.pcb_enum_loop n i max buf) t (Forall Pcb.slot_ok).
Proof.
  induction n as [|n IH]; intros i max buf t Ht Hi Hn Hb; cbn [Pcb.pcb_enum_loop]; [by apply reads_ret|].
  destruct (Z.of_nat (length buf) <? max); [|by apply reads_ret].
  destruct (Pcb.table_get t i Ht) as [p Hp]; [unfold Pcb.slot_ok; lia|].
  eapply (reads_bind _ _ _ (fun _ => True)); [by eapply Pcb.runs_get_pcb; [exact Hp|]|]. intros q _. apply IH; [done|lia|lia|].
  destruct (Pcb.active q); [|done]. apply Forall_app. split; [done|]. constructor; [unfold Pcb.slot_ok; lia|done].
Qed.

Lemma enum_ok max k : procs_ok k -> reads (Process.on_table (Pcb.pcb_enum_active max)) k (Forall Pcb.slot_ok).
Proof. intros [Ht _ _]. apply reads_table, enum_loop_ok; [done|lia|done|constructor]. Qed.

Lemma ps_line_ok fmt extra i k : procs_ok k -> Pcb.slot_ok i -> reads (Syscall.ps_line fmt extra i) k (fun _ => True).
Proof.
  intros [Ht Hn _] Hi. destruct (Pcb.table_get _ _ Ht Hi) as [p Hp]. unfold Syscall.ps_line.
  eapply (reads_bind _ _ _ (fun q => q = p)); [apply reads_table; by eapply Pcb.runs_get_pcb; [exact Hp|]|]. intros q ->.
  rewrite Forall_forall in Hn. destruct (Hn p) as [s Hs]; [by eapply arr_get_elem|].
  eapply (reads_bind _ _ _ (fun _ => True)); [by eapply runs_need; [exact Hs|]|]. intros a _. by apply reads_ret.
Qed.

Lemma ps_lines_ok ids k : procs_ok k -> Forall Pcb.slot_ok ids -> reads (Syscall.ps_lines ids) k (fun _ => True).
Proof.
  intros Hk. induction 1 as [|i ids Hi _ IH]; cbn [Syscall.ps_lines]; [by apply reads_ret|].
  eapply reads_bind; [by apply ps_line_ok|]. intros c _. eapply reads_bind; [exact IH|]. intros cs _. by apply reads_ret.
Qed.

Section commands.
Context {H : Type} {HP : PortIO H}.
Implicit Types (x : shell H).

(** What the commands need of the components they read. *)
Record ready x : Prop := {
  rd_procs : procs_ok (o_kern (kernel x));
  rd_heap : exists bs, Heap.heap_rep (o_heap (kernel x)) bs;
  rd_auth : exists n, Auth.auth_ok n (accounts x);
  rd_log : exists txt, log_holds (kernel x) txt }.

(** A command changes nothing of the shell but its output and the clock port. *)
Definition kept x x' : Prop := exists h o, x' = set_out o (set_clock h x).

Lemma reads_kern {A} (m : prog Process.kern A) x (Q : A -> Prop) :
  reads m (o_kern (kernel x)) Q -> reads (on_kernel (in_kern m)) x Q.
Proof.
  intros (a & k & Hm & -> & HQ). exists a, x. split; [|done]. unfold on_kernel, in_kern. rewrite Hm. by destruct x as [? ? ? ? ? []].
Qed.

Lemma reads_heap {A} (m : prog Heap.heap A) x (Q : A -> Prop) :
  reads m (o_heap (kernel x)) Q -> reads (on_kernel (in_heap m)) x Q.
Proof.
  intros (a & k & Hm & -> & HQ). exists a, x. split; [|done]. unfold on_kernel, in_heap. rewrite Hm. by destruct x as [? ? ? ? ? []].
Qed.

Lemma reads_accounts {A} (m : prog Auth.auth A) x (Q : A -> Prop) :
  reads m (accounts x) Q -> reads (on_accounts m) x Q.
Proof.
  intros (a & k & Hm & -> & HQ). exists a, x. split; [|done]. unfold on_accounts. rewrite Hm. by destruct x.
Qed.

Definition told x (r : option program) x' : Prop := r = None /\ kept x x'.

Lemma say_ok cs x : runs (say cs) x (told x).
Proof. unfold say, print. run. split; [done|]. exists (clock x), (out x ++ cs). by destruct x. Qed.

Lemma then_say {A} (m : prog (shell H) A) (k : A -> prog (shell H) (option program)) x P :
  reads m x P -> (forall a, P a -> runs (k a) x (told x)) -> runs (m ≫= k) x (told x).
Proof. intros Hm Hk. apply runs_bind. eapply runs_mono; [exact Hm|]. intros a s' [-> Ha]. by apply Hk. Qed.
Lemma shell_kept_refl x : kept x x.
Proof. exists (clock x), (out x). by destruct x. Qed.

Lemma cmd_ps_ok argv x : ready x -> runs (cmd_ps argv) x (told x).
Proof.
  intros [Hp _ _ _]. unfold cmd_ps. cbv zeta.
  eapply (then_say _ _ _ (fun c => forall i, c = Some i -> Pcb.slot_ok i)).
  { apply reads_kern. unfold Process.get_current. apply runs_gets. split; [done|]. by apply po_current. }
  intros c Hc. eapply (then_say _ _ _ (fun _ => True)).
  { destruct c as [i|]; [|by apply reads_ret]. eapply reads_bind; [by apply reads_kern, ps_line_ok; [|apply Hc]|].
    intros l _. by apply reads_ret. }
  intros here _. eapply then_say; [by apply reads_kern, enum_ok|]. intros ids Hids.
  eapply then_say; [apply reads_kern, ps_lines_ok; [done|]|].
  { destruct c; [|done]. rewrite Forall_forall in Hids |- *. intros j [_ Hj]%list_elem_of_filter. auto. }
  intros rest _. eapply (then_say _ _ _ (fun _ => True)); [by apply runs_gets|]. intros n _. apply say_ok.
Qed.

Lemma cmd_date_ok argv x : runs (cmd_date argv) x (told x).
Proof.
  unfold cmd_date. apply runs_bind. destruct (Rtc.rtc_format_total (clock x) (replicate 32 0)) as (b & [h []] & Hrun & Hb); [done|].
  exists b, (set_clock h x). split; [unfold on_clock; by rewrite Hrun|]. destruct (c_string_elem b Hb) as [s Hs].
  apply runs_bind. eapply runs_need; [exact Hs|]. unfold say, print. run. split; [done|]. by eexists h, _.
Qed.

Lemma cmd_meminfo_ok argv x : ready x -> runs (cmd_meminfo argv) x (told x).
Proof.
  intros [_ (bs & Hbs) _ _]. unfold cmd_meminfo. eapply (then_say _ _ _ (fun _ => True)); [by apply runs_gets|]. intros f _.
  eapply (then_say _ _ _ (fun _ => True)); [by apply runs_gets|]. intros u _. cbv zeta.
  eapply (then_say _ _ _ (fun _ => True)); [|intros [[a b] c] _; apply say_ok].
  apply reads_heap. eexists _, _. split; [apply Heap.heap_stats_exact, Hbs|done].
Qed.

Lemma user_rows_ok a n : Auth.auth_ok n a -> forall m i, 0 <= i -> i + Z.of_nat m <= 16 -> reads (user_rows m i) a (fun _ => True).
Proof.
  intros Ha. induction m as [|m IH]; intros i Hi Hm; cbn [user_rows]; [by apply reads_ret|].
  destruct (arr_get_in (Auth.g_users a) i) as [u Hu]; [rewrite (Auth.ak_len _ _ Ha); lia|].
  eapply (reads_bind _ _ _ (fun v => v = u)); [exists u, a; split; [by apply Auth.get_user_at|done]|]. intros v ->.
  destruct (Auth.user_at _ _ _ _ Ha Hu) as [Hok _]. destruct (Auth.name_of_ok _ Hok) as [Hs _].
  eapply (reads_bind _ _ _ (fun _ => True)).
  { destruct (Auth.active u); [|by apply reads_ret].
    eapply (reads_bind _ _ _ (fun _ => True)); [by eapply runs_need; [exact Hs|]|]. intros s _. by apply reads_ret. }
  intros row _. eapply reads_bind; [apply IH; lia|]. intros rows _. by apply reads_ret.
Qed.

Lemma auth_username_reads a n id : Auth.auth_ok n a -> reads (Auth.auth_username id) a (fun _ => True).
Proof.
  intros Ha. unfold Auth.auth_username. change (Z.to_nat Auth.MAX_USERS) with 16%nat.
  apply (runs_for_ret (fun _ t => t = a)); [done| |by intros t ->].
  intros j t Hj ->. destruct (arr_get_in (Auth.g_users a) j) as [u Hu]; [rewrite (Auth.ak_len _ _ Ha); lia|].
  apply runs_bind. exists u, a. split; [by apply Auth.get_user_at|].
  destruct (Auth.user_at _ _ _ _ Ha Hu) as [Hok _]. destruct (Auth.name_of_ok _ Hok) as [Hs _].
  destruct (Auth.active u && (Auth.uid u =? id)); [|by run]. apply runs_bind. eapply runs_need; [exact Hs|]. by run.
Qed.

Lemma cmd_users_ok argv x : ready x -> runs (cmd_users argv) x (told x).
Proof.
  intros [_ _ (n & Ha) _]. unfold cmd_users.
  eapply then_say; [apply reads_accounts; by apply (user_rows_ok _ _ Ha)|]. intros rows _.
  eapply (then_say _ _ _ (fun _ => True)); [by apply runs_gets|]. intros cnt _.
  eapply (then_say _ _ _ (fun _ => True)); [by apply runs_gets|]. intros cur _.
  eapply (then_say _ _ _ (fun _ => True)); [|intros who _; apply say_ok].
  destruct (cur <? 0); [by apply reads_ret|].
  eapply reads_bind; [by apply reads_accounts, (auth_username_reads _ _ _ Ha)|]. intros nm _. by apply reads_ret.
Qed.

Lemma cmd_log_ok argv x : ready x -> runs (cmd_log argv) x (told x).
Proof.
  intros [_ _ _ (txt & [_ _ (rest & Hb)])]. unfold cmd_log. eapply (then_say _ _ _ (fun r => r.2 = log_buf (kernel x))).
  { eexists _, x. split; [unfold on_kernel, log_read; cbn; by destruct x|done]. }
  intros [len buf] Hbuf. cbn [snd] in Hbuf. subst buf. rewrite Hb.
  destruct (c_string_elem (txt ++ 0 :: rest)) as [s Hs]; [set_solver|].
  eapply (then_say _ _ _ (fun _ => True)); [by eapply runs_need; [exact Hs|]|]. intros a _. apply say_ok.
Qed.

Lemma cmd_uptime_ok argv x : runs (cmd_uptime argv) x (told x).
Proof. unfold cmd_uptime. eapply (then_say _ _ _ (fun _ => True)); [by apply runs_gets|]. intros t _. apply say_ok. Qed.

(** The program a command line starts. *)
Definition launch_of (argv : list (list Z)) : option program :=
  match argv with
  | [] => None
  | name :: args =>
      if bool_decide (name = text "editor") || bool_decide (name = text "edit") then Run_editor <$> head args
      else if bool_decide (name = text "calc") then Some Run_calc
      else if bool_decide (name = text "test") then Some Run_tests
      else if bool_decide (name = text "top") then Some Run_top
      else if bool_decide (name = text "bench") then Some Run_benchmarks
      else if bool_decide (name = text "login") then Some Run_login
      else None
  end.

Lemma told_launch argv x (m : prog (shell H) (option program)) : launch_of argv = None -> runs m x (told x) ->
  runs m x (fun r x' => r = launch_of argv /\ kept x x').
Proof. intros -> Hm. exact Hm. Qed.

Lemma ret_launch argv x p : launch_of argv = p -> runs (mret p) x (fun r x' => r = launch_of argv /\ kept x x').
Proof. intros <-. apply runs_ret. split; [done|apply shell_kept_refl]. Qed.

Lemma cmd_editor_ok n args x : n = text "editor" \/ n = text "edit" ->
  runs (cmd_editor (n :: args)) x (fun r x' => r = launch_of (n :: args) /\ kept x x').
Proof. intros [-> | ->]; (destruct args as [|a args]; [apply told_launch; [done|apply say_ok]|by apply ret_launch]). Qed.

Lemma cmd_say_ok argv x : runs (cmd_help argv) x (told x) /\ runs (cmd_echo argv) x (told x) /\ runs (cmd_clear argv) x (told x) /\
  runs (cmd_reboot argv) x (told x) /\ runs (cmd_shutdown argv) x (told x).
Proof. split_and!; apply say_ok. Qed.

#[local] Hint Extern 1 (runs (cmd_help _) _ _) => apply cmd_say_ok : shell.
#[local] Hint Extern 1 (runs (cmd_echo _) _ _) => apply cmd_say_ok : shell.
#[local] Hint Extern 1 (runs (cmd_clear _) _ _) => apply cmd_say_ok : shell.
#[local] Hint Extern 1 (runs (cmd_reboot _) _ _) => apply cmd_say_ok : shell.
#[local] Hint Extern 1 (runs (cmd_shutdown _) _ _) => apply cmd_say_ok : shell.
#[local] Hint Opaque cmd_help cmd_echo cmd_clear cmd_reboot cmd_shutdown cmd_ps cmd_date cmd_meminfo cmd_users cmd_log cmd_uptime : shell.
#[local] Hint Resolve cmd_ps_ok cmd_date_ok cmd_meminfo_ok cmd_users_ok cmd_log_ok cmd_uptime_ok : shell.

Lemma handler_ok nm fn args x : ready x -> (nm, fn) ∈ @g_commands H HP ->
  runs (fn (nm :: args)) x (fun r x' => r = launch_of (nm :: args) /\ kept x x').
Proof.
  intros Hx Hin. unfold g_commands in Hin.
  repeat (apply elem_of_cons in Hin as [[= -> ->]|Hin]; [
    lazymatch goal with
    | |- runs (cmd_editor _) _ _ => apply cmd_editor_ok; auto
    | |- runs (cmd_calc _) _ _ => apply ret_launch; reflexivity
    | |- runs (cmd_test _) _ _ => apply ret_launch; reflexivity
    | |- runs (cmd_top _) _ _ => apply ret_launch; reflexivity
    | |- runs (cmd_bench _) _ _ => apply ret_launch; reflexivity
    | |- runs (cmd_login _) _ _ => apply ret_launch; reflexivity
    | _ => apply told_launch; [reflexivity|eauto 2 with shell]
    end|]).
  by apply elem_of_nil in Hin.
Qed.

Lemma dispatch_find (tbl : list (list Z * handler)) argv name : cname_ok name -> Forall (fun e => cname_ok e.1) tbl ->
  dispatch tbl argv name = match list_find (fun e => e.1 = name) tbl with
                           | Some (_, (_, fn)) => fn argv
                           | None => say (H := H) [Printf (nl "sh: %s: command not found") [Shell.str name]]
                           end.
Proof.
  intros Hn. induction 1 as [|[n fn] tbl Hn' _ IH]; [done|]. cbn [dispatch list_find fst].
  unfold sh_strcmp. rewrite strcmp_eq by done. case_decide as Hd.
  - by rewrite bool_decide_eq_true_2.
  - rewrite bool_decide_eq_false_2 by congruence. rewrite IH. by destruct (list_find _ tbl) as [[? [? ?]]|].
Qed.

Lemma commands_named : Forall (fun e => cname_ok e.1) (@g_commands H HP).
Proof. unfold g_commands, cname_ok. repeat constructor. Qed.

Lemma words_chars (P : Z -> Prop) cs : Forall P cs -> Forall (Forall P) (words cs).
Proof.
  intros Hc. enough (Forall (Forall P) (pieces cs)) as Hp.
  { unfold words. rewrite Forall_forall in Hp |- *. intros w [_ Hw]%list_elem_of_filter. auto. }
  induction Hc as [|c cs Hc _ IH]; cbn [pieces]; [by repeat constructor|].
  destruct (blank c); [by constructor|]. destruct (pieces cs) as [|w ws]; [by repeat constructor|].
  apply Forall_cons in IH as [? ?]. by repeat constructor.
Qed.

(** [shell_execute] on a line, through the reference tokenizer and a lookup in
    the table. *)
Definition execute_spec (argv : list (list Z)) : prog (shell H) (option program) :=
  match argv with
  | [] => mret None
  | name :: _ =>
      match list_find (fun e => e.1 = name) g_commands with
      | Some (_, (_, fn)) => fn argv
      | None => say [Printf (nl "sh: %s: command not found") [Shell.str name]]
      end
  end.

Lemma shell_execute_ok x cs junk : line x = cs ++ 0 :: junk -> cname_ok cs ->
  exists line', length line' = length (line x) /\ shell_execute x = execute_spec (take 16 (words cs)) (set_line line' x).
Proof.
  intros Hl Hc. destruct (shell_parse_ok cs junk SHELL_MAX_ARGS) as (l & idx & Hp & Hlen & Ha).
  { eapply Forall_impl; [exact Hc|]. cbn. lia. }
  exists l. split; [by rewrite Hl|]. unfold shell_execute, mbind, prog_bind, gets, need, modify. rewrite Hl, Hp. cbn [fmap option_fmap option_map].
  rewrite Ha. cbn [fmap option_fmap option_map]. change (Z.to_nat SHELL_MAX_ARGS) with 16%nat.
  destruct (take 16 (words cs)) as [|name args] eqn:E; [done|]. unfold execute_spec. rewrite dispatch_find; [done| |apply commands_named].
  pose proof (Forall_take _ 16 _ (words_chars _ _ Hc)) as Hw. rewrite E in Hw. by apply Forall_cons in Hw as [? _].
Qed.

Lemma execute_spec_ok argv x : ready x -> runs (execute_spec argv) x (fun r x' => r = launch_of argv /\ kept x x').
Proof.
  intros Hx. destruct argv as [|name args]; cbn [execute_spec]; [by apply runs_ret; split; [|apply shell_kept_refl]|].
  destruct (list_find _ _) as [[i [n fn]]|] eqn:E.
  - apply list_find_Some in E as (Hi & Hn & _). cbn [fst] in Hn. subst n. apply handler_ok; [done|]. by eapply list_elem_of_lookup_2.
  - apply told_launch; [|apply say_ok]. apply list_find_None in E.
    assert (forall i n fn, @g_commands H HP !! i = Some (n, fn) -> n <> name) as Hn.
    { intros i n fn Hin%list_elem_of_lookup_2. rewrite Forall_forall in E. by apply (E _ Hin). }
    pose proof (Hn 9%nat _ _ eq_refl). pose proof (Hn 10%nat _ _ eq_refl). pose proof (Hn 11%nat _ _ eq_refl).
    pose proof (Hn 12%nat _ _ eq_refl). pose proof (Hn 13%nat _ _ eq_refl). pose proof (Hn 14%nat _ _ eq_refl).
    pose proof (Hn 16%nat _ _ eq_refl). unfold launch_of. rewrite !bool_decide_eq_false_2 by congruence. done.
Qed.

(** A session on lists: the history it leaves and why the shell stopped.  Each
    line is typed from an empty one; a line that starts a program ends it. *)
Fixpoint session (fuel : nat) (hs : list (list Z)) (keys : list Z) : list (list Z) * stopped :=
  match fuel with
  | O => (hs, At_prompt)
  | S fuel =>
      match type_line hs keys (mk_edit [] (-1)) with
      | (_, None) => (hs, At_prompt)
      | (e, Some keys) =>
          let hs := remember (e_text e) hs in
          match launch_of (take 16 (words (e_text e))) with
          | Some p => (hs, Launched p keys)
          | None => session fuel hs keys
          end
      end
  end.

Lemma type_line_shorter hs keys : forall e e' ks, type_line hs keys e = (e', Some ks) -> (length ks < length keys)%nat.
Proof.
  induction keys as [|c keys IH]; intros e e' ks; cbn [type_line length]; [done|].
  destruct (c =? 0); [intros Ht%IH; lia|]. destruct (c =? Keyboard.KEY_ENTER); [intros [= <- <-]; lia|]. intros Ht%IH. lia.
Qed.

Lemma ready_same x x' : kernel x' = kernel x -> accounts x' = accounts x -> ready x -> ready x'.
Proof. intros E1 E2 []. constructor; rewrite ?E1, ?E2; done. Qed.

(** The state between two lines. *)
Record idle x hs : Prop := {
  id_ready : ready x;
  id_hist : hist_rep x hs;
  id_line : length (line x) = 256%nat }.

(** The components behind the shell are as they were. *)
Definition same_parts x x' : Prop := kernel x' = kernel x /\ accounts x' = accounts x.

Lemma same_parts_trans x1 x2 x3 : same_parts x1 x2 -> same_parts x2 x3 -> same_parts x1 x3.
Proof. unfold same_parts. intuition congruence. Qed.

(** A line is terminated, remembered and executed. *)
Lemma finish_line_ok x hs e : idle x hs -> line_rep x hs e -> e_text e <> [] ->
  runs (_ ← put_line (Z.of_nat (length (e_text e))) 0; l ← gets line; s ← need (c_string l); _ ← history_push s; shell_execute) x
    (fun r x' => r = launch_of (take 16 (words (e_text e))) /\ idle x' (remember (e_text e) hs) /\ same_parts x x').
Proof.
  intros [Hrd Hh Hlen] [_ _ _ Hok (rest & Hr)] Hne. apply runs_bind, put_line_ok; [done|destruct Hok; lia|].
  pose proof Hlen as Hlen'. rewrite Hr, length_app in Hlen'. destruct Hok as [Hok1 Hok2].
  destruct rest as [|r0 rest]; [cbn in Hlen'; lia|].
  assert (<[Z.to_nat (Z.of_nat (length (e_text e))) := 0]> (line x) = e_text e ++ 0 :: rest) as El.
  { rewrite Hr, Nat2Z.id. replace (length (e_text e)) with (length (e_text e) + 0)%nat at 1 by lia. by rewrite insert_app_r. }
  rewrite El. set (x1 := set_line (e_text e ++ 0 :: rest) x). run.
  assert (text_ok (e_text e)) as Hok by done. change (line x1) with (e_text e ++ 0 :: rest).
  eapply runs_need; [by apply c_string_app, text_ok_nonzero|]. run.
  eapply runs_mono; [apply (history_push_ok x1 hs (e_text e)); [by apply (hist_rep_same x)|done]|].
  intros [] x2 (Hh2 & Hl2 & _ & Hk2 & Ha2 & _).
  destruct (shell_execute_ok x2 (e_text e) rest) as (l3 & Hl3 & He); [by rewrite Hl2| |].
  { eapply Forall_impl; [exact Hok1|]. cbn. lia. }
  unfold runs. rewrite He. eapply runs_mono; [apply execute_spec_ok; by apply (ready_same x)|].
  intros r x3 (-> & h & o & ->). split; [done|]. split; [|done]. constructor.
  - by apply (ready_same x).
  - destruct Hh2. by constructor.
  - cbn. rewrite Hl3, Hl2. cbn. rewrite length_app. cbn in Hlen' |- *. lia.
Qed.

Lemma shell_loop_ok fuel : forall x hs keys, idle x hs -> (length keys < fuel)%nat ->
  runs (shell_loop fuel keys) x (fun r x' => let '(hs', r') := session fuel hs keys in r = r' /\ idle x' hs' /\ same_parts x x').
Proof.
  induction fuel as [|fuel IH]; intros x hs keys Hx Hf; [lia|]. cbn [shell_loop session]. unfold print. run.
  destruct Hx as [Hrd Hh Hl]. apply put_line_ok; [done|lia|]. run. set (x1 := set_nav _ _).
  assert (line_rep x1 hs (mk_edit [] (-1))) as Hlr.
  { constructor; cbn; [done|lia|by rewrite length_insert|by split; [constructor|cbn; lia]|by eexists]. }
  eapply runs_mono; [apply (shell_read_line_ok keys x1 hs (mk_edit [] (-1))); [by apply (hist_rep_same x)|done]|].
  intros r x2. cbv beta. pose proof (type_line_shorter hs keys (mk_edit [] (-1))) as Hlt.
  destruct (type_line hs keys (mk_edit [] (-1))) as [e [ks|]]; intros (-> & Hlr2 & Hs2 & _); cbn [fmap option_fmap option_map].
  2: { run. split; [done|]. split; [|by destruct Hs2 as (_ & _ & _ & E1 & E2 & _)]. constructor; [|by apply (hist_rep_same x1), (hist_rep_same x)|by apply (lr_len _ _ _ Hlr2)].
       destruct Hs2 as (_ & _ & _ & E1 & E2 & _). by apply (ready_same x). }
  assert (same_parts x x2) as Hp2 by (by destruct Hs2 as (_ & _ & _ & E1 & E2 & _)).
  assert (forall y, same_parts x2 y -> forall ks hs, idle y hs -> (length ks < fuel)%nat ->
    runs (shell_loop fuel ks) y (fun r x' => let '(hs', r') := session fuel hs ks in r = r' /\ idle x' hs' /\ same_parts x x')) as Hgo.
  { intros y Hy ks' hs0 Hi' Hf'. eapply runs_mono; [by apply IH|]. intros r y'. cbv beta. destruct (session fuel hs0 ks').
    intros (? & ? & ?). split_and!; try done. by do 2 (eapply same_parts_trans; [done|]). }
  specialize (Hlt _ _ eq_refl). assert (idle x2 hs) as Hi2.
  { constructor; [|by apply (hist_rep_same x1), (hist_rep_same x)|by apply (lr_len _ _ _ Hlr2)].
    destruct Hs2 as (_ & _ & _ & E1 & E2 & _). by apply (ready_same x). }
  destruct (decide (e_text e = [])) as [Ee|Ee].
  - rewrite Ee. apply runs_bind. apply put_line_ok; [by destruct Hi2|cbn; lia|]. cbn [length Z.of_nat Z.eqb].
    change (launch_of (take 16 (words []))) with (@None program). cbv zeta iota.
    assert (remember [] hs = hs) as -> by (unfold remember; by rewrite bool_decide_eq_true_2 by auto).
    apply Hgo; [done| |lia]. destruct Hi2. constructor; [by apply (ready_same x2)|by apply (hist_rep_same x2)|cbn; by rewrite length_insert].
  - destruct (finish_line_ok x2 hs e Hi2 Hlr2 Ee) as (r & x3 & Hrun & -> & Hi3 & Hp3).
    unfold runs, mbind, prog_bind in Hrun |- *. destruct (put_line _ 0 x2) as [[[] x4]|]; [|done].
    rewrite (proj2 (Z.eqb_neq _ 0)) by (destruct (e_text e); [done|cbn; lia]). cbn [gets] in *.
    destruct (need (c_string (line x4)) x4) as [[s x5]|]; [|done]. destruct (history_push s x5) as [[[] x6]|]; [|done].
    rewrite Hrun. destruct (launch_of _) as [p|]; [eexists _, _; split; [done|]; split_and!; [done|done|by eapply same_parts_trans]|]. apply Hgo; [done|done|lia].
Qed.

End commands.

(** * Properties *)

(** C27: [shell_execute] cuts the line into words at spaces and tabs, writes only
    inside the line buffer, and runs the handler whose name is the first word
    on the first sixteen words; an unknown name is reported and an empty line
    does nothing. *)
Theorem shell_executes {H} {HP : PortIO H} (x : shell H) cs junk :
  line x = cs ++ 0 :: junk -> Forall (fun c => 0 < c < 256) cs ->
  exists line', length line' = length (line x) /\
    shell_execute x = match take 16 (words cs) with
                      | [] => Some (None, set_line line' x)
                      | name :: args =>
                          match list_find (fun e => e.1 = name) g_commands with
                          | Some (_, (_, fn)) => fn (name :: args) (set_line line' x)
                          | None => Some (None, set_out (out x ++ [Printf (text "sh: %s: command not found" ++ [10]) [AStr (Some name)]])
                                                  (set_line line' x))
                          end
                      end.
Proof.
  intros Hl Hc. destruct (shell_execute_ok x cs junk Hl Hc) as (line' & Hlen & ->). exists line'. split; [done|].
  destruct (take 16 (words cs)) as [|name args]; [done|]. cbn [execute_spec].
  by destruct (list_find _ _) as [[? [? ?]]|].
Qed.

(** C15: from a booted system any keys run the shell to the next wait or to a
    program start without leaving an array: every line is edited, recalled,
    remembered and executed as the session on lists says (history of sixteen
    lines, newest first, without immediate repeats), and the process table,
    memory, log and accounts the commands read are not changed. *)
Theorem shell_session_refines {H} {HP : PortIO H} (x : shell H) hs keys : idle x hs ->
  runs (shell_resume keys) x (fun r x' =>
    let '(hs', r') := session (S (length keys)) hs keys in r = r' /\ idle x' hs' /\
    kernel x' = kernel x /\ accounts x' = accounts x).
Proof. intros Hx. apply shell_loop_ok; [done|lia]. Qed.
(** A shell after boot. *)
Module DemoShell.
Export Rtc.Rtc.DemoClock.

Definition booted : shell Z :=
  mk_shell (replicate 16 (replicate 256 0)) 0 0 (-1) (replicate 256 7)
    (mk_kstate (Process.boot_kern true Sched.SCHED_FCFS) (Pmm.mk_pmm [] 0 0 0) Heap.boot_heap1 0
               (replicate (Z.to_nat LOG_BUF_SIZE) 0) 0)
    Auth.boot_auth 0 [].

Lemma booted_procs : procs_ok (Process.boot_kern true Sched.SCHED_FCFS).
Proof.
  split.
  - split; vm_compute; [reflexivity|by split].
  - assert (Sched.s_pcbs (Process.k_sched (Process.boot_kern true Sched.SCHED_FCFS)) = Process.boot_pcbs true) as -> by (vm_compute; reflexivity).
    unfold Process.boot_pcbs. cbn [Pcb.pcb_table]. apply Forall_fmap, Forall_true. intros i. by eexists.
  - intros i Hi. vm_compute in Hi. injection Hi as <-. by split; vm_compute.
Qed.

Lemma booted_idle : idle booted [].
Proof.
  split; [split|split|].
  - apply booted_procs.
  - eexists. apply Heap.boot_heap1_rep.
  - eexists. apply Auth.boot_ok.
  - exists []. split; [apply length_replicate|done|]. exists (replicate 4095 0). vm_compute. reflexivity.
  - apply length_replicate.
  - apply Forall_replicate, length_replicate.
  - done.
  - cbn. lia.
  - cbn. lia.
  - intros k cs Hk. by rewrite lookup_nil in Hk.
  - apply length_replicate.
Qed.

Definition typed (s : string) : list Z := text s ++ [Keyboard.KEY_ENTER].
End DemoShell.
Import DemoShell.

Lemma shell_executes_witness :
  runs shell_execute (set_line (text " echo  hi" ++ 0 :: replicate 246 7) booted) (fun r x =>
    r = None /\ out x = [Printf (text "%s") [AStr (Some (text "hi"))]; Putchar 10]).
Proof.
  destruct (shell_executes (set_line (text " echo  hi" ++ 0 :: replicate 246 7) booted) (text " echo  hi") (replicate 246 7))
    as (line' & _ & Hrun).
  - reflexivity.
  - repeat constructor; lia.
  - change (take 16 (words (text " echo  hi"))) with [text "echo"; text "hi"] in Hrun.
    eexists _, _. split; [exact Hrun|]. split; reflexivity.
Defined.

Lemma shell_session_refines_witness :
  runs (shell_resume (typed "echo hi" ++ [Keyboard.KEY_UP] ++ typed "!" ++ typed "calc" ++ [65])) booted (fun r x =>
    r = Launched Run_calc [65] /\ idle x [text "calc"; text "echo hi!"; text "echo hi"]).
Proof.
  eapply runs_mono; [apply (shell_session_refines booted []); apply booted_idle|]. intros r x.
  assert (session (S (length (typed "echo hi" ++ [Keyboard.KEY_UP] ++ typed "!" ++ typed "calc" ++ [65]))) []
            (typed "echo hi" ++ [Keyboard.KEY_UP] ++ typed "!" ++ typed "calc" ++ [65]) =
          ([text "calc"; text "echo hi!"; text "echo hi"], Launched Run_calc [65])) as -> by (vm_compute; reflexivity).
  intros (? & ? & _). done.
Defined.


End Shell.
