(* ===== verification/System.v ===== *)
(** Components put together: the editor on the system calls on the file system
    on a RAM disk, run on concrete input. *)
From stdpp Require Import strings.
From S2P Require Import Prelude Interfaces RamDisk FsDisk FsApi Console Editor Syscall.
#[local] Open Scope Z_scope.

Module System.
Import Console RamDisk.

(** The editor's static variables at boot; its path and text arrays are at the
    given addresses when a call passes them. *)
#[local] Instance files_at : FileCalls (Syscall.sys ram_disk) := Syscall.syscall_files 0x300000 0x310000.

Definition fresh_editor (w : Syscall.sys ram_disk) : Editor.editor (Syscall.sys ram_disk) :=
  Editor.mk_editor (replicate (Z.to_nat 8192) 0) 0 0 0 (replicate 64 0) false (replicate 80 0)
    (mk_console (replicate 2000 0) 0 0 15) w.

(** A formatted disk and an empty descriptor table. *)
Definition booted : Syscall.sys ram_disk :=
  Syscall.boot_sys (match FsApi.fs_init FsApi.ram_boot with Some (_, x) => x | None => FsApi.ram_boot end).

Definition plain (s : string) : list Editor.key := (fun c => (c, 0)) <$> text s.

(** Type a text into "/n", save it with Ctrl-S and leave with Ctrl-X; then open
    the file again and leave at once. *)
Definition edit_twice : option (list Z * list Z) :=
  '(_, e1) ← Editor.editor_open (text "/n") (plain "one" ++ [(13, 0)] ++ plain "two" ++ [(115, 1); (120, 1)]) (replicate 64 0)
              (fresh_editor booted);
  '(_, e2) ← Editor.editor_open (text "/n") [(120, 1)] (replicate 64 0) (fresh_editor (Editor.files e1));
  Some (Editor.contents e1, Editor.contents e2).

Example edit_save_reopen : edit_twice = Some (text "one" ++ [10] ++ text "two", text "one" ++ [10] ++ text "two").
Proof. vm_compute. reflexivity. Qed.

End System.
