(* ===== verification/Boot.v ===== *)
(** The kernel's entry (src/kernel/kernel.c): [kernel_main] initialises every
    component in order, runs the login, creates the demo processes, yields and
    enters the shell.

    The state holds the static variables of all components.  [a_out] collects
    the console calls of kernel.c, of the interrupt and system-call setup, of
    login and shell; the messages of process, file system and scheduler code
    are not part of it.  The disk is a device of its own, the other hardware
    one state behind the ports. *)
From stdpp Require Import strings.
From S2P Require Import Prelude Interfaces Mem Bytes Pmm Heap Vmm Pcb Queue Sched Process RamDisk FsDisk FsFile FsDir FsApi Ports Keyboard Console Cstr Interrupt Auth Syscall Rtc Observe Shell Frame.
#[local] Open Scope Z_scope.

Module Boot.
Import Console Observe Frame.

Section kernel.
Context {H : Type} {HP : PortIO H} {D : Type} {HD : BlockDevice D}.

Record ares := mk_ares {
  a_hw : H;
  a_idt : list Interrupt.idt_entry;
  a_isrs : list (option Interrupt.isr);
  a_ticks : Z;
  a_kbd : Keyboard.kbd;
  a_kern : Process.kern;
  a_fdt : list Syscall.syscall_fd;
  a_fs : FsDisk.fs D;
  a_vmm : Vmm.vmm Pmm.pmm;
  a_heap : Heap.heap;
  a_auth : Auth.auth;
  a_log : list Z * Z;
  a_history : list (list Z) * Z * Z * Z;
  a_out : list console_call }.

Definition set_machine (x : H * Interrupt.machine) s :=
  mk_ares x.1 (Interrupt.idt x.2) (Interrupt.isr_handlers x.2) (Interrupt.timer_ticks x.2) (Interrupt.m_kbd x.2)
    (Process.set_sched (Interrupt.m_sched x.2) (a_kern s)) (a_fdt s) (a_fs s) (a_vmm s) (a_heap s) (a_auth s) (a_log s)
    (a_history s) (Interrupt.out x.2).
Definition set_sys (x : Syscall.sys D) s :=
  mk_ares (a_hw s) (a_idt s) (a_isrs s) (Syscall.timer_ticks x) (a_kbd s) (Syscall.s_kern x) (Syscall.fd_table x)
    (Syscall.s_fs x) (a_vmm s) (a_heap s) (a_auth s) (a_log s) (a_history s) (Syscall.out x).
Definition set_kern x s :=
  mk_ares (a_hw s) (a_idt s) (a_isrs s) (a_ticks s) (a_kbd s) x (a_fdt s) (a_fs s) (a_vmm s) (a_heap s) (a_auth s) (a_log s) (a_history s) (a_out s).
Definition set_fs x s :=
  mk_ares (a_hw s) (a_idt s) (a_isrs s) (a_ticks s) (a_kbd s) (a_kern s) (a_fdt s) x (a_vmm s) (a_heap s) (a_auth s) (a_log s) (a_history s) (a_out s).
Definition set_vmm x s :=
  mk_ares (a_hw s) (a_idt s) (a_isrs s) (a_ticks s) (a_kbd s) (a_kern s) (a_fdt s) (a_fs s) x (a_heap s) (a_auth s) (a_log s) (a_history s) (a_out s).
Definition set_heap x s :=
  mk_ares (a_hw s) (a_idt s) (a_isrs s) (a_ticks s) (a_kbd s) (a_kern s) (a_fdt s) (a_fs s) (a_vmm s) x (a_auth s) (a_log s) (a_history s) (a_out s).
Definition set_auth x s :=
  mk_ares (a_hw s) (a_idt s) (a_isrs s) (a_ticks s) (a_kbd s) (a_kern s) (a_fdt s) (a_fs s) (a_vmm s) (a_heap s) x (a_log s) (a_history s) (a_out s).
Definition set_out x s :=
  mk_ares (a_hw s) (a_idt s) (a_isrs s) (a_ticks s) (a_kbd s) (a_kern s) (a_fdt s) (a_fs s) (a_vmm s) (a_heap s) (a_auth s) (a_log s) (a_history s) x.
Definition set_hw x s :=
  mk_ares x (a_idt s) (a_isrs s) (a_ticks s) (a_kbd s) (a_kern s) (a_fdt s) (a_fs s) (a_vmm s) (a_heap s) (a_auth s) (a_log s) (a_history s) (a_out s).
Definition set_kbd x s :=
  mk_ares (a_hw s) (a_idt s) (a_isrs s) (a_ticks s) x (a_kern s) (a_fdt s) (a_fs s) (a_vmm s) (a_heap s) (a_auth s) (a_log s) (a_history s) (a_out s).

(** A component's code on its part [get] of the state. *)
Definition on {X A} (get : ares -> X) (put : X -> ares -> ares) (m : prog X A) : prog ares A := fun s =>
  match m (get s) with Some (a, x) => Some (a, put x s) | None => None end.

Definition machine_of s : H * Interrupt.machine :=
  (a_hw s, Interrupt.mk_machine (a_idt s) (a_isrs s) (a_ticks s) (Process.k_sched (a_kern s)) (a_kbd s) (a_out s)).
Definition sys_of s : Syscall.sys D := Syscall.mk_sys (a_fdt s) (a_fs s) (a_kern s) (a_ticks s) (a_out s).
Definition set_frames x s : ares :=
  let v := a_vmm s in set_vmm (Vmm.mk_vmm (Vmm.vmm_cr3 v) (Vmm.hw_cr3 v) (Vmm.vmm_mem v) x (Vmm.vmm_flushed v)) s.

Definition shell_of (line : list Z) s : Shell.shell H :=
  let '(h, count, head, nav) := a_history s in
  Shell.mk_shell h count head nav line
    (mk_kstate (a_kern s) (Vmm.vmm_frames (a_vmm s)) (a_heap s) (a_ticks s) (a_log s).1 (a_log s).2)
    (a_auth s) (a_hw s) (a_out s).
Definition set_shell (x : Shell.shell H) s : ares :=
  let k := Shell.kernel x in
  set_frames (o_pmm k) (mk_ares (Shell.clock x) (a_idt s) (a_isrs s) (timer_ticks k) (a_kbd s) (o_kern k) (a_fdt s) (a_fs s)
    (a_vmm s) (o_heap k) (Shell.accounts x) (log_buf k, log_pos k)
    (Shell.history x, Shell.history_count x, Shell.history_head x, Shell.history_nav x) (Shell.out x)).

Definition say (cs : list console_call) : prog ares unit := modify (fun s => set_out (a_out s ++ cs) s).
Definition cyan : console_call := SetColor VGA_LIGHT_CYAN VGA_BLACK.
Definition writeline (s : string) : console_call := Writeline (text s).

Definition on_kern {A} : prog Process.kern A -> prog ares A := on a_kern set_kern.

(** The addresses that come from the linker: the interrupt stubs, the ends of
    the kernel image, the stacks, and the entry points of the processes; [ret]
    is the address after the call of [context_switch]. *)
Record image := mk_image {
  isr_stub_table : list Z; _kernel_start : Z; _kernel_end : Z; process_stacks : Z;
  idle_process : Z; demo_task_fcfs : Z; demo_task_rr : Z; demo_task_priority : Z; demo_task_mlq : Z; ret : Z }.
Variable img : image.

Definition scheduler_init (id : Z) : prog ares unit :=
  _ ← on_kern (Process.on_sched (Sched.scheduler_set id));
  say [Printf (nl "[sched] Scheduler: %s initialized") [AStr (Some (text (Sched.scheduler_name id)))]].

(** [kernel_main] up to the line that says the system is ready. *)
Definition banner : list console_call :=
  [Clear; SetColor VGA_LIGHT_GREEN VGA_BLACK; writeline ""; writeline "  AAA   RRRR   EEEEE  SSSSS";
   writeline " A   A  R   R  E      S    "; writeline " AAAAA  RRRR   EEEE   SSSSS"; writeline " A   A  R  R   E          S";
   writeline " A   A  R   R  EEEEE  SSSSS"; writeline ""; SetColor VGA_WHITE VGA_BLACK;
   writeline "========================================"; writeline "  ARES OS v0.1.0 - x86_64 Long Mode";
   writeline "  A Modern UNIX-Inspired Operating System"; writeline "========================================"; writeline "";
   cyan; writeline "[kernel] Kernel loaded successfully at 0x100000";
   Printf (nl "[kernel] Architecture: %s") [AStr (Some (text "x86_64"))];
   Printf (nl "[kernel] Version: %s") [AStr (Some (text "0.1.0"))]; writeline ""]%string.

Definition init_traps : prog ares unit :=
  _ ← say [cyan; writeline "[int] Initializing IDT..."];
  _ ← on machine_of set_machine (Ports.dev (Interrupt.interrupt_init (isr_stub_table img)));
  _ ← say [cyan; writeline "[irq] Initializing PIC..."];
  _ ← on machine_of set_machine Interrupt.irq_init;
  _ ← say [cyan; writeline "[syscall] Initializing syscall interface..."];
  _ ← on sys_of set_sys Syscall.syscall_init;
  on machine_of set_machine (Ports.dev Syscall.init_vector).

Definition init_tasks : prog ares unit :=
  _ ← say [cyan; writeline "[proc] Initializing process manager..."];
  _ ← on_kern (Process.process_init (process_stacks img) (idle_process img));
  _ ← say [cyan; writeline "[sched] Initializing default scheduler..."];
  scheduler_init Sched.SCHED_FCFS.

Definition init_memory : prog ares unit :=
  _ ← say [cyan; writeline "[pmm] Initializing physical memory manager..."];
  _ ← on (Vmm.vmm_frames ∘ a_vmm) set_frames (Pmm.pmm_init (_kernel_start img) (_kernel_end img) 0x4000000);
  _ ← say [cyan; writeline "[vmm] Initializing virtual memory manager..."];
  _ ← on a_vmm set_vmm Vmm.vmm_init;
  _ ← say [cyan; writeline "[heap] Initializing kernel heap..."];
  on a_heap set_heap Heap.heap_init.

Definition init_devices : prog ares unit :=
  _ ← say [cyan; writeline "[kbd] Initializing keyboard driver..."];
  _ ← on (fun s => (a_hw s, a_kbd s)) (fun x s => set_kbd x.2 (set_hw x.1 s)) Keyboard.keyboard_init;
  _ ← say [cyan; writeline "[rtc] Initializing RTC..."];
  _ ← on (fun s => (a_hw s, tt)) (fun x s => set_hw x.1 s) Rtc.rtc_init;
  _ ← say [cyan];
  _ ← on a_fs set_fs FsApi.fs_init;
  _ ← say [cyan; writeline "[auth] Initializing user accounts..."];
  on a_auth set_auth Auth.auth_init.

Definition init_components : prog ares unit :=
  _ ← say banner;
  _ ← init_traps;
  _ ← init_tasks;
  _ ← init_memory;
  _ ← init_devices;
  say [SetColor VGA_LIGHT_GREEN VGA_BLACK; writeline ""; writeline "========================================";
       writeline "  ARES OS is ready."; writeline "========================================"; writeline ""]%string.

(** The demo processes, and the switch to the first of them: where execution
    goes on ([None]: plainly after the call). *)
Definition start_demos : prog ares (option Z) :=
  _ ← say [SetColor VGA_LIGHT_GREEN VGA_BLACK; writeline "[kernel] Creating FCFS demo processes..."];
  _ ← on_kern (Process.process_create (process_stacks img) (text "p1") (demo_task_fcfs img) Pcb.PRIORITY_NORMAL);
  _ ← on_kern (Process.process_create (process_stacks img) (text "p2") (demo_task_rr img) Pcb.PRIORITY_NORMAL);
  _ ← on_kern (Process.process_create (process_stacks img) (text "p3") (demo_task_priority img) Pcb.PRIORITY_NORMAL);
  _ ← on_kern (Process.process_create (process_stacks img) (text "p4") (demo_task_mlq img) Pcb.PRIORITY_NORMAL);
  i ← on_kern (Process.process_by_pid 1);
  _ ← on_kern (Process.put_current i);
  _ ← say [SetColor VGA_WHITE VGA_BLACK; writeline "[kernel] Starting scheduling demos..."];
  on_kern (Process.yield (ret img)).

(** The line with the scheduler's counters; the local variable is
    indeterminate without a scheduler. *)
Definition final_stats : prog ares unit :=
  s ← on_kern (Process.on_sched Sched.scheduler_get_stats);
  s ← need s;
  say [Printf (nl "[sched] Final: switches=%u, completed=%u") [AVal (u32 (Sched.context_switches s)); AVal (u32 (Sched.processes_completed s))]].

(** How the kernel goes on: the login waits or has locked the machine,
    execution continues at another address, or the shell stopped. *)
Inductive kernel_end := Login_waits | Login_locked | Elsewhere (a : Z) | In_shell (r : Shell.stopped).

(** From the login to the end; [line] is the shell's indeterminate array. *)
Definition after_login (keys line : list Z) : prog ares kernel_end :=
  a ← start_demos;
  let back := match a with None => true | Some a => a =? ret img end in
  if negb back then mret (Elsewhere (default 0 a))
  else
    _ ← say [SetColor VGA_GREEN VGA_BLACK; writeline ""; writeline "[kernel] All scheduling demos completed."];
    _ ← final_stats;
    r ← on (shell_of line) set_shell (Shell.shell_main keys);
    mret (In_shell r).

(** [keys] are all keys typed; [ubuf] and [pbuf] are the indeterminate local
    arrays of the login. *)
Definition kernel_main (keys ubuf pbuf line : list Z) : prog ares kernel_end :=
  _ ← init_components;
  '(r, calls) ← on a_auth set_auth (Auth.auth_run_login keys ubuf pbuf);
  _ ← say calls;
  match r with
  | Auth.WaitingKeys => mret Login_waits
  | Auth.Locked => mret Login_locked
  | Auth.LoggedIn keys => after_login keys line
  end.

End kernel.
#[global] Arguments ares H D : clear implicits.

(** * Interrupt set-up *)

(** The interrupt set-up touches neither the scheduler, the keyboard's
    variables nor the tick count; [irq_init] leaves the gates alone. *)
Definition rest_of (m : Interrupt.machine) := (Interrupt.m_sched m, Interrupt.m_kbd m, Interrupt.timer_ticks m).

Lemma interrupt_init_keeps stubs : keeps rest_of (Interrupt.interrupt_init stubs).
Proof. unfold Interrupt.interrupt_init, Interrupt.idt_set_descriptor, Interrupt.print. eauto 10 with keeps. Qed.

Lemma init_vector_keeps : keeps rest_of Syscall.init_vector.
Proof. unfold Syscall.init_vector, Interrupt.interrupt_register_handler, Interrupt.interrupt_set_dpl. cbv zeta. eauto 10 with keeps. Qed.

Lemma irq_init_keeps {H} {HP : PortIO H} : keeps ((fun m => (rest_of m, Interrupt.idt m)) ∘ snd) (Interrupt.irq_init (H := H)).
Proof.
  unfold Interrupt.irq_init, Interrupt.interrupt_register_handler, Interrupt.print.
  repeat (apply keeps_bind; [eauto 10 with keeps|intros _]). eauto 10 with keeps.
Qed.

(** * The processes at boot *)

Import Pcb Queue Sched Process.

(** The process table before [process_init]: names are terminated strings. *)
Definition table_fresh (x : pcbs) : Prop :=
  length (pcb_table x) = Z.to_nat MAX_PROCESSES /\
  forall i p, arr_get (pcb_table x) i = Some p -> name_ok (name p) /\ 0 <= priority p.

Lemma pcb_init_table_ok x : table_fresh x ->
  runs pcb_init_table x (fun _ x' => table_wf x' /\ core_inv None [] x' 0 1 /\ forall i, slot_ok i -> slot_free x' i = true).
Proof.
  intros [Hlen Hnm]. unfold pcb_init_table. run. set (x0 := set_map _ x).
  eapply runs_mono; [apply (runs_for (fun j t => slot_free_map t = bnot 64 0 /\ table_fresh t /\
    forall i p, i < j -> arr_get (pcb_table t) i = Some p -> state p = PROCESS_TERMINATED))|].
  - split_and!; [done|by split|]. intros i p Hi Hp. apply arr_get_Some in Hp. lia.
  - intros j t Hj (Hm & [Hl Ht] & Hst). destruct (arr_get_in (pcb_table t) j) as [p Hp]; [rewrite Hl; unfold MAX_PROCESSES in *; lia|].
    pose proof (arr_get_Some _ _ _ Hp) as Hjr. eapply runs_upd_pcb; [exact Hp|]. cbn [slot_free_map pcb_table set_table].
    split_and!; [done| |].
    + split; cbn [pcb_table set_table]; [by rewrite length_insert|]. cbn [pcb_table set_table]. intros i q. rewrite table_upd_get by done.
      destruct (Z.eqb_spec i j) as [->|]; [|apply Ht]. intros [= <-]. cbn. by eapply Ht.
    + intros i q Hi. rewrite table_upd_get by done. destruct (Z.eqb_spec i j) as [->|]; [by intros [= <-]|]. apply Hst. lia.
  - intros [] t (Hm & [Hl Ht] & Hst). rewrite Z.add_0_l in Hst.
    assert (Hf : forall i, slot_ok i -> slot_free t i = true).
    { intros i Hi. unfold slot_ok, MAX_PROCESSES in Hi. unfold slot_free. rewrite Hm, testbit_bnot, Z.bits_0 by lia. by zcases. }
    assert (Hwf : table_wf t) by (split; [done|rewrite Hm; by vm_compute]).
    split_and!; [done| |done]. split; try (done || lia); [split; constructor| | |].
    + intros i Hi. rewrite (Hf i Hi). set_solver.
    + intros i st pd pr nm Hc. pose proof (core_slot _ _ _ Hwf Hc) as Hi. rewrite (Hf i Hi). unfold core_of in Hc.
      destruct (arr_get (pcb_table t) i) as [p|] eqn:Hp; [|done]. cbn in Hc. unfold core in Hc. simplify_eq.
      rewrite (Hst i p) by (unfold slot_ok in Hi; (lia || done)). destruct (Ht _ _ Hp). split_and!; done || set_solver.
    + intros i j si pd pi ni sj pj nj Hi Hj. rewrite (Hf i) by (by eapply core_slot). done.
Qed.
(** Naming the queued process [c] as the running one. *)
Lemma core_inv_take c l x cnt npid : core_inv None (c :: l) x cnt npid -> core_inv (Some c) l x cnt npid.
Proof.
  intros [[Hnd Hs] Hcur Hlive Hcore Hpid Hcnt Hnp]. apply NoDup_cons in Hnd as [Hcl Hnd]. inversion_clear Hs. split; try done.
  - intros d [= <-]. done.
  - intros i Hi. rewrite Hlive by done. rewrite elem_of_cons. split; [intros [?|[->|?]]; auto; done|intros [[= ->]|?]; auto].
  - intros i st pd pr nm Hi. destruct (Hcore _ _ _ _ _ Hi) as (? & Hin & ? & ? & ?). split_and!; try done. intros ?. apply Hin, elem_of_cons. by right.
  - rewrite Hcnt. cbn [length]. lia.
Qed.

(** A process in the table, by state, pid and name. *)
Definition proc_at (k : kern) (i : Z) (st : process_state) (n : Z) (nm : string) : Prop :=
  exists pr a, core_of (procs k) i = Some (st, n, pr, a) /\ c_string a = text nm.

(** [process_init] makes the idle process in slot 0; there is no scheduler
    yet, so it is in no queue. *)
Lemma process_init_ok stacks idle k :
  table_fresh (procs k) -> g_scheduler (k_sched k) = None -> 0 <= stacks -> stacks + MAX_PROCESSES * STACK_SIZE < 2 ^ 64 ->
  runs (process_init stacks idle) k (fun _ k' =>
    current_process (k_sched k') = None /\ blocked_queue k' = queue_init /\ table_wf (procs k') /\
    core_inv (Some 0) [] (procs k') 1 2 /\ process_count k' = 1 /\ next_pid k' = 2 /\ k_cpu k' = k_cpu k /\
    (forall i, slot_ok i -> slot_free (procs k') i = negb (i =? 0)) /\ proc_at k' 0 PROCESS_READY 1 "idle").
Proof.
  intros Hx Hg Hs0 Hs1. unfold process_init. run. apply runs_on_table. eapply runs_mono; [by apply pcb_init_table_ok|].
  intros [] x (Hwf & Hci & Hf). unfold put_current. run. apply runs_on_sched. run. set (k1 := set_count 0 _).
  apply process_create_run; try done.
  - intros i p Hp. eapply (ci_core _ _ _ _ _ Hci i (state p) (pid p) (priority p) (name p)). unfold core_of. change (procs k1) with x in Hp. by rewrite Hp.
  - intros Hfull. exfalso. specialize (Hfull 0). rewrite Hf in Hfull by (unfold slot_ok, MAX_PROCESSES; lia).
    discriminate Hfull. unfold slot_ok, MAX_PROCESSES; lia.
  - intros i dst k3 Hi Hfree Hlow Hdl Hstr Hcr. assert (Hi0 : i = 0).
    { destruct (Z.le_gt_cases i 0); [unfold slot_ok in Hi; lia|]. specialize (Hlow 0 ltac:(lia)).
      rewrite Hf in Hlow by (unfold slot_ok, MAX_PROCESSES; lia). done. }
    subst i. assert (Hk3 := cr_rest _ _ _ _ _ _ Hcr).
    assert (Hcore : forall j, core_of (procs k3) j = if j =? 0 then Some (PROCESS_READY, 1, PRIORITY_LOW, dst) else core_of x j)
      by (intros j; unfold core_of; rewrite (cr_get _ _ _ _ _ _ Hcr); by destruct (j =? 0)).
    unfold scheduler_add, g_ops. run. replace (g_scheduler (k_sched k3)) with (@None Z) by (by rewrite Hk3).
    cbn [mbind option_bind]. run. cbn [set_count set_sched k_sched]. split_and!; try done; try (by rewrite Hk3).
    + apply Hcr.
    + apply core_inv_take. change (core_inv None [0] (procs k3) (0 + 1) (1 + 1)).
      apply (core_inv_create 0 None [] [0] x (procs k3) 0 1 PRIORITY_LOW dst); try done. apply (cr_free _ _ _ _ _ _ Hcr).
    + intros i Hi'. change (slot_free (procs k3) i = negb (i =? 0)). rewrite (cr_free _ _ _ _ _ _ Hcr). rewrite (Hf i Hi' : slot_free (procs k1) i = true). by destruct (i =? 0).
    + exists PRIORITY_LOW, dst. split; [apply (Hcore 0)|]. by rewrite Hstr.
Qed.
(** The processes [names] stand in the first slots, READY with pids from 1;
    those after the first are queued in order, while [current_process] names
    none. *)
Record line_up (names : list string) (k : kern) : Prop := {
  lu_inv : proc_inv (as_current (Some 0) k) SCHED_FCFS (seqZ 1 (Z.of_nat (length names) - 1));
  lu_current : current_process (k_sched k) = None;
  lu_next : next_pid k = Z.of_nat (length names) + 1;
  lu_free i : slot_ok i -> slot_free (procs k) i = (Z.of_nat (length names) <=? i);
  lu_names j nm : names !! j = Some nm -> proc_at k (Z.of_nat j) PROCESS_READY (Z.of_nat j + 1) nm }.

Lemma line_up_create stacks nm entry names k :
  line_up names k -> (1 <= length names <= 60)%nat -> c_string (text nm) = text nm -> (length (text nm) <= 23)%nat ->
  0 <= stacks -> stacks + MAX_PROCESSES * STACK_SIZE < 2 ^ 64 ->
  runs (process_create stacks (text nm) entry PRIORITY_NORMAL) k (fun _ k' => line_up (names ++ [nm]) k' /\ k_cpu k' = k_cpu k).
Proof.
  intros [Hinv Hc Hn Hf Hnm] Hlen Hstr Hshort Hs0 Hs1.
  eapply runs_mono; [apply (process_create_gen _ _ _ _ _ _ _ _ Hinv); [done|lia|done|done]|]. intros [i|] k'.
  - intros (Hi & Hfree & Hlow & Hinv' & Hcore & (p & Hp & Hst & Hpid & Hpr & Hname & _) & Hf' & Hn' & _ & Hc' & Hcpu).
    assert (Hin : i = Z.of_nat (length names)).
    { rewrite Hf in Hfree by done. zbool. destruct (Z.le_gt_cases i (Z.of_nat (length names))); [lia|].
      specialize (Hlow (Z.of_nat (length names)) ltac:(lia)). rewrite Hf in Hlow by (unfold slot_ok, MAX_PROCESSES; lia). zbool; lia. }
    split; [|done]. split.
    + rewrite length_app. cbn [length]. change (sched_rank SCHED_FCFS) with (fun _ : Z => 0) in Hinv'. cbv beta in Hinv'.
      rewrite insert_rank_const in Hinv'. replace (Z.of_nat (length names + 1) - 1) with (Z.of_nat (length names) - 1 + 1) by lia.
      rewrite seqZ_app by lia. cbn [seqZ seq Z.to_nat fmap list_fmap]. replace (1 + (Z.of_nat (length names) - 1)) with i by lia.
      replace (Z.of_nat 0 + i) with i by lia. exact Hinv'.
    + congruence.
    + rewrite Hn', length_app. cbn [length]. lia.
    + intros j Hj. rewrite Hf', length_app. cbn [length]. rewrite Hf by done. zcases; lia || done.
    + intros j m [Hj|[Hj Hm]]%lookup_app_Some.
      * destruct (Hnm _ _ Hj) as (pr & a & Ha & ?). apply lookup_lt_Some in Hj. exists pr, a. rewrite Hcore, (proj2 (Z.eqb_neq _ _)) by lia. done.
      * apply list_lookup_singleton_Some in Hm as [? ->]. exists (priority p), (name p).
        replace (Z.of_nat j) with i by lia. unfold core_of. rewrite Hp. cbn. unfold core. rewrite Hst, Hpid, Hn, Hname, Hstr.
        split; [do 4 f_equal; lia|]. by apply take_ge.
  - intros [_ Hfull]. specialize (Hfull (Z.of_nat (length names))). rewrite Hf in Hfull by (unfold slot_ok, MAX_PROCESSES; lia).
    exfalso. specialize (Hfull ltac:(unfold slot_ok, MAX_PROCESSES; lia)). zbool. lia.
Qed.

(** [process_by_pid(1)] is the process in slot 0. *)
Lemma line_up_first nm names k : line_up (nm :: names) k -> runs (process_by_pid 1) k (fun r k' => r = Some 0 /\ k' = k).
Proof.
  intros H. destruct (lu_names _ _ H 0 nm) as (pr & a & Ha & _); [done|]. unfold process_by_pid, get_current. run.
  rewrite (lu_current _ _ H). run. apply runs_on_table. unfold core_of in Ha. destruct (arr_get _ _) as [p|] eqn:Hp; [|done].
  cbn in Ha. unfold core in Ha. injection Ha as Hst Hpid _ _.
  assert (Hact : active p = true) by (unfold active; by rewrite Hst). change (Z.of_nat 0) with 0 in *.
  eapply runs_mono; [apply pcb_by_pid_ok; apply (inv_wf _ _ _ (lu_inv _ _ H))|]. intros [i|] x (-> & HQ).
  - destruct HQ as (q & Hq & _ & _ & Hlow). split; [|by destruct k as [[] ? ? ? ? ?]]. f_equal. apply arr_get_Some in Hq.
    destruct (Z.le_gt_cases i 0); [lia|]. exfalso. by apply (Hlow 0 p).
  - exfalso. by apply (HQ 0 p).
Qed.
(** * Bringing the system up *)

Section bring_up.
Context {H : Type} {HP : PortIO H} {D : Type} {HD : BlockDevice D} {HL : BlockDeviceLaws D}.
Variable img : image.
Implicit Types (s : ares H D).

(** What the linker guarantees. *)
Record image_ok : Prop := {
  io_stubs : length (isr_stub_table img) = 256%nat /\ Forall (fun a => 0 <= a < 2 ^ 64) (isr_stub_table img);
  io_kernel : 0 <= _kernel_start img /\ 0 <= _kernel_end img < 2 ^ 64 - Pmm.PAGE_SIZE;
  io_stacks : 0 <= process_stacks img /\ process_stacks img + MAX_PROCESSES * STACK_SIZE < 2 ^ 64;
  io_ret : 0 <= ret img < 2 ^ (8 * 8) }.

(** The state in which [kernel_main] is entered: static variables are zero,
    memory and disk have any contents.  Probing the disk finds it. *)
Record loaded s : Prop := {
  ld_idt : length (a_idt s) = 256%nat;
  ld_isrs : a_isrs s = replicate 256 None;
  ld_kbd : a_kbd s = Keyboard.kbd_zero;
  ld_procs : table_fresh (procs (a_kern s));
  ld_sched : current_process (k_sched (a_kern s)) = None /\ g_scheduler (k_sched (a_kern s)) = None /\
             length (mlq_level_ticks (s_mlq (k_sched (a_kern s)))) = 4%nat;
  ld_cpu : cpu_ok (k_cpu (a_kern s));
  ld_fdt : length (a_fdt s) = 16%nat;
  ld_bitmaps : length (FsDisk.g_block_bitmap (a_fs s)) = 512%nat /\ length (FsDisk.g_inode_bitmap (a_fs s)) = 512%nat;
  ld_disk : runs bd_init (FsDisk.f_dev (a_fs s)) (fun _ d => bd_inv d);
  ld_frames : length (Pmm.pmm_bitmap (Vmm.vmm_frames (a_vmm s))) = 256%nat;
  ld_log : a_log s = (replicate (Z.to_nat LOG_BUF_SIZE) 0, 0);
  ld_history : a_history s = (replicate 16 (replicate 256 0), 0, 0, -1) }.

(** Updates of the state as one record. *)
Local Ltac fields :=
  lazy beta iota zeta delta [set_kern set_fs set_vmm set_heap set_auth set_out set_hw set_kbd set_frames
       a_hw a_idt a_isrs a_ticks a_kbd a_kern a_fdt a_fs a_vmm a_heap a_auth a_log a_history a_out fst snd].

Lemma runs_on {X A} get put (m : prog X A) s (Q : A -> ares H D -> Prop) :
  runs m (get s) (fun a x => Q a (put x s)) -> runs (on get put m) s Q.
Proof. intros (a & x & Hm & HQ). exists a, (put x s). split; [|done]. unfold on. by rewrite Hm. Qed.

Lemma runs_say cs s (Q : unit -> ares H D -> Prop) : Q tt (set_out (a_out s ++ cs) s) -> runs (say cs) s Q.
Proof. intros HQ. by apply runs_modify. Qed.

(** The vectors of the timer, the keyboard and the system calls have their
    handlers, and each gate leads to its stub. *)
Record traps_set (idt : list Interrupt.idt_entry) (isrs : list (option Interrupt.isr)) : Prop := {
  ts_timer : arr_get isrs 0x20 = Some (Some Interrupt.Isr_timer);
  ts_keyboard : arr_get isrs 0x21 = Some (Some Interrupt.Isr_keyboard);
  ts_syscall : arr_get isrs 0x80 = Some (Some Interrupt.Isr_syscall);
  ts_gates i a : arr_get (isr_stub_table img) i = Some a -> exists e, arr_get idt i = Some e /\ Interrupt.entry_address e = a }.

Lemma init_vector_ok m : length (Interrupt.isr_handlers m) = 256%nat -> length (Interrupt.idt m) = 256%nat ->
  runs Syscall.init_vector m (fun _ m' => ((forall i, arr_get (Interrupt.isr_handlers m') i =
       if i =? 0x80 then Some (Some Interrupt.Isr_syscall) else arr_get (Interrupt.isr_handlers m) i) /\
    (forall i, Interrupt.entry_address <$> arr_get (Interrupt.idt m') i = Interrupt.entry_address <$> arr_get (Interrupt.idt m) i)) /\
    rest_of m' = rest_of m).
Proof.
  intros Hh Hi. apply runs_keeps; [apply init_vector_keeps|]. unfold Syscall.init_vector, Interrupt.interrupt_register_handler, Interrupt.interrupt_set_dpl. run.
  pose proof (arr_set_in (Interrupt.isr_handlers m) 0x80 (Some Interrupt.Isr_syscall) ltac:(lia)) as Hs.
  eapply runs_need; [exact Hs|]. run. destruct (arr_get_in (Interrupt.idt m) 0x80 ltac:(lia)) as [e He].
  eapply runs_need; [exact He|]. cbv zeta. run. set (e' := Interrupt.mk_entry _ _ _ _ _ _ _).
  pose proof (arr_set_in (Interrupt.idt m) 0x80 e' ltac:(lia)) as Hs'. eapply runs_need; [exact Hs'|]. run. split.
  - intros i. exact (arr_get_set _ _ _ i _ Hs).
  - intros i. cbn [Interrupt.idt Interrupt.set_idt]. rewrite (arr_get_set _ _ _ i _ Hs').
    destruct (Z.eqb_spec i 0x80) as [->|]; [|done]. by rewrite He.
Qed.

Lemma syscall_init_ok (x : Syscall.sys D) : length (Syscall.fd_table x) = 16%nat ->
  runs Syscall.syscall_init x (fun _ x' => Syscall.table_ok (Syscall.fd_table x') /\ (forall n, Syscall.open_files x' n = None) /\
    (Syscall.s_fs x', Syscall.s_kern x', Syscall.timer_ticks x') = (Syscall.s_fs x, Syscall.s_kern x, Syscall.timer_ticks x)).
Proof.
  intros Hl. unfold Syscall.syscall_init. apply runs_bind.
  eapply runs_mono; [apply (runs_keeps (fun x => (Syscall.s_fs x, Syscall.s_kern x, Syscall.timer_ticks x)))|].
  { unfold Syscall.put_slot. eauto 10 with keeps. }
  - apply (runs_for (fun j t => length (Syscall.fd_table t) = 16%nat /\
      forall i y, i < j -> arr_get (Syscall.fd_table t) i = Some y -> y = Syscall.free_slot i)).
    + split; [done|]. intros i y Hi [? _]%arr_get_Some. lia.
    + intros j t Hj [Ht Hy]. change (Z.of_nat (Z.to_nat Syscall.SYSCALL_MAX_FDS)) with 16 in Hj. unfold Syscall.put_slot. run.
      pose proof (arr_set_in (Syscall.fd_table t) j (Syscall.free_slot j) ltac:(lia)) as Hs. eapply runs_need; [exact Hs|]. run.
      cbn [Syscall.fd_table Syscall.set_table]. split; [by rewrite length_insert|]. intros i y Hi.
      rewrite (arr_get_set _ _ _ i _ Hs). destruct (Z.eqb_spec i j) as [->|]; [by intros [= <-]|]. apply Hy. lia.
  - intros [] x' [[Hl' Hy] Hk]. unfold Syscall.print. run. cbn [Syscall.fd_table Syscall.set_out].
    assert (Hall : forall i y, arr_get (Syscall.fd_table x') i = Some y -> y = Syscall.free_slot i).
    { intros i y Hi. apply Hy; [|done]. apply arr_get_Some in Hi. change (Z.of_nat (Z.to_nat Syscall.SYSCALL_MAX_FDS)) with 16. lia. }
    split_and!; [split; [done|]| |exact Hk].
    + intros i y Hi. by rewrite (Hall _ _ Hi).
    + intros n. unfold Syscall.open_files. cbn [Syscall.fd_table Syscall.set_out].
      destruct (arr_get (Syscall.fd_table x') n) as [y|] eqn:E; [|done]. by rewrite (Hall _ _ E).
Qed.
(** The set-up of the gates does not change the size of the table. *)
Lemma gates_length stubs : keeps (fun m => length (Interrupt.idt m)) (Interrupt.interrupt_init stubs).
Proof.
  unfold Interrupt.interrupt_init, Interrupt.idt_set_descriptor, Interrupt.print. apply keeps_bind; [|eauto with keeps].
  apply keeps_for. intros j. apply keeps_bind; [eauto with keeps|]. intros a x [] x'. unfold mbind, prog_bind, gets, need.
  destruct (arr_set _ _ _) as [t|] eqn:E; [|done]. intros [= <-]. cbn [Interrupt.idt Interrupt.set_idt]. by eapply arr_set_length.
Qed.

Lemma register_length v x : keeps (fun m => length (Interrupt.isr_handlers m)) (Interrupt.interrupt_register_handler v x).
Proof.
  intros m [] m'. unfold Interrupt.interrupt_register_handler, mbind, prog_bind, gets, need.
  destruct (arr_set _ _ _) as [t|] eqn:E; [|done]. intros [= <-]. cbn [Interrupt.isr_handlers Interrupt.set_handlers]. by eapply arr_set_length.
Qed.

Lemma handlers_length : keeps ((fun m => length (Interrupt.isr_handlers m)) ∘ snd) (Interrupt.irq_init (H := H)).
Proof.
  unfold Interrupt.irq_init, Interrupt.print. repeat (apply keeps_bind; [auto using register_length with keeps|intros _]). auto with keeps.
Qed.

Lemma init_traps_ok s : image_ok -> loaded s ->
  runs (init_traps img) s (fun _ s' => exists h t i f o,
    s' = mk_ares h t i (a_ticks s) (a_kbd s) (a_kern s) f (a_fs s) (a_vmm s) (a_heap s) (a_auth s) (a_log s) (a_history s) o /\
    traps_set t i /\ Syscall.table_ok f /\ (forall n x, arr_get f n = Some x -> Syscall.in_use x = false)).
Proof.
  intros [[Hs Hs'] _ _ _] Hl. unfold init_traps. apply runs_bind, runs_say. apply runs_bind, runs_on.
  unfold machine_of. apply Ports.runs_dev. eapply runs_mono.
  { apply (runs_keeps rest_of); [apply interrupt_init_keeps|]. apply (runs_keeps (fun m => length (Interrupt.idt m))); [apply gates_length|].
    apply Interrupt.interrupt_init_entries; [done|done|apply Hl]. }
  intros [] m1 (((Hh1 & Hg1) & Hlen1) & Hk1). cbn [Interrupt.isr_handlers Interrupt.idt set_out a_isrs a_idt] in Hh1, Hlen1.
  unfold rest_of in Hk1. cbn [Interrupt.m_sched Interrupt.m_kbd Interrupt.timer_ticks set_out a_kern a_kbd a_ticks] in Hk1.
  injection Hk1 as Hsc1 Hkb1 Htk1. apply runs_bind, runs_say. apply runs_bind, runs_on. unfold machine_of.
  cbn [fst snd set_machine set_out a_hw a_idt a_isrs a_ticks a_kbd a_kern a_out k_sched set_sched]. eapply runs_mono.
  { eapply runs_keeps; [apply irq_init_keeps|]. eapply runs_keeps; [apply handlers_length|].
    apply Interrupt.irq_init_ready; cbn [Interrupt.isr_handlers Interrupt.m_sched Interrupt.m_kbd].
    - rewrite Hh1. apply Hl.
    - rewrite Hsc1. destruct (ld_sched _ Hl) as (Hc & _ & Hm). split; [intros i Hi; cbn in Hi; congruence|exact Hm].
    - rewrite Hkb1, (ld_kbd _ Hl). eexists. apply Keyboard.abs_zero. }
  intros [] [h2 m2] (([Hrdy _] & Hlh2) & Hk2). cbn [fst snd compose] in Hrdy, Hk2, Hlh2.
  unfold rest_of in Hk2. cbn [Interrupt.m_sched Interrupt.m_kbd Interrupt.timer_ticks Interrupt.idt Interrupt.isr_handlers] in Hk2, Hlh2.
  injection Hk2 as Hsc2 Hkb2 Htk2 Hid2.
  apply runs_bind, runs_say. apply runs_bind, runs_on. unfold sys_of.
  cbn [fst snd set_machine set_out a_fdt a_fs a_kern a_ticks a_out]. eapply runs_mono; [apply syscall_init_ok, Hl|].
  intros [] x3 (Hf3 & Ho3 & Hk3). cbn [Syscall.s_fs Syscall.s_kern Syscall.timer_ticks] in Hk3. injection Hk3 as Hfs3 Hkn3 Htk3.
  apply runs_on. unfold machine_of. cbn [set_sys set_machine set_out a_hw a_idt a_isrs a_ticks a_kbd a_kern a_out fst snd].
  apply Ports.runs_dev. eapply runs_mono; [apply init_vector_ok; cbn [Interrupt.isr_handlers Interrupt.idt]|].
  { rewrite Hlh2, Hh1, (ld_isrs _ Hl). apply length_replicate. }
  { rewrite Hid2, Hlen1. apply Hl. }
  intros [] m4 ([Hh4 Hg4] & Hk4). unfold rest_of in Hk4. cbn [Interrupt.m_sched Interrupt.m_kbd Interrupt.timer_ticks Interrupt.isr_handlers Interrupt.idt] in Hk4, Hh4, Hg4.
  injection Hk4 as Hsc4 Hkb4 Htk4. exists h2, (Interrupt.idt m4), (Interrupt.isr_handlers m4), (Syscall.fd_table x3), (Interrupt.out m4).
  split_and!; [|split|done|].
  - unfold set_machine, set_sys. cbn [fst snd set_out a_hw a_idt a_isrs a_ticks a_kbd a_kern a_fdt a_fs a_vmm a_heap a_auth a_log a_history a_out].
    rewrite Hsc4, Hkb4, Htk4, Hkn3, Hfs3, Htk3, Hkb2, Htk2, Hkb1, Htk1, Hsc2, Hsc1. by destruct (a_kern s).
  - rewrite Hh4. apply Hrdy.
  - rewrite Hh4. apply Hrdy.
  - by rewrite Hh4.
  - intros i a Ha. destruct (Hg1 i a Ha) as (e & He & <- & _). specialize (Hg4 i). rewrite Hid2, He in Hg4.
    destruct (arr_get (Interrupt.idt m4) i) as [e'|]; [|done]. exists e'. split; [done|]. by injection Hg4.
  - intros n x Hx. specialize (Ho3 n). unfold Syscall.open_files in Ho3. rewrite Hx in Ho3. cbn in Ho3. by destruct (Syscall.in_use x).
Qed.

Lemma init_tasks_ok s : image_ok -> table_fresh (procs (a_kern s)) -> g_scheduler (k_sched (a_kern s)) = None ->
  runs (init_tasks img) s (fun _ s' => exists k o, s' = set_kern k (set_out o s) /\
    line_up ["idle"%string] k /\ k_cpu k = k_cpu (a_kern s)).
Proof.
  intros [_ _ [Hs0 Hs1] _] Ht Hg. unfold init_tasks. apply runs_bind, runs_say. apply runs_bind, runs_on.
  eapply runs_mono; [by apply process_init_ok|]. intros [] k1 (Hc1 & Hb1 & Hwf & Hci & Hn1 & Hp1 & Hcpu & Hf & Hnm).
  apply runs_bind, runs_say. unfold scheduler_init. apply runs_bind, runs_on, runs_on_sched.
  cbn [set_kern set_out a_kern]. eapply runs_mono; [by apply (scheduler_set_ok SCHED_FCFS)|].
  intros [] s2 (Hr & Hp & Hc & _). apply runs_say. eexists (set_sched s2 k1), _. split; [reflexivity|]. split; [|done].
  assert (Hprocs : procs (set_sched s2 k1) = procs k1) by exact Hp. split.
  - split; [by apply ready_current|done|]. change (core_inv (Some 0) [] (procs (set_sched s2 k1)) (process_count k1) (next_pid k1)).
    by rewrite Hprocs, Hn1, Hp1.
  - change (current_process s2 = None). by rewrite Hc.
  - exact Hp1.
  - intros i Hi. rewrite Hprocs, Hf by done. cbn [length]. unfold slot_ok in Hi. zcases; lia || done.
  - intros [|j] nm; [|done]. intros [= <-]. unfold proc_at. rewrite Hprocs. exact Hnm.
Qed.

Lemma init_memory_ok s : image_ok -> length (Pmm.pmm_bitmap (Vmm.vmm_frames (a_vmm s))) = 256%nat ->
  runs (init_memory img) s (fun _ s' => exists v h o, s' = set_heap h (set_vmm v (set_out o s)) /\
    Pmm.accounted (Vmm.vmm_frames v) /\ Pmm.pmm_total_pages (Vmm.vmm_frames v) = Pmm.PMM_TOTAL_PAGES /\
    Vmm.vmm_cr3 v = Vmm.hw_cr3 v /\
    Heap.heap_rep h [Heap.mk_block Pmm.KERNEL_HEAP_START (Pmm.KERNEL_HEAP_INITIAL_SIZE - Heap.sizeof_heap_block) true]).
Proof.
  intros [_ [Hk0 Hk1] _ _] Hb. unfold init_memory. apply runs_bind, runs_say. apply runs_bind, runs_on.
  eapply runs_mono; [apply Pmm.pmm_init_ok; (done || lia)|]. intros [] p (Hacc & Htot & _).
  apply runs_bind, runs_say. apply runs_bind, runs_on. unfold Vmm.vmm_init, Vmm.read_cr3, Vmm.set_vmm_cr3. run.
  apply runs_say. apply runs_on. eapply runs_mono; [apply Heap.heap_init_ok|]. intros [] h Hh.
  eexists _, _, _. split; [reflexivity|]. split_and!; try done. 
Qed.

Lemma fs_init_ok (x : FsDisk.fs D) :
  length (FsDisk.g_block_bitmap x) = 512%nat -> length (FsDisk.g_inode_bitmap x) = 512%nat ->
  runs bd_init (FsDisk.f_dev x) (fun _ d => bd_inv d) ->
  runs FsApi.fs_init x (fun _ x' => exists a, FsDisk.rep x' a /\ FsDisk.a_mounted a = true /\ FsDisk.a_fds a = FsApi.no_fds).
Proof.
  intros Hb Hi Hd. unfold FsApi.fs_init. apply runs_bind, FsDisk.runs_on_dev. eapply runs_mono; [exact Hd|]. intros [] d Hinv.
  run. cbn [FsDisk.f_dev FsDisk.set_dev]. rewrite (bd_present_ok _ Hinv). cbn [negb].
  set (x1 := FsDisk.set_dev d x).
  set (a := FsDisk.mk_afs (FsDisk.g_sb x) (FsDisk.g_block_bitmap x) (FsDisk.g_inode_bitmap x) (FsDisk.g_mounted x) (FsDisk.g_fds x)
              (fun b => bd_sector d (FsDisk.ARESFS_BASE_LBA + b))).
  assert (Hr : FsDisk.rep x1 a) by (by split).
  apply runs_bind. eapply runs_mono; [by apply (FsApi.aresfs_mount_ok x1 a Hr)|]. intros st x2. cbv beta zeta.
  destruct (FsApi.sb_valid _); intros [-> Hr2].
  - rewrite bool_decide_true by done. run. eexists. by split; [exact Hr2|].
  - rewrite bool_decide_false by done. apply runs_bind. eapply runs_mono; [apply (FsApi.aresfs_format_ok x2 _ Hr2)|].
    intros st x3 (_ & a3 & Hr3 & Hf). run. exists a3. split_and!; [done|apply Hf|apply Hf].
Qed.

Lemma init_devices_ok s : a_kbd s = Keyboard.kbd_zero ->
  length (FsDisk.g_block_bitmap (a_fs s)) = 512%nat /\ length (FsDisk.g_inode_bitmap (a_fs s)) = 512%nat ->
  runs bd_init (FsDisk.f_dev (a_fs s)) (fun _ d => bd_inv d) ->
  runs init_devices s (fun _ s' => exists h k f o, s' = set_auth Auth.boot_auth (set_fs f (set_kbd k (set_hw h (set_out o s)))) /\
    k = Keyboard.kbd_zero /\ exists a, FsDisk.rep f a /\ FsDisk.a_mounted a = true /\ FsDisk.a_fds a = FsApi.no_fds).
Proof.
  intros Hkbd [Hb1 Hb2] Hdisk. unfold init_devices. apply runs_bind, runs_say. apply runs_bind, runs_on. unfold Keyboard.keyboard_init.
  apply runs_bind, Ports.runs_dev. run. eapply runs_mono; [apply (runs_for (fun _ x => x.2 = Keyboard.kbd_zero))|].
  { cbn. by rewrite Hkbd. }
  { intros j [h k] _ Hk. apply runs_bind, Ports.runs_inb. intros v h' _. by apply runs_ret. }
  intros [] [h k] Hk. cbn [snd] in Hk. subst k. apply Ports.runs_outb. apply runs_bind, runs_say. apply runs_bind, runs_on.
  unfold Rtc.rtc_init, Rtc.cmos_read. run. apply Ports.runs_outb. run. apply Ports.runs_inb. intros v0 h0 _.
  apply Ports.runs_inb. intros v h' _. apply Ports.runs_outb. run. apply runs_say. apply runs_bind, runs_on.
  eapply runs_mono; [by apply fs_init_ok|]. intros [] f Hf. apply runs_bind, runs_say. apply runs_on.
  eexists tt, _. split; [apply Auth.init_runs|]. fields. eexists _, _, _, _. split; [reflexivity|]. by split.
Qed.

(** After the one [yield] of the kernel: p1 is called the running process,
    the others wait in the queue, and none has executed. *)
Record demos_waiting (k : kern) : Prop := {
  dw_inv : proc_inv k SCHED_FCFS [2; 3; 4; 0];
  dw_current : current_process (k_sched k) = Some 1;
  dw_next : next_pid k = 6;
  dw_cpu : cpu_ok (k_cpu k);
  dw_names j nm : ["idle"; "p1"; "p2"; "p3"; "p4"]%string !! j = Some nm ->
    proc_at k (Z.of_nat j) (if Z.of_nat j =? 1 then PROCESS_RUNNING else PROCESS_READY) (Z.of_nat j + 1) nm }.

Lemma start_demos_ok s : image_ok -> line_up ["idle"%string] (a_kern s) -> cpu_ok (k_cpu (a_kern s)) ->
  runs (start_demos img) s (fun a s' => a = Some (ret img) /\ exists k o, s' = set_kern k (set_out o s) /\ demos_waiting k).
Proof.
  intros [_ _ [Hs0 Hs1] Hret] H0 Hcpu. unfold start_demos. apply runs_bind, runs_say.
  apply runs_bind, runs_on. eapply runs_mono; [by apply (line_up_create _ _ _ _ _ H0); cbn; try lia|]. intros _ k1 [H1 C1].
  apply runs_bind, runs_on. eapply runs_mono; [by apply (line_up_create _ _ _ _ _ H1); cbn; try lia|]. intros _ k2 [H2 C2].
  apply runs_bind, runs_on. eapply runs_mono; [by apply (line_up_create _ _ _ _ _ H2); cbn; try lia|]. intros _ k3 [H3 C3].
  apply runs_bind, runs_on. eapply runs_mono; [by apply (line_up_create _ _ _ _ _ H3); cbn; try lia|]. intros _ k4 [H4 C4].
  apply runs_bind, runs_on. eapply runs_mono; [by apply (line_up_first _ _ _ H4)|]. intros r k [-> ->].
  apply runs_bind, runs_on. unfold put_current. apply runs_on_sched, runs_modify.
  apply runs_bind, runs_say. apply runs_on.
  match goal with |- runs _ ?k _ => change k with (as_current (Some 0) k4) end.
  eapply runs_mono; [apply (yield_run _ _ _ _ 0 (lu_inv _ _ H4)); [|done|done]|].
  { change (k_cpu (as_current (Some 0) k4)) with (k_cpu k4). rewrite C4, C3, C2, C1. exact Hcpu. }
  intros a k5 (-> & Hk5 & Hn5 & n & l' & Hl & Hc & Hinv & Hcore). split; [done|]. fields. eexists _, _. split; [reflexivity|].
  assert (Hl' : [1; 2; 3; 4; 0] = n :: l').
  { rewrite <- Hl. change (sched_rank SCHED_FCFS) with (fun _ : Z => 0). cbv beta. by rewrite insert_rank_const. }
  injection Hl' as <- <-. cbn [as_current next_pid set_sched k_cpu] in Hk5, Hn5.
  split; [done|done|by rewrite Hn5, (lu_next _ _ H4)|by rewrite Hk5, C4, C3, C2, C1|]. intros j nm Hj. destruct (lu_names _ _ H4 j nm Hj) as (pr & a & Ha & Hs).
  exists pr, a. split; [|done]. rewrite Hcore. change (procs (as_current (Some 0) k4)) with (procs k4). rewrite Ha. cbn [fmap option_fmap option_map].
  unfold restate, core_state. by destruct (Z.of_nat j =? 0), (Z.of_nat j =? 1).
Qed.

(** Asking for the counters stores the depth of the queue among them. *)
Lemma get_stats_ok k : demos_waiting k ->
  runs (on_sched scheduler_get_stats) k (fun st k' => is_Some st /\ demos_waiting k').
Proof.
  intros [[Hr Hb Hci] Hc Hnp Hcpu Hn]. apply runs_on_sched. unfold scheduler_get_stats, g_ops. run.
  rewrite (rd_active _ _ _ Hr). cbn [mbind option_bind ops_of SCHED_FCFS Z.eqb op_get_stats fcfs_ops]. unfold fcfs_get_stats. run.
  split; [done|]. split; [split; [|done|done]|done|done|done|done]. destruct Hr as [H1 H2 H3 H4]. by split.
Qed.

Lemma final_stats_ok s : demos_waiting (a_kern s) ->
  runs final_stats s (fun _ s' => exists k o, s' = set_kern k (set_out o s) /\ demos_waiting k).
Proof.
  intros Hw. unfold final_stats. apply runs_bind, runs_on. eapply runs_mono; [by apply get_stats_ok|]. intros st k [[x ->] Hk].
  apply runs_bind, (runs_need _ x); [done|]. apply runs_say. fields. eexists _, _. by split; [reflexivity|].
Qed.

Lemma names_procs_ok k id l : proc_inv k id l -> Shell.procs_ok k.
Proof.
  intros Hinv. pose proof Hinv as [_ _ Hci]. split; [by eapply inv_wf| |].
  - apply Forall_lookup. intros i p Hp. apply Cstr.c_string_elem.
    eapply (ci_core _ _ _ _ _ Hci (Z.of_nat i) (state p) (pid p) (priority p) (name p)).
    unfold core_of. rewrite arr_get_lookup, Nat2Z.id by lia. fold (procs k) in Hp. by rewrite Hp.
  - intros i Hi. by apply (ci_current _ _ _ _ _ Hci i).
Qed.

(** The shell, entered in a system that is up, runs the session typed and
    changes nothing of the system. *)
Lemma enter_shell_ok s line keys id l n bs :
  proc_inv (a_kern s) id l -> Heap.heap_rep (a_heap s) bs -> Auth.auth_ok n (a_auth s) ->
  a_log s = (replicate (Z.to_nat LOG_BUF_SIZE) 0, 0) -> a_history s = (replicate 16 (replicate 256 0), 0, 0, -1) ->
  length line = 256%nat ->
  runs (on (shell_of line) set_shell (Shell.shell_main keys)) s (fun r s' =>
    r = (Shell.session (S (length keys)) [] keys).2 /\
    (a_idt s', a_isrs s', a_kbd s', a_kern s', a_fdt s', a_fs s', a_vmm s', a_heap s', a_auth s') =
    (a_idt s, a_isrs s, a_kbd s, a_kern s, a_fdt s, a_fs s, a_vmm s, a_heap s, a_auth s)).
Proof.
  intros Hk Hh Ha Hlog Hhist Hline. apply runs_on. unfold Shell.shell_main, Shell.shell_resume. apply runs_bind. unfold Shell.print. run.
  set (x := Shell.set_out _ _). assert (Hx : Shell.kernel x = mk_kstate (a_kern s) (Vmm.vmm_frames (a_vmm s)) (a_heap s) (a_ticks s) (a_log s).1 (a_log s).2
    /\ Shell.accounts x = a_auth s /\ Shell.line x = line /\ Shell.history x = (a_history s).1.1.1 /\ Shell.history_count x = (a_history s).1.1.2 /\
    Shell.history_head x = (a_history s).1.2) by (unfold x, shell_of; by destruct (a_history s) as [[[] ?] ?]).
  destruct Hx as (Ek & Ea & El & E1 & E2 & E3). rewrite Hhist in E1, E2, E3. cbn [fst snd] in E1, E2, E3.
  eapply runs_mono; [apply (Shell.shell_loop_ok (S (length keys)) x [] keys); [|lia]|].
  - split; [split|split|]; rewrite ?Ek, ?Ea, ?E1, ?E2, ?E3, ?El; cbn [o_kern o_heap]; try done.
    + by eapply names_procs_ok.
    + by exists bs.
    + by exists n.
    + rewrite Hlog. exists []. split; [apply length_replicate|done|]. exists (replicate 4095 0). vm_compute. reflexivity.
    + apply Forall_replicate, length_replicate.
    + cbn [length]. lia.
  - intros r x'. cbv beta. destruct (Shell.session _ _ _) as [hs' r']. intros (-> & _ & Hk' & Ha'). split; [done|].
    rewrite Ek in Hk'. rewrite Ea in Ha'. unfold set_shell. rewrite Hk', Ha'. cbn. by destruct (a_vmm s).
Qed.

(** Every component is set up. *)
Record system_up s : Prop := {
  su_traps : traps_set (a_idt s) (a_isrs s);
  su_calls : Syscall.table_ok (a_fdt s) /\ forall n x, arr_get (a_fdt s) n = Some x -> Syscall.in_use x = false;
  su_files : exists a, FsDisk.rep (a_fs s) a /\ FsDisk.a_mounted a = true /\ FsDisk.a_fds a = FsApi.no_fds;
  su_frames : Pmm.accounted (Vmm.vmm_frames (a_vmm s)) /\ Pmm.pmm_total_pages (Vmm.vmm_frames (a_vmm s)) = Pmm.PMM_TOTAL_PAGES;
  su_paging : Vmm.vmm_cr3 (a_vmm s) = Vmm.hw_cr3 (a_vmm s);
  su_heap : Heap.heap_rep (a_heap s) [Heap.mk_block Pmm.KERNEL_HEAP_START (Pmm.KERNEL_HEAP_INITIAL_SIZE - Heap.sizeof_heap_block) true];
  su_kbd : a_kbd s = Keyboard.kbd_zero }.

Lemma init_components_ok s : image_ok -> loaded s ->
  runs (init_components img) s (fun _ s' => system_up s' /\ line_up ["idle"%string] (a_kern s') /\ cpu_ok (k_cpu (a_kern s')) /\
    a_auth s' = Auth.boot_auth /\ a_log s' = a_log s /\ a_history s' = a_history s).
Proof.
  intros Hi Hl. unfold init_components. apply runs_bind, runs_say. apply runs_bind. eapply runs_mono.
  { apply init_traps_ok; [done|]. destruct Hl; split; done. }
  intros [] s1 (h & t & i & f & o1 & -> & Ht & Hf & Hu). apply runs_bind. eapply runs_mono.
  { apply init_tasks_ok; [done|apply Hl|apply Hl]. }
  intros [] s2 (k & o2 & -> & Hk & Hcpu). apply runs_bind. eapply runs_mono; [apply init_memory_ok; [done|apply Hl]|].
  intros [] s3 (v & hp & o3 & -> & Hacc & Htot & Hcr & Hhp). apply runs_bind.
  eapply runs_mono; [apply init_devices_ok; apply Hl|]. intros [] s4 (h4 & kb & fs & o4 & -> & -> & Hfs). apply runs_say. fields.
  split_and!; try done. rewrite Hcpu. apply Hl.
Qed.

(** [system_up] is about the components that the processes and the login do not
    touch. *)
Lemma system_up_same s s' :
  (a_idt s', a_isrs s', a_kbd s', a_fdt s', a_fs s', a_vmm s', a_heap s') = (a_idt s, a_isrs s, a_kbd s, a_fdt s, a_fs s, a_vmm s, a_heap s) ->
  system_up s -> system_up s'.
Proof. intros [= E1 E2 E3 E4 E5 E6 E7] []. split; rewrite ?E1, ?E2, ?E3, ?E4, ?E5, ?E6, ?E7; done. Qed.

Lemma logged_in_ok n a o : Auth.auth_ok n a -> Auth.auth_ok n (match o with Some id => Auth.set_current id a | None => a end).
Proof. intros Ha. destruct o; [|done]. by destruct Ha; split. Qed.

(** The kernel after a login: demo processes, one yield, the counters, the
    shell. *)
Lemma after_login_ok s line ks :
  image_ok -> system_up s -> line_up ["idle"%string] (a_kern s) -> cpu_ok (k_cpu (a_kern s)) -> (exists n, Auth.auth_ok n (a_auth s)) ->
  a_log s = (replicate (Z.to_nat LOG_BUF_SIZE) 0, 0) -> a_history s = (replicate 16 (replicate 256 0), 0, 0, -1) -> length line = 256%nat ->
  runs (after_login img ks line) s (fun r s' =>
    r = In_shell (Shell.session (S (length ks)) [] ks).2 /\ system_up s' /\ demos_waiting (a_kern s') /\ a_auth s' = a_auth s).
Proof.
  intros Hi Hup Hlu Hcpu [n Ha] Hlog Hhist Hline. unfold after_login. apply runs_bind.
  eapply runs_mono; [by apply start_demos_ok|]. intros a s1 (-> & k1 & o1 & -> & Hk1). cbv zeta. rewrite Z.eqb_refl. cbn [negb].
  apply runs_bind, runs_say. apply runs_bind. eapply runs_mono; [by apply final_stats_ok|]. intros [] s2 (k2 & o2 & -> & Hk2).
  apply runs_bind. eapply runs_mono.
  { eapply enter_shell_ok; fields; [apply (dw_inv _ Hk2)|apply (su_heap _ Hup)|exact Ha|exact Hlog|exact Hhist|exact Hline]. }
  intros r s3 [-> Hs]. apply runs_ret.
  injection Hs as E1 E2 E3 E4 E5 E6 E7 E8 E9. split_and!; [done| |by rewrite E4|done].
  apply (system_up_same s); [|done]. by rewrite E1, E2, E3, E5, E6, E7, E8.
Qed.

(** C1: the boot.  From zeroed static variables, with any memory, any hardware
    behind the ports and any contents of a disk that the probe finds and that
    works ([ld_disk]), whatever is typed, [kernel_main] sets up every component
    (gates and handlers, empty descriptor table, a mounted file system, frame
    accounting, an empty heap, the accounts) without fault.  The login then
    waits, is locked after three failures, or gives a session to the account
    whose credentials were typed; then and only then the four demo processes
    are created and the shell runs the session typed.  None of the demo
    processes has run: the kernel itself returns from its [yield], with p1
    marked as running and p2, p3, p4 and the idle process waiting. *)
Theorem kernel_main_reaches_shell s keys ubuf pbuf line :
  image_ok -> loaded s -> length ubuf = 24%nat -> length pbuf = 64%nat -> length line = 256%nat ->
  runs (kernel_main img keys ubuf pbuf line) s (fun r s' => exists u o,
    Auth.login_spec Auth.boot_auth 3 keys u o /\ system_up s' /\
    a_auth s' = match o with Some id => Auth.set_current id Auth.boot_auth | None => Auth.boot_auth end /\
    match u with
    | Auth.WaitingKeys => r = Login_waits /\ line_up ["idle"%string] (a_kern s')
    | Auth.Locked => r = Login_locked /\ line_up ["idle"%string] (a_kern s')
    | Auth.LoggedIn ks => r = In_shell (Shell.session (S (length ks)) [] ks).2 /\ demos_waiting (a_kern s')
    end).
Proof.
  intros Hi Hl Hu Hp Hline. unfold kernel_main. apply runs_bind. eapply runs_mono; [by apply init_components_ok|].
  intros [] s1 (Hup & Hlu & Hcpu & Ha & Hlog & Hhist). rewrite (ld_log _ Hl) in Hlog. rewrite (ld_history _ Hl) in Hhist.
  apply runs_bind, runs_on. rewrite Ha. unfold Auth.auth_run_login.
  eapply runs_mono; [apply (Auth.login_attempts_ok 3 _ _ Auth.boot_ok ltac:(lia)); done|].
  intros [u calls] a (o & Hspec & ->). cbn [fst] in Hspec. cbv beta iota. apply runs_bind, runs_say.
  pose proof (logged_in_ok _ _ o Auth.boot_ok) as Hok. set (s2 := set_out _ _).
  assert (Hup2 : system_up s2) by (by apply (system_up_same s1)). destruct u as [ks| |].
  - eapply runs_mono; [by apply after_login_ok; try done; exists 3|].
    intros r s' (-> & Hup' & Hk & Ha'). exists (Auth.LoggedIn ks), o. split_and!; [exact Hspec|exact Hup'|exact Ha'|done|exact Hk].
  - apply runs_ret. exists Auth.Locked, o. split_and!; [exact Hspec|exact Hup2|reflexivity|done|exact Hlu].
  - apply runs_ret. exists Auth.WaitingKeys, o. split_and!; [exact Hspec|exact Hup2|reflexivity|done|exact Hlu].
Qed.
End bring_up.
(** * A boot with a blank disk *)

Module DemoBoot.
Export Rtc.Rtc.DemoClock RamDisk.

Definition demo_image : image :=
  mk_image ((fun i => 0x101000 + 16 * i) <$> seqZ 0 256) 0x100000 0x200000 0x180000 0x102000 0x102100 0x102200 0x102300 0x102400 0x102500.

Definition demo_loaded : ares Z ram_disk :=
  mk_ares 0 (replicate 256 (Interrupt.mk_entry 0 0 0 0 0 0 0)) (replicate 256 None) 0 Keyboard.kbd_zero
    (mk_kern (mk_sched zero_pcbs None 0 None 0 (mk_fcfs queue_init (zero_stats "")) (mk_rr queue_init (zero_stats "") 0)
                (mk_prio [] (zero_stats "") 0) (mk_mlq [] (zero_stats "") (replicate 4 0)))
       0 0 queue_init ∅ (mk_cpu 0x90000 0 7 0 0 0 0))
    (replicate 16 (Syscall.mk_slot 0 0 0 0)) FsApi.ram_boot
    (Vmm.mk_vmm 0 0x1000 ∅ (Pmm.mk_pmm (replicate 256 0) 0 0 0) []) (Heap.mk_heap 0 ∅) (Auth.mk_auth [] 0 0)
    (replicate (Z.to_nat LOG_BUF_SIZE) 0, 0) (replicate 16 (replicate 256 0), 0, 0, -1) [].

Lemma demo_image_ok : image_ok demo_image.
Proof.
  split; cbn [isr_stub_table _kernel_start _kernel_end process_stacks ret demo_image].
  - split; [reflexivity|]. apply Forall_fmap, Forall_forall. intros i Hi%elem_of_seqZ. cbn. lia.
  - change Pmm.PAGE_SIZE with 4096. lia.
  - unfold MAX_PROCESSES, STACK_SIZE. lia.
  - lia.
Qed.

Lemma demo_loaded_ok : loaded demo_loaded.
Proof.
  split; try reflexivity; try (by split).
  - split; [reflexivity|]. intros i p Hp%arr_get_elem. apply elem_of_replicate in Hp as [-> _].
    split; [split; [reflexivity|by apply elem_of_cons; left]|done].
  - apply runs_ret, blank_ok.
Qed.

Definition boot_keys : list Z := text "user" ++ [13] ++ text "user123" ++ [13] ++ text "calc" ++ [Keyboard.KEY_ENTER].
End DemoBoot.
Import DemoBoot.

Lemma kernel_main_reaches_shell_witness :
  runs (kernel_main demo_image boot_keys (replicate 24 9) (replicate 64 9) (replicate 256 9)) demo_loaded (fun r s' =>
    r = In_shell (Shell.Launched Shell.Run_calc []) /\ system_up demo_image s' /\ demos_waiting (a_kern s')).
Proof.
  eapply runs_mono; [apply (kernel_main_reaches_shell demo_image demo_loaded boot_keys (replicate 24 9) (replicate 64 9) (replicate 256 9)
    demo_image_ok demo_loaded_ok eq_refl eq_refl eq_refl)|].
  intros r s' (u & o & Hspec & Hup & _ & Hend).
  assert (Hk : u = Auth.LoggedIn (text "calc" ++ [Keyboard.KEY_ENTER])).
  { inversion Hspec as [|? ? E|? ? ? ? E1 E2|? ? ? ? ? ? ? E1 E2|? ? ? ? ? ? ? ? E1 E2 Hno]; subst.
    - discriminate E.
    - vm_compute in E1. injection E1 as <- <-. discriminate E2.
    - vm_compute in E1. injection E1 as <- <-. vm_compute in E2. injection E2 as <- <-. reflexivity.
    - vm_compute in E1. injection E1 as <- <-. vm_compute in E2. injection E2 as <- <-. exfalso. apply (Hno 2).
      eexists. rewrite Auth.boot_accounts. split; [reflexivity|]. split; vm_compute; reflexivity. }
  subst u. destruct Hend as [-> Hk]. split_and!; [|exact Hup|exact Hk]. vm_compute. reflexivity.
Defined.


End Boot.
