(* ===== verification/Tasks.v ===== *)
(** The code that starts processes for show and measurement: the demo tasks of
    src/kernel/kernel.c, the scheduler benchmark (src/scheduler/benchmark.c)
    and the benchmark suite behind the shell's bench command
    (src/benchmark/benchmark.c).

    The state is that of Boot with the static variables of the two benchmark
    files.  The scheduler benchmark waits for the timer with interrupts enabled:
    what arrives, timer or keyboard, is an argument of its definitions, for
    every [hlt] and for the places between the waits ([moments]); interrupts
    inside a call, such as [process_create], are not modelled. *)
From stdpp Require Import strings.
From S2P Require Import Prelude Interfaces Mem Pmm Heap Vmm Pcb Queue Sched Process FsDisk FsApi Ports Frame Keyboard Console Interrupt Syscall Observe Shell Boot.
#[local] Open Scope Z_scope.

Module Tasks.
Import Console Observe Frame Boot Pcb Queue Sched Process.

(** Go on with [k] unless execution went elsewhere. *)
Definition stay {S} (m k : prog S (option Z)) : prog S (option Z) :=
  a ← m; match a with Some a => mret (Some a) | None => k end.

(** * Interrupts and waiting *)

Inductive irq := Timer | Key.

(** What arrives while the processor sleeps: the interrupt that wakes it, and
    those taken before the next instruction that reads the clock. *)
Definition arrival : Type := irq * list irq.

(** The interrupts during a measurement: before the first wait, in its rounds,
    between the waits, in the rounds of the second, before and between the two
    reads of the clock for the result. *)
Record moments := mk_moments {
  at_start : list irq; at_work : list arrival; at_stop : list irq; at_drain : list arrival;
  at_end : list irq; at_report : list irq }.

(** What code that waits comes to: its result, execution elsewhere, or still
    waiting when no more interrupts come. *)
Inductive outcome (A : Type) := Finished (a : A) | Gone (a : Z) | Waiting.
Arguments Finished {A} a.
Arguments Gone {A} a.
Arguments Waiting {A}.

(** The ticks in it. *)
Definition timers (l : list irq) : Z := countb (fun i => match i with Timer => true | Key => false end) l.
Definition round_timers (l : list arrival) : Z := timers (concat ((fun b => b.1 :: b.2) <$> l)).

(** At most one tick between two looks at the clock. *)
Definition slow (l : list arrival) : Prop := Forall (fun b => timers (b.1 :: b.2) <= 1) l.

(** * Demo tasks *)

Section code.
Context {H : Type} {HP : PortIO H} {D : Type} {HD : BlockDevice D}.

(** Addresses from the linker: the image of the kernel and the entry points of
    the workers. *)
Record workers := mk_workers {
  worker_yield_addr : Z; worker_compute_addr : Z; bench_worker_addr : Z; bench_worker_short_addr : Z; bench_worker_long_addr : Z }.
Variables (img : image) (entries : workers).

Definition spawn (nm : list Z) (entry prio : Z) : prog (ares H D) (option Z) :=
  on_kern (process_create (process_stacks img) nm entry prio).

Definition spawn_all (l : list (string * Z * Z)) : prog (ares H D) unit :=
  foldr (fun t k => _ ← spawn (text t.1.1) t.1.2 t.2; k) (mret tt) l.

Definition heading (s : string) : list console_call := [cyan; writeline ""; writeline s].

Definition demo_task_fcfs : prog (ares H D) unit :=
  _ ← say (heading "=== FCFS Scheduling Demo ===");
  _ ← scheduler_init SCHED_FCFS;
  spawn_all [("fcfs-a", worker_yield_addr entries, PRIORITY_LOW); ("fcfs-b", worker_yield_addr entries, PRIORITY_LOW);
             ("fcfs-c", worker_yield_addr entries, PRIORITY_LOW)]%string.

Definition demo_task_rr : prog (ares H D) unit :=
  _ ← say (heading "=== Round Robin Scheduling Demo ===");
  _ ← scheduler_init SCHED_RR;
  spawn_all [("rr-a", worker_yield_addr entries, PRIORITY_NORMAL); ("rr-b", worker_yield_addr entries, PRIORITY_NORMAL);
             ("rr-c", worker_yield_addr entries, PRIORITY_NORMAL)]%string.

Definition demo_task_priority : prog (ares H D) unit :=
  _ ← say (heading "=== Priority Scheduling Demo ===");
  _ ← scheduler_init SCHED_PRIORITY;
  spawn_all [("prio-lo", worker_compute_addr entries, PRIORITY_LOW); ("prio-norm", worker_compute_addr entries, PRIORITY_NORMAL);
             ("prio-hi", worker_compute_addr entries, PRIORITY_HIGH)]%string.

Definition demo_task_mlq : prog (ares H D) unit :=
  _ ← say (heading "=== MLQ Scheduling Demo ===");
  _ ← scheduler_init SCHED_MLQ;
  spawn_all [("mlq-lo", worker_compute_addr entries, PRIORITY_LOW); ("mlq-norm", worker_compute_addr entries, PRIORITY_NORMAL);
             ("mlq-hi", worker_compute_addr entries, PRIORITY_HIGH); ("mlq-rt", worker_compute_addr entries, PRIORITY_REALTIME)]%string.

(** Where execution goes on after a call that may switch: [None] is after the
    call. *)
Definition away (a : option Z) : option Z :=
  match a with Some a => if a =? ret img then None else Some a | None => None end.

(** [console_printf(fmt, current_process->pid, scheduler_name(...))]. *)
Definition done_line (fmt : string) : prog (ares H D) unit :=
  c ← on_kern get_current;
  c ← need c;
  p ← on_kern (on_table (get_pcb c));
  id ← on_kern (on_sched scheduler_get_current);
  say [Printf (nl fmt) [AVal (pid p); AStr (Some (text (scheduler_name id)))]].

(** One round of the endless loop of [worker_yield], from and to its counter;
    the delay loop has no effect. *)
Definition worker_yield (count : Z) : prog (ares H D) (Z * option Z) :=
  let count := i32 (count + 1) in
  a ← (if 20 <=? count then _ ← done_line "[worker] PID %d done (%s)"; on_kern (process_exit (ret img)) else mret None);
  match away a with
  | Some a => mret (count, Some a)
  | None => a ← on_kern (yield (ret img)); mret (count, away a)
  end.

(** The sum [worker_compute] builds is not used. *)
Definition worker_compute : prog (ares H D) (option Z) :=
  _ ← done_line "[worker] PID %d (%s) compute done";
  a ← on_kern (process_exit (ret img));
  mret (away a).

(** * The scheduler benchmark *)

(** The static variables of the benchmark files. *)
Record bvars := mk_bvars { benchmark_running : Z; benchmark_work_iters : Z; ticks_start : Z }.
Definition set_running x v := mk_bvars x (benchmark_work_iters v) (ticks_start v).
Definition set_work x v := mk_bvars (benchmark_running v) x (ticks_start v).
Definition set_start x v := mk_bvars (benchmark_running v) (benchmark_work_iters v) x.

Definition bprog := prog (bvars * ares H D).
Definition sysp {A} (m : prog (ares H D) A) : bprog A := Ports.dev m.
Definition vary (f : bvars -> bvars) : bprog unit := modify (fun s => (f s.1, s.2)).
Definition print (cs : list console_call) : bprog unit := sysp (say cs).

Definition light (fg : vga_color) : console_call := SetColor fg VGA_BLACK.

(** One round of [bench_worker]: another one, or the exit. *)
Definition bench_worker : bprog (option Z + option Z) :=
  v ← gets (benchmark_running ∘ fst);
  if negb (v =? 0) then a ← sysp (on_kern (yield (ret img))); mret (inl (away a))
  else a ← sysp (on_kern (process_exit (ret img))); mret (inr (away a)).

(** [out] has 8 characters. *)
Definition bench_make_name (out : list Z) (idx : Z) : option (list Z) :=
  out ← arr_set out 0 119;
  if idx <? 10 then
    out ← arr_set out 1 (u8 (48 + idx)); arr_set out 2 0
  else
    out ← arr_set out 1 (u8 (48 + Z.quot idx 10));
    out ← arr_set out 2 (u8 (48 + Z.rem idx 10));
    arr_set out 3 0.

Definition strs (l : list string) : list arg := (fun s => AStr (Some (text s))) <$> l.

Definition benchmark_print_header : bprog unit :=
  print [cyan; Printf (nl "%-14s %-6s %-10s %-10s %-10s") (strs ["Scheduler"; "Procs"; "Elapsed"; "CtxSwitch"; "Idle"]%string);
         Printf (nl "%-14s %-6s %-10s %-10s %-10s") (strs ["---------"; "-----"; "-------"; "---------"; "----"]%string);
         light VGA_WHITE].

Record benchmark_result := mk_result {
  sched_id : Z; num_processes : Z; work_iterations : Z; problem_size : Z; start_tick : Z; end_tick : Z; elapsed_ticks : Z;
  res_switches : Z }.

Definition benchmark_print_result (r : option benchmark_result) : bprog unit :=
  match r with
  | None => mret tt
  | Some r =>
      print [light VGA_LIGHT_GREEN; Printf (nl "%-14s %-6d %-10lu %-10lu %-10s")
               [AStr (Some (text (scheduler_name (sched_id r)))); AVal (num_processes r); AVal (elapsed_ticks r);
                AVal (res_switches r); AStr (Some (text "-"))]; light VGA_WHITE]
  end.

(** The tail of the interrupt stubs, after the handler: yield when the scheduler
    asked for it. *)
Definition isr_resched : prog (ares H D) (option Z) :=
  n ← gets (need_resched ∘ k_sched ∘ a_kern);
  if n =? 0 then mret None else
  _ ← on_kern (on_sched (modify (set_need_resched 0)));
  a ← on_kern (yield (ret img));
  mret (away a).

(** An interrupt: its handler and the tail of its stub; [frame] is what it
    saves. *)
Variable frame : Interrupt.interrupt_frame.
Definition interrupt (i : irq) : prog (ares H D) (option Z) :=
  _ ← on machine_of set_machine
        (_ ← (match i with Timer => Interrupt.timer_handler frame | Key => Interrupt.keyboard_handler frame end); mret tt);
  isr_resched.

(** The interrupts that come at one place, one after the other. *)
Fixpoint interrupts (l : list irq) : prog (ares H D) (option Z) :=
  match l with
  | [] => mret None
  | i :: l => stay (interrupt i) (interrupts l)
  end.

Definition hlt (b : arrival) : prog (ares H D) (option Z) := stay (interrupt b.1) (interrupts b.2).

(** One round of the idle process. *)
Definition idle_round (b : arrival) : prog (ares H D) (option Z) :=
  stay (hlt b) (a ← on_kern (yield (ret img)); mret (away a)).

Definition taken (l : list irq) : prog (ares H D) (outcome unit) :=
  a ← interrupts l; mret (match a with Some a => Gone a | None => Finished tt end).

(** The loop [while (timer_ticks < target) hlt]. *)
Fixpoint wait_until (arrivals : list arrival) (target : Z) : prog (ares H D) (outcome unit) :=
  t ← gets a_ticks;
  if t <? target then
    match arrivals with
    | [] => mret Waiting
    | b :: arrivals =>
        a ← hlt b; match a with Some a => mret (Gone a) | None => wait_until arrivals target end
    end
  else mret (Finished tt).

Definition go_on {A} (m : prog (ares H D) (outcome unit)) (k : bprog (outcome A)) : bprog (outcome A) :=
  r ← sysp m;
  match r with
  | Finished _ => k
  | Gone a => mret (Gone a)
  | Waiting => mret Waiting
  end.

(** The second half of [benchmark_run_scheduler]: wait, and report. *)
Definition measure (id num_procs work problem start : Z) (w : moments) : bprog (outcome benchmark_result) :=
  _ ← print [Printf (nl "[bench] Running for ~500 ticks...") []];
  go_on (taken (at_start w))
  (go_on (wait_until (at_work w) (u64 (start + 500)))
  (_ ← vary (set_running 0);
   go_on (taken (at_stop w))
   (t ← gets (a_ticks ∘ snd);
    go_on (wait_until (at_drain w) (u64 (t + 20)))
    (go_on (taken (at_end w))
     (st ← sysp (on_kern (on_sched scheduler_get_stats));
      st ← need st;
      t ← gets (a_ticks ∘ snd);
      go_on (taken (at_report w))
      (now ← gets (a_ticks ∘ snd);
       let r := mk_result id num_procs work problem start t (u64 (now - start)) (context_switches st) in
       _ ← print [light VGA_LIGHT_GREEN; Printf (nl "[bench] %s: switches=%lu elapsed=%lu idle=%lu")
                    [AStr (Some (text (scheduler_name id))); AVal (context_switches st); AVal (elapsed_ticks r); AVal (idle_ticks st)];
                  light VGA_WHITE];
       mret (Finished r))))))).

(** [name] is the indeterminate array of 8 characters. *)
Definition benchmark_run_scheduler (id num_procs work problem : Z) (name : list Z) (w : moments) : bprog (outcome benchmark_result) :=
  let num_procs := if num_procs <=? 0 then 1 else num_procs in
  let num_procs := if 16 <? num_procs then 16 else num_procs in
  _ ← (if 0 <? work then vary (set_work (u64 work)) else mret tt);
  _ ← print [writeline ""; light VGA_LIGHT_BROWN;
             Printf (nl "=== Benchmark: %s (%d processes) ===") [AStr (Some (text (scheduler_name id))); AVal num_procs]; light VGA_WHITE];
  _ ← sysp (scheduler_init id);
  start ← gets (a_ticks ∘ snd);
  _ ← vary (set_running 1);
  _ ← for_ (Z.to_nat num_procs) 0 (fun i =>
        nm ← need (bench_make_name name i);
        _ ← sysp (spawn nm (bench_worker_addr entries) (Z.rem (u32 i) PRIORITY_COUNT)); mret tt);
  measure id num_procs work problem start w.

(** The four schedulers in turn; [w] gives the interrupts during each. *)
Definition benchmark_run_all (num_procs work problem : Z) (name : list Z) (w : Z -> moments) : bprog (outcome unit) :=
  let next id (k : bprog (outcome unit)) : bprog (outcome unit) :=
    r ← benchmark_run_scheduler id num_procs work problem name (w id);
    match r with Finished _ => k | Gone a => mret (Gone a) | Waiting => mret Waiting end in
  _ ← print [writeline ""; light VGA_LIGHT_MAGENTA; writeline "============================================";
             writeline "  Scheduler Benchmark Suite - Running ALL"; writeline "============================================"; light VGA_WHITE];
  _ ← benchmark_print_header;
  next SCHED_FCFS (next SCHED_RR (next SCHED_PRIORITY (next SCHED_MLQ
    (_ ← print [writeline ""; light VGA_LIGHT_MAGENTA; writeline "=== Benchmark Suite Complete ==="; light VGA_WHITE]; mret (Finished tt))))).

(** * The benchmark suite *)

Definition bench_start : bprog unit := modify (fun s => (set_start (a_ticks s.2) s.1, s.2)).
Definition bench_end : bprog Z := gets (fun s => u64 (a_ticks s.2 - ticks_start s.1)).

(** The workers add numbers and exit. *)
Definition bench_worker_exit : bprog (option Z) := a ← sysp (on_kern (process_exit (ret img))); mret (away a).

Definition bench_scheduler_variant (name : string) (sched_type : Z) : bprog (option Z) :=
  _ ← sysp (scheduler_init sched_type);
  _ ← sysp (spawn_all [("b-worker", bench_worker_short_addr entries, PRIORITY_NORMAL); ("b-worker", bench_worker_short_addr entries, PRIORITY_NORMAL);
                       ("b-worker", bench_worker_short_addr entries, PRIORITY_NORMAL); ("b-worker", bench_worker_short_addr entries, PRIORITY_NORMAL);
                       ("b-worker", bench_worker_long_addr entries, PRIORITY_REALTIME)]%string);
  _ ← bench_start;
  i ← sysp (on_kern (process_by_pid 1));
  _ ← sysp (on_kern (put_current i));
  a ← sysp (on_kern (yield (ret img)));
  match away a with
  | Some a => mret (Some a)
  | None =>
      elapsed ← bench_end;
      _ ← print [Printf (nl "  %-10s: %u ticks") [AStr (Some (text name)); AVal (u32 elapsed)]];
      mret None
  end.

Definition title (s : string) : list console_call := [cyan; writeline s; light VGA_WHITE].

Definition bench_scheduler : bprog (option Z) :=
  _ ← print (title "=== Scheduler Benchmarks ===");
  stay (bench_scheduler_variant "FCFS" SCHED_FCFS)
  (stay (bench_scheduler_variant "RR" SCHED_RR)
  (stay (bench_scheduler_variant "Priority" SCHED_PRIORITY)
  (bench_scheduler_variant "MLQ" SCHED_MLQ))).

Definition onfs {A} (m : prog (FsDisk.fs D) A) : bprog A := sysp (on a_fs set_fs m).

(** Ten transfers of 256 bytes; the total of what they report. *)
Fixpoint transfers (n : nat) (m : prog (FsDisk.fs D) Z) (total : Z) : prog (FsDisk.fs D) Z :=
  match n with
  | O => mret total
  | S n => k ← m; transfers n m (if 0 <? k then u64 (total + k) else total)
  end.

Definition bench_path : list Z := text "/bench_file" ++ [0].
Definition test_data : list Z := (fun i => Z.land i 0xFF) <$> seqZ 0 256.

Definition per_tick (total ticks : Z) : Z := if 0 <? ticks then u32 (Z.quot total ticks) else 0.

Definition bench_filesystem : bprog unit :=
  _ ← print (title "=== Filesystem Benchmarks ===");
  _ ← bench_start;
  fd ← onfs (FsApi.aresfs_open (Some bench_path)
               (Z.lor (Z.lor FsApi.ARESFS_O_WRONLY FsApi.ARESFS_O_CREAT) FsApi.ARESFS_O_TRUNC));
  if fd <? 0 then print [writeline "  FS write: SKIP (open failed)"]
  else
    total ← onfs (transfers 10 (FsApi.aresfs_write fd (Some test_data)) 0);
    _ ← onfs (FsApi.aresfs_close fd);
    write_ticks ← bench_end;
    _ ← bench_start;
    fd ← onfs (FsApi.aresfs_open (Some bench_path) FsApi.ARESFS_O_RDONLY);
    if fd <? 0 then mret tt
    else
      read_total ← onfs (transfers 10 ('(n, _) ← FsApi.aresfs_read fd false 256; mret n) 0);
      _ ← onfs (FsApi.aresfs_close fd);
      read_ticks ← bench_end;
      print [Printf (nl "  Write: %u bytes in %u ticks (%u B/tick)") [AVal (u32 total); AVal (u32 write_ticks); AVal (per_tick total write_ticks)];
             Printf (nl "  Read:  %u bytes in %u ticks (%u B/tick)") [AVal (u32 read_total); AVal (u32 read_ticks); AVal (per_tick read_total read_ticks)]].

Definition onheap {A} (m : prog Heap.heap A) : bprog A := sysp (on a_heap set_heap m).
Definition onframes {A} (m : prog Pmm.pmm A) : bprog A := sysp (on (Vmm.vmm_frames ∘ a_vmm) set_frames m).

(** [ptrs[i] = kmalloc(64)] and [if (ptrs[i]) kfree(ptrs[i])] for the first
    entries of the array. *)
Fixpoint alloc_loop (n : nat) (i : Z) (ptrs : list Z) : prog Heap.heap (list Z) :=
  match n with
  | O => mret ptrs
  | S n => p ← Heap.kmalloc 64; ptrs ← need (arr_set ptrs i p); alloc_loop n (i + 1) ptrs
  end.
Definition free_loop (n : nat) (ptrs : list Z) : prog Heap.heap unit :=
  for_ n 0 (fun i => p ← need (arr_get ptrs i); if negb (p =? 0) then Heap.kfree p else mret tt).

(** [ptrs] is the indeterminate array of 32 pointers. *)
Definition bench_memory (ptrs : list Z) : bprog unit :=
  _ ← print (title "=== Memory Benchmarks ===");
  _ ← bench_start;
  ptrs ← onheap (alloc_loop 20 0 ptrs);
  _ ← onheap (free_loop 20 ptrs);
  alloc_ticks ← bench_end;
  _ ← print [Printf (nl "  20x alloc(64)/free: %u ticks") [AVal (u32 alloc_ticks)]];
  _ ← bench_start;
  big ← onheap (Heap.kmalloc 4096);
  big_ticks ← bench_end;
  _ ← onheap (if negb (big =? 0) then Heap.kfree big else mret tt);
  _ ← print [Printf (nl "  alloc(4096): %u ticks") [AVal (u32 big_ticks)]];
  _ ← bench_start;
  before_free ← onframes (gets Pmm.pmm_get_free_count);
  pg ← onframes Pmm.pmm_alloc_page;
  after_free ← onframes (gets Pmm.pmm_get_free_count);
  pmm_ticks ← bench_end;
  _ ← onframes (if negb (pg =? 0) then Pmm.pmm_free_page pg else mret tt);
  print [Printf (nl "  pmm_alloc/free: %u ticks (%u pages delta)") [AVal (u32 pmm_ticks); AVal (u32 (before_free - after_free))]].

Definition bench_run_all (ptrs : list Z) : bprog (option Z) :=
  _ ← print [writeline ""; light VGA_LIGHT_GREEN; writeline "========================================"; writeline "  ARES OS Benchmark Suite";
             writeline "========================================"; light VGA_WHITE; writeline ""];
  stay bench_scheduler (
    _ ← print [writeline ""];
    _ ← bench_filesystem;
    _ ← print [writeline ""];
    _ ← bench_memory ptrs;
    _ ← print [light VGA_LIGHT_GREEN; writeline "========================================"; writeline "  Benchmarks complete.";
               writeline "========================================"; light VGA_WHITE];
    mret None).

End code.
(** * What ticks and creation leave alone *)

(** The processes and the queues. *)
Definition dispatch_state (s : sched) :=
  (s_pcbs s, current_process s, g_scheduler s, (fcfs_queue (s_fcfs s), rr_queue (s_rr s), priority_queues (s_prio s), mlq_queues (s_mlq s))).

Lemma on_pcbs_frame {A} (m : prog pcbs A) s a s' : on_pcbs m s = Some (a, s') -> exists x, s' = set_pcbs x s.
Proof. unfold on_pcbs. destruct (m (s_pcbs s)) as [[b x]|]; [|done]. intros [= _ <-]. by exists x. Qed.

Lemma current_counts_same s b s' : current_counts s = Some (b, s') -> s' = s.
Proof.
  unfold current_counts, mbind, prog_bind, gets. destruct (current_process s) as [i|]; [|by intros [= _ <-]].
  unfold on_pcbs, get_pcb. destruct (arr_get _ i); [|done]. cbn. intros [= _ <-]. by destruct s.
Qed.

(** A call through the dispatcher is one of the four schedulers', or none. *)
Lemma dispatcher_cases {A} (R : sched -> sched -> Prop) (f : scheduler_ops -> prog sched A) (d : A) : (forall s, R s s) ->
  (forall s a s', f fcfs_ops s = Some (a, s') -> R s s') -> (forall s a s', f rr_ops s = Some (a, s') -> R s s') ->
  (forall s a s', f priority_ops s = Some (a, s') -> R s s') -> (forall s a s', f mlq_ops s = Some (a, s') -> R s s') ->
  forall s a s', (o ← g_ops; match o with Some ops => f ops | None => mret d end) s = Some (a, s') -> R s s'.
Proof.
  intros H0 H1 H2 H3 H4 s a s'. unfold g_ops, mbind, prog_bind, gets, mret, prog_ret.
  destruct (g_scheduler s) as [id|]; [|by intros [= <- <-]]. cbn [option_bind]. unfold ops_of.
  destruct (id =? SCHED_FCFS); [apply H1|]. destruct (id =? SCHED_RR); [apply H2|]. destruct (id =? SCHED_PRIORITY); [apply H3|].
  destruct (id =? SCHED_MLQ); [apply H4|]. by intros [= <- <-].
Qed.

Lemma tick_keeps : keeps dispatch_state scheduler_tick.
Proof.
  unfold keeps, scheduler_tick. apply (dispatcher_cases (fun s s' => dispatch_state s' = dispatch_state s) _ tt); [done|..]; intros s [] s';
    [by intros [= <-]|..]; cbn [op_tick rr_ops priority_ops mlq_ops]; unfold rr_tick, prio_tick, mlq_tick, mbind, prog_bind, gets;
    (destruct (current_counts s) as [[b s1]|] eqn:Ec; [|done]); apply current_counts_same in Ec as ->.
  - destruct b; [|by intros [= <-]]. cbn. case_match; by intros [= <-].
  - destruct b; [|by intros [= <-]]. cbn. case_match; by intros [= <-].
  - destruct b; [|by intros [= <-]]. unfold need. destruct (current_process s) as [i|]; [|done]. cbn [fmap option_fmap option_map].
    destruct (on_pcbs (get_pcb i) s) as [[p s2]|] eqn:Ep; [|done].
    assert (s2 = s) as ->. { revert Ep. unfold on_pcbs, get_pcb. destruct (arr_get _ i); [|done]. cbn. intros [= _ <-]. by destruct s. }
    cbv zeta. destruct (arr_get (mlq_level_ticks _) _) as [t|]; [|done]. cbn [fmap option_fmap option_map].
    destruct (arr_set _ _ _) as [ts|]; [|done]. cbn [fmap option_fmap option_map]. destruct (arr_get mlq_quanta _) as [q|]; [|done].
    cbn [fmap option_fmap option_map modify]. case_match; by intros [= <-].
Qed.

(** The counters that queueing a process leaves alone. *)
Definition counters (s : sched) : list Z := mlq_level_ticks (s_mlq s).

(** There are four of them. *)
Definition four_levels (s : sched) : Prop := length (counters s) = 4%nat.

Lemma queues_push_frame qs l p s qs' s' : queues_push qs l p s = Some (qs', s') -> exists x, s' = set_pcbs x s.
Proof.
  unfold queues_push, mbind, prog_bind, need. destruct (arr_get qs l); [|done]. cbn [fmap option_fmap option_map].
  destruct (on_pcbs _ s) as [[q' s1]|] eqn:E; [|done]. apply on_pcbs_frame in E as [x ->].
  destruct (arr_set qs l q'); [|done]. cbn. intros [= _ <-]. by exists x.
Qed.

Lemma add_keeps p : keeps counters (scheduler_add p).
Proof.
  unfold keeps, scheduler_add. apply (dispatcher_cases (fun s s' => counters s' = counters s) (fun ops => op_add ops p)); [done|..]; intros s [] s';
    cbn [op_add fcfs_ops rr_ops priority_ops mlq_ops]; unfold fcfs_add, rr_add, prio_add, mlq_add, mbind, prog_bind, gets; cbv zeta;
    (destruct (on_pcbs _ s) as [[q s1]|] eqn:E; [|done]); apply on_pcbs_frame in E as [x ->]; [by intros [= <-]|by intros [= <-]|..].
  all: destruct (queues_push _ _ _ _) as [[qs s2]|] eqn:E2; [|done]; apply queues_push_frame in E2 as [y ->]; by intros [= <-].
Qed.

Lemma queues_remove_frame n : forall i qs p s r s', queues_remove n i qs p s = Some (r, s') -> exists x, s' = set_pcbs x s.
Proof.
  induction n as [|n IH]; intros i qs p s r s'; cbn [queues_remove]; [intros [= _ <-]; exists (s_pcbs s); by destruct s|].
  unfold mbind, prog_bind, need. destruct (arr_get qs i); [|done]. cbn [fmap option_fmap option_map].
  destruct (on_pcbs _ s) as [[b s1]|] eqn:E; [|done]. apply on_pcbs_frame in E as [x ->]. destruct b; [|intros [y ->]%IH; by exists y].
  destruct (on_pcbs _ _) as [[q s2]|] eqn:E2; [|done]. apply on_pcbs_frame in E2 as [y ->].
  destruct (arr_set _ _ _); [|done]. intros [= _ <-]. by exists y.
Qed.

Lemma remove_keeps p : keeps counters (scheduler_remove p).
Proof.
  unfold keeps, scheduler_remove. apply (dispatcher_cases (fun s s' => counters s' = counters s) (fun ops => op_remove ops p)); [done|..];
    intros s [] s'; cbn [op_remove fcfs_ops rr_ops priority_ops mlq_ops];
    unfold fcfs_remove, rr_remove, prio_remove, mlq_remove, mbind, prog_bind, gets; cbv zeta.
  1, 2: destruct (on_pcbs _ s) as [[q s1]|] eqn:E; [|done]; apply on_pcbs_frame in E as [x ->]; by intros [= <-].
  all: destruct (queues_remove _ _ _ _ s) as [[qs s2]|] eqn:E2; [|done]; apply queues_remove_frame in E2 as [y ->]; by intros [= <-].
Qed.

Lemma keeps_on_sched {X A} (f : sched -> X) (m : prog sched A) : keeps f m -> keeps (f ∘ k_sched) (on_sched m).
Proof. intros Hm k a k'. unfold on_sched. destruct (m (k_sched k)) as [[b x]|] eqn:E; [|done]. intros [= <- <-]. by eapply Hm. Qed.

Lemma keeps_on_table {A} (m : prog pcbs A) : keeps (counters ∘ k_sched) (on_table m).
Proof. apply keeps_on_sched. intros s a s' [x ->]%on_pcbs_frame. done. Qed.

Lemma create_keeps stacks nm entry prio : keeps (counters ∘ k_sched) (process_create stacks nm entry prio).
Proof.
  unfold process_create. apply keeps_bind; [apply keeps_on_table|]. intros [i|]; [|apply keeps_ret].
  repeat (apply keeps_bind; [eauto using keeps_on_table, keeps_on_sched, add_keeps with keeps|intros ?]). apply keeps_ret.
Qed.

(** * Slots in the order they are taken *)

Definition free_slots (k : kern) : list Z := filter (fun i => slot_free (procs k) i = true) (seqZ 0 MAX_PROCESSES).

Lemma free_slots_nil k : (forall i, slot_ok i -> slot_free (procs k) i = false) -> free_slots k = [].
Proof.
  intros Hf. unfold free_slots. destruct (filter _ _) as [|i l] eqn:E; [done|]. exfalso.
  assert (Hi : i ∈ filter (fun i => slot_free (procs k) i = true) (seqZ 0 MAX_PROCESSES)) by (rewrite E; apply elem_of_cons; by left).
  apply list_elem_of_filter in Hi as [Hi Hr%elem_of_seqZ]. rewrite Hf in Hi; [done|]. unfold slot_ok. lia.
Qed.

Lemma filter_agree {A} (P Q : A -> Prop) `{!forall x, Decision (P x), !forall x, Decision (Q x)} (l : list A) :
  (forall x, x ∈ l -> P x <-> Q x) -> filter P l = filter Q l.
Proof.
  induction l as [|x l IH]; intros Hl; [done|]. rewrite !filter_cons, IH by (intros y Hy; apply Hl, elem_of_cons; by right).
  assert (Hx : P x <-> Q x) by (apply Hl, elem_of_cons; by left). destruct (decide (P x)), (decide (Q x)); tauto.
Qed.

Lemma free_slots_take k k' i : slot_ok i -> slot_free (procs k) i = true -> (forall j, j < i -> slot_free (procs k) j = false) ->
  (forall j, slot_free (procs k') j = if j =? i then false else slot_free (procs k) j) -> free_slots k = i :: free_slots k'.
Proof.
  unfold slot_ok. intros Hi Hf Hlow Hk'. unfold free_slots.
  assert (Hsplit : seqZ 0 MAX_PROCESSES = seqZ 0 i ++ i :: seqZ (i + 1) (MAX_PROCESSES - i - 1)).
  { replace MAX_PROCESSES with (i + (1 + (MAX_PROCESSES - i - 1))) at 1 by lia. rewrite seqZ_app, seqZ_app by lia.
    done. }
  assert (Hnone : forall k0, (forall j, j < i -> slot_free (procs k0) j = false) -> filter (fun j => slot_free (procs k0) j = true) (seqZ 0 i) = []).
  { intros k0 H0. destruct (filter _ (seqZ 0 i)) as [|j l] eqn:E; [done|]. exfalso.
    assert (Hj : j ∈ filter (fun j => slot_free (procs k0) j = true) (seqZ 0 i)) by (rewrite E; apply elem_of_cons; by left).
    apply list_elem_of_filter in Hj as [Hj Hr%elem_of_seqZ]. rewrite H0 in Hj by lia. done. }
  rewrite Hsplit, !filter_app, (Hnone k), (Hnone k'); [|intros j Hj; rewrite Hk'; destruct (j =? i); auto|done]. cbn [app].
  rewrite filter_cons_True, filter_cons_False by (rewrite ?Hk', ?Z.eqb_refl; done). f_equal.
  apply filter_agree. intros j Hj%elem_of_seqZ. by rewrite Hk', (proj2 (Z.eqb_neq j i)) by lia.
Qed.
(** * Creating processes one after another *)

(** The queue that results from queueing [ws] in order. *)
Definition line_of (rk : Z -> Z) (ws : list Z) : list Z := foldl (fun l i => insert_rank rk i l) [] ws.

Lemma line_of_perm rk ws : line_of rk ws ≡ₚ ws.
Proof.
  unfold line_of. assert (Hp : forall l, foldl (fun l i => insert_rank rk i l) l ws ≡ₚ l ++ ws).
  { induction ws as [|i ws IH]; intros l; cbn [foldl]; [by rewrite app_nil_r|]. rewrite IH, insert_rank_perm. cbn [app].
    by rewrite Permutation_middle. }
  apply Hp.
Qed.

Lemma insert_rank_agree rk rk' p l : rk p = rk' p -> (forall j, j ∈ l -> rk j = rk' j) -> insert_rank rk p l = insert_rank rk' p l.
Proof.
  intros Hp. induction l as [|x l IH]; intros Hl; [done|]. cbn [insert_rank].
  rewrite Hp, (Hl x), IH; [done| |]; [intros j Hj; apply Hl, elem_of_cons; by right|apply elem_of_cons; by left].
Qed.

Lemma line_of_snoc rk ws i : line_of rk (ws ++ [i]) = insert_rank rk i (line_of rk ws).
Proof. unfold line_of. by rewrite foldl_app. Qed.

Lemma line_of_agree rk rk' ws : (forall j, j ∈ ws -> rk j = rk' j) -> line_of rk ws = line_of rk' ws.
Proof.
  induction ws as [|i ws IH] using rev_ind; intros Hw; [done|]. rewrite !line_of_snoc, IH by (intros j Hj; apply Hw, elem_of_app; by left).
  apply insert_rank_agree; [apply Hw, elem_of_app; right; by apply list_elem_of_singleton|].
  intros j. rewrite line_of_perm. intros Hj. apply Hw, elem_of_app. by left.
Qed.

Definition rank_in (id : Z) (k : kern) (i : Z) : Z := sched_rank id (prio_in (procs k) i).

Lemma rank_core id k k' i : core_of (procs k') i = core_of (procs k) i -> rank_in id k' i = rank_in id k i.
Proof.
  unfold core_of, rank_in, prio_in. intros Hc. destruct (arr_get (pcb_table (procs k')) i), (arr_get (pcb_table (procs k)) i); try done.
  cbn in Hc. unfold core in Hc. injection Hc as _ _ Hp _. cbn. by rewrite Hp.
Qed.

(** [k] is [k0] after the creation of processes with the names and priorities
    [ts]: they took the first free slots as far as there were any, and wait in
    the queue, which was empty. *)
Record crew (k0 : kern) (id : Z) (ts : list (list Z * Z)) (k : kern) : Prop := {
  cw_tasks : tasks k id (line_of (rank_in id k) (take (length ts) (free_slots k0)));
  cw_free : free_slots k = drop (length ts) (free_slots k0);
  cw_new j i : take (length ts) (free_slots k0) !! j = Some i -> exists nm pr a, ts !! j = Some (nm, pr) /\
    core_of (procs k) i = Some (PROCESS_READY, next_pid k0 + Z.of_nat j, pr, a) /\ c_string a = take 23 (c_string nm);
  cw_old i : i ∉ take (length ts) (free_slots k0) ->
    core_of (procs k) i = core_of (procs k0) i /\ slot_free (procs k) i = slot_free (procs k0) i;
  cw_next : next_pid k = next_pid k0 + Z.of_nat (length (take (length ts) (free_slots k0)));
  cw_rest : (current_process (k_sched k), k_cpu k, counters (k_sched k)) =
            (current_process (k_sched k0), k_cpu k0, counters (k_sched k0)) }.

Lemma crew_nil k id : tasks k id [] -> crew k id [] k.
Proof. intros Ht. split; try done. symmetry. apply Z.add_0_r. Qed.

Lemma crew_step stacks nm entry prio k0 id ts k :
  crew k0 id ts k -> 0 <= prio -> next_pid k + 1 < 2 ^ 32 -> 0 <= stacks -> stacks + MAX_PROCESSES * STACK_SIZE < 2 ^ 64 ->
  runs (process_create stacks nm entry prio) k (fun _ k' => crew k0 id (ts ++ [(nm, prio)]) k').
Proof.
  intros [Ht Hfr Hnew Hold Hn Hrest] Hprio Hpid Hs0 Hs1.
  eapply runs_mono; [eapply runs_keeps; [apply create_keeps|by apply (process_create_tasks _ _ _ _ _ _ _ Ht)]|].
  set (fs := free_slots k0) in *. set (n := length ts) in *. intros [i|] k' [HQ Hcnt]; cbn [compose] in Hcnt.
  - destruct HQ as (Hi & Hf & Hlow & Ht' & (a & Ha & Hstr & Hcore) & _ & Hf' & [= Hn' _ _ Hcpu] & _ & Hcur).
    pose proof (free_slots_take _ _ _ Hi Hf Hlow Hf') as Hcons. rewrite Hfr in Hcons.
    assert (Hfn : fs !! n = Some i) by (rewrite <- (Nat.add_0_r n), <- lookup_drop, Hcons; done).
    assert (Hws : take (length (ts ++ [(nm, prio)])) fs = take n fs ++ [i])
      by (rewrite length_app, Nat.add_1_r; by apply take_S_r).
    assert (Hlen : length (take n fs) = n) by (rewrite length_take; apply lookup_lt_Some in Hfn; lia).
    assert (Hni : i ∉ take n fs).
    { intros Hin. apply list_elem_of_lookup in Hin as [j Hj]. pose proof Hj as Hj'. apply Hnew in Hj' as (? & ? & ? & _ & _ & _).
      assert (Hnd : NoDup fs) by (apply NoDup_filter, NoDup_seqZ). rewrite lookup_take_Some in Hj. destruct Hj as [Hj Hlt].
      pose proof (NoDup_lookup _ _ _ _ Hnd Hj Hfn). lia. }
    split; fold fs.
    + rewrite Hws, line_of_snoc. erewrite (line_of_agree _ (rank_in id k)); [exact Ht'|].
      intros j Hj. apply rank_core. rewrite Hcore, (proj2 (Z.eqb_neq j i)); [done|]. by intros ->.
    + rewrite length_app. cbn [length]. fold n. rewrite <- (drop_drop fs 1 n), Hcons. done.
    + rewrite Hws. intros j i' [Hj|[Hge Hj]]%lookup_app_Some.
      * destruct (Hnew j i' Hj) as (nm' & pr & b & Hts & Hc & ?). exists nm', pr, b. split_and!; [by apply lookup_app_l_Some| |done].
        rewrite Hcore, (proj2 (Z.eqb_neq i' i)); [done|]. intros ->. by apply list_elem_of_lookup_2 in Hj.
      * apply list_lookup_singleton_Some in Hj as [Hj ->]. exists nm, prio, a. split_and!; [|rewrite Hcore, Z.eqb_refl; do 4 f_equal; lia|done].
        rewrite lookup_app_r by lia. by replace (j - length ts)%nat with 0%nat by lia.
    + rewrite Hws. intros j Hj. rewrite not_elem_of_app, list_elem_of_singleton in Hj. destruct Hj as [Hj Hji].
      rewrite Hcore, Hf', !(proj2 (Z.eqb_neq j i)) by done. by apply Hold.
    + rewrite Hws, length_app, Hn', Hn. cbn [length]. lia.
    + rewrite Hcur, Hcpu, Hcnt. exact Hrest.
  - destruct HQ as [-> Hfull]. apply free_slots_nil in Hfull. rewrite Hfr in Hfull.
    assert (Hge : (length fs <= n)%nat) by (pose proof (length_drop fs n) as Hd; rewrite Hfull in Hd; cbn in Hd; lia).
    assert (Hws : take (length (ts ++ [(nm, prio)])) fs = take n fs) by (rewrite length_app, !take_ge by (cbn [length]; lia); done).
    split; fold fs; rewrite ?Hws; try done.
    + rewrite Hfr, !drop_ge by (rewrite ?length_app; cbn [length]; lia). done.
    + intros j i Hj. destruct (Hnew j i Hj) as (nm' & pr & b & Hts & ?). exists nm', pr, b. split; [by apply lookup_app_l_Some|done].
Qed.
(** * Changing the scheduler *)

(** [k] is [k0] under the scheduler [id] with an empty queue: processes that
    were queued before are in no queue now. *)
Record switched (k0 : kern) (id : Z) (k : kern) : Prop := {
  sw_tasks : tasks k id [];
  sw_procs : procs k = procs k0;
  sw_rest : (current_process (k_sched k), k_cpu k, next_pid k) = (current_process (k_sched k0), k_cpu k0, next_pid k0);
  sw_levels : four_levels (k_sched k0) -> four_levels (k_sched k) }.

Lemma scheduler_set_levels id s : sched_id_ok id -> runs (scheduler_set id) s (fun _ s' => four_levels s -> four_levels s').
Proof.
  unfold sched_id_ok, SCHED_COUNT. intros Hid. assert (id = 0 \/ id = 1 \/ id = 2 \/ id = 3) as [-> |[-> |[-> | ->]]] by lia;
    (by eexists tt, _; split; [reflexivity|]).
Qed.

Lemma runs_and {S A} (m : prog S A) s (P Q : A -> S -> Prop) : runs m s P -> runs m s Q -> runs m s (fun a s' => P a s' /\ Q a s').
Proof. intros (a & s' & Hm & HP) HQ. exists a, s'. split_and!; [done|done|]. by eapply runs_det. Qed.

Section spawning.
Context {H : Type} {HP : PortIO H} {D : Type} {HD : BlockDevice D}.
Variables (img : image) (entries : workers).
Implicit Types (s : ares H D).

(** What creation needs of the linker. *)
Definition stacks_ok : Prop := 0 <= process_stacks img /\ process_stacks img + MAX_PROCESSES * STACK_SIZE < 2 ^ 64.

Lemma scheduler_init_ok id s id0 l0 : sched_id_ok id -> tasks (a_kern s) id0 l0 ->
  runs (scheduler_init id) s (fun _ s' => exists k o, s' = set_kern k (set_out o s) /\ switched (a_kern s) id k).
Proof.
  intros Hid [Hr Hsl Hu Hnm Hp]. unfold scheduler_init. apply runs_bind, runs_on, runs_on_sched.
  eapply runs_mono; [apply runs_and; [apply (scheduler_set_ok id _ Hid), Hr|by apply scheduler_set_levels]|].
  intros [] s2 ((Hr2 & Hp2 & Hc2 & _) & Hl). apply runs_say. exists (set_sched s2 (a_kern s)). eexists. split; [reflexivity|].
  assert (Hprocs : procs (set_sched s2 (a_kern s)) = procs (a_kern s)) by exact Hp2.
  split; [split|done| |done]; try done.
  - intros i. by rewrite elem_of_nil.
  - rewrite Hprocs. exact Hnm.
  - cbn [k_sched set_sched k_cpu next_pid]. by rewrite Hc2.
Qed.

Lemma switched_crew k0 id k : switched k0 id k -> crew k id [] k /\ free_slots k = free_slots k0.
Proof. intros Hs. split; [apply crew_nil, Hs|]. unfold free_slots. by rewrite (sw_procs _ _ _ Hs). Qed.

Lemma spawn_all_ok l : forall s k0 id ts, stacks_ok -> crew k0 id ts (a_kern s) -> Forall (fun t : string * Z * Z => 0 <= t.2) l ->
  next_pid k0 + Z.of_nat (length ts + length l) < 2 ^ 32 ->
  runs (spawn_all img l) s (fun _ s' => exists k, s' = set_kern k s /\ crew k0 id (ts ++ ((fun t => (text t.1.1, t.2)) <$> l)) k).
Proof.
  induction l as [|[[nm e] pr] l IH]; intros s k0 id ts Hst Hc Hpr Hn; cbn [spawn_all foldr].
  - apply runs_ret. exists (a_kern s). split; [by destruct s|]. cbn. by rewrite app_nil_r.
  - apply Forall_cons in Hpr as [Hpr1 Hpr]. cbn [fst snd length] in *. apply runs_bind, runs_on. destruct Hst as [Hs0 Hs1].
    eapply runs_mono; [apply (crew_step _ _ _ _ _ _ _ _ Hc); try done|].
    { rewrite (cw_next _ _ _ _ Hc), length_take. lia. }
    intros r k1 Hk1. eapply runs_mono; [apply (IH _ k0 id (ts ++ [(text nm, pr)])); [done|exact Hk1|done|]|].
    { rewrite length_app. cbn [length]. lia. }
    intros [] s' (k & -> & Hk). exists k. split; [done|]. rewrite fmap_cons. by rewrite <- app_assoc in Hk.
Qed.

Lemma crew_rank k0 id ts k j i nm pr : crew k0 id ts k -> take (length ts) (free_slots k0) !! j = Some i -> ts !! j = Some (nm, pr) ->
  rank_in id k i = sched_rank id pr.
Proof.
  intros Hc Hi Hj. destruct (cw_new _ _ _ _ Hc j i Hi) as (nm' & pr' & a & Hj' & Hcore & _). rewrite Hj in Hj'. injection Hj' as <- <-.
  unfold rank_in, prio_in, core_of in *. destruct (arr_get (pcb_table (procs k)) i) as [p|]; [|done]. cbn in *. by injection Hcore as _ _ -> _.
Qed.

(** Announce, change the scheduler, create. *)
Lemma demo_ok head id l s id0 l0 : sched_id_ok id -> stacks_ok -> tasks (a_kern s) id0 l0 ->
  Forall (fun t : string * Z * Z => 0 <= t.2) l -> next_pid (a_kern s) + Z.of_nat (length l) < 2 ^ 32 ->
  runs (_ ← say head; _ ← scheduler_init id; spawn_all img l) s (fun _ s' => exists k0 k o, s' = set_kern k (set_out o s) /\
    switched (a_kern s) id k0 /\ crew k0 id ((fun t => (text t.1.1, t.2)) <$> l) k).
Proof.
  intros Hid Hst Ht Hpr Hn. apply runs_bind, runs_say. apply runs_bind.
  eapply runs_mono; [by apply (scheduler_init_ok id _ id0 l0)|]. intros [] s1 (k0 & o & -> & Hsw).
  destruct (switched_crew _ _ _ Hsw) as [Hc _]. pose proof (sw_rest _ _ _ Hsw) as Hrest. injection Hrest as _ _ Hnp.
  eapply runs_mono; [apply (spawn_all_ok l _ k0 id []); [done|exact Hc|done|]|].
  { rewrite Hnp. exact Hn. }
  intros [] s' (k & -> & Hk). exists k0, k. eexists. split; [reflexivity|]. by split.
Qed.

(** The rank of the process of slot [i], the [j]th created, as a number. *)
Local Ltac pose_rank Hc Hfs j i :=
  let R := fresh "R" in
  pose proof (crew_rank _ _ _ _ j i _ _ Hc ltac:(by rewrite Hfs) eq_refl) as R;
  match type of R with _ = ?r => let v := eval vm_compute in r in change r with v in R end.

(** The four scheduling demos.  Whatever was queued before, each demo
    leaves exactly its own processes in the ready queue, in the slots that
    were free, lowest first: in the order of creation under FCFS and round
    robin, the high priority before the normal and the low one under the
    priority scheduler, and real time first under MLQ. *)
Theorem demo_tasks_line_up s id0 l0 a b c d rest :
  stacks_ok -> tasks (a_kern s) id0 l0 -> next_pid (a_kern s) + 4 < 2 ^ 32 -> free_slots (a_kern s) = a :: b :: c :: d :: rest ->
  runs (demo_task_fcfs img entries) s (fun _ s' => tasks (a_kern s') SCHED_FCFS [a; b; c]) /\
  runs (demo_task_rr img entries) s (fun _ s' => tasks (a_kern s') SCHED_RR [a; b; c]) /\
  runs (demo_task_priority img entries) s (fun _ s' => tasks (a_kern s') SCHED_PRIORITY [c; b; a]) /\
  runs (demo_task_mlq img entries) s (fun _ s' => tasks (a_kern s') SCHED_MLQ [d; c; b; a]).
Proof.
  intros Hst Ht Hn Hfree.
  split_and!.
  all: (eapply runs_mono; [eapply (demo_ok _ _ _ _ id0 l0); [split; done|done|done| |]|]); [repeat constructor; done|cbn [length]; lia|].
  all: intros [] s' (k0 & k & o & -> & Hsw & Hc); destruct (switched_crew _ _ _ Hsw) as [_ Hfs]; rewrite Hfree in Hfs.
  all: pose proof (cw_tasks _ _ _ _ Hc) as Hk; rewrite Hfs in Hk; cbn [fmap list_fmap length take] in Hk.
  all: pose_rank Hc Hfs 0%nat a; pose_rank Hc Hfs 1%nat b; pose_rank Hc Hfs 2%nat c.
  4: pose_rank Hc Hfs 3%nat d.
  all: revert Hk; unfold line_of; cbn [foldl].
  all: repeat (cbn [insert_rank Z.ltb Z.compare Pos.compare Pos.compare_cont];
               match goal with E : rank_in _ _ ?i = _ |- context [rank_in _ _ ?i] => rewrite E end).
  all: exact (fun x => x).
Qed.

End spawning.
(** * Waiting *)

Lemma ready_dispatch s s' id l : dispatch_state s' = dispatch_state s -> ready s id l -> ready s' id l.
Proof.
  intros [= E1 E2 E3 E4 E5 E6 E7] [H1 H2 H3 H4]. split; [done|congruence|congruence|]. revert H4.
  unfold sched_rep. destruct (id =? SCHED_FCFS), (id =? SCHED_RR), (id =? SCHED_PRIORITY); unfold fcfs_rep, rr_rep, prio_rep, mlq_rep; by rewrite E1, ?E4, ?E5, ?E6, ?E7.
Qed.

Lemma tasks_dispatch x k id l : dispatch_state x = dispatch_state (k_sched k) -> tasks k id l -> tasks (set_sched x k) id l.
Proof.
  intros E [Hr Hsl Hu Hnm Hp]. assert (Hprocs : procs (set_sched x k) = procs k) by (by injection E).
  split; rewrite ?Hprocs; try done. by apply (ready_dispatch (k_sched k)).
Qed.

(** * Switches forced by the timer *)

(** The process called running and those that wait. *)
Definition in_turn (k : kern) (l : list Z) : list Z := option_list (current_process (k_sched k)) ++ l.

(** [k] is [k0] after some switches: the same processes take turns, in another
    order. *)
Record shuffled (id : Z) (k0 : kern) (l0 : list Z) (k : kern) (l : list Z) : Prop := {
  sh_tasks : tasks k id l;
  sh_turn : in_turn k l ≡ₚ in_turn k0 l0;
  sh_free i : slot_free (procs k) i = slot_free (procs k0) i;
  sh_core i st pd pr nm : core_of (procs k0) i = Some (st, pd, pr, nm) -> active_state st = true ->
    exists st', core_of (procs k) i = Some (st', pd, pr, nm) /\ active_state st' = true;
  sh_levels : four_levels (k_sched k);
  sh_cpu : k_cpu k = k_cpu k0;
  sh_next : next_pid k = next_pid k0 }.

(** Each process has one place and a slot. *)
Definition turn_ok (k : kern) (l : list Z) : Prop := NoDup (in_turn k l) /\ forall i, i ∈ in_turn k l -> slot_ok i /\ slot_free (procs k) i = false.

Lemma shuffled_refl id k l : tasks k id l -> four_levels (k_sched k) -> shuffled id k l k l.
Proof. intros Ht Hl. split; try done. eauto. Qed.

Lemma shuffled_current id k0 l0 k l c : turn_ok k0 l0 -> shuffled id k0 l0 k l -> current_process (k_sched k) = Some c ->
  slot_ok c /\ slot_free (procs k) c = false /\ c ∉ l.
Proof.
  intros [Hnd Hs] Hsh Hc. pose proof (sh_turn _ _ _ _ _ Hsh) as Hp. rewrite <- Hp in Hnd. unfold in_turn in Hnd, Hp at 1. rewrite Hc in Hnd, Hp.
  cbn [option_list app] in Hnd, Hp. apply NoDup_cons in Hnd as [Hn _]. rewrite (sh_free _ _ _ _ _ Hsh).
  destruct (Hs c) as [? ?]; [|done]. rewrite <- Hp. apply elem_of_cons. by left.
Qed.

Lemma shuffled_safe id k0 l0 k l : turn_ok k0 l0 -> shuffled id k0 l0 k l -> Interrupt.tick_safe (k_sched k).
Proof.
  intros Hok Hsh. split; [|apply (sh_levels _ _ _ _ _ Hsh)]. intros c Hc. destruct (shuffled_current _ _ _ _ _ _ Hok Hsh Hc) as [Hs _].
  destruct (tasks_slot _ _ _ c (sh_tasks _ _ _ _ _ Hsh) Hs) as (p & Hp & _). by exists p.
Qed.

(** Counting and asking for a switch do not disturb. *)
Lemma shuffled_dispatch id k0 l0 k l x : shuffled id k0 l0 k l -> dispatch_state x = dispatch_state (k_sched k) ->
  four_levels x -> shuffled id k0 l0 (set_sched x k) l.
Proof.
  intros [Ht Hp Hf Hc Hl Hcpu Hn] Hx Hx4. assert (procs (set_sched x k) = procs k) as Hprocs by (by injection Hx).
  assert (Hcx : current_process x = current_process (k_sched k)) by (by injection Hx).
  split; rewrite ?Hprocs; try done; [by apply tasks_dispatch|]. unfold in_turn in *. cbn [k_sched set_sched]. by rewrite Hcx.
Qed.

Lemma queues_pop_frame ids : forall qs s r s', queues_pop ids qs s = Some (r, s') -> exists x, s' = set_pcbs x s.
Proof.
  induction ids as [|i ids IH]; intros qs s r s'; cbn [queues_pop]; [intros [= _ <-]; exists (s_pcbs s); by destruct s|].
  unfold mbind, prog_bind, need. destruct (arr_get qs i); [|done]. cbn [fmap option_fmap option_map].
  destruct (on_pcbs _ s) as [[[n q'] s1]|] eqn:E; [|done]. apply on_pcbs_frame in E as [x ->].
  destruct (arr_set qs i q'); [|done]. cbn [fmap option_fmap option_map]. destruct n; [intros [= _ <-]; by exists x|].
  intros [y ->]%IH. by exists y.
Qed.

Lemma four_counters {A} (m : prog sched A) : keeps counters m -> stable four_levels m.
Proof. by apply (keeps_stable _ _ (fun c => length c = 4%nat)). Qed.

Lemma next_levels : stable four_levels scheduler_next.
Proof.
  unfold stable, scheduler_next. apply (dispatcher_cases (fun s s' => four_levels s -> four_levels s') op_next None); [done|..]; intros s a s';
    cbn [op_next fcfs_ops rr_ops priority_ops mlq_ops]; unfold fcfs_next, rr_next, prio_next, mlq_next, mbind, prog_bind, gets; cbv zeta.
  1, 2: destruct (on_pcbs _ s) as [[[n q] s1]|] eqn:E; [|done]; apply on_pcbs_frame in E as [x ->]; by intros [= _ <-].
  all: destruct (queues_pop _ _ s) as [[[n qs] s1]|] eqn:E; [|done]; apply queues_pop_frame in E as [x ->]; intros [= _ <-]; by destruct n.
Qed.

Lemma stable_on_sched {A} (P : sched -> Prop) (m : prog sched A) : stable P m -> stable (P ∘ k_sched) (on_sched m).
Proof. intros Hm k a k'. unfold on_sched. destruct (m (k_sched k)) as [[b x]|] eqn:E; [|done]. intros [= <- <-]. by eapply Hm. Qed.

Lemma stable_ret {S A} (P : S -> Prop) (a : A) : stable P (mret a).
Proof. by intros s ? ? [= <- <-]. Qed.

Lemma switch_keeps ret n : keeps (counters ∘ k_sched) (context_switch ret n).
Proof.
  assert (Hpop : keeps (counters ∘ k_sched) pop) by (by intros k a k' [= <- <-]).
  unfold context_switch, push_regs, pop_regs, push, reg, get_current.
  repeat (apply keeps_bind; [try (case_match); eauto 20 using keeps_on_table with keeps|intros ?]). exact Hpop.
Qed.

Lemma yield_levels ret : stable (four_levels ∘ k_sched) (yield ret).
Proof.
  assert (Htab : forall A (m : prog pcbs A), stable (four_levels ∘ k_sched) (on_table m)).
  { intros A m. apply (keeps_stable _ (counters ∘ k_sched) (fun c => length c = 4%nat)); [done|]. apply keeps_on_table. }
  unfold yield. apply stable_bind; [by intros k a k' [= <- <-]|]. intros [c|]; [|apply stable_ret].
  apply stable_bind; [apply Htab|]. intros _. apply stable_bind; [apply stable_on_sched, four_counters, add_keeps|]. intros _.
  apply stable_bind; [apply stable_on_sched, next_levels|]. intros [n|].
  - apply stable_bind; [apply Htab|]. intros _. apply stable_bind; [by intros k a k' [= <- <-]|]. intros _.
    apply stable_bind; [|intros a; apply stable_ret].
    apply (keeps_stable _ (counters ∘ k_sched) (fun c => length c = 4%nat)); [done|]. apply switch_keeps.
  - apply stable_bind; [|intros _; apply stable_ret]. apply stable_on_sched, four_counters, remove_keeps.
Qed.

(** A forced switch comes straight back. *)
Lemma shuffled_yield img id k0 l0 k l : turn_ok k0 l0 -> cpu_ok (k_cpu k0) -> 0 <= ret img < 2 ^ (8 * 8) -> shuffled id k0 l0 k l ->
  runs (yield (ret img)) k (fun a k' => away img a = None /\ exists l', shuffled id k0 l0 k' l').
Proof.
  intros Hok Hcpu Hret Hsh. destruct (current_process (k_sched k)) as [c|] eqn:Hc.
  2: { unfold yield, get_current. run. rewrite Hc. apply runs_ret. eauto. }
  destruct (shuffled_current _ _ _ _ _ _ Hok Hsh Hc) as (Hs & Hf & Hn). pose proof Hsh as [Ht Hp Hfr Hco Hl Hcpuk Hnp].
  eapply runs_mono; [eapply (runs_stable (four_levels ∘ k_sched)); [apply yield_levels|exact Hl|apply (yield_tasks _ k id l c); try done; by rewrite Hcpuk]|].
  intros a k' [(-> & Hcpu' & n & l' & Hins & Hc' & Ht' & Hf' & Hco' & [= Hn' _ _]) Hl']. split; [cbn [away]; by rewrite Z.eqb_refl|].
  exists l'. split; try done; [|intros i; by rewrite Hf'| |congruence|congruence].
  - rewrite <- Hp. unfold in_turn. rewrite Hc, Hc'. change (n :: l' ≡ₚ c :: l). rewrite <- Hins. apply insert_rank_perm.
  - intros i st pd pr nm Hi Ha. destruct (Hco i _ _ _ _ Hi Ha) as (st' & Hi' & Ha'). rewrite Hco', Hi'. cbn [fmap option_fmap option_map].
    unfold restate, core_state. destruct (i =? c), (i =? n); by eexists.
Qed.

Section waiting.
Context {H : Type} {HP : PortIO H} {D : Type} {HD : BlockDevice D}.
Variables (img : image) (frame : Interrupt.interrupt_frame).
Implicit Types (s : ares H D).

(** The state at a later tick: the hardware, the tick count, the keyboard
    buffer and the processes. *)
Definition at_tick (h : H) (t : Z) (kb : Keyboard.kbd) (k : kern) s : ares H D :=
  mk_ares h (a_idt s) (a_isrs s) t kb k (a_fdt s) (a_fs s) (a_vmm s) (a_heap s) (a_auth s) (a_log s) (a_history s) (a_out s).

Variables (id : Z) (k0 : kern) (l0 : list Z).
Hypotheses (Hok : turn_ok k0 l0) (Hcpu : cpu_ok (k_cpu k0)) (Hret : 0 <= ret img < 2 ^ (8 * 8)).

(** The processes take turns and the keyboard buffer is in order. *)
Definition waits s : Prop := (exists l, shuffled id k0 l0 (a_kern s) l) /\ exists a, Keyboard.abs_ok (a_kbd s) a.

(** [s'] is [s] after some time, at tick [t]. *)
Definition later s (t : Z) s' : Prop := waits s' /\ exists h kb k, s' = at_tick h t kb k s.

Lemma later_refl s : waits s -> later s (a_ticks s) s.
Proof. intros Hs. split; [done|]. exists (a_hw s), (a_kbd s), (a_kern s). by destruct s. Qed.

Lemma later_trans s t s1 t' s2 : later s t s1 -> later s1 t' s2 -> later s t' s2.
Proof. intros [_ (h & kb & k & ->)] [Hw (h' & kb' & k' & ->)]. split; [done|]. by exists h', kb', k'. Qed.

Lemma later_ticks s t s' : later s t s' -> a_ticks s' = t /\ waits s'.
Proof. by intros [Hw (h & kb & k & ->)]. Qed.

Lemma resched_ok s : waits s -> runs (isr_resched img) s (fun a s' => a = None /\ later s (a_ticks s) s').
Proof.
  intros [[l Hsh] Hkb]. unfold isr_resched. run. cbn [compose]. destruct (need_resched _ =? 0).
  { apply runs_ret. split; [done|]. apply later_refl. split; [by exists l|done]. }
  apply runs_bind, runs_on, runs_on_sched, runs_modify. apply runs_bind, runs_on.
  eapply runs_mono; [apply (shuffled_yield _ id k0 l0 _ l Hok Hcpu Hret)|].
  - cbn [a_kern set_kern]. apply shuffled_dispatch; [done|done|]. apply (sh_levels _ _ _ _ _ Hsh).
  - intros a k (-> & l' & Hk). apply runs_ret. split; [done|]. split; [split; [by exists l'|done]|].
    exists (a_hw s), (a_kbd s), k. by destruct s.
Qed.

Lemma timers_range l : 0 <= timers l.
Proof. apply countb_range. Qed.

Lemma timers_cons i l : timers (i :: l) = timers [i] + timers l.
Proof. unfold timers. cbn [countb]. lia. Qed.

Lemma timers_app l1 l2 : timers (l1 ++ l2) = timers l1 + timers l2.
Proof. unfold timers. induction l1 as [|i l1 IH]; [done|]. cbn [app countb]. lia. Qed.

Lemma timer_ok s : waits s -> runs (interrupt img frame Timer) s (fun a s' => a = None /\ later s (u64 (a_ticks s + 1)) s').
Proof.
  intros [[l Hsh] Hkb]. pose proof (shuffled_safe _ _ _ _ _ Hok Hsh) as Hs. unfold interrupt. apply runs_bind, runs_on.
  unfold Interrupt.timer_handler. run. apply Ports.runs_dev. run. apply Ports.runs_dev.
  destruct (runs_keeps dispatch_state _ _ _ tick_keeps (Interrupt.tick_safe_tick _ Hs)) as ([] & x & Hx & [_ Hx4] & Hd).
  exists tt. eexists. split; [unfold Interrupt.on_sched; cbn; by rewrite Hx|]. apply runs_bind, Ports.runs_outb. run.
  eapply runs_mono; [eapply resched_ok; split; [exists l; by apply (shuffled_dispatch _ _ _ _ _ x Hsh)|exact Hkb]|].
  intros a s' [-> [Hw (h & kb & k & ->)]]. split; [done|]. split; [done|]. by exists h, kb, k.
Qed.

Lemma key_ok s : waits s -> runs (interrupt img frame Key) s (fun a s' => a = None /\ later s (a_ticks s) s').
Proof.
  intros [[l Hsh] [a Hkb]]. unfold interrupt. apply runs_bind, runs_on. unfold Interrupt.keyboard_handler. run.
  destruct (Interrupt.keyboard_irq_ok (a_hw s) _ a Hkb) as ([] & [h kb] & Hk & _ & Hkb'). cbn [snd] in Hkb'.
  exists tt. eexists. split; [unfold Interrupt.on_kbd, machine_of; cbn; by rewrite Hk|]. run.
  eapply runs_mono; [eapply resched_ok; split; [exists l|]|]; cbn.
  - replace (set_sched (k_sched (a_kern s)) (a_kern s)) with (a_kern s) by (by destruct (a_kern s)). exact Hsh.
  - exact Hkb'.
  - intros r s' [-> [Hw (h' & kb' & k' & ->)]]. split; [done|]. split; [done|]. by exists h', kb', k'.
Qed.

(** Every interrupt comes back, and only the timer's moves the clock. *)
Lemma interrupts_ok ls : forall s, waits s -> 0 <= a_ticks s -> a_ticks s + timers ls < 2 ^ 64 ->
  runs (interrupts img frame ls) s (fun a s' => a = None /\ later s (a_ticks s + timers ls) s').
Proof.
  induction ls as [|i ls IH]; intros s Hs H0 H1; cbn [interrupts].
  { apply runs_ret. split; [done|]. rewrite Z.add_0_r. by apply later_refl. }
  rewrite timers_cons in *. pose proof (timers_range ls). unfold stay. apply runs_bind.
  assert (Hi : runs (interrupt img frame i) s (fun a s' => a = None /\ later s (a_ticks s + timers [i]) s')).
  { destruct i; cbn [timers countb] in *.
    - eapply runs_mono; [by apply timer_ok|]. intros a s' [-> Hl]. split; [done|]. rewrite wrap_small in Hl by lia. exact Hl.
    - eapply runs_mono; [by apply key_ok|]. intros a s' [-> Hl]. split; [done|]. by rewrite Z.add_0_r. }
  eapply runs_mono; [exact Hi|]. intros a s1 [-> Hl]. destruct (later_ticks _ _ _ Hl) as [Ht Hw].
  pose proof (timers_range [i]). eapply runs_mono; [apply IH; [done|lia|lia]|]. intros a s2 [-> Hl2]. split; [done|].
  rewrite Ht in Hl2. eapply later_trans; [exact Hl|]. by rewrite Z.add_assoc.
Qed.

Lemma taken_ok ls s : waits s -> 0 <= a_ticks s -> a_ticks s + timers ls < 2 ^ 64 ->
  runs (taken img frame ls) s (fun r s' => r = Finished tt /\ later s (a_ticks s + timers ls) s').
Proof.
  intros Hs H0 H1. unfold taken. apply runs_bind. eapply runs_mono; [by apply interrupts_ok|]. intros a s' [-> Hl]. by run.
Qed.

(** Waiting ends at the target or, when the clock goes by single ticks, just
    there; without enough ticks it goes on. *)
Lemma wait_until_ok arr : forall s target, waits s -> 0 <= a_ticks s -> a_ticks s + round_timers arr < 2 ^ 64 ->
  runs (wait_until img frame arr target) s (fun r s' => exists t, later s t s' /\ a_ticks s <= t <= a_ticks s + round_timers arr /\
    (r = Finished tt /\ target <= t /\ (slow arr -> t = Z.max (a_ticks s) target) \/
     r = Waiting /\ a_ticks s + round_timers arr < target)).
Proof.
  induction arr as [|b arr IH]; intros s target Hs H0 H1; cbn [wait_until].
  { run. change (round_timers []) with 0. destruct (Z.ltb_spec (a_ticks s) target); run; exists (a_ticks s);
      (split; [by apply later_refl|]); (split; [lia|]); [right|left]; split_and!; (done || lia). }
  assert (Hb : round_timers (b :: arr) = timers (b.1 :: b.2) + round_timers arr).
  { unfold round_timers. cbn [fmap list_fmap concat]. by rewrite timers_app. }
  rewrite Hb in *. pose proof (timers_range (b.1 :: b.2)). pose proof (timers_range (concat ((fun b => b.1 :: b.2) <$> arr))) as Hr.
  change (0 <= round_timers arr) in Hr. run. destruct (Z.ltb_spec (a_ticks s) target) as [Hlt|Hge].
  2: { run. exists (a_ticks s). split; [by apply later_refl|]. split; [lia|]. left. split_and!; [done|done|lia]. }
  apply runs_bind. eapply runs_mono; [exact (interrupts_ok (b.1 :: b.2) s Hs H0 ltac:(lia))|]. intros a s1 [-> Hl]. destruct (later_ticks _ _ _ Hl) as [Ht Hw].
  eapply runs_mono; [apply (IH s1 target); [done|lia|lia]|]. intros r s2 (t & Hl2 & Hrange & Hcase). exists t.
  split; [by eapply later_trans|]. rewrite Ht in *. split; [lia|]. destruct Hcase as [(-> & Hge & Hslow)|[-> Hlow]]; [left|right; split; [done|lia]].
  split_and!; [done|done|]. intros [Hb1 Hbs]%Forall_cons. rewrite (Hslow Hbs). lia.
Qed.
End waiting.
(** * The scheduler benchmark runs no worker *)

Lemma get_stats_run id l k : tasks k id l ->
  runs (on_sched scheduler_get_stats) k (fun st k' => exists x st', st = Some st' /\
    k' = set_sched x k /\ dispatch_state x = dispatch_state (k_sched k) /\ (four_levels (k_sched k) -> four_levels x)).
Proof.
  intros [[Hid Ha _ _] _ _ _ _]. apply runs_on_sched. unfold sched_id_ok, SCHED_COUNT in Hid.
  assert (Hc : id = 0 \/ id = 1 \/ id = 2 \/ id = 3) by lia. unfold scheduler_get_stats, g_ops. run. rewrite Ha.
  destruct Hc as [-> |[-> |[-> | ->]]]; (eexists _, _; split; [reflexivity|]; eexists _, _; split; [reflexivity|]; by split_and!).
Qed.

(** The names "w0" to "w15". *)
Definition worker_name (i : Z) : list Z := if i <? 10 then [119; 48 + i] else [119; 48 + i / 10; 48 + i mod 10].

Lemma bench_make_name_ok out i : length out = 8%nat -> 0 <= i < 16 ->
  exists nm, bench_make_name out i = Some nm /\ take 23 (c_string nm) = worker_name i.
Proof.
  intros Hl Hi. do 8 (destruct out as [|? out]; [done|]). destruct out; [|done].
  assert (Hin : i ∈ seqZ 0 16) by (apply elem_of_seqZ; lia). vm_compute in Hin.
  repeat (apply elem_of_cons in Hin as [->|Hin]; [eexists; split; reflexivity|]). by apply elem_of_nil in Hin.
Qed.

(** The processes the benchmark creates, in order. *)
Definition worker_list (name : list Z) (n : Z) : list (list Z * Z) := (fun i => (default [] (bench_make_name name i), i mod 4)) <$> seqZ 0 n.

Lemma worker_list_S name i : 0 <= i -> worker_list name (i + 1) = worker_list name i ++ [(default [] (bench_make_name name i), i mod 4)].
Proof. intros Hi. unfold worker_list. rewrite seqZ_app, fmap_app by lia. cbn. by replace (Z.of_nat 0 + (0 + i)) with i by lia. Qed.

Lemma free_slots_spec k i : i ∈ free_slots k <-> slot_ok i /\ slot_free (procs k) i = true.
Proof. unfold free_slots, slot_ok. rewrite list_elem_of_filter, elem_of_seqZ. intuition lia. Qed.

Lemma crew_free k0 id ts k i : crew k0 id ts k -> i ∈ take (length ts) (free_slots k0) ->
  slot_free (procs k0) i = true /\ slot_free (procs k) i = false.
Proof.
  intros Hc Hi. split.
  - apply (free_slots_spec k0). rewrite <- (take_drop (length ts) (free_slots k0)), elem_of_app. by left.
  - apply (tk_used _ _ _ (cw_tasks _ _ _ _ Hc)). by rewrite line_of_perm.
Qed.

(** Workers created in free slots and the process called running take turns. *)
Lemma workers_turn k0 id k1 ts k : switched k0 id k1 -> four_levels (k_sched k0) ->
  (forall c, current_process (k_sched k0) = Some c -> slot_ok c /\ slot_free (procs k0) c = false) -> crew k1 id ts k ->
  exists l, turn_ok k l /\ shuffled id k l k l /\ in_turn k l ≡ₚ in_turn k0 (take (length ts) (free_slots k0)).
Proof.
  intros Hsw Hlev Hcur Hk. destruct (switched_crew _ _ _ Hsw) as [_ Hfs]. pose proof (sw_rest _ _ _ Hsw) as Hr. injection Hr as Hc1 _ _.
  pose proof (cw_rest _ _ _ _ Hk) as Hkr. injection Hkr as Hc _ Hkl. pose proof (cw_tasks _ _ _ _ Hk) as Ht.
  set (ws := take (length ts) (free_slots k1)) in *. exists (line_of (rank_in id k) ws).
  assert (Hp : in_turn k (line_of (rank_in id k) ws) ≡ₚ in_turn k0 ws) by (unfold in_turn; by rewrite Hc, Hc1, line_of_perm).
  assert (Hw : forall i, i ∈ ws -> slot_ok i /\ slot_free (procs k1) i = true /\ slot_free (procs k) i = false).
  { intros i Hi. destruct (crew_free _ _ _ _ _ Hk Hi) as [? ?]. split_and!; [|done|done].
    apply (free_slots_spec k1). rewrite <- (take_drop (length ts)). apply elem_of_app. by left. }
  assert (Hcw : forall c, current_process (k_sched k0) = Some c -> c ∉ ws).
  { intros c Hcc Hi. destruct (Hw c Hi) as (_ & Hf & _). rewrite (sw_procs _ _ _ Hsw) in Hf. destruct (Hcur c Hcc). congruence. }
  split_and!; [split|apply shuffled_refl; [done|]|by rewrite <- Hfs].
  - rewrite Hp. unfold in_turn. assert (Hnd : NoDup ws).
    { pose proof (NoDup_filter (fun i => slot_free (procs k1) i = true) _ (NoDup_seqZ 0 MAX_PROCESSES)) as Hn. change (NoDup (free_slots k1)) in Hn.
      rewrite <- (take_drop (length ts)) in Hn. by apply NoDup_app in Hn as [? _]. }
    destruct (current_process (k_sched k0)) as [c|] eqn:E; [|done]. apply NoDup_cons. auto.
  - intros i. rewrite Hp. unfold in_turn. rewrite elem_of_app. intros [Hi|Hi]; [|by destruct (Hw i Hi) as (? & _ & ?)].
    destruct (current_process (k_sched k0)) as [c|] eqn:E; [|by apply elem_of_nil in Hi]. apply list_elem_of_singleton in Hi as ->.
    destruct (Hcur c eq_refl) as [? Hf]. split; [done|]. destruct (cw_old _ _ _ _ Hk c) as [_ ->]; [by apply Hcw|]. by rewrite (sw_procs _ _ _ Hsw).
  - unfold four_levels. rewrite Hkl. by apply (sw_levels _ _ _ Hsw).
Qed.

Lemma free_slots_same k k' : (forall i, slot_free (procs k') i = slot_free (procs k) i) -> free_slots k' = free_slots k.
Proof. intros Hf. unfold free_slots. apply filter_agree. intros i _. by rewrite Hf. Qed.

Section measuring.
Context {H : Type} {HP : PortIO H} {D : Type} {HD : BlockDevice D}.
Variables (img : image) (entries : workers) (frame : Interrupt.interrupt_frame).
Implicit Types (s : ares H D) (v : bvars).

Lemma spawn_workers_ok n name v s k0 id : stacks_ok img -> length name = 8%nat -> 0 <= n <= 16 -> next_pid k0 + 16 < 2 ^ 32 ->
  crew k0 id [] (a_kern s) ->
  runs (for_ (Z.to_nat n) 0 (fun i =>
    nm ← need (bench_make_name name i);
    _ ← sysp (spawn img nm (bench_worker_addr entries) (Z.rem (u32 i) PRIORITY_COUNT)); mret tt)) (v, s)
  (fun _ t => t.1 = v /\ exists k, t.2 = set_kern k s /\ crew k0 id (worker_list name n) k).
Proof.
  intros [Hs0 Hs1] Hl Hn Hp Hc.
  eapply runs_mono; [apply (runs_for (fun i t => t.1 = v /\ exists k, t.2 = set_kern k s /\ crew k0 id (worker_list name i) k))|].
  - split; [done|]. exists (a_kern s). split; [by destruct s|exact Hc].
  - intros i [v' t] Hi (Hv & k & Ht & Hk). cbn [fst snd] in *. subst v' t.
    destruct (bench_make_name_ok name i Hl ltac:(lia)) as (nm & Hnm & _). run. eapply runs_need; [exact Hnm|]. run.
    unfold sysp. apply Ports.runs_dev, runs_on. cbn [a_kern set_kern].
    replace (Z.rem (u32 i) PRIORITY_COUNT) with (i mod 4) by (rewrite wrap_small, Z.rem_mod_nonneg by (unfold PRIORITY_COUNT; lia); done).
    eapply runs_mono; [apply (crew_step _ nm _ _ _ _ _ _ Hk); [apply Z.mod_pos_bound; lia| |done|done]|].
    { rewrite (cw_next _ _ _ _ Hk), length_take. unfold worker_list. rewrite length_fmap, length_seqZ. lia. }
    intros r k' Hk'. run. cbn [fst snd]. split; [done|]. exists k'. split; [done|]. by rewrite worker_list_S, Hnm by lia.
  - intros [] t. by replace (0 + Z.of_nat (Z.to_nat n)) with n by lia.
Qed.

Definition worker_count (n : Z) : Z := Z.max 1 (Z.min 16 n).

(** Every tick of a measurement. *)
Definition all_timers (w : moments) : Z :=
  timers (at_start w) + round_timers (at_work w) + timers (at_stop w) + round_timers (at_drain w) + timers (at_end w) + timers (at_report w).

(** How a measurement that began at tick [start] ends: a report after at least
    520 ticks, after exactly these and the ones between the waits when the
    clock goes by single ticks, or still waiting for lack of ticks. *)
Definition measured (n start : Z) (w : moments) (r : outcome benchmark_result) (t : bvars * ares H D) : Prop :=
  match r with
  | Finished res => num_processes res = n /\ benchmark_running t.1 = 0 /\ elapsed_ticks res = a_ticks t.2 - start /\
      520 <= elapsed_ticks res /\
      (slow (at_work w) -> slow (at_drain w) -> timers (at_start w) <= 500 ->
       elapsed_ticks res = 520 + timers (at_stop w) + timers (at_end w) + timers (at_report w))
  | Waiting => timers (at_start w) + round_timers (at_work w) < 500 \/ round_timers (at_drain w) < 20
  | Gone _ => False
  end.

Section measurement.
Variables (id : Z) (k0 : kern) (l0 : list Z) (n work problem : Z) (w : moments).
Hypotheses (Hok : turn_ok k0 l0) (Hcpu : cpu_ok (k_cpu k0)) (Hret : 0 <= ret img < 2 ^ (8 * 8)).
Notation waits := (waits id k0 l0).
Notation later := (later id k0 l0).

Lemma go_on_taken {A} ls (k : bprog (outcome A)) v s (Q : outcome A -> bvars * ares H D -> Prop) : waits s ->
  0 <= a_ticks s -> a_ticks s + timers ls < 2 ^ 64 ->
  (forall s', later s (a_ticks s + timers ls) s' -> runs k (v, s') Q) -> runs (go_on (taken img frame ls) k) (v, s) Q.
Proof.
  intros Hs H0 H1 Hk. unfold go_on, sysp. apply runs_bind, Ports.runs_dev.
  eapply runs_mono; [by apply (taken_ok img frame id k0 l0 Hok Hcpu Hret)|]. intros r s' [-> Hl]. by apply Hk.
Qed.

Lemma waits_out o s : waits s -> waits (set_out o s).
Proof. done. Qed.

Lemma measure_ok v s : waits s -> 0 <= a_ticks s -> a_ticks s + all_timers w + 520 < 2 ^ 64 ->
  runs (measure img frame id n work problem (a_ticks s) w) (v, s) (fun r t => measured n (a_ticks s) w r t /\ waits t.2).
Proof.
  intros Hs H0 H1. unfold all_timers in H1. set (start := a_ticks s) in *.
  pose proof (timers_range (at_start w)). pose proof (timers_range (at_stop w)). pose proof (timers_range (at_end w)).
  pose proof (timers_range (at_report w)). pose proof (timers_range (concat ((fun b => b.1 :: b.2) <$> at_work w))) as Hw.
  pose proof (timers_range (concat ((fun b => b.1 :: b.2) <$> at_drain w))) as Hd.
  change (0 <= round_timers (at_work w)) in Hw. change (0 <= round_timers (at_drain w)) in Hd.
  unfold measure, print, sysp, vary. apply runs_bind, Ports.runs_dev, runs_say.
  apply go_on_taken; [by apply waits_out|done|cbn [a_ticks set_out]; lia|]. cbn [a_ticks set_out]. fold start. intros s1 [T1 W1]%later_ticks.
  unfold go_on at 1, sysp. apply runs_bind, Ports.runs_dev. rewrite wrap_small by lia.
  eapply runs_mono; [apply (wait_until_ok img frame id k0 l0 Hok Hcpu Hret); [done|lia|lia]|].
  intros r s2 (t2 & [T2 W2]%later_ticks & Hr2 & [(-> & Hge2 & Hslow2)|[-> Hlow]]); [|run; split; [left; lia|done]].
  run. cbn [fst snd]. apply go_on_taken; [done|lia|lia|]. intros s3 [T3 W3]%later_ticks. run. cbn [compose snd fst].
  unfold go_on at 1, sysp. apply runs_bind, Ports.runs_dev. rewrite wrap_small by lia.
  eapply runs_mono; [apply (wait_until_ok img frame id k0 l0 Hok Hcpu Hret); [done|lia|lia]|].
  intros r s4 (t4 & [T4 W4]%later_ticks & Hr4 & [(-> & Hge4 & Hslow4)|[-> Hlow]]); [|run; split; [right; lia|done]].
  apply go_on_taken; [done|lia|lia|]. intros s5 [T5 [[l5 Hk5] Hkb5]]%later_ticks.
  apply runs_bind, Ports.runs_dev, runs_on.
  eapply runs_mono; [apply (get_stats_run id l5), (sh_tasks _ _ _ _ _ Hk5)|]. intros st k' (x & st' & -> & -> & Hx & Hx4).
  apply runs_bind, (runs_need _ st'); [done|]. run. cbn [compose snd].
  apply go_on_taken; [|cbn [a_ticks set_kern]; lia..|].
  { split; [|exact Hkb5]. exists l5. apply shuffled_dispatch; [done|done|]. apply Hx4, (sh_levels _ _ _ _ _ Hk5). }
  cbn [a_ticks set_kern]. intros s6 [T6 W6]%later_ticks. run. apply Ports.runs_dev, runs_say. run.
  split; [|by apply waits_out]. cbn [measured num_processes elapsed_ticks fst snd benchmark_running set_running a_ticks set_out].
  cbn [compose snd]. rewrite wrap_small by lia. split_and!; [done|done|done|lia|]. intros S1 S2 Hst.
  specialize (Hslow2 S1). specialize (Hslow4 S2). lia.
Qed.
End measurement.

(** C20: the scheduler benchmark, with interrupts enabled.  For each of the
    four schedulers, whatever was queued before, and whatever timer and
    keyboard interrupts come while it waits and between its waits (none while
    it creates processes), the benchmark creates between 1 and 16 workers as
    far as there are free slots, and waits.  With 500 ticks for the first wait
    and 20 for the second it ends and reports the ticks that passed, at least
    520, and exactly 520 and those between the waits when the clock is looked
    at after every tick.  The switches that the interrupts force meanwhile all
    come straight back, so no worker has run: the workers, with the process
    that was called running before, still take turns in the scheduler, and
    their slots stay taken. *)
Theorem benchmark_runs_no_worker v s id n work problem name w id0 l0 :
  sched_id_ok id -> stacks_ok img -> 0 <= ret img < 2 ^ (8 * 8) -> cpu_ok (k_cpu (a_kern s)) -> tasks (a_kern s) id0 l0 ->
  four_levels (k_sched (a_kern s)) -> (exists a, Keyboard.abs_ok (a_kbd s) a) ->
  (forall c, current_process (k_sched (a_kern s)) = Some c -> slot_ok c /\ slot_free (procs (a_kern s)) c = false) ->
  length name = 8%nat -> next_pid (a_kern s) + 16 < 2 ^ 32 -> 0 <= a_ticks s -> a_ticks s + all_timers w + 520 < 2 ^ 64 ->
  let ws := take (Z.to_nat (worker_count n)) (free_slots (a_kern s)) in
  runs (benchmark_run_scheduler img entries frame id n work problem name w) (v, s) (fun r t =>
    measured (worker_count n) (a_ticks s) w r t /\
    (exists l, tasks (a_kern t.2) id l /\ in_turn (a_kern t.2) l ≡ₚ in_turn (a_kern s) ws) /\
    free_slots (a_kern t.2) = drop (Z.to_nat (worker_count n)) (free_slots (a_kern s)) /\
    forall j i, ws !! j = Some i -> exists st a, active_state st = true /\ c_string a = worker_name (Z.of_nat j) /\
       core_of (procs (a_kern t.2)) i = Some (st, next_pid (a_kern s) + Z.of_nat j, Z.of_nat j mod 4, a)).
Proof.
  intros Hid Hst Hret Hcpu Ht Hlev Hkb Hcur Hname Hp Ht0 Ht1 ws. unfold benchmark_run_scheduler. cbv zeta.
  assert (Hcount : (if 16 <? (if n <=? 0 then 1 else n) then 16 else if n <=? 0 then 1 else n) = worker_count n)
    by (unfold worker_count; destruct (Z.leb_spec n 0); [cbn; lia|]; destruct (Z.ltb_spec 16 n); lia).
  rewrite !Hcount. apply runs_bind. apply runs_mono with (Q := fun _ t => t.2 = s).
  { destruct (0 <? work); [unfold vary; by apply runs_modify|by apply runs_ret]. }
  intros [] [v1 s1] Hs1. cbn in Hs1. subst s1. unfold print, sysp. apply runs_bind, Ports.runs_dev, runs_say.
  apply runs_bind, Ports.runs_dev. eapply runs_mono; [by apply (scheduler_init_ok id _ id0 l0)|]. intros [] s2 (k0 & o & -> & Hsw).
  destruct (switched_crew _ _ _ Hsw) as [Hc0 Hfs]. cbn [a_kern set_out] in Hfs. run. unfold vary. run. eapply runs_mono.
  { apply (spawn_workers_ok (worker_count n) name _ _ k0 id Hst Hname); [unfold worker_count; lia| |exact Hc0].
    pose proof (sw_rest _ _ _ Hsw) as Hrest. injection Hrest as _ _ Hnp0. by rewrite Hnp0. }
  intros [] [v3 s3] (_ & k & Hs3 & Hk). cbn [snd] in Hs3. subst s3.
  destruct (workers_turn _ _ _ _ _ Hsw Hlev Hcur Hk) as (l & Hok & Hsh & Hturn). pose proof (sw_rest _ _ _ Hsw) as Hr. injection Hr as _ Hcpu0 Hnp0.
  pose proof (cw_rest _ _ _ _ Hk) as Hkr. injection Hkr as _ Hcpuk _. cbn [a_kern set_out] in Hcpu0, Hnp0.
  assert (Hlen : length (worker_list name (worker_count n)) = Z.to_nat (worker_count n)) by (unfold worker_list; by rewrite length_fmap, length_seqZ).
  assert (Hws : take (length (worker_list name (worker_count n))) (free_slots k0) = ws) by (by rewrite Hlen, Hfs).
  match goal with |- runs (measure _ _ _ _ _ _ ?t _) (_, ?s') _ => change t with (a_ticks s') end. eapply runs_mono.
  { eapply (measure_ok id k l _ _ _ w Hok); [by rewrite Hcpuk, Hcpu0|exact Hret|split; [exists l; exact Hsh|exact Hkb]|exact Ht0|exact Ht1]. }
  intros r [v4 s4] (Hm & [l' Hsh4] & _). cbn [fst snd a_kern a_ticks set_kern set_out] in *. split; [exact Hm|]. split_and!.
  - exists l'. split; [apply (sh_tasks _ _ _ _ _ Hsh4)|]. rewrite (sh_turn _ _ _ _ _ Hsh4), Hturn. by rewrite Hlen.
  - rewrite (free_slots_same k), (cw_free _ _ _ _ Hk), Hlen, Hfs; [done|]. apply (sh_free _ _ _ _ _ Hsh4).
  - intros j i Hj. rewrite <- Hws in Hj. destruct (cw_new _ _ _ _ Hk j i Hj) as (nm & pr & a & Hts & Hcore & Ha).
    destruct (sh_core _ _ _ _ _ Hsh4 i _ _ _ _ Hcore eq_refl) as (st & Hst' & Hact). exists st, a.
    unfold worker_list in Hts. apply list_lookup_fmap_Some in Hts as (j' & E & Hj'). injection E as -> ->.
    apply lookup_seqZ in Hj' as [-> Hlt]. rewrite Z.add_0_l in *. rewrite Hst', Hnp0. split_and!; [done| |done].
    destruct (bench_make_name_ok name (Z.of_nat j) Hname) as (nm' & Hnm' & <-); [unfold worker_count in Hlt; lia|]. by rewrite Ha, Hnm'.
Qed.

End measuring.
(** * The benchmark suite leaks its workers *)

(** The process table outside the queue: states agree with the map of free
    slots, the idle process is the one with pid 1, and the running process
    holds a slot. *)
Record settled (k : kern) (id : Z) (l : list Z) : Prop := {
  se_tasks : tasks k id l;
  se_active i st pd pr nm : core_of (procs k) i = Some (st, pd, pr, nm) -> active_state st = negb (slot_free (procs k) i);
  se_idle : slot_free (procs k) 0 = false /\ exists st pr nm, core_of (procs k) 0 = Some (st, 1, pr, nm);
  se_first i st pr nm : core_of (procs k) i = Some (st, 1, pr, nm) -> slot_free (procs k) i = false -> i = 0;
  se_current c : current_process (k_sched k) = Some c -> slot_ok c /\ slot_free (procs k) c = false;
  se_pid : 1 < next_pid k }.

Lemma slot0 : slot_ok 0.
Proof. unfold slot_ok, MAX_PROCESSES. lia. Qed.

Lemma switched_settled k0 id k id0 l0 : switched k0 id k -> settled k0 id0 l0 -> settled k id [].
Proof.
  intros [Ht Hp Hr _] [_ Ha Hi Hf Hc Hn]. injection Hr as Hcur _ Hnp. split; rewrite ?Hp, ?Hcur, ?Hnp; done.
Qed.

Lemma crew_settled k0 id ts k l : settled k0 id l -> crew k0 id ts k ->
  settled k id (line_of (rank_in id k) (take (length ts) (free_slots k0))) /\ 0 ∉ take (length ts) (free_slots k0).
Proof.
  intros [_ Ha [Hi0 (st0 & pr0 & nm0 & Hi1)] Hf Hc Hn] Hcw. set (ws := take (length ts) (free_slots k0)).
  assert (Hused : forall i, slot_free (procs k0) i = false -> i ∉ ws).
  { intros i Hi Hin. by rewrite (proj1 (crew_free _ _ _ _ _ Hcw Hin)) in Hi. }
  assert (Hcase : forall i, (i ∈ ws /\ slot_free (procs k) i = false /\ exists pd pr nm, core_of (procs k) i = Some (PROCESS_READY, pd, pr, nm) /\ 1 < pd) \/
    (core_of (procs k) i = core_of (procs k0) i /\ slot_free (procs k) i = slot_free (procs k0) i)).
  { intros i. destruct (decide (i ∈ ws)) as [Hin|Hin]; [left|right; by apply (cw_old _ _ _ _ Hcw)].
    split; [done|]. split; [by eapply crew_free|]. apply list_elem_of_lookup in Hin as [j Hj].
    destruct (cw_new _ _ _ _ Hcw j i Hj) as (nm & pr & a & _ & Hcore & _). exists (next_pid k0 + Z.of_nat j), pr, a. split; [done|lia]. }
  split; [|by apply Hused]. split; [apply (cw_tasks _ _ _ _ Hcw)| | | | |].
  - intros i st pd pr nm Hcore. destruct (Hcase i) as [(_ & -> & pd' & pr' & nm' & Hcore' & _)|[E1 E2]].
    + rewrite Hcore in Hcore'. injection Hcore' as -> _ _ _. done.
    + rewrite E1 in Hcore. rewrite E2. by eapply Ha.
  - destruct (cw_old _ _ _ _ Hcw 0) as [E1 E2]; [by apply Hused|]. rewrite E1, E2. split; [done|]. by exists st0, pr0, nm0.
  - intros i st pr nm Hcore Hfr. destruct (Hcase i) as [(_ & _ & pd' & pr' & nm' & Hcore' & Hlt)|[E1 E2]].
    + rewrite Hcore in Hcore'. injection Hcore' as _ <- _ _. lia.
    + rewrite E1 in Hcore. rewrite E2 in Hfr. by eapply Hf.
  - pose proof (cw_rest _ _ _ _ Hcw) as Hr. injection Hr as Hcur _ _. rewrite Hcur. intros c Hcc. destruct (Hc c Hcc) as [Hs Hcf].
    destruct (cw_old _ _ _ _ Hcw c) as [_ E2]; [by apply Hused|]. by rewrite E2.
  - rewrite (cw_next _ _ _ _ Hcw). lia.
Qed.

Lemma settled_first k id l : settled k id l -> runs (process_by_pid 1) k (fun r k' => r = Some 0 /\ k' = k).
Proof.
  intros [Ht Ha [Hi0 (st0 & pr0 & nm0 & Hi1)] Hf Hc Hn].
  assert (Hpcb : forall i p, arr_get (pcb_table (procs k)) i = Some p -> core_of (procs k) i = Some (state p, pid p, priority p, name p))
    by (intros i p Hp; unfold core_of; by rewrite Hp).
  assert (Hgo : runs (on_table (pcb_by_pid 1)) k (fun r k' => r = Some 0 /\ k' = k)).
  { apply runs_on_table. eapply runs_mono; [apply pcb_by_pid_ok, Ht|]. fold (procs k). intros [i|] x (-> & HQ).
    - destruct HQ as (p & Hp & Hact & Hpid & _). split; [|by destruct k as [[] ? ? ? ? ?]]. f_equal. pose proof (Hpcb _ _ Hp) as Hcore.
      rewrite Hpid in Hcore. eapply Hf; [exact Hcore|]. pose proof (Ha _ _ _ _ _ Hcore) as E. unfold active in Hact.
      unfold active_state in E. rewrite Hact in E. by destruct (slot_free (procs k) i).
    - exfalso. unfold core_of in Hi1. destruct (arr_get (pcb_table (procs k)) 0) as [p|] eqn:Hp; [|done].
      cbn in Hi1. unfold core in Hi1. injection Hi1 as Est Epid _ _. apply (HQ 0 p Hp); [|done].
      pose proof (Ha _ _ _ _ _ (Hpcb _ _ Hp)) as E. rewrite Hi0 in E. exact E. }
  unfold process_by_pid, get_current. run. destruct (current_process (k_sched k)) as [i|]; [|exact Hgo].
  destruct (Hc i eq_refl) as [Hs Hfr]. destruct (tasks_slot _ _ _ i Ht Hs) as (p & Hp & _). apply runs_bind.
  eapply runs_table_get; [exact Hp|]. destruct (Z.eqb_spec (pid p) 1) as [E|]; [|exact Hgo]. apply runs_ret. split; [|done]. f_equal.
  pose proof (Hpcb _ _ Hp) as Hcore. rewrite E in Hcore. by eapply Hf.
Qed.

(** The kernel's [current_process = process_by_pid(1); yield();]: control comes
    back, with the head of the queue for the running process. *)
Lemma settled_yield ret k id l : settled k id l -> 0 ∉ l -> cpu_ok (k_cpu k) -> 0 <= ret < 2 ^ (8 * 8) ->
  runs (yield ret) (as_current (Some 0) k) (fun a k' => a = Some ret /\ k_cpu k' = k_cpu k /\ next_pid k' = next_pid k /\
    (exists l', settled k' id l') /\ (forall i, slot_free (procs k') i = slot_free (procs k) i) /\
    (forall i, (fun e => (e.1.1.2, e.2)) <$> core_of (procs k') i = (fun e => (e.1.1.2, e.2)) <$> core_of (procs k) i)).
Proof.
  intros [Ht Ha [Hi0 Hi1] Hf Hc Hn] H0 Hcpu Hret.
  eapply runs_mono; [apply (yield_tasks ret _ id l 0); [by apply tasks_current|done|done|done|apply slot0|done|done]|].
  intros a k' (-> & Hcpu' & n & l' & Hl & Hcur & Ht' & Hf' & Hcore & [= Hn' _ _]).
  change (procs (as_current (Some 0) k)) with (procs k) in *. cbn [as_current next_pid set_sched k_cpu] in Hn', Hcpu'.
  assert (Hnu : slot_ok n /\ slot_free (procs k) n = false).
  { pose proof (insert_rank_perm (fun i => sched_rank id (prio_in (procs k) i)) 0 l) as Hp. rewrite Hl in Hp.
    assert (Hin : n ∈ 0 :: l) by (rewrite <- Hp; apply elem_of_cons; by left). apply elem_of_cons in Hin as [->|Hin].
    - split; [apply slot0|done].
    - split; [|by apply Ht]. pose proof (tk_slots _ _ _ Ht) as Hs. rewrite Forall_forall in Hs. auto. }
  assert (Hsame : forall i, exists g, core_of (procs k') i = (fun e : process_state * Z * Z * list Z => (g e, e.1.1.2, e.1.2, e.2)) <$> core_of (procs k) i /\
    forall e, g e = e.1.1.1 \/ (active_state (g e) = true /\ slot_free (procs k) i = false)).
  { intros i. exists (fun e => if i =? n then PROCESS_RUNNING else if i =? 0 then PROCESS_READY else e.1.1.1). rewrite Hcore. split.
    - destruct (core_of (procs k) i) as [[[[? ?] ?] ?]|]; [|done]. unfold restate. by destruct (i =? n), (i =? 0).
    - intros e. destruct (Z.eqb_spec i n) as [->|]; [by right; split; [|apply Hnu]|]. destruct (Z.eqb_spec i 0) as [->|]; [by right|by left]. }
  split_and!; try done.
  - exists l'. split; [done| | | | |by rewrite Hn'].
    + intros i st pd pr nm Hci. rewrite Hf'. destruct (Hsame i) as (g & E & Hg). rewrite E in Hci.
      destruct (core_of (procs k) i) as [[[[st' pd'] pr'] nm']|] eqn:Ei; [|done]. cbn in Hci. injection Hci as <- _ _ _.
      destruct (Hg (st', pd', pr', nm')) as [->|[-> ->]]; [|done]. by eapply Ha.
    + rewrite Hf'. split; [done|]. destruct Hi1 as (st & pr & nm & E). destruct (Hsame 0) as (g & -> & _). rewrite E. cbn. by eexists _, _, _.
    + intros i st pr nm Hci. rewrite Hf'. destruct (Hsame i) as (g & E & _). rewrite E in Hci.
      destruct (core_of (procs k) i) as [[[[st' ?] ?] ?]|] eqn:Ei; [|done]. cbn in Hci. injection Hci as _ -> _ _. by eapply Hf.
    + rewrite Hcur. intros c [= <-]. by rewrite Hf'.
  - intros i. destruct (Hsame i) as (g & -> & _). by destruct (core_of (procs k) i) as [[[[? ?] ?] ?]|].
Qed.
(** A process named as the suite's workers holds slot [i]. *)
Definition worker_at (k : kern) (i : Z) : Prop :=
  slot_free (procs k) i = false /\ exists e, core_of (procs k) i = Some e /\ c_string e.2 = text "b-worker".

(** What identifies the process of a slot. *)
Definition who (k : kern) (i : Z) := ((fun e : process_state * Z * Z * list Z => (e.1.1.2, e.2)) <$> core_of (procs k) i, slot_free (procs k) i).

(** [k] is [k0] with workers in the first [n] free slots, as far as there are
    any; nobody else came or went. *)
Record leak (n : nat) (k0 k : kern) : Prop := {
  lk_free : free_slots k = drop n (free_slots k0);
  lk_next : next_pid k = next_pid k0 + Z.of_nat (length (take n (free_slots k0)));
  lk_workers i : i ∈ take n (free_slots k0) -> worker_at k i;
  lk_others i : i ∉ take n (free_slots k0) -> who k i = who k0 i;
  lk_cpu : k_cpu k = k_cpu k0 }.

Lemma worker_who k k' i : who k' i = who k i -> worker_at k i -> worker_at k' i.
Proof.
  unfold who, worker_at. intros [= E1 E2] (Hf & e & He & Hn). rewrite E2. split; [done|]. rewrite He in E1.
  destruct (core_of (procs k') i) as [e'|]; [|done]. cbn in E1. injection E1 as _ En. exists e'. split; [done|]. by rewrite En.
Qed.

Lemma leak_trans n m k0 k1 k2 : leak n k0 k1 -> leak m k1 k2 -> leak (n + m) k0 k2.
Proof.
  intros [F1 N1 W1 O1 C1] [F2 N2 W2 O2 C2].
  assert (Htake : take (n + m) (free_slots k0) = take n (free_slots k0) ++ take m (free_slots k1)) by (by rewrite F1, take_take_drop).
  split.
  - by rewrite F2, F1, drop_drop.
  - rewrite Htake, length_app, N2, N1. lia.
  - intros i. rewrite Htake, elem_of_app. intros [Hi|Hi]; [|by apply W2]. apply (worker_who k1); [|by apply W1]. apply O2. intros Hin.
    destruct (W1 i Hi) as [Hu _]. assert (Hfr : i ∈ free_slots k1) by (rewrite <- (take_drop m (free_slots k1)); apply elem_of_app; by left).
    apply free_slots_spec in Hfr as [_ Hfr]. congruence.
  - intros i. rewrite Htake, not_elem_of_app. intros [Hi1 Hi2]. by rewrite O2, O1.
  - congruence.
Qed.

Section suite.
Context {H : Type} {HP : PortIO H} {D : Type} {HD : BlockDevice D}.
Variables (img : image) (entries : workers).
Implicit Types (s : ares H D) (v : bvars).

Lemma bench_variant_ok name id v s id0 l0 : sched_id_ok id -> stacks_ok img -> 0 <= ret img < 2 ^ (8 * 8) ->
  settled (a_kern s) id0 l0 -> cpu_ok (k_cpu (a_kern s)) -> next_pid (a_kern s) + 5 < 2 ^ 32 ->
  runs (bench_scheduler_variant img entries name id) (v, s) (fun r t => r = None /\ exists k o l, t.2 = set_kern k (set_out o s) /\
    settled k id l /\ leak 5 (a_kern s) k).
Proof.
  intros Hid Hst Hret Hset Hcpu Hn. unfold bench_scheduler_variant, sysp. apply runs_bind, Ports.runs_dev.
  eapply runs_mono; [by eapply (scheduler_init_ok id), (se_tasks _ _ _ Hset)|]. intros [] s1 (k0 & o & -> & Hsw).
  destruct (switched_crew _ _ _ Hsw) as [Hc0 Hfs]. pose proof (sw_rest _ _ _ Hsw) as Hr. injection Hr as _ Hcpu0 Hnp0.
  pose proof (switched_settled _ _ _ _ _ Hsw Hset) as Hset0. apply runs_bind, Ports.runs_dev.
  eapply runs_mono; [apply (spawn_all_ok img _ _ k0 id []); [done|exact Hc0|repeat constructor; done|cbn [length]; lia]|].
  intros [] s2 (k & -> & Hk). destruct (crew_settled _ _ _ _ _ Hset0 Hk) as [Hset2 H0].
  change (length ([] ++ _)) with 5%nat in *. pose proof (cw_rest _ _ _ _ Hk) as Hkr. injection Hkr as _ Hcpuk _.
  unfold bench_start. run. apply Ports.runs_dev, runs_on. eapply runs_mono; [by apply (settled_first _ _ _ Hset2)|]. intros r k' [-> ->].
  apply runs_bind, Ports.runs_dev, runs_on. unfold put_current. apply runs_on_sched, runs_modify.
  apply runs_bind, Ports.runs_dev, runs_on. match goal with |- runs _ ?x _ => change x with (as_current (Some 0) k) end.
  eapply runs_mono; [apply (settled_yield _ _ _ _ Hset2); [by rewrite line_of_perm|congruence|done]|].
  intros a k' (-> & Hcpu' & Hn' & (l' & Hset') & Hf' & Hc'). cbn [away]. rewrite Z.eqb_refl. unfold bench_end, print, sysp. run.
  apply Ports.runs_dev, runs_say. run. split; [done|]. exists k'. eexists _, l'. split; [reflexivity|]. split; [done|].
  pose proof (free_slots_same _ _ Hf') as Hfree. cbn [a_kern set_out] in *.
  assert (Hwho : forall i, who k' i = who k i) by (intros i; unfold who; by rewrite Hc', Hf').
  split; rewrite <- ?Hfs.
  - rewrite Hfree. apply (cw_free _ _ _ _ Hk).
  - rewrite Hn', (cw_next _ _ _ _ Hk), Hnp0. done.
  - intros i Hi. apply (worker_who k); [done|]. split; [by eapply (crew_free _ _ _ _ _ Hk)|].
    apply list_elem_of_lookup in Hi as [j Hj]. destruct (cw_new _ _ _ _ Hk j i Hj) as (nm & pr & a & Hts & Hcore & Ha).
    eexists. split; [exact Hcore|]. cbn [snd]. rewrite Ha. do 5 (destruct j as [|j]; [by injection Hts as <- _|]). done.
  - intros i Hi. rewrite Hwho. destruct (cw_old _ _ _ _ Hk i Hi) as [E1 E2]. unfold who. rewrite E1, E2. by rewrite (sw_procs _ _ _ Hsw).
  - congruence.
Qed.

Lemma leak_refl k : leak 0 k k.
Proof. split; try done; [symmetry; apply Z.add_0_r|]. intros i Hi. by apply elem_of_nil in Hi. Qed.

(** Control came back, with [n] workers more than in [k0]. *)
Definition back (id : Z) (n : nat) (k0 : kern) s (r : option Z) (t : bvars * ares H D) : Prop :=
  r = None /\ exists v k o l, t = (v, set_kern k (set_out o s)) /\ settled k id l /\ leak n k0 k.

(** One more scheduler, after [n] workers. *)
Lemma variant_step n name id k0 v s k o id0 l0 : sched_id_ok id -> stacks_ok img -> 0 <= ret img < 2 ^ (8 * 8) ->
  cpu_ok (k_cpu k0) -> next_pid k0 + Z.of_nat (n + 5) < 2 ^ 32 -> settled k id0 l0 -> leak n k0 k ->
  runs (bench_scheduler_variant img entries name id) (v, set_kern k (set_out o s)) (back id (n + 5) k0 s).
Proof.
  intros Hid Hst Hret Hcpu Hn Hset Hl. pose proof (lk_next _ _ _ Hl) as Hk. rewrite length_take in Hk.
  eapply runs_mono; [apply (bench_variant_ok name id v _ id0 l0); try done; cbn [a_kern set_out set_kern]; [by rewrite (lk_cpu _ _ _ Hl)|lia]|].
  intros r [v' t] (-> & k1 & o' & l & Et & Hs1 & Hl1). split; [done|]. cbn [snd] in Et. subst t. exists v', k1, o', l.
  split; [reflexivity|]. split; [done|]. by eapply leak_trans.
Qed.

(** A part that control comes back from, and the rest. *)
Lemma stay_step m rest (R : option Z -> bvars * ares H D -> Prop) id n k0 s x : runs m x (back id n k0 s) ->
  (forall v k o l, settled k id l -> leak n k0 k -> runs rest (v, set_kern k (set_out o s)) R) -> runs (stay m rest) x R.
Proof.
  intros Hm Hr. unfold stay. apply runs_bind. eapply runs_mono; [exact Hm|]. intros r t (-> & v & k & o & l & -> & Hs & Hl). by eapply Hr.
Qed.

(** One more run of the scheduler part, after [n] workers. *)
Lemma suite_step n k0 v s k o id0 l0 : stacks_ok img -> 0 <= ret img < 2 ^ (8 * 8) -> cpu_ok (k_cpu k0) ->
  next_pid k0 + Z.of_nat (n + 20) < 2 ^ 32 -> settled k id0 l0 -> leak n k0 k ->
  runs (bench_scheduler img entries) (v, set_kern k (set_out o s)) (back SCHED_MLQ (n + 20) k0 s).
Proof.
  intros Hst Hret Hcpu Hn H0 L. unfold bench_scheduler, print, sysp. apply runs_bind, Ports.runs_dev, runs_say.
  assert (sched_id_ok SCHED_FCFS /\ sched_id_ok SCHED_RR /\ sched_id_ok SCHED_PRIORITY /\ sched_id_ok SCHED_MLQ) as (Hi0 & Hi1 & Hi2 & Hi3)
    by (split_and!; unfold sched_id_ok, SCHED_FCFS, SCHED_RR, SCHED_PRIORITY, SCHED_MLQ, SCHED_COUNT; lia).
  match goal with |- runs _ (_, ?x) _ => change x with (set_kern k (set_out (a_out x) s)) end.
  eapply stay_step; [eapply (variant_step n); eassumption || lia|]. intros v1 k1 o1 l1 H1 L1.
  eapply stay_step; [eapply (variant_step (n + 5)); eassumption || lia|]. intros v2 k2 o2 l2 H2 L2.
  eapply stay_step; [eapply (variant_step (n + 5 + 5)); eassumption || lia|]. intros v3 k3 o3 l3 H3 L3.
  replace (n + 20)%nat with (n + 5 + 5 + 5 + 5)%nat by lia. eapply (variant_step (n + 5 + 5 + 5)); eassumption || lia.
Qed.

Lemma same_kern s : s = set_kern (a_kern s) (set_out (a_out s) s).
Proof. by destruct s. Qed.

(** The scheduler part of the suite that the shell's bench command runs.
    Under each of the four schedulers control comes straight back from the
    [yield] that should run the workers: none has run.  They stay in the
    process table for good, so a run takes the first 20 free slots, as far as
    there are any; no other process comes or goes. *)
Theorem bench_scheduler_leaks v s id0 l0 : stacks_ok img -> 0 <= ret img < 2 ^ (8 * 8) ->
  settled (a_kern s) id0 l0 -> cpu_ok (k_cpu (a_kern s)) -> next_pid (a_kern s) + 20 < 2 ^ 32 ->
  runs (bench_scheduler img entries) (v, s) (fun r t => r = None /\ exists k o l, t.2 = set_kern k (set_out o s) /\
    settled k SCHED_MLQ l /\ leak 20 (a_kern s) k).
Proof.
  intros Hst Hret H0 Hcpu Hn. rewrite (same_kern s) at 1.
  eapply runs_mono; [eapply (suite_step 0); try eassumption; apply leak_refl|].
  intros r t (-> & v' & k & o & l & -> & Hk & L). split; [done|]. by exists k, o, l.
Qed.

Lemma waiting_settled k : demos_waiting k -> settled k SCHED_FCFS [2; 3; 4; 0].
Proof.
  intros [Hinv Hc Hn _ Hnm]. pose proof (pi_core _ _ _ Hinv) as Hci. destruct (Hnm 0%nat _ eq_refl) as (pr & a & Ha & _).
  assert (H0 : slot_free (procs k) 0 = false) by (apply (ci_live _ _ _ _ _ Hci); [apply slot0|right; set_solver]).
  split; [by apply inv_tasks| | | | |lia].
  - intros i st pd p nm Hi. by apply (ci_core _ _ _ _ _ Hci) in Hi as (? & _).
  - split; [done|]. by eexists _, _, _.
  - intros i st p nm Hi Hf. by eapply (ci_pids _ _ _ _ _ Hci i 0).
  - intros c Hcc. destruct (ci_current _ _ _ _ _ Hci c Hcc) as [Hs _]. split; [done|]. apply (ci_live _ _ _ _ _ Hci); auto.
Qed.

Lemma waiting_free k : demos_waiting k -> free_slots k = seqZ 5 59.
Proof.
  intros [Hinv Hc _ _ _]. pose proof (pi_core _ _ _ Hinv) as Hci. unfold free_slots.
  rewrite (filter_agree _ (fun i => 5 <= i)); [vm_compute; reflexivity|].
  intros i Hi%elem_of_seqZ. rewrite <- not_false_iff_true, (ci_live _ _ _ _ _ Hci) by (unfold slot_ok; lia).
  rewrite Hc. rewrite !elem_of_cons, elem_of_nil. split; [|intros ? [[= ?]|?]; lia].
  intros Hno. destruct (decide (5 <= i)); [done|]. exfalso. apply Hno.
  assert (i = 0 \/ i = 1 \/ i = 2 \/ i = 3 \/ i = 4) as [->|[->|[->|[->| ->]]]] by lia; tauto.
Qed.

(** C21: the bench command after boot.  Its scheduler part, run three times in
    the system that [kernel_main] leaves, takes every slot of the process
    table: after that no process can be created any more, whatever its name,
    entry point and priority. *)
Theorem bench_thrice_fills_table v s nm entry prio : stacks_ok img -> 0 <= ret img < 2 ^ (8 * 8) ->
  demos_waiting (a_kern s) -> 0 <= prio ->
  runs (_ ← bench_scheduler img entries; _ ← bench_scheduler img entries; _ ← bench_scheduler img entries;
        sysp (spawn img nm entry prio)) (v, s) (fun r _ => r = None).
Proof.
  intros Hst Hret Hw Hp. pose proof (waiting_settled _ Hw) as H0. pose proof (dw_next _ Hw) as Hn. pose proof (dw_cpu _ Hw) as Hcpu.
  rewrite (same_kern s). pose proof (leak_refl (a_kern s)) as L.
  apply runs_bind. eapply runs_mono; [eapply (suite_step 0); eassumption || lia|]. intros r t (-> & v1 & k1 & o1 & l1 & -> & H1 & L1).
  apply runs_bind. eapply runs_mono; [eapply (suite_step 20); eassumption || lia|]. intros r t (-> & v2 & k2 & o2 & l2 & -> & H2 & L2).
  apply runs_bind. eapply runs_mono; [eapply (suite_step 40); eassumption || lia|]. intros r t (-> & v3 & k3 & o3 & l3 & -> & H3 & L3).
  pose proof (lk_free _ _ _ L3) as Hf. pose proof (lk_next _ _ _ L3) as Hn3. rewrite length_take in Hn3. rewrite (waiting_free _ Hw) in Hf.
  change (free_slots k3 = []) in Hf. apply Ports.runs_dev, runs_on. destruct Hst as [Hs0 Hs1].
  eapply runs_mono; [apply (process_create_tasks _ nm entry prio k3 _ _ (se_tasks _ _ _ H3)); [done|lia|done|done]|].
  intros [i|] k4; [|done]. intros (Hi & Hfr & _). assert (Hin : i ∈ free_slots k3) by (by apply free_slots_spec). by rewrite Hf in Hin; apply elem_of_nil in Hin.
Qed.
End suite.

(** * Examples *)

Module DemoTasks.
Import Boot.DemoBoot.

Definition addresses : workers := mk_workers 0x103000 0x103100 0x103200 0x103300 0x103400.
Definition frame0 : Interrupt.interrupt_frame := Interrupt.no_frame 32.
Definition bvars0 : bvars := mk_bvars 0 10000 0.

(** The idle process runs and nothing is queued. *)
Definition running : ares Z ram_disk := set_kern (boot_kern true SCHED_MLQ) demo_loaded.

Lemma demo_stacks : stacks_ok demo_image.
Proof. apply demo_image_ok. Qed.

Lemma running_tasks : tasks (a_kern running) SCHED_MLQ [].
Proof. apply inv_tasks, boot_inv; unfold sched_id_ok, SCHED_MLQ, SCHED_COUNT; lia. Qed.

Lemma running_procs : procs (boot_kern true SCHED_MLQ) = boot_pcbs true.
Proof. reflexivity. Qed.

Lemma running_settled : settled (a_kern running) SCHED_MLQ [].
Proof.
  split; [apply running_tasks| | | | |done]; change (a_kern running) with (boot_kern true SCHED_MLQ); rewrite ?running_procs.
  - intros i st pd pr nm Hc. apply boot_core in Hc as [Hi Hc]. rewrite boot_free by done. unfold core, boot_pcb in Hc.
    cbn [state pid priority name] in Hc. by destruct (true && (i =? 0)); simplify_eq.
  - split; [reflexivity|]. by eexists _, _, _.
  - intros i st pr nm Hc _. apply boot_core in Hc as [Hi Hc]. unfold core, boot_pcb in Hc. cbn [state pid priority name andb] in Hc.
    destruct (Z.eqb_spec i 0); [done|]. by simplify_eq.
  - intros c [= <-]. split; [apply slot0|reflexivity].
Qed.

(** A program run in the system, with its static variables [v] at the start. *)
Definition with_vars {V A} (v : V) (m : prog (V * ares Z ram_disk) A) : prog (ares Z ram_disk) A :=
  fun s => (fun p => (p.1, p.2.2)) <$> m (v, s).

Lemma runs_with_vars {V A} (v : V) (m : prog (V * ares Z ram_disk) A) s (Q : A -> ares Z ram_disk -> Prop) :
  runs m (v, s) (fun r t => Q r t.2) -> runs (with_vars v m) s Q.
Proof. intros (r & t & Hm & HQ). exists r, t.2. split; [|done]. unfold with_vars. by rewrite Hm. Qed.
End DemoTasks.
Import Boot.DemoBoot DemoTasks.

Lemma demo_tasks_line_up_witness :
  runs (demo_task_mlq demo_image addresses) running (fun _ s' => tasks (a_kern s') SCHED_MLQ [4; 3; 2; 1]).
Proof.
  apply (demo_tasks_line_up demo_image addresses running SCHED_MLQ [] 1 2 3 4 (seqZ 5 59) demo_stacks running_tasks); [|vm_compute; reflexivity].
  cbn. lia.
Defined.

(** A key among the first ticks and a tick between the waits. *)
Definition demo_moments : moments :=
  mk_moments [Key] (replicate 499 (Timer, []) ++ [(Key, [Timer])]) [Timer] (replicate 20 (Timer, [])) [] [].

Lemma benchmark_runs_no_worker_witness :
  runs (benchmark_run_scheduler demo_image addresses frame0 SCHED_MLQ 5 0 0 (replicate 8 9) demo_moments) (bvars0, running) (fun r t =>
    exists res l, r = Finished res /\ elapsed_ticks res = 521 /\ tasks (a_kern t.2) SCHED_MLQ l /\ in_turn (a_kern t.2) l ≡ₚ [0; 1; 2; 3; 4; 5]).
Proof.
  assert (Htm : timers (at_start demo_moments) = 0 /\ round_timers (at_work demo_moments) = 500 /\ timers (at_stop demo_moments) = 1 /\
    round_timers (at_drain demo_moments) = 20 /\ timers (at_end demo_moments) = 0 /\ timers (at_report demo_moments) = 0)
    by (vm_compute; repeat split).
  eapply runs_mono; [apply (benchmark_runs_no_worker demo_image addresses frame0 bvars0 running SCHED_MLQ 5 0 0 (replicate 8 9) demo_moments SCHED_MLQ [])|].
  - unfold sched_id_ok, SCHED_MLQ, SCHED_COUNT. lia.
  - apply demo_stacks.
  - cbn. lia.
  - apply boot_cpu.
  - apply running_tasks.
  - reflexivity.
  - eexists. apply Keyboard.abs_zero.
  - intros c [= <-]. split; [apply slot0|reflexivity].
  - reflexivity.
  - cbn. lia.
  - cbn. lia.
  - unfold all_timers. change (a_ticks running) with 0. lia.
  - intros r t (Hm & (l & Ht & Hp) & _). destruct r as [res|a|]; cbn [measured] in Hm; [|done|lia].
    destruct Hm as (_ & _ & _ & _ & He). exists res, l. split; [reflexivity|]. split; [|split; [exact Ht|exact Hp]].
    rewrite He; [lia| | |lia].
    + apply Forall_app. split; [apply Forall_replicate|repeat constructor]; vm_compute; discriminate.
    + apply Forall_replicate. vm_compute. discriminate.
Defined.

Lemma bench_scheduler_leaks_witness :
  runs (bench_scheduler demo_image addresses) (bvars0, running) (fun r t => r = None /\
    free_slots (a_kern t.2) = seqZ 21 43 /\ next_pid (a_kern t.2) = 22).
Proof.
  eapply runs_mono; [apply (bench_scheduler_leaks demo_image addresses bvars0 running SCHED_MLQ [] demo_stacks)|].
  - cbn. lia.
  - apply running_settled.
  - apply boot_cpu.
  - cbn. lia.
  - intros r t (-> & k & o & l & -> & _ & [Hf Hn _ _ _]). split_and!; [reflexivity| |].
    + cbn [a_kern set_kern]. rewrite Hf. vm_compute. reflexivity.
    + cbn [a_kern set_kern]. rewrite Hn. vm_compute. reflexivity.
Defined.

Lemma bench_thrice_fills_table_witness :
  runs (_ ← init_components demo_image; _ ← start_demos demo_image;
        with_vars bvars0 (_ ← bench_scheduler demo_image addresses; _ ← bench_scheduler demo_image addresses;
          _ ← bench_scheduler demo_image addresses; sysp (spawn demo_image (text "a") 0x103000 PRIORITY_NORMAL)))
    demo_loaded (fun r _ => r = None).
Proof.
  apply runs_bind. eapply runs_mono; [apply (init_components_ok _ _ demo_image_ok demo_loaded_ok)|]. intros [] s1 (_ & Hl & Hc & _).
  apply runs_bind. eapply runs_mono; [apply (start_demos_ok _ _ demo_image_ok Hl Hc)|]. intros a s2 (_ & k & o & -> & Hw).
  apply (runs_with_vars _ _ _ (fun r _ => r = None)), bench_thrice_fills_table; [exact demo_stacks|cbn; lia|exact Hw|].
  unfold PRIORITY_NORMAL. lia.
Defined.

End Tasks.
