(* ===== verification/SelfTest.v ===== *)
(** The self tests behind the shell's test command (src/test): the runner
    (test_runner.c) and the scheduler, memory and file system suites.

    The state is that of Boot with the static variables of the test files.  A
    test is a program that says whether control came back to the runner
    ([None]) or execution went on elsewhere; [check] is TEST_ASSERT, which
    leaves the test at the first failure. *)
From stdpp Require Import strings.
From S2P Require Import Prelude Interfaces Mem Pmm Heap Vmm Pcb Queue Sched Process RamDisk FsDisk FsApi Ports Frame Console Cstr Syscall Observe Boot Tasks.
#[local] Open Scope Z_scope.

Module SelfTest.
Import Console Cstr Observe Frame FsDisk FsApi Boot Pcb Queue Sched Process Tasks.

Record tvars := mk_tvars { test_passed : Z; test_failed : Z; current_failed : Z; g_yield_runs : Z }.
Definition set_passed x v := mk_tvars x (test_failed v) (current_failed v) (g_yield_runs v).
Definition set_failed x v := mk_tvars (test_passed v) x (current_failed v) (g_yield_runs v).
Definition set_current_failed x v := mk_tvars (test_passed v) (test_failed v) x (g_yield_runs v).
Definition set_yield_runs x v := mk_tvars (test_passed v) (test_failed v) (current_failed v) x.

Section code.
Context {H : Type} {HP : PortIO H} {D : Type} {HD : BlockDevice D}.

(** The kernel's image, the entry points of the two workers of the scheduler
    suite, and what [__FILE__] and [__LINE__] are at the assertion with a given
    message. *)
Variables (img : image) (spin_worker yield_worker : Z) (place : string -> string * Z).

Definition tprog := prog (tvars * ares H D).
Definition test := tprog (option Z).
Definition system_op {A} (m : prog (ares H D) A) : tprog A := Ports.dev m.
Definition vars (f : tvars -> tvars) : tprog unit := modify (fun s => (f s.1, s.2)).
Definition show (cs : list console_call) : tprog unit := system_op (say cs).
Definition kernel {A} (m : prog kern A) : tprog A := system_op (on_kern m).
Definition files {A} (m : prog (FsDisk.fs D) A) : tprog A := system_op (on a_fs set_fs m).
Definition heap_op {A} (m : prog Heap.heap A) : tprog A := system_op (on a_heap set_heap m).
Definition frames {A} (m : prog Pmm.pmm A) : tprog A := system_op (on (Vmm.vmm_frames ∘ a_vmm) set_frames m).

(** * The runner *)

Definition test_fail (msg file : option string) (line : Z) : tprog unit :=
  _ ← vars (set_current_failed 1);
  show [light VGA_LIGHT_RED;
        Printf (nl "    assert: %s (%s:%d)")
          [AStr (Some (text (default "(no message)"%string msg))); AStr (Some (text (default "?"%string file))); AVal line];
        light VGA_WHITE].

Definition check (cond : bool) (msg : string) (rest : test) : test :=
  if cond then rest else _ ← test_fail (Some msg) (Some (place msg).1) (place msg).2; mret None.

Record test_case := mk_case { tc_name : option string; tc_fn : option test }.

(** The body of the runner's loop. *)
Definition run_case (tc : test_case) : test :=
  match tc_fn tc with
  | None => mret None
  | Some fn =>
      _ ← vars (set_current_failed 0);
      _ ← show [Printf (text "  [%s] ") [AStr (Some (text (default "?"%string (tc_name tc))))]];
      stay fn (
        v ← gets fst;
        if negb (current_failed v =? 0) then
          _ ← show [light VGA_LIGHT_RED; writeline "FAIL"; light VGA_WHITE];
          _ ← vars (fun v => set_failed (i32 (test_failed v + 1)) v); mret None
        else
          _ ← show [light VGA_LIGHT_GREEN; writeline "PASS"; light VGA_WHITE];
          _ ← vars (fun v => set_passed (i32 (test_passed v + 1)) v); mret None)
  end.

Definition run_nth (tests : list test_case) (i : Z) : test := tc ← need (arr_get tests i); run_case tc.

(** [tests = None] is a null pointer. *)
Definition test_run (tests : option (list test_case)) (count : Z) : test :=
  match tests with
  | None => mret None
  | Some tests =>
      if count <=? 0 then mret None
      else for_ret (Z.to_nat count) 0 (run_nth tests)
  end.

(** * Scheduler suite *)

Definition ts_strcmp : list Z -> list Z -> Z := c_strcmp.

Definition test_yield_worker : test :=
  let run : tprog unit := vars (fun v => set_yield_runs (i32 (g_yield_runs v + 1)) v) in
  _ ← run;
  stay (a ← kernel (yield (ret img)); mret (away img a))
  (_ ← run; a ← kernel (process_exit (ret img)); mret (away img a)).

(** One round of its endless loop. *)
Definition test_spin_worker : test := a ← kernel (yield (ret img)); mret (away img a).

(** [p->pid] of a pointer that was compared with NULL before. *)
Definition kill (p : Z) : tprog unit :=
  pcb ← kernel (on_table (get_pcb p));
  _ ← kernel (process_kill (ret img) (pid pcb));
  mret tt.

Definition test_sched_create : test :=
  let new nm := system_op (spawn img (text nm) spin_worker PRIORITY_NORMAL) in
  before ← kernel (on_table (pcb_enum_active MAX_PROCESSES));
  p1 ← new "t_c1"%string;
  p2 ← new "t_c2"%string;
  p3 ← new "t_c3"%string;
  match p1, p2, p3 with
  | None, _, _ => check false "process_create returned NULL for p1" (mret None)
  | _, None, _ => check false "process_create returned NULL for p2" (mret None)
  | _, _, None => check false "process_create returned NULL for p3" (mret None)
  | Some p1, Some p2, Some p3 =>
      after ← kernel (on_table (pcb_enum_active MAX_PROCESSES));
      check (Z.of_nat (length before) + 3 <=? Z.of_nat (length after)) "active count did not grow by 3" (
      let found := Z.of_nat (length (filter (fun i => i = p1 \/ i = p2 \/ i = p3) after)) in
      check (found =? 3) "newly-created processes not in active table" (
      _ ← kill p1; _ ← kill p2; _ ← kill p3; mret None))
  end.

(** [for (i = 0; i < n; i++) yield();] *)
Fixpoint yield_times (n : nat) : test :=
  match n with
  | O => mret None
  | S n => stay (a ← kernel (yield (ret img)); mret (away img a)) (yield_times n)
  end.

(** [junk] is what the indeterminate structure on the stack holds when the
    dispatcher has no scheduler to ask: the number of switches, and whether the
    name is not NULL.  A [yield] that really left would end the run of the
    test here, with the address where execution goes on; [yield_times_ok]
    shows that none does. *)
Definition test_sched_yield (junk : Z * bool) : test :=
  let switches : tprog Z :=
    st ← kernel (on_sched scheduler_get_stats); mret (match st with Some st => context_switches st | None => junk.1 end) in
  before ← switches;
  _ ← vars (set_yield_runs 0);
  p ← system_op (spawn img (text "t_yield") yield_worker PRIORITY_NORMAL);
  check (match p with Some _ => true | None => false end) "process_create failed" (
  stay (yield_times 20) (
  v ← gets fst;
  check (2 <=? g_yield_runs v) "yield worker did not run twice" (
  after ← switches;
  check (before <? after) "context_switches counter did not advance" (mret None)))).

Definition test_sched_fcfs (junk : Z * bool) : test :=
  cur ← kernel (on_sched scheduler_get_current);
  check ((SCHED_FCFS <=? cur) && (cur <? SCHED_COUNT)) "scheduler_get_current out of range" (
  let fcfs := scheduler_name SCHED_FCFS in
  check true "scheduler_name(FCFS) returned NULL" (
  check (ts_strcmp (text fcfs) (text "FCFS") =? 0) "scheduler_name(FCFS) mismatch" (
  st ← kernel (on_sched scheduler_get_stats);
  check (match st with Some _ => true | None => junk.2 end) "scheduler stats name is NULL" (mret None)))).

Definition case (nm : string) (t : test) : test_case := mk_case (Some nm) (Some t).

Definition sched_tests (junk : Z * bool) : list test_case :=
  [case "sched_create" test_sched_create; case "sched_yield" (test_sched_yield junk); case "sched_fcfs" (test_sched_fcfs junk)].

Definition test_scheduler_run_all (junk : Z * bool) : test :=
  test_run (Some (sched_tests junk)) (Z.of_nat (length (sched_tests junk))).

(** * Memory suite *)

Definition test_pmm_alloc_free : test :=
  free_before ← frames (gets Pmm.pmm_get_free_count);
  check (0 <? free_before) "no free pages reported by PMM" (
  page ← frames Pmm.pmm_alloc_page;
  check (negb (page =? 0)) "pmm_alloc_page returned NULL" (
  free_after_alloc ← frames (gets Pmm.pmm_get_free_count);
  check (u64 (free_after_alloc + 1) =? free_before) "free count did not drop by 1 after alloc" (
  _ ← frames (Pmm.pmm_free_page page);
  free_after_free ← frames (gets Pmm.pmm_get_free_count);
  check (free_after_free =? free_before) "free count did not restore after free" (mret None)))).

(** [p[i] = (uint8_t)(i & 0xFF)] and [p[i] == (uint8_t)(i & 0xFF)] for 64 bytes. *)
Definition fill (p : Z) : prog Heap.heap unit :=
  for_ 64 0 (fun i => modify (Heap.on_mem (Mem.store 1 (u64 (p + i)) (Z.land i 0xFF)))).
Fixpoint intact (n : nat) (i p : Z) : prog Heap.heap bool :=
  match n with
  | O => mret true
  | S n => b ← gets (fun h => Mem.load 1 (u64 (p + i)) (Heap.heap_mem h)); if b =? Z.land i 0xFF then intact n (i + 1) p else mret false
  end.

Definition test_heap_alloc_free : test :=
  '(used_before, _, _) ← heap_op Heap.heap_stats;
  p ← heap_op (Heap.kmalloc 64);
  check (negb (p =? 0)) "kmalloc(64) returned NULL" (
  _ ← heap_op (fill p);
  ok ← heap_op (intact 64 0 p);
  check ok "heap block contents were corrupted" (
  _ ← heap_op (Heap.kfree p);
  '(used_after, _, _) ← heap_op Heap.heap_stats;
  check (used_after =? used_before) "heap used bytes did not restore after kfree" (mret None))).

Definition sizes : list Z := [32; 128; 64; 256; 48; 96].

(** The blocks allocated, until one is not. *)
Fixpoint alloc_sizes (l : list Z) (blocks : list Z) : prog Heap.heap (option (list Z)) :=
  match l with
  | [] => mret (Some blocks)
  | n :: l => p ← Heap.kmalloc n; if p =? 0 then mret None else alloc_sizes l (blocks ++ [p])
  end.
Definition free_at (blocks : list Z) (ids : list Z) : prog Heap.heap unit :=
  foldr (fun i k => p ← need (arr_get blocks i); _ ← Heap.kfree p; k) (mret tt) ids.

Definition test_heap_fragmentation : test :=
  '(used_before, _, _) ← heap_op Heap.heap_stats;
  blocks ← heap_op (alloc_sizes sizes []);
  match blocks with
  | None => check false "kmalloc failed mid-loop" (mret None)
  | Some blocks =>
      _ ← heap_op (free_at blocks [0; 2; 4]);
      _ ← heap_op (free_at blocks [1; 3; 5]);
      '(used_after, _, _) ← heap_op Heap.heap_stats;
      check (used_after =? used_before) "heap used bytes did not return to baseline" (mret None)
  end.

Definition memory_tests : list test_case :=
  [case "pmm_alloc_free" test_pmm_alloc_free; case "heap_alloc_free" test_heap_alloc_free; case "heap_fragmentation" test_heap_fragmentation].

Definition test_memory_run_all : test := test_run (Some memory_tests) (Z.of_nat (length memory_tests)).

(** * File system suite *)

Definition test_fs_format_mount : test :=
  _ ← files fs_init;
  _ ← show [writeline "[test] FS format/mount: PASS"]; mret None.

Definition c_path (s : string) : option (list Z) := Some (text s ++ [0]).
Definition hello : list Z := text "Hello, ARES OS filesystem!".

(** [buf] is the indeterminate array of 64 characters. *)
Definition test_fs_write_read (buf : list Z) : test :=
  fd ← files (aresfs_open (c_path "/test.txt") (Z.lor (Z.lor ARESFS_O_WRONLY ARESFS_O_CREAT) ARESFS_O_TRUNC));
  check (0 <=? fd) "aresfs_open for write should succeed" (
  written ← files (aresfs_write fd (Some hello));
  check (written =? 26) "aresfs_write should write 26 bytes" (
  _ ← files (aresfs_close fd);
  fd ← files (aresfs_open (c_path "/test.txt") ARESFS_O_RDONLY);
  check (0 <=? fd) "aresfs_open for read should succeed" (
  '(nread, got) ← files (aresfs_read fd false 26);
  check (nread =? 26) "aresfs_read should read 26 bytes" (
  buf ← need (arr_set (got ++ drop (length got) buf) 26 0);
  check (bool_decide (take 26 buf = hello)) "read data should match written data" (
  _ ← files (aresfs_close fd);
  _ ← show [writeline "[test] FS write/read: PASS"]; mret None))))).

(** [expect] and the text of the buffer from [cur] are the same C string. *)
Fixpoint same_name (expect : list Z) (cur : Z) (buf : list Z) : option bool :=
  match expect with
  | [] => None
  | e :: expect => b ← arr_get buf cur; if negb (e =? b) then Some false else if e =? 0 then Some true else same_name expect (cur + 1) buf
  end.
Fixpoint skip_name (fuel : nat) (cur : Z) (buf : list Z) : option Z :=
  match fuel with
  | O => None
  | S fuel => b ← arr_get buf cur; if b =? 0 then Some (cur + 1) else skip_name fuel (cur + 1) buf
  end.
Fixpoint list_has (n : nat) (cur : Z) (buf : list Z) : option bool :=
  match n with
  | O => Some false
  | S n =>
      b ← arr_get buf cur;
      if b =? 0 then Some false
      else m ← same_name (text "mydir" ++ [0]) cur buf;
           if (m : bool) then Some true else cur ← skip_name (length buf) cur buf; list_has n cur buf
  end.

(** [listbuf] is the indeterminate array of 512 characters. *)
Definition test_fs_mkdir_listdir (listbuf : list Z) : test :=
  r ← files (aresfs_mkdir (c_path "/mydir"));
  check (Syscall.status_code r =? 0) "aresfs_mkdir should succeed" (
  '(st, txt) ← files (aresfs_listdir (c_path "/") false 512);
  let listbuf := match st with ARES_OK | ARES_ENOMEM => txt ++ [0] ++ drop (length txt + 1) listbuf | _ => listbuf end in
  let count := Syscall.status_code st in
  check (0 <? count) "aresfs_listdir should return entries" (
  found ← need (list_has (Z.to_nat count) 0 listbuf);
  check found "aresfs_listdir should list mydir" (
  _ ← show [writeline "[test] FS mkdir/listdir: PASS"]; mret None))).

(** The size and mode are stored when the call succeeds. *)
Definition test_fs_stat : test :=
  '(r, st) ← files (aresfs_stat (c_path "/test.txt"));
  check (Syscall.status_code r =? 0) "aresfs_stat should succeed" (
  st ← need st;
  check (26 <=? st.1) "file size should be >= 26" (
  check (negb (Z.land st.2 0x01B6 =? 0)) "file should have rw perms" (
  _ ← show [writeline "[test] FS stat: PASS"]; mret None))).

Definition fs_tests (buf listbuf : list Z) : list test_case :=
  [case "format_mount" test_fs_format_mount; case "write_read" (test_fs_write_read buf);
   case "mkdir_listdir" (test_fs_mkdir_listdir listbuf); case "stat" test_fs_stat].

Definition test_fs_run_all (buf listbuf : list Z) : test :=
  test_run (Some (fs_tests buf listbuf)) (Z.of_nat (length (fs_tests buf listbuf))).

(** * All suites *)

Definition section (s : string) : list console_call := [light VGA_LIGHT_BROWN; writeline s; light VGA_WHITE].

Definition test_run_all (junk : Z * bool) (buf listbuf : list Z) : test :=
  _ ← vars (fun v => set_failed 0 (set_passed 0 v));
  _ ← show [light VGA_LIGHT_CYAN; writeline "============================================"; writeline "  ARES OS Kernel Test Suite";
            writeline "============================================"; light VGA_WHITE];
  _ ← show (section "[scheduler]");
  stay (test_scheduler_run_all junk) (
  _ ← show (section "[memory]");
  stay test_memory_run_all (
  _ ← show (section "[filesystem]");
  stay (test_fs_run_all buf listbuf) (
  v ← gets fst;
  _ ← show [light VGA_LIGHT_CYAN; writeline "============================================";
            Printf (nl "  Summary: %d passed, %d failed") [AVal (test_passed v); AVal (test_failed v)];
            writeline "============================================"; light VGA_WHITE];
  mret None))).
End code.

(** * Verdicts *)

Section verdicts.
Context {H : Type} {HP : PortIO H} {D : Type} {HD : BlockDevice D}.
Variables (img : image) (spin_worker yield_worker : Z) (place : string -> string * Z).
Implicit Types (s : tvars * ares H D) (t : test (H := H) (D := D)).

(** What the system does leaves the variables of the tests alone. *)
Lemma sys_keeps {A} (m : prog (ares H D) A) : keeps fst (system_op m).
Proof. intros [v s] a s'. unfold system_op, Ports.dev. cbn [fst snd]. destruct (m s) as [[b x]|]; [|done]. by intros [= <- <-]. Qed.

Lemma ends_sys {A B} (m : prog (ares H D) A) (k : A -> tprog B) s Q : (forall a s', fst s' = fst s -> ends (k a) s' Q) -> ends (system_op m ≫= k) s Q.
Proof. intros Hk. apply ends_bind. eapply keeps_ends; [apply sys_keeps|exact Hk]. Qed.

(** * The counters *)

Definition tally s : Z * Z := (test_passed s.1, test_failed s.1).

Lemma sys_tally {A} (m : prog (ares H D) A) : keeps tally (system_op m).
Proof. intros s a s' E. unfold tally. by rewrite (sys_keeps m s a s' E). Qed.

Lemma vars_tally f : (forall v, test_passed (f v) = test_passed v /\ test_failed (f v) = test_failed v) -> keeps tally (vars (H := H) (D := D) f).
Proof. intros Hf. apply keeps_modify. intros [v s]. unfold tally. cbn. by destruct (Hf v) as [-> ->]. Qed.

Lemma check_tally c msg t : keeps tally t -> keeps tally (check place c msg t).
Proof.
  intros Ht. unfold check. destruct c; [done|]. apply keeps_bind; [|intros ?; apply keeps_ret]. unfold test_fail.
  apply keeps_bind; [by apply vars_tally|intros ?; apply sys_tally].
Qed.

Lemma stay_tally t t' : keeps tally t -> keeps tally t' -> keeps tally (stay t t').
Proof. intros H1 H2. unfold stay. apply keeps_bind; [done|]. intros [a|]; [apply keeps_ret|done]. Qed.

Local Ltac tallies := repeat first
  [ apply keeps_ret | apply sys_tally | apply check_tally | apply stay_tally | apply keeps_gets | apply keeps_need | by apply vars_tally
  | case_match | apply keeps_bind; [|intros ?] | progress unfold kernel, files, heap_op, frames, show, kill ].

Lemma yield_times_tally n : keeps tally (yield_times img n).
Proof. induction n; cbn [yield_times]; tallies. done. Qed.

Lemma tests_tally junk buf listbuf : Forall (keeps tally)
  [test_sched_create img spin_worker place; test_sched_yield img yield_worker place junk; test_sched_fcfs place junk;
   test_pmm_alloc_free place; test_heap_alloc_free place; test_heap_fragmentation place; test_fs_format_mount;
   test_fs_write_read place buf; test_fs_mkdir_listdir place listbuf; test_fs_stat place].
Proof.
  repeat constructor; unfold test_sched_create, test_sched_yield, test_sched_fcfs, test_pmm_alloc_free, test_heap_alloc_free,
    test_heap_fragmentation, test_fs_format_mount, test_fs_write_read, test_fs_mkdir_listdir, test_fs_stat; cbv zeta; tallies; apply yield_times_tally.
Qed.

(** * Tests that cannot pass *)

Definition cannot_pass t : Prop := forall s, ends t s (fun r s' => r = None -> current_failed s'.1 = 1).

Lemma ends_check c msg t s (Q : option Z -> tvars * ares H D -> Prop) : (c = true -> ends t s Q) ->
  (c = false -> forall s', current_failed s'.1 = 1 -> Q None s') -> ends (check place c msg t) s Q.
Proof.
  intros Ht Hf. unfold check. destruct c; [by apply Ht|]. unfold test_fail. intros a s'. unfold mbind, prog_bind.
  unfold vars, modify, show, system_op, Ports.dev, say. cbn. intros [= <- <-]. by apply Hf.
Qed.

(** Control comes back from a test. *)
Definition comes_back t : Prop := forall s, ends t s (fun r _ => r = None).

Lemma back_bind {A} (m : prog (tvars * ares H D) A) (k : A -> prog (tvars * ares H D) (option Z)) : (forall a, comes_back (k a)) -> comes_back (m ≫= k).
Proof. intros Hk s. apply ends_bind. intros a s1 _. apply Hk. Qed.

Lemma back_ret : comes_back (mret None).
Proof. intros s. by apply ends_ret. Qed.

Lemma back_check c msg t : comes_back t -> comes_back (check place c msg t).
Proof. intros Ht s. apply ends_check; [intros _; apply Ht|done]. Qed.

Local Ltac backs := repeat first [apply back_ret | apply back_check | case_match | apply back_bind; intros ?].

Lemma tests_back junk buf listbuf : Forall comes_back
  [test_sched_fcfs place junk; test_pmm_alloc_free place; test_heap_alloc_free place; test_heap_fragmentation place; test_fs_format_mount;
   test_fs_write_read place buf; test_fs_mkdir_listdir place listbuf; test_fs_stat place].
Proof.
  repeat constructor; unfold test_sched_fcfs, test_pmm_alloc_free, test_heap_alloc_free, test_heap_fragmentation, test_fs_format_mount,
    test_fs_write_read, test_fs_mkdir_listdir, test_fs_stat; cbv zeta; backs.
Qed.

(** No status is positive, so the listing never counts as successful. *)
Lemma mkdir_listdir_fails listbuf : cannot_pass (test_fs_mkdir_listdir place listbuf).
Proof.
  intros s. unfold test_fs_mkdir_listdir. apply ends_sys. intros st s1 _. apply ends_check; [|done]. intros _. apply ends_sys.
  intros [st' txt] s2 _. apply ends_check; [|done]. by destruct st'.
Qed.

(** * The runner *)

(** One more test counted, as failed if it cannot pass. *)
Lemma run_case_ends nm t (bad : bool) s : keeps tally t -> comes_back t -> (bad = true -> cannot_pass t) ->
  ends (run_case (case nm t)) s (fun r s' => r = None /\
    (tally s' = ((tally s).1, i32 ((tally s).2 + 1)) \/ bad = false /\ tally s' = (i32 ((tally s).1 + 1), (tally s).2))).
Proof.
  intros Hk Hback Hbad. unfold run_case. cbn [case tc_fn tc_name].
  apply ends_bind. unfold vars. intros [] s1 [= <-]. unfold show. apply ends_sys. intros [] s2 E2. unfold stay. apply ends_bind.
  intros r s3 E3. rewrite (Hback _ _ _ E3) in E3 |- *. pose proof (Hk _ _ _ E3) as Ht.
  assert (Ht0 : tally s3 = tally s) by (rewrite Ht; unfold tally; by rewrite E2). clear Ht. apply ends_bind. intros v s4 [= <- <-].
  destruct (Z.eqb_spec (current_failed s3.1) 0) as [E0|E0]; cbn [negb]; apply ends_sys; intros [] s5 E5; apply ends_bind; intros [] s6 [= <-];
    apply ends_ret; (split; [done|]); unfold tally in *; cbn; rewrite E5; injection Ht0 as -> ->; [right|by left].
  split; [|done]. destruct bad; [|done]. pose proof (Hbad eq_refl s2 _ _ E3 eq_refl). congruence.
Qed.

(** [n] more tests counted, [bad] of which failed for sure. *)
Definition counted (n bad : nat) (c c' : Z * Z) : Prop := exists p f, c' = (c.1 + p, c.2 + f) /\ 0 <= p /\ Z.of_nat bad <= f /\ p + f = Z.of_nat n.

Definition may_pass (tc : test_case (H := H) (D := D)) (bad : bool) : Prop := exists nm t, tc = case nm t /\ keeps tally t /\ comes_back t /\ (bad = true -> cannot_pass t).

Lemma counted_cons bad n m c c1 c2 : 0 <= c.1 -> 0 <= c.2 -> c.1 + c.2 + Z.of_nat (S n) < 2 ^ 31 ->
  c1 = (c.1, i32 (c.2 + 1)) \/ bad = false /\ c1 = (i32 (c.1 + 1), c.2) -> counted n m c1 c2 ->
  counted (S n) (if bad : bool then S m else m) c c2.
Proof.
  intros H1 H2 Hn Hc (p & f & -> & Hp & Hf & Hs). destruct Hc as [->|[-> ->]]; rewrite (i32_small (_ + 1)) by lia; cbn [fst snd].
  - exists p, (1 + f). split_and!; [f_equal; lia|lia|destruct bad; lia|lia].
  - exists (1 + p), f. split_and!; [f_equal; lia|lia|lia|lia].
Qed.

Lemma suite_loop bads : forall pre tcs s, Forall2 may_pass tcs bads -> 0 <= (tally s).1 -> 0 <= (tally s).2 ->
  (tally s).1 + (tally s).2 + Z.of_nat (length tcs) < 2 ^ 31 ->
  ends (for_ret (length tcs) (Z.of_nat (length pre)) (run_nth (pre ++ tcs))) s
    (fun r s' => r = None /\ counted (length tcs) (length (filter (.= true) bads)) (tally s) (tally s')).
Proof.
  induction bads as [|bad bads IH]; intros pre tcs s Hall H1 H2 Hn; inversion Hall as [|tc ? tcs' ? Htc Htcs]; subst; cbn [length for_ret].
  { apply ends_ret. split; [done|]. exists 0, 0. destruct (tally s). cbn. split_and!; [f_equal; lia|done|done|done]. }
  destruct Htc as (nm & t & -> & Hk & Hback & Hbad). apply ends_bind. unfold run_nth at 1. apply ends_bind. rewrite arr_get_app. intros tc s0 [= <- <-].
  eapply ends_mono; [by apply (run_case_ends _ _ bad)|]. intros r s1 [-> Hs1].
  cbn [length] in Hn. assert (Hc1 : 0 <= (tally s1).1 /\ 0 <= (tally s1).2 /\ (tally s1).1 + (tally s1).2 = (tally s).1 + (tally s).2 + 1).
  { destruct Hs1 as [->|[_ ->]]; rewrite i32_small by lia; cbn [fst snd]; lia. }
  replace (Z.of_nat (length pre) + 1) with (Z.of_nat (length (pre ++ [case nm t]))) by (rewrite length_app; cbn; lia).
  replace (pre ++ case nm t :: tcs') with ((pre ++ [case nm t]) ++ tcs') by (by rewrite <- app_assoc).
  eapply ends_mono; [apply IH; [done|lia|lia|lia]|]. intros r s2 [-> Hr]. split; [done|].
  pose proof (counted_cons bad (length tcs') _ (tally s) _ _ H1 H2 Hn Hs1 Hr) as Hc. by destruct bad.
Qed.

Lemma suite_ends tcs bads s : Forall2 may_pass tcs bads -> 0 <= (tally s).1 -> 0 <= (tally s).2 ->
  (tally s).1 + (tally s).2 + Z.of_nat (length tcs) < 2 ^ 31 ->
  ends (test_run (Some tcs) (Z.of_nat (length tcs))) s
    (fun r s' => r = None /\ counted (length tcs) (length (filter (.= true) bads)) (tally s) (tally s')).
Proof.
  intros Hall H1 H2 Hn. unfold test_run. destruct (Z.leb_spec (Z.of_nat (length tcs)) 0) as [Hz|_].
  - destruct tcs; [|cbn in Hz; lia]. inversion Hall; subst. apply ends_ret. split; [done|]. exists 0, 0. destruct (tally s). cbn.
    split_and!; [f_equal; lia|done|done|done].
  - rewrite Nat2Z.id. by apply (suite_loop bads []).
Qed.

Lemma counted_app n m bad bad' c c1 c2 : counted n bad c c1 -> counted m bad' c1 c2 -> counted (n + m) (bad + bad') c c2.
Proof. intros (p & f & -> & ? & ? & ?) (p' & f' & -> & ? & ? & ?). exists (p + p'), (f + f'). cbn [fst snd]. split_and!; [f_equal; lia|lia|lia|lia]. Qed.

Lemma counted_range n bad c c' : 0 <= c.1 -> 0 <= c.2 -> counted n bad c c' -> 0 <= c'.1 /\ 0 <= c'.2 /\ c'.1 + c'.2 = c.1 + c.2 + Z.of_nat n.
Proof. intros ? ? (p & f & -> & ? & ? & ?). cbn [fst snd]. lia. Qed.

(** The suites, with the test of the last that cannot pass. *)
Lemma suites_may_pass (junk : Z * bool) (buf listbuf : list Z) :
  Forall2 may_pass (memory_tests place) [false; false; false] /\ Forall2 may_pass (fs_tests place buf listbuf) [false; false; true; false].
Proof.
  pose proof (tests_tally junk buf listbuf) as Hall. repeat (apply Forall_cons in Hall as [? Hall]).
  pose proof (tests_back junk buf listbuf) as Hback. repeat (apply Forall_cons in Hback as [? Hback]). unfold memory_tests, fs_tests.
  split; repeat constructor; (eexists _, _; split; [reflexivity|]; split; [assumption|]; split; [assumption|]; intros Hb; try discriminate Hb).
  apply mkdir_listdir_fails.
Qed.

End verdicts.

(** * The scheduler suite *)

(** The slots in use, in order. *)
Definition used_slots (k : kern) : list Z := filter (fun i => slot_free (procs k) i = false) (seqZ 0 MAX_PROCESSES).

Lemma used_slots_spec k i : i ∈ used_slots k <-> slot_ok i /\ slot_free (procs k) i = false.
Proof. unfold used_slots, slot_ok. rewrite list_elem_of_filter, elem_of_seqZ. intuition lia. Qed.

Lemma used_slots_nodup k : NoDup (used_slots k).
Proof. apply NoDup_filter, NoDup_seqZ. Qed.

Lemma enum_loop_exact n : forall i buf x, table_wf x -> 0 <= i -> i + Z.of_nat n = MAX_PROCESSES -> Z.of_nat (length buf) <= i ->
  runs (pcb_enum_loop n i MAX_PROCESSES buf) x (fun l x' => x' = x /\
    l = buf ++ filter (fun j => (active <$> arr_get (pcb_table x) j) = Some true) (seqZ i (Z.of_nat n))).
Proof.
  induction n as [|n IH]; intros i buf x Hwf Hi Hn Hb; cbn [pcb_enum_loop]; [apply runs_ret; by rewrite app_nil_r|].
  rewrite (proj2 (Z.ltb_lt _ _)) by lia. destruct (table_get x i Hwf) as [p Hp]; [unfold slot_ok; lia|].
  apply runs_bind. eapply runs_get_pcb; [exact Hp|]. eapply runs_mono; [apply IH; [done|lia|lia|]|].
  { destruct (active p); [rewrite length_app; cbn|]; lia. }
  intros l x' [-> ->]. split; [done|]. rewrite (seqZ_cons i (Z.of_nat (S n))) by lia. rewrite filter_cons.
  replace (Z.pred (Z.of_nat (S n))) with (Z.of_nat n) by lia. replace (Z.succ i) with (i + 1) by lia. rewrite Hp. cbn [fmap option_fmap option_map].
  destruct (active p); [rewrite decide_True by done; by rewrite <- app_assoc|by rewrite decide_False by done].
Qed.

Lemma enum_exact k id l : proc_inv k id l -> runs (on_table (pcb_enum_active MAX_PROCESSES)) k (fun r k' => r = used_slots k /\ k' = k).
Proof.
  intros Hinv. apply runs_on_table. eapply runs_mono; [apply enum_loop_exact; [by eapply inv_wf|done|done|done]|]. intros r x [-> ->].
  split; [|by destruct k as [[] ? ? ? ? ?]]. apply filter_agree. intros i Hi%elem_of_seqZ.
  destruct (inv_slot k id l i Hinv) as [p Hp]; [unfold slot_ok; lia|]. fold (procs k). rewrite Hp.
  assert (Hc : core_of (procs k) i = Some (core p)) by (unfold core_of; by rewrite Hp).
  destruct (ci_core _ _ _ _ _ (pi_core _ _ _ Hinv) _ _ _ _ _ Hc) as [Ha _]. cbn [fmap option_fmap option_map].
  change (active p) with (active_state (state p)). rewrite Ha. destruct (slot_free (procs k) i); naive_solver.
Qed.

Lemma used_create k k' i : slot_ok i -> slot_free (procs k) i = true ->
  (forall j, slot_free (procs k') j = if j =? i then false else slot_free (procs k) j) -> used_slots k' ≡ₚ i :: used_slots k.
Proof.
  intros Hi Hf Hk. apply NoDup_Permutation; [apply used_slots_nodup|constructor; [|apply used_slots_nodup]|].
  - rewrite used_slots_spec. intros [_ ?]. congruence.
  - intros j. rewrite elem_of_cons, !used_slots_spec, Hk. destruct (Z.eqb_spec j i) as [->|]; naive_solver.
Qed.

Lemma free_create k k' i : slot_ok i -> slot_free (procs k) i = true ->
  (forall j, slot_free (procs k') j = if j =? i then false else slot_free (procs k) j) -> free_slots k ≡ₚ i :: free_slots k'.
Proof.
  assert (Hnd : forall k, NoDup (free_slots k)) by (intros ?; apply NoDup_filter, NoDup_seqZ).
  intros Hi Hf Hk. apply NoDup_Permutation; [apply Hnd|constructor; [|apply Hnd]|].
  - rewrite free_slots_spec, Hk, Z.eqb_refl. by intros [_ ?].
  - intros j. rewrite elem_of_cons, !free_slots_spec, Hk. destruct (Z.eqb_spec j i) as [->|]; naive_solver.
Qed.

(** Another scheduler state with the same processes and queues. *)
Lemma inv_dispatch x k id l : dispatch_state x = dispatch_state (k_sched k) -> proc_inv k id l -> proc_inv (set_sched x k) id l.
Proof.
  intros E [Hr Hb Hci]. assert (procs (set_sched x k) = procs k) as Hp by (by injection E).
  assert (Hc : current_process x = current_process (k_sched k)) by (by injection E).
  split; [by apply (ready_dispatch (k_sched k))|done|]. rewrite Hp. cbn [k_sched set_sched]. by rewrite Hc.
Qed.

Section scheduler_suite.
Context {H : Type} {HP : PortIO H} {D : Type} {HD : BlockDevice D}.
Variables (img : image) (spin_worker yield_worker : Z) (place : string -> string * Z).
Hypotheses (Hst : stacks_ok img) (Hret : 0 <= ret img < 2 ^ (8 * 8)).
Implicit Types (s : ares H D) (v : tvars).

(** A process created while [c] runs: it waits in its slot under the next pid. *)
Record joined (id : Z) (c : Z) (k : kern) (l : list Z) (i : Z) (k' : kern) (l' : list Z) : Prop := {
  jo_inv : proc_inv k' id l';
  jo_perm : l' ≡ₚ i :: l;
  jo_slot : slot_ok i /\ slot_free (procs k) i = true;
  jo_free j : slot_free (procs k') j = if j =? i then false else slot_free (procs k) j;
  jo_new : exists pr nm, core_of (procs k') i = Some (PROCESS_READY, next_pid k, pr, nm);
  jo_old j : j <> i -> core_of (procs k') j = core_of (procs k) j;
  jo_rest : (current_process (k_sched k'), k_cpu k', next_pid k') = (Some c, k_cpu k, next_pid k + 1) }.

Lemma spawn_joins nm entry s id l c : proc_inv (a_kern s) id l -> current_process (k_sched (a_kern s)) = Some c ->
  next_pid (a_kern s) + 1 < 2 ^ 32 -> (0 < length (free_slots (a_kern s)))%nat ->
  runs (spawn img nm entry PRIORITY_NORMAL) s (fun r s' => exists i k' l', r = Some i /\ s' = set_kern k' s /\ joined id c (a_kern s) l i k' l').
Proof.
  intros Hinv Hc Hn Hfree. destruct Hst as [Hs0 Hs1]. unfold spawn. apply runs_on. rewrite <- (as_current_id (a_kern s)) in Hinv.
  eapply runs_mono; [by apply (process_create_gen _ _ _ _ _ _ _ _ Hinv)|]. intros [i|] k'.
  2: { intros [_ Hall]. rewrite free_slots_nil in Hfree by done. cbn in Hfree. lia. }
  intros (Hi & Hf & _ & Hinv' & Hcore & (p & Hpi & Hst' & Hpid & Hpr & _) & Hfr & Hnp & _ & Hcc & Hcpu). rewrite <- Hcc, as_current_id in Hinv'.
  eexists i, k', _. split; [done|]. split; [done|]. split; [exact Hinv'|apply insert_rank_perm|done|done| | |].
  - exists (priority p), (name p). unfold core_of. rewrite Hpi. cbn. unfold core. by rewrite Hst', Hpid.
  - intros j Hj. rewrite Hcore. by rewrite (proj2 (Z.eqb_neq _ _)).
  - by rewrite Hcc, Hc, Hcpu, Hnp.
Qed.

(** A waiting process is killed. *)
Lemma kill_ok i v s id l c pd st pr nm : proc_inv (a_kern s) id l -> current_process (k_sched (a_kern s)) = Some c ->
  i ∈ l -> core_of (procs (a_kern s)) i = Some (st, pd, pr, nm) -> pd <> 1 ->
  runs (kill img i) (v, s) (fun _ t => exists k', t = (v, set_kern k' s) /\ proc_inv k' id (filter (.≠ i) l) /\
    current_process (k_sched k') = Some c /\ (forall j, slot_free (procs k') j = if j =? i then true else slot_free (procs (a_kern s)) j) /\
    (forall j, j <> i -> core_of (procs k') j = core_of (procs (a_kern s)) j) /\
    (k_cpu k', next_pid k') = (k_cpu (a_kern s), next_pid (a_kern s))).
Proof.
  intros Hinv Hc Hil Hi Hpd. pose proof (pi_core _ _ _ Hinv) as Hci. destruct (ci_current _ _ _ _ _ Hci c Hc) as [Hcs Hcl].
  destruct (inv_slot _ _ _ c Hinv Hcs) as [pc Hpc]. unfold core_of in Hi. destruct (arr_get (pcb_table (procs (a_kern s))) i) as [p|] eqn:Hp; [|done].
  cbn in Hi. unfold core in Hi. injection Hi as Hst' Hpid _ _. assert (His : slot_ok i).
  { destruct (ci_slots _ _ _ _ _ Hci) as [_ Hall]. rewrite Forall_forall in Hall. auto. }
  assert (Hlive : slot_free (procs (a_kern s)) i = false /\ slot_free (procs (a_kern s)) c = false)
    by (split; apply (ci_live _ _ _ _ _ Hci); auto).
  assert (Huniq : forall j q, arr_get (pcb_table (procs (a_kern s))) j = Some q -> slot_free (procs (a_kern s)) j = false -> pid q = pd -> j = i).
  { intros j q Hq Hf Eq. eapply (ci_pids _ _ _ _ _ Hci j i); unfold core_of; rewrite ?Hq, ?Hp; cbn; unfold core; rewrite ?Eq, ?Hpid; try reflexivity; [done|apply Hlive]. }
  unfold kill, kernel, system_op. apply runs_bind, Ports.runs_dev, runs_on. eapply runs_table_get; [exact Hp|]. rewrite Hpid.
  apply runs_bind, Ports.runs_dev, runs_on. unfold process_kill. rewrite (proj2 (Z.eqb_neq _ _)) by done. unfold get_current.
  cbn [a_kern set_kern]. run. rewrite Hc. run. eapply runs_table_get; [exact Hpc|].
  assert (Hne : pid pc <> pd) by (intros E; rewrite (Huniq c pc Hpc (proj2 Hlive) E) in Hcl; done). rewrite (proj2 (Z.eqb_neq _ _)) by done.
  eapply runs_mono; [apply (kill_other_run pd _ id l Hinv)|].
  { intros c' p' Hc' Hp'. rewrite Hc in Hc'. injection Hc' as <-. by rewrite Hpc in Hp'; injection Hp' as <-. }
  intros r k' [(_ & _ & Hno)|(_ & d & q & Hd & Hq & Eq & Hf & Hcore & Hcur & Hsame & Hinv')].
  - exfalso. apply (Hno i p Hp); [|done]. change (active p) with (active_state (state p)).
    destruct (ci_core _ _ _ _ _ Hci i (state p) (pid p) (priority p) (name p)) as [-> _]; [unfold core_of; by rewrite Hp|by rewrite (proj1 Hlive)].
  - assert (d = i) as ->.
    { apply (Huniq d q Hq); [|done]. apply (ci_live _ _ _ _ _ Hci); [|auto]. destruct (ci_slots _ _ _ _ _ Hci) as [_ Hall]. rewrite Forall_forall in Hall. auto. }
    run. exists k'. split; [done|]. split_and!; [done|by rewrite Hcur|done| |exact Hsame]. intros j Hj. rewrite Hcore. unfold restate.
    rewrite (proj2 (Z.eqb_neq _ _)) by done. by destruct (core_of (procs (a_kern s)) j) as [[[[? ?] ?] ?]|].
Qed.

Lemma runs_check (c : bool) msg (t : test (H := H) (D := D)) x Q : c = true -> runs t x Q -> runs (check place c msg t) x Q.
Proof. by intros ->. Qed.

(** Three processes that joined, in use and new. *)
Lemma joined_used id c k0 k1 k2 k3 l0 l1 l2 l3 i1 i2 i3 : joined id c k0 l0 i1 k1 l1 -> joined id c k1 l1 i2 k2 l2 -> joined id c k2 l2 i3 k3 l3 ->
  used_slots k3 ≡ₚ i3 :: i2 :: i1 :: used_slots k0 /\ (i1 <> i2 /\ i1 <> i3 /\ i2 <> i3) /\
  length (filter (fun i => i = i1 \/ i = i2 \/ i = i3) (used_slots k3)) = 3%nat.
Proof.
  intros J1 J2 J3. destruct (jo_slot _ _ _ _ _ _ _ J1) as [Hs1 Hf1], (jo_slot _ _ _ _ _ _ _ J2) as [Hs2 Hf2], (jo_slot _ _ _ _ _ _ _ J3) as [Hs3 Hf3].
  assert (Hu : used_slots k3 ≡ₚ i3 :: i2 :: i1 :: used_slots k0).
  { rewrite (used_create k2 k3 i3 Hs3 Hf3 (jo_free _ _ _ _ _ _ _ J3)), (used_create k1 k2 i2 Hs2 Hf2 (jo_free _ _ _ _ _ _ _ J2)).
    by rewrite (used_create k0 k1 i1 Hs1 Hf1 (jo_free _ _ _ _ _ _ _ J1)). }
  assert (Hnd : NoDup (i3 :: i2 :: i1 :: used_slots k0)) by (rewrite <- Hu; apply used_slots_nodup).
  apply NoDup_cons in Hnd as [N3 Hnd]. apply NoDup_cons in Hnd as [N2 Hnd]. apply NoDup_cons in Hnd as [N1 _].
  rewrite !elem_of_cons in *. split; [done|]. split; [naive_solver|]. rewrite Hu, !filter_cons, !decide_True by tauto. cbn [length].
  replace (filter _ (used_slots k0)) with (@nil Z); [done|]. symmetry. apply elem_of_nil_inv. intros j.
  rewrite list_elem_of_filter. naive_solver.
Qed.

Lemma joined_room id c k l i k' l' : joined id c k l i k' l' -> length (free_slots k) = S (length (free_slots k')).
Proof. intros J. destruct (jo_slot _ _ _ _ _ _ _ J) as [Hs Hf]. by rewrite (free_create k k' i Hs Hf (jo_free _ _ _ _ _ _ _ J)). Qed.

(** Killing them again frees their slots and no other. *)
Lemma kills_ok v s id l c k1 k2 k3 l1 l2 l3 i1 i2 i3 :
  joined id c (a_kern s) l i1 k1 l1 -> joined id c k1 l1 i2 k2 l2 -> joined id c k2 l2 i3 k3 l3 -> i1 <> i2 -> i1 <> i3 -> i2 <> i3 ->
  1 < next_pid (a_kern s) ->
  runs (_ ← kill img i1; _ ← kill img i2; _ ← kill img i3; mret (None : option Z)) (v, set_kern k3 s) (fun r t => r = None /\ t.1 = v /\
    exists k' l', t.2 = set_kern k' s /\ proc_inv k' id l' /\ current_process (k_sched k') = Some c /\
      (k_cpu k', next_pid k') = (k_cpu (a_kern s), next_pid (a_kern s) + 3) /\
      forall j, slot_free (procs k') j = slot_free (procs (a_kern s)) j).
Proof.
  intros J1 J2 J3 D12 D13 D23 Hn.
  pose proof (jo_rest _ _ _ _ _ _ _ J1) as R. injection R as _ P1 N1. pose proof (jo_rest _ _ _ _ _ _ _ J2) as R. injection R as _ P2 N2.
  pose proof (jo_rest _ _ _ _ _ _ _ J3) as R. injection R as C3 P3 N3.
  assert (Hl : l3 ≡ₚ i3 :: i2 :: i1 :: l) by (by rewrite (jo_perm _ _ _ _ _ _ _ J3), (jo_perm _ _ _ _ _ _ _ J2), (jo_perm _ _ _ _ _ _ _ J1)).
  destruct (jo_new _ _ _ _ _ _ _ J1) as (pr1 & nm1 & E1), (jo_new _ _ _ _ _ _ _ J2) as (pr2 & nm2 & E2), (jo_new _ _ _ _ _ _ _ J3) as (pr3 & nm3 & E3).
  rewrite <- (jo_old _ _ _ _ _ _ _ J2), <- (jo_old _ _ _ _ _ _ _ J3) in E1 by done. rewrite <- (jo_old _ _ _ _ _ _ _ J3) in E2 by done.
  apply runs_bind. eapply runs_mono; [eapply (kill_ok i1 v _ id l3 c); cbn [a_kern set_kern]; [apply J3|done|rewrite Hl; set_solver|exact E1|lia]|].
  intros _ t (ka & -> & Ha & Ca & Fa & Oa & Ra). cbn [a_kern set_kern] in Fa, Oa, Ra.
  apply runs_bind. eapply runs_mono; [eapply (kill_ok i2 v _ id _ c); cbn [a_kern set_kern]; [exact Ha|done| |by rewrite Oa by done|lia]|].
  { apply list_elem_of_filter. rewrite Hl. set_solver. }
  intros _ t (kb & -> & Hb & Cb & Fb & Ob & Rb). cbn [a_kern set_kern] in Fb, Ob, Rb.
  apply runs_bind. eapply runs_mono; [eapply (kill_ok i3 v _ id _ c); cbn [a_kern set_kern]; [exact Hb|done| |by rewrite Ob, Oa by done|lia]|].
  { rewrite !list_elem_of_filter, Hl. set_solver. }
  intros _ t (kc & -> & Hc & Cc & Fc & _ & Rc). cbn [a_kern set_kern] in Fc, Rc. apply runs_ret. split_and!; [done|done|]. eexists kc, _.
  split; [done|]. split; [exact Hc|]. split; [done|].
  split; [rewrite Rc, Rb, Ra, P3, P2, P1, N3, N2, N1; f_equal; lia|]. intros j.
  assert (Hwas : forall i, i = i1 \/ i = i2 \/ i = i3 -> slot_free (procs (a_kern s)) i = true).
  { pose proof (jo_slot _ _ _ _ _ _ _ J1) as [_ S1]. pose proof (jo_slot _ _ _ _ _ _ _ J2) as [_ S2]. pose proof (jo_slot _ _ _ _ _ _ _ J3) as [_ S3].
    rewrite (jo_free _ _ _ _ _ _ _ J1), (proj2 (Z.eqb_neq _ _)) in S2 by done.
    rewrite (jo_free _ _ _ _ _ _ _ J2), (proj2 (Z.eqb_neq _ _)), (jo_free _ _ _ _ _ _ _ J1), (proj2 (Z.eqb_neq _ _)) in S3 by done.
    intros i [->|[->| ->]]; done. }
  rewrite Fc, Fb, Fa, (jo_free _ _ _ _ _ _ _ J3), (jo_free _ _ _ _ _ _ _ J2), (jo_free _ _ _ _ _ _ _ J1).
  destruct (Z.eqb_spec j i1), (Z.eqb_spec j i2), (Z.eqb_spec j i3); try (symmetry; apply Hwas; tauto). done.
Qed.

(** The creation test passes, and cleans up. *)
Lemma sched_create_ok v s id l c : proc_inv (a_kern s) id l -> current_process (k_sched (a_kern s)) = Some c ->
  1 < next_pid (a_kern s) -> next_pid (a_kern s) + 3 < 2 ^ 32 -> (3 <= length (free_slots (a_kern s)))%nat ->
  runs (test_sched_create img spin_worker place) (v, s) (fun r t => r = None /\ t.1 = v /\
    exists k' l', t.2 = set_kern k' s /\ proc_inv k' id l' /\ current_process (k_sched k') = Some c /\
      (k_cpu k', next_pid k') = (k_cpu (a_kern s), next_pid (a_kern s) + 3) /\
      forall j, slot_free (procs k') j = slot_free (procs (a_kern s)) j).
Proof.
  intros Hinv Hc Hn1 Hn Hfree. unfold test_sched_create, kernel, system_op. cbv zeta.
  apply runs_bind, Ports.runs_dev, runs_on. eapply runs_mono; [by eapply enum_exact|]. intros before k [-> ->].
  replace (set_kern (a_kern s) s) with s by (by destruct s).
  apply runs_bind, Ports.runs_dev. eapply runs_mono; [apply (spawn_joins _ _ s id l c); [done|done|lia|lia]|]. intros p1 s1 (i1 & k1 & l1 & -> & -> & J1).
  pose proof (jo_rest _ _ _ _ _ _ _ J1) as R1. injection R1 as C1 _ N1. pose proof (joined_room _ _ _ _ _ _ _ J1) as F1.
  apply runs_bind, Ports.runs_dev. eapply runs_mono; [apply (spawn_joins _ _ _ id l1 c); cbn [a_kern set_kern]; [apply J1|done|lia|lia]|].
  intros p2 s2 (i2 & k2 & l2 & -> & -> & J2). cbn [a_kern set_kern] in J2.
  pose proof (jo_rest _ _ _ _ _ _ _ J2) as R2. injection R2 as C2 _ N2. pose proof (joined_room _ _ _ _ _ _ _ J2) as F2.
  apply runs_bind, Ports.runs_dev. eapply runs_mono; [apply (spawn_joins _ _ _ id l2 c); cbn [a_kern set_kern]; [apply J2|done|lia|lia]|].
  intros p3 s3 (i3 & k3 & l3 & -> & -> & J3). cbn [a_kern set_kern] in J3. pose proof (jo_rest _ _ _ _ _ _ _ J3) as R3. injection R3 as C3 _ _.
  destruct (joined_used _ _ _ _ _ _ _ _ _ _ _ _ _ J1 J2 J3) as (Hu & (D12 & D13 & D23) & Hfound).
  apply runs_bind, Ports.runs_dev, runs_on. eapply runs_mono; [eapply enum_exact, J3|]. intros after k [-> ->]. cbn [a_kern set_kern].
  apply runs_check; [rewrite Hu; cbn [length]; apply Z.leb_le; lia|]. apply runs_check; [by rewrite Hfound|].
  change (set_kern k3 _) with (set_kern k3 s). by apply (kills_ok v s id l c k1 k2 k3 l1 l2 l3).
Qed.

(** Each yield comes back; the slots in use stay. *)
Lemma yield_times_ok n : forall v s id l c, proc_inv (a_kern s) id l -> cpu_ok (k_cpu (a_kern s)) -> current_process (k_sched (a_kern s)) = Some c ->
  runs (yield_times img n) (v, s) (fun r t => r = None /\ exists k' l' c', t = (v, set_kern k' s) /\ proc_inv k' id l' /\
    current_process (k_sched k') = Some c' /\ forall j, slot_free (procs k') j = slot_free (procs (a_kern s)) j).
Proof.
  induction n as [|n IH]; intros v s id l c Hinv Hcpu Hc; cbn [yield_times].
  { apply runs_ret. split; [done|]. exists (a_kern s), l, c. split_and!; try done. by destruct s. }
  destruct (ci_current _ _ _ _ _ (pi_core _ _ _ Hinv) c Hc) as [Hcs Hcl].
  assert (Hlive : slot_free (procs (a_kern s)) c = false) by (apply (ci_live _ _ _ _ _ (pi_core _ _ _ Hinv)); auto).
  unfold stay, kernel, system_op. apply runs_bind, runs_bind, Ports.runs_dev, runs_on. eapply runs_mono.
  { apply runs_and; [by apply (yield_run _ _ id l c)|]. by apply (yield_tasks _ _ id l c); [apply inv_tasks| | | | | |]. }
  intros a k' [(-> & Hcpu' & _ & m & l' & _ & Hc' & Hinv' & _) (_ & _ & _ & _ & _ & _ & _ & Hf & _)].
  apply runs_ret. cbn [away]. rewrite Z.eqb_refl. eapply runs_mono; [apply (IH v _ id l' m); cbn [a_kern set_kern]; [done|by rewrite Hcpu'|done]|].
  intros r t (-> & k2 & l2 & c2 & -> & H2 & C2 & F2). split; [done|]. exists k2, l2, c2. split_and!; try done. intros j. rewrite F2. apply Hf.
Qed.

(** The yield test fails, and its worker stays. *)
Lemma sched_yield_ok junk v s id l c : proc_inv (a_kern s) id l -> cpu_ok (k_cpu (a_kern s)) -> current_process (k_sched (a_kern s)) = Some c ->
  next_pid (a_kern s) + 1 < 2 ^ 32 -> (0 < length (free_slots (a_kern s)))%nat ->
  runs (test_sched_yield img yield_worker place junk) (v, s) (fun r t => r = None /\ current_failed t.1 = 1 /\
    exists k' l' i, a_kern t.2 = k' /\ proc_inv k' id l' /\ free_slots (a_kern s) ≡ₚ i :: free_slots k').
Proof.
  intros Hinv Hcpu Hc Hn Hfree. unfold test_sched_yield, kernel, system_op. cbv zeta.
  apply runs_bind, runs_bind, Ports.runs_dev, runs_on. eapply runs_mono; [apply (get_stats_run id l), inv_tasks, Hinv|].
  intros st k0 (x & st' & -> & -> & Hx & _). apply runs_ret.
  assert (Hxp : procs (set_sched x (a_kern s)) = procs (a_kern s)) by (by injection Hx).
  assert (Hfs : free_slots (set_sched x (a_kern s)) = free_slots (a_kern s)) by (unfold free_slots; by rewrite Hxp).
  assert (Hxc : current_process x = current_process (k_sched (a_kern s))) by (by injection Hx). unfold vars. run. apply Ports.runs_dev.
  eapply runs_mono; [apply (spawn_joins _ _ _ id l c); cbn [a_kern set_kern]; [by apply inv_dispatch|cbn; by rewrite Hxc|done|]|].
  { by rewrite <- Hfs in Hfree. }
  intros p s1 (i & k1 & l1 & -> & -> & J). cbn [a_kern set_kern] in J. pose proof (jo_rest _ _ _ _ _ _ _ J) as R. injection R as C1 P1 _.
  apply runs_check; [done|]. unfold stay. apply runs_bind.
  eapply runs_mono; [apply (yield_times_ok 20 _ _ id l1 c); cbn [a_kern set_kern]; [apply J|by rewrite P1|done]|].
  intros r t (-> & k2 & l2 & c2 & -> & H2 & C2 & F2). cbn [a_kern set_kern] in F2. run. cbn [fst g_yield_runs set_yield_runs].
  change (2 <=? 0) with false. unfold check, test_fail, vars, show, system_op. run. apply Ports.runs_dev, runs_say. run.
  split; [done|]. split; [done|]. exists k2, l2, i. split; [done|]. split; [done|]. destruct (jo_slot _ _ _ _ _ _ _ J) as [Hs Hf].
  rewrite (free_slots_same k1 k2) by done. rewrite <- Hfs.
  exact (free_create _ k1 i Hs Hf (jo_free _ _ _ _ _ _ _ J)).
Qed.

(** The runner counts what the flag says. *)
Lemma run_case_ok nm (t : test (H := H) (D := D)) v s (fl : Z) (Q : kern -> Prop) : keeps tally t ->
  (forall v' o, current_failed v' = 0 -> runs t (v', set_out o s) (fun r t' => r = None /\ current_failed t'.1 = fl /\ Q (a_kern t'.2))) ->
  runs (run_case (case nm t)) (v, s) (fun r t' => r = None /\ Q (a_kern t'.2) /\
    tally t' = if fl =? 0 then (i32 (test_passed v + 1), test_failed v) else (test_passed v, i32 (test_failed v + 1))).
Proof.
  intros Hk Ht. unfold run_case, vars, show, system_op. cbn [case tc_fn tc_name]. run. apply Ports.runs_dev, runs_say. unfold stay. apply runs_bind.
  eapply runs_mono; [eapply runs_keeps; [exact Hk|apply Ht; reflexivity]|]. intros r [v1 s1] [(-> & Hf & HQ) Htl]. cbn [fst snd] in Hf, HQ.
  unfold tally in Htl. cbn [fst test_passed test_failed set_current_failed] in Htl. injection Htl as Hp1 Hf1. run. cbn [fst]. rewrite Hf.
  destruct (fl =? 0) eqn:E; cbn [negb]; run; apply Ports.runs_dev, runs_say; run; (split; [done|]; split; [done|]); unfold tally; cbn; by rewrite Hp1, Hf1.
Qed.

(** C23: two tests of the scheduler suite in a system with room for three more
    processes.  The creation test passes, and the three processes it creates
    are gone afterwards; the yield test comes to its end, always counts as
    failed, and leaves its worker in the process table. *)
Theorem scheduler_tests_verdict junk v s id l c :
  proc_inv (a_kern s) id l -> cpu_ok (k_cpu (a_kern s)) -> current_process (k_sched (a_kern s)) = Some c ->
  1 < next_pid (a_kern s) -> next_pid (a_kern s) + 3 < 2 ^ 32 -> (3 <= length (free_slots (a_kern s)))%nat ->
  runs (run_case (case "sched_create" (test_sched_create img spin_worker place))) (v, s) (fun r t => r = None /\
    ((exists l', proc_inv (a_kern t.2) id l') /\ free_slots (a_kern t.2) = free_slots (a_kern s)) /\
    tally t = (i32 (test_passed v + 1), test_failed v)) /\
  runs (run_case (case "sched_yield" (test_sched_yield img yield_worker place junk))) (v, s) (fun r t => r = None /\
    ((exists l', proc_inv (a_kern t.2) id l') /\ exists i, free_slots (a_kern s) ≡ₚ i :: free_slots (a_kern t.2)) /\
    tally t = (test_passed v, i32 (test_failed v + 1))).
Proof.
  intros Hinv Hcpu Hc Hn1 Hn Hroom. pose proof (tests_tally (H := H) (HD := HD) img spin_worker yield_worker place junk [] []) as Htl.
  apply Forall_cons in Htl as [T1 Htl]. apply Forall_cons in Htl as [T2 _]. split.
  - apply (run_case_ok _ _ v s 0 (fun k => (exists l', proc_inv k id l') /\ free_slots k = free_slots (a_kern s)) T1).
    intros v' o Hv. eapply runs_mono; [by apply (sched_create_ok v' _ id l c)|]. intros r [v1 s1] (-> & E & k' & l' & Es & Hk & _ & _ & Hf).
    cbn [fst snd] in *. subst. split_and!; [done|done|by exists l'|]. by apply free_slots_same.
  - apply (run_case_ok _ _ v s 1 (fun k => (exists l', proc_inv k id l') /\ exists i, free_slots (a_kern s) ≡ₚ i :: free_slots k) T2).
    intros v' o Hv. eapply runs_mono; [apply (sched_yield_ok junk v' _ id l c); cbn [a_kern set_out]; [done|done|done|lia|lia]|].
    intros r t (-> & Hf & k' & l' & i & Es & Hk & Hp). rewrite Es. split_and!; [done|done|by exists l'|by exists i].
Qed.

Lemma ends_nth (tcs : list (test_case (H := H) (D := D))) i tc x Q : arr_get tcs i = Some tc -> ends (run_case tc) x Q -> ends (run_nth tcs i) x Q.
Proof. intros Hi Hr. unfold run_nth. apply ends_bind. rewrite Hi. by intros ? ? [= <- <-]. Qed.

(** The scheduler suite: control comes back from its three tests, and the
    second has failed. *)
Lemma scheduler_suite_ends junk v s id l c :
  proc_inv (a_kern s) id l -> cpu_ok (k_cpu (a_kern s)) -> current_process (k_sched (a_kern s)) = Some c ->
  1 < next_pid (a_kern s) -> next_pid (a_kern s) + 4 < 2 ^ 32 -> (3 <= length (free_slots (a_kern s)))%nat ->
  0 <= test_passed v -> 0 <= test_failed v -> test_passed v + test_failed v + 3 < 2 ^ 31 ->
  ends (test_scheduler_run_all img spin_worker yield_worker place junk) (v, s) (fun r t =>
    r = None /\ counted 3 1 (test_passed v, test_failed v) (tally t)).
Proof.
  intros Hinv Hcpu Hc Hn1 Hn Hroom H1 H2 H3. pose proof (tests_tally (H := H) (HD := HD) img spin_worker yield_worker place junk [] []) as Htl.
  apply Forall_cons in Htl as [T1 Htl]. apply Forall_cons in Htl as [T2 Htl]. apply Forall_cons in Htl as [T3 _].
  pose proof (tests_back (H := H) (HD := HD) place junk [] []) as Hback. apply Forall_cons in Hback as [B3 _].
  unfold test_scheduler_run_all, test_run. set (tcs := sched_tests _ _ _ _ _). change (Z.of_nat (length tcs)) with 3. cbn [Z.leb Z.compare].
  change (Z.to_nat 3) with 3%nat. cbn [for_ret]. apply ends_bind. apply (ends_nth _ _ _ _ _ (eq_refl : arr_get tcs 0 = Some (case "sched_create" _))).
  intros r1 t1 E1. eapply runs_det in E1.
  2: { apply (run_case_ok _ _ v s 0 (fun k => (exists l', proc_inv k id l') /\ current_process (k_sched k) = Some c /\
         (k_cpu k, next_pid k) = (k_cpu (a_kern s), next_pid (a_kern s) + 3) /\ free_slots k = free_slots (a_kern s)) T1).
       intros v' o Hv. eapply runs_mono; [apply (sched_create_ok v' _ id l c); cbn [a_kern set_out]; done || lia|].
       intros r [v1 s1] (-> & E & k' & l' & Es & Hk & Hck & Hr & Hf). cbn [fst snd] in *. subst. split_and!; try done; [by exists l'|]. by apply free_slots_same. }
  destruct t1 as [v1 s1], E1 as (-> & ([l1 Hinv1] & Hc1 & [= Hcpu1 Hnp1] & Hf1) & Ht1). cbn [snd] in *. unfold tally in Ht1. cbn [fst Z.eqb] in Ht1.
  injection Ht1 as Hp1 Hq1. rewrite i32_small in Hp1 by lia. apply ends_bind.
  apply (ends_nth _ _ _ _ _ (eq_refl : arr_get tcs (0 + 1) = Some (case "sched_yield" _))). intros r2 t2 E2. eapply runs_det in E2.
  2: { apply (run_case_ok _ _ v1 s1 1 (fun _ => True) T2). intros v' o Hv.
       eapply runs_mono; [apply (sched_yield_ok junk v' _ id l1 c); cbn [a_kern set_out]; [done|by rewrite Hcpu1|done|lia|rewrite Hf1; lia]|].
       intros r t (-> & Hf & _). done. }
  destruct E2 as (-> & _ & Ht2). cbn [Z.eqb] in Ht2. rewrite i32_small in Ht2 by lia. apply ends_bind.
  apply (ends_nth _ _ _ _ _ (eq_refl : arr_get tcs (0 + 1 + 1) = Some (case "sched_fcfs" _))).
  eapply ends_mono; [by apply (run_case_ends _ _ false)|]. intros r t3 [-> Ht3]. apply ends_ret. split; [done|].
  rewrite Ht2 in Ht3. cbn [fst snd] in Ht3. destruct Ht3 as [->|[_ ->]]; rewrite i32_small by lia.
  - exists 1, 2. cbn [fst snd]. split_and!; [f_equal; lia|lia|lia|lia].
  - exists 2, 1. cbn [fst snd]. split_and!; [f_equal; lia|lia|lia|lia].
Qed.

(** C22: the self tests.  While a process runs and there is room for three more,
    under any of the four schedulers and whatever memory and the disk hold, a
    run of all suites that ends comes back to its caller and has counted ten
    tests, at least two of them as failed: the yield test, whose worker never
    runs because every [yield] of the test comes straight back, and the listing
    test, which takes the status of [aresfs_listdir] for a number of entries. *)
Theorem tests_never_all_pass junk buf listbuf v s id l c r t :
  proc_inv (a_kern s) id l -> cpu_ok (k_cpu (a_kern s)) -> current_process (k_sched (a_kern s)) = Some c ->
  1 < next_pid (a_kern s) -> next_pid (a_kern s) + 4 < 2 ^ 32 -> (3 <= length (free_slots (a_kern s)))%nat ->
  test_run_all img spin_worker yield_worker place junk buf listbuf (v, s) = Some (r, t) ->
  r = None /\ 2 <= test_failed t.1 /\ test_passed t.1 + test_failed t.1 = 10.
Proof.
  intros Hinv Hcpu Hc Hn1 Hn Hroom Hrun. destruct (suites_may_pass (H := H) (HD := HD) img spin_worker yield_worker place junk buf listbuf) as (Hm & Hf).
  assert (Hgo : ends (test_run_all img spin_worker yield_worker place junk buf listbuf) (v, s) (fun r t => r = None /\ counted 10 2 (0, 0) (tally t))).
  2: { destruct (Hgo _ _ Hrun) as (-> & p & f & E & Hp & Hfa & Hsum). unfold tally in E. cbn in E. injection E as -> ->. split; [done|]. lia. }
  clear Hrun. unfold test_run_all. apply ends_bind. intros [] s0 [= <-]. apply ends_bind. intros [] s1 [= <-]. apply ends_bind. intros [] s2 [= <-].
  cbn [fst snd]. apply ends_bind. eapply ends_mono; [by apply (scheduler_suite_ends junk _ _ id l c)|]. intros ? s3 [-> Hc3].
  cbn [test_passed test_failed set_failed set_passed] in Hc3. unfold show. apply ends_sys. intros [] s4 E4.
  replace (tally s3) with (tally s4) in Hc3 by (unfold tally; by rewrite E4).
  pose proof (counted_range _ _ (0, 0) _ ltac:(done) ltac:(done) Hc3) as R4. cbn in R4.
  apply ends_bind. eapply ends_mono; [apply (suite_ends _ _ s4 Hm); cbn; lia|]. intros ? s5 [-> Hc5].
  apply ends_sys. intros [] s6 E6. replace (tally s5) with (tally s6) in Hc5 by (unfold tally; by rewrite E6).
  pose proof (counted_app _ _ _ _ _ _ _ Hc3 Hc5) as Hc6. pose proof (counted_range _ _ (0, 0) _ ltac:(done) ltac:(done) Hc6) as R6. cbn in R6.
  apply ends_bind. eapply ends_mono; [apply (suite_ends _ _ s6 Hf); cbn; lia|]. intros ? s7 [-> Hc7].
  pose proof (counted_app _ _ _ _ _ _ _ Hc6 Hc7) as Hc8. apply ends_bind. intros v8 s8 [= <- <-]. apply ends_sys.
  intros [] s9 E9. apply ends_ret. split; [done|]. by replace (tally s9) with (tally s7) by (unfold tally; by rewrite E9).
Qed.
End scheduler_suite.

(** * A run after boot *)

Module DemoTests.
Import Boot.DemoBoot.

(** The machine at the shell's prompt, and a run of all suites on it. *)
Definition at_prompt : ares Z ram_disk :=
  default demo_loaded (snd <$> (_ ← init_components demo_image; start_demos demo_image) demo_loaded).
Notation demo_tests := (test_run_all (H := Z) (D := ram_disk) demo_image 0x104000 0x104100 (fun _ => ("test.c"%string, 1)) (0, true)
  (replicate 64 9) (replicate 512 9)).
Definition zero_vars : tvars := mk_tvars 0 0 0 0.

(** Eight tests pass and two fail. *)
Example demo_tests_counts : (fun p => (p.1, tally p.2)) <$> demo_tests (zero_vars, at_prompt) = Some (None, (8, 2)).
Proof. vm_compute. reflexivity. Qed.

Lemma result_of {A B C} (f : B -> C) (m : option (A * B)) a c : (fun p => (p.1, f p.2)) <$> m = Some (a, c) -> exists b, m = Some (a, b).
Proof. destruct m as [[x b]|]; [|done]. intros [= -> _]. by exists b. Qed.
End DemoTests.
Import Boot.DemoBoot Tasks.DemoTasks DemoTests.

(** At the prompt the shell runs in the place of the first demo process. *)
Lemma at_prompt_ready : exists k o s1, at_prompt = set_kern k (set_out o s1) /\ demos_waiting k.
Proof.
  assert (Hr : runs (_ ← init_components demo_image; start_demos demo_image) demo_loaded
    (fun _ s => exists k o s1, s = set_kern k (set_out o s1) /\ demos_waiting k)).
  { apply runs_bind. eapply runs_mono; [apply (init_components_ok _ _ demo_image_ok demo_loaded_ok)|]. intros [] s1 (_ & Hl & Hc & _).
    eapply runs_mono; [apply (start_demos_ok _ _ demo_image_ok Hl Hc)|]. intros a s2 (_ & k & o & -> & Hw). by exists k, o, s1. }
  destruct Hr as (a & s & E & Hs). unfold at_prompt. by rewrite E.
Qed.

Lemma tests_never_all_pass_witness : exists s',
  demo_tests (zero_vars, at_prompt) = Some (None, s') /\ 2 <= test_failed s'.1 /\ test_passed s'.1 + test_failed s'.1 = 10.
Proof.
  destruct (result_of _ _ _ _ demo_tests_counts) as [s' E]. exists s'. split; [exact E|]. destruct at_prompt_ready as (k & o & s1 & Es & Hw).
  assert (Hk : a_kern at_prompt = k) by (rewrite Es; reflexivity).
  refine (proj2 (tests_never_all_pass demo_image 0x104000 0x104100 _ (io_stacks _ demo_image_ok) (io_ret _ demo_image_ok)
    (0, true) _ _ zero_vars at_prompt SCHED_FCFS _ 1 None s' _ _ _ _ _ _ E)); rewrite Hk.
  - exact (dw_inv _ Hw).
  - exact (dw_cpu _ Hw).
  - exact (dw_current _ Hw).
  - rewrite (dw_next _ Hw). lia.
  - rewrite (dw_next _ Hw). lia.
  - rewrite (waiting_free _ Hw). vm_compute. lia.
Defined.

Lemma scheduler_tests_verdict_witness :
  runs (_ ← init_components demo_image; _ ← start_demos demo_image;
        with_vars zero_vars (run_case (case "sched_yield" (test_sched_yield demo_image 0x104100 (fun _ => ("test.c"%string, 1)) (0, true)))))
    demo_loaded (fun r s' => r = None /\ exists l', proc_inv (a_kern s') SCHED_FCFS l').
Proof.
  apply runs_bind. eapply runs_mono; [apply (init_components_ok _ _ demo_image_ok demo_loaded_ok)|]. intros [] s1 (_ & Hl & Hc & _).
  apply runs_bind. eapply runs_mono; [apply (start_demos_ok _ _ demo_image_ok Hl Hc)|]. intros a s2 (_ & k & o & -> & Hw).
  apply runs_with_vars.
  destruct (scheduler_tests_verdict demo_image 0x104000 0x104100 (fun _ => ("test.c"%string, 1)) (io_stacks _ demo_image_ok) (io_ret _ demo_image_ok)
    (0, true) zero_vars (set_kern k (set_out o s1)) SCHED_FCFS _ 1 (dw_inv _ Hw) (dw_cpu _ Hw) (dw_current _ Hw)) as [_ Hy].
  - cbn [a_kern set_kern]. rewrite (dw_next _ Hw). lia.
  - cbn [a_kern set_kern]. rewrite (dw_next _ Hw). lia.
  - cbn [a_kern set_kern]. rewrite (waiting_free _ Hw). vm_compute. lia.
  - eapply runs_mono; [exact Hy|]. intros r t (-> & (Hinv & _) & _). split; [reflexivity|exact Hinv].
Defined.

End SelfTest.
